(* ===== verification/_CoqProject ===== *)
-Q . S2P
Prelude.v
Bitmap.v
Arith64.v
Cstring.v
Clib.v
Stdio.v
Klist.v
Hash.v
Vaddr.v
Stack.v
Pagedir.v
Block.v
Swap.v
Page.v
Frame.v
Palloc.v
Malloc.v
Thread.v
Sched.v
Reach.v
Fair.v
Fs.v
Inode.v
Extents.v
Files.v
Directory.v
Filesys.v
Calls.v
Format.v
Loader.v
Process.v
Syscall.v
Sysrefine.v
Random.v
Ustar.v
Ide.v
