(* ===== verification/Prelude.v ===== *)
(** * A verification development of the Pintos kernel of this repository

    Pintos is a small operating system for a 32-bit PC.  This library holds a
    model of its kernel, translated function by function from the C sources
    under src/, and theorems about it.

    ** The parts, and the files that model them

    Data structures of lib/kernel/.
    - [Bitmap]: bitmap.c.  An array of 32-bit words; [bitmap_scan_and_flip] is
      first fit.
    - [Klist]: list.c.  Doubly linked lists with sentinels, as loads and stores
      on a heap of nodes; every sequence of operations refines the operations
      on functional lists, and [list_sort] sorts.
    - [Hash]: hash.c.  Chained hash tables with resizing refine finite maps,
      for any client whose hash and comparison satisfy the class [HashKey].

    The C library, lib/.
    - [Arith64]: arithmetic.c.  64-bit division by the 32-bit instruction.
    - [Cstring]: string.c.  Loads and stores on a memory of bytes.
    - [Clib]: stdlib.c and ctype.h.  [qsort], [bsearch] and [atoi].
    - [Stdio]: stdio.c.  Formats, conversions and [snprintf].

    Memory.
    - [Vaddr]: threads/vaddr.h and pte.h.  Addresses and page table entries.
    - [Pagedir]: userprog/pagedir.c.  Page directories in memory, with CR3.
    - [Palloc]: threads/palloc.c.  The page allocator and its two pools.
    - [Malloc]: threads/malloc.c.  The block allocator on top of it.
    - [Swap], [Page], [Frame]: vm/swap.c, vm/page.c, vm/frame.c, and the page
      fault handler of userprog/exception.c.  Demand paging and eviction.

    Devices.
    - [Block]: devices/block.c and partition.c.  Block devices, whose driver is
      a record of operations with the laws of the class [DriverOk], and
      partitions, which are drivers on top of a block device.

    Threads.
    - [Thread]: threads/thread.c, synch.c and the levels of interrupt.c.  A
      machine with one processor; a thread has a list of stretches of kernel
      code left to do, and others run between two of them.
    - [Sched], [Reach], [Fair]: what each stretch does, the invariants of the
      reachable states by rule induction, and the fairness of time slices.

    The file system, filesys/.
    - [Fs]: the definitions, of inode.c, free-map.c, file.c, directory.c and
      filesys.c, on one state.
    - [Inode]: reading and writing the data of an inode.
    - [Extents]: the free map, creating, opening and closing inodes.
    - [Files]: files and directories as holders of inodes.
    - [Directory]: entries and names.
    - [Filesys]: the volume as a whole.
    - [Calls]: the specification and the refinement.
    - [Format]: formatting, shutting down and mounting again.

    Processes, userprog/.
    - [Stack]: parse_push of process.c.  The arguments on the stack.
    - [Loader]: load of process.c and what it calls, on the file system and on
      virtual memory together.
    - [Process]: the tree of thread structures.  Creating, waiting for and
      ending processes of process.c and syscall.c, and a machine that
      interleaves them.
    - [Syscall]: the handler of syscall.c with every call, on files, virtual
      memory and the tree of processes together.
    - [Sysrefine]: user memory, the specification of the calls on descriptors
      and the refinement.

    ** Conventions

    C code becomes functions in the monad of outcomes of this file: [Ret], or
    [Fail] with the reason.  Code with state is a [cmd], a function from the
    state to the outcome of a result and a new state, written with [let*].
    Machine integers are [Z] and every operation that can leave their range is
    wrapped with [u32], [s32] and so on.  Loops have fuel, computed from their
    bounds; the theorems show that the result is a [Ret], so that the fuel is
    enough and no assertion of the source fails.  Exceptions are
    [Block.extended_scan_diverges], which shows that no fuel is enough, and
    the walk of [list_size] and the like, whose fuel is the size of the heap.

    Pointers are integers.  Objects on a heap are entries of finite maps, and
    a load outside of them is a [Fault].  A lock or semaphore that only
    protects one call makes this call one step and is left out; [Thread] has
    the proof for locks in general.  Memory returned by an allocator that
    another file models is an argument, or comes from a counter.

    ** What the theorems show

    For the data structures: refinement of lists and maps, sorting, first fit,
    splicing, complete iteration.  For the C library: exact division, copies
    that may overlap, tokens, sorting and searching for any client of the class
    [Comparison], exact integer conversions, and that [atoi] reads back what
    [snprintf] prints.  For memory: disjointness of what the
    allocators hand out, in every sequence of calls; round trips of page
    tables and swap; what a page fault and an eviction do.  For threads: in
    every reachable state no assertion fails, no wake-up is lost and a lock has
    one holder; a ready thread runs after a bounded number of ticks.  For the
    file system: every program of calls gets results that an abstract
    specification allows, on a formatted volume and after a restart; creation
    succeeds when there is room.  For processes: [load] of an ELF file enters
    exactly the pages of its segments, whose contents are those of the file, and
    leaves a stack with the words of the command line; the calls on
    descriptors do what a specification says, for arguments in present pages,
    and bad pointers end the process; in every interleaving of processes a wait
    returns the status of its child once.  The theorems on the file system
    assume that the kernel heap is not exhausted, and devices of less than
    2^32 - 32 sectors.  Where the code does not do what it means to, a theorem shows what
    it does: [Swap.swap_space_leaks], [Frame.frame_entry_lost],
    [Frame.evict_misplaces_entry], [Frame.stack_page_in_zeroes],
    [Pagedir.pagedir_destroy_releases], [Block.extended_scan_diverges],
    [Malloc.size_checks_wrap], [Loader.load_too_long], [Stdio.lone_percent],
    [Stdio.padded_twice], [Format.create_leaks], [Sysrefine.stdout_write],
    [Process.exit_reads_freed_pages] and [Process.freed_while_exiting].

    ** Not modelled

    The drivers (devices/, apart from block.c and partition.c) read and write
    hardware ports; the class [DriverOk] stands for the disk.  Assembly
    (threads/*.S), boot (threads/init.c), the tables of the processor
    (userprog/gdt.c, tss.c) and the dispatch of interrupts have no meaning
    without a model of the processor.  The console and the utilities of
    filesys/fsutil.c only print.  random.c, ustar.c and
    debug.c of the C library are not part of the development yet. *)

From stdpp Require Export prelude gmap.
From stdpp Require Import options.

#[global] Open Scope Z_scope.
(* The pseudo-code below is written with Z everywhere; nat only counts. *)

(** ** Outcomes of kernel code

    A C function of the kernel either returns, stops the machine through
    [ASSERT] (lib/debug.h) or [PANIC], performs an access the model gives no
    meaning to (null dereference, index outside an object), cannot proceed
    because it waits for another thread ([Blocked]), or exhausts the
    fuel given to one of its loops.  The last case is an artefact of the
    model, and every theorem about a loop shows that it does not arise. *)

Inductive failure : Type :=
| AssertFailed
| Panicked
| Fault
| Blocked
| OutOfFuel.

Inductive outcome (A : Type) : Type :=
| Ret (a : A)
| Fail (f : failure).
Global Arguments Ret {A} a.
Global Arguments Fail {A} f.

#[global] Instance failure_eq_dec : EqDecision failure.
Proof. solve_decision. Defined.

#[global] Instance outcome_ret : MRet outcome := @Ret.
#[global] Instance outcome_bind : MBind outcome := λ A B k m,
  match m with Ret a => k a | Fail f => Fail f end.
#[global] Instance outcome_fmap : FMap outcome := λ A B g m,
  match m with Ret a => Ret (g a) | Fail f => Fail f end.

(** [ASSERT (c)] of lib/debug.h, compiled without NDEBUG. *)
Definition ASSERT (c : bool) : outcome unit :=
  if c then Ret () else Fail AssertFailed.

(** A memory access that may be outside every modelled object. *)
Definition access {A} (o : option A) : outcome A :=
  match o with Some a => Ret a | None => Fail Fault end.

(** State-passing code over a store [S]. *)
Definition cmd (S A : Type) : Type := S → outcome (A * S).

#[global] Instance cmd_ret {S} : MRet (cmd S) := λ A a s, Ret (a, s).
#[global] Instance cmd_bind {S} : MBind (cmd S) := λ A B k m s,
  match m s with Ret (a, s') => k a s' | Fail f => Fail f end.

Definition lift {S A} (o : outcome A) : cmd S A := λ s,
  match o with Ret a => Ret (a, s) | Fail f => Fail f end.
Definition get {S} : cmd S S := λ s, Ret (s, s).
Definition put {S} (s' : S) : cmd S unit := λ _, Ret ((), s').
Definition modify {S} (g : S → S) : cmd S unit := λ s, Ret ((), g s).
Definition assert {S} (c : bool) : cmd S unit := lift (ASSERT c).

(** A command on a part of the state. *)
Definition zoom {S T A} (part : S → T) (update : S → T → S) (c : cmd T A) : cmd S A := λ s,
  match c (part s) with Ret (a, t) => Ret (a, update s t) | Fail f => Fail f end.

Declare Scope kernel_scope.
Delimit Scope kernel_scope with kernel.
Notation "'let*' x ':=' m 'in' k" := (mbind (λ x, k) m)
  (at level 200, x pattern, m at level 100, k at level 200,
   format "'[v' 'let*'  x  ':='  m  'in' '/' k ']'") : kernel_scope.
#[global] Open Scope kernel_scope.

(** ** Loops

    [for (i = lo; n iterations; i++) s = f (i, s)] *)
Fixpoint for_range {S} (n : nat) (i : Z) (f : Z → S → outcome S) (s : S) : outcome S :=
  match n with
  | O => Ret s
  | S n' => let* s' := f i s in for_range n' (i + 1) f s'
  end.

(** [for (i = lo; n iterations; i++) if (p (i)) return i;] *)
Fixpoint find_range (n : nat) (i : Z) (p : Z → outcome bool) : outcome (option Z) :=
  match n with
  | O => Ret None
  | S n' => let* b := p i in if b : bool then Ret (Some i) else find_range n' (i + 1) p
  end.

(** [while (cond (s)) s = body (s);] with at most [fuel] evaluations of the
    condition. *)
Fixpoint while {S} (fuel : nat) (cond : S → outcome bool) (body : S → outcome S)
    (s : S) : outcome S :=
  match fuel with
  | O => Fail OutOfFuel
  | S fuel' =>
      let* b := cond s in
      if b : bool then let* s' := body s in while fuel' cond body s' else Ret s
  end.

(** The same loop over a store, with a loop variable [a]. *)
Fixpoint cwhile {S A} (fuel : nat) (cond : A → cmd S bool) (body : A → cmd S A)
    (a : A) : cmd S A :=
  match fuel with
  | O => lift (Fail OutOfFuel)
  | S fuel' =>
      let* b := cond a in
      if b : bool then let* a' := body a in cwhile fuel' cond body a' else mret a
  end.

(** Total-correctness rules for the loops. *)
Lemma for_range_spec {S} (P : Z → S → Prop) (f : Z → S → outcome S) n i s :
  P i s →
  (∀ j t, i ≤ j < i + Z.of_nat n → P j t → ∃ t', f j t = Ret t' ∧ P (j + 1) t') →
  ∃ s', for_range n i f s = Ret s' ∧ P (i + Z.of_nat n) s'.
Proof.
  revert i s; induction n as [|n IH]; intros i s HP Hf; simpl.
  - exists s. by rewrite Z.add_0_r.
  - destruct (Hf i s) as (t & Ht & HPt); [lia|done|]. rewrite Ht. simpl.
    destruct (IH (i + 1) t) as (s' & Hs' & HPs'); [done| |].
    { intros j u Hj. apply Hf. lia. }
    exists s'. split; [done|].
    replace (i + Z.of_nat (Datatypes.S n)) with (i + 1 + Z.of_nat n) by lia. done.
Qed.

Lemma find_range_spec (q : Z → bool) (p : Z → outcome bool) n i :
  (∀ j, i ≤ j < i + Z.of_nat n → p j = Ret (q j)) →
  match find_range n i p with
  | Ret (Some j) => i ≤ j < i + Z.of_nat n ∧ q j = true ∧ ∀ k, i ≤ k < j → q k = false
  | Ret None => ∀ k, i ≤ k < i + Z.of_nat n → q k = false
  | Fail _ => False
  end.
Proof.
  revert i; induction n as [|n IH]; intros i Hp; simpl.
  - intros k Hk. lia.
  - rewrite Hp by lia. simpl. destruct (q i) eqn:Hq.
    + split; [lia|]. split; [done|]. intros k Hk. lia.
    + specialize (IH (i + 1)). destruct (find_range n (i + 1) p) as [[j|]|f].
      * destruct IH as (Hj & Hqj & Hk); [intros; apply Hp; lia|].
        split; [lia|]. split; [done|]. intros k Hki.
        destruct (decide (k = i)) as [->|]; [done|]. apply Hk. lia.
      * intros k Hk. destruct (decide (k = i)) as [->|]; [done|].
        apply IH; [intros; apply Hp; lia|lia].
      * apply IH. intros; apply Hp; lia.
Qed.

Lemma while_spec {S} (P : S → Prop) (m : S → nat)
    (cond : S → outcome bool) (body : S → outcome S) fuel s :
  (∀ t, P t → ∃ b : bool, cond t = Ret b ∧
     (b = true → ∃ t', body t = Ret t' ∧ P t' ∧ (m t' < m t)%nat)) →
  P s → (m s < fuel)%nat →
  ∃ s', while fuel cond body s = Ret s' ∧ P s' ∧ cond s' = Ret false.
Proof.
  intros Hstep. revert s; induction fuel as [|fuel IH]; intros s HP Hm; [lia|].
  simpl. destruct (Hstep s HP) as (b & Hb & Hbody). rewrite Hb. simpl.
  destruct b; [|by exists s].
  destruct Hbody as (t' & Ht' & HP' & Hlt); [done|]. rewrite Ht'. simpl.
  apply IH; [done|lia].
Qed.

(** [P n a s]: the invariant with the variant [n]. *)
Lemma cwhile_spec {S A} (P : nat → A → S → Prop)
    (cond : A → cmd S bool) (body : A → cmd S A) fuel n a s :
  (∀ k b t, P k b t → ∃ c : bool, cond b t = Ret (c, t) ∧
     (c = true → ∃ b' t' k', body b t = Ret (b', t') ∧ P k' b' t' ∧ (k' < k)%nat)) →
  P n a s → (n < fuel)%nat →
  ∃ a' s' n', cwhile fuel cond body a s = Ret (a', s') ∧ P n' a' s' ∧
    cond a' s' = Ret (false, s').
Proof.
  intros Hstep. revert n a s; induction fuel as [|fuel IH]; intros n a s HP Hm; [lia|].
  simpl. unfold mbind, cmd_bind.
  destruct (Hstep n a s HP) as (c & Hc & Hbody). rewrite Hc.
  destruct c; [|by exists a, s, n].
  destruct Hbody as (a' & s' & n' & Hb & HP' & Hlt); [done|]. rewrite Hb.
  apply (IH n'); [done|lia].
Qed.

(** ** Machine integers of the i386 target *)

Definition u8 (x : Z) : Z := x mod 2^8.
Definition u32 (x : Z) : Z := x mod 2^32.
Definition u64 (x : Z) : Z := x mod 2^64.
Definition s32 (x : Z) : Z := (x + 2^31) mod 2^32 - 2^31.
Definition s64 (x : Z) : Z := (x + 2^63) mod 2^64 - 2^63.

Definition SIZE_MAX : Z := 2^32 - 1.
Definition INT_MAX : Z := 2^31 - 1.

(** lib/round.h, on operands small enough not to wrap. *)
Definition ROUND_UP (x step : Z) : Z := (x + step - 1) / step * step.
Definition DIV_ROUND_UP (x step : Z) : Z := (x + step - 1) / step.
Definition ROUND_DOWN (x step : Z) : Z := x / step * step.

Lemma u8_id x : 0 ≤ x < 256 → u8 x = x.
Proof. intros. by apply Z.mod_small. Qed.
Lemma u32_id x : 0 ≤ x < 2^32 → u32 x = x.
Proof. intros. by apply Z.mod_small. Qed.
Lemma u64_id x : 0 ≤ x < 2^64 → u64 x = x.
Proof. intros. by apply Z.mod_small. Qed.
Lemma u32_range x : 0 ≤ u32 x < 2^32.
Proof. by apply Z.mod_pos_bound. Qed.
Lemma u64_range x : 0 ≤ u64 x < 2^64.
Proof. by apply Z.mod_pos_bound. Qed.
Lemma s32_id x : -2^31 ≤ x < 2^31 → s32 x = x.
Proof. intros. unfold s32. rewrite Z.mod_small; lia. Qed.
Lemma s64_id x : -2^63 ≤ x < 2^63 → s64 x = x.
Proof. intros. unfold s64. rewrite Z.mod_small; lia. Qed.

(** ** Arrays indexed by machine integers

    C arrays are lists; an index is a [Z] and an access outside the array has
    no meaning, so it is [None]. *)

Definition zget {A} (l : list A) (i : Z) : option A :=
  if 0 <=? i then l !! Z.to_nat i else None.
Definition zset {A} (l : list A) (i : Z) (x : A) : option (list A) :=
  if (0 <=? i) && (i <? Z.of_nat (length l)) then Some (<[Z.to_nat i := x]> l) else None.
Notation zlength l := (Z.of_nat (length l)).

(** The bytes of a 32-bit word, the lowest first. *)
Definition le4 (x : Z) : list Z := [x mod 256; x / 256 mod 256; x / 65536 mod 256; x / 16777216 mod 256].

Lemma zget_Some {A} (l : list A) i x :
  zget l i = Some x ↔ 0 ≤ i ∧ l !! Z.to_nat i = Some x.
Proof. unfold zget. destruct (Z.leb_spec 0 i); naive_solver lia. Qed.

Lemma zget_lt {A} (l : list A) i x : zget l i = Some x → 0 ≤ i < zlength l.
Proof. intros [? ?%lookup_lt_Some]%zget_Some. lia. Qed.

Lemma zget_is_Some {A} (l : list A) i : 0 ≤ i < zlength l → is_Some (zget l i).
Proof.
  intros. unfold zget. destruct (Z.leb_spec 0 i); [|lia].
  apply lookup_lt_is_Some. lia.
Qed.

Lemma zget_nat {A} (l : list A) (n : nat) : zget l (Z.of_nat n) = l !! n.
Proof. unfold zget. destruct (Z.leb_spec 0 (Z.of_nat n)); [|lia]. by rewrite Nat2Z.id. Qed.

Lemma zset_Some {A} (l : list A) i x :
  0 ≤ i < zlength l → zset l i x = Some (<[Z.to_nat i := x]> l).
Proof.
  intros. unfold zset.
  destruct (Z.leb_spec 0 i), (Z.ltb_spec i (zlength l)); done || lia.
Qed.

Lemma zset_inv {A} (l l' : list A) i x :
  zset l i x = Some l' → 0 ≤ i < zlength l ∧ l' = <[Z.to_nat i := x]> l.
Proof.
  unfold zset. destruct (Z.leb_spec 0 i), (Z.ltb_spec i (zlength l)); naive_solver.
Qed.

Lemma zset_length {A} (l l' : list A) i x : zset l i x = Some l' → length l' = length l.
Proof. intros [_ ->]%zset_inv. apply length_insert. Qed.

Lemma zget_zset {A} (l l' : list A) i j x :
  zset l i x = Some l' → zget l' j = if decide (i = j) then Some x else zget l j.
Proof.
  intros [Hi ->]%zset_inv. unfold zget.
  destruct (Z.leb_spec 0 j); case_decide; subst; try lia; try done.
  - apply list_lookup_insert_eq. lia.
  - apply list_lookup_insert_ne. lia.
Qed.

Lemma elem_of_concat {A} (x : A) (ls : list (list A)) :
  x ∈ concat ls ↔ ∃ l, x ∈ l ∧ l ∈ ls.
Proof.
  induction ls as [|l ls IH]; simpl.
  - rewrite elem_of_nil. split; [done|]. intros (l & _ & Hl). by apply elem_of_nil in Hl.
  - rewrite elem_of_app, IH. split.
    + intros [Hx|(l' & ? & ?)]; [exists l|exists l']; rewrite elem_of_cons; auto.
    + intros (l' & Hx & [->|Hl]%elem_of_cons); [by left|right; by exists l'].
Qed.

Lemma filter_all {A} (P : A → Prop) `{!∀ x, Decision (P x)} (l : list A) :
  (∀ x, x ∈ l → P x) → filter P l = l.
Proof.
  induction l as [|x l IH]; intros Hl; [done|]. rewrite filter_cons_True by (apply Hl; set_solver).
  f_equal. apply IH. set_solver.
Qed.

Lemma filter_none {A} (P : A → Prop) `{!∀ x, Decision (P x)} (l : list A) :
  (∀ x, x ∈ l → ¬ P x) → filter P l = [].
Proof.
  induction l as [|x l IH]; intros Hl; [done|]. rewrite filter_cons_False by (apply Hl; set_solver).
  apply IH. set_solver.
Qed.

(** A list without duplicates inside another one. *)
Lemma NoDup_incl_length {A} (l k : list A) : NoDup l → (∀ x, x ∈ l → x ∈ k) → (length l ≤ length k)%nat.
Proof. intros Hl Hin. by apply submseteq_length, NoDup_submseteq. Qed.
Lemma NoDup_incl_full {A} (l k : list A) x : NoDup l → (∀ x, x ∈ l → x ∈ k) →
  (length k ≤ length l)%nat → x ∈ k → x ∈ l.
Proof.
  intros Hl Hin Hle Hx. assert (l ≡ₚ k) as ->; [|done].
  by apply submseteq_length_Permutation; [apply NoDup_submseteq|].
Qed.

(** ** Buffers *)

(** The effect of writing [data] at offset [pos] of a buffer. *)
Definition overwrite (buf : list Z) (pos : Z) (data : list Z) : outcome (list Z) :=
  if (0 <=? pos) && (pos + zlength data <=? zlength buf)
  then Ret (take (Z.to_nat pos) buf ++ data ++ drop (Z.to_nat pos + length data) buf)
  else Fail Fault.

(** [n] bytes of a buffer from offset [pos]. *)
Definition slice (buf : list Z) (pos n : Z) : outcome (list Z) :=
  if (0 <=? pos) && (0 <=? n) && (pos + n <=? zlength buf)
  then Ret (take (Z.to_nat n) (drop (Z.to_nat pos) buf)) else Fail Fault.

Lemma overwrite_ok buf pos data : 0 ≤ pos → pos + zlength data ≤ zlength buf →
  overwrite buf pos data = Ret (take (Z.to_nat pos) buf ++ data ++ drop (Z.to_nat pos + length data) buf).
Proof.
  intros Hp Hl. unfold overwrite. destruct (Z.leb_spec 0 pos); [|lia].
  by destruct (Z.leb_spec (pos + zlength data) (zlength buf)); [|lia].
Qed.

Lemma length_overwritten (buf data : list Z) pos : (pos + length data ≤ length buf)%nat →
  length (take pos buf ++ data ++ drop (pos + length data) buf) = length buf.
Proof. intros. rewrite !length_app, length_take, length_drop. lia. Qed.

Lemma slice_ok buf pos n : 0 ≤ pos → 0 ≤ n → pos + n ≤ zlength buf →
  slice buf pos n = Ret (take (Z.to_nat n) (drop (Z.to_nat pos) buf)).
Proof.
  intros. unfold slice. destruct (Z.leb_spec 0 pos), (Z.leb_spec 0 n), (Z.leb_spec (pos + n) (zlength buf)); done || lia.
Qed.

(** ** Tactics

    [outcome_inv] takes apart hypotheses that say that a sequence of
    operations returned. *)

Lemma bind_Ret {A B} (m : outcome A) (k : A → outcome B) b :
  mbind k m = Ret b → ∃ a, m = Ret a ∧ k a = Ret b.
Proof. destruct m; simpl; naive_solver. Qed.

Lemma cmd_bind_Ret {S A B} (m : cmd S A) (k : A → cmd S B) s b s' :
  mbind k m s = Ret (b, s') → ∃ a t, m s = Ret (a, t) ∧ k a t = Ret (b, s').
Proof. unfold mbind, cmd_bind. destruct (m s) as [[a t]|]; naive_solver. Qed.

Lemma cstep {S A B} (m : cmd S A) (k : A → cmd S B) s a s' :
  m s = Ret (a, s') → mbind k m s = k a s'.
Proof. intros H. unfold mbind, cmd_bind. by rewrite H. Qed.

Lemma zoom_ok {S T A} (part : S → T) update (c : cmd T A) s a t :
  c (part s) = Ret (a, t) → zoom part update c s = Ret (a, update s t).
Proof. intros H. unfold zoom. by rewrite H. Qed.

Lemma cret {S A B} (k : A → cmd S B) (a : A) s : mbind k (mret a) s = k a s.
Proof. done. Qed.

Lemma cmodify {S B} (k : unit → cmd S B) g s : mbind k (modify g) s = k () (g s).
Proof. done. Qed.
Lemma cget {S B} (k : S → cmd S B) s : mbind k get s = k s s.
Proof. done. Qed.
Lemma clift {S A B} (k : A → cmd S B) a s : mbind k (lift (Ret a)) s = k a s.
Proof. done. Qed.

Lemma assert_ok {S} c (s : S) : c = true → assert c s = Ret ((), s).
Proof. by intros ->. Qed.

Lemma ASSERT_Ret c u : ASSERT c = Ret u → c = true.
Proof. by destruct c. Qed.

Lemma access_Ret {A} (o : option A) a : access o = Ret a → o = Some a.
Proof. destruct o; simpl; naive_solver. Qed.

Ltac outcome_inv :=
  repeat match goal with
  | H : Ret _ = Ret _ |- _ => injection H as H; try subst
  | H : Fail _ = Ret _ |- _ => discriminate H
  | H : Ret _ = Fail _ |- _ => discriminate H
  | H : mbind _ _ = Ret _ |- _ =>
      apply bind_Ret in H;
      let a := fresh "v" in let Ha := fresh "Hv" in destruct H as (a & Ha & H)
  | H : mbind _ _ _ = Ret (_, _) |- _ =>
      apply cmd_bind_Ret in H;
      let a := fresh "v" in let t := fresh "st" in let Ha := fresh "Hv" in
      destruct H as (a & t & Ha & H)
  | H : ASSERT _ = Ret _ |- _ => apply ASSERT_Ret in H
  | H : access _ = Ret _ |- _ => apply access_Ret in H
  | H : (_, _) = (_, _) |- _ => injection H as H; try subst
  end.

(** Execute the first command of a sequence, which returns by [lem]. *)
Tactic Notation "cmd_step" uconstr(lem) :=
  first [ rewrite (cstep _ _ _ _ _ lem) | erewrite cstep by (eapply lem; eauto) ]; cbv beta iota;
  repeat (rewrite cret; cbv beta iota).

(** Booleans of the code as propositions. *)
Ltac bool_prop :=
  repeat match goal with
  | H : (_ && _)%bool = true |- _ => apply andb_true_iff in H; destruct H
  | H : (_ || _)%bool = false |- _ => apply orb_false_iff in H; destruct H
  | H : negb _ = true |- _ => apply negb_true_iff in H
  | H : negb _ = false |- _ => apply negb_false_iff in H
  | H : (_ <? _) = true |- _ => apply Z.ltb_lt in H
  | H : (_ <? _) = false |- _ => apply Z.ltb_ge in H
  | H : (_ <=? _) = true |- _ => apply Z.leb_le in H
  | H : (_ <=? _) = false |- _ => apply Z.leb_gt in H
  | H : (_ =? _) = true |- _ => apply Z.eqb_eq in H
  | H : (_ =? _) = false |- _ => apply Z.eqb_neq in H
  end.

(** Linear arithmetic with division and remainder. *)
Ltac div_lia := Z.to_euclidean_division_equations; lia.

Create HintDb kernel.
#[export] Hint Resolve zget_is_Some u32_range u64_range : kernel.
#[export] Hint Rewrite @zget_nat @length_insert : kernel.
