(* ===== verification/Bitmap.v ===== *)
(** * Bitmaps (lib/kernel/bitmap.c)

    The bitmap at the level of the code: an array of 32-bit elements and a
    bit count, with the word-level operations of the source.  The abstract
    view is the function [bm_test] from bit numbers to booleans; every
    operation is shown to act on it as its comment says.  Clients are the
    page allocator, the swap table and the free map. *)

From S2P Require Import Prelude.

(** ** Data and operations *)

Definition ELEM_BITS : Z := 32.

Record bitmap := Bitmap {
  bit_cnt : Z;
  bits : list Z
}.

Definition BITMAP_ERROR : Z := SIZE_MAX.

Definition elem_idx (bit_idx : Z) : Z := bit_idx / ELEM_BITS.

Definition bit_mask (bit_idx : Z) : Z := Z.shiftl 1 (bit_idx mod ELEM_BITS).

(** The sum in DIV_ROUND_UP is a [size_t] and wraps. *)
Definition elem_cnt (bit_cnt : Z) : Z := u32 (bit_cnt + ELEM_BITS - 1) / ELEM_BITS.

Definition byte_cnt (bit_cnt : Z) : Z := u32 (4 * elem_cnt bit_cnt).

Definition last_mask (b : bitmap) : Z :=
  let last_bits := bit_cnt b mod ELEM_BITS in
  if last_bits =? 0 then u32 (-1) else Z.shiftl 1 last_bits - 1.

(** sizeof (struct bitmap) *)
Definition bitmap_buf_size (bit_cnt : Z) : Z := 8 + byte_cnt bit_cnt.

Definition bitmap_size (b : bitmap) : Z := bit_cnt b.

(** The three single-bit updates have no bounds check: outside the element
    array they would corrupt memory. *)
Definition update_elem (b : bitmap) (bit_idx : Z) (f : Z → Z) : outcome bitmap :=
  let idx := elem_idx bit_idx in
  let* w := access (zget (bits b) idx) in
  let* ws := access (zset (bits b) idx (f w)) in
  Ret (Bitmap (bit_cnt b) ws).

Definition bitmap_mark (b : bitmap) (bit_idx : Z) : outcome bitmap :=
  update_elem b bit_idx (λ w, Z.lor w (bit_mask bit_idx)).

Definition bitmap_reset (b : bitmap) (bit_idx : Z) : outcome bitmap :=
  update_elem b bit_idx (λ w, Z.land w (u32 (Z.lnot (bit_mask bit_idx)))).

Definition bitmap_flip (b : bitmap) (bit_idx : Z) : outcome bitmap :=
  update_elem b bit_idx (λ w, Z.lxor w (bit_mask bit_idx)).

Definition bitmap_set (b : bitmap) (idx : Z) (value : bool) : outcome bitmap :=
  let* _ := ASSERT (idx <? bit_cnt b) in
  if value then bitmap_mark b idx else bitmap_reset b idx.

Definition bitmap_test (b : bitmap) (idx : Z) : outcome bool :=
  let* _ := ASSERT (idx <? bit_cnt b) in
  let* w := access (zget (bits b) (elem_idx idx)) in
  Ret (negb (Z.land w (bit_mask idx) =? 0)).

(** The range checks shared by the multiple-bit operations; [start + cnt] is
    a [size_t] sum. *)
Definition assert_range (b : bitmap) (start cnt : Z) : outcome unit :=
  let* _ := ASSERT (start <=? bit_cnt b) in
  ASSERT (u32 (start + cnt) <=? bit_cnt b).

Definition bitmap_set_multiple (b : bitmap) (start cnt : Z) (value : bool) : outcome bitmap :=
  let* _ := assert_range b start cnt in
  for_range (Z.to_nat cnt) 0 (λ i b, bitmap_set b (u32 (start + i)) value) b.

Definition bitmap_set_all (b : bitmap) (value : bool) : outcome bitmap :=
  bitmap_set_multiple b 0 (bitmap_size b) value.

Definition bitmap_count (b : bitmap) (start cnt : Z) (value : bool) : outcome Z :=
  let* _ := assert_range b start cnt in
  for_range (Z.to_nat cnt) 0 (λ i value_cnt,
    let* v := bitmap_test b (u32 (start + i)) in
    Ret (if Bool.eqb v value then value_cnt + 1 else value_cnt)) 0.

Definition bitmap_contains (b : bitmap) (start cnt : Z) (value : bool) : outcome bool :=
  let* _ := assert_range b start cnt in
  let* r := find_range (Z.to_nat cnt) 0 (λ i,
    let* v := bitmap_test b (u32 (start + i)) in Ret (Bool.eqb v value)) in
  Ret (match r with Some _ => true | None => false end).

Definition bitmap_any (b : bitmap) (start cnt : Z) : outcome bool :=
  bitmap_contains b start cnt true.

Definition bitmap_none (b : bitmap) (start cnt : Z) : outcome bool :=
  let* r := bitmap_contains b start cnt true in Ret (negb r).

Definition bitmap_all (b : bitmap) (start cnt : Z) : outcome bool :=
  let* r := bitmap_contains b start cnt false in Ret (negb r).

Definition bitmap_scan (b : bitmap) (start cnt : Z) (value : bool) : outcome Z :=
  let* _ := ASSERT (start <=? bit_cnt b) in
  if cnt <=? bit_cnt b then
    let last := bit_cnt b - cnt in
    let* r := find_range (Z.to_nat (last - start + 1)) start (λ i,
      let* c := bitmap_contains b i cnt (negb value) in Ret (negb c)) in
    Ret (match r with Some i => i | None => BITMAP_ERROR end)
  else Ret BITMAP_ERROR.

Definition bitmap_scan_and_flip (b : bitmap) (start cnt : Z) (value : bool)
    : outcome (Z * bitmap) :=
  let* idx := bitmap_scan b start cnt value in
  if idx =? BITMAP_ERROR then Ret (idx, b)
  else let* b' := bitmap_set_multiple b idx cnt (negb value) in Ret (idx, b').

(** [bitmap_create]: [block] says whether malloc returned storage for the
    structure, [storage] is what malloc returned for the elements: null, or
    a block with the arbitrary words it held before. *)
Definition bitmap_create (cnt : Z) (block : bool) (storage : option (list Z))
    : outcome (option bitmap) :=
  if block then
    match storage with
    | Some ws => let* b := bitmap_set_all (Bitmap cnt ws) false in Ret (Some b)
    | None =>
        if cnt =? 0 then let* b := bitmap_set_all (Bitmap cnt []) false in Ret (Some b)
        else Ret None
    end
  else Ret None.

(** [bitmap_create_in_buf]: the elements start after the structure in a
    caller-supplied block of [block_size] bytes holding the words [ws]. *)
Definition bitmap_create_in_buf (cnt : Z) (ws : list Z) (block_size : Z) : outcome bitmap :=
  let* _ := ASSERT (bitmap_buf_size cnt <=? block_size) in
  bitmap_set_all (Bitmap cnt ws) false.

Definition bitmap_file_size (b : bitmap) : Z := byte_cnt (bit_cnt b).

(** ** Abstract view and invariant *)

Definition bm_test (b : bitmap) (i : Z) : bool :=
  match zget (bits b) (i / ELEM_BITS) with
  | Some w => Z.testbit w (i mod ELEM_BITS)
  | None => false
  end.

Definition word (w : Z) : Prop := 0 ≤ w < 2^32.

Record bm_wf (b : bitmap) : Prop := {
  wf_cnt : 0 ≤ bit_cnt b < SIZE_MAX;
  wf_room : bit_cnt b ≤ ELEM_BITS * zlength (bits b);
  wf_words : Forall word (bits b)
}.

(** [b'] is [b] with the abstract bits given by [g]. *)
Record bm_becomes (b b' : bitmap) (g : Z → bool) : Prop := {
  becomes_wf : bm_wf b';
  becomes_cnt : bit_cnt b' = bit_cnt b;
  becomes_len : length (bits b') = length (bits b);
  becomes_test : ∀ j, 0 ≤ j → bm_test b' j = g j
}.

(** [n] free (or used) bits in a row from [i]. *)
Definition bm_run (b : bitmap) (i n : Z) (value : bool) : Prop :=
  ∀ k, i ≤ k < i + n → bm_test b k = value.

(** ** Words *)

Lemma bit_mask_spec i k : 0 ≤ i → 0 ≤ k →
  Z.testbit (bit_mask i) k = bool_decide (k = i mod ELEM_BITS).
Proof.
  intros. unfold bit_mask. rewrite Z.shiftl_1_l.
  assert (0 ≤ i mod ELEM_BITS < 32) by (apply Z.mod_pos_bound; done).
  case_bool_decide as E.
  - subst. apply Z.pow2_bits_true. lia.
  - apply Z.pow2_bits_false. congruence.
Qed.

Lemma word_bits w : 0 ≤ w → word w ↔ ∀ k, 32 ≤ k → Z.testbit w k = false.
Proof. intros. unfold word. rewrite <-Z.bounded_iff_bits_nonneg by lia. lia. Qed.

Lemma word_high w k : word w → 32 ≤ k → Z.testbit w k = false.
Proof. intros Hw. apply word_bits; [apply Hw|done]. Qed.

Lemma bit_mask_word i : 0 ≤ i → word (bit_mask i).
Proof.
  intros. assert (0 ≤ i mod ELEM_BITS < 32) by (apply Z.mod_pos_bound; done).
  unfold bit_mask. rewrite Z.shiftl_1_l. split; [apply Z.pow_nonneg; lia|].
  apply Z.pow_lt_mono_r; lia.
Qed.

Lemma not_mask_spec i k : 0 ≤ i → 0 ≤ k < 32 →
  Z.testbit (u32 (Z.lnot (bit_mask i))) k = negb (bool_decide (k = i mod ELEM_BITS)).
Proof.
  intros. unfold u32. rewrite Z.mod_pow2_bits_low by lia.
  rewrite Z.lnot_spec by lia. by rewrite bit_mask_spec by lia.
Qed.

Lemma word_lor a b : word a → word b → word (Z.lor a b).
Proof.
  intros Ha Hb. apply word_bits; [apply Z.lor_nonneg; split; [apply Ha|apply Hb]|].
  intros k Hk. rewrite Z.lor_spec, !word_high by done. done.
Qed.
Lemma word_lxor a b : word a → word b → word (Z.lxor a b).
Proof.
  intros Ha Hb. apply word_bits; [apply Z.lxor_nonneg; split; intros; [apply Hb|apply Ha]|].
  intros k Hk. rewrite Z.lxor_spec, !word_high by done. done.
Qed.
Lemma word_land a b : word a → word b → word (Z.land a b).
Proof.
  intros Ha Hb. apply word_bits; [apply Z.land_nonneg; left; apply Ha|].
  intros k Hk. rewrite Z.land_spec, !word_high by done. done.
Qed.
Lemma word_u32 x : word (u32 x).
Proof. apply u32_range. Qed.
#[export] Hint Resolve bit_mask_word word_lor word_lxor word_land word_u32 : kernel.

(** Testing a single bit through its mask, as [bitmap_test] does. *)
Lemma land_mask_test w i : word w → 0 ≤ i →
  negb (Z.land w (bit_mask i) =? 0) = Z.testbit w (i mod ELEM_BITS).
Proof.
  intros Hw Hi. assert (0 ≤ i mod ELEM_BITS < 32) by (apply Z.mod_pos_bound; done).
  destruct (Z.testbit w (i mod ELEM_BITS)) eqn:E.
  - apply negb_true_iff, Z.eqb_neq. intros Hz.
    assert (Z.testbit (Z.land w (bit_mask i)) (i mod ELEM_BITS) = true) as Ht.
    { rewrite Z.land_spec, E, bit_mask_spec by lia. by rewrite bool_decide_eq_true_2. }
    rewrite Hz, Z.bits_0 in Ht. done.
  - apply negb_false_iff, Z.eqb_eq, Z.bits_inj'. intros k Hk.
    rewrite Z.land_spec, bit_mask_spec, Z.bits_0 by lia.
    case_bool_decide; subst; [rewrite E|]; by rewrite ?andb_false_r.
Qed.

(** ** Single bits *)

Lemma elem_exists b i : bm_wf b → 0 ≤ i < bit_cnt b →
  ∃ w, zget (bits b) (i / ELEM_BITS) = Some w ∧ word w.
Proof.
  intros Hwf Hi. destruct (zget_is_Some (bits b) (i / ELEM_BITS)) as [w Hw].
  { pose proof (wf_room b Hwf). unfold ELEM_BITS in *. split; [apply Z.div_pos; lia|].
    apply Z.div_lt_upper_bound; lia. }
  exists w. split; [done|]. apply zget_Some in Hw as [_ Hw].
  eapply Forall_lookup_1; [apply (wf_words b Hwf)|done].
Qed.

Lemma bitmap_test_spec b i : bm_wf b → 0 ≤ i < bit_cnt b →
  bitmap_test b i = Ret (bm_test b i).
Proof.
  intros Hwf Hi. destruct (elem_exists b i Hwf Hi) as (w & Hw & Hww).
  unfold bitmap_test, bm_test, elem_idx. rewrite Hw.
  destruct (Z.ltb_spec i (bit_cnt b)); [|lia]. simpl.
  by rewrite land_mask_test by (done || lia).
Qed.

(** An index splits into an element number and a position in the element. *)
Lemma same_bit i j : 0 ≤ i → 0 ≤ j →
  (j / ELEM_BITS = i / ELEM_BITS ∧ j mod ELEM_BITS = i mod ELEM_BITS) ↔ j = i.
Proof.
  intros. split; [|by intros ->]. intros [Hd Hm].
  rewrite (Z.div_mod i ELEM_BITS), (Z.div_mod j ELEM_BITS), Hd, Hm by done. done.
Qed.

Lemma update_elem_spec b i f (v : bool → bool) : bm_wf b → 0 ≤ i < bit_cnt b →
  (∀ w, word w → word (f w)) →
  (∀ w k, word w → 0 ≤ k < 32 →
     Z.testbit (f w) k =
       if bool_decide (k = i mod ELEM_BITS) then v (Z.testbit w k) else Z.testbit w k) →
  ∃ b', update_elem b i f = Ret b' ∧
    bm_becomes b b' (λ j, if decide (j = i) then v (bm_test b i) else bm_test b j).
Proof.
  intros Hwf Hi Hfw Hf. destruct (elem_exists b i Hwf Hi) as (w & Hw & Hww).
  unfold update_elem, elem_idx. rewrite Hw. simpl.
  pose proof (zget_lt _ _ _ Hw) as Hlt.
  destruct (zset (bits b) (i / ELEM_BITS) (f w)) as [ws|] eqn:Hws;
    [|by rewrite zset_Some in Hws]. simpl.
  exists (Bitmap (bit_cnt b) ws). split; [done|].
  pose proof (zset_length _ _ _ _ Hws) as Hlen. split; simpl; [split; simpl|done..|].
  - apply Hwf.
  - rewrite Hlen. apply Hwf.
  - apply zset_inv in Hws as [_ ->]. apply Forall_insert; [apply Hwf|by apply Hfw].
  - intros j Hj. unfold bm_test at 1; simpl.
    rewrite (zget_zset _ _ _ _ _ Hws).
    assert (0 ≤ j mod ELEM_BITS < 32) by (apply Z.mod_pos_bound; done).
    destruct (decide (j = i)) as [->|Hne]; case_decide as Hd; try done.
    + rewrite Hf by done. rewrite bool_decide_eq_true_2 by done.
      unfold bm_test. by rewrite Hw.
    + rewrite Hf by done. rewrite bool_decide_eq_false_2.
      * unfold bm_test. by rewrite <-Hd, Hw.
      * intros Hm. apply Hne, same_bit; [lia..|]. split; congruence.
Qed.

Lemma bitmap_mark_spec b i : bm_wf b → 0 ≤ i < bit_cnt b →
  ∃ b', bitmap_mark b i = Ret b' ∧
    bm_becomes b b' (λ j, if decide (j = i) then true else bm_test b j).
Proof.
  intros. apply (update_elem_spec b i _ (λ _, true)); [done..| |].
  - intros. apply word_lor; [done|apply bit_mask_word; lia].
  - intros w k Hw Hk. rewrite Z.lor_spec, bit_mask_spec by lia.
    case_bool_decide; by rewrite ?orb_true_r, ?orb_false_r.
Qed.

Lemma bitmap_reset_spec b i : bm_wf b → 0 ≤ i < bit_cnt b →
  ∃ b', bitmap_reset b i = Ret b' ∧
    bm_becomes b b' (λ j, if decide (j = i) then false else bm_test b j).
Proof.
  intros. apply (update_elem_spec b i _ (λ _, false)); [done..| |].
  - intros. apply word_land; eauto with kernel.
  - intros w k Hw Hk. rewrite Z.land_spec, not_mask_spec by lia.
    case_bool_decide; simpl; by rewrite ?andb_true_r, ?andb_false_r.
Qed.

Lemma bitmap_flip_spec b i : bm_wf b → 0 ≤ i < bit_cnt b →
  ∃ b', bitmap_flip b i = Ret b' ∧
    bm_becomes b b' (λ j, if decide (j = i) then negb (bm_test b i) else bm_test b j).
Proof.
  intros. apply (update_elem_spec b i _ negb); [done..| |].
  - intros. apply word_lxor; [done|apply bit_mask_word; lia].
  - intros w k Hw Hk. rewrite Z.lxor_spec, bit_mask_spec by lia.
    case_bool_decide; simpl; by rewrite ?xorb_true_r, ?xorb_false_r.
Qed.

Lemma bitmap_set_spec b i value : bm_wf b → 0 ≤ i < bit_cnt b →
  ∃ b', bitmap_set b i value = Ret b' ∧
    bm_becomes b b' (λ j, if decide (j = i) then value else bm_test b j).
Proof.
  intros. unfold bitmap_set. destruct (Z.ltb_spec i (bit_cnt b)); [|lia]. simpl.
  destruct value; [by apply bitmap_mark_spec|by apply bitmap_reset_spec].
Qed.

(** ** Ranges of bits *)

Lemma assert_range_ok b start cnt : bm_wf b →
  0 ≤ start → 0 ≤ cnt → start + cnt ≤ bit_cnt b → assert_range b start cnt = Ret ().
Proof.
  intros Hwf ???. pose proof (wf_cnt b Hwf). unfold SIZE_MAX in *. unfold assert_range.
  rewrite u32_id by lia.
  destruct (Z.leb_spec start (bit_cnt b)); [|lia].
  destruct (Z.leb_spec (start + cnt) (bit_cnt b)); [done|lia].
Qed.

Lemma bitmap_set_multiple_spec b start cnt value : bm_wf b →
  0 ≤ start → 0 ≤ cnt → start + cnt ≤ bit_cnt b →
  ∃ b', bitmap_set_multiple b start cnt value = Ret b' ∧
    bm_becomes b b' (λ j, if decide (start ≤ j < start + cnt) then value else bm_test b j).
Proof.
  intros Hwf Hs Hc Hsc. pose proof (wf_cnt b Hwf) as Hcnt. unfold SIZE_MAX in *.
  unfold bitmap_set_multiple. rewrite assert_range_ok by done. simpl.
  destruct (for_range_spec
    (λ i t, bm_becomes b t (λ j, if decide (start ≤ j < start + i) then value else bm_test b j))
    (λ i t, bitmap_set t (u32 (start + i)) value) (Z.to_nat cnt) 0 b) as (b' & Hb' & HP).
  - split; [done..|]. intros j Hj. case_decide; [lia|done].
  - intros i t Hi Ht. rewrite u32_id by lia.
    destruct (bitmap_set_spec t (start + i) value) as (t' & Ht' & Hbec).
    { apply Ht. }
    { rewrite (becomes_cnt _ _ _ Ht). lia. }
    exists t'. split; [done|]. split.
    + apply Hbec.
    + rewrite (becomes_cnt _ _ _ Hbec). apply Ht.
    + rewrite (becomes_len _ _ _ Hbec). apply Ht.
    + intros j Hj. rewrite (becomes_test _ _ _ Hbec) by done.
      repeat case_decide; try lia; try done.
      * by rewrite (becomes_test _ _ _ Ht), decide_True by lia.
      * by rewrite (becomes_test _ _ _ Ht), decide_False by lia.
  - exists b'. split; [done|].
    replace (0 + Z.of_nat (Z.to_nat cnt)) with cnt in HP by lia. done.
Qed.

Lemma bitmap_contains_spec b start cnt value : bm_wf b →
  0 ≤ start → 0 ≤ cnt → start + cnt ≤ bit_cnt b →
  ∃ r, bitmap_contains b start cnt value = Ret r ∧
    (r = false ↔ bm_run b start cnt (negb value)).
Proof.
  intros Hwf Hs Hc Hsc. pose proof (wf_cnt b Hwf) as Hcnt. unfold SIZE_MAX in *.
  unfold bitmap_contains. rewrite assert_range_ok by done. simpl.
  pose proof (find_range_spec (λ i, Bool.eqb (bm_test b (start + i)) value)
    (λ i, let* v := bitmap_test b (u32 (start + i)) in Ret (Bool.eqb v value))
    (Z.to_nat cnt) 0) as Hfind.
  destruct find_range as [[j|]|f]; simpl; [..|destruct Hfind].
  - destruct Hfind as (Hj & Hq & _).
    { intros i Hi. rewrite u32_id, bitmap_test_spec by (done || lia). done. }
    exists true. split; [done|]. split; [done|]. intros Hrun.
    rewrite (Hrun (start + j)) in Hq by lia. by destruct value.
  - exists false. split; [done|]. split; [|done]. intros _ k Hk.
    ospecialize (Hfind _ (k - start) _); [|lia|].
    { intros i Hi. rewrite u32_id, bitmap_test_spec by (done || lia). done. }
    simpl in Hfind. replace (start + (k - start)) with k in Hfind by lia.
    by destruct (bm_test b k), value.
  - intros i Hi. rewrite u32_id, bitmap_test_spec by (done || lia). done.
Qed.

(** The reference for [bitmap_count]. *)
Fixpoint count_run (g : Z → bool) (start : Z) (n : nat) (value : bool) : Z :=
  match n with
  | O => 0
  | S n' => count_run g start n' value
            + (if Bool.eqb (g (start + Z.of_nat n')) value then 1 else 0)
  end.

Lemma bitmap_count_spec b start cnt value : bm_wf b →
  0 ≤ start → 0 ≤ cnt → start + cnt ≤ bit_cnt b →
  bitmap_count b start cnt value = Ret (count_run (bm_test b) start (Z.to_nat cnt) value).
Proof.
  intros Hwf Hs Hc Hsc. pose proof (wf_cnt b Hwf) as Hcnt. unfold SIZE_MAX in *.
  unfold bitmap_count. rewrite assert_range_ok by done. simpl.
  match goal with |- context [for_range _ _ ?f _] =>
  destruct (for_range_spec
    (λ i t, t = count_run (bm_test b) start (Z.to_nat i) value) f (Z.to_nat cnt) 0 0)
    as (r & Hr & HP) end.
  - done.
  - intros i t Hi ->. rewrite u32_id, bitmap_test_spec by (done || lia). simpl.
    eexists. split; [done|]. rewrite Z2Nat.inj_add by lia. rewrite Nat.add_comm. simpl.
    rewrite Z2Nat.id by lia. destruct Bool.eqb; lia.
  - rewrite Hr, HP. do 2 f_equal. lia.
Qed.

Lemma bitmap_scan_spec b start cnt value : bm_wf b →
  0 ≤ start ≤ bit_cnt b → 0 ≤ cnt →
  ∃ r, bitmap_scan b start cnt value = Ret r ∧
    ((start ≤ r ∧ r + cnt ≤ bit_cnt b ∧ bm_run b r cnt value ∧
      (∀ i, start ≤ i < r → ¬ bm_run b i cnt value)) ∨
     (r = BITMAP_ERROR ∧
      ∀ i, start ≤ i → i + cnt ≤ bit_cnt b → ¬ bm_run b i cnt value)).
Proof.
  intros Hwf Hs Hc. unfold bitmap_scan.
  destruct (Z.leb_spec start (bit_cnt b)); [|lia]. simpl.
  destruct (Z.leb_spec cnt (bit_cnt b)) as [Hle|Hgt]; simpl.
  2: { exists BITMAP_ERROR. split; [done|]. right. split; [done|]. intros; lia. }
  set (p := λ i, let* c := bitmap_contains b i cnt (negb value) in Ret (negb c)).
  set (q := λ i, match p i with Ret c => c | Fail _ => false end).
  assert (∀ i, start ≤ i → i + cnt ≤ bit_cnt b →
    p i = Ret (q i) ∧ (q i = true ↔ bm_run b i cnt value)) as Hp.
  { intros i Hi Hic. subst q. simpl. subst p. simpl.
    destruct (bitmap_contains_spec b i cnt (negb value)) as (r & Hr & Hrun); [done|lia..|].
    rewrite Hr. simpl. split; [done|]. rewrite negb_involutive in Hrun.
    rewrite negb_true_iff. done. }
  pose proof (find_range_spec q p (Z.to_nat (bit_cnt b - cnt - start + 1)) start) as Hfind.
  assert (∀ j, start ≤ j < start + Z.of_nat (Z.to_nat (bit_cnt b - cnt - start + 1)) →
    p j = Ret (q j)) as Hp1 by (intros; apply Hp; lia).
  specialize (Hfind Hp1). destruct find_range as [[j|]|f]; simpl; [..|destruct Hfind].
  - destruct Hfind as (Hj & Hq & Hbefore). exists j. split; [done|]. left.
    split; [lia|]. split; [lia|]. split; [apply Hp; [lia..|done]|].
    intros i Hi Hrun. apply Hp in Hrun; [|lia..]. rewrite Hbefore in Hrun by lia. done.
  - exists BITMAP_ERROR. split; [done|]. right. split; [done|].
    intros i Hi Hic Hrun. apply Hp in Hrun; [|lia..]. rewrite Hfind in Hrun by lia. done.
Qed.

Lemma bitmap_scan_and_flip_spec b start cnt value : bm_wf b →
  0 ≤ start ≤ bit_cnt b → 0 ≤ cnt →
  ∃ r b', bitmap_scan_and_flip b start cnt value = Ret (r, b') ∧
    ((r ≠ BITMAP_ERROR ∧ start ≤ r ∧ r + cnt ≤ bit_cnt b ∧ bm_run b r cnt value ∧
      (∀ i, start ≤ i < r → ¬ bm_run b i cnt value) ∧
      bm_becomes b b' (λ j, if decide (r ≤ j < r + cnt) then negb value else bm_test b j)) ∨
     (r = BITMAP_ERROR ∧ b' = b ∧
      ∀ i, start ≤ i → i + cnt ≤ bit_cnt b → ¬ bm_run b i cnt value)).
Proof.
  intros Hwf Hs Hc. pose proof (wf_cnt b Hwf) as Hcnt.
  destruct (bitmap_scan_spec b start cnt value Hwf Hs Hc) as (r & Hr & Hcase).
  unfold bitmap_scan_and_flip. rewrite Hr. simpl.
  destruct Hcase as [(H1 & H2 & H3 & H4)|[-> Hno]].
  - assert (r ≠ BITMAP_ERROR) as Hne by (unfold BITMAP_ERROR in *; lia).
    destruct (Z.eqb_spec r BITMAP_ERROR); [done|].
    destruct (bitmap_set_multiple_spec b r cnt (negb value)) as (b' & Hb' & Hbec);
      [done|lia..|]. rewrite Hb'. simpl. exists r, b'. split; [done|]. left. auto 10.
  - rewrite Z.eqb_refl. exists BITMAP_ERROR, b. split; [done|]. right. auto.
Qed.

Lemma bitmap_all_spec b start cnt : bm_wf b →
  0 ≤ start → 0 ≤ cnt → start + cnt ≤ bit_cnt b →
  ∃ r, bitmap_all b start cnt = Ret r ∧ (r = true ↔ bm_run b start cnt true).
Proof.
  intros Hwf ???. destruct (bitmap_contains_spec b start cnt false) as (r & Hr & Hrun); [done..|].
  unfold bitmap_all. rewrite Hr. simpl. exists (negb r). split; [done|].
  rewrite negb_true_iff. done.
Qed.

Lemma bitmap_set_all_spec b value : bm_wf b →
  ∃ b', bitmap_set_all b value = Ret b' ∧
    bm_becomes b b' (λ j, if decide (j < bit_cnt b) then value else bm_test b j).
Proof.
  intros Hwf. pose proof (wf_cnt b Hwf).
  destruct (bitmap_set_multiple_spec b 0 (bit_cnt b) value) as (b' & Hb' & Hbec); [done|lia..|].
  exists b'. split; [done|]. split; [apply Hbec..|].
  intros j Hj. rewrite (becomes_test _ _ _ Hbec) by done.
  repeat case_decide; lia || done.
Qed.

(** Storage of [elem_cnt] words is enough. *)
Lemma elem_cnt_room cnt : 0 ≤ cnt ≤ 2^32 - 32 → cnt ≤ ELEM_BITS * elem_cnt cnt.
Proof.
  intros. unfold elem_cnt, ELEM_BITS. rewrite u32_id by lia.
  pose proof (Z.div_mod (cnt + 32 - 1) 32). pose proof (Z.mod_pos_bound (cnt + 32 - 1) 32). lia.
Qed.

Lemma bitmap_create_spec cnt ws : 0 ≤ cnt ≤ 2^32 - 32 →
  zlength ws = elem_cnt cnt → Forall word ws →
  ∃ b, bitmap_create cnt true (Some ws) = Ret (Some b) ∧ bm_wf b ∧ bit_cnt b = cnt ∧
    bm_run b 0 cnt false.
Proof.
  intros Hcnt Hws Hw.
  assert (bm_wf (Bitmap cnt ws)) as Hwf.
  { split; simpl; [unfold SIZE_MAX; lia| |done]. rewrite Hws. by apply elem_cnt_room. }
  destruct (bitmap_set_all_spec (Bitmap cnt ws) false Hwf) as (b & Hb & Hbec).
  unfold bitmap_create. rewrite Hb. simpl. exists b. split; [done|].
  split; [apply Hbec|]. split; [apply Hbec|]. intros k Hk.
  rewrite (becomes_test _ _ _ Hbec) by lia. simpl. rewrite decide_True; [done|lia].
Qed.

(** ** Properties *)


Definition demo_bitmap : bitmap := Bitmap 40 [0xffff; 0].

Lemma demo_bitmap_wf : bm_wf demo_bitmap.
Proof. split; [by vm_compute|by vm_compute|repeat constructor; by vm_compute]. Qed.


(** A new bitmap reads false at every index whatever the storage held,
    and an allocation followed by the release of the same group gives back
    exactly the bits from before. *)
Theorem create_alloc_release cnt ws n : 0 ≤ cnt ≤ 2^32 - 32 →
  zlength ws = elem_cnt cnt → Forall word ws → 0 < n ≤ cnt →
  ∃ b b' b'', bitmap_create cnt true (Some ws) = Ret (Some b) ∧
    bitmap_scan_and_flip b 0 n false = Ret (0, b') ∧
    bitmap_all b' 0 n = Ret true ∧
    bitmap_set_multiple b' 0 n false = Ret b'' ∧
    ∀ i, 0 ≤ i < cnt → bitmap_test b'' i = Ret false.
Proof.
  intros Hcnt Hws Hw Hn.
  destruct (bitmap_create_spec cnt ws) as (b & Hb & Hwf & Hc & Hzero); [done..|].
  destruct (bitmap_scan_and_flip_spec b 0 n false Hwf) as (r & b' & Hr & Hcase); [lia..|].
  destruct Hcase as [(Hne & H1 & H2 & H3 & H4 & Hbec)|(_ & _ & Hno)].
  2: { exfalso. apply (Hno 0); [lia..|]. intros k Hk. apply Hzero. lia. }
  assert (r = 0) as ->.
  { destruct (decide (r = 0)) as [|]; [done|]. exfalso. apply (H4 0); [lia|].
    intros k Hk. apply Hzero. lia. }
  pose proof (becomes_wf _ _ _ Hbec) as Hwf'. pose proof (becomes_cnt _ _ _ Hbec) as Hc'.
  destruct (bitmap_all_spec b' 0 n Hwf') as (a & Ha & Hall); [lia..|].
  destruct (bitmap_set_multiple_spec b' 0 n false Hwf') as (b'' & Hb'' & Hbec''); [lia..|].
  exists b, b', b''. split; [done|]. split; [done|]. split.
  { rewrite Ha. f_equal. apply Hall. intros k Hk.
    rewrite (becomes_test _ _ _ Hbec) by lia. by rewrite decide_True by lia. }
  split; [done|]. intros i Hi. rewrite bitmap_test_spec.
  - f_equal. rewrite (becomes_test _ _ _ Hbec'') by lia. case_decide; [done|].
    rewrite (becomes_test _ _ _ Hbec) by lia. rewrite decide_False by lia. apply Hzero. lia.
  - apply Hbec''.
  - rewrite (becomes_cnt _ _ _ Hbec''). lia.
Qed.

Lemma create_alloc_release_witness :
  ∃ b b' b'', bitmap_create 40 true (Some [0xdead; 0xbeef]) = Ret (Some b) ∧
    bitmap_scan_and_flip b 0 8 false = Ret (0, b') ∧
    bitmap_set_multiple b' 0 8 false = Ret b'' ∧ bitmap_test b'' 3 = Ret false.
Proof.
  destruct (create_alloc_release 40 [0xdead; 0xbeef] 8) as (b & b' & b'' & H1 & H2 & _ & H3 & H4).
  - lia.
  - reflexivity.
  - repeat constructor; by vm_compute.
  - lia.
  - exists b, b', b''. split; [done|]. split; [done|]. split; [done|]. apply H4. lia.
Defined.
