(* ===== verification/Arith64.v ===== *)
(** * 64-bit division (lib/arithmetic.c)

    The routines that GCC calls for division of 64-bit integers on a 32-bit
    processor.  [divl] is the instruction DIVL, which traps when the quotient
    does not fit in 32 bits.  The theorems show that the quotients are those of
    division rounding toward zero and that DIVL never traps; the remainders
    come out truncated to 32 bits. *)

From S2P Require Import Prelude.

(** ** The code *)

Definition divl (n d : Z) : outcome Z :=
  let n1 := u32 (Z.shiftr n 32) in
  let n0 := u32 n in
  if d =? 0 then Fail Fault else
  let q := (n1 * 2 ^ 32 + n0) / d in
  if q <? 2 ^ 32 then Ret q else Fail Fault.

Definition nlz (x : Z) : Z :=
  let n := 0 in
  let '(n, x) := if x <=? 0x0000FFFF then (n + 16, u32 (Z.shiftl x 16)) else (n, x) in
  let '(n, x) := if x <=? 0x00FFFFFF then (n + 8, u32 (Z.shiftl x 8)) else (n, x) in
  let '(n, x) := if x <=? 0x0FFFFFFF then (n + 4, u32 (Z.shiftl x 4)) else (n, x) in
  let '(n, x) := if x <=? 0x3FFFFFFF then (n + 2, u32 (Z.shiftl x 2)) else (n, x) in
  if x <=? 0x7FFFFFFF then n + 1 else n.

Definition udiv64 (n d : Z) : outcome Z :=
  if Z.shiftr d 32 =? 0 then
    let b := 2 ^ 32 in
    let n1 := u32 (Z.shiftr n 32) in
    let n0 := u32 n in
    let d0 := u32 d in
    if d0 =? 0 then Fail Fault else
    let* q := divl (u64 (b * (n1 mod d0) + n0)) d0 in
    Ret (u64 (q + b * (n1 / d0)))
  else if n <? d then Ret 0
  else
    let d1 := u32 (Z.shiftr d 32) in
    let s := nlz d1 in
    let* q := divl (Z.shiftr n 1) (u32 (Z.shiftr (u64 (Z.shiftl d s)) 32)) in
    let q := Z.shiftr q (31 - s) in
    Ret (if u64 (n - u64 ((q - 1) * d)) <? d then u64 (q - 1) else q).

Definition umod64 (n d : Z) : outcome Z :=
  let* q := udiv64 n d in Ret (u32 (u64 (n - d * q))).

Definition sdiv64 (n d : Z) : outcome Z :=
  let n_abs := if 0 <=? n then n else u64 (- n) in
  let d_abs := if 0 <=? d then d else u64 (- d) in
  let* q_abs := udiv64 n_abs d_abs in
  Ret (if eqb (n <? 0) (d <? 0) then s64 q_abs else s64 (- s64 q_abs)).

Definition smod64 (n d : Z) : outcome Z :=
  let* q := sdiv64 n d in Ret (s32 (s64 (n - d * q))).

Definition __divdi3 (n d : Z) : outcome Z := sdiv64 n d.
Definition __moddi3 (n d : Z) : outcome Z := smod64 n d.
Definition __udivdi3 (n d : Z) : outcome Z := udiv64 n d.
Definition __umoddi3 (n d : Z) : outcome Z := umod64 n d.

(** ** Lemmas *)

Lemma divl_ok n d : 0 ≤ n < 2 ^ 64 → 0 < d → n / d < 2 ^ 32 → divl n d = Ret (n / d).
Proof.
  intros Hn Hd Hq. unfold divl. rewrite Z.shiftr_div_pow2 by lia. unfold u32. change (2 ^ 32) with 4294967296 in *.
  rewrite (Z.mod_small (n / 4294967296)) by div_lia. destruct (Z.eqb_spec d 0); [lia|].
  replace (n / 4294967296 * 4294967296 + n mod 4294967296) with n by div_lia. by destruct (Z.ltb_spec (n / d) 4294967296); [|lia].
Qed.

(** Each step of [nlz] keeps the product [x * 2 ^ n] of the original number
    and halves the distance to the top bit. *)
Lemma nlz_step x k : 0 < x → 0 < k → x < 2 ^ (32 - k) → k < 32 → u32 (Z.shiftl x k) = x * 2 ^ k ∧ 2 ^ k ≤ x * 2 ^ k < 2 ^ 32.
Proof.
  intros Hx Hk Hb Hk2. rewrite Z.shiftl_mul_pow2 by lia. pose proof (Z.pow_pos_nonneg 2 k ltac:(lia) ltac:(lia)).
  assert (2 ^ 32 = 2 ^ (32 - k) * 2 ^ k) as E by (rewrite <- Z.pow_add_r by lia; f_equal; lia).
  assert (x * 2 ^ k < 2 ^ 32) by (rewrite E; nia). split; [apply u32_id; lia|nia].
Qed.

(** A stage of [nlz]: [y] is [x] shifted by [n]. *)
Definition nlz_stage (k : Z) (p : Z * Z) : Z * Z :=
  if p.2 <=? 2 ^ (32 - k) - 1 then (p.1 + k, u32 (Z.shiftl p.2 k)) else p.

Lemma nlz_stage_ok x k n y : 0 < k < 32 → 0 ≤ n → y = x * 2 ^ n → 2 ^ (32 - 2 * k) ≤ y < 2 ^ 32 → 2 * k ≤ 32 →
  let '(n', y') := nlz_stage k (n, y) in n ≤ n' ≤ n + k ∧ y' = x * 2 ^ n' ∧ 2 ^ (32 - k) ≤ y' < 2 ^ 32.
Proof.
  intros Hk Hn Hy Hb H2. unfold nlz_stage. simpl fst. simpl snd.
  assert (2 ^ (32 - k) = 2 ^ (32 - 2 * k) * 2 ^ k) as E by (rewrite <- Z.pow_add_r by lia; f_equal; lia).
  pose proof (Z.pow_pos_nonneg 2 k ltac:(lia) ltac:(lia)). pose proof (Z.pow_pos_nonneg 2 (32 - 2 * k) ltac:(lia) ltac:(lia)).
  destruct (Z.leb_spec y (2 ^ (32 - k) - 1)); [|lia].
  destruct (nlz_step y k) as [-> Hs]; [lia..|]. split; [lia|]. split; [rewrite Hy, Z.pow_add_r by lia; ring|]. split; [nia|lia].
Qed.

Lemma nlz_ok x : 0 < x < 2 ^ 32 → 0 ≤ nlz x ≤ 31 ∧ 2 ^ 31 ≤ x * 2 ^ nlz x < 2 ^ 32.
Proof.
  intros Hx. assert (nlz x = let p := nlz_stage 2 (nlz_stage 4 (nlz_stage 8 (nlz_stage 16 (0, x)))) in
    if p.2 <=? 0x7FFFFFFF then p.1 + 1 else p.1) as ->.
  { unfold nlz, nlz_stage. change (2 ^ (32 - 16) - 1) with 0xFFFF. change (2 ^ (32 - 8) - 1) with 0xFFFFFF.
    change (2 ^ (32 - 4) - 1) with 0xFFFFFFF. change (2 ^ (32 - 2) - 1) with 0x3FFFFFFF. cbn [fst snd].
    repeat (destruct (_ <=? _); cbn [fst snd]); reflexivity. }
  pose proof (nlz_stage_ok x 16 0 x) as S1. destruct (nlz_stage 16 (0, x)) as [n1 y1]. destruct S1 as (? & ? & ?); [lia|lia|lia|lia|lia|].
  pose proof (nlz_stage_ok x 8 n1 y1) as S2. destruct (nlz_stage 8 (n1, y1)) as [n2 y2]. destruct S2 as (? & ? & ?); [lia|lia|done|simpl; lia|lia|].
  pose proof (nlz_stage_ok x 4 n2 y2) as S3. destruct (nlz_stage 4 (n2, y2)) as [n3 y3]. destruct S3 as (? & ? & ?); [lia|lia|done|simpl; lia|lia|].
  pose proof (nlz_stage_ok x 2 n3 y3) as S4. destruct (nlz_stage 2 (n3, y3)) as [n4 y4]. destruct S4 as (? & E4 & ?); [lia|lia|done|simpl; lia|lia|].
  cbn [fst snd]. destruct (Z.leb_spec y4 0x7FFFFFFF); [|split; [lia|rewrite <- E4; lia]].
  split; [lia|]. rewrite Z.pow_add_r by lia. change (2 ^ 1) with 2. lia.
Qed.

(** The estimate [q] of the quotient is right or one too large. *)
Lemma estimate n d k v : 0 ≤ n < 2 ^ 64 → 1 ≤ k ≤ 32 → 2 ^ 31 ≤ v → v * 2 ^ k ≤ d < (v + 1) * 2 ^ k →
  n / d ≤ n / (v * 2 ^ k) ≤ n / d + 1.
Proof.
  intros Hn Hk Hv Hd. pose proof (Z.pow_pos_nonneg 2 k ltac:(lia) ltac:(lia)) as Hp. set (w := v * 2 ^ k) in *.
  assert (2 ^ 31 * 2 ^ k ≤ w) as Hw by (unfold w; nia). split; [apply Z.div_le_compat_l; lia|].
  apply Z.lt_succ_r, Z.div_lt_upper_bound; [lia|]. set (Q := n / d).
  assert (Q * d ≤ n < (Q + 1) * d) as HQ.
  { pose proof (Z.mul_div_le n d ltac:(lia)). pose proof (Z.mul_succ_div_gt n d ltac:(lia)). unfold Q. lia. }
  assert (0 ≤ Q) as HQ0 by (apply Z.div_pos; lia).
  assert (2 ^ 33 = 2 ^ (33 - k) * 2 ^ k) as E33 by (rewrite <- Z.pow_add_r by lia; f_equal; lia).
  assert (Q + 1 ≤ 2 ^ (33 - k)) as HQ1.
  { apply Z.le_succ_l. assert (Q * (2 ^ 31 * 2 ^ k) < 2 ^ 64) by nia. change (2 ^ 64) with (2 ^ 31 * 2 ^ 33) in *. nia. }
  assert ((Q + 1) * (d - w) ≤ w) as He; [|nia].
  assert (d - w ≤ 2 ^ k - 1) by (unfold w; lia).
  assert ((Q + 1) * (d - w) ≤ 2 ^ (33 - k) * (2 ^ k - 1)) by nia.
  destruct (decide (k = 1)) as [->|]; [simpl in *; lia|].
  assert (2 ^ 2 ≤ 2 ^ k) by (apply Z.pow_le_mono_r; lia). lia.
Qed.

Lemma udiv_short n d : 0 ≤ n < 2 ^ 64 → 0 < d < 2 ^ 32 → udiv64 n d = Ret (n / d).
Proof.
  intros Hn Hd. unfold udiv64. rewrite !Z.shiftr_div_pow2, (Z.div_small d) by lia. simpl (0 =? 0). cbv iota zeta.
  rewrite (u32_id d) by lia. destruct (Z.eqb_spec d 0) as [|_]; [lia|].
  assert (0 ≤ n / 2 ^ 32 < 2 ^ 32) as Hn1 by div_lia. rewrite (u32_id (n / 2 ^ 32)) by lia. unfold u32.
  set (n1 := n / 2 ^ 32) in *. set (n0 := n mod 2 ^ 32). assert (n = 2 ^ 32 * n1 + n0) as En by (unfold n1, n0; div_lia).
  assert (0 ≤ n0 < 2 ^ 32) as Hn0 by (unfold n0; div_lia).
  pose proof (Z.mod_pos_bound n1 d ltac:(lia)) as Hr. pose proof (Z.div_mod n1 d ltac:(lia)) as Ed. set (r := n1 mod d) in *. set (h := n1 / d) in *.
  assert (0 ≤ h) as Hh by (apply Z.div_pos; lia).
  rewrite u64_id by nia. rewrite divl_ok; [|nia|lia|apply Z.div_lt_upper_bound; nia]. cbn [mbind outcome_bind]. f_equal.
  assert (n / d = (2 ^ 32 * r + n0) / d + 2 ^ 32 * h) as ->.
  { rewrite En, Ed. replace (2 ^ 32 * (d * h + r) + n0) with (2 ^ 32 * r + n0 + 2 ^ 32 * h * d) by ring. by rewrite Z.div_add by lia. }
  assert (0 ≤ (2 ^ 32 * r + n0) / d < 2 ^ 32) by (split; [apply Z.div_pos; lia|apply Z.div_lt_upper_bound; nia]).
  apply u64_id. assert (h < 2 ^ 32) by nia. nia.
Qed.

(** The shifted divisor. *)
Lemma normalized d : 2 ^ 32 ≤ d < 2 ^ 64 → let s := nlz (d / 2 ^ 32) in
  0 ≤ s ≤ 31 ∧ 2 ^ 31 ≤ d * 2 ^ s / 2 ^ 32 < 2 ^ 32 ∧ d * 2 ^ s < 2 ^ 64 ∧
  d * 2 ^ s / 2 ^ 32 * 2 ^ (32 - s) ≤ d < (d * 2 ^ s / 2 ^ 32 + 1) * 2 ^ (32 - s).
Proof.
  intros Hd s. assert (1 ≤ d / 2 ^ 32 < 2 ^ 32) as Hd1 by div_lia. destruct (nlz_ok (d / 2 ^ 32)) as [Hs Hb]; [lia|]. fold s in Hs, Hb.
  pose proof (Z.pow_pos_nonneg 2 s ltac:(lia) ltac:(lia)) as Hp.
  assert (2 ^ 32 = 2 ^ (32 - s) * 2 ^ s) as E by (rewrite <- Z.pow_add_r by lia; f_equal; lia).
  pose proof (Z.div_mod d (2 ^ 32) ltac:(lia)) as Ed. pose proof (Z.mod_pos_bound d (2 ^ 32) ltac:(lia)).
  set (a := 2 ^ (32 - s)) in *. set (c := 2 ^ s) in *. set (d1 := d / 2 ^ 32) in *. set (d0 := d mod 2 ^ 32) in *.
  assert (d1 + 1 ≤ a) as Ha by nia. assert ((d1 + 1) * c ≤ 2 ^ 32) as Hc by nia.
  assert (d * c < 2 ^ 64) as Hlt. { change (2 ^ 64) with (2 ^ 32 * 2 ^ 32). nia. }
  assert (2 ^ 63 ≤ d * c) as Hge. { change (2 ^ 63) with (2 ^ 32 * 2 ^ 31). nia. }
  split; [done|]. split; [split; [apply Z.div_le_lower_bound; lia|apply Z.div_lt_upper_bound; lia]|]. split; [done|].
  pose proof (Z.div_mod (d * c) (2 ^ 32) ltac:(lia)) as Ev. pose proof (Z.mod_pos_bound (d * c) (2 ^ 32) ltac:(lia)) as Hm.
  set (v := d * c / 2 ^ 32) in *. set (u := (d * c) mod 2 ^ 32) in *. clearbody v u a c. rewrite E in Ev, Hm. clear - Ev Hm Hp. nia.
Qed.

Lemma udiv_long n d : 0 ≤ n < 2 ^ 64 → 2 ^ 32 ≤ d < 2 ^ 64 → udiv64 n d = Ret (n / d).
Proof.
  intros Hn Hd. unfold udiv64. rewrite !Z.shiftr_div_pow2, (u32_id (d / 2 ^ 32)) by (lia || div_lia).
  destruct (Z.eqb_spec (d / 2 ^ 32) 0) as [E|_]; [div_lia|]. destruct (Z.ltb_spec n d) as [Hlt|Hge]; [by rewrite Z.div_small by lia|].
  cbv zeta. destruct (normalized d Hd) as (Hs & Hv & Hlt & Hb). set (s := nlz (d / 2 ^ 32)) in *.
  rewrite Z.shiftl_mul_pow2, (u64_id (d * 2 ^ s)), (u32_id (d * 2 ^ s / 2 ^ 32)) by lia. set (v := d * 2 ^ s / 2 ^ 32) in *.
  rewrite divl_ok; [|div_lia|lia|apply Z.div_lt_upper_bound; [lia|]; change (2 ^ 1) with 2; apply Z.div_lt_upper_bound; nia].
  cbn [mbind outcome_bind]. rewrite Z.shiftr_div_pow2 by lia. f_equal.
  assert (n / 2 ^ 1 / v / 2 ^ (31 - s) = n / (v * 2 ^ (32 - s))) as ->.
  { rewrite !Z.div_div by (try apply Z.pow_pos_nonneg; lia). f_equal. replace (32 - s) with (1 + (31 - s)) by lia. rewrite Z.pow_add_r by lia. ring. }
  destruct (estimate n d (32 - s) v) as [Hl Hu]; [lia..|]. set (q := n / (v * 2 ^ (32 - s))) in *. clearbody q.
  pose proof (Z.mul_div_le n d ltac:(lia)). pose proof (Z.mul_succ_div_gt n d ltac:(lia)).
  assert (1 ≤ n / d) by (apply Z.div_le_lower_bound; lia). set (Q := n / d) in *.
  assert (0 ≤ (q - 1) * d ≤ n) by nia. rewrite (u64_id ((q - 1) * d)), u64_id by lia.
  assert (Q < 2 ^ 64) by nia. destruct (Z.ltb_spec (n - (q - 1) * d) d); [rewrite u64_id by lia|]; nia.
Qed.

Lemma udiv64_ok n d : 0 ≤ n < 2 ^ 64 → 0 < d < 2 ^ 64 → udiv64 n d = Ret (n / d).
Proof. intros Hn Hd. destruct (decide (d < 2 ^ 32)); [apply udiv_short; lia|apply udiv_long; lia]. Qed.

Lemma sdiv64_ok n d : - 2 ^ 63 ≤ n < 2 ^ 63 → - 2 ^ 63 ≤ d < 2 ^ 63 → d ≠ 0 → sdiv64 n d = Ret (s64 (Z.quot n d)).
Proof.
  intros Hn Hd Hz. unfold sdiv64.
  assert ((if 0 <=? n then n else u64 (- n)) = Z.abs n) as -> by (destruct (Z.leb_spec 0 n); [lia|rewrite u64_id; lia]).
  assert ((if 0 <=? d then d else u64 (- d)) = Z.abs d) as -> by (destruct (Z.leb_spec 0 d); [lia|rewrite u64_id; lia]).
  rewrite udiv64_ok by lia. cbn [mbind outcome_bind]. f_equal. rewrite Z.quot_div by done.
  assert (0 ≤ Z.abs n / Z.abs d ≤ 2 ^ 63) as Hq.
  { split; [apply Z.div_pos; lia|]. apply Z.div_le_upper_bound; [lia|]. nia. }
  set (q := Z.abs n / Z.abs d) in *. assert (n = 0 → q = 0) as H0 by (intros ->; unfold q; by rewrite Z.div_0_l by lia).
  clearbody q. assert (s64 (- s64 q) = s64 (- q)) as Eneg.
  { destruct (decide (q = 2 ^ 63)) as [->|]; [done|]. by rewrite (s64_id q) by lia. }
  rewrite Eneg. destruct (Z.ltb_spec n 0), (Z.ltb_spec d 0); simpl; f_equal; destruct (decide (n = 0)) as [E|E]; try (rewrite H0 by done; lia);
    rewrite ?(Z.sgn_neg n), ?(Z.sgn_neg d), ?(Z.sgn_pos n), ?(Z.sgn_pos d) by lia; lia.
Qed.

(** ** Properties *)

(** C40. The division routines divide: for every dividend and every nonzero
    divisor of 64 bits, the processor instruction never traps, the
    unsigned quotient is the floor of the exact quotient, and the signed one is
    the exact quotient rounded toward zero, reduced to 64 bits (which matters
    only for the least number divided by -1). *)
Theorem div64_exact n d :
  (0 ≤ n < 2 ^ 64 → 0 < d < 2 ^ 64 → __udivdi3 n d = Ret (n / d)) ∧
  (- 2 ^ 63 ≤ n < 2 ^ 63 → - 2 ^ 63 ≤ d < 2 ^ 63 → d ≠ 0 → __divdi3 n d = Ret (s64 (Z.quot n d))).
Proof. split; [apply udiv64_ok|apply sdiv64_ok]. Qed.

Lemma div64_exact_witness : __udivdi3 0xfedcba9876543210 0x123456789 = Ret 0xe0000000 ∧ __divdi3 (- 7 * 10 ^ 12) (2 ^ 33 + 1) = Ret (-814).
Proof.
  split.
  - apply (proj1 (div64_exact 0xfedcba9876543210 0x123456789)); lia.
  - apply (proj2 (div64_exact (- 7 * 10 ^ 12) (2 ^ 33 + 1))); lia.
Defined.

(** The remainder routines return 32 bits of the remainder: their results are
    right exactly when the remainder has no more. *)
Lemma mod64_truncated n d : 0 ≤ n < 2 ^ 64 → 0 < d < 2 ^ 64 →
  __umoddi3 n d = Ret (u32 (n mod d)) ∧ (__umoddi3 n d = Ret (n mod d) ↔ n mod d < 2 ^ 32).
Proof.
  intros Hn Hd. pose proof (Z.mod_pos_bound n d ltac:(lia)) as Hm. pose proof (Z.mod_le n d ltac:(lia) ltac:(lia)).
  assert (__umoddi3 n d = Ret (u32 (n mod d))) as E.
  { unfold __umoddi3, umod64. rewrite udiv64_ok by done. cbn [mbind outcome_bind]. do 2 f_equal.
    rewrite Z.mod_eq by lia. apply u64_id. rewrite <- Z.mod_eq by lia. lia. }
  split; [done|]. rewrite E. split.
  - intros [= <-]. apply u32_range.
  - intros Hlt. by rewrite u32_id by lia.
Qed.
