(* ===== verification/Cstring.v ===== *)
(** * Blocks of bytes and strings (lib/string.c)

    A memory is a map from addresses to bytes; an access outside of it is a
    [Fault].  The functions are the loops of the source over addresses.
    Loops over a string have one iteration per byte of the string, so that the
    number of bytes of the memory is enough fuel.  The theorems relate them to
    functions on lists: a string at [p] is the bytes [s], none of them zero,
    followed by a zero. *)

From S2P Require Import Prelude.

(** ** The code *)

Notation memory := (gmap Z Z).
Definition load (p : Z) : cmd memory Z := λ m, let* b := access (m !! p) in Ret (b, m).
Definition store (p b : Z) : cmd memory unit := λ m, let* _ := access (m !! p) in Ret ((), <[p := u8 b]> m).

Definition nonnull (p : Z) : bool := negb (p =? 0).

(** [while (size-- > 0) *dst++ = *src++;] with the final [dst]. *)
Fixpoint copy_up (n : nat) (dst src : Z) : cmd memory Z :=
  match n with
  | O => mret dst
  | S n => let* b := load src in let* _ := store dst b in copy_up n (dst + 1) (src + 1)
  end.

(** [while (size-- > 0) *--dst = *--src;] *)
Fixpoint copy_down (n : nat) (dst src : Z) : cmd memory Z :=
  match n with
  | O => mret dst
  | S n => let* b := load (src - 1) in let* _ := store (dst - 1) b in copy_down n (dst - 1) (src - 1)
  end.

Definition memcpy (dst src size : Z) : cmd memory Z :=
  let* _ := assert (nonnull dst || (size =? 0)) in
  let* _ := assert (nonnull src || (size =? 0)) in
  let* _ := copy_up (Z.to_nat size) dst src in
  mret dst.

Definition memmove (dst src size : Z) : cmd memory Z :=
  let* _ := assert (nonnull dst || (size =? 0)) in
  let* _ := assert (nonnull src || (size =? 0)) in
  if dst <? src then copy_up (Z.to_nat size) dst src
  else copy_down (Z.to_nat size) (dst + size) (src + size).

Fixpoint memcmp_loop (n : nat) (a b : Z) : cmd memory Z :=
  match n with
  | O => mret 0
  | S n => let* x := load a in let* y := load b in
           if negb (x =? y) then mret (if y <? x then 1 else -1) else memcmp_loop n (a + 1) (b + 1)
  end.
Definition memcmp (a b size : Z) : cmd memory Z :=
  let* _ := assert (nonnull a || (size =? 0)) in
  let* _ := assert (nonnull b || (size =? 0)) in
  memcmp_loop (Z.to_nat size) a b.

Fixpoint strcmp_loop (fuel : nat) (a b : Z) : cmd memory Z :=
  match fuel with
  | O => lift (Fail OutOfFuel)
  | S fuel =>
      let* x := load a in
      let* y := load b in
      if negb (x =? 0) && (x =? y) then strcmp_loop fuel (a + 1) (b + 1)
      else mret (if x <? y then -1 else if y <? x then 1 else 0)
  end.
(** Enough for every loop over a string. *)
Definition bytes_of (m : memory) : nat := S (size m).
Definition strcmp (a b : Z) : cmd memory Z :=
  let* _ := assert (nonnull a) in
  let* _ := assert (nonnull b) in
  let* m := get in
  strcmp_loop (bytes_of m) a b.

Fixpoint memchr_loop (n : nat) (block ch : Z) : cmd memory Z :=
  match n with
  | O => mret 0
  | S n => let* x := load block in if x =? ch then mret block else memchr_loop n (block + 1) ch
  end.
Definition memchr (block ch size : Z) : cmd memory Z :=
  let* _ := assert (nonnull block || (size =? 0)) in
  memchr_loop (Z.to_nat size) block (u8 ch).

Fixpoint strchr_loop (fuel : nat) (string c : Z) : cmd memory Z :=
  match fuel with
  | O => lift (Fail OutOfFuel)
  | S fuel => let* x := load string in
              if x =? c then mret string else if x =? 0 then mret 0 else strchr_loop fuel (string + 1) c
  end.
Definition strchr (string c : Z) : cmd memory Z :=
  let* _ := assert (nonnull string) in
  let* m := get in
  strchr_loop (bytes_of m) string (u8 c).

(** The loops of [strcspn] ([b] true) and [strspn] ([b] false): they stop at a
    character that is, or is not, in [set]. *)
Fixpoint span_loop (fuel : nat) (b : bool) (string set length : Z) : cmd memory Z :=
  match fuel with
  | O => lift (Fail OutOfFuel)
  | S fuel =>
      let* x := load (string + length) in
      if negb (x =? 0) then
        let* r := strchr set x in
        if eqb (nonnull r) b then mret length else span_loop fuel b string set (length + 1)
      else mret length
  end.
Definition strcspn (string stop : Z) : cmd memory Z := let* m := get in span_loop (bytes_of m) true string stop 0.
Definition strspn (string skip : Z) : cmd memory Z := let* m := get in span_loop (bytes_of m) false string skip 0.

Fixpoint strpbrk_loop (fuel : nat) (string stop : Z) : cmd memory Z :=
  match fuel with
  | O => lift (Fail OutOfFuel)
  | S fuel =>
      let* x := load string in
      if negb (x =? 0) then
        let* r := strchr stop x in
        if nonnull r then mret string else strpbrk_loop fuel (string + 1) stop
      else mret 0
  end.
Definition strpbrk (string stop : Z) : cmd memory Z := let* m := get in strpbrk_loop (bytes_of m) string stop.

Fixpoint strrchr_loop (fuel : nat) (string c p : Z) : cmd memory Z :=
  match fuel with
  | O => lift (Fail OutOfFuel)
  | S fuel =>
      let* x := load string in
      if negb (x =? 0) then strrchr_loop fuel (string + 1) c (if x =? c then string else p) else mret p
  end.
Definition strrchr (string c : Z) : cmd memory Z := let* m := get in strrchr_loop (bytes_of m) string (u8 c) 0.

Fixpoint strlen_loop (fuel : nat) (p : Z) : cmd memory Z :=
  match fuel with
  | O => lift (Fail OutOfFuel)
  | S fuel => let* x := load p in if negb (x =? 0) then strlen_loop fuel (p + 1) else mret p
  end.
Definition strlen (string : Z) : cmd memory Z :=
  let* _ := assert (nonnull string) in
  let* m := get in
  let* p := strlen_loop (bytes_of m) string in
  mret (p - string).

(** The test [string[length] != '\0'] comes before [length < maxlen]. *)
Fixpoint strnlen_loop (fuel : nat) (string maxlen length : Z) : cmd memory Z :=
  match fuel with
  | O => lift (Fail OutOfFuel)
  | S fuel => let* x := load (string + length) in
              if negb (x =? 0) && (length <? maxlen) then strnlen_loop fuel string maxlen (length + 1) else mret length
  end.
Definition strnlen (string maxlen : Z) : cmd memory Z := let* m := get in strnlen_loop (bytes_of m) string maxlen 0.

Fixpoint strstr_loop (n : nat) (haystack needle needle_len i : Z) : cmd memory Z :=
  match n with
  | O => mret 0
  | S n => let* c := memcmp (haystack + i) needle needle_len in
           if c =? 0 then mret (haystack + i) else strstr_loop n haystack needle needle_len (i + 1)
  end.
Definition strstr (haystack needle : Z) : cmd memory Z :=
  let* haystack_len := strlen haystack in
  let* needle_len := strlen needle in
  if needle_len <=? haystack_len then strstr_loop (Z.to_nat (haystack_len - needle_len + 1)) haystack needle needle_len 0
  else mret 0.

(** The first loop of [strtok_r]: the first character that is not a delimiter,
    and whether there is one before the end. *)
Fixpoint skip_loop (fuel : nat) (delimiters s : Z) : cmd memory (bool * Z) :=
  match fuel with
  | O => lift (Fail OutOfFuel)
  | S fuel =>
      let* x := load s in
      let* r := strchr delimiters x in
      if nonnull r then if x =? 0 then mret (false, s) else skip_loop fuel delimiters (s + 1)
      else mret (true, s)
  end.
Fixpoint token_loop (fuel : nat) (delimiters s : Z) : cmd memory Z :=
  match fuel with
  | O => lift (Fail OutOfFuel)
  | S fuel =>
      let* x := load s in
      let* r := strchr delimiters x in
      if nonnull r then mret s else token_loop fuel delimiters (s + 1)
  end.
(** The token, or null, and the new value of [*save_ptr], which is [saved]
    before the call. *)
Definition strtok_r (s delimiters saved : Z) : cmd memory (Z * Z) :=
  let* _ := assert (nonnull delimiters) in
  let s := if s =? 0 then saved else s in
  let* _ := assert (nonnull s) in
  let* m := get in
  let* (found, s) := skip_loop (bytes_of m) delimiters s in
  if negb found then mret (0, s) else
  let token := s in
  let* s := token_loop (bytes_of m) delimiters s in
  let* x := load s in
  if negb (x =? 0) then let* _ := store s 0 in mret (token, s + 1) else mret (token, s).

Fixpoint fill (n : nat) (dst value : Z) : cmd memory unit :=
  match n with
  | O => mret ()
  | S n => let* _ := store dst value in fill n (dst + 1) value
  end.
Definition memset (dst value size : Z) : cmd memory Z :=
  let* _ := assert (nonnull dst || (size =? 0)) in
  let* _ := fill (Z.to_nat size) dst value in
  mret dst.

Definition strlcpy (dst src size : Z) : cmd memory Z :=
  let* _ := assert (nonnull dst) in
  let* _ := assert (nonnull src) in
  let* src_len := strlen src in
  let* _ := (if 0 <? size then
               let dst_len := if src_len <? size - 1 then src_len else size - 1 in
               let* _ := memcpy dst src dst_len in
               store (dst + dst_len) 0
             else mret ()) in
  mret src_len.

Definition strlcat (dst src size : Z) : cmd memory Z :=
  let* _ := assert (nonnull dst) in
  let* _ := assert (nonnull src) in
  let* src_len := strlen src in
  let* dst_len := strlen dst in
  let* _ := (if (0 <? size) && (dst_len <? size) then
               let copy_cnt := if src_len <? size - dst_len - 1 then src_len else size - dst_len - 1 in
               let* _ := memcpy (dst + dst_len) src copy_cnt in
               store (dst + dst_len + copy_cnt) 0
             else mret ()) in
  mret (u32 (src_len + dst_len)).

(** ** Bytes in memory *)

Definition byte (b : Z) : Prop := 0 ≤ b < 256.
Definition bytes_at (m : memory) (p : Z) (bs : list Z) : Prop := ∀ k b, bs !! k = Some b → m !! (p + Z.of_nat k) = Some b.
Definition mapped (m : memory) (p n : Z) : Prop := ∀ q, p ≤ q < p + n → is_Some (m !! q).

(** A string [s] at [p]. *)
Record string_at (m : memory) (p : Z) (s : list Z) : Prop := {
  st_bytes : bytes_at m p (s ++ [0]);
  st_chars x : x ∈ s → 0 < x < 256;
  st_pos : 0 < p
}.

Lemma bytes_at_cons m p b bs : bytes_at m p (b :: bs) ↔ m !! p = Some b ∧ bytes_at m (p + 1) bs.
Proof.
  split.
  - intros H. split; [rewrite <- (H 0%nat b eq_refl); f_equal; lia|]. intros k c Hk. rewrite <- (H (S k) c Hk). f_equal. lia.
  - intros [H0 H] [|k] c; simpl; [intros [= <-]; rewrite <- H0; f_equal; lia|]. intros Hk. rewrite <- (H k c Hk). f_equal. lia.
Qed.

Lemma bytes_at_app m p bs cs : bytes_at m p (bs ++ cs) ↔ bytes_at m p bs ∧ bytes_at m (p + zlength bs) cs.
Proof.
  revert p. induction bs as [|b bs IH]; intros p; simpl.
  - rewrite Z.add_0_r. split; [by split|by intros []].
  - rewrite !bytes_at_cons, IH. replace (p + 1 + zlength bs) with (p + Z.of_nat (S (length bs))) by lia. tauto.
Qed.

Lemma bytes_at_agree m m' p bs : bytes_at m p bs → (∀ a, p ≤ a < p + zlength bs → m' !! a = m !! a) → bytes_at m' p bs.
Proof. intros H Ha k b Hk. rewrite Ha; [by apply H|]. apply lookup_lt_Some in Hk. lia. Qed.

Lemma bytes_at_mapped m p bs : bytes_at m p bs → mapped m p (zlength bs).
Proof.
  intros H q Hq. destruct (lookup_lt_is_Some_2 bs (Z.to_nat (q - p))) as [b Hb]; [lia|].
  exists b. rewrite <- (H _ b Hb). f_equal. lia.
Qed.

Lemma bytes_at_size m p bs : bytes_at m p bs → (length bs ≤ size m)%nat.
Proof.
  intros H. rewrite <- (size_dom (D := gset Z) m). transitivity (size (list_to_set ((λ k, p + Z.of_nat k) <$> seq 0 (length bs)) : gset Z)).
  - rewrite size_list_to_set; [rewrite length_fmap, length_seq; done|]. apply NoDup_fmap_2; [intros ? ? ?; lia|apply NoDup_seq].
  - apply subseteq_size. intros a (k & -> & Hk)%elem_of_list_to_set%list_elem_of_fmap. apply elem_of_seq in Hk. apply elem_of_dom.
    apply (bytes_at_mapped m p bs H). lia.
Qed.

Lemma string_at_cons m p x s : string_at m p (x :: s) ↔ m !! p = Some x ∧ 0 < x < 256 ∧ 0 < p ∧ string_at m (p + 1) s.
Proof.
  split.
  - intros [Hb Hc Hp]. apply bytes_at_cons in Hb as [Hx Hb]. split; [done|]. split; [apply Hc; by left|]. split; [done|].
    split; [done| |lia]. intros y Hy. apply Hc. by right.
  - intros (Hx & Hr & Hp & [Hb Hc _]). split; [by apply bytes_at_cons| |done]. intros y [->|Hy]%elem_of_cons; [done|by apply Hc].
Qed.

Lemma string_at_nil m p : string_at m p [] ↔ m !! p = Some 0 ∧ 0 < p.
Proof.
  split; [intros [Hb _ Hp]; by apply bytes_at_cons in Hb as [? _]|]. intros [H Hp]. split; [|by intros x ?%elem_of_nil|done].
  apply bytes_at_cons. split; [done|]. by intros k b.
Qed.

Lemma string_at_app m p s t : string_at m p (s ++ t) → string_at m (p + zlength s) t.
Proof.
  revert p. induction s as [|x s IH]; intros p; simpl; [by rewrite Z.add_0_r|]. intros (_ & _ & _ & H)%string_at_cons.
  replace (p + Z.of_nat (S (length s))) with (p + 1 + zlength s) by lia. by apply IH.
Qed.

Lemma string_at_size m p s : string_at m p s → (length s < size m)%nat.
Proof. intros [Hb _ _]. apply bytes_at_size in Hb. rewrite length_app in Hb. simpl in Hb. lia. Qed.

Lemma load_ok m p x : m !! p = Some x → load p m = Ret (x, m).
Proof. intros H. unfold load. by rewrite H. Qed.

Lemma store_ok m p b : is_Some (m !! p) → byte b → store p b m = Ret ((), <[p := b]> m).
Proof. intros [x Hx] Hb. unfold store. rewrite Hx. simpl. by rewrite u8_id. Qed.

Lemma nonnull_pos p : 0 < p → nonnull p = true.
Proof. intros. unfold nonnull. destruct (Z.eqb_spec p 0); [lia|done]. Qed.

(** ** Searching *)

(** The index of the first [x] in [l]. *)
Definition index (x : Z) (l : list Z) : option nat := fst <$> list_find (x =.) l.

Lemma index_cons x y l : index x (y :: l) = if decide (x = y) then Some 0%nat else S <$> index x l.
Proof. unfold index. simpl. case_decide; [done|]. destruct (list_find (x =.) l) as [[k z]|]; done. Qed.

Lemma index_Some x l : is_Some (index x l) ↔ x ∈ l.
Proof.
  induction l as [|y l IH]; [rewrite elem_of_nil; split; [by intros []|done]|]. rewrite index_cons, elem_of_cons. case_decide; [naive_solver|].
  rewrite fmap_is_Some, IH. naive_solver.
Qed.

Definition found (p : Z) (o : option nat) : Z := match o with Some k => p + Z.of_nat k | None => 0 end.

Lemma found_succ p o : found (p + 1) o = found p (S <$> o).
Proof. destruct o; simpl; lia. Qed.

Lemma strchr_loop_ok m s c : ∀ p fuel, string_at m p s → (length s < fuel)%nat → strchr_loop fuel p c m = Ret (found p (index c (s ++ [0])), m).
Proof.
  induction s as [|x s IH]; intros p [|fuel] Hs Hf; simpl in Hf; try lia; cbn [strchr_loop app]; rewrite index_cons.
  - apply string_at_nil in Hs as [H0 Hp]. rewrite (cstep _ _ _ 0 m) by by apply load_ok.
    destruct (Z.eqb_spec 0 c) as [<-|Hc]; [rewrite decide_True by done; simpl; by rewrite Z.add_0_r|]. by rewrite decide_False.
  - apply string_at_cons in Hs as (Hx & Hr & Hp & Hs). rewrite (cstep _ _ _ x m) by by apply load_ok.
    destruct (Z.eqb_spec x c) as [<-|Hc]; [rewrite decide_True by done; simpl; by rewrite Z.add_0_r|]. rewrite decide_False by done.
    destruct (Z.eqb_spec x 0); [lia|]. rewrite IH by (done || lia). by rewrite found_succ.
Qed.

Lemma strchr_ok m p s c : string_at m p s → byte c → strchr p c m = Ret (found p (index c (s ++ [0])), m).
Proof.
  intros Hs Hc. unfold strchr. rewrite (cstep _ _ _ () m) by (apply assert_ok, nonnull_pos, (st_pos _ _ _ Hs)). rewrite cget, u8_id by done.
  apply strchr_loop_ok; [done|]. unfold bytes_of. pose proof (string_at_size m p s Hs). lia.
Qed.

(** Whether a character is in a set, given as a string. *)
Definition member (set : list Z) (x : Z) : bool := bool_decide (x ∈ set).

Lemma strchr_test m p s c : string_at m p s → byte c → ∃ r, strchr p c m = Ret (r, m) ∧ nonnull r = member s c || (c =? 0).
Proof.
  intros Hs Hc. eexists. split; [by apply strchr_ok|]. pose proof (index_Some c (s ++ [0])) as Hi. rewrite elem_of_app, list_elem_of_singleton in Hi.
  assert (nonnull (found p (index c (s ++ [0]))) = bool_decide (is_Some (index c (s ++ [0])))) as ->.
  { destruct (index c (s ++ [0])) as [k|]; [|done]. rewrite bool_decide_true by done. apply nonnull_pos; simpl. pose proof (st_pos _ _ _ Hs). lia. }
  unfold member. destruct (Z.eqb_spec c 0) as [->|Hne]; [rewrite orb_true_r; apply bool_decide_true, Hi; by right|].
  rewrite orb_false_r. apply bool_decide_ext. rewrite Hi. split; [by intros [?|?]|by left].
Qed.

Lemma strlen_loop_ok m s : ∀ p fuel, string_at m p s → (length s < fuel)%nat → strlen_loop fuel p m = Ret (p + zlength s, m).
Proof.
  induction s as [|x s IH]; intros p [|fuel] Hs Hf; simpl in Hf; try lia; cbn [strlen_loop].
  - apply string_at_nil in Hs as [H0 Hp]. rewrite (cstep _ _ _ 0 m) by by apply load_ok. simpl. by rewrite Z.add_0_r.
  - apply string_at_cons in Hs as (Hx & Hr & Hp & Hs). rewrite (cstep _ _ _ x m) by by apply load_ok.
    destruct (Z.eqb_spec x 0); [lia|]. cbn [negb]. rewrite IH by (done || lia). simpl. do 2 f_equal. lia.
Qed.

(** The fuel of the loops over a string. *)
Lemma string_fuel m p s : string_at m p s → (length s < bytes_of m)%nat.
Proof. intros Hs%string_at_size. unfold bytes_of. lia. Qed.

Lemma strlen_ok m p s : string_at m p s → strlen p m = Ret (zlength s, m).
Proof.
  intros Hs. unfold strlen. rewrite (cstep _ _ _ () m) by (apply assert_ok, nonnull_pos, (st_pos _ _ _ Hs)). rewrite cget.
  rewrite (cstep _ _ _ (p + zlength s) m) by (apply strlen_loop_ok; [done|by apply (string_fuel m p)]).
  unfold mret, cmd_ret. do 2 f_equal. lia.
Qed.

(** The length of the longest prefix whose elements satisfy [f]. *)
Fixpoint pre (f : Z → bool) (s : list Z) : nat :=
  match s with x :: s => if f x then S (pre f s) else O | [] => O end.

Lemma pre_ext f g s : (∀ x, f x = g x) → pre f s = pre g s.
Proof. intros H. induction s as [|x s IH]; [done|]. simpl. by rewrite H, IH. Qed.

Lemma span_loop_ok m b q set s : string_at m q set → ∀ p k fuel, string_at m (p + k) s → (length s < fuel)%nat →
  span_loop fuel b p q k m = Ret (k + Z.of_nat (pre (λ x, negb (eqb (member set x) b)) s), m).
Proof.
  intros Hq. induction s as [|x s IH]; intros p k [|fuel] Hs Hf; simpl in Hf; try lia; cbn [span_loop].
  - apply string_at_nil in Hs as [H0 Hp]. rewrite (cstep _ _ _ 0 m) by by apply load_ok. simpl. by rewrite Z.add_0_r.
  - apply string_at_cons in Hs as (Hx & Hr & Hp & Hs). rewrite (cstep _ _ _ x m) by by apply load_ok.
    destruct (strchr_test m q set x Hq) as (r & Hr1 & Hr2); [unfold byte; lia|]. cbn [pre].
    destruct (Z.eqb_spec x 0); [lia|]. cbn [negb]. rewrite (cstep _ _ _ _ _ Hr1), Hr2, orb_false_r.
    destruct (eqb (member set x) b); simpl; [by rewrite Z.add_0_r|].
    rewrite IH; [|by replace (p + (k + 1)) with (p + k + 1) by lia|lia]. do 2 f_equal. lia.
Qed.

Lemma spans_ok m p s q set : string_at m p s → string_at m q set →
  strcspn p q m = Ret (Z.of_nat (pre (λ x, negb (member set x)) s), m) ∧ strspn p q m = Ret (Z.of_nat (pre (member set) s), m).
Proof.
  intros Hs Hq. unfold strcspn, strspn. rewrite !cget. rewrite <- (Z.add_0_r p) in Hs.
  rewrite !(span_loop_ok m _ q set s Hq) by (done || by apply (string_fuel m (p + 0))).
  split; rewrite Z.add_0_l; do 3 f_equal; apply pre_ext; intros x; by destruct (member set x).
Qed.

Lemma strpbrk_loop_ok m q set s : string_at m q set → ∀ p fuel, string_at m p s → (length s < fuel)%nat →
  strpbrk_loop fuel p q m = Ret (found p (fst <$> list_find (λ x, member set x = true) s), m).
Proof.
  intros Hq. induction s as [|x s IH]; intros p [|fuel] Hs Hf; simpl in Hf; try lia; cbn [strpbrk_loop].
  - apply string_at_nil in Hs as [H0 Hp]. by rewrite (cstep _ _ _ 0 m) by by apply load_ok.
  - apply string_at_cons in Hs as (Hx & Hr & Hp & Hs). rewrite (cstep _ _ _ x m) by by apply load_ok.
    destruct (strchr_test m q set x Hq) as (r & Hr1 & Hr2); [unfold byte; lia|].
    destruct (Z.eqb_spec x 0); [lia|]. cbn [negb]. rewrite (cstep _ _ _ _ _ Hr1), Hr2, orb_false_r. cbn [list_find].
    destruct (member set x); [rewrite decide_True by done; simpl; by rewrite Z.add_0_r|]. rewrite decide_False by done.
    rewrite IH by (done || lia). rewrite found_succ. do 3 f_equal. by destruct (list_find _ s) as [[]|].
Qed.

(** The index of the last [x]. *)
Fixpoint last_index (x : Z) (s : list Z) : option nat :=
  match s with
  | [] => None
  | y :: s => match last_index x s with Some k => Some (S k) | None => if decide (y = x) then Some O else None end
  end.

Lemma strrchr_loop_ok m c s : ∀ p r fuel, string_at m p s → (length s < fuel)%nat →
  strrchr_loop fuel p c r m = Ret (match last_index c s with Some k => p + Z.of_nat k | None => r end, m).
Proof.
  induction s as [|x s IH]; intros p r [|fuel] Hs Hf; simpl in Hf; try lia; cbn [strrchr_loop].
  - apply string_at_nil in Hs as [H0 Hp]. by rewrite (cstep _ _ _ 0 m) by by apply load_ok.
  - apply string_at_cons in Hs as (Hx & Hr & Hp & Hs). rewrite (cstep _ _ _ x m) by by apply load_ok.
    destruct (Z.eqb_spec x 0); [lia|]. cbn [negb]. rewrite IH by (done || lia). do 2 f_equal. simpl.
    destruct (last_index c s) as [k|]; [lia|]. destruct (Z.eqb_spec x c); [rewrite decide_True by done; lia|by rewrite decide_False].
Qed.

Lemma memchr_ok m p bs c : bytes_at m p bs → 0 < p → memchr p c (zlength bs) m = Ret (found p (index (u8 c) bs), m).
Proof.
  intros Hb Hp. unfold memchr. rewrite (cstep _ _ _ () m) by (apply assert_ok; by rewrite nonnull_pos). rewrite Nat2Z.id. clear Hp.
  revert p Hb. induction bs as [|b bs IH]; intros p Hb; cbn [memchr_loop length]; [done|]. apply bytes_at_cons in Hb as [Hx Hb].
  rewrite (cstep _ _ _ b m) by by apply load_ok. rewrite index_cons. destruct (Z.eqb_spec b (u8 c)) as [->|Hne].
  - rewrite decide_True by done. simpl. by rewrite Z.add_0_r.
  - rewrite decide_False by done. by rewrite IH, found_succ.
Qed.

Lemma strnlen_loop_ok m maxlen s : ∀ p k fuel, string_at m (p + k) s → (length s < fuel)%nat → k ≤ maxlen →
  strnlen_loop fuel p maxlen k m = Ret (Z.min (k + zlength s) maxlen, m).
Proof.
  induction s as [|x s IH]; intros p k [|fuel] Hs Hf Hk; simpl in Hf; try lia; cbn [strnlen_loop].
  - apply string_at_nil in Hs as [H0 Hp]. rewrite (cstep _ _ _ 0 m) by by apply load_ok. simpl. unfold mret, cmd_ret. do 2 f_equal. lia.
  - apply string_at_cons in Hs as (Hx & Hr & Hp & Hs). rewrite (cstep _ _ _ x m) by by apply load_ok.
    destruct (Z.eqb_spec x 0); [lia|]. cbn [negb andb]. destruct (Z.ltb_spec k maxlen).
    + rewrite IH; [do 2 f_equal; simpl; lia|by replace (p + (k + 1)) with (p + k + 1) by lia|lia|lia].
    + unfold mret, cmd_ret. do 2 f_equal. lia.
Qed.

Lemma strnlen_ok m p s maxlen : string_at m p s → 0 ≤ maxlen → strnlen p maxlen m = Ret (Z.min (zlength s) maxlen, m).
Proof.
  intros Hs Hm. unfold strnlen. rewrite cget. pose proof (string_fuel m p s Hs). rewrite <- (Z.add_0_r p) in Hs.
  by rewrite (strnlen_loop_ok m maxlen s p 0).
Qed.

(** ** Comparing *)

(** The lexicographic order of lists of characters, as a sign. *)
Fixpoint lex (a b : list Z) : Z :=
  match a, b with
  | x :: a, y :: b => if x =? y then lex a b else if x <? y then -1 else 1
  | [], [] => 0
  | [], _ :: _ => -1
  | _ :: _, [] => 1
  end.

Lemma lex_zero a b : lex a b = 0 ↔ a = b.
Proof.
  revert b. induction a as [|x a IH]; intros [|y b]; simpl; try naive_solver lia.
  destruct (Z.eqb_spec x y) as [->|]; [rewrite IH; naive_solver|]. destruct (x <? y); naive_solver lia.
Qed.

Lemma memcmp_loop_ok m xs : ∀ ys a b, bytes_at m a xs → bytes_at m b ys → length xs = length ys →
  memcmp_loop (length xs) a b m = Ret (lex xs ys, m).
Proof.
  induction xs as [|x xs IH]; intros [|y ys] a b Ha Hb Hl; try done; cbn [memcmp_loop length lex].
  apply bytes_at_cons in Ha as [Hx Ha]. apply bytes_at_cons in Hb as [Hy Hb].
  rewrite (cstep _ _ _ x m), (cstep _ _ _ y m) by by apply load_ok. destruct (Z.eqb_spec x y); cbn [negb].
  - rewrite (IH ys) by (done || by injection Hl). done.
  - unfold mret, cmd_ret. do 2 f_equal. destruct (Z.ltb_spec y x), (Z.ltb_spec x y); lia.
Qed.

Lemma memcmp_ok m a b xs ys : bytes_at m a xs → bytes_at m b ys → length xs = length ys → 0 < a → 0 < b →
  memcmp a b (zlength xs) m = Ret (lex xs ys, m).
Proof.
  intros Ha Hb Hl Hpa Hpb. unfold memcmp. rewrite !(cstep _ _ _ () m) by (apply assert_ok; by rewrite nonnull_pos). rewrite Nat2Z.id.
  by apply memcmp_loop_ok.
Qed.

Lemma strcmp_loop_ok m s : ∀ t a b fuel, string_at m a s → string_at m b t → (length s < fuel)%nat →
  strcmp_loop fuel a b m = Ret (lex s t, m).
Proof.
  induction s as [|x s IH]; intros t a b [|fuel] Ha Hb Hf; simpl in Hf; try lia; cbn [strcmp_loop].
  - apply string_at_nil in Ha as [H0 Hp]. rewrite (cstep _ _ _ 0 m) by by apply load_ok. destruct t as [|y t].
    + apply string_at_nil in Hb as [H1 _]. by rewrite (cstep _ _ _ 0 m) by by apply load_ok.
    + apply string_at_cons in Hb as (Hy & Hr & _ & _). rewrite (cstep _ _ _ y m) by by apply load_ok. cbn [negb andb Z.eqb].
      by destruct (Z.ltb_spec 0 y); [|lia].
  - apply string_at_cons in Ha as (Hx & Hr & Hp & Ha). rewrite (cstep _ _ _ x m) by by apply load_ok.
    destruct (Z.eqb_spec x 0); [lia|]. cbn [negb andb]. destruct t as [|y t].
    + apply string_at_nil in Hb as [H1 _]. rewrite (cstep _ _ _ 0 m) by by apply load_ok. destruct (Z.eqb_spec x 0); [lia|].
      destruct (Z.ltb_spec x 0); [lia|]. by destruct (Z.ltb_spec 0 x); [|lia].
    + apply string_at_cons in Hb as (Hy & Hr2 & _ & Hb). rewrite (cstep _ _ _ y m) by by apply load_ok. cbn [lex].
      destruct (Z.eqb_spec x y); [by apply IH; [| |lia]|]. unfold mret, cmd_ret. do 2 f_equal.
      destruct (Z.ltb_spec x y), (Z.ltb_spec y x); lia.
Qed.

Lemma strcmp_ok m a b s t : string_at m a s → string_at m b t → strcmp a b m = Ret (lex s t, m).
Proof.
  intros Ha Hb. unfold strcmp. rewrite (cstep _ _ _ () m) by (apply assert_ok, nonnull_pos, (st_pos _ _ _ Ha)).
  rewrite (cstep _ _ _ () m) by (apply assert_ok, nonnull_pos, (st_pos _ _ _ Hb)). rewrite cget.
  apply strcmp_loop_ok; [done|done|by apply (string_fuel m a)].
Qed.

(** The first place where [t] occurs in [s]. *)
Fixpoint sub_index (t s : list Z) : option nat :=
  if bool_decide (t `prefix_of` s) then Some O else
  match s with [] => None | _ :: s => S <$> sub_index t s end.

Lemma sub_index_short t u : (length u < length t)%nat → sub_index t u = None.
Proof.
  induction u as [|x u IH]; intros Hu; simpl; rewrite bool_decide_false by (intros Hpre%prefix_length; simpl in *; lia); [done|].
  by rewrite IH by (simpl in Hu; lia).
Qed.

Lemma strstr_loop_ok m p q t : string_at m q t → 0 < p → ∀ n i s, string_at m (p + i) s → 0 ≤ i → (n + length t = S (length s))%nat →
  strstr_loop n p q (zlength t) i m = Ret (found (p + i) (sub_index t s), m).
Proof.
  intros Hq Hp. induction n as [|n IH]; intros i s Hs Hi Hn; cbn [strstr_loop].
  - by rewrite sub_index_short by lia.
  - pose proof (st_bytes _ _ _ Hs) as Hb. rewrite <- (take_drop (length t) s), <- app_assoc in Hb. apply bytes_at_app in Hb as [Hb _].
    assert (length (take (length t) s) = length t) as Hl by (rewrite length_take; lia).
    pose proof (st_bytes _ _ _ Hq) as Hbq. apply bytes_at_app in Hbq as [Hbq _].
    rewrite (cstep _ _ _ (lex (take (length t) s) t) m).
    2:{ pose proof (memcmp_ok m (p + i) q _ t Hb Hbq Hl ltac:(lia) (st_pos _ _ _ Hq)) as Hm. by rewrite Hl in Hm. }
    assert ((lex (take (length t) s) t =? 0) = bool_decide (t `prefix_of` s)) as ->.
    { apply eq_true_iff_eq. rewrite Z.eqb_eq, bool_decide_eq_true, lex_zero. split.
      - intros <-. exists (drop (length t) s). by rewrite take_drop.
      - intros [u ->]. by rewrite take_app_length. }
    destruct s as [|x s]; cbn [sub_index]; case_bool_decide as Hpre; simpl; rewrite ?Z.add_0_r; try done.
    + assert (t = []) as -> by (destruct t; [done|simpl in Hn; lia]). by destruct Hpre; apply prefix_nil.
    + apply string_at_cons in Hs as (_ & _ & _ & Hs). rewrite (IH (i + 1) s); [|by replace (p + (i + 1)) with (p + i + 1) by lia|lia|simpl in Hn; lia].
      replace (p + (i + 1)) with (p + i + 1) by lia. by rewrite found_succ.
Qed.

Lemma strstr_ok m p q s t : string_at m p s → string_at m q t → strstr p q m = Ret (found p (sub_index t s), m).
Proof.
  intros Hs Ht. unfold strstr. rewrite (cstep _ _ _ _ _ (strlen_ok m p s Hs)), (cstep _ _ _ _ _ (strlen_ok m q t Ht)).
  pose proof (st_pos _ _ _ Hs) as Hp. rewrite <- (Z.add_0_r p) in Hs. destruct (Z.leb_spec (zlength t) (zlength s)).
  - rewrite (strstr_loop_ok m p q t Ht Hp _ 0 s) by (done || lia). by rewrite Z.add_0_r.
  - by rewrite sub_index_short by lia.
Qed.

(** ** Writing *)

(** The memory with [bs] at [p]. *)
Fixpoint write (m : memory) (p : Z) (bs : list Z) : memory :=
  match bs with [] => m | b :: bs => write (<[p := b]> m) (p + 1) bs end.

Lemma write_lookup bs : ∀ m p q, write m p bs !! q = if decide (p ≤ q < p + zlength bs) then bs !! Z.to_nat (q - p) else m !! q.
Proof.
  induction bs as [|b bs IH]; intros m p q; simpl; [by rewrite decide_False by lia|]. rewrite IH.
  destruct (decide (q = p)) as [->|Hne].
  - rewrite decide_False, lookup_insert_eq, decide_True by lia. by rewrite Z.sub_diag.
  - rewrite lookup_insert_ne by done. destruct (decide (p ≤ q < p + Z.of_nat (S (length bs)))).
    + rewrite decide_True by lia. replace (Z.to_nat (q - p)) with (S (Z.to_nat (q - (p + 1)))) by lia. done.
    + by rewrite decide_False by lia.
Qed.

Lemma write_app m p bs cs : write m p (bs ++ cs) = write (write m p bs) (p + zlength bs) cs.
Proof.
  revert m p. induction bs as [|b bs IH]; intros m p; simpl; [by rewrite Z.add_0_r|]. rewrite IH. f_equal. lia.
Qed.

Lemma write_snoc m p bs b : write m p (bs ++ [b]) = write (<[p + zlength bs := b]> m) p bs.
Proof.
  rewrite write_app. simpl. apply map_eq. intros q. rewrite write_lookup. destruct (decide (q = p + zlength bs)) as [->|Hne].
  - by rewrite lookup_insert_eq, decide_False, lookup_insert_eq by lia.
  - rewrite !lookup_insert_ne, write_lookup by done. done.
Qed.

Lemma write_at m p bs : bytes_at (write m p bs) p bs.
Proof.
  intros k b Hk. pose proof (lookup_lt_Some _ _ _ Hk). rewrite write_lookup, decide_True by lia.
  rewrite <- Hk. f_equal. lia.
Qed.

Lemma write_other m p bs q : ¬ (p ≤ q < p + zlength bs) → write m p bs !! q = m !! q.
Proof. intros Hq. by rewrite write_lookup, decide_False. Qed.

Lemma mapped_insert m p n q b : mapped m p n → mapped (<[q := b]> m) p n.
Proof. intros H a Ha. destruct (decide (q = a)) as [->|]; [by rewrite lookup_insert_eq|]. rewrite lookup_insert_ne by done. by apply H. Qed.

(** Copying upwards is right when the target is not inside the source. *)
Lemma copy_up_ok bs : ∀ m dst src, bytes_at m src bs → Forall byte bs → mapped m dst (zlength bs) →
  dst ≤ src ∨ src + zlength bs ≤ dst → copy_up (length bs) dst src m = Ret (dst + zlength bs, write m dst bs).
Proof.
  induction bs as [|b bs IH]; intros m dst src Hb Hby Hm Hd; cbn [copy_up length write]; [by rewrite Z.add_0_r|].
  simpl length in Hd, Hm. apply bytes_at_cons in Hb as [Hx Hb]. apply Forall_cons in Hby as [Hb0 Hby]. rewrite (cstep _ _ _ b m) by by apply load_ok.
  rewrite (cstep _ _ _ () (<[dst := b]> m)) by (apply store_ok; [apply Hm; simpl; lia|done]).
  rewrite IH; [do 2 f_equal; lia| |done| |lia].
  - apply (bytes_at_agree m); [done|]. intros a Ha. by rewrite lookup_insert_ne by lia.
  - apply mapped_insert. intros a Ha. apply Hm. simpl. lia.
Qed.

Lemma copy_down_ok bs : ∀ m dst src, bytes_at m src bs → Forall byte bs → mapped m dst (zlength bs) → src ≤ dst →
  copy_down (length bs) (dst + zlength bs) (src + zlength bs) m = Ret (dst, write m dst bs).
Proof.
  induction bs as [|b bs IH] using rev_ind; intros m dst src Hb Hby Hm Hd; [cbn; by rewrite Z.add_0_r|].
  rewrite length_app, Nat.add_comm in *. cbn [copy_down length Nat.add]. apply bytes_at_app in Hb as [Hb Hx]. apply bytes_at_cons in Hx as [Hx _].
  apply Forall_app in Hby as [Hby [Hb0 _]%Forall_cons]. simpl length in *.
  replace (src + Z.of_nat (S (length bs)) - 1) with (src + zlength bs) by lia. replace (dst + Z.of_nat (S (length bs)) - 1) with (dst + zlength bs) by lia.
  rewrite (cstep _ _ _ b m) by by apply load_ok.
  rewrite (cstep _ _ _ () (<[dst + zlength bs := b]> m)) by (apply store_ok; [apply Hm; lia|done]).
  rewrite IH; [by rewrite write_snoc| |done| |done].
  - apply (bytes_at_agree m); [done|]. intros a Ha. by rewrite lookup_insert_ne by lia.
  - apply mapped_insert. intros a Ha. apply Hm. lia.
Qed.

Lemma bytes_copied m dst src bs : bytes_at m src bs → Forall byte bs → mapped m dst (zlength bs) → 0 < dst → 0 < src →
  src + zlength bs ≤ dst ∨ dst + zlength bs ≤ src → memcpy dst src (zlength bs) m = Ret (dst, write m dst bs).
Proof.
  intros Hb Hby Hm Hd Hs Hdis. unfold memcpy. rewrite !(cstep _ _ _ () m) by (apply assert_ok; by rewrite nonnull_pos). rewrite Nat2Z.id.
  by rewrite (cstep _ _ _ (dst + zlength bs) (write m dst bs)) by (apply copy_up_ok; (done || lia)).
Qed.

Lemma memmove_ok m dst src bs : bytes_at m src bs → Forall byte bs → mapped m dst (zlength bs) → 0 < dst → 0 < src →
  memmove dst src (zlength bs) m = Ret (if dst <? src then dst + zlength bs else dst, write m dst bs).
Proof.
  intros Hb Hby Hm Hd Hs. unfold memmove. rewrite !(cstep _ _ _ () m) by (apply assert_ok; by rewrite nonnull_pos). rewrite Nat2Z.id.
  destruct (Z.ltb_spec dst src); [apply copy_up_ok|apply copy_down_ok]; (done || lia).
Qed.

Lemma memset_ok m dst value n : mapped m dst (Z.of_nat n) → 0 < dst → memset dst value (Z.of_nat n) m = Ret (dst, write m dst (replicate n (u8 value))).
Proof.
  intros Hm Hd. unfold memset. rewrite (cstep _ _ _ () m) by (apply assert_ok; by rewrite nonnull_pos). rewrite Nat2Z.id.
  rewrite (cstep _ _ _ () (write m dst (replicate n (u8 value)))); [done|]. clear Hd. revert m dst Hm.
  induction n as [|n IH]; intros m dst Hm; cbn [fill]; [done|].
  destruct (Hm dst) as [x Hx]; [lia|].
  rewrite (cstep _ _ _ () (<[dst := u8 value]> m)) by (unfold store; by rewrite Hx).
  rewrite IH; [done|]. apply mapped_insert. intros a Ha. apply Hm. lia.
Qed.

(** ** Bounded copies *)

Lemma string_bytes m p s : string_at m p s → Forall byte s.
Proof. intros Hs. apply Forall_forall. intros x Hx. pose proof (st_chars _ _ _ Hs x Hx). unfold byte. lia. Qed.

Lemma string_take m p s n : string_at m p s → bytes_at m p (take n s).
Proof.
  intros Hs. pose proof (st_bytes _ _ _ Hs) as Hb. rewrite <- (take_drop n s), <- app_assoc in Hb. by apply bytes_at_app in Hb as [? _].
Qed.

Lemma string_bytes_at m p s : string_at m p s → bytes_at m p s.
Proof. intros Hs. pose proof (st_bytes _ _ _ Hs) as Hb. by apply bytes_at_app in Hb as [? _]. Qed.

Lemma string_written m p s : 0 < p → (∀ x, x ∈ s → 0 < x < 256) → string_at (write m p (s ++ [0])) p s.
Proof. intros Hp Hs. split; [apply write_at|done|done]. Qed.

Lemma memcpy_terminated m dst src s n : string_at m src s → 0 < dst → (n ≤ length s)%nat → mapped m dst (Z.of_nat n + 1) →
  src + zlength s < dst ∨ dst + Z.of_nat n < src →
  (let* _ := memcpy dst src (Z.of_nat n) in store (dst + Z.of_nat n) 0) m = Ret ((), write m dst (take n s ++ [0])).
Proof.
  intros Hs Hd Hn Hm Hdis. assert (length (take n s) = n) as Hl by (rewrite length_take; lia).
  pose proof (bytes_copied m dst src (take n s)) as Hc. rewrite Hl in Hc.
  rewrite (cstep _ _ _ _ _ (Hc (string_take m src s n Hs) (Forall_take _ _ _ (string_bytes m src s Hs)) ltac:(intros a Ha; apply Hm; lia) Hd (st_pos _ _ _ Hs) ltac:(lia))).
  rewrite write_app, Hl. simpl. apply store_ok; [|done]. rewrite write_other by lia. apply Hm. lia.
Qed.

Lemma strlcpy_ok m dst src s size : string_at m src s → 0 < dst → 0 < size → mapped m dst size →
  src + zlength s < dst ∨ dst + size ≤ src →
  strlcpy dst src size m = Ret (zlength s, write m dst (take (Z.to_nat (size - 1)) s ++ [0])).
Proof.
  intros Hs Hd Hz Hm Hdis. unfold strlcpy. rewrite (cstep _ _ _ () m) by (apply assert_ok; by apply nonnull_pos).
  rewrite (cstep _ _ _ () m) by (apply assert_ok, nonnull_pos, (st_pos _ _ _ Hs)). rewrite (cstep _ _ _ _ _ (strlen_ok m src s Hs)).
  destruct (Z.ltb_spec 0 size); [|lia]. cbv zeta.
  assert ((if zlength s <? size - 1 then zlength s else size - 1) = Z.of_nat (Nat.min (length s) (Z.to_nat (size - 1)))) as -> by (destruct (Z.ltb_spec (zlength s) (size - 1)); lia).
  rewrite (cstep _ _ _ () (write m dst (take (Z.to_nat (size - 1)) s ++ [0]))); [done|].
  rewrite (memcpy_terminated m dst src s); [|done|done|lia|intros a Ha; apply Hm; lia|lia].
  do 4 f_equal. destruct (decide (length s ≤ Z.to_nat (size - 1))%nat); [rewrite !take_ge by lia; done|f_equal; lia].
Qed.

Lemma strlcat_ok m dst src d s size : string_at m src s → string_at m dst d → zlength d < size → mapped m dst size →
  src + zlength s < dst ∨ dst + size ≤ src → zlength s + zlength d < 2 ^ 32 →
  strlcat dst src size m = Ret (zlength s + zlength d, write m (dst + zlength d) (take (Z.to_nat (size - 1 - zlength d)) s ++ [0])).
Proof.
  intros Hs Hd Hz Hm Hdis Hlen. pose proof (st_pos _ _ _ Hd) as Hdp. unfold strlcat. rewrite (cstep _ _ _ () m) by (apply assert_ok; by apply nonnull_pos).
  rewrite (cstep _ _ _ () m) by (apply assert_ok, nonnull_pos, (st_pos _ _ _ Hs)).
  rewrite (cstep _ _ _ _ _ (strlen_ok m src s Hs)), (cstep _ _ _ _ _ (strlen_ok m dst d Hd)).
  destruct (Z.ltb_spec 0 size); [|lia]. destruct (Z.ltb_spec (zlength d) size); [|lia]. cbn [andb]. cbv zeta. rewrite u32_id by lia.
  assert ((if zlength s <? size - zlength d - 1 then zlength s else size - zlength d - 1) = Z.of_nat (Nat.min (length s) (Z.to_nat (size - 1 - zlength d)))) as ->
    by (destruct (Z.ltb_spec (zlength s) (size - zlength d - 1)); lia).
  rewrite (cstep _ _ _ () (write m (dst + zlength d) (take (Z.to_nat (size - 1 - zlength d)) s ++ [0]))); [done|].
  rewrite (memcpy_terminated m (dst + zlength d) src s); [|done|lia|lia|intros a Ha; apply Hm; lia|lia].
  do 4 f_equal. destruct (decide (length s ≤ Z.to_nat (size - 1 - zlength d))%nat); [rewrite !take_ge by lia; done|f_equal; lia].
Qed.

(** ** Tokens *)

(** The maximal runs of characters of [s] that are not delimiters; [cur] is
    the run that has begun. *)
Fixpoint words_from (d : Z → bool) (cur s : list Z) : list (list Z) :=
  match s with
  | [] => match cur with [] => [] | _ => [cur] end
  | x :: s =>
      if d x then match cur with [] => words_from d [] s | _ => cur :: words_from d [] s end
      else words_from d (cur ++ [x]) s
  end.
Definition words (d : Z → bool) (s : list Z) : list (list Z) := words_from d [] s.

Lemma pre_le f s : (pre f s ≤ length s)%nat.
Proof. induction s as [|x s IH]; simpl; [lia|]. destruct (f x); lia. Qed.

Lemma pre_take f s x : x ∈ take (pre f s) s → f x = true.
Proof.
  induction s as [|y s IH]; simpl; [by intros ?%elem_of_nil|]. destruct (f y) eqn:Hy; simpl; [|by intros ?%elem_of_nil].
  intros [->|?]%elem_of_cons; auto.
Qed.

Lemma pre_drop f s x t : drop (pre f s) s = x :: t → f x = false.
Proof. induction s as [|y s IH]; simpl; [done|]. destruct (f y) eqn:Hy; simpl; [done|]. by intros [= <- _]. Qed.

Lemma words_skip d s : words d s = words d (drop (pre d s) s).
Proof. induction s as [|x s IH]; simpl; [done|]. unfold words in *. simpl. destruct (d x) eqn:Hx; simpl; [done|]. by rewrite Hx. Qed.

Lemma words_token d s : ∀ cur, let n := pre (λ x, negb (d x)) s in
  words_from d cur s = words_from d (cur ++ take n s) (drop n s).
Proof.
  induction s as [|x s IH]; intros cur; simpl; [by rewrite app_nil_r|]. destruct (d x) eqn:Hx; simpl; [by rewrite Hx, app_nil_r|].
  rewrite IH. by rewrite <- app_assoc.
Qed.

Lemma words_end d cur s : cur ≠ [] → match s with [] => True | x :: _ => d x = true end →
  words_from d cur s = cur :: words d (drop 1 s).
Proof. destruct s as [|x s]; simpl; [by destruct cur|]. intros Hc ->. by destruct cur. Qed.

Section Tokens.
Context (q : Z) (ds : list Z).
Notation d := (member ds).
Notation nd := (λ x, negb (member ds x)).

Lemma skip_loop_ok m s : string_at m q ds → ∀ p fuel, string_at m p s → (length s < fuel)%nat →
  skip_loop fuel q p m = Ret ((negb (pre d s =? length s)%nat, p + Z.of_nat (pre d s)), m).
Proof.
  intros Hq. induction s as [|x s IH]; intros p [|fuel] Hs Hf; simpl in Hf; try lia; cbn [skip_loop].
  - apply string_at_nil in Hs as [H0 Hp]. rewrite (cstep _ _ _ 0 m) by by apply load_ok.
    destruct (strchr_test m q ds 0 Hq) as (r & Hr1 & Hr2); [done|]. rewrite (cstep _ _ _ _ _ Hr1), Hr2, orb_true_r. simpl. by rewrite Z.add_0_r.
  - apply string_at_cons in Hs as (Hx & Hr & Hp & Hs). rewrite (cstep _ _ _ x m) by by apply load_ok.
    destruct (strchr_test m q ds x Hq) as (r & Hr1 & Hr2); [unfold byte; lia|]. rewrite (cstep _ _ _ _ _ Hr1), Hr2.
    destruct (Z.eqb_spec x 0); [lia|]. rewrite orb_false_r. cbn [pre length]. destruct (d x); [|by rewrite Z.add_0_r].
    rewrite IH by (done || lia). cbn [Nat.eqb]. do 3 f_equal. lia.
Qed.

Lemma token_loop_ok m s : string_at m q ds → ∀ p fuel, string_at m p s → (length s < fuel)%nat →
  token_loop fuel q p m = Ret (p + Z.of_nat (pre nd s), m).
Proof.
  intros Hq. induction s as [|x s IH]; intros p [|fuel] Hs Hf; simpl in Hf; try lia; cbn [token_loop].
  - apply string_at_nil in Hs as [H0 Hp]. rewrite (cstep _ _ _ 0 m) by by apply load_ok.
    destruct (strchr_test m q ds 0 Hq) as (r & Hr1 & Hr2); [done|]. rewrite (cstep _ _ _ _ _ Hr1), Hr2, orb_true_r. simpl. by rewrite Z.add_0_r.
  - apply string_at_cons in Hs as (Hx & Hr & Hp & Hs). rewrite (cstep _ _ _ x m) by by apply load_ok.
    destruct (strchr_test m q ds x Hq) as (r & Hr1 & Hr2); [unfold byte; lia|]. rewrite (cstep _ _ _ _ _ Hr1), Hr2.
    destruct (Z.eqb_spec x 0); [lia|]. rewrite orb_false_r. cbn [pre]. destruct (d x); cbn [negb]; [by rewrite Z.add_0_r|].
    rewrite IH by (done || lia). do 2 f_equal. lia.
Qed.

(** A string cut at a character that is overwritten with the terminator. *)
Lemma string_cut m p s x t : string_at m p (s ++ x :: t) →
  string_at (<[p + zlength s := 0]> m) p s ∧ string_at (<[p + zlength s := 0]> m) (p + zlength s + 1) t.
Proof.
  intros Hs. pose proof (st_pos _ _ _ Hs). pose proof (st_bytes _ _ _ Hs) as Hb. rewrite <- app_assoc in Hb. apply bytes_at_app in Hb as [Hb1 Hb2].
  apply bytes_at_cons in Hb2 as [_ Hb2]. split; (split; [|intros y Hy; apply (st_chars _ _ _ Hs); set_solver|lia]).
  - apply bytes_at_app. split; [apply (bytes_at_agree m); [done|]; intros a Ha; by rewrite lookup_insert_ne by lia|].
    apply bytes_at_cons. rewrite lookup_insert_eq. split; [done|]. by intros k b.
  - apply (bytes_at_agree m); [done|]. intros a Ha. by rewrite lookup_insert_ne by lia.
Qed.

(** One call: the token [w], its address, and what is left. *)
Definition token_at (m : memory) (p : Z) (s : list Z) (m' : memory) (t saved : Z) (w rest : list Z) : Prop :=
  string_at m' t w ∧ w ≠ [] ∧ string_at m' saved rest ∧ words d s = w :: words d rest ∧
  p ≤ t ∧ t + zlength w ≤ saved ∧ saved + zlength rest = p + zlength s ∧ (length rest < length s)%nat ∧
  (∀ a, ¬ (p ≤ a < p + zlength s) → m' !! a = m !! a) ∧ (t + zlength w < saved ∨ rest = []) ∧ m' !! (t + zlength w) = Some 0.

Lemma strtok_step m p s s0 saved : string_at m q ds → string_at m p s → (if s0 =? 0 then saved else s0) = p →
  strtok_r s0 q saved m = Ret ((0, p + zlength s), m) ∧ words d s = [] ∨
  ∃ t saved' m' w rest, strtok_r s0 q saved m = Ret ((t, saved'), m') ∧ t ≠ 0 ∧ token_at m p s m' t saved' w rest.
Proof.
  intros Hq Hs Ep. unfold strtok_r. rewrite (cstep _ _ _ () m) by (apply assert_ok, nonnull_pos, (st_pos _ _ _ Hq)).
  rewrite Ep. rewrite (cstep _ _ _ () m) by (apply assert_ok, nonnull_pos, (st_pos _ _ _ Hs)). rewrite cget.
  rewrite (cstep _ _ _ _ _ (skip_loop_ok m s Hq p _ Hs (string_fuel m p s Hs))). cbn iota beta. rewrite negb_involutive.
  pose proof (pre_le d s) as Hle. set (k := pre d s) in *. destruct (Nat.eqb_spec k (length s)) as [Ek|Ek].
  { left. split; [by rewrite Ek|]. rewrite words_skip. fold k. by rewrite Ek, drop_all. }
  right. assert (s = take k s ++ drop k s) as Es by (by rewrite take_drop). set (s1 := drop k s) in *.
  assert (length (take k s) = k) as Hk by (rewrite length_take; lia). assert (length s1 = (length s - k)%nat) as Hl1 by (unfold s1; apply length_drop).
  assert (string_at m (p + Z.of_nat k) s1) as Hs1. { rewrite Es in Hs. apply string_at_app in Hs. by rewrite Hk in Hs. }
  rewrite (cstep _ _ _ _ _ (token_loop_ok m s1 Hq _ _ Hs1 (string_fuel m _ s1 Hs1))).
  set (n := pre nd s1). pose proof (pre_le nd s1) as Hn. fold n in Hn. assert (length (take n s1) = n) as Hw by (rewrite length_take; lia).
  assert (take n s1 ≠ []) as Hne.
  { unfold n. destruct s1 as [|x s2] eqn:E1; [simpl in Hl1; lia|]. pose proof (pre_drop d s x s2 E1) as Hx. simpl. by rewrite Hx. }
  assert (words d s = words_from d (take n s1) (drop n s1)) as Hwords by (rewrite words_skip; fold k; unfold words; by rewrite words_token).
  pose proof (st_pos _ _ _ Hs) as Hp. assert (s1 = take n s1 ++ drop n s1) as Es1 by (by rewrite take_drop).
  destruct (drop n s1) as [|x rest] eqn:Er.
  - rewrite app_nil_r in Es1. assert (string_at m (p + Z.of_nat k + Z.of_nat n) []) as Hend.
    { assert (n = length s1) as -> by (rewrite <- Hw; by rewrite <- Es1). rewrite <- (app_nil_r s1) in Hs1. by apply string_at_app in Hs1. }
    apply string_at_nil in Hend as [H0 _]. rewrite (cstep _ _ _ 0 m) by by apply load_ok. simpl.
    eexists _, _, _, (take n s1), []. split; [done|]. split; [lia|]. split; [by rewrite <- Es1|]. split; [done|].
    split; [by apply string_at_nil; split; [|lia]|]. split; [rewrite Hwords; by apply words_end|]. rewrite Hw. apply (f_equal length) in Es1.
    split; [lia|]. split; [lia|]. split; [simpl; lia|]. split; [simpl; lia|]. split; [done|]. split; [by right|done].
  - assert (d x = true) as Hx. { apply negb_false_iff. apply (pre_drop nd s1 x rest Er). }
    assert (length s1 = (n + S (length rest))%nat) as Hl2 by (rewrite Es1, length_app, Hw; done).
    pose proof Hs1 as Hcut. rewrite Es1 in Hcut. pose proof (string_at_app _ _ _ _ Hcut) as Hx0. apply string_at_cons in Hx0 as (Hx0 & Hxr & _).
    apply string_cut in Hcut as [Hc1 Hc2]. rewrite Hw in *. rewrite (cstep _ _ _ x m) by by apply load_ok.
    destruct (Z.eqb_spec x 0); [lia|]. cbn [negb]. rewrite (cstep _ _ _ () _) by (apply store_ok; [by rewrite Hx0|done]).
    eexists _, _, _, (take n s1), rest. split; [done|]. split; [lia|]. split; [done|]. split; [done|]. split; [done|].
    split; [rewrite Hwords; by apply (words_end d _ (x :: rest))|]. rewrite Hw. split; [lia|]. split; [lia|]. split; [lia|]. split; [lia|].
    split; [intros a Ha; by rewrite lookup_insert_ne by lia|]. split; [left; lia|by rewrite lookup_insert_eq].
Qed.
End Tokens.

(** The loop in the comment of [strtok_r], with the tokens it finds. *)
Fixpoint tokens (fuel : nat) (delimiters s saved : Z) : cmd memory (list Z) :=
  match fuel with
  | O => lift (Fail OutOfFuel)
  | S fuel =>
      let* (token, saved) := strtok_r s delimiters saved in
      if token =? 0 then mret [] else
      let* rest := tokens fuel delimiters 0 saved in
      mret (token :: rest)
  end.

Lemma string_at_agree m m' p s : string_at m p s → (∀ a, p ≤ a ≤ p + zlength s → m' !! a = m !! a) → string_at m' p s.
Proof.
  intros [Hb Hc Hp] Ha. split; [|done|done]. apply (bytes_at_agree m); [done|]. intros a Hr. apply Ha. rewrite length_app in Hr. simpl in Hr. lia.
Qed.

Lemma tokens_ok q ds fuel : ∀ m p s s0 saved, string_at m q ds → string_at m p s → (if s0 =? 0 then saved else s0) = p →
  q + zlength ds < p ∨ p + zlength s ≤ q → (length s < fuel)%nat →
  ∃ ts m', tokens fuel q s0 saved m = Ret (ts, m') ∧ Forall2 (string_at m') ts (words (member ds) s) ∧
    ∀ a, ¬ (p ≤ a < p + zlength s) → m' !! a = m !! a.
Proof.
  induction fuel as [|fuel IH]; intros m p s s0 saved Hq Hs Ep Hdis Hf; [lia|]. cbn [tokens].
  destruct (strtok_step q ds m p s s0 saved Hq Hs Ep) as [[E Hw]|(t & sv & m1 & w & rest & E & Ht & Htok)]; rewrite (cstep _ _ _ _ _ E); cbn iota beta.
  { exists [], m. rewrite Hw. split; [done|]. split; [constructor|done]. }
  destruct Htok as (Hw & Hne & Hrest & Hwords & Hpt & Htw & Hsv & Hlen & Hout & Hsep & Hz). destruct (Z.eqb_spec t 0); [done|].
  assert (string_at m1 q ds) as Hq1 by (apply (string_at_agree m); [done|]; intros a Ha; apply Hout; lia).
  destruct (IH m1 sv rest 0 sv Hq1 Hrest eq_refl ltac:(lia) ltac:(lia)) as (ts & m2 & E2 & Hall & Hout2).
  rewrite (cstep _ _ _ _ _ E2). exists (t :: ts), m2. split; [done|]. rewrite Hwords. split.
  - constructor; [|done]. apply (string_at_agree m1); [done|]. intros a Ha. apply Hout2.
    destruct Hsep as [|Er]; [lia|]. rewrite Er. simpl. lia.
  - intros a Ha. rewrite Hout2 by lia. by apply Hout.
Qed.

(** ** Properties *)

(** Tokenizing: the loop over [strtok_r], first with the string and then
    with the saved position, ends and returns the maximal runs of characters
    that are not delimiters, in order, each in place as a string of its own;
    nothing outside the string is written. *)
Theorem strtok_splits m p s q ds : string_at m p s → string_at m q ds → q + zlength ds < p ∨ p + zlength s ≤ q →
  ∃ ts m', tokens (S (length s)) q p 0 m = Ret (ts, m') ∧ Forall2 (string_at m') ts (words (member ds) s) ∧
    ∀ a, ¬ (p ≤ a < p + zlength s) → m' !! a = m !! a.
Proof.
  intros Hs Hq Hdis. apply tokens_ok; [done|done| |done|lia]. destruct (Z.eqb_spec p 0); [|done]. pose proof (st_pos _ _ _ Hs). lia.
Qed.

Definition memory_of (l : list (Z * list Z)) : memory := foldr (λ '(p, bs) m, write m p bs) ∅ l.

(** The example of the comment, with shorter words. *)
Definition demo_text : list Z := [32; 32; 97; 98; 32; 32; 99; 32].
Definition demo_memory : memory := memory_of [(10, demo_text ++ [0]); (40, [32; 0])].

Lemma demo_text_at : string_at demo_memory 10 demo_text ∧ string_at demo_memory 40 [32].
Proof.
  split; (split; [|intros x Hx; repeat (apply elem_of_cons in Hx as [->|Hx]; [lia|]); by apply elem_of_nil in Hx|lia]).
  - intros k b Hk. do 9 (destruct k as [|k]; [injection Hk as <-; reflexivity|]). destruct k; discriminate Hk.
  - intros k b Hk. do 2 (destruct k as [|k]; [injection Hk as <-; reflexivity|]). destruct k; discriminate Hk.
Qed.

Lemma strtok_splits_witness : ∃ ts m', tokens 9 40 10 0 demo_memory = Ret (ts, m') ∧ Forall2 (string_at m') ts [[97; 98]; [99]].
Proof.
  destruct (strtok_splits demo_memory 10 demo_text 40 [32]) as (ts & m' & Ht & Hall & _);
    [apply demo_text_at|apply demo_text_at|right; reflexivity || (simpl; lia)|]. exists ts, m'. split; [exact Ht|exact Hall].
Defined.

(** Moving: [memmove] leaves in the target the bytes that were in the
    source, however the two overlap, and writes nothing else.  It returns the
    end of the target, and not [dst] as its comment says, when the target
    is below the source. *)
Theorem memmove_moves m dst src bs : bytes_at m src bs → Forall byte bs → mapped m dst (zlength bs) → 0 < dst → 0 < src →
  ∃ r m', memmove dst src (zlength bs) m = Ret (r, m') ∧ bytes_at m' dst bs ∧
    (∀ a, ¬ (dst ≤ a < dst + zlength bs) → m' !! a = m !! a) ∧
    r = if dst <? src then dst + zlength bs else dst.
Proof.
  intros Hb Hby Hm Hd Hs. eexists _, _. split; [by apply memmove_ok|]. split; [apply write_at|]. split; [|done]. intros a. apply write_other.
Qed.

Lemma memmove_moves_witness : ∃ r m', memmove 11 10 8 demo_memory = Ret (r, m') ∧ bytes_at m' 11 demo_text ∧ r = 11.
Proof.
  destruct (memmove_moves demo_memory 11 10 demo_text) as (r & m' & Hr & Hb & _ & Er); try lia.
  - apply (string_bytes_at demo_memory 10), demo_text_at.
  - apply (string_bytes demo_memory 10), demo_text_at.
  - intros a Ha. apply (bytes_at_mapped demo_memory 10 (demo_text ++ [0])); [apply demo_text_at|]. simpl in *. lia.
  - exists r, m'. split; [exact Hr|]. split; [exact Hb|exact Er].
Defined.

(** Bounded copies never overflow the target: with [size] bytes at [dst],
    [strlcpy] leaves there the first [size] - 1 characters of [src] and
    [strlcat] the first [size] - 1 characters of the concatenation, terminated,
    and writes nothing else; both return the length they tried to create. *)
Theorem bounded_copies m dst src d s size : string_at m src s → string_at m dst d → zlength d < size → mapped m dst size →
  src + zlength s < dst ∨ dst + size ≤ src → zlength s + zlength d < 2 ^ 32 →
  ∃ m1 m2, strlcpy dst src size m = Ret (zlength s, m1) ∧ string_at m1 dst (take (Z.to_nat (size - 1)) s) ∧
    strlcat dst src size m = Ret (zlength s + zlength d, m2) ∧ string_at m2 dst (take (Z.to_nat (size - 1)) (d ++ s)) ∧
    ∀ a, ¬ (dst ≤ a < dst + size) → m1 !! a = m !! a ∧ m2 !! a = m !! a.
Proof.
  intros Hs Hd Hz Hm Hdis Hlen. pose proof (st_pos _ _ _ Hd) as Hp. eexists _, _. split; [apply strlcpy_ok; (done || lia)|].
  assert (∀ n x, x ∈ take n s → 0 < x < 256) as Hts. { intros n x Hx. apply (st_chars _ _ _ Hs). rewrite <- (take_drop n s). apply elem_of_app. by left. }
  split; [apply string_written; [done|apply Hts]|]. split; [by apply strlcat_ok|]. rewrite take_app, (take_ge d) by lia. split.
  - split; [|intros x [Hx|Hx]%elem_of_app; [by apply (st_chars _ _ _ Hd)|by apply (Hts (Z.to_nat (size - 1) - length d)%nat)]|done].
    rewrite <- app_assoc. apply bytes_at_app. split.
    + apply (bytes_at_agree m); [|intros a Ha; apply write_other; lia]. by apply string_bytes_at.
    + replace (Z.to_nat (size - 1) - length d)%nat with (Z.to_nat (size - 1 - zlength d)) by lia. apply write_at.
  - intros a Ha. rewrite !write_other; [done|..]; rewrite length_app, length_take; simpl; lia.
Qed.

Lemma bounded_copies_witness : ∃ m1 m2, strlcpy 40 10 2 demo_memory = Ret (8, m1) ∧ string_at m1 40 [32] ∧ strlcat 40 10 2 demo_memory = Ret (9, m2).
Proof.
  destruct (bounded_copies demo_memory 40 10 [32] demo_text 2) as (m1 & m2 & H1 & H2 & H3 & _); [apply demo_text_at|apply demo_text_at|simpl; lia| |simpl; lia|simpl; lia|].
  - apply (bytes_at_mapped demo_memory 40 [32; 0]). apply demo_text_at.
  - exists m1, m2. split; [exact H1|]. split; [exact H2|exact H3].
Defined.

(** Searching and comparing: on strings [s] at [p] and [t] at [q], the
    functions of string.c return what the corresponding functions on lists
    give, with null for a character or a string that does not occur, and leave
    the memory alone. *)
Theorem searches_exact m p q s t c n : string_at m p s → string_at m q t → byte c → 0 ≤ n →
  strlen p m = Ret (zlength s, m) ∧ strnlen p n m = Ret (Z.min (zlength s) n, m) ∧
  strchr p c m = Ret (found p (index c (s ++ [0])), m) ∧ strrchr p c m = Ret (found p (last_index c s), m) ∧
  strspn p q m = Ret (Z.of_nat (pre (member t) s), m) ∧ strcspn p q m = Ret (Z.of_nat (pre (λ x, negb (member t x)) s), m) ∧
  strpbrk p q m = Ret (found p (fst <$> list_find (λ x, member t x = true) s), m) ∧
  strstr p q m = Ret (found p (sub_index t s), m) ∧ strcmp p q m = Ret (lex s t, m).
Proof.
  intros Hs Ht Hc Hn. destruct (spans_ok m p s q t Hs Ht) as [H1 H2].
  split; [by apply strlen_ok|]. split; [by apply strnlen_ok|]. split; [by apply strchr_ok|]. split.
  { unfold strrchr. rewrite cget, u8_id by done. rewrite (strrchr_loop_ok m c s) by (done || by apply (string_fuel m p)). done. }
  split; [done|]. split; [done|]. split; [|split; [by apply strstr_ok|by apply strcmp_ok]].
  unfold strpbrk. rewrite cget. apply strpbrk_loop_ok; [done|done|by apply (string_fuel m p)].
Qed.

Lemma searches_exact_witness : strlen 10 demo_memory = Ret (8, demo_memory) ∧ strchr 10 98 demo_memory = Ret (13, demo_memory) ∧
  strspn 10 40 demo_memory = Ret (2, demo_memory) ∧ strcmp 10 40 demo_memory = Ret (1, demo_memory).
Proof.
  destruct (searches_exact demo_memory 10 40 demo_text [32] 98 5) as (H1 & _ & H2 & _ & H3 & _ & _ & _ & H4);
    [apply demo_text_at|apply demo_text_at|by split|lia|]. split; [exact H1|]. split; [exact H2|]. split; [exact H3|exact H4].
Defined.
