(* ===== verification/Clib.v ===== *)
(** * Numbers, sorting and searching (lib/stdlib.c, lib/ctype.h)

    [sort] is heap sort and [binary_search] a binary search on an array of
    [cnt] elements of [size] bytes.  The array is its bytes; elements are
    swapped byte by byte, and the comparison is a function of the bytes of two
    elements.  An array of elements [es] is [concat es]; the theorems show
    that the functions sort and search the list [es]. *)

From stdpp Require Import sorting.
From S2P Require Import Prelude Cstring.

(** ** The code *)

Definition isdigit (c : Z) : bool := (48 <=? c) && (c <=? 57).
Definition isspace (c : Z) : bool :=
  (c =? 32) || (c =? 12) || (c =? 10) || (c =? 13) || (c =? 9) || (c =? 11).

Fixpoint space_loop (fuel : nat) (s : Z) : cmd memory Z :=
  match fuel with
  | O => lift (Fail OutOfFuel)
  | S fuel => let* c := load s in if isspace c then space_loop fuel (s + 1) else mret s
  end.
Fixpoint digit_loop (fuel : nat) (s value : Z) : cmd memory Z :=
  match fuel with
  | O => lift (Fail OutOfFuel)
  | S fuel => let* c := load s in
              if isdigit c then digit_loop fuel (s + 1) (s32 (s32 (value * 10) - (c - 48))) else mret value
  end.
Definition atoi (s : Z) : cmd memory Z :=
  let* _ := assert (nonnull s) in
  let* m := get in
  let* s := space_loop (bytes_of m) s in
  let* c := load s in
  let '(negative, s) := if c =? 43 then (false, s + 1) else if c =? 45 then (true, s + 1) else (false, s) in
  let* value := digit_loop (bytes_of m) s 0 in
  mret (if negb negative then s32 (- value) else value).

Definition do_swap (array : list Z) (a_idx b_idx size : Z) : outcome (list Z) :=
  let a := u32 (u32 (a_idx - 1) * size) in
  let b := u32 (u32 (b_idx - 1) * size) in
  for_range (Z.to_nat size) 0 (λ i array,
    let* t := access (zget array (a + i)) in
    let* u := access (zget array (b + i)) in
    let* array := access (zset array (a + i) u) in
    access (zset array (b + i) t)) array.

Section Compare.
Context (compare : list Z → list Z → Z).

Definition do_compare (array : list Z) (a_idx b_idx size : Z) : outcome Z :=
  let* a := slice array (u32 (u32 (a_idx - 1) * size)) size in
  let* b := slice array (u32 (u32 (b_idx - 1) * size)) size in
  Ret (compare a b).

(** [max], for the element [i] of the heap. *)
Definition max_child (array : list Z) (i cnt size : Z) : outcome Z :=
  let left := u32 (2 * i) in
  let right := u32 (2 * i + 1) in
  let* max := (if left <=? cnt then let* c := do_compare array left i size in Ret (if 0 <? c then left else i) else Ret i) in
  if right <=? cnt then let* c := do_compare array right max size in Ret (if 0 <? c then right else max) else Ret max.

Fixpoint heapify (fuel : nat) (array : list Z) (i cnt size : Z) : outcome (list Z) :=
  match fuel with
  | O => Fail OutOfFuel
  | S fuel =>
      let* max := max_child array i cnt size in
      if max =? i then Ret array else
      let* array := do_swap array i max size in
      heapify fuel array max cnt size
  end.

(** [for (i = cnt / 2; i > 0; i--)] and [for (i = cnt; i > 1; i--)]. *)
Fixpoint build (n : nat) (array : list Z) (cnt size : Z) : outcome (list Z) :=
  match n with
  | O => Ret array
  | S n' => let* array := heapify (S (Z.to_nat cnt)) array (Z.of_nat n) cnt size in build n' array cnt size
  end.
Fixpoint unheap (n : nat) (array : list Z) (size : Z) : outcome (list Z) :=
  match n with
  | O => Ret array
  | S n' =>
      let* array := do_swap array 1 (Z.of_nat n + 1) size in
      let* array := heapify (S n) array 1 (Z.of_nat n) size in
      unheap n' array size
  end.
Definition sort (array : list Z) (cnt size : Z) : outcome (list Z) :=
  let* _ := ASSERT (0 <? size) in
  let* array := build (Z.to_nat (cnt / 2)) array cnt size in
  unheap (Z.to_nat (cnt - 1)) array size.

(** The comparison of [compare_thunk] is [compare] itself. *)
Definition qsort (array : list Z) (cnt size : Z) : outcome (list Z) := sort array cnt size.

(** Offsets into the array stand for the pointers [first], [last] and
    [middle]. *)
Fixpoint search_loop (fuel : nat) (key array : list Z) (first last size : Z) : outcome (option Z) :=
  match fuel with
  | O => Fail OutOfFuel
  | S fuel =>
      if first <? last then
        let range := (last - first) / size in
        let middle := first + range / 2 * size in
        let* x := slice array middle size in
        let cmp := compare key x in
        if cmp <? 0 then search_loop fuel key array first middle size
        else if 0 <? cmp then search_loop fuel key array (middle + size) last size
        else Ret (Some middle)
      else Ret None
  end.
Definition binary_search (key array : list Z) (cnt size : Z) : outcome (option Z) :=
  search_loop (S (Z.to_nat cnt)) key array 0 (size * cnt) size.
Definition bsearch (key array : list Z) (cnt size : Z) : outcome (option Z) := binary_search key array cnt size.
End Compare.

(** ** Heaps

    On a list of elements; indexes are those of the source, from 1. *)
Section Heap.
Context {A : Type} (le : A → A → Prop) `{!Reflexive le, !Transitive le}.

Definition at_ (l : list A) (i : Z) (x : A) : Prop := 0 < i ∧ l !! Z.to_nat (i - 1) = Some x.
Definition child (i j : Z) : Prop := j = 2 * i ∨ j = 2 * i + 1.
(** The parents from [lo] on, except [e], are not below their children. *)
Definition heap_but (lo n e : Z) (l : list A) : Prop := ∀ k j x y, lo ≤ k → k ≠ e → child k j → j ≤ n → at_ l k x → at_ l j y → le y x.
Definition heap (lo n : Z) (l : list A) : Prop := heap_but lo n 0 l.

Definition swap_at (i j : Z) (l : list A) : list A :=
  match l !! Z.to_nat (i - 1), l !! Z.to_nat (j - 1) with
  | Some x, Some y => <[Z.to_nat (i - 1) := y]> (<[Z.to_nat (j - 1) := x]> l)
  | _, _ => l
  end.

Lemma at_fun l i x y : at_ l i x → at_ l i y → x = y.
Proof. intros [_ H1] [_ H2]. congruence. Qed.

Lemma at_total l i : 1 ≤ i ≤ zlength l → ∃ x, at_ l i x.
Proof. intros Hi. destruct (lookup_lt_is_Some_2 l (Z.to_nat (i - 1))) as [x Hx]; [lia|]. exists x. split; [lia|done]. Qed.

Lemma at_range l i x : at_ l i x → 1 ≤ i ≤ zlength l.
Proof. intros [Hi Hx%lookup_lt_Some]. lia. Qed.

Lemma swap_at_spec l i j x y : at_ l i x → at_ l j y → i ≠ j →
  at_ (swap_at i j l) i y ∧ at_ (swap_at i j l) j x ∧ (∀ k z, k ≠ i → k ≠ j → at_ (swap_at i j l) k z ↔ at_ l k z) ∧
  length (swap_at i j l) = length l ∧ swap_at i j l ≡ₚ l.
Proof.
  intros [Hi Hx] [Hj Hy] Hne. unfold swap_at. rewrite Hx, Hy. pose proof (lookup_lt_Some _ _ _ Hx). pose proof (lookup_lt_Some _ _ _ Hy).
  assert (Z.to_nat (i - 1) ≠ Z.to_nat (j - 1)) as Hnn by lia. split_and!.
  - split; [done|]. apply list_lookup_insert_eq. rewrite length_insert. lia.
  - split; [done|]. rewrite list_lookup_insert_ne by done. by apply list_lookup_insert_eq.
  - intros k z Hki Hkj. unfold at_. split; intros [Hk Hz]; (split; [done|]); revert Hz; by rewrite !list_lookup_insert_ne by lia.
  - by rewrite !length_insert.
  - apply Permutation_inj. split; [by rewrite !length_insert|].
    exists (λ k, if decide (k = Z.to_nat (i - 1)) then Z.to_nat (j - 1) else if decide (k = Z.to_nat (j - 1)) then Z.to_nat (i - 1) else k).
    split.
    + intros a b. repeat case_decide; lia.
    + intros k. destruct (decide (k = Z.to_nat (i - 1))) as [->|]; [rewrite list_lookup_insert_eq by (rewrite length_insert; lia); done|].
      rewrite list_lookup_insert_ne by done. case_decide as Hk; [subst k; by rewrite list_lookup_insert_eq|]. by rewrite list_lookup_insert_ne.
Qed.

(** The step of [heapify]: the larger child comes up. *)
Lemma heap_sift lo n i j l x y : heap_but lo n i l → (∀ g k u v, lo ≤ g → child g i → child i k → k ≤ n → at_ l g u → at_ l k v → le v u) →
  1 ≤ lo ≤ i → child i j → at_ l i x → at_ l j y → le x y → (∀ k z, child i k → k ≤ n → at_ l k z → le z y) → j ≤ n →
  heap_but lo n j (swap_at i j l) ∧
  ∀ g k u v, lo ≤ g → child g j → child j k → k ≤ n → at_ (swap_at i j l) g u → at_ (swap_at i j l) k v → le v u.
Proof.
  intros Hh Hg Hlo Hij Hx Hy Hxy Hmax Hj. assert (i ≠ j) as Hne by (destruct Hij; lia).
  destruct (swap_at_spec l i j x y Hx Hy Hne) as (Hi' & Hj' & Ho & _). unfold heap_but, child in *. split.
  - intros k c u v Hk Hkj Hc Hcn Hu Hv. destruct (decide (k = i)) as [->|Hki].
    + rewrite (at_fun _ _ _ _ Hu Hi'). destruct (decide (c = j)) as [->|Hcj]; [by rewrite (at_fun _ _ _ _ Hv Hj')|].
      rewrite Ho in Hv by (done || lia). by apply (Hmax c).
    + rewrite Ho in Hu by done. destruct (decide (c = i)) as [->|Hci].
      * rewrite (at_fun _ _ _ _ Hv Hi'). by apply (Hg k j).
      * rewrite Ho in Hv by (done || lia). by apply (Hh k c).
  - intros g k u v Hgl Hgj Hjk Hkn Hu Hv. assert (g = i) as -> by lia. rewrite (at_fun _ _ _ _ Hu Hi').
    rewrite Ho in Hv by lia. apply (Hh j k); (done || lia).
Qed.

(** The first element of a heap is the largest. *)
Lemma heap_top n l x : heap 1 n l → at_ l 1 x → n ≤ zlength l → ∀ k y, 1 ≤ k ≤ n → at_ l k y → le y x.
Proof.
  intros Hh Hx Hn k. assert (0 ≤ k ∨ k < 0) as [Hk|] by lia; [|intros; lia]. revert k Hk.
  refine (Z_lt_induction _ _). intros k IH y Hk Hy. destruct (decide (k = 1)) as [->|]; [by rewrite (at_fun _ _ _ _ Hx Hy)|].
  destruct (at_total l (k / 2)) as [z Hz]; [div_lia|]. transitivity z; [|apply (IH (k / 2)); (div_lia || done)].
  apply (Hh (k / 2) k z y); try done; [div_lia|div_lia|unfold child; div_lia|lia].
Qed.
End Heap.

(** ** Arrays of elements *)

Lemma concat_lookup {A} (n : nat) (es : list (list A)) : Forall (λ e, length e = n) es → (0 < n)%nat → ∀ k r, (r < n)%nat →
  concat es !! (k * n + r)%nat = es !! k ≫= (.!! r).
Proof.
  intros Hes Hn. induction Hes as [|e es He Hes IH]; intros k r Hr; [done|]. cbn [concat]. destruct k as [|k].
  - rewrite lookup_app_l by lia. done.
  - rewrite lookup_app_r by lia. replace (S k * n + r - length e)%nat with (k * n + r)%nat by lia. by rewrite IH.
Qed.

Section Array.
Context (size : Z) (Hsize : 0 < size).
Definition layout (es : list (list Z)) : Prop := Forall (λ e, length e = Z.to_nat size) es ∧ zlength es * size < 2 ^ 32.

Lemma layout_length es : layout es → zlength (concat es) = zlength es * size.
Proof. intros [Hes _]. induction Hes as [|e es He Hes IH]; [done|]. simpl. rewrite length_app. lia. Qed.

Lemma layout_perm es es' : layout es → es' ≡ₚ es → layout es'.
Proof. intros [H1 H2] Hp. split; [by rewrite Hp|by rewrite Hp]. Qed.

Lemma offset_ok es i e : layout es → at_ es i e → u32 (u32 (i - 1) * size) = (i - 1) * size ∧ (i - 1) * size + size ≤ zlength es * size.
Proof.
  intros [_ Hl] Hi%at_range. assert ((i - 1) * size + size ≤ zlength es * size) by nia. split; [|done].
  rewrite (u32_id (i - 1)) by nia. apply u32_id. nia.
Qed.

Lemma lookup_split es i r : layout es → 0 < i → 0 ≤ r < size → concat es !! Z.to_nat ((i - 1) * size + r) = es !! Z.to_nat (i - 1) ≫= (.!! Z.to_nat r).
Proof.
  intros [Hes _] Hi Hr. rewrite <- (concat_lookup (Z.to_nat size) es Hes ltac:(lia)) by lia. f_equal. nia.
Qed.

Lemma element_ok es i e : layout es → at_ es i e → slice (concat es) (u32 (u32 (i - 1) * size)) size = Ret e.
Proof.
  intros Hes Hi. destruct (offset_ok es i e Hes Hi) as [-> Hb]. pose proof (at_range _ _ _ Hi) as Hr.
  pose proof (layout_length es Hes) as Hlen. rewrite slice_ok by nia. f_equal. pose proof Hi as [Hi0 He].
  pose proof (Forall_lookup_1 _ _ _ _ (proj1 Hes) He) as Hle. simpl in Hle. apply list_eq. intros r.
  destruct (decide (r < Z.to_nat size)%nat) as [Hlt|Hge].
  - rewrite lookup_take_lt, lookup_drop by done. replace (Z.to_nat ((i - 1) * size) + r)%nat with (Z.to_nat ((i - 1) * size + Z.of_nat r)) by nia.
    rewrite lookup_split by (done || lia). rewrite He. simpl. f_equal. lia.
  - rewrite lookup_take_ge by lia. by rewrite lookup_ge_None_2 by lia.
Qed.

(** Where the byte at [p] comes from once [i] bytes are exchanged. *)
Definition swapped (a b i p : Z) : Z :=
  if decide (a ≤ p < a + i) then b + (p - a) else if decide (b ≤ p < b + i) then a + (p - b) else p.

Lemma swap_bytes_ok (array : list Z) a b : 0 ≤ a → 0 ≤ b → a + size ≤ zlength array → b + size ≤ zlength array → a + size ≤ b ∨ b + size ≤ a →
  ∃ array', for_range (Z.to_nat size) 0 (λ i array,
    let* t := access (zget array (a + i)) in
    let* u := access (zget array (b + i)) in
    let* array := access (zset array (a + i) u) in
    access (zset array (b + i) t)) array = Ret array' ∧
    length array' = length array ∧ ∀ p, zget array' p = zget array (swapped a b size p).
Proof.
  intros Ha Hb Hla Hlb Hd.
  destruct (for_range_spec (λ i arr, length arr = length array ∧ ∀ p, zget arr p = zget array (swapped a b i p)) (λ i array,
    let* t := access (zget array (a + i)) in
    let* u := access (zget array (b + i)) in
    let* array := access (zset array (a + i) u) in
    access (zset array (b + i) t)) (Z.to_nat size) 0 array) as (arr & Harr & Hl & Hg).
  - split; [done|]. intros p. unfold swapped. by rewrite !decide_False by lia.
  - intros i arr Hi [Hl Hg]. destruct (zget_is_Some arr (a + i)) as [t Ht]; [lia|]. destruct (zget_is_Some arr (b + i)) as [u Hu]; [lia|].
    rewrite Ht, Hu. cbn [access mbind outcome_bind]. rewrite zset_Some by lia. cbn [access mbind outcome_bind].
    rewrite zset_Some by (rewrite length_insert; lia). eexists. split; [done|]. split; [by rewrite !length_insert|]. intros p.
    rewrite (zget_zset _ _ _ p _ (zset_Some (<[Z.to_nat (a + i) := u]> arr) (b + i) t ltac:(rewrite length_insert; lia))).
    rewrite (zget_zset _ _ _ p _ (zset_Some arr (a + i) u ltac:(lia))). unfold swapped.
    case_decide as E1; [|case_decide as E2].
    + subst p. rewrite decide_False, decide_True by lia. rewrite <- Ht, Hg. unfold swapped. rewrite !decide_False by lia. f_equal. lia.
    + subst p. rewrite decide_True by lia. rewrite <- Hu, Hg. unfold swapped. rewrite !decide_False by lia. f_equal. lia.
    + rewrite Hg. unfold swapped. repeat (case_decide; try lia); done.
  - exists arr. rewrite Z.add_0_l, Z2Nat.id in Hg by lia. done.
Qed.

Lemma do_swap_ok es i j x y : layout es → at_ es i x → at_ es j y → i ≠ j → do_swap (concat es) i j size = Ret (concat (swap_at i j es)).
Proof.
  intros Hes Hi Hj Hne. unfold do_swap. destruct (offset_ok es i x Hes Hi) as [-> Hbi], (offset_ok es j y Hes Hj) as [-> Hbj].
  pose proof (at_range _ _ _ Hi) as Hri. pose proof (at_range _ _ _ Hj) as Hrj. pose proof (layout_length es Hes) as Hlen.
  destruct (swap_bytes_ok (concat es) ((i - 1) * size) ((j - 1) * size)) as (arr & -> & Hl & Hg); [nia|nia|nia|nia|nia|]. f_equal.
  destruct (swap_at_spec es i j x y Hi Hj Hne) as (Hi' & Hj' & Ho & Hl' & Hp). pose proof (layout_perm _ _ Hes Hp) as Hes'.
  apply list_eq. intros p. rewrite <- zget_nat, Hg.
  pose proof (Z.div_mod (Z.of_nat p) size ltac:(lia)) as Ep. pose proof (Z.mod_pos_bound (Z.of_nat p) size Hsize) as Hr.
  set (k := Z.of_nat p / size + 1) in *. set (r := Z.of_nat p mod size) in *. assert (0 < k) as Hk by (unfold k; pose proof (Z.div_pos (Z.of_nat p) size); lia).
  replace (Z.of_nat p / size) with (k - 1) in Ep by (unfold k; lia). replace p with (Z.to_nat ((k - 1) * size + r)) by lia.
  rewrite (lookup_split _ k r Hes' Hk Hr). unfold swapped. rewrite Z2Nat.id by nia.
  assert (∀ q, 0 < q → zget (concat es) ((q - 1) * size + r) = es !! Z.to_nat (q - 1) ≫= (.!! Z.to_nat r)) as Hget.
  { intros q Hq. unfold zget. destruct (Z.leb_spec 0 ((q - 1) * size + r)); [|nia]. by apply lookup_split. }
  destruct (decide (k = i)) as [->|Hki]; [|destruct (decide (k = j)) as [->|Hkj]].
  - rewrite decide_True by lia. replace ((j - 1) * size + ((i - 1) * size + r - (i - 1) * size)) with ((j - 1) * size + r) by lia.
    rewrite Hget by lia. by rewrite (proj2 Hj), (proj2 Hi').
  - rewrite decide_False, decide_True by nia. replace ((i - 1) * size + ((j - 1) * size + r - (j - 1) * size)) with ((i - 1) * size + r) by lia.
    rewrite Hget by lia. by rewrite (proj2 Hi), (proj2 Hj').
  - rewrite !decide_False by nia. rewrite Hget by lia. f_equal. apply option_eq. intros z. specialize (Ho k z Hki Hkj). unfold at_ in Ho.
    split; intros Hz; apply Ho; done.
Qed.
End Array.

(** ** Heap sort *)

(** What [compare] must be: a total preorder, as a sign. *)
Class Comparison {A} (compare : A → A → Z) : Prop := {
  cmp_sign a b : Z.sgn (compare b a) = - Z.sgn (compare a b);
  cmp_trans a b c : compare a b ≤ 0 → compare b c ≤ 0 → compare a c ≤ 0
}.

Lemma cmp_total {A} (compare : A → A → Z) `{!Comparison compare} a b : 0 < compare a b → compare b a ≤ 0.
Proof. intros H. pose proof (cmp_sign a b). lia. Qed.

Section Sorting.
Context (compare : list Z → list Z → Z) `{!Comparison compare} (size : Z) (Hsize : 0 < size).
Definition cle (a b : list Z) : Prop := compare a b ≤ 0.
Notation layout := (layout size).

#[local] Instance cle_refl : Reflexive cle.
Proof. intros a. unfold cle. destruct (Z.le_gt_cases (compare a a) 0) as [|H]; [done|]. by apply cmp_total. Qed.
#[local] Instance cle_trans : Transitive cle.
Proof. intros a b c. apply cmp_trans. Qed.

Lemma compare_ok es i j x y : layout es → at_ es i x → at_ es j y → do_compare compare (concat es) i j size = Ret (compare x y).
Proof.
  intros Hes Hi Hj. unfold do_compare. rewrite (element_ok size Hsize es i x Hes Hi). cbn [mbind outcome_bind].
  by rewrite (element_ok size Hsize es j y Hes Hj).
Qed.

Lemma max_child_ok es i n x : layout es → at_ es i x → i ≤ n ≤ zlength es → 2 * n + 1 < 2 ^ 32 →
  ∃ j y, max_child compare (concat es) i n size = Ret j ∧ at_ es j y ∧ cle x y ∧ (j = i ∨ child i j ∧ j ≤ n) ∧
    ∀ k z, child i k → k ≤ n → at_ es k z → cle z y.
Proof.
  intros Hes Hx Hn H2. pose proof (at_range _ _ _ Hx) as Hr. unfold max_child. rewrite !u32_id by lia. cbv zeta.
  assert (∃ j y, (if 2 * i <=? n then let* c := do_compare compare (concat es) (2 * i) i size in Ret (if 0 <? c then 2 * i else i) else Ret i) = Ret j ∧
    at_ es j y ∧ cle x y ∧ (j = i ∨ child i j ∧ j ≤ n) ∧ ∀ z, 2 * i ≤ n → at_ es (2 * i) z → cle z y) as (j & y & -> & Hy & Hxy & Hj & Hl).
  { destruct (Z.leb_spec (2 * i) n) as [Hle|Hgt]; [|exists i, x; split_and!; [done|done|done|by left|lia]].
    destruct (at_total es (2 * i)) as [z Hz]; [lia|]. rewrite (compare_ok es (2 * i) i z x) by done. cbn [mbind outcome_bind].
    destruct (Z.ltb_spec 0 (compare z x)) as [Hlt|Hge].
    - exists (2 * i), z. split; [done|]. split; [done|]. split; [by apply cmp_total|]. split; [right; split; [by left|done]|].
      intros z' _ Hz'. by rewrite (at_fun _ _ _ _ Hz' Hz).
    - exists i, x. split; [done|]. split; [done|]. split; [done|]. split; [by left|]. intros z' _ Hz'. by rewrite (at_fun _ _ _ _ Hz' Hz). }
  cbn [mbind outcome_bind]. destruct (Z.leb_spec (2 * i + 1) n) as [Hle|Hgt].
  - destruct (at_total es (2 * i + 1)) as [z Hz]; [lia|]. rewrite (compare_ok es (2 * i + 1) j z y) by done. cbn [mbind outcome_bind].
    destruct (Z.ltb_spec 0 (compare z y)) as [Hlt|Hge].
    + assert (cle y z) as Hyz by by apply cmp_total. exists (2 * i + 1), z. split; [done|]. split; [done|]. split; [by transitivity y|].
      split; [right; split; [by right|done]|]. intros k z' [->| ->] Hk Hz'; [transitivity y; [by apply Hl|done]|by rewrite (at_fun _ _ _ _ Hz' Hz)].
    + exists j, y. split; [done|]. split; [done|]. split; [done|]. split; [done|].
      intros k z' [->| ->] Hk Hz'; [by apply Hl|by rewrite (at_fun _ _ _ _ Hz' Hz)].
  - exists j, y. split; [done|]. split; [done|]. split; [done|]. split; [done|]. intros k z' [->| ->] Hk Hz'; [by apply Hl|lia].
Qed.

Lemma swap_at_drop {A} (es : list A) i j n x y : at_ es i x → at_ es j y → i ≤ n → j ≤ n → drop (Z.to_nat n) (swap_at i j es) = drop (Z.to_nat n) es.
Proof. intros [Hi Hx] [Hj Hy] Hin Hjn. unfold swap_at. rewrite Hx, Hy. by rewrite !drop_insert_lt by lia. Qed.

Lemma heapify_ok lo n : 1 ≤ lo → 2 * n + 1 < 2 ^ 32 → ∀ fuel es i, layout es → n ≤ zlength es → lo ≤ i ≤ n → n - i < Z.of_nat fuel →
  heap_but cle lo n i es → (∀ g k u v, lo ≤ g → child g i → child i k → k ≤ n → at_ es g u → at_ es k v → cle v u) →
  ∃ es', heapify compare fuel (concat es) i n size = Ret (concat es') ∧ heap cle lo n es' ∧ es' ≡ₚ es ∧ drop (Z.to_nat n) es' = drop (Z.to_nat n) es.
Proof.
  intros Hlo H2. induction fuel as [|fuel IH]; intros es i Hes Hn Hi Hf Hh Hg; [lia|]. cbn [heapify].
  destruct (at_total es i) as [x Hx]; [lia|]. destruct (max_child_ok es i n x Hes Hx ltac:(lia) H2) as (j & y & -> & Hy & Hxy & Hj & Hmax).
  cbn [mbind outcome_bind]. destruct (Z.eqb_spec j i) as [->|Hne].
  - exists es. split; [done|]. split; [|done]. intros k c u v Hk _ Hc Hcn Hu Hv. destruct (decide (k = i)) as [->|Hki].
    + rewrite (at_fun _ _ _ _ Hu Hy). by apply (Hmax c).
    + by apply (Hh k c).
  - destruct Hj as [?|[Hc Hjn]]; [done|]. rewrite (do_swap_ok size Hsize es i j x y) by done. cbn [mbind outcome_bind].
    destruct (swap_at_spec es i j x y Hx Hy ltac:(done)) as (_ & _ & _ & Hl & Hp).
    destruct (heap_sift cle lo n i j es x y Hh Hg ltac:(lia) Hc Hx Hy Hxy Hmax Hjn) as [Hh' Hg'].
    assert (i < j) by (destruct Hc; lia).
    destruct (IH (swap_at i j es) j) as (es' & E & Hheap & Hperm & Hdrop); [by apply (layout_perm size es)|lia|lia|lia|done|done|].
    exists es'. split; [done|]. split; [done|]. split; [by rewrite Hperm|]. rewrite Hdrop. apply (swap_at_drop es i j n x y); (done || lia).
Qed.

Lemma build_ok cnt : 2 * cnt + 1 < 2 ^ 32 → ∀ n es, layout es → zlength es = cnt → 2 * Z.of_nat n ≤ cnt → heap cle (Z.of_nat n + 1) cnt es →
  ∃ es', build compare n (concat es) cnt size = Ret (concat es') ∧ heap cle 1 cnt es' ∧ es' ≡ₚ es.
Proof.
  intros H2. induction n as [|n IH]; intros es Hes Hl Hn Hh; cbn [build]; [by exists es|].
  destruct (heapify_ok (Z.of_nat (S n)) cnt ltac:(lia) H2 (S (Z.to_nat cnt)) es (Z.of_nat (S n))) as (es1 & -> & Hh1 & Hp1 & _); [done|lia|lia|lia| | |].
  - intros k j x y Hk Hne Hc Hj Hx Hy. apply (Hh k j x y); try done; lia.
  - intros g k u v Hg Hc. destruct Hc; lia.
  - cbn [mbind outcome_bind]. destruct (IH es1) as (es' & E & Hh' & Hp'); [by apply (layout_perm size es)|by rewrite Hp1|lia| |].
    + intros k j x y Hk. apply Hh1. lia.
    + exists es'. split; [done|]. split; [done|]. by rewrite Hp'.
Qed.

Lemma take_perm {A} (l l' : list A) n : l ≡ₚ l' → drop n l = drop n l' → take n l ≡ₚ take n l'.
Proof. intros Hp Hd. rewrite <- (take_drop n l), <- (take_drop n l'), Hd in Hp. by apply Permutation_app_inv_r in Hp. Qed.

Lemma at_take {A} (es : list A) n x : x ∈ take (Z.to_nat n) es ↔ ∃ k, k ≤ n ∧ at_ es k x.
Proof.
  rewrite list_elem_of_lookup. split.
  - intros [i Hi]. pose proof (lookup_lt_Some _ _ _ Hi) as Hlt. rewrite length_take in Hlt. rewrite lookup_take_lt in Hi by lia.
    exists (Z.of_nat i + 1). split; [lia|]. split; [lia|]. rewrite <- Hi. f_equal. lia.
  - intros (k & Hk & Hk0 & Hx). exists (Z.to_nat (k - 1)). by rewrite lookup_take_lt by lia.
Qed.

Lemma at_drop {A} (es es' : list A) n k x : drop (Z.to_nat n) es' = drop (Z.to_nat n) es → 0 ≤ n < k → at_ es' k x → at_ es k x.
Proof.
  intros Hd Hk [Hk0 Hx]. split; [done|]. apply (f_equal (lookup (Z.to_nat (k - 1) - Z.to_nat n)%nat)) in Hd. rewrite !lookup_drop in Hd.
  replace (Z.to_nat n + (Z.to_nat (k - 1) - Z.to_nat n))%nat with (Z.to_nat (k - 1)) in Hd by lia. congruence.
Qed.

(** The elements after the first [n] are in their places. *)
Definition placed (n : Z) (es : list (list Z)) : Prop := ∀ k k' x y, k < k' → n < k' → at_ es k x → at_ es k' y → cle x y.

Lemma placed_step n es es1 es2 top last : 0 < n → heap cle 1 (n + 1) es → placed (n + 1) es → n + 1 ≤ zlength es → at_ es 1 top → at_ es (n + 1) last →
  es1 = swap_at 1 (n + 1) es → es2 ≡ₚ es1 → drop (Z.to_nat n) es2 = drop (Z.to_nat n) es1 → placed n es2.
Proof.
  intros Hn Hh Hpl Hlen Ht Hla -> Hp Hd. destruct (swap_at_spec es 1 (n + 1) top last Ht Hla ltac:(lia)) as (H1 & H2 & Ho & _ & _).
  assert (∀ k x, k ≤ n → at_ es2 k x → ∃ k1, k1 ≤ n + 1 ∧ at_ es k1 x) as Hfirst.
  { intros k x Hk Hx. assert (x ∈ take (Z.to_nat n) (swap_at 1 (n + 1) es)) as (k1 & Hk1 & Hx1)%at_take.
    { rewrite <- (take_perm _ _ _ Hp Hd). apply at_take. by exists k. }
    destruct (decide (k1 = 1)) as [->|]; [rewrite (at_fun _ _ _ _ Hx1 H1); by exists (n + 1)|]. exists k1. split; [lia|]. apply Ho in Hx1; (done || lia). }
  assert (∀ k x, n + 1 < k → at_ es2 k x → at_ es k x) as Hlast.
  { intros k x Hk Hx. apply (at_drop _ _ n k x Hd ltac:(lia)) in Hx. apply Ho in Hx; (done || lia). }
  assert (∀ x, at_ es2 (n + 1) x → x = top) as Htop.
  { intros x Hx. apply (at_drop _ _ n (n + 1) x Hd ltac:(lia)) in Hx. by rewrite (at_fun _ _ _ _ Hx H2). }
  intros k k' x y Hkk Hk' Hx Hy. destruct (decide (k' = n + 1)) as [->|].
  - rewrite (Htop y Hy). destruct (Hfirst k x ltac:(lia) Hx) as (k1 & Hk1 & Hx1). pose proof (at_range _ _ _ Hx1).
    apply (heap_top cle (n + 1) es top Hh Ht Hlen k1); [lia|done].
  - apply Hlast in Hy; [|lia]. destruct (decide (k ≤ n)) as [Hkn|].
    + destruct (Hfirst k x Hkn Hx) as (k1 & Hk1 & Hx1). apply (Hpl k1 k'); (done || lia).
    + destruct (decide (k = n + 1)) as [->|]; [rewrite (Htop x Hx); apply (Hpl 1 k'); (done || lia)|].
      apply Hlast in Hx; [|lia]. apply (Hpl k k'); (done || lia).
Qed.

Lemma unheap_ok n : ∀ es, layout es → Z.of_nat n + 1 ≤ zlength es → 2 * zlength es + 1 < 2 ^ 32 → heap cle 1 (Z.of_nat n + 1) es → placed (Z.of_nat n + 1) es →
  ∃ es', unheap compare n (concat es) size = Ret (concat es') ∧ es' ≡ₚ es ∧ placed 1 es'.
Proof.
  induction n as [|n IH]; intros es Hes Hl H2 Hh Hpl; cbn [unheap]; [by exists es|].
  destruct (at_total es 1) as [top Ht]; [lia|]. destruct (at_total es (Z.of_nat (S n) + 1)) as [last Hla]; [lia|].
  rewrite (do_swap_ok size Hsize es 1 (Z.of_nat (S n) + 1) top last) by (done || lia). cbn [mbind outcome_bind].
  destruct (swap_at_spec es 1 (Z.of_nat (S n) + 1) top last Ht Hla ltac:(lia)) as (H1 & _ & Ho & Hl1 & Hp1).
  set (es1 := swap_at 1 (Z.of_nat (S n) + 1) es) in *.
  destruct (heapify_ok 1 (Z.of_nat (S n)) ltac:(lia) ltac:(lia) (S (S n)) es1 1) as (es2 & -> & Hh2 & Hp2 & Hd2); [by apply (layout_perm size es)|lia|lia|lia| | |].
  - intros k j x y Hk Hk1 Hc Hj Hx Hy. apply Ho in Hx; [|lia|destruct Hc; lia]. apply Ho in Hy; [|destruct Hc; lia|lia].
    apply (Hh k j); try done; lia.
  - intros g k u v Hg Hc. destruct Hc; lia.
  - cbn [mbind outcome_bind]. destruct (IH es2) as (es' & E & Hp' & Hpl'); [by apply (layout_perm size es1); [apply (layout_perm size es)|]|rewrite Hp2; lia|rewrite Hp2; lia| | |].
    + intros k j x y Hk Hne Hc Hj. apply Hh2; (done || lia).
    + replace (Z.of_nat n + 1) with (Z.of_nat (S n)) by lia. by apply (placed_step (Z.of_nat (S n)) es es1 es2 top last); [lia| | | | | | | |].
    + exists es'. split; [done|]. split; [|done]. by rewrite Hp', Hp2.
Qed.

Lemma placed_sorted es : placed 1 es → StronglySorted cle es.
Proof.
  intros Hpl. induction es as [|x es IH]; [constructor|]. constructor.
  - apply IH. intros k k' a b Hk H1 [Ha0 Ha] [Hb0 Hb]. apply (Hpl (k + 1) (k' + 1)); [lia|lia| |]; (split; [lia|]).
    + replace (Z.to_nat (k + 1 - 1)) with (S (Z.to_nat (k - 1))) by lia. done.
    + replace (Z.to_nat (k' + 1 - 1)) with (S (Z.to_nat (k' - 1))) by lia. done.
  - apply Forall_forall. intros y [i Hi]%list_elem_of_lookup. apply (Hpl 1 (Z.of_nat i + 2)); [lia|lia|by split|]. split; [lia|].
    replace (Z.to_nat (Z.of_nat i + 2 - 1)) with (S i) by lia. done.
Qed.

Lemma sort_ok es : layout es → 2 * zlength es + 1 < 2 ^ 32 →
  ∃ es', sort compare (concat es) (zlength es) size = Ret (concat es') ∧ es' ≡ₚ es ∧ StronglySorted cle es'.
Proof.
  intros Hes H2. unfold sort. destruct (Z.ltb_spec 0 size); [|lia]. cbn [ASSERT mbind outcome_bind].
  destruct (build_ok (zlength es) H2 (Z.to_nat (zlength es / 2)) es) as (es1 & -> & Hh & Hp); [done|done|div_lia| |].
  { intros k j x y Hk _ Hc Hj. destruct Hc; div_lia. }
  cbn [mbind outcome_bind]. destruct es as [|e es].
  - simpl. exists es1. split; [done|]. split; [done|]. symmetry in Hp. apply Permutation_nil in Hp as ->. constructor.
  - destruct (unheap_ok (Z.to_nat (zlength (e :: es) - 1)) es1) as (es' & -> & Hp' & Hpl).
    + by apply (layout_perm size (e :: es)).
    + rewrite Hp. simpl length. lia.
    + by rewrite Hp.
    + replace (Z.of_nat (Z.to_nat (zlength (e :: es) - 1)) + 1) with (zlength (e :: es)) by (simpl length; lia). done.
    + intros k k' x y Hk Hk' _ Hy%at_range. rewrite Hp in Hy. lia.
    + exists es'. split; [done|]. split; [by rewrite Hp'|by apply placed_sorted].
Qed.
(** ** Binary search *)

Lemma sorted_lookup es i j x y : StronglySorted cle es → es !! i = Some x → es !! j = Some y → (i ≤ j)%nat → cle x y.
Proof.
  intros Hs. revert i j. induction Hs as [|e es Hs IH Hall]; intros i j Hi Hj Hij; [done|].
  destruct i as [|i], j as [|j]; simpl in *; [|injection Hi as <-|lia|apply (IH i j); (done || lia)].
  - replace y with x by congruence. reflexivity.
  - by apply (Forall_lookup_1 _ _ _ _ Hall Hj).
Qed.

(** [key] matches nothing outside [lo], [hi]. *)
Definition confined (key : list Z) (es : list (list Z)) (lo hi : nat) : Prop :=
  ∀ i e, es !! i = Some e → compare key e = 0 → (lo ≤ i < hi)%nat.

Lemma confine key es lo hi k x : StronglySorted cle es → confined key es lo hi → es !! k = Some x →
  (compare key x < 0 → confined key es lo k) ∧ (0 < compare key x → confined key es (S k) hi).
Proof.
  intros Hs Hc Hx. pose proof (cmp_sign key x) as Hsx. split; intros Hk i e He H0; specialize (Hc i e He H0); pose proof (cmp_sign key e) as Hse.
  - destruct (decide (i < k)%nat); [lia|]. exfalso. pose proof (sorted_lookup es k i x e Hs Hx He ltac:(lia)) as Hle.
    pose proof (cmp_trans (compare := compare) x e key Hle ltac:(lia)). lia.
  - destruct (decide (k < i)%nat); [lia|]. exfalso. pose proof (sorted_lookup es i k e x Hs He Hx ltac:(lia)) as Hle.
    pose proof (cmp_trans (compare := compare) key e x ltac:(lia) Hle). lia.
Qed.

Lemma search_loop_ok key es : layout es → StronglySorted cle es → ∀ fuel lo hi, (hi - lo < fuel)%nat → (lo ≤ hi ≤ length es)%nat → confined key es lo hi →
  ∃ r, search_loop compare fuel key (concat es) (Z.of_nat lo * size) (Z.of_nat hi * size) size = Ret r ∧
    match r with
    | Some p => ∃ i e, p = Z.of_nat i * size ∧ es !! i = Some e ∧ compare key e = 0
    | None => ∀ e, e ∈ es → compare key e ≠ 0
    end.
Proof.
  intros Hes Hs. induction fuel as [|fuel IH]; intros lo hi Hf Hlh Hc; [lia|]. cbn [search_loop].
  destruct (Z.ltb_spec (Z.of_nat lo * size) (Z.of_nat hi * size)) as [Hlt|Hge].
  - assert (lo < hi)%nat by nia. replace (Z.of_nat hi * size - Z.of_nat lo * size) with ((Z.of_nat hi - Z.of_nat lo) * size) by lia.
    rewrite Z.div_mul by lia. set (k := (lo + (hi - lo) / 2)%nat).
    assert (Z.of_nat lo * size + (Z.of_nat hi - Z.of_nat lo) / 2 * size = Z.of_nat k * size) as ->.
    { unfold k. rewrite Nat2Z.inj_add, Nat2Z.inj_div, Nat2Z.inj_sub by lia. simpl. lia. }
    assert (lo ≤ k < hi)%nat as Hk. { unfold k. pose proof (Nat.div_lt (hi - lo) 2). lia. }
    destruct (lookup_lt_is_Some_2 es k ltac:(lia)) as [x Hx].
    assert (at_ es (Z.of_nat k + 1) x) as Hat by (split; [lia|]; rewrite <- Hx; f_equal; lia).
    pose proof (element_ok size Hsize es _ x Hes Hat) as Hel. destruct (offset_ok size Hsize es _ x Hes Hat) as [Eo _]. rewrite Eo in Hel.
    replace ((Z.of_nat k + 1 - 1) * size) with (Z.of_nat k * size) in Hel by lia. rewrite Hel. cbn [mbind outcome_bind].
    destruct (confine key es lo hi k x Hs Hc Hx) as [Hl Hr]. destruct (Z.ltb_spec (compare key x) 0) as [H1|H1]; [apply IH; [lia|lia|by apply Hl]|].
    destruct (Z.ltb_spec 0 (compare key x)) as [H2|H2].
    + replace (Z.of_nat k * size + size) with (Z.of_nat (S k) * size) by lia. apply IH; [lia|lia|by apply Hr].
    + eexists. split; [done|]. exists k, x. split; [done|]. split; [done|lia].
  - eexists. split; [done|]. intros e [i He]%list_elem_of_lookup H0. pose proof (Hc i e He H0). nia.
Qed.
End Sorting.

(** ** Numbers *)

(** The number that digits denote, after [v]. *)
Definition number (v : Z) (ds : list Z) : Z := foldl (λ v c, v * 10 + (c - 48)) v ds.
Definition digits (s : list Z) : list Z := take (pre isdigit s) s.
(** What [atoi] reads: spaces, a sign, digits. *)
Definition parse_int (s : list Z) : Z :=
  match drop (pre isspace s) s with
  | [] => 0
  | x :: t => if x =? 43 then number 0 (digits t) else if x =? 45 then - number 0 (digits t) else number 0 (digits (x :: t))
  end.

Lemma number_ge ds v : 0 ≤ v → (∀ c, c ∈ ds → isdigit c = true) → v ≤ number v ds.
Proof.
  revert v. induction ds as [|c ds IH]; intros v Hv Hd; [done|]. simpl. assert (isdigit c = true) as Hc by (apply Hd; by left).
  unfold isdigit in Hc. bool_prop. etrans; [|apply IH; [lia|intros x Hx; apply Hd; by right]]. lia.
Qed.

Lemma digits_digit s c : c ∈ digits s → isdigit c = true.
Proof. apply pre_take. Qed.

Lemma space_loop_ok m s : ∀ p fuel, string_at m p s → (length s < fuel)%nat → space_loop fuel p m = Ret (p + Z.of_nat (pre isspace s), m).
Proof.
  induction s as [|x s IH]; intros p [|fuel] Hs Hf; simpl in Hf; try lia; cbn [space_loop].
  - apply string_at_nil in Hs as [H0 Hp]. rewrite (cstep _ _ _ 0 m) by by apply load_ok. simpl. by rewrite Z.add_0_r.
  - apply string_at_cons in Hs as (Hx & Hr & Hp & Hs). rewrite (cstep _ _ _ x m) by by apply load_ok. cbn [pre].
    destruct (isspace x); [|by rewrite Z.add_0_r]. rewrite IH by (done || lia). do 2 f_equal. lia.
Qed.

Lemma digit_loop_ok m s : ∀ p v fuel, string_at m p s → (length s < fuel)%nat → 0 ≤ v → number v (digits s) ≤ 2 ^ 31 →
  digit_loop fuel p (- v) m = Ret (- number v (digits s), m).
Proof.
  induction s as [|x s IH]; intros p v [|fuel] Hs Hf Hv Hn; simpl in Hf; try lia; cbn [digit_loop].
  - apply string_at_nil in Hs as [H0 Hp]. by rewrite (cstep _ _ _ 0 m) by by apply load_ok.
  - apply string_at_cons in Hs as (Hx & Hr & Hp & Hs). rewrite (cstep _ _ _ x m) by by apply load_ok.
    unfold digits in *. cbn [pre] in *. destruct (isdigit x) eqn:Hd; [|done]. change (number v (take (S (pre isdigit s)) (x :: s))) with (number (v * 10 + (x - 48)) (take (pre isdigit s) s)) in *.
    pose proof Hd as Hd'. unfold isdigit in Hd'. bool_prop.
    pose proof (number_ge (take (pre isdigit s) s) (v * 10 + (x - 48)) ltac:(lia) (digits_digit s)) as Hge.
    rewrite (s32_id (- v * 10)), s32_id by lia. replace (- v * 10 - (x - 48)) with (- (v * 10 + (x - 48))) by lia. apply IH; (done || lia).
Qed.

Lemma atoi_ok m p s : string_at m p s → - 2 ^ 31 ≤ parse_int s < 2 ^ 31 → atoi p m = Ret (parse_int s, m).
Proof.
  intros Hs Hv. unfold atoi. rewrite (cstep _ _ _ () m) by (apply assert_ok, nonnull_pos, (st_pos _ _ _ Hs)). rewrite cget.
  rewrite (cstep _ _ _ _ _ (space_loop_ok m s p _ Hs (string_fuel m p s Hs))). unfold parse_int in *.
  assert (string_at m (p + Z.of_nat (pre isspace s)) (drop (pre isspace s) s)) as Ht.
  { pose proof Hs as Hs'. rewrite <- (take_drop (pre isspace s) s) in Hs'. apply string_at_app in Hs'. rewrite length_take in Hs'.
    pose proof (pre_le isspace s). by replace (Nat.min (pre isspace s) (length s)) with (pre isspace s) in Hs' by lia. }
  set (q := p + Z.of_nat (pre isspace s)) in *. set (t := drop (pre isspace s) s) in *. clearbody q t. clear Hs.
  assert (∀ u q', string_at m q' u → number 0 (digits u) ≤ 2 ^ 31 → digit_loop (bytes_of m) q' 0 m = Ret (- number 0 (digits u), m)) as Hdl.
  { intros u q' Hu Hn. apply (digit_loop_ok m u q' 0); [done|by apply (string_fuel m q')|lia|done]. }
  pose proof (number_ge (digits t) 0 ltac:(lia) (digits_digit t)) as Hpos.
  destruct t as [|x t].
  { pose proof Ht as [H0 _]%string_at_nil. rewrite (cstep _ _ _ 0 m) by by apply load_ok. change (0 =? 43) with false. change (0 =? 45) with false. cbv iota beta.
    by rewrite (cstep _ _ _ _ _ (Hdl [] q Ht ltac:(simpl; lia))). }
  pose proof Ht as (Hx & Hr & Hp & Ht1)%string_at_cons. rewrite (cstep _ _ _ x m) by by apply load_ok.
  pose proof (number_ge (digits t) 0 ltac:(lia) (digits_digit t)) as Hpos1.
  destruct (Z.eqb_spec x 43) as [->|H43]; [|destruct (Z.eqb_spec x 45) as [->|H45]].
  - rewrite (cstep _ _ _ _ _ (Hdl t (q + 1) Ht1 ltac:(lia))). cbn [negb]. unfold mret, cmd_ret. by rewrite Z.opp_involutive, s32_id by lia.
  - rewrite (cstep _ _ _ _ _ (Hdl t (q + 1) Ht1 ltac:(lia))). done.
  - rewrite (cstep _ _ _ _ _ (Hdl (x :: t) q Ht ltac:(lia))). cbn [negb]. unfold mret, cmd_ret. by rewrite Z.opp_involutive, s32_id by lia.
Qed.

(** ** Properties *)

(** C37. [qsort] sorts: for any comparison that is a total preorder, any size of
    elements and any array of fewer than 2^31 - 1 elements, heap sort ends
    without touching anything outside the array, and leaves a permutation of
    the elements in which each is not above those that follow. *)
Theorem qsort_sorts compare `{!Comparison compare} size es : 0 < size → layout size es → 2 * zlength es + 1 < 2 ^ 32 →
  ∃ es', qsort compare (concat es) (zlength es) size = Ret (concat es') ∧ es' ≡ₚ es ∧ StronglySorted (cle compare) es'.
Proof. intros Hs Hes H2. by apply sort_ok. Qed.

(** [bsearch] finds: in a sorted array it ends, and returns the address of an
    element equal to the key if there is one and null otherwise. *)
Theorem bsearch_finds compare `{!Comparison compare} size key es : 0 < size → layout size es → StronglySorted (cle compare) es →
  ∃ r, bsearch compare key (concat es) (zlength es) size = Ret r ∧
    match r with
    | Some p => ∃ i e, p = Z.of_nat i * size ∧ es !! i = Some e ∧ compare key e = 0
    | None => ∀ e, e ∈ es → compare key e ≠ 0
    end.
Proof.
  intros Hs Hes Hsort. unfold bsearch, binary_search. pose proof (search_loop_ok compare size Hs key es Hes Hsort (S (length es)) 0 (length es)) as H.
  rewrite Z.mul_comm, Nat2Z.id. apply H; [lia|lia|]. intros i e He%lookup_lt_Some _. lia.
Qed.

(** Elements of two bytes, compared as strings. *)
Lemma lex_sign a b : Z.sgn (lex b a) = - Z.sgn (lex a b).
Proof.
  revert b. induction a as [|x a IH]; intros [|y b]; simpl; try done. rewrite (Z.eqb_sym y x). destruct (Z.eqb_spec x y); [done|].
  destruct (Z.ltb_spec x y), (Z.ltb_spec y x); (done || lia).
Qed.
Lemma lex_trans a b c : lex a b ≤ 0 → lex b c ≤ 0 → lex a c ≤ 0.
Proof.
  revert b c. induction a as [|x a IH]; intros [|y b] [|z c]; simpl; try lia.
  destruct (Z.eqb_spec x y), (Z.eqb_spec y z), (Z.eqb_spec x z), (Z.ltb_spec x y), (Z.ltb_spec y z), (Z.ltb_spec x z); try lia; apply IH.
Qed.
#[global] Instance lex_comparison : Comparison lex.
Proof. split; [apply lex_sign|apply lex_trans]. Qed.

Definition demo_array : list (list Z) := [[3; 1]; [2; 7]; [3; 0]; [1; 1]].

Lemma demo_layout : layout 2 demo_array.
Proof. split; [by repeat constructor|done]. Qed.

Lemma qsort_sorts_witness : ∃ es', qsort lex (concat demo_array) 4 2 = Ret (concat es') ∧ es' ≡ₚ demo_array ∧ StronglySorted (cle lex) es'.
Proof. apply (qsort_sorts lex 2 demo_array); [lia|apply demo_layout|simpl; lia]. Defined.

Lemma bsearch_finds_witness : ∃ r, bsearch lex [2; 7] (concat [[1; 1]; [2; 7]; [3; 0]]) 3 2 = Ret r.
Proof.
  destruct (bsearch_finds lex 2 [2; 7] [[1; 1]; [2; 7]; [3; 0]]) as (r & Hr & _); [lia|split; [by repeat constructor|done]| |exists r; exact Hr].
  repeat constructor; unfold cle; simpl; lia.
Defined.
