(* ===== verification/Stdio.v ===== *)
(** * Formatted output (lib/stdio.c)

    A format is its characters with the terminator; the arguments are the
    words on the stack, of which a 64-bit argument takes two.  The model of a
    function that sends characters to [output] returns these characters;
    [vsnprintf_helper] then folds over them.  Strings that the arguments point
    to are in a memory of bytes. *)

From Stdlib Require Import Strings.String Strings.Ascii.
From S2P Require Import Prelude Cstring Clib.

Fixpoint chars (s : string) : list Z :=
  match s with EmptyString => [] | String a s => Z.of_N (N_of_ascii a) :: chars s end.

(** ** Conversions *)

Definition MINUS : Z := 1.
Definition PLUS : Z := 2.
Definition SPACE : Z := 4.
Definition POUND : Z := 8.
Definition ZERO : Z := 16.
Definition GROUP : Z := 32.
Definition flag (flags f : Z) : bool := negb (Z.land flags f =? 0).

Inductive conversion_type := CHAR | SHORT | INT | INTMAX | LONG | LONGLONG | PTRDIFFT | SIZET.

Record printf_conversion := Conversion { flags : Z; width : Z; precision : Z; type : conversion_type }.

Record integer_base := Base { base : Z; base_digits : list Z; base_x : Z; group : Z }.
Definition base_d : integer_base := Base 10 (chars "0123456789") 0 3.
Definition base_o : integer_base := Base 8 (chars "01234567") 0 3.
Definition base_hex : integer_base := Base 16 (chars "0123456789abcdef") 120 4.
Definition base_HEX : integer_base := Base 16 (chars "0123456789ABCDEF") 88 4.

(** [*format], and the pointer after it. *)
Definition peek (format : list Z) : outcome Z := access (head format).

Definition s8 (x : Z) : Z := (x + 2 ^ 7) mod 2 ^ 8 - 2 ^ 7.
Definition s16 (x : Z) : Z := (x + 2 ^ 15) mod 2 ^ 16 - 2 ^ 15.
Definition u16 (x : Z) : Z := x mod 2 ^ 16.

(** [va_arg] for one word and for two. *)
Definition arg32 (args : list Z) : outcome (Z * list Z) :=
  match args with a :: args => Ret (u32 a, args) | [] => Fail Fault end.
Definition arg64 (args : list Z) : outcome (Z * list Z) :=
  match args with lo :: hi :: args => Ret (u32 lo + 2 ^ 32 * u32 hi, args) | _ => Fail Fault end.

Fixpoint parse_flags (format : list Z) (f : Z) : outcome (Z * list Z) :=
  match format with
  | [] => Fail Fault
  | ch :: rest =>
      if ch =? 45 then parse_flags rest (Z.lor f MINUS)
      else if ch =? 43 then parse_flags rest (Z.lor f PLUS)
      else if ch =? 32 then parse_flags rest (Z.lor f SPACE)
      else if ch =? 35 then parse_flags rest (Z.lor f POUND)
      else if ch =? 48 then parse_flags rest (Z.lor f ZERO)
      else if ch =? 39 then parse_flags rest (Z.lor f GROUP)
      else Ret (f, format)
  end.

Fixpoint parse_number (format : list Z) (n : Z) : outcome (Z * list Z) :=
  match format with
  | [] => Fail Fault
  | ch :: rest => if isdigit ch then parse_number rest (s32 (s32 (n * 10) + ch - 48)) else Ret (n, format)
  end.

(** A width or precision: a number or [*]. *)
Definition parse_amount (format args : list Z) : outcome (Z * list Z * list Z) :=
  let* ch := peek format in
  if ch =? 42 then let* (a, args) := arg32 args in Ret (s32 a, tail format, args)
  else let* (n, format) := parse_number format 0 in Ret (n, format, args).

Definition clear (f mask : Z) : Z := Z.land f (Z.lnot mask).

Definition parse_type (format : list Z) : outcome (conversion_type * list Z) :=
  let* ch := peek format in
  let rest := tail format in
  if ch =? 104 then let* ch := peek rest in if ch =? 104 then Ret (CHAR, tail rest) else Ret (SHORT, rest)
  else if ch =? 106 then Ret (INTMAX, rest)
  else if ch =? 108 then let* ch := peek rest in if ch =? 108 then Ret (LONGLONG, tail rest) else Ret (LONG, rest)
  else if ch =? 116 then Ret (PTRDIFFT, rest)
  else if ch =? 122 then Ret (SIZET, rest)
  else Ret (INT, format).

Definition parse_conversion (format args : list Z) : outcome (printf_conversion * list Z * list Z) :=
  let* (f, format) := parse_flags format 0 in
  let f := if flag f MINUS then clear f ZERO else f in
  let f := if flag f PLUS then clear f SPACE else f in
  let* (w, format, args) := parse_amount format args in
  let '(w, f) := if w <? 0 then (s32 (- w), Z.lor f MINUS) else (w, f) in
  let* ch := peek format in
  let* (p, format, args) :=
    (if ch =? 46 then
       let* (p, format, args) := parse_amount (tail format) args in
       Ret (if p <? 0 then -1 else p, format, args)
     else Ret (-1, format, args)) in
  let f := if 0 <=? p then clear f ZERO else f in
  let* (t, format) := parse_type format in
  Ret (Conversion f w p t, format, args).

(** ** Output *)

Definition output_dup (ch cnt : Z) : list Z := replicate (Z.to_nat cnt) ch.

(** The characters in [buf], last first; [Fault] when the 64 are exceeded. *)
Definition push (buf : list Z) (ch : Z) : outcome (list Z) :=
  if zlength buf <? 64 then Ret (ch :: buf) else Fail Fault.

Fixpoint digit_buffer (fuel : nat) (value digit_cnt : Z) (b : integer_base) (grouped : bool) (buf : list Z) : outcome (list Z) :=
  match fuel with
  | O => Fail OutOfFuel
  | S fuel =>
      if 0 <? value then
        let* buf := (if grouped && (0 <? digit_cnt) && (digit_cnt mod group b =? 0) then push buf 44 else Ret buf) in
        let* d := access (zget (base_digits b) (value mod base b)) in
        let* buf := push buf d in
        digit_buffer fuel (value / base b) (digit_cnt + 1) b grouped buf
      else Ret buf
  end.

(** [while (cp - buf < precision && cp < buf + sizeof buf - 1) *cp++ = '0';] *)
Fixpoint zero_fill (n : nat) (precision : Z) (buf : list Z) : outcome (list Z) :=
  match n with
  | O => Fail OutOfFuel
  | S n => if (zlength buf <? precision) && (zlength buf <? 63) then let* buf := push buf 48 in zero_fill n precision buf else Ret buf
  end.

Definition sign_char (is_signed negative : bool) (f : Z) : Z :=
  if is_signed then
    if flag f PLUS then if negative then 45 else 43
    else if flag f SPACE then if negative then 45 else 32
    else if negative then 45 else 0
  else 0.

Definition format_integer (value : Z) (is_signed negative : bool) (b : integer_base) (c : printf_conversion) : outcome (list Z) :=
  let sign := sign_char is_signed negative (flags c) in
  let x := if flag (flags c) POUND && negb (value =? 0) then base_x b else 0 in
  let* buf := digit_buffer 65 value 0 b (flag (flags c) GROUP) [] in
  let* buf := zero_fill 65 (if precision c <? 0 then 1 else precision c) buf in
  let* buf := (if flag (flags c) POUND && (base b =? 8) && negb (bool_decide (head buf = Some 48)) then push buf 48 else Ret buf) in
  let pad := s32 (width c - zlength buf - (if negb (x =? 0) then 2 else 0) - (if negb (sign =? 0) then 1 else 0)) in
  let pad_cnt := if pad <? 0 then 0 else pad in
  Ret ((if Z.land (flags c) (Z.lor MINUS ZERO) =? 0 then output_dup 32 pad_cnt else []) ++
       (if negb (sign =? 0) then [sign] else []) ++
       (if negb (x =? 0) then [48; x] else []) ++
       (if flag (flags c) ZERO then output_dup 48 pad_cnt else []) ++
       buf ++
       (if flag (flags c) MINUS then output_dup 32 pad_cnt else [])).

Definition format_string (string : list Z) (c : printf_conversion) : list Z :=
  let length := zlength string in
  (if (length <? width c) && negb (flag (flags c) MINUS) then output_dup 32 (width c - length) else []) ++
  string ++
  (if (length <? width c) && flag (flags c) MINUS then output_dup 32 (width c - length) else []).

(** [va_arg] for the signed and the unsigned conversions. *)
Definition signed_arg (t : conversion_type) (args : list Z) : outcome (Z * list Z) :=
  match t with
  | CHAR => let* (a, args) := arg32 args in Ret (s8 a, args)
  | SHORT => let* (a, args) := arg32 args in Ret (s16 a, args)
  | INT | LONG | PTRDIFFT => let* (a, args) := arg32 args in Ret (s32 a, args)
  | INTMAX | LONGLONG => let* (a, args) := arg64 args in Ret (s64 a, args)
  | SIZET => let* (a, args) := arg32 args in Ret (if SIZE_MAX / 2 <? a then a - SIZE_MAX - 1 else a, args)
  end.
Definition unsigned_arg (t : conversion_type) (args : list Z) : outcome (Z * list Z) :=
  match t with
  | CHAR => let* (a, args) := arg32 args in Ret (u8 a, args)
  | SHORT => let* (a, args) := arg32 args in Ret (u16 a, args)
  | INT | LONG | SIZET => arg32 args
  | PTRDIFFT => let* (a, args) := arg32 args in Ret (Z.land (u64 (s32 a)) (Z.lor (Z.shiftl (2 ^ 31 - 1) 1) 1), args)
  | INTMAX | LONGLONG => arg64 args
  end.

(** The characters of the string at [s], for %s: null is shown as a text, and
    a precision of -1 is SIZE_MAX for [strnlen]. *)
Definition string_arg (m : memory) (s prec : Z) : outcome (list Z) :=
  if s =? 0 then Ret (take (Z.to_nat (u32 prec)) (chars "(null)")) else
  let* (n, _) := strnlen s (u32 prec) m in
  foldr (λ k r, let* r := r in let* x := access (m !! (s + k)) in Ret (x :: r)) (Ret []) (seqZ 0 n).

(** One conversion, with the character [ch] that names it; [None] if there is
    no such conversion. *)
Definition convert (m : memory) (ch : Z) (c : printf_conversion) (args : list Z) : outcome (option (list Z * list Z)) :=
  if (ch =? 100) || (ch =? 105) then
    let* (v, args) := signed_arg (type c) args in
    let* s := format_integer (u64 (if v <? 0 then s64 (- v) else v)) true (v <? 0) base_d c in Ret (Some (s, args))
  else if (ch =? 111) || (ch =? 117) || (ch =? 120) || (ch =? 88) then
    let* (v, args) := unsigned_arg (type c) args in
    let b := if ch =? 111 then base_o else if ch =? 117 then base_d else if ch =? 120 then base_hex else base_HEX in
    let* s := format_integer v false false b c in Ret (Some (s, args))
  else if ch =? 99 then
    let* (a, args) := arg32 args in Ret (Some (format_string [u8 a] c, args))
  else if ch =? 115 then
    let* (p, args) := arg32 args in
    let* s := string_arg m p (precision c) in Ret (Some (format_string s c, args))
  else if ch =? 112 then
    let* (p, args) := arg32 args in
    let* s := format_integer p false false base_hex (Conversion POUND (width c) (precision c) (type c)) in Ret (Some (s, args))
  else Ret None.

Fixpoint __vprintf (fuel : nat) (m : memory) (format args : list Z) : outcome (list Z) :=
  match fuel with
  | O => Fail OutOfFuel
  | S fuel =>
      let* ch := peek format in
      if ch =? 0 then Ret [] else
      let format := tail format in
      if negb (ch =? 37) then let* out := __vprintf fuel m format args in Ret (ch :: out) else
      let* ch := peek format in
      if ch =? 37 then let* out := __vprintf fuel m (tail format) args in Ret (37 :: out) else
      let* (c, format, args) := parse_conversion format args in
      let* ch := peek format in
      let* r := convert m ch c args in
      match r with
      | Some (s, args) => let* out := __vprintf fuel m (tail format) args in Ret (s ++ out)
      | None =>
          let message := if (ch =? 102) || (ch =? 101) || (ch =? 69) || (ch =? 103) || (ch =? 71) || (ch =? 110)
                         then "<<no %%%c in kernel>>"%string else "<<no %%%c conversion>>"%string in
          let* s := __vprintf fuel m (chars message ++ [0]) [ch] in
          let* out := __vprintf fuel m (tail format) args in
          Ret (s ++ out)
      end
  end.

(** Enough for the format and for a message. *)
Definition print_fuel (format : list Z) : nat := length format + 30.
Definition formatted (m : memory) (format args : list Z) : outcome (list Z) := __vprintf (print_fuel format) m format args.

(** ** Output to a buffer *)

Record vsnprintf_aux := Aux { aux_p : Z; aux_length : Z; max_length : Z }.

Definition vsnprintf_helper (ch : Z) (aux : vsnprintf_aux) : cmd memory vsnprintf_aux :=
  if aux_length aux <? max_length aux then
    let* _ := store (aux_p aux) ch in mret (Aux (aux_p aux + 1) (s32 (aux_length aux + 1)) (max_length aux))
  else mret (Aux (aux_p aux) (s32 (aux_length aux + 1)) (max_length aux)).

Fixpoint send (out : list Z) (aux : vsnprintf_aux) : cmd memory vsnprintf_aux :=
  match out with
  | [] => mret aux
  | ch :: out => let* aux := vsnprintf_helper ch aux in send out aux
  end.

(** The format and the strings are read before the buffer is written: they
    must not be in the buffer. *)
Definition vsnprintf (buffer buf_size : Z) (format args : list Z) : cmd memory Z :=
  let* m := get in
  let* out := lift (formatted m format args) in
  let* aux := send out (Aux buffer 0 (if 0 <? buf_size then s32 (buf_size - 1) else 0)) in
  let* _ := (if 0 <? buf_size then store (aux_p aux) 0 else mret ()) in
  mret (aux_length aux).
Definition snprintf (buffer buf_size : Z) (format args : list Z) : cmd memory Z := vsnprintf buffer buf_size format args.

(** ** Dumps *)

Definition isprint (c : Z) : bool := (32 <=? c) && (c <? 127).

Definition printed (m : memory) (format : string) (args : list Z) : outcome (list Z) := formatted m (chars format ++ [0]) args.
(** What a loop prints, in its order. *)
Definition collect (f : Z → outcome (list Z)) (l : list Z) : outcome (list Z) :=
  foldr (λ i r, let* a := f i in let* b := r in Ret (a ++ b)) (Ret []) l.

Definition hex_line (m : memory) (ofs buf start stop : Z) (ascii : bool) : outcome (list Z) :=
  let* offset := printed m "%08jx  " [ofs / 16 * 16; 0] in
  let* before := collect (λ _, printed m "   " []) (seqZ 0 start) in
  let* bytes := collect (λ i, let* x := access (m !! (buf + (i - start))) in
                              printed m "%02hhx%c" [x; if i =? 16 / 2 - 1 then 45 else 32]) (seqZ start (stop - start)) in
  let* text := (if ascii then
      let* after := collect (λ _, printed m "   " []) (seqZ stop (16 - stop)) in
      let* bar := printed m "|" [] in
      let* indent := collect (λ _, printed m " " []) (seqZ 0 start) in
      let* shown := collect (λ i, let* x := access (m !! (buf + (i - start))) in
                                  printed m "%c" [if isprint x then x else 46]) (seqZ start (stop - start)) in
      let* rest := collect (λ _, printed m " " []) (seqZ stop (16 - stop)) in
      Ret (after ++ bar ++ indent ++ shown ++ rest ++ bar)
    else Ret []) in
  Ret (offset ++ before ++ bytes ++ text ++ [10]).

Fixpoint hex_dump_loop (fuel : nat) (m : memory) (ofs buf size : Z) (ascii : bool) : outcome (list Z) :=
  match fuel with
  | O => Fail OutOfFuel
  | S fuel =>
      if 0 <? size then
        let start := ofs mod 16 in
        let stop := if size <? 16 - start then start + size else 16 in
        let n := stop - start in
        let* line := hex_line m ofs buf start stop ascii in
        let* lines := hex_dump_loop fuel m (u32 (ofs + n)) (buf + n) (size - n) ascii in
        Ret (line ++ lines)
      else Ret []
  end.
Definition hex_dump (m : memory) (ofs buf size : Z) (ascii : bool) : outcome (list Z) :=
  hex_dump_loop (S (Z.to_nat size)) m ofs buf size ascii.

(** [factors] holds the addresses of the names of the units; null ends it. *)
Fixpoint scale (factors : list Z) (size : Z) : outcome (Z * Z) :=
  match factors with
  | f :: ((next :: _) as rest) => if (1024 <=? size) && negb (next =? 0) then scale rest (size / 1024) else Ret (size, f)
  | _ => Fail Fault
  end.
Definition print_human_readable_size (m : memory) (factors : list Z) (size : Z) : outcome (list Z) :=
  if size =? 1 then printed m "1 byte" [] else
  let* (size, f) := scale factors size in
  printed m "%llu %s" [size mod 2 ^ 32; size / 2 ^ 32; f].

(** ** Digits *)

(** The bases of the source. *)
Definition known_base (b : integer_base) : Prop := b = base_d ∨ b = base_o ∨ b = base_hex ∨ b = base_HEX.

Definition digit_value (b : integer_base) (c : Z) : Z := default 0 (Z.of_nat <$> index c (base_digits b)).
(** The number that a list of digits denotes; commas do not count. *)
Definition denotes (b : integer_base) (ds : list Z) : Z :=
  foldl (λ v c, v * base b + digit_value b c) 0 (filter (.≠ 44) ds).

Lemma known_digit b d : known_base b → 0 ≤ d < base b → ∃ c, zget (base_digits b) d = Some c ∧ digit_value b c = d ∧ c ≠ 44 ∧ 0 < c < 128.
Proof.
  intros Hb Hd. assert (∃ k : nat, d = Z.of_nat k ∧ (k < 16)%nat) as (k & -> & Hk).
  { exists (Z.to_nat d). destruct Hb as [->|[->|[->| ->]]]; simpl in Hd; lia. }
  destruct Hb as [->|[->|[->| ->]]]; simpl in Hd; do 16 (destruct k as [|k]; [try lia; eexists; by split_and!|]); lia.
Qed.

Lemma known_group b : known_base b → 8 ≤ base b ∧ 3 ≤ group b.
Proof. intros [->|[->|[->| ->]]]; simpl; lia. Qed.

Lemma foldl_digits b l v : 0 ≤ base b → foldl (λ v c, v * base b + digit_value b c) v l = v * base b ^ zlength l + foldl (λ v c, v * base b + digit_value b c) 0 l.
Proof.
  intros Hb. revert v. induction l as [|c l IH]; intros v; cbn [foldl length]; [simpl; lia|].
  rewrite IH, (IH (0 * base b + _)). rewrite Nat2Z.inj_succ, Z.pow_succ_r by lia. ring.
Qed.

Lemma denotes_cons b c ds : 0 ≤ base b → c ≠ 44 → denotes b (c :: ds) = digit_value b c * base b ^ zlength (filter (.≠ 44) ds) + denotes b ds.
Proof. intros Hb Hc. unfold denotes. rewrite filter_cons_True by done. cbn [foldl]. rewrite foldl_digits by done. rewrite Z.mul_0_l. done. Qed.

Lemma denotes_comma b ds : denotes b (44 :: ds) = denotes b ds.
Proof. unfold denotes. by rewrite filter_cons_False by (intros H; by apply H). Qed.

(** A character that [digit_buffer] writes. *)
Definition digit_char (b : integer_base) (grouped : bool) (c : Z) : Prop := c ∈ base_digits b ∨ grouped = true ∧ c = 44.

Lemma filter_comma l : filter (.≠ 44) (44 :: l) = filter (.≠ 44) l.
Proof. rewrite filter_cons_False; [done|]. intros H. by apply H. Qed.

(** The digits of [v], and at most one comma for each, are pushed: the buffer
    has room for them. *)
Lemma digit_buffer_ok b g : known_base b → ∀ fuel v k buf, 0 ≤ v < 8 ^ (22 - k) → 0 ≤ k ≤ 22 → 22 - k < Z.of_nat fuel →
  zlength (filter (.≠ 44) buf) = k → zlength buf ≤ 2 * k →
  ∃ ds, digit_buffer fuel v k b g buf = Ret (ds ++ buf) ∧ denotes b (ds ++ buf) = v * base b ^ k + denotes b buf ∧
    zlength (ds ++ buf) ≤ 44 ∧ Forall (digit_char b g) ds ∧ (v = 0 → ds = []) ∧ (0 < v → base b ^ (zlength (filter (.≠ 44) ds) - 1) ≤ v).
Proof.
  intros Hb. destruct (known_group b Hb) as [H8 H3]. induction fuel as [|fuel IH]; intros v k buf Hv Hk Hf Hcnt Hlen; [lia|].
  cbn [digit_buffer]. destruct (Z.ltb_spec 0 v) as [Hpos|Hz].
  2:{ exists []. assert (v = 0) as -> by lia. split; [done|]. split; [simpl; lia|]. split; [simpl; lia|]. split; [constructor|]. split; [done|lia]. }
  assert (k < 22) as Hk22. { destruct (decide (k = 22)) as [->|]; [simpl in Hv; lia|lia]. }
  assert (∃ cs, (if g && (0 <? k) && (k mod group b =? 0) then push buf 44 else Ret buf) = Ret (cs ++ buf) ∧ denotes b (cs ++ buf) = denotes b buf ∧
    zlength (filter (.≠ 44) (cs ++ buf)) = k ∧ zlength (cs ++ buf) ≤ 2 * k + 1 ∧ Forall (digit_char b g) cs ∧ filter (.≠ 44) cs = []) as (cs & -> & Hdc & Hcc & Hlc & Hch & Hcf).
  { destruct (g && (0 <? k) && (k mod group b =? 0)) eqn:E.
    - bool_prop. exists [44]. unfold push. destruct (Z.ltb_spec (zlength buf) 64); [|lia]. split; [done|]. split; [apply denotes_comma|].
      change ([44] ++ buf) with (44 :: buf). rewrite filter_comma. split; [done|]. split; [simpl; lia|]. split; [constructor; [by right|constructor]|]. apply filter_comma.
    - exists []. split; [done|]. split; [done|]. split; [done|]. split; [simpl; lia|]. split; [constructor|done]. }
  cbn [mbind outcome_bind]. destruct (known_digit b (v mod base b) Hb) as (c & Hg & Hdv & Hc & _); [apply Z.mod_pos_bound; lia|]. rewrite Hg.
  cbn [access mbind outcome_bind]. unfold push at 1. destruct (Z.ltb_spec (zlength (cs ++ buf)) 64); [|lia]. cbn [mbind outcome_bind].
  assert (8 ^ (22 - k) = 8 * 8 ^ (22 - (k + 1))) as E8 by (rewrite <- Z.pow_succ_r by lia; f_equal; lia).
  assert (0 ≤ v / base b < 8 ^ (22 - (k + 1))) as Hv'.
  { split; [apply Z.div_pos; lia|]. apply Z.div_lt_upper_bound; [lia|]. assert (0 < 8 ^ (22 - (k + 1))) by (apply Z.pow_pos_nonneg; lia). nia. }
  destruct (IH (v / base b) (k + 1) (c :: cs ++ buf) Hv') as (ds & -> & Hd & Hl & Hall & Hz & Hsig); [lia|lia| |simpl; lia|].
  { rewrite filter_cons_True by done. simpl length. lia. }
  exists (ds ++ c :: cs). assert ((ds ++ c :: cs) ++ buf = ds ++ c :: cs ++ buf) as -> by by rewrite <- app_assoc. split; [done|]. split; [|split; [done|split; [|split; [lia|]]]].
  - rewrite Hd, (denotes_cons b c) by (done || lia). rewrite Hcc, Hdc, Hdv, Z.pow_add_r by lia. rewrite Z.pow_1_r.
    pose proof (Z.div_mod v (base b) ltac:(lia)) as Ev. rewrite Ev at 3. ring.
  - apply Forall_app. split; [done|]. constructor; [|done]. left. apply zget_Some in Hg as [_ Hg]. by apply list_elem_of_lookup_2 in Hg.
  - intros _. rewrite filter_app, filter_cons_True, Hcf, length_app by done. simpl length. destruct (decide (v / base b = 0)) as [E|E].
    + rewrite (Hz E). simpl. lia.
    + specialize (Hsig ltac:(lia)). pose proof (Z.mul_div_le v (base b) ltac:(lia)).
      destruct (decide (zlength (filter (.≠ 44) ds) = 0)) as [E0|E0]; [rewrite Nat2Z.inj_add, E0; simpl; lia|].
      replace (Z.of_nat (length (filter (.≠ 44) ds) + 1) - 1) with (Z.succ (zlength (filter (.≠ 44) ds) - 1)) by lia.
      rewrite Z.pow_succ_r by lia. nia.
Qed.

Lemma denotes_zeros b n ds : known_base b → denotes b (replicate n 48 ++ ds) = denotes b ds.
Proof.
  intros Hb. destruct (known_group b Hb) as [H8 _]. induction n as [|n IH]; [done|]. cbn [replicate app]. rewrite denotes_cons by (done || lia).
  rewrite IH. assert (digit_value b 48 = 0) as -> by (by destruct Hb as [->|[->|[->| ->]]]). lia.
Qed.

Lemma zero_fill_ok p : ∀ fuel buf, 64 - zlength buf ≤ Z.of_nat fuel → zlength buf ≤ 63 →
  ∃ n, zero_fill fuel p buf = Ret (replicate n 48 ++ buf) ∧ zlength (replicate n 48 ++ buf) = Z.max (zlength buf) (Z.min p 63).
Proof.
  induction fuel as [|fuel IH]; intros buf Hf Hl; [lia|]. cbn [zero_fill].
  destruct (Z.ltb_spec (zlength buf) p), (Z.ltb_spec (zlength buf) 63); cbn [andb]; try (exists 0%nat; split; [done|simpl; lia]).
  unfold push. destruct (Z.ltb_spec (zlength buf) 64); [|lia]. cbn [mbind outcome_bind].
  destruct (IH (48 :: buf)) as (n & -> & Hn); [simpl; lia|simpl; lia|]. exists (S n). rewrite replicate_S_end, <- app_assoc. split; [done|].
  change ([48] ++ buf) with (48 :: buf). rewrite Hn. simpl length. lia.
Qed.

(** The fields of an integer conversion around its digits [ds]. *)
Definition sign_field (is_signed negative : bool) (c : printf_conversion) : list Z :=
  let s := sign_char is_signed negative (flags c) in if s =? 0 then [] else [s].
Definition prefix_field (v : Z) (b : integer_base) (c : printf_conversion) : list Z :=
  if flag (flags c) POUND && negb (v =? 0) && negb (base_x b =? 0) then [48; base_x b] else [].
Definition padded (c : printf_conversion) (s x ds : list Z) : list Z :=
  let pad := Z.to_nat (width c - zlength (s ++ x ++ ds)) in
  (if flag (flags c) MINUS || flag (flags c) ZERO then [] else replicate pad 32) ++ s ++ x ++
  (if flag (flags c) ZERO then replicate pad 48 else []) ++ ds ++ (if flag (flags c) MINUS then replicate pad 32 else []).

Lemma digit_zero b g : known_base b → digit_char b g 48.
Proof. intros Hb. left. destruct Hb as [->|[->|[->| ->]]]; by left. Qed.

(** The digits, whatever the flags: the buffer is never exceeded. *)
Lemma digits_ok v b c : known_base b → 0 ≤ v < 2 ^ 64 →
  ∃ ds, (let* buf := digit_buffer 65 v 0 b (flag (flags c) GROUP) [] in
         let* buf := zero_fill 65 (if precision c <? 0 then 1 else precision c) buf in
         if flag (flags c) POUND && (base b =? 8) && negb (bool_decide (head buf = Some 48)) then push buf 48 else Ret buf) = Ret ds ∧
    denotes b ds = v ∧ Forall (digit_char b (flag (flags c) GROUP)) ds ∧ Z.min (precision c) 63 ≤ zlength ds ≤ 64 ∧ (ds = [] → v = 0 ∧ precision c = 0) ∧
    (flag (flags c) POUND = false → flag (flags c) GROUP = false → precision c = -1 → zlength ds ≤ 1 ∨ base b ^ (zlength ds - 1) ≤ v).
Proof.
  intros Hb Hv. destruct (digit_buffer_ok b (flag (flags c) GROUP) Hb 65 v 0 []) as (ds & -> & Hd & Hl & Hall & Hz & Hsig); [change (8 ^ (22 - 0)) with (2 ^ 66); lia|lia|lia|done|simpl; lia|].
  cbn [mbind outcome_bind]. rewrite app_nil_r in *. set (p := if precision c <? 0 then 1 else precision c).
  destruct (zero_fill_ok p 65 ds) as (n & -> & Hn); [lia|lia|]. cbn [mbind outcome_bind].
  assert (denotes b (replicate n 48 ++ ds) = v) as Hd1 by (rewrite denotes_zeros by done; rewrite Hd, Z.pow_0_r; change (denotes b []) with 0; lia).
  assert (Forall (digit_char b (flag (flags c) GROUP)) (replicate n 48 ++ ds)) as Hall1.
  { apply Forall_app. split; [|done]. apply Forall_replicate. by apply digit_zero. }
  assert (p = if precision c <? 0 then 1 else precision c) as Ep by done. clearbody p.
  assert (replicate n 48 ++ ds = [] → v = 0 ∧ precision c = 0) as Hnil.
  { intros E. rewrite E in Hn, Hd1. destruct (Z.ltb_spec (precision c) 0); simpl in Hn; [lia|].
    split; [by rewrite <- Hd1|]. lia. }
  assert (flag (flags c) GROUP = false → precision c = -1 → zlength (replicate n 48 ++ ds) ≤ 1 ∨ base b ^ (zlength (replicate n 48 ++ ds) - 1) ≤ v) as Hshort.
  { intros Ef Epr. rewrite Hn, Ep, Epr. change (-1 <? 0) with true. cbv iota. destruct (decide (v = 0)) as [E0|E0]; [left; rewrite (Hz E0); simpl; lia|].
    destruct (decide (zlength ds ≤ 1)); [left; lia|right]. specialize (Hsig ltac:(lia)). rewrite filter_all in Hsig.
    - by replace (Z.max (zlength ds) (Z.min 1 63)) with (zlength ds) by lia.
    - rewrite Ef in Hall. intros x Hx. rewrite Forall_forall in Hall. destruct (Hall x Hx) as [Hin|[? _]]; [|done].
      clear - Hb Hin. intros ->. destruct Hb as [->|[->|[->| ->]]]; simpl in Hin; set_solver. }
  destruct (flag (flags c) POUND && (base b =? 8) && negb (bool_decide (head (replicate n 48 ++ ds) = Some 48))) eqn:E.
  - unfold push. destruct (Z.ltb_spec (zlength (replicate n 48 ++ ds)) 64); [|lia]. exists (48 :: replicate n 48 ++ ds). split; [done|].
    split; [change (48 :: replicate n 48 ++ ds) with (replicate (S n) 48 ++ ds); rewrite denotes_zeros by done; by rewrite <- Hd1, denotes_zeros|].
    split; [constructor; [by apply digit_zero|done]|]. split; [simpl length; destruct (Z.ltb_spec (precision c) 0); lia|]. split; [done|].
    intros Ef. by rewrite Ef in E.
  - exists (replicate n 48 ++ ds). split; [done|]. split; [done|]. split; [done|]. split; [destruct (Z.ltb_spec (precision c) 0); lia|]. split; [done|]. intros _. exact Hshort.
Qed.

Lemma flag_minus_zero f : (Z.land f (Z.lor MINUS ZERO) =? 0) = negb (flag f MINUS || flag f ZERO).
Proof.
  unfold flag. rewrite <- negb_andb, negb_involutive. apply eq_true_iff_eq. rewrite Z.eqb_eq, andb_true_iff, !Z.eqb_eq. rewrite Z.land_lor_distr_r. apply Z.lor_eq_0_iff.
Qed.

(** An integer conversion writes the digits of the value with the sign, the
    prefix and the padding that the conversion asks for. *)
Lemma format_integer_ok v is_signed negative b c : known_base b → 0 ≤ v < 2 ^ 64 → 0 ≤ width c < 2 ^ 31 →
  ∃ ds, format_integer v is_signed negative b c = Ret (padded c (sign_field is_signed negative c) (prefix_field v b c) ds) ∧
    denotes b ds = v ∧ Forall (digit_char b (flag (flags c) GROUP)) ds ∧ Z.min (precision c) 63 ≤ zlength ds ≤ 64 ∧ (ds = [] → v = 0 ∧ precision c = 0) ∧
    (flag (flags c) POUND = false → flag (flags c) GROUP = false → precision c = -1 → zlength ds ≤ 1 ∨ base b ^ (zlength ds - 1) ≤ v).
Proof.
  intros Hb Hv Hw. destruct (digits_ok v b c Hb Hv) as (ds & Hds & Hd & Hall & Hl & Hnil & Hsh). exists ds. split; [|done]. unfold format_integer.
  outcome_inv. rewrite Hv0. cbn [mbind outcome_bind]. rewrite Hv1. cbn [mbind outcome_bind]. rewrite Hds. cbn [mbind outcome_bind]. f_equal.
  unfold padded, sign_field, prefix_field, output_dup. rewrite flag_minus_zero.
  set (s := sign_char is_signed negative (flags c)). set (x := if flag (flags c) POUND && negb (v =? 0) then base_x b else 0).
  assert ((if negb (s =? 0) then [s] else []) = (if s =? 0 then [] else [s])) as -> by (by destruct (s =? 0)).
  assert ((if negb (x =? 0) then [48; x] else []) = (if flag (flags c) POUND && negb (v =? 0) && negb (base_x b =? 0) then [48; base_x b] else [])) as Ex.
  { unfold x. by destruct (flag (flags c) POUND), (v =? 0). }
  rewrite Ex. rewrite <- Ex. rewrite s32_id by (destruct (x =? 0), (s =? 0); simpl; lia).
  set (w := width c - zlength ds - (if negb (x =? 0) then 2 else 0) - (if negb (s =? 0) then 1 else 0)).
  assert (Z.to_nat (if w <? 0 then 0 else w) = Z.to_nat (width c - zlength ((if s =? 0 then [] else [s]) ++ (if negb (x =? 0) then [48; x] else []) ++ ds))) as ->.
  { destruct (Z.ltb_spec w 0) as [E|E]; unfold w in E |- *; rewrite !length_app; destruct (s =? 0), (x =? 0); cbn [negb length] in *; lia. }
  by destruct (flag (flags c) MINUS), (flag (flags c) ZERO).
Qed.

(** ** Buffers *)

Lemma send_ok out : ∀ m p L M, Forall byte out → 0 ≤ L → L + zlength out < 2 ^ 31 → mapped m p (M - L) →
  send out (Aux p L M) m = Ret (Aux (p + Z.min (zlength out) (Z.max 0 (M - L))) (L + zlength out) M, write m p (take (Z.to_nat (M - L)) out)).
Proof.
  induction out as [|ch out IH]; intros m p L M Hb HL Hlen Hm; cbn [send].
  - rewrite take_nil. unfold mret, cmd_ret. do 3 f_equal; simpl; lia.
  - apply Forall_cons in Hb as [Hch Hb]. simpl length in Hlen. unfold vsnprintf_helper. cbn [aux_length max_length aux_p].
    destruct (Z.ltb_spec L M) as [Hlt|Hge].
    + rewrite (cstep _ _ _ (Aux (p + 1) (L + 1) M) (<[p := ch]> m)).
      2:{ rewrite (cstep _ _ _ () (<[p := ch]> m)) by (apply store_ok; [apply Hm; lia|done]). by rewrite s32_id by lia. }
      rewrite IH; [|done|lia|lia|apply mapped_insert; intros a Ha; apply Hm; lia].
      replace (Z.to_nat (M - L)) with (S (Z.to_nat (M - (L + 1)))) by lia. cbn [take write]. do 3 f_equal; simpl length; lia.
    + rewrite (cstep _ _ _ (Aux p (L + 1) M) m) by (unfold mret, cmd_ret; by rewrite s32_id by lia).
      rewrite IH; [|done|lia|lia|intros a Ha; lia]. replace (Z.to_nat (M - L)) with 0%nat by lia. replace (Z.to_nat (M - (L + 1))) with 0%nat by lia.
      do 3 f_equal; simpl length; lia.
Qed.

Lemma vsnprintf_ok m buffer n format args out : formatted m format args = Ret out → Forall byte out → zlength out < 2 ^ 31 →
  0 < n ≤ 2 ^ 31 → mapped m buffer n →
  vsnprintf buffer n format args m = Ret (zlength out, write m buffer (take (Z.to_nat (n - 1)) out ++ [0])).
Proof.
  intros Hv Hb Hl Hn Hm. unfold vsnprintf. rewrite cget. rewrite (cstep _ _ _ out m) by (unfold lift; by rewrite Hv).
  destruct (Z.ltb_spec 0 n); [|lia]. rewrite s32_id by lia.
  rewrite (cstep _ _ _ _ _ (send_ok out m buffer 0 (n - 1) Hb ltac:(lia) ltac:(lia) ltac:(intros a Ha; apply Hm; lia))). cbn [aux_p aux_length].
  rewrite Z.sub_0_r. set (t := take (Z.to_nat (n - 1)) out).
  assert (zlength t = Z.min (zlength out) (n - 1)) as Ht by (unfold t; rewrite length_take; lia).
  replace (buffer + Z.min (zlength out) (Z.max 0 (n - 1))) with (buffer + zlength t) by lia.
  rewrite (cstep _ _ _ () (write m buffer (t ++ [0]))); [done|]. rewrite write_app. simpl. apply store_ok; [|done].
  rewrite write_other by lia. apply Hm. lia.
Qed.

(** ** Printing and reading a number *)

Lemma decimal_digit c : digit_char base_d false c → isdigit c = true ∧ digit_value base_d c = c - 48 ∧ 0 < c < 256 ∧ c ≠ 44.
Proof.
  intros [Hc|[? _]]; [|done]. simpl in Hc. repeat (apply elem_of_cons in Hc as [->|Hc]; [by split_and!|]). by apply elem_of_nil in Hc.
Qed.

Lemma decimal_number ds : Forall (digit_char base_d false) ds → number 0 ds = denotes base_d ds.
Proof.
  intros Hd. unfold denotes, number. rewrite filter_all by (intros x Hx; rewrite Forall_forall in Hd; apply (decimal_digit x), Hd, Hx).
  generalize 0. induction Hd as [|c ds Hc Hd IH]; intros v; [done|]. cbn [foldl]. by rewrite (proj1 (proj2 (decimal_digit c Hc))), IH.
Qed.

Lemma pre_all f s : (∀ x, x ∈ s → f x = true) → pre f s = length s.
Proof. induction s as [|x s IH]; intros H; [done|]. simpl. rewrite (H x) by by left. f_equal. apply IH. intros y Hy. apply H. by right. Qed.

Lemma parse_printed (neg : bool) ds : Forall (digit_char base_d false) ds → ds ≠ [] →
  parse_int ((if neg then [45] else []) ++ ds) = if neg then - denotes base_d ds else denotes base_d ds.
Proof.
  intros Hd Hne. assert (digits ds = ds) as Ed.
  { unfold digits. rewrite pre_all; [by apply take_ge|]. intros x Hx. rewrite Forall_forall in Hd. by apply decimal_digit, Hd. }
  rewrite <- (decimal_number ds Hd). unfold parse_int. destruct neg.
  - simpl. by rewrite Ed.
  - destruct ds as [|c ds]; [done|]. apply Forall_cons in Hd as [Hc Hd]. destruct (decimal_digit c Hc) as (H1 & _ & Hr & _).
    unfold isdigit in H1. bool_prop. cbn [app pre]. assert (isspace c = false) as ->.
    { unfold isspace. destruct (Z.eqb_spec c 32), (Z.eqb_spec c 12), (Z.eqb_spec c 10), (Z.eqb_spec c 13), (Z.eqb_spec c 9), (Z.eqb_spec c 11); (done || lia). }
    cbn [drop]. destruct (Z.eqb_spec c 43), (Z.eqb_spec c 45); try lia. by rewrite Ed.
Qed.

Definition percent_d : list Z := chars "%d" ++ [0].

Lemma print_int m v : - 2 ^ 31 ≤ v < 2 ^ 31 → ∃ ds, formatted m percent_d [v] = Ret ((if v <? 0 then [45] else []) ++ ds) ∧
  denotes base_d ds = Z.abs v ∧ Forall (digit_char base_d false) ds ∧ ds ≠ [] ∧ zlength ds ≤ 10.
Proof.
  intros Hv. set (c := Conversion 0 0 (-1) INT).
  destruct (format_integer_ok (Z.abs v) true (v <? 0) base_d c) as (ds & Hf & Hd & Hall & Hl & Hnil & Hsh); [by left|lia|simpl; lia|].
  exists ds. split; [|split; [done|split; [done|split]]].
  2:{ intros E. by destruct (Hnil E). }
  2:{ destruct (Hsh eq_refl eq_refl eq_refl) as [?|Hp]; [lia|]. destruct (decide (zlength ds ≤ 10)); [done|]. assert (10 ^ 10 ≤ 10 ^ (zlength ds - 1)) by (apply Z.pow_le_mono_r; lia). simpl in Hp. lia. }
  unfold formatted. change (print_fuel percent_d) with (S (S 31)). generalize 31%nat as n. intros n. change percent_d with [37; 100; 0].
  cbn [__vprintf peek head access mbind outcome_bind tail Z.eqb Pos.eqb negb].
  change (parse_conversion [100; 0] [v]) with (Ret (c, [100; 0], [v])). cbn [mbind outcome_bind peek head access].
  assert (s32 (u32 v) = v) as Ev. { unfold s32, u32. rewrite Zplus_mod_idemp_l. apply (s32_id v). lia. }
  change (convert m 100 c [v]) with (let* (w, args) := Ret (s32 (u32 v), []) in
    let* s := format_integer (u64 (if w <? 0 then s64 (- w) else w)) true (w <? 0) base_d c in Ret (Some (s, args : list Z))).
  cbn [mbind outcome_bind]. rewrite Ev. assert (u64 (if v <? 0 then s64 (- v) else v) = Z.abs v) as ->.
  { destruct (Z.ltb_spec v 0); [rewrite s64_id by lia|]; rewrite u64_id; lia. }
  rewrite Hf. cbn. rewrite app_nil_r. f_equal. unfold padded, sign_field, sign_char, prefix_field. cbn.
  destruct (v <? 0); cbn; (replace (Z.to_nat _) with 0%nat by lia); by rewrite ?app_nil_r.
Qed.

(** ** Theorems *)


Definition demo_buffer : memory := write ∅ 100 (replicate 12 7).
Lemma demo_buffer_mapped : mapped demo_buffer 100 12.
Proof. intros q Hq. unfold demo_buffer. rewrite write_lookup. rewrite decide_True by (simpl; lia). apply lookup_lt_is_Some. simpl. lia. Qed.


(** snprintf never writes past its buffer: for every format and arguments
    that can be formatted, it returns the length of the whole text, the buffer
    holds as much of the text as fits, terminated, and no other byte changes. *)
Theorem snprintf_bounded m buffer n format args out : formatted m format args = Ret out → Forall byte out → zlength out < 2 ^ 31 →
  0 < n ≤ 2 ^ 31 → mapped m buffer n →
  ∃ m', snprintf buffer n format args m = Ret (zlength out, m') ∧ bytes_at m' buffer (take (Z.to_nat (n - 1)) out ++ [0]) ∧
    (∀ q, ¬ buffer ≤ q < buffer + n → m' !! q = m !! q).
Proof.
  intros Hv Hb Hl Hn Hm. eexists. split; [by apply vsnprintf_ok|]. split; [apply write_at|].
  intros q Hq. apply write_other. rewrite length_app, length_take. simpl. lia.
Qed.
Lemma snprintf_bounded_witness : ∃ m', snprintf 100 5 (chars "%x-%05u" ++ [0]) [255; 42] demo_buffer = Ret (8, m') ∧ bytes_at m' 100 (chars "ff-0" ++ [0]).
Proof.
  destruct (snprintf_bounded demo_buffer 100 5 (chars "%x-%05u" ++ [0]) [255; 42] (chars "ff-00042")) as (m' & H1 & H2 & _);
    [vm_compute; reflexivity|unfold byte; apply (bool_decide_unpack _); vm_compute; exact I|simpl; lia|lia|intros q Hq; apply demo_buffer_mapped; lia|].
  exists m'. split; [exact H1|exact H2].
Defined.

(** A format that ends in a lone % is read past its terminator. *)
Example lone_percent : formatted ∅ (chars "50%" ++ [0]) [] = Fail Fault.
Proof. vm_compute. reflexivity. Qed.
(** A negative width from an argument with the 0 flag pads on both sides: the
    field of 5 becomes 9 characters. *)
Example padded_twice : formatted ∅ (chars "%0*d" ++ [0]) [-5; 7] = Ret (chars "00007    ").
Proof. vm_compute. reflexivity. Qed.
Example dumped : hex_dump (write ∅ 100 [72; 105; 10]) 6 100 3 true =
  Ret (chars "00000000                    48 69-0a                      |      Hi.       |" ++ [10]).
Proof. vm_compute. reflexivity. Qed.
Example sized : print_human_readable_size (write ∅ 100 (chars "bytes" ++ [0] ++ chars "kB" ++ [0])) [100; 106; 0] 262144 = Ret (chars "256 kB").
Proof. vm_compute. reflexivity. Qed.
