(* ===== verification/Klist.v ===== *)
(** * Doubly linked lists (lib/kernel/list.c, list.h)

    The lists at pointer level.  A [struct list_elem] is a pair of links in a
    heap; a [struct list] at address [l] consists of the head element at [l]
    and the tail element at [l + 8], since a [struct list_elem] is eight
    bytes.  Every operation is the code's sequence of loads and stores, with
    its assertions.  [is_list h l xs] says that the list at [l] holds the
    elements [xs] in order, and the theorems show that the operations act on
    [xs] as their comments say. *)

From Stdlib Require Import Sorting.Sorted.
From S2P Require Import Prelude.

(** ** Data *)

Definition NULL : Z := 0.

Record list_elem := Elem { prev : Z; next : Z }.

Notation heap := (gmap Z list_elem).

Definition load_prev (p : Z) : cmd heap Z := λ h,
  match h !! p with Some e => Ret (prev e, h) | None => Fail Fault end.
Definition load_next (p : Z) : cmd heap Z := λ h,
  match h !! p with Some e => Ret (next e, h) | None => Fail Fault end.
Definition store_prev (p v : Z) : cmd heap unit := λ h,
  match h !! p with Some e => Ret ((), <[p := Elem v (next e)]> h) | None => Fail Fault end.
Definition store_next (p v : Z) : cmd heap unit := λ h,
  match h !! p with Some e => Ret ((), <[p := Elem (prev e) v]> h) | None => Fail Fault end.

(** &list->head and &list->tail *)
Definition head_of (l : Z) : Z := l.
Definition tail_of (l : Z) : Z := l + 8.

(** Number of elements a walk can visit; enough fuel for one traversal. *)
Definition walk_fuel (h : heap) : nat := S (size h).

(** ** Operations *)

Definition is_head (elem : Z) : cmd heap bool :=
  if elem =? NULL then mret false else
  let* p := load_prev elem in
  if negb (p =? NULL) then mret false else
  let* n := load_next elem in mret (negb (n =? NULL)).

Definition is_interior (elem : Z) : cmd heap bool :=
  if elem =? NULL then mret false else
  let* p := load_prev elem in
  if p =? NULL then mret false else
  let* n := load_next elem in mret (negb (n =? NULL)).

Definition is_tail (elem : Z) : cmd heap bool :=
  if elem =? NULL then mret false else
  let* p := load_prev elem in
  if p =? NULL then mret false else
  let* n := load_next elem in mret (n =? NULL).

Definition list_init (list : Z) : cmd heap unit :=
  let* _ := assert (negb (list =? NULL)) in
  let* _ := store_prev (head_of list) NULL in
  let* _ := store_next (head_of list) (tail_of list) in
  let* _ := store_prev (tail_of list) (head_of list) in
  store_next (tail_of list) NULL.

Definition list_begin (list : Z) : cmd heap Z :=
  let* _ := assert (negb (list =? NULL)) in load_next (head_of list).

Definition list_next (elem : Z) : cmd heap Z :=
  let* c1 := is_head elem in
  let* c2 := if c1 : bool then mret true else is_interior elem in
  let* _ := assert c2 in
  load_next elem.

Definition list_end (list : Z) : cmd heap Z :=
  let* _ := assert (negb (list =? NULL)) in mret (tail_of list).

Definition list_rbegin (list : Z) : cmd heap Z :=
  let* _ := assert (negb (list =? NULL)) in load_prev (tail_of list).

Definition list_prev (elem : Z) : cmd heap Z :=
  let* c1 := is_interior elem in
  let* c2 := if c1 : bool then mret true else is_tail elem in
  let* _ := assert c2 in
  load_prev elem.

Definition list_rend (list : Z) : cmd heap Z :=
  let* _ := assert (negb (list =? NULL)) in mret (head_of list).

Definition list_head (list : Z) : cmd heap Z :=
  let* _ := assert (negb (list =? NULL)) in mret (head_of list).

Definition list_tail (list : Z) : cmd heap Z :=
  let* _ := assert (negb (list =? NULL)) in mret (tail_of list).

(** ASSERT (is_interior (before) || is_tail (before)) *)
Definition assert_position (before : Z) : cmd heap unit :=
  let* c1 := is_interior before in
  let* c2 := if c1 : bool then mret true else is_tail before in
  assert c2.

Definition list_insert (before elem : Z) : cmd heap unit :=
  let* _ := assert_position before in
  let* _ := assert (negb (elem =? NULL)) in
  let* bp := load_prev before in
  let* _ := store_prev elem bp in
  let* _ := store_next elem before in
  let* bp := load_prev before in
  let* _ := store_next bp elem in
  store_prev before elem.

Definition list_splice (before first last : Z) : cmd heap unit :=
  let* _ := assert_position before in
  if first =? last then mret () else
  let* last := list_prev last in
  let* c := is_interior first in
  let* _ := assert c in
  let* c := is_interior last in
  let* _ := assert c in
  (* Cleanly remove FIRST...LAST from its current list. *)
  let* fp := load_prev first in
  let* ln := load_next last in
  let* _ := store_next fp ln in
  let* ln := load_next last in
  let* fp := load_prev first in
  let* _ := store_prev ln fp in
  (* Splice FIRST...LAST into new list. *)
  let* bp := load_prev before in
  let* _ := store_prev first bp in
  let* _ := store_next last before in
  let* bp := load_prev before in
  let* _ := store_next bp first in
  store_prev before last.

Definition list_push_front (list elem : Z) : cmd heap unit :=
  let* b := list_begin list in list_insert b elem.

Definition list_push_back (list elem : Z) : cmd heap unit :=
  let* e := list_end list in list_insert e elem.

Definition list_remove (elem : Z) : cmd heap Z :=
  let* c := is_interior elem in
  let* _ := assert c in
  let* p := load_prev elem in
  let* n := load_next elem in
  let* _ := store_next p n in
  let* n := load_next elem in
  let* p := load_prev elem in
  let* _ := store_prev n p in
  load_next elem.

Definition list_empty (list : Z) : cmd heap bool :=
  let* b := list_begin list in
  let* e := list_end list in
  mret (b =? e).

Definition list_front (list : Z) : cmd heap Z :=
  let* c := list_empty list in
  let* _ := assert (negb c) in
  load_next (head_of list).

Definition list_back (list : Z) : cmd heap Z :=
  let* c := list_empty list in
  let* _ := assert (negb c) in
  load_prev (tail_of list).

Definition list_pop_front (list : Z) : cmd heap Z :=
  let* front := list_front list in
  let* _ := list_remove front in
  mret front.

Definition list_pop_back (list : Z) : cmd heap Z :=
  let* back := list_back list in
  let* _ := list_remove back in
  mret back.

Definition list_size (list : Z) : cmd heap Z :=
  let* h := get in
  let* e := list_begin list in
  let* r := cwhile (walk_fuel h)
    (λ '(e, _), let* en := list_end list in mret (negb (e =? en)))
    (λ '(e, cnt), let* e' := list_next e in mret (e', cnt + 1)) (e, 0) in
  mret (snd r).

(** swap (&e->prev, &e->next) *)
Definition swap_links (e : Z) : cmd heap unit :=
  let* p := load_prev e in
  let* n := load_next e in
  let* _ := store_prev e n in
  store_next e p.

(** The two exchanges after the loop of [list_reverse]:
    swap (&list->head.next, &list->tail.prev);
    swap (&list->head.next->prev, &list->tail.prev->next); *)
Definition exchange_ends (list : Z) : cmd heap unit :=
  let* hn := load_next (head_of list) in
  let* tp := load_prev (tail_of list) in
  let* _ := store_next (head_of list) tp in
  let* _ := store_prev (tail_of list) hn in
  let* hn := load_next (head_of list) in
  let* tp := load_prev (tail_of list) in
  let* x := load_prev hn in
  let* y := load_next tp in
  let* _ := store_prev hn y in
  store_next tp x.

Definition list_reverse (list : Z) : cmd heap unit :=
  let* c := list_empty list in
  if c : bool then mret () else
  let* h := get in
  let* e := list_begin list in
  let* _ := cwhile (walk_fuel h)
    (λ e, let* en := list_end list in mret (negb (e =? en)))
    (λ e, let* _ := swap_links e in load_prev e) e in
  exchange_ends list.

(** Operations on ordered lists take the caller's comparison, which reads the
    structures the elements are embedded in and not their links. *)
Section Ordered.
Variable less : Z → Z → bool.

Definition is_sorted (a b : Z) : cmd heap bool :=
  if a =? b then mret true else
  let* h := get in
  let* a := list_next a in
  let* r := cwhile (walk_fuel h)
    (λ '(a, ok), mret (ok && negb (a =? b)))
    (λ '(a, ok), let* p := list_prev a in
       if less a p then mret (a, false)
       else let* a' := list_next a in mret (a', true)) (a, true) in
  mret (snd r).

Definition find_end_of_run (a b : Z) : cmd heap Z :=
  let* _ := assert (negb (a =? NULL)) in
  let* _ := assert (negb (b =? NULL)) in
  let* _ := assert (negb (a =? b)) in
  let* h := get in
  let* a := list_next a in
  cwhile (walk_fuel h)
    (λ a, if a =? b then mret false
          else let* p := list_prev a in mret (negb (less a p)))
    list_next a.

Definition inplace_merge (a0 a1b0 b1 : Z) : cmd heap unit :=
  let* _ := assert (negb (a0 =? NULL)) in
  let* _ := assert (negb (a1b0 =? NULL)) in
  let* _ := assert (negb (b1 =? NULL)) in
  let* s := is_sorted a0 a1b0 in
  let* _ := assert s in
  let* s := is_sorted a1b0 b1 in
  let* _ := assert s in
  let* h := get in
  let* _ := cwhile (walk_fuel h)
    (λ '(a0, a1b0), mret (negb (a0 =? a1b0) && negb (a1b0 =? b1)))
    (λ '(a0, a1b0),
       if negb (less a1b0 a0) then let* a0' := list_next a0 in mret (a0', a1b0)
       else
         let* a1b0' := list_next a1b0 in
         let* p := list_prev a1b0' in
         let* _ := list_splice a0 p a1b0' in
         mret (a0, a1b0')) (a0, a1b0) in
  mret ().

(** One pass of [list_sort]: the state is the start of the next run and the
    number of runs output; [None] after the break. *)
Definition sort_pass (list : Z) : cmd heap Z :=
  let* h := get in
  let* a0 := list_begin list in
  let* en := list_end list in
  let* r := cwhile (walk_fuel h)
    (λ '(oa0, _), match oa0 with Some a0 => mret (negb (a0 =? en)) | None => mret false end)
    (λ '(oa0, cnt), match oa0 with
      | None => mret (None, cnt)
      | Some a0 =>
          let cnt := cnt + 1 in
          let* a1b0 := find_end_of_run a0 en in
          if a1b0 =? en then mret (None, cnt) else
          let* b1 := find_end_of_run a1b0 en in
          let* _ := inplace_merge a0 a1b0 b1 in
          mret (Some b1, cnt)
      end) (Some a0, 0) in
  mret (snd r).

Definition list_sort (list : Z) : cmd heap unit :=
  let* _ := assert (negb (list =? NULL)) in
  let* h := get in
  let* cnt := sort_pass list in
  let* _ := cwhile (walk_fuel h)
    (λ cnt, mret (1 <? cnt)) (λ _, sort_pass list) cnt in
  let* b := list_begin list in
  let* e := list_end list in
  let* s := is_sorted b e in
  assert s.

Definition list_insert_ordered (list elem : Z) : cmd heap unit :=
  let* _ := assert (negb (list =? NULL)) in
  let* _ := assert (negb (elem =? NULL)) in
  let* h := get in
  let* e := list_begin list in
  let* en := list_end list in
  let* e := cwhile (walk_fuel h)
    (λ e, mret (negb (e =? en) && negb (less elem e))) list_next e in
  list_insert e elem.

Definition list_unique (list duplicates : Z) : cmd heap unit :=
  let* _ := assert (negb (list =? NULL)) in
  let* c := list_empty list in
  if c : bool then mret () else
  let* h := get in
  let* elem := list_begin list in
  let* en := list_end list in
  let* _ := cwhile (walk_fuel h)
    (λ elem, let* nxt := list_next elem in mret (negb (nxt =? en)))
    (λ elem, let* nxt := list_next elem in
       if negb (less elem nxt) && negb (less nxt elem) then
         let* _ := list_remove nxt in
         let* _ := if negb (duplicates =? NULL) then list_push_back duplicates nxt
                   else mret () in
         mret elem
       else mret nxt) elem in
  mret ().

Definition list_max (list : Z) : cmd heap Z :=
  let* max := list_begin list in
  let* en := list_end list in
  if max =? en then mret max else
  let* h := get in
  let* e := list_next max in
  let* r := cwhile (walk_fuel h)
    (λ '(e, _), mret (negb (e =? en)))
    (λ '(e, max), let* e' := list_next e in mret (e', if less max e then e else max))
    (e, max) in
  mret (snd r).

Definition list_min (list : Z) : cmd heap Z :=
  let* min := list_begin list in
  let* en := list_end list in
  if min =? en then mret min else
  let* h := get in
  let* e := list_next min in
  let* r := cwhile (walk_fuel h)
    (λ '(e, _), mret (negb (e =? en)))
    (λ '(e, min), let* e' := list_next e in mret (e', if less e min then e else min))
    (e, min) in
  mret (snd r).
End Ordered.

(** ** Representation *)

Definition nxt (h : heap) (p : Z) : option Z := next <$> h !! p.
Definition prv (h : heap) (p : Z) : option Z := prev <$> h !! p.
Definition set_next (p v : Z) (h : heap) : heap := alter (λ e, Elem (prev e) v) p h.
Definition set_prev (p v : Z) (h : heap) : heap := alter (λ e, Elem v (next e)) p h.

Definition link (h : heap) (a b : Z) : Prop := nxt h a = Some b ∧ prv h b = Some a.

(** Consecutive nodes of [ns] point at each other. *)
Fixpoint linked (h : heap) (ns : list Z) : Prop :=
  match ns with
  | a :: ((b :: _) as r) => link h a b ∧ linked h r
  | _ => True
  end.

Definition nodes (l : Z) (xs : list Z) : list Z := head_of l :: xs ++ [tail_of l].

Record is_list (h : heap) (l : Z) (xs : list Z) : Prop := {
  il_linked : linked h (nodes l xs);
  il_head : prv h (head_of l) = Some NULL;
  il_tail : nxt h (tail_of l) = Some NULL;
  il_nodup : NoDup (nodes l xs);
  il_nonnull : NULL ∉ nodes l xs
}.

(** Only nodes of [ns] changed, and none was created or destroyed. *)
Definition only (ns : list Z) (h h' : heap) : Prop :=
  dom h' = dom h ∧ ∀ y, y ∉ ns → h' !! y = h !! y.

(** The position in front of [xs]: its first element, or the tail. *)
Definition pos (l : Z) (xs : list Z) : Z := hd (tail_of l) xs.

(** ** Loads and stores *)

Section Store.
Implicit Types h : heap.

Lemma nxt_is_Some h p v : nxt h p = Some v → is_Some (h !! p).
Proof. unfold nxt. destruct (h !! p); [eauto|done]. Qed.
Lemma prv_is_Some h p v : prv h p = Some v → is_Some (h !! p).
Proof. unfold prv. destruct (h !! p); [eauto|done]. Qed.

Lemma load_next_ok h p v : nxt h p = Some v → load_next p h = Ret (v, h).
Proof. unfold nxt, load_next. destruct (h !! p); naive_solver. Qed.
Lemma load_prev_ok h p v : prv h p = Some v → load_prev p h = Ret (v, h).
Proof. unfold prv, load_prev. destruct (h !! p); naive_solver. Qed.
Lemma store_next_ok h p v : is_Some (h !! p) → store_next p v h = Ret ((), set_next p v h).
Proof.
  intros [e He]. unfold store_next, set_next. rewrite He. do 2 f_equal.
  apply map_eq. intros q. rewrite lookup_insert, lookup_alter.
  case_decide; subst; [by rewrite He|done].
Qed.
Lemma store_prev_ok h p v : is_Some (h !! p) → store_prev p v h = Ret ((), set_prev p v h).
Proof.
  intros [e He]. unfold store_prev, set_prev. rewrite He. do 2 f_equal.
  apply map_eq. intros q. rewrite lookup_insert, lookup_alter.
  case_decide; subst; [by rewrite He|done].
Qed.

Lemma nxt_set_prev h p v q : nxt (set_prev p v h) q = nxt h q.
Proof.
  unfold nxt, set_prev. rewrite lookup_alter.
  case_decide; subst; [by destruct (h !! q)|done].
Qed.
Lemma prv_set_next h p v q : prv (set_next p v h) q = prv h q.
Proof.
  unfold prv, set_next. rewrite lookup_alter.
  case_decide; subst; [by destruct (h !! q)|done].
Qed.
Lemma nxt_set_next_ne h p v q : p ≠ q → nxt (set_next p v h) q = nxt h q.
Proof. intros. unfold nxt, set_next. by rewrite lookup_alter_ne. Qed.
Lemma prv_set_prev_ne h p v q : p ≠ q → prv (set_prev p v h) q = prv h q.
Proof. intros. unfold prv, set_prev. by rewrite lookup_alter_ne. Qed.
Lemma nxt_set_next_eq h p v : is_Some (h !! p) → nxt (set_next p v h) p = Some v.
Proof. intros [e He]. unfold nxt, set_next. by rewrite lookup_alter_eq, He. Qed.
Lemma prv_set_prev_eq h p v : is_Some (h !! p) → prv (set_prev p v h) p = Some v.
Proof. intros [e He]. unfold prv, set_prev. by rewrite lookup_alter_eq, He. Qed.
Lemma set_next_is_Some h p v q : is_Some (set_next p v h !! q) ↔ is_Some (h !! q).
Proof. unfold set_next. rewrite lookup_alter_is_Some. done. Qed.
Lemma set_prev_is_Some h p v q : is_Some (set_prev p v h !! q) ↔ is_Some (h !! q).
Proof. unfold set_prev. rewrite lookup_alter_is_Some. done. Qed.

Lemma linked_app h l1 a b l2 :
  linked h (l1 ++ a :: b :: l2) ↔ linked h (l1 ++ [a]) ∧ link h a b ∧ linked h (b :: l2).
Proof.
  induction l1 as [|x [|y l1] IH].
  - simpl. tauto.
  - change (link h x a ∧ linked h ([] ++ a :: b :: l2) ↔
      (link h x a ∧ True) ∧ link h a b ∧ linked h (b :: l2)).
    rewrite IH. simpl. tauto.
  - change (link h x y ∧ linked h ((y :: l1) ++ a :: b :: l2) ↔
      (link h x y ∧ linked h ((y :: l1) ++ [a])) ∧ link h a b ∧ linked h (b :: l2)).
    rewrite IH. tauto.
Qed.

Lemma linked_prefix h l1 l2 : linked h (l1 ++ l2) → linked h l1.
Proof.
  induction l1 as [|x l1 IH]; [done|]. destruct l1 as [|y l1]; [done|].
  simpl in *. naive_solver.
Qed.
Lemma linked_suffix h l1 l2 : linked h (l1 ++ l2) → linked h l2.
Proof.
  induction l1 as [|x l1 IH]; [done|]. intros H. apply IH.
  simpl in H. destruct (l1 ++ l2); [done|]. apply H.
Qed.

Lemma linked_set_next h z v ns :
  z ∉ ns → linked h ns → linked (set_next z v h) ns.
Proof.
  induction ns as [|a [|b r] IH]; intros Hz; [done..|].
  intros [[Hn Hp] Hl]. split; [|apply IH; [set_solver|done]].
  split; [rewrite nxt_set_next_ne by set_solver|rewrite prv_set_next]; done.
Qed.
Lemma linked_set_next_last h z v ns :
  z ∉ ns → linked h (ns ++ [z]) → linked (set_next z v h) (ns ++ [z]).
Proof.
  induction ns as [|a ns IH]; intros Hz; [done|].
  simpl. destruct (ns ++ [z]) as [|b r] eqn:E; [by destruct ns|].
  intros [[Hn Hp] Hl]. split; [|apply IH; [set_solver|done]].
  split; [rewrite nxt_set_next_ne by set_solver|rewrite prv_set_next]; done.
Qed.
Lemma linked_set_prev h z v ns :
  z ∉ ns → linked h ns → linked (set_prev z v h) ns.
Proof.
  induction ns as [|a [|b r] IH]; intros Hz; [done..|].
  intros [[Hn Hp] Hl]. split; [|apply IH; [set_solver|done]].
  split; [rewrite nxt_set_prev|rewrite prv_set_prev_ne by set_solver]; done.
Qed.
Lemma linked_set_prev_first h z v ns :
  z ∉ ns → linked h (z :: ns) → linked (set_prev z v h) (z :: ns).
Proof.
  destruct ns as [|b r]; intros Hz; [done|]. intros [[Hn Hp] Hl]. split.
  - split; [rewrite nxt_set_prev|rewrite prv_set_prev_ne by set_solver]; done.
  - by apply linked_set_prev.
Qed.

Lemma linked_frame h h' ns :
  (∀ y, y ∈ ns → h' !! y = h !! y) → linked h ns → linked h' ns.
Proof.
  induction ns as [|a [|b r] IH]; intros Hf; [done..|]. intros [[Hn Hp] Hl].
  split; [|apply IH; [set_solver|done]].
  unfold link, nxt, prv in *. rewrite !Hf by set_solver. done.
Qed.

Lemma only_refl ns h : only ns h h.
Proof. done. Qed.
Lemma only_trans ns ns' h1 h2 h3 : only ns h1 h2 → only ns' h2 h3 → only (ns ++ ns') h1 h3.
Proof.
  intros [Hd1 H1] [Hd2 H2]. split; [congruence|]. intros y Hy.
  rewrite H2, H1 by set_solver. done.
Qed.
Lemma only_mono ns ns' h1 h2 : ns ⊆ ns' → only ns h1 h2 → only ns' h1 h2.
Proof. intros Hsub [Hd H]. split; [done|]. intros y Hy. apply H. set_solver. Qed.
Lemma only_set_next ns p v h : p ∈ ns → only ns h (set_next p v h).
Proof.
  intros. split; [apply dom_alter_L|]. intros y Hy. apply lookup_alter_ne. set_solver.
Qed.
Lemma only_set_prev ns p v h : p ∈ ns → only ns h (set_prev p v h).
Proof.
  intros. split; [apply dom_alter_L|]. intros y Hy. apply lookup_alter_ne. set_solver.
Qed.
Lemma only_size ns h h' : only ns h h' → size h' = size h.
Proof. intros [Hd _]. by rewrite <-!size_dom, Hd. Qed.
Lemma only_is_Some ns h h' p : only ns h h' → is_Some (h' !! p) ↔ is_Some (h !! p).
Proof. intros [Hd _]. by rewrite <-!elem_of_dom, Hd. Qed.
End Store.

Ltac nodup :=
  repeat match goal with
  | H : NoDup (_ ++ _) |- _ => apply NoDup_app in H; destruct H as (? & ? & ?)
  | H : NoDup (_ :: _) |- _ => apply NoDup_cons in H; destruct H as (? & ?)
  end.

Lemma NoDup_mid (l1 l2 : list Z) x : NoDup (l1 ++ x :: l2) → x ∉ l1 ++ l2.
Proof. rewrite <-Permutation_middle, NoDup_cons. naive_solver. Qed.

Ltac not_in :=
  repeat match goal with
  | H : _ ∉ _ ++ _ |- _ => apply not_elem_of_app in H; destruct H
  | H : _ ∉ _ :: _ |- _ => apply not_elem_of_cons in H; destruct H
  | H : _ ∉ [] |- _ => clear H
  | |- _ ∉ _ ++ _ => apply not_elem_of_app; split
  | |- _ ∉ _ :: _ => apply not_elem_of_cons; split
  | |- _ ∉ [] => apply not_elem_of_nil
  end; try done.

Lemma insert_nodes h P p S S1 S2 f z b Q :
  S = f :: S1 → S = S2 ++ [z] → NoDup ((P ++ [p]) ++ S ++ b :: Q) →
  linked h (P ++ [p]) → linked h S → linked h (b :: Q) →
  is_Some (h !! p) → is_Some (h !! b) → is_Some (h !! f) → is_Some (h !! z) →
  linked (set_prev b z (set_next p f (set_next z b (set_prev f p h))))
    ((P ++ [p]) ++ S ++ b :: Q).
Proof.
  intros Hf Hz Hnd HP HS HQ Hpd Hbd Hfd Hzd.
  set (h' := set_prev _ _ _).
  assert (f ∈ S) as HfS by (rewrite Hf; set_solver).
  assert (z ∈ S) as HzS by (rewrite Hz; set_solver).
  assert (NoDup S) as HndS by (nodup; done).
  assert (p ∉ P ++ S ++ b :: Q) as Hnp by (apply NoDup_mid; by rewrite <-app_assoc in Hnd).
  assert (b ∉ ((P ++ [p]) ++ S) ++ Q) as Hnb by (apply NoDup_mid; by rewrite <-app_assoc).
  assert (f ∉ (P ++ [p]) ++ S1 ++ b :: Q) as Hnf by (apply NoDup_mid; by rewrite Hf in Hnd).
  assert (z ∉ ((P ++ [p]) ++ S2) ++ b :: Q) as Hnz.
  { apply NoDup_mid. rewrite Hz, <-!app_assoc in Hnd. by rewrite <-!app_assoc. }
  not_in.
  assert (linked h' (P ++ [p])) as HP'.
  { apply linked_set_prev; [by not_in|]. apply linked_set_next_last; [done|].
    apply linked_set_next; [by not_in|]. apply linked_set_prev; [by not_in|done]. }
  assert (linked h' S) as HS'.
  { apply linked_set_prev; [done|]. apply linked_set_next; [done|].
    assert (linked (set_prev f p h) S) as HS1.
    { rewrite Hf in *. apply linked_set_prev_first; [done|done]. }
    rewrite Hz in *. apply linked_set_next_last; [done|done]. }
  assert (linked h' (b :: Q)) as HQ'.
  { apply linked_set_prev_first; [done|]. apply linked_set_next; [by not_in|].
    apply linked_set_next; [by not_in|]. apply linked_set_prev; [by not_in|done]. }
  assert (link h' p f) as Hpf.
  { split; unfold h'.
    - rewrite nxt_set_prev. apply nxt_set_next_eq.
      by rewrite set_next_is_Some, set_prev_is_Some.
    - rewrite prv_set_prev_ne, prv_set_next, prv_set_next by done. by apply prv_set_prev_eq. }
  assert (link h' z b) as Hzb.
  { split; unfold h'.
    - rewrite nxt_set_prev, nxt_set_next_ne by done. apply nxt_set_next_eq.
      by rewrite set_prev_is_Some.
    - apply prv_set_prev_eq. by rewrite !set_next_is_Some, set_prev_is_Some. }
  assert (linked h' (S ++ b :: Q)) as HSQ.
  { rewrite Hz, <-app_assoc. apply linked_app. by rewrite <-Hz. }
  rewrite Hf in *. rewrite <-app_assoc. apply linked_app. done.
Qed.

Lemma remove_nodes h P p S S1 S2 f z b Q :
  S = f :: S1 → S = S2 ++ [z] → NoDup ((P ++ [p]) ++ S ++ b :: Q) →
  linked h ((P ++ [p]) ++ S ++ b :: Q) →
  link h p f ∧ link h z b ∧
  let h' := set_prev b p (set_next p b h) in
  linked h' ((P ++ [p]) ++ b :: Q) ∧ linked h' S.
Proof.
  intros Hf Hz Hnd Hl.
  assert (linked h (P ++ [p]) ∧ link h p f ∧ linked h S ∧ link h z b ∧ linked h (b :: Q))
    as (HP & Hpf & HS & Hzb & HQ).
  { rewrite <-app_assoc, Hf in Hl. simpl in Hl. apply linked_app in Hl as (HP & Hpf & Hl).
    split; [done|]. split; [done|].
    rewrite app_comm_cons, <-Hf, Hz, <-app_assoc in Hl. simpl in Hl.
    apply linked_app in Hl as (HS & Hzb & HQ). rewrite Hz. done. }
  split; [done|]. split; [done|]. intros h'.
  assert (p ∉ P ++ S ++ b :: Q) as Hnp by (apply NoDup_mid; by rewrite <-app_assoc in Hnd).
  assert (b ∉ ((P ++ [p]) ++ S) ++ Q) as Hnb by (apply NoDup_mid; by rewrite <-app_assoc).
  not_in.
  destruct Hpf as [Hpf1 Hpf2], Hzb as [Hzb1 Hzb2].
  split.
  - rewrite <-app_assoc. apply linked_app. split; [|split].
    + apply linked_set_prev; [by not_in|]. by apply linked_set_next_last.
    + split; unfold h'.
      * rewrite nxt_set_prev. apply nxt_set_next_eq. by eapply nxt_is_Some.
      * apply prv_set_prev_eq. rewrite set_next_is_Some. by eapply prv_is_Some.
    + apply linked_set_prev_first; [done|]. apply linked_set_next; [by not_in|done].
  - apply linked_set_prev; [done|]. by apply linked_set_next.
Qed.

(** ** Nodes of a list *)

Definition pred_of (l : Z) (xs : list Z) : Z := default (head_of l) (last xs).

Lemma nodes_left l A : ∃ P, head_of l :: A = P ++ [pred_of l A].
Proof.
  unfold pred_of. destruct A as [|a A _] using rev_ind; [by exists []|].
  exists (head_of l :: A). by rewrite last_snoc.
Qed.
Lemma nodes_right l B : ∃ Q, B ++ [tail_of l] = pos l B :: Q.
Proof. destruct B as [|b B]; [by exists []|]. by exists (B ++ [tail_of l]). Qed.
Lemma nodes_app l A B : nodes l (A ++ B) = (head_of l :: A) ++ (B ++ [tail_of l]).
Proof. unfold nodes. simpl. by rewrite <-app_assoc. Qed.

Lemma is_list_link h l A B : is_list h l (A ++ B) → link h (pred_of l A) (pos l B).
Proof.
  intros Hl. pose proof (il_linked _ _ _ Hl) as Hk. rewrite nodes_app in Hk.
  destruct (nodes_left l A) as [P HP], (nodes_right l B) as [Q HQ].
  rewrite HP, HQ, <-app_assoc in Hk. simpl in Hk. apply linked_app in Hk. tauto.
Qed.

Lemma is_list_nonnull h l xs y : is_list h l xs → y ∈ nodes l xs → (y =? NULL) = false.
Proof.
  intros Hl Hy. apply Z.eqb_neq. intros ->. by destruct (il_nonnull _ _ _ Hl).
Qed.

Lemma pred_in_nodes l A B : pred_of l A ∈ nodes l (A ++ B).
Proof.
  rewrite nodes_app. destruct (nodes_left l A) as [P ->].
  rewrite !elem_of_app. left. right. apply list_elem_of_singleton. done.
Qed.
Lemma pos_in_nodes l A B : pos l B ∈ nodes l (A ++ B).
Proof.
  rewrite nodes_app. destruct (nodes_right l B) as [Q ->].
  rewrite elem_of_app. right. apply list_elem_of_here.
Qed.

Lemma pos_not_head l A B : NoDup (nodes l (A ++ B)) → pos l B ≠ head_of l.
Proof.
  unfold nodes. intros [Hn _]%NoDup_cons Heq. apply Hn. rewrite <-Heq.
  destruct B; simpl; set_solver.
Qed.

Lemma head_is_list_next h l xs : is_list h l xs → nxt h (head_of l) = Some (pos l xs).
Proof. intros Hl. apply (is_list_link h l [] xs Hl). Qed.
Lemma tail_is_list_prev h l xs : is_list h l xs → prv h (tail_of l) = Some (pred_of l xs).
Proof. intros Hl. apply (is_list_link h l xs []). by rewrite app_nil_r. Qed.

Lemma is_list_in_dom h l xs y : is_list h l xs → y ∈ nodes l xs → is_Some (h !! y).
Proof.
  intros Hl Hy. unfold nodes in Hy. apply elem_of_cons in Hy as [->|Hy].
  { eapply nxt_is_Some, head_is_list_next, Hl. }
  apply elem_of_app in Hy as [Hy|Hy%list_elem_of_singleton].
  - apply list_elem_of_split in Hy as (A & B & ->).
    eapply prv_is_Some, (is_list_link h l A (y :: B)), Hl.
  - subst. eapply prv_is_Some, tail_is_list_prev, Hl.
Qed.

Lemma is_list_length h l xs : is_list h l xs → (length xs < size h)%nat.
Proof.
  intros Hl.
  assert (list_to_set (nodes l xs) ⊆ dom h) as Hsub.
  { intros y Hy%elem_of_list_to_set. apply elem_of_dom. by eapply is_list_in_dom. }
  apply subseteq_size in Hsub.
  rewrite size_list_to_set, size_dom in Hsub by apply Hl. unfold nodes in Hsub. simpl in Hsub.
  rewrite length_app in Hsub. simpl in Hsub. lia.
Qed.

Lemma is_list_frame h h' l xs :
  (∀ y, y ∈ nodes l xs → h' !! y = h !! y) → is_list h l xs → is_list h' l xs.
Proof.
  intros Hf Hl. split.
  - eapply linked_frame; [done|apply Hl].
  - unfold prv. rewrite Hf; [apply Hl|unfold nodes; set_solver].
  - unfold nxt. rewrite Hf; [apply Hl|unfold nodes; set_solver].
  - apply Hl.
  - apply Hl.
Qed.

(** ** Tests and moves *)

Section Moves.
Context (h : heap) (l : Z).

Lemma interior_ok A y B : is_list h l (A ++ y :: B) → is_interior y h = Ret (true, h).
Proof.
  intros Hl. pose proof (is_list_link _ _ A (y :: B) Hl) as [_ Hp].
  rewrite cons_middle, app_assoc in Hl.
  pose proof (is_list_link _ _ _ B Hl) as [Hn _]. unfold pred_of in Hn.
  rewrite last_snoc in Hn. simpl in Hn, Hp. rewrite <-app_assoc in Hl. simpl in Hl.
  unfold is_interior.
  rewrite (is_list_nonnull _ _ _ y Hl) by (unfold nodes; set_solver).
  cmd_step (load_prev_ok _ _ _ Hp).
  rewrite (is_list_nonnull _ _ _ (pred_of l A) Hl) by apply pred_in_nodes.
  cmd_step (load_next_ok _ _ _ Hn).
  rewrite (is_list_nonnull _ _ _ (pos l B) Hl); [done|].
  rewrite cons_middle, app_assoc. apply pos_in_nodes.
Qed.

Lemma tail_ok xs : is_list h l xs → is_tail (tail_of l) h = Ret (true, h).
Proof.
  intros Hl. pose proof (tail_is_list_prev _ _ _ Hl) as Hp. unfold is_tail.
  rewrite (is_list_nonnull _ _ _ (tail_of l) Hl) by (unfold nodes; set_solver).
  cmd_step (load_prev_ok _ _ _ Hp).
  rewrite (is_list_nonnull h l xs (pred_of l xs) Hl).
  2: { rewrite <-(app_nil_r xs) at 2. apply pred_in_nodes. }
  cmd_step (load_next_ok _ _ _ (il_tail _ _ _ Hl)). done.
Qed.

Lemma tail_not_interior xs : is_list h l xs → is_interior (tail_of l) h = Ret (false, h).
Proof.
  intros Hl. pose proof (tail_is_list_prev _ _ _ Hl) as Hp. unfold is_interior.
  rewrite (is_list_nonnull _ _ _ (tail_of l) Hl) by (unfold nodes; set_solver).
  cmd_step (load_prev_ok _ _ _ Hp).
  rewrite (is_list_nonnull h l xs (pred_of l xs) Hl).
  2: { rewrite <-(app_nil_r xs) at 2. apply pred_in_nodes. }
  cmd_step (load_next_ok _ _ _ (il_tail _ _ _ Hl)). done.
Qed.

Lemma head_ok xs : is_list h l xs → is_head (head_of l) h = Ret (true, h).
Proof.
  intros Hl. unfold is_head.
  rewrite (is_list_nonnull _ _ _ (head_of l) Hl) by (unfold nodes; set_solver).
  cmd_step (load_prev_ok _ _ _ (il_head _ _ _ Hl)). simpl.
  cmd_step (load_next_ok _ _ _ (head_is_list_next _ _ _ Hl)).
  rewrite (is_list_nonnull _ _ _ (pos l xs) Hl); [done|]. apply (pos_in_nodes l []).
Qed.

Lemma interior_not_head A y B : is_list h l (A ++ y :: B) → is_head y h = Ret (false, h).
Proof.
  intros Hl. pose proof (is_list_link _ _ A (y :: B) Hl) as [_ Hp]. unfold is_head.
  rewrite (is_list_nonnull _ _ _ y Hl) by (unfold nodes; set_solver).
  cmd_step (load_prev_ok _ _ _ Hp).
  rewrite (is_list_nonnull _ _ _ (pred_of l A) Hl) by apply pred_in_nodes. done.
Qed.

Lemma assert_position_ok A B : is_list h l (A ++ B) → assert_position (pos l B) h = Ret ((), h).
Proof.
  intros Hl. unfold assert_position. destruct B as [|b B].
  - simpl. cmd_step (tail_not_interior _ Hl). cmd_step (tail_ok _ Hl). done.
  - simpl. cmd_step (interior_ok _ _ _ Hl). done.
Qed.

Lemma list_next_ok A y B : is_list h l (A ++ y :: B) → list_next y h = Ret (pos l B, h).
Proof.
  intros Hl. unfold list_next. cmd_step (interior_not_head _ _ _ Hl).
  cmd_step (interior_ok _ _ _ Hl). cmd_step (assert_ok true h eq_refl).
  rewrite cons_middle, app_assoc in Hl. pose proof (is_list_link _ _ _ B Hl) as [Hn _].
  unfold pred_of in Hn. rewrite last_snoc in Hn. by apply load_next_ok.
Qed.

Lemma list_next_head_ok xs : is_list h l xs → list_next (head_of l) h = Ret (pos l xs, h).
Proof.
  intros Hl. unfold list_next. cmd_step (head_ok _ Hl). cmd_step (assert_ok true h eq_refl).
  apply load_next_ok. by apply head_is_list_next.
Qed.

Lemma list_prev_ok A B : is_list h l (A ++ B) → list_prev (pos l B) h = Ret (pred_of l A, h).
Proof.
  intros Hl. unfold list_prev. pose proof (is_list_link _ _ A B Hl) as [_ Hp].
  destruct B as [|b B]; simpl in *.
  - cmd_step (tail_not_interior _ Hl). cmd_step (tail_ok _ Hl).
    cmd_step (assert_ok true h eq_refl). by apply load_prev_ok.
  - cmd_step (interior_ok _ _ _ Hl). cmd_step (assert_ok true h eq_refl). by apply load_prev_ok.
Qed.

Lemma list_begin_ok xs : is_list h l xs → list_begin l h = Ret (pos l xs, h).
Proof.
  intros Hl. unfold list_begin.
  rewrite (is_list_nonnull _ _ _ l Hl) by (unfold nodes, head_of; set_solver).
  cmd_step (assert_ok true h eq_refl). apply load_next_ok. by apply head_is_list_next.
Qed.

Lemma list_end_ok xs : is_list h l xs → list_end l h = Ret (tail_of l, h).
Proof.
  intros Hl. unfold list_end.
  rewrite (is_list_nonnull _ _ _ l Hl) by (unfold nodes, head_of; set_solver). done.
Qed.

Lemma pos_eq_tail A B : NoDup (nodes l (A ++ B)) →
  (pos l B =? tail_of l) = match B with [] => true | _ => false end.
Proof.
  intros Hnd. destruct B as [|b B]; simpl; [apply Z.eqb_refl|].
  apply Z.eqb_neq. intros ->. rewrite nodes_app in Hnd. simpl in Hnd.
  rewrite NoDup_cons, NoDup_app, NoDup_cons in Hnd.
  destruct Hnd as (_ & _ & _ & Hn & _). apply Hn. set_solver.
Qed.

Lemma list_empty_ok xs : is_list h l xs →
  list_empty l h = Ret (match xs with [] => true | _ => false end, h).
Proof.
  intros Hl. unfold list_empty. cmd_step (list_begin_ok _ Hl). cmd_step (list_end_ok _ Hl).
  unfold mret, cmd_ret. rewrite (pos_eq_tail [] xs); [done|apply Hl].
Qed.
End Moves.

(** ** Linking a segment in and out *)

Definition link_in (p b f z : Z) (h : heap) : heap :=
  set_prev b z (set_next p f (set_next z b (set_prev f p h))).
Definition link_out (p b : Z) (h : heap) : heap := set_prev b p (set_next p b h).

Lemma only_link_in ns p b f z h :
  p ∈ ns → b ∈ ns → f ∈ ns → z ∈ ns → only ns h (link_in p b f z h).
Proof.
  intros. unfold link_in. apply (only_mono (ns ++ ns ++ ns ++ ns)); [set_solver|].
  apply (only_trans _ _ _ (set_prev f p h)); [by apply only_set_prev|].
  apply (only_trans _ _ _ (set_next z b (set_prev f p h))); [by apply only_set_next|].
  eapply only_trans; [|by apply only_set_prev]. by apply only_set_next.
Qed.
Lemma only_link_out ns p b h : p ∈ ns → b ∈ ns → only ns h (link_out p b h).
Proof.
  intros. unfold link_out. apply (only_mono (ns ++ ns)); [set_solver|].
  eapply only_trans; [|by apply only_set_prev]. by apply only_set_next.
Qed.

Lemma link_out_prv p b h q : q ≠ b → prv (link_out p b h) q = prv h q.
Proof. intros. unfold link_out. by rewrite prv_set_prev_ne, prv_set_next by done. Qed.
Lemma link_out_nxt p b h q : q ≠ p → nxt (link_out p b h) q = nxt h q.
Proof. intros. unfold link_out. by rewrite nxt_set_prev, nxt_set_next_ne by done. Qed.
Lemma link_in_prv p b f z h q : q ≠ b → q ≠ f → prv (link_in p b f z h) q = prv h q.
Proof.
  intros. unfold link_in. by rewrite prv_set_prev_ne, !prv_set_next, prv_set_prev_ne by done.
Qed.
Lemma link_in_nxt p b f z h q : q ≠ p → q ≠ z → nxt (link_in p b f z h) q = nxt h q.
Proof.
  intros. unfold link_in. by rewrite nxt_set_prev, !nxt_set_next_ne, nxt_set_prev by done.
Qed.

Section Segments.
Context (h : heap) (l : Z) (A B S S1 S2 : list Z) (f z : Z).
Hypothesis HSf : S = f :: S1.
Hypothesis HSz : S = S2 ++ [z].

Lemma pred_not_tail : NoDup (nodes l (A ++ B)) → pred_of l A ≠ tail_of l.
Proof.
  rewrite nodes_app. destruct (nodes_left l A) as [P ->].
  intros (_ & Hd & _)%NoDup_app He. apply (Hd (pred_of l A)).
  - apply elem_of_app. right. by apply list_elem_of_singleton.
  - rewrite He. set_solver.
Qed.

Lemma is_list_link_in : is_list h l (A ++ B) → linked h S → NoDup S →
  (∀ y, y ∈ S → y ∉ nodes l (A ++ B) ∧ y ≠ NULL ∧ is_Some (h !! y)) →
  is_list (link_in (pred_of l A) (pos l B) f z h) l (A ++ S ++ B).
Proof.
  intros Hl HS Hnd Hfresh.
  assert (f ∈ S) as HfS by (rewrite HSf; set_solver).
  assert (z ∈ S) as HzS by (rewrite HSz; set_solver).
  pose proof (il_nodup _ _ _ Hl) as HN.
  pose proof (pos_not_head l A B HN) as Hph. pose proof (pred_not_tail HN) as Hpt.
  assert (NoDup (nodes l (A ++ S ++ B))) as HN'.
  { rewrite nodes_app, <-app_assoc. rewrite nodes_app in HN.
    rewrite Permutation_app_swap_app. apply NoDup_app.
    split; [done|]. split; [|done]. intros y Hy. rewrite <-nodes_app. by apply Hfresh. }
  pose proof (is_list_in_dom _ _ _ _ Hl (pred_in_nodes l A B)) as Hpd.
  pose proof (is_list_in_dom _ _ _ _ Hl (pos_in_nodes l A B)) as Hbd.
  assert (head_of l ∈ nodes l (A ++ B) ∧ tail_of l ∈ nodes l (A ++ B)) as [Hhn Htn].
  { unfold nodes. set_solver. }
  assert (f ≠ head_of l ∧ z ≠ tail_of l) as [Hfh Hzt].
  { split; intros Heq.
    - apply (proj1 (Hfresh f HfS)). by rewrite Heq.
    - apply (proj1 (Hfresh z HzS)). by rewrite Heq. }
  split.
  - pose proof (il_linked _ _ _ Hl) as Hk. rewrite nodes_app in *.
    rewrite <-app_assoc in *. unfold pred_of, pos in *.
    fold (pred_of l A) in *. fold (pos l B) in *.
    destruct (nodes_left l A) as [P HP], (nodes_right l B) as [Q HQ].
    rewrite HP, HQ in *.
    eapply insert_nodes; [exact HSf|exact HSz|done| |done| |done|done|..].
    + by eapply linked_prefix.
    + by eapply linked_suffix.
    + by apply Hfresh.
    + by apply Hfresh.
  - rewrite link_in_prv by done. apply Hl.
  - rewrite link_in_nxt by done. apply Hl.
  - done.
  - pose proof (il_nonnull _ _ _ Hl) as Hn. rewrite nodes_app in *.
    rewrite <-app_assoc. not_in. intros Hy%Hfresh. tauto.
Qed.

Lemma is_list_link_out : is_list h l (A ++ S ++ B) →
  link h (pred_of l A) f ∧ link h z (pos l B) ∧
  is_list (link_out (pred_of l A) (pos l B) h) l (A ++ B) ∧
  linked (link_out (pred_of l A) (pos l B) h) S.
Proof.
  intros Hl. pose proof (il_nodup _ _ _ Hl) as HN.
  assert (NoDup (nodes l (A ++ B))) as HN'.
  { rewrite nodes_app in *. rewrite <-app_assoc, Permutation_app_swap_app in HN.
    apply NoDup_app in HN as (_ & _ & HN). done. }
  pose proof (pos_not_head l A B HN') as Hph. pose proof (pred_not_tail HN') as Hpt.
  pose proof (il_linked _ _ _ Hl) as Hk.
  assert (linked h ((head_of l :: A) ++ S ++ B ++ [tail_of l])) as Hk2.
  { rewrite nodes_app, <-app_assoc in Hk. done. }
  assert (NoDup ((head_of l :: A) ++ S ++ B ++ [tail_of l])) as HN2.
  { rewrite nodes_app, <-app_assoc in HN. done. }
  destruct (nodes_left l A) as [P HP], (nodes_right l B) as [Q HQ].
  rewrite HP, HQ in Hk2, HN2.
  destruct (remove_nodes h P (pred_of l A) S S1 S2 f z (pos l B) Q) as (H1 & H2 & H3 & H4);
    [done..|].
  split; [done|]. split; [done|]. split; [|done]. split.
  - rewrite nodes_app, HP, HQ. done.
  - rewrite link_out_prv by done. apply Hl.
  - rewrite link_out_nxt by done. apply Hl.
  - done.
  - pose proof (il_nonnull _ _ _ Hl) as Hn. rewrite nodes_app in *.
    rewrite <-app_assoc in Hn. by not_in.
Qed.
End Segments.

Lemma list_insert_ok h l A B e :
  is_list h l (A ++ B) → e ∉ nodes l (A ++ B) → e ≠ NULL → is_Some (h !! e) →
  ∃ h', list_insert (pos l B) e h = Ret ((), h') ∧ is_list h' l (A ++ e :: B) ∧
    only (e :: nodes l (A ++ B)) h h'.
Proof.
  intros Hl He Hn Hd. exists (link_in (pred_of l A) (pos l B) e e h).
  pose proof (is_list_link _ _ A B Hl) as [Hnx Hpv].
  pose proof (pred_in_nodes l A B) as Hpi. pose proof (pos_in_nodes l A B) as Hbi.
  split; [|split].
  - unfold list_insert. cmd_step (assert_position_ok _ _ _ _ Hl).
    apply Z.eqb_neq in Hn. rewrite Hn. cmd_step (assert_ok true h eq_refl).
    cmd_step (load_prev_ok _ _ _ Hpv). cmd_step (store_prev_ok h e _ Hd).
    erewrite cstep; [|apply store_next_ok; by rewrite set_prev_is_Some]. cbv beta.
    erewrite cstep.
    2: { apply load_prev_ok. rewrite prv_set_next, prv_set_prev_ne; [done|congruence]. }
    erewrite cstep.
    2: { apply store_next_ok. rewrite set_next_is_Some, set_prev_is_Some. by eapply nxt_is_Some. }
    apply store_prev_ok. rewrite !set_next_is_Some, set_prev_is_Some. by eapply prv_is_Some.
  - apply (is_list_link_in h l A B [e] [] [] e e); try done.
    + apply NoDup_singleton.
    + intros y ->%list_elem_of_singleton. done.
  - apply only_link_in; set_solver.
Qed.

Lemma list_remove_ok h l A e B :
  is_list h l (A ++ e :: B) →
  ∃ h', list_remove e h = Ret (pos l B, h') ∧ is_list h' l (A ++ B) ∧
    only (nodes l (A ++ B)) h h'.
Proof.
  intros Hl. exists (link_out (pred_of l A) (pos l B) h).
  destruct (is_list_link_out h l A B [e] [] [] e e) as ([Hn1 Hp1] & [Hn2 Hp2] & Hl' & _); [done..|].
  pose proof (pred_in_nodes l A B) as Hpi. pose proof (pos_in_nodes l A B) as Hbi.
  assert (e ∉ nodes l (A ++ B)) as He.
  { pose proof (il_nodup _ _ _ Hl) as HN. rewrite nodes_app in HN. rewrite nodes_app.
    by apply NoDup_mid in HN. }
  split; [|split; [done|by apply only_link_out]].
  unfold list_remove. cmd_step (interior_ok _ _ _ _ _ Hl).
  cmd_step (assert_ok true h eq_refl). cmd_step (load_prev_ok _ _ _ Hp1).
  cmd_step (load_next_ok _ _ _ Hn2).
  cmd_step (store_next_ok h (pred_of l A) (pos l B) (nxt_is_Some _ _ _ Hn1)).
  rewrite (cstep (load_next e) _ _ (pos l B) (set_next (pred_of l A) (pos l B) h)).
  2: { apply load_next_ok. rewrite nxt_set_next_ne; [done|congruence]. }
  rewrite (cstep (load_prev e) _ _ (pred_of l A) (set_next (pred_of l A) (pos l B) h)).
  2: { apply load_prev_ok. by rewrite prv_set_next. }
  erewrite cstep.
  2: { apply store_prev_ok. rewrite set_next_is_Some. by eapply prv_is_Some. }
  apply load_next_ok. rewrite link_out_nxt; [done|congruence].
Qed.

(** ** Splicing *)

(** Membership in concatenations of nodes. *)
Ltac in_list :=
  unfold nodes; repeat progress rewrite ?elem_of_app, ?elem_of_cons, ?elem_of_nil; tauto.

Lemma pred_of_snoc l A z : pred_of l (A ++ [z]) = z.
Proof. unfold pred_of. by rewrite last_snoc. Qed.

Lemma splice_ok h l1 A S S1 S2 f z B l2 C D :
  S = f :: S1 → S = S2 ++ [z] →
  is_list h l1 (A ++ S ++ B) →
  assert_position (pos l2 D) h = Ret ((), h) →
  is_list (link_out (pred_of l1 A) (pos l1 B) h) l2 (C ++ D) →
  (∀ y, y ∈ S → y ∉ nodes l2 (C ++ D)) →
  ∃ h', list_splice (pos l2 D) f (pos l1 B) h = Ret ((), h') ∧
    is_list h' l2 (C ++ S ++ D) ∧
    only (nodes l1 (A ++ S ++ B) ++ nodes l2 (C ++ D)) h h' ∧
    only (S ++ nodes l2 (C ++ D)) (link_out (pred_of l1 A) (pos l1 B) h) h'.
Proof.
  intros HSf HSz Hl Hpos Hl2 Hdisj.
  destruct (is_list_link_out h l1 A B S S1 S2 f z) as ([Hn1 Hp1] & [Hn2 Hp2] & Hl1 & HS);
    [done..|].
  set (h1 := link_out (pred_of l1 A) (pos l1 B) h) in *.
  assert (f ∈ S) as HfS by (rewrite HSf; apply list_elem_of_here).
  assert (z ∈ S) as HzS by (rewrite HSz; apply elem_of_app; right; apply list_elem_of_here).
  assert (NoDup S ∧ ∀ y, y ∈ S → y ∉ nodes l1 (A ++ B)) as [HndS Hout].
  { pose proof (il_nodup _ _ _ Hl) as HN. rewrite nodes_app in HN. rewrite nodes_app.
    rewrite <-app_assoc, Permutation_app_swap_app in HN.
    apply NoDup_app in HN as (? & Hd & _). done. }
  pose proof (pred_in_nodes l1 A B) as Hpi. pose proof (pos_in_nodes l1 A B) as Hbi.
  pose proof (pred_in_nodes l2 C D) as Hpi2. pose proof (pos_in_nodes l2 C D) as Hbi2.
  assert (f ≠ pos l1 B) as Hfb by (intros ->; by apply (Hout (pos l1 B))).
  assert (z ≠ pred_of l1 A) as Hzp by (intros ->; by apply (Hout (pred_of l1 A))).
  assert (f ≠ pos l2 D) as Hfd by (intros ->; by apply (Hdisj (pos l2 D))).
  assert (only (nodes l1 (A ++ B)) h h1) as Ho1 by (by apply only_link_out).
  assert (∀ y, y ∈ S → is_Some (h !! y)) as Hsd.
  { intros y Hy. apply (is_list_in_dom _ _ _ y Hl). rewrite nodes_app, !elem_of_app. tauto. }
  assert (only (S ++ nodes l2 (C ++ D)) h1 (link_in (pred_of l2 C) (pos l2 D) f z h1)) as Ho2.
  { apply only_link_in; rewrite elem_of_app; tauto. }
  exists (link_in (pred_of l2 C) (pos l2 D) f z h1). split; [|split; [|split; [|done]]].
  - unfold list_splice. cmd_step Hpos. apply Z.eqb_neq in Hfb. rewrite Hfb.
    assert (list_prev (pos l1 B) h = Ret (z, h)) as Hpz.
    { rewrite (list_prev_ok h l1 (A ++ S) B) by (by rewrite <-app_assoc).
      by rewrite HSz, app_assoc, pred_of_snoc. }
    cmd_step Hpz.
    assert (is_interior f h = Ret (true, h)) as Hif.
    { rewrite HSf in Hl. by apply interior_ok in Hl. }
    assert (is_interior z h = Ret (true, h)) as Hiz.
    { rewrite HSz, <-app_assoc, app_assoc in Hl. by apply interior_ok in Hl. }
    cmd_step Hif. cmd_step (assert_ok true h eq_refl).
    cmd_step Hiz. cmd_step (assert_ok true h eq_refl).
    cmd_step (load_prev_ok _ _ _ Hp1). cmd_step (load_next_ok _ _ _ Hn2).
    cmd_step (store_next_ok h (pred_of l1 A) (pos l1 B) (nxt_is_Some _ _ _ Hn1)).
    erewrite cstep.
    2: { apply load_next_ok. rewrite nxt_set_next_ne; [done|congruence]. }
    erewrite cstep. 2: { apply load_prev_ok. by rewrite prv_set_next. }
    rewrite (cstep (store_prev _ _) _ _ () h1).
    2: { apply store_prev_ok. rewrite set_next_is_Some. by eapply prv_is_Some. }
    pose proof (is_list_link _ _ C D Hl2) as [Hn3 Hp3].
    cmd_step (load_prev_ok _ _ _ Hp3).
    erewrite cstep; [|apply store_prev_ok; apply (only_is_Some _ _ _ _ Ho1); by apply Hsd].
    cbv beta.
    erewrite cstep.
    2: { apply store_next_ok. rewrite set_prev_is_Some.
         apply (only_is_Some _ _ _ _ Ho1). by apply Hsd. }
    erewrite cstep.
    2: { apply load_prev_ok. rewrite prv_set_next, prv_set_prev_ne; [done|congruence]. }
    erewrite cstep.
    2: { apply store_next_ok. rewrite set_next_is_Some, set_prev_is_Some.
         by eapply nxt_is_Some. }
    apply store_prev_ok. rewrite !set_next_is_Some, set_prev_is_Some. by eapply prv_is_Some.
  - apply (is_list_link_in h1 l2 C D S S1 S2); try done.
    intros y Hy. split; [by apply Hdisj|]. split.
    + intros ->. apply (il_nonnull _ _ _ Hl). rewrite nodes_app, !elem_of_app. tauto.
    + apply (only_is_Some _ _ _ _ Ho1). by apply Hsd.
  - assert (∀ y, y ∈ S → y ∈ nodes l1 (A ++ S ++ B)) as Hin.
    { intros y Hy. rewrite nodes_app, !elem_of_app. tauto. }
    eapply (only_mono (nodes l1 (A ++ B) ++ (S ++ nodes l2 (C ++ D)))).
    { intros y. rewrite !nodes_app, !elem_of_app. tauto. }
    by eapply only_trans.
Qed.

(** Moving one element back within its list, as [inplace_merge] does. *)
Lemma splice_back_ok h l A x X y B :
  is_list h l (A ++ (x :: X) ++ y :: B) →
  ∃ h', list_splice x y (pos l B) h = Ret ((), h') ∧
    is_list h' l (A ++ y :: (x :: X) ++ B) ∧ only (nodes l (A ++ (x :: X) ++ y :: B)) h h'.
Proof.
  intros Hl.
  assert (is_list h l ((A ++ (x :: X)) ++ [y] ++ B)) as Hl1 by (by rewrite <-app_assoc).
  destruct (is_list_link_out h l (A ++ x :: X) B [y] [] [] y y) as (_ & _ & Hl2 & _); [done..|].
  rewrite <-app_assoc in Hl2.
  assert (y ∉ nodes l (A ++ (x :: X) ++ B)) as Hy.
  { pose proof (il_nodup _ _ _ Hl1) as HN. rewrite nodes_app in HN.
    apply NoDup_mid in HN. rewrite app_assoc, nodes_app. done. }
  destruct (splice_ok h l (A ++ x :: X) [y] [] [] y y B l A ((x :: X) ++ B))
    as (h' & Hs & Hl' & Ho & _); try done.
  - apply (assert_position_ok h l A ((x :: X) ++ y :: B) Hl).
  - intros w ->%list_elem_of_singleton. done.
  - exists h'. split; [done|]. split; [done|]. eapply only_mono; [|done].
    intros w. in_list.
Qed.

(** ** Walks *)

Lemma pos_eq_pos l A X B : NoDup (nodes l (A ++ X ++ B)) →
  (pos l (X ++ B) =? pos l B) = match X with [] => true | _ => false end.
Proof.
  intros Hnd. destruct X as [|x X]; [apply Z.eqb_refl|]. apply Z.eqb_neq. intros Heq.
  simpl in Heq. pose proof (pos_in_nodes l (A ++ X) B) as Hin. rewrite <-Heq in Hin.
  rewrite nodes_app in Hnd. apply NoDup_mid in Hnd. apply Hnd.
  revert Hin. in_list.
Qed.

(** Steps through the loops below follow the elements that are left. *)
Section Walks.
Context (less : Z → Z → bool) (h : heap) (l : Z).

Lemma list_size_ok xs : is_list h l xs → list_size l h = Ret (zlength xs, h).
Proof.
  intros Hl. unfold list_size. cmd_step (eq_refl : get h = Ret (h, h)).
  cmd_step (list_begin_ok _ _ _ Hl).
  assert (∀ B A c fuel, xs = A ++ B → (length B < fuel)%nat →
    cwhile fuel
    (λ '(e, _), let* en := list_end l in mret (negb (e =? en)))
    (λ '(e, cnt), let* e' := list_next e in mret (e', cnt + 1)) (pos l B, c) h
    = Ret ((tail_of l, c + zlength B), h)) as Hloop.
  { induction B as [|b B IH]; intros A c fuel -> Hf; (destruct fuel; [simpl in Hf; lia|]); simpl cwhile.
    - erewrite cstep; [|cmd_step (list_end_ok _ _ _ Hl); reflexivity]. simpl.
      rewrite Z.eqb_refl. simpl. unfold mret, cmd_ret. do 3 f_equal. simpl. lia.
    - erewrite cstep; [|cmd_step (list_end_ok _ _ _ Hl); reflexivity].
      pose proof (pos_eq_tail l A (b :: B) (il_nodup _ _ _ Hl)) as Hb. simpl in Hb |- *.
      rewrite Hb. simpl.
      erewrite cstep; [|cmd_step (list_next_ok _ _ _ _ _ Hl); reflexivity]. cbv beta.
      rewrite (IH (A ++ [b])); [|by rewrite <-app_assoc|simpl in Hf; lia].
      do 3 f_equal. simpl. lia. }
  rewrite (cstep _ _ _ _ _ (Hloop xs [] 0 _ eq_refl
    (Nat.lt_lt_succ_r _ _ (is_list_length _ _ _ Hl)))). done.
Qed.

(** The boolean the loop of [is_sorted] computes. *)
Fixpoint sortedb (xs : list Z) : bool :=
  match xs with
  | a :: ((b :: _) as r) => negb (less b a) && sortedb r
  | _ => true
  end.

Lemma is_sorted_ok A X B : is_list h l (A ++ X ++ B) →
  is_sorted less (pos l (X ++ B)) (pos l B) h = Ret (sortedb X, h).
Proof.
  intros Hl. unfold is_sorted. rewrite (pos_eq_pos l A X B) by apply Hl.
  destruct X as [|x X]; [done|]. cmd_step (eq_refl : get h = Ret (h, h)).
  cmd_step (list_next_ok _ _ _ _ _ Hl).
  assert (∀ Y u W fuel, A ++ x :: X ++ B = W ++ u :: Y ++ B → (length Y + 1 < fuel)%nat →
    ∃ e, cwhile fuel
    (λ '(a, ok), mret (ok && negb (a =? pos l B)))
    (λ '(a, ok), let* p := list_prev a in
       if less a p then mret (a, false)
       else let* a' := list_next a in mret (a', true)) (pos l (Y ++ B), true) h
    = Ret ((e, sortedb (u :: Y)), h)) as Hloop.
  { induction Y as [|y Y IH]; intros u W fuel Heq Hf;
      (destruct fuel as [|fuel]; [lia|]); simpl cwhile; rewrite cret; simpl.
    - rewrite Z.eqb_refl. simpl. by eexists.
    - assert (is_list h l (W ++ (u :: y :: Y) ++ B)) as Hl2 by (by simpl in *; rewrite <-Heq).
      assert (is_list h l ((W ++ [u]) ++ (y :: Y) ++ B)) as Hl3 by (by rewrite <-app_assoc).
      pose proof (pos_eq_pos l (W ++ [u]) (y :: Y) B (il_nodup _ _ _ Hl3)) as Hy.
      simpl in Hy. rewrite Hy. simpl. unfold mbind at 1, cmd_bind at 1.
      pose proof (list_prev_ok h l (W ++ [u]) ((y :: Y) ++ B) Hl3) as Hp.
      rewrite pred_of_snoc in Hp. simpl in Hp.
      cmd_step Hp. destruct (less y u) eqn:Hyu; simpl.
      + destruct fuel; [simpl in Hf; lia|]. simpl. by eexists.
      + rewrite (cstep _ _ _ _ _ (list_next_ok h l (W ++ [u]) y (Y ++ B) Hl3)).
        unfold mret, cmd_ret. apply (IH y (W ++ [u])); [|simpl in Hf; lia].
        rewrite <-app_assoc. done. }
  pose proof (is_list_length _ _ _ Hl) as Hlen. rewrite !length_app in Hlen. simpl in Hlen.
  destruct (Hloop X x A (walk_fuel h)) as (e & He); [done|unfold walk_fuel; lia|].
  rewrite (cstep _ _ _ _ _ He). done.
Qed.

(** What [find_end_of_run] leaves after the run that starts with [x]. *)
Fixpoint run_end (x : Z) (xs : list Z) : list Z :=
  match xs with
  | [] => []
  | y :: ys => if less y x then xs else run_end y ys
  end.

Lemma find_end_of_run_ok A x X : is_list h l (A ++ x :: X) →
  find_end_of_run less x (tail_of l) h = Ret (pos l (run_end x X), h).
Proof.
  intros Hl. unfold find_end_of_run.
  rewrite (is_list_nonnull _ _ _ x Hl) by (unfold nodes; set_solver).
  rewrite (is_list_nonnull _ _ _ (tail_of l) Hl) by (unfold nodes; set_solver).
  do 2 cmd_step (assert_ok true h eq_refl).
  pose proof (pos_eq_tail l A (x :: X) (il_nodup _ _ _ Hl)) as Hx. simpl in Hx. rewrite Hx.
  cmd_step (assert_ok true h eq_refl). cmd_step (eq_refl : get h = Ret (h, h)).
  cmd_step (list_next_ok _ _ _ _ _ Hl).
  assert (∀ Y u W fuel, A ++ x :: X = W ++ u :: Y → (length Y < fuel)%nat →
    cwhile fuel
    (λ a, if a =? tail_of l then mret false
          else let* p := list_prev a in mret (negb (less a p)))
    list_next (pos l Y) h = Ret (pos l (run_end u Y), h)) as Hloop.
  { induction Y as [|y Y IH]; intros u W fuel Heq Hf;
      (destruct fuel as [|fuel]; [simpl in Hf; lia|]); simpl cwhile.
    - rewrite Z.eqb_refl. done.
    - rewrite Heq in Hl. assert (is_list h l ((W ++ [u]) ++ y :: Y)) as Hl3.
      { by rewrite <-app_assoc. }
      pose proof (pos_eq_tail l (W ++ [u]) (y :: Y) (il_nodup _ _ _ Hl3)) as Hy.
      simpl in Hy |- *. rewrite Hy.
      pose proof (list_prev_ok h l (W ++ [u]) (y :: Y) Hl3) as Hp. rewrite pred_of_snoc in Hp.
      erewrite cstep; [|cmd_step Hp; reflexivity]. simpl.
      destruct (less y u) eqn:Hyu; simpl; [done|].
      rewrite (cstep _ _ _ _ _ (list_next_ok _ _ _ _ _ Hl3)).
      apply (IH y (W ++ [u])); [by rewrite Heq, <-app_assoc|simpl in Hf; lia]. }
  apply (Hloop X x A); [done|]. pose proof (is_list_length _ _ _ Hl) as Hlen.
  rewrite length_app in Hlen. simpl in Hlen. unfold walk_fuel. lia.
Qed.
End Walks.

(** ** Runs *)

(** What the comparison of an ordered list must satisfy: [less] is a strict
    weak order. *)
Class StrictWeakOrder (less : Z → Z → bool) : Prop := {
  swo_asym a b : less a b = true → less b a = false;
  swo_trans a b c : less b a = false → less c b = false → less c a = false
}.

Section Runs.
Context (less : Z → Z → bool) `{!StrictWeakOrder less}.

Definition le (a b : Z) : Prop := less b a = false.
Notation sorted := (StronglySorted le).

Lemma le_trans a b c : le a b → le b c → le a c.
Proof. apply swo_trans. Qed.

Lemma sortedb_spec xs : sortedb less xs = true ↔ sorted xs.
Proof.
  induction xs as [|a [|b r] IH].
  - split; [constructor|done].
  - split; [repeat constructor|done].
  - change (negb (less b a) && sortedb less (b :: r) = true ↔ sorted (a :: b :: r)).
    rewrite andb_true_iff, negb_true_iff, IH. split.
    + intros [Hab Hs]. constructor; [done|]. constructor; [done|].
      apply StronglySorted_inv in Hs as [_ Hf]. eapply Forall_impl; [done|].
      intros c Hbc. by eapply le_trans.
    + intros [Hs Hf]%StronglySorted_inv. apply Forall_cons in Hf. naive_solver.
Qed.

Fixpoint runs (xs : list Z) : nat :=
  match xs with
  | [] => 0
  | x :: r => match r with
              | [] => 1
              | y :: _ => (if less y x then 1 else 0) + runs r
              end
  end.

Lemma runs_cons2 x y r : runs (x :: y :: r) = ((if less y x then 1 else 0) + runs (y :: r))%nat.
Proof. done. Qed.

Lemma runs_length xs : (runs xs ≤ length xs)%nat.
Proof.
  induction xs as [|x [|y r] IH]; [done..|]. rewrite runs_cons2.
  simpl length in *. destruct (less y x); lia.
Qed.

Lemma runs_run_end x xs : runs (x :: xs) = S (runs (run_end less x xs)).
Proof.
  revert x; induction xs as [|y ys IH]; intros x; [done|].
  rewrite runs_cons2. simpl run_end. destruct (less y x); [done|]. apply IH.
Qed.

Lemma runs_app xs ys : (runs (xs ++ ys) ≤ runs xs + runs ys)%nat.
Proof.
  induction xs as [|x [|y r] IH]; [done| |].
  - destruct ys as [|y ys]; [simpl; lia|]. simpl app. rewrite runs_cons2.
    change (runs [x]) with 1%nat. destruct (less y x); lia.
  - simpl app in *. rewrite !runs_cons2. lia.
Qed.

Lemma sorted_runs xs : sortedb less xs = true → (runs xs ≤ 1)%nat.
Proof.
  induction xs as [|x [|y r] IH]; [simpl; lia..|].
  intros Hs. change (negb (less y x) && sortedb less (y :: r) = true) in Hs.
  rewrite runs_cons2. bool_prop. rewrite H. by apply IH.
Qed.

Lemma runs_pos x xs : (1 ≤ runs (x :: xs))%nat.
Proof. rewrite runs_run_end. lia. Qed.

Lemma runs_sorted xs : (runs xs ≤ 1)%nat → sortedb less xs = true.
Proof.
  induction xs as [|x [|y r] IH]; [done..|]. rewrite runs_cons2. intros Hr.
  change (negb (less y x) && sortedb less (y :: r) = true).
  pose proof (runs_pos y r). destruct (less y x); [lia|]. apply IH. lia.
Qed.

Lemma run_end_split x xs : ∃ R, x :: xs = x :: R ++ run_end less x xs ∧
  sortedb less (x :: R) = true.
Proof.
  revert x; induction xs as [|y ys IH]; intros x; [by exists []|]. simpl run_end.
  destruct (less y x) eqn:Hyx; [by exists []|].
  destruct (IH y) as (R & HR & Hs). exists (y :: R). split; [by rewrite HR at 1|].
  change (negb (less y x) && sortedb less (y :: R) = true). by rewrite Hyx.
Qed.

(** ** Merging *)

Lemma sorted_choose W x X y Y :
  sorted (W ++ x :: X) → sorted (W ++ y :: Y) → le x y → sorted (W ++ x :: y :: Y).
Proof.
  intros HX HY Hxy. induction W as [|w W IH]; simpl in *.
  - constructor; [done|]. constructor; [done|].
    apply StronglySorted_inv in HY as [_ HY]. eapply Forall_impl; [done|].
    intros c Hc. by eapply le_trans.
  - apply StronglySorted_inv in HX as [HX HXf]. apply StronglySorted_inv in HY as [HY HYf].
    constructor; [by apply IH|]. apply Forall_app in HXf as [? [? _]%Forall_cons].
    apply Forall_app in HYf as [_ ?]. apply Forall_app. split; [done|]. by constructor.
Qed.

Lemma only_perm l xs ys h h' : xs ≡ₚ ys → only (nodes l xs) h h' → only (nodes l ys) h h'.
Proof.
  intros Hp. apply only_mono. intros y. unfold nodes.
  rewrite !elem_of_cons, !elem_of_app, Hp. done.
Qed.

(** The invariant of the merge loop: [W] is merged, [X] and [Y] are left. *)
Definition merging (l : Z) (h0 : heap) (A O B : list Z) (n : nat) (st : Z * Z) (h : heap) : Prop :=
  ∃ W X Y, is_list h l (A ++ W ++ X ++ Y ++ B) ∧
    st = (pos l (X ++ Y ++ B), pos l (Y ++ B)) ∧
    O ≡ₚ W ++ X ++ Y ∧ sorted (W ++ X) ∧ sorted (W ++ Y) ∧
    n = (length X + length Y)%nat ∧ only (nodes l (A ++ O ++ B)) h0 h.

Lemma merge_step l h0 A O B n st h :
  merging l h0 A O B n st h →
  negb (st.1 =? st.2) && negb (st.2 =? pos l B) = true →
  ∃ st' h' n',
    (if negb (less st.2 st.1) then let* a0' := list_next st.1 in mret (a0', st.2)
     else let* a1b0' := list_next st.2 in
          let* p := list_prev a1b0' in
          let* _ := list_splice st.1 p a1b0' in
          mret (st.1, a1b0')) h = Ret (st', h') ∧
    merging l h0 A O B n' st' h' ∧ (n' < n)%nat.
Proof.
  intros (W & X & Y & Hl & -> & HO & HX & HY & -> & Ho) Hc. simpl in *.
  assert (is_list h l ((A ++ W) ++ X ++ (Y ++ B))) as Hl1 by (by rewrite <-app_assoc).
  assert (is_list h l ((A ++ W ++ X) ++ Y ++ B)) as Hl2 by (by rewrite <-!app_assoc).
  rewrite (pos_eq_pos l (A ++ W) X (Y ++ B)) in Hc by apply Hl1.
  rewrite (pos_eq_pos l (A ++ W ++ X) Y B) in Hc by apply Hl2.
  destruct X as [|x X]; [done|]. destruct Y as [|y Y]; [done|]. clear Hc. simpl in *.
  destruct (less y x) eqn:Hyx; simpl.
  - (* y is moved before x *)
    erewrite cstep; [|apply (list_next_ok h l (A ++ W ++ x :: X) y (Y ++ B)); done]. cbv beta.
    assert (list_prev (pos l (Y ++ B)) h = Ret (y, h)) as Hp.
    { rewrite (list_prev_ok h l ((A ++ W ++ x :: X) ++ [y]) (Y ++ B)).
      - by rewrite pred_of_snoc.
      - by rewrite <-app_assoc. }
    cmd_step Hp.
    destruct (splice_back_ok h l (A ++ W) x X y (Y ++ B)) as (h' & Hs & Hl' & Ho'); [done|].
    cmd_step Hs. unfold mret, cmd_ret. eexists _, _, _. split; [done|]. split.
    + exists (W ++ [y]), (x :: X), Y. rewrite <-!app_assoc. simpl in *.
      split; [by rewrite <-app_assoc in Hl'|]. split; [done|].
      split; [rewrite HO; apply Permutation_app_head; by rewrite (Permutation_middle (x :: X) Y y)|].
      split; [apply (sorted_choose W y Y x X); [done..|by apply swo_asym]|].
      split; [done|]. split; [done|].
      apply (only_mono (nodes l (A ++ O ++ B) ++ nodes l (A ++ O ++ B))).
      { intros z. in_list. }
      eapply only_trans; [done|]. eapply only_perm; [|exact Ho'].
      rewrite <-app_assoc. apply Permutation_app_head. rewrite HO, <-!app_assoc. simpl.
      by rewrite <-app_assoc.
    + simpl. lia.
  - (* x stays where it is *)
    erewrite cstep; [|apply (list_next_ok h l (A ++ W) x (X ++ y :: Y ++ B)); done].
    unfold mret, cmd_ret. eexists _, _, _. split; [done|]. split.
    + exists (W ++ [x]), X, (y :: Y). rewrite <-!app_assoc. simpl in *.
      split; [done|]. split; [done|]. split; [done|]. split; [done|].
      split; [by apply (sorted_choose W x X)|]. split; done.
    + simpl. lia.
Qed.

Lemma inplace_merge_ok l h A x X y Y B :
  is_list h l (A ++ (x :: X) ++ (y :: Y) ++ B) →
  sorted (x :: X) → sorted (y :: Y) →
  ∃ h' O, inplace_merge less x y (pos l B) h = Ret ((), h') ∧
    is_list h' l (A ++ O ++ B) ∧ sorted O ∧ O ≡ₚ (x :: X) ++ y :: Y ∧
    only (nodes l (A ++ O ++ B)) h h'.
Proof.
  intros Hl HX HY. unfold inplace_merge.
  rewrite (is_list_nonnull _ _ _ x Hl) by (in_list).
  rewrite (is_list_nonnull _ _ _ y Hl) by (in_list).
  assert (is_list h l ((A ++ x :: X) ++ (y :: Y) ++ B)) as Hl1 by (by rewrite <-app_assoc).
  rewrite (is_list_nonnull _ _ _ (pos l B) Hl).
  2: { rewrite !app_assoc. apply pos_in_nodes. }
  do 3 cmd_step (assert_ok true h eq_refl).
  pose proof (is_sorted_ok less h l A (x :: X) ((y :: Y) ++ B) Hl) as H1. simpl pos in H1.
  pose proof (is_sorted_ok less h l (A ++ x :: X) (y :: Y) B Hl1) as H2. simpl pos in H2.
  apply sortedb_spec in HX as HXb. apply sortedb_spec in HY as HYb.
  rewrite HXb in H1. rewrite HYb in H2.
  cmd_step H1. cmd_step (assert_ok true h eq_refl).
  cmd_step H2. cmd_step (assert_ok true h eq_refl). cmd_step (eq_refl : get h = Ret (h, h)).
  pose proof (is_list_length _ _ _ Hl) as Hlen. rewrite !length_app in Hlen.
  match goal with |- context [cwhile _ ?c ?b _] =>
    destruct (cwhile_spec (merging l h A ((x :: X) ++ y :: Y) B) c b (walk_fuel h)
      (length (x :: X) + length (y :: Y)) (x, y) h) as (st & h' & n' & Hw & HM & Hc) end.
  - intros n st t HM. exists (negb (st.1 =? st.2) && negb (st.2 =? pos l B)).
    split; [by destruct st|]. intros Hc.
    destruct (merge_step _ _ _ _ _ _ _ _ HM Hc) as (st' & h' & n' & Hb & HM' & Hn').
    exists st', h', n'. split; [|done]. destruct st; exact Hb.
  - exists [], (x :: X), (y :: Y). simpl. rewrite <-app_assoc in *.
    split; [done|]. split; [done|]. split; [done|]. split; [done|]. split; [done|].
    split; [done|]. apply only_refl.
  - unfold walk_fuel. lia.
  - rewrite (cstep _ _ _ _ _ Hw).
    destruct HM as (W & X' & Y' & Hl' & -> & HO & HXs & HYs & _ & Ho).
    injection Hc as Hc.
    rewrite (pos_eq_pos l (A ++ W) X' (Y' ++ B)) in Hc by (rewrite <-app_assoc; apply Hl').
    rewrite (pos_eq_pos l (A ++ W ++ X') Y' B) in Hc by (rewrite <-!app_assoc; apply Hl').
    exists h', (W ++ X' ++ Y'). split; [done|]. rewrite <-!app_assoc.
    split; [done|]. split; [|split; [by rewrite HO|]].
    + destruct X'; [done|]. destruct Y'; [by rewrite app_nil_r|done].
    + eapply only_perm; [|exact Ho]. rewrite HO, <-!app_assoc. done.
Qed.

(** ** Sorting *)

#[local] Arguments runs _ : simpl never.

(** The invariant of a pass: [A] holds the runs output so far, [B] the rest;
    after the break nothing is left. *)
Definition passing (l : Z) (h0 : heap) (O : list Z) (n : nat) (st : option Z * Z) (h : heap) : Prop :=
  only (nodes l O) h0 h ∧ 0 ≤ st.2 ∧
  match st.1 with
  | Some a0 => ∃ A B, is_list h l (A ++ B) ∧ a0 = pos l B ∧ O ≡ₚ A ++ B ∧
      Z.of_nat (runs A) ≤ st.2 ∧ Z.of_nat (runs B) + 2 * st.2 ≤ Z.of_nat (runs O) ∧
      n = S (length B)
  | None => ∃ L, is_list h l L ∧ O ≡ₚ L ∧ Z.of_nat (runs L) ≤ st.2 ∧
      2 * st.2 ≤ Z.of_nat (runs O) + 1 ∧ n = 0%nat
  end.

Lemma pass_step l h0 O n a0 cnt h :
  passing l h0 O n (Some a0, cnt) h → (a0 =? tail_of l) = false →
  ∃ st' h' n',
    (let cnt := cnt + 1 in
     let* a1b0 := find_end_of_run less a0 (tail_of l) in
     if a1b0 =? tail_of l then mret (None, cnt) else
     let* b1 := find_end_of_run less a1b0 (tail_of l) in
     let* _ := inplace_merge less a0 a1b0 b1 in
     mret (Some b1, cnt)) h = Ret (st', h') ∧
    passing l h0 O n' st' h' ∧ (n' < n)%nat.
Proof.
  intros (Ho & Hcnt & A & B & Hl & -> & HO & HA & HB & ->) Ha. simpl in *.
  rewrite (pos_eq_tail l A B) in Ha by apply Hl. destruct B as [|x B]; [done|]. clear Ha. simpl in *.
  rewrite (cstep _ _ _ _ _ (find_end_of_run_ok less h l A x B Hl)).
  destruct (run_end_split x B) as (R & HR & HRs).
  rewrite runs_run_end in HB.
  assert (is_list h l ((A ++ x :: R) ++ run_end less x B)) as Hl1.
  { rewrite <-app_assoc. simpl. by rewrite <-HR. }
  rewrite (pos_eq_tail l (A ++ x :: R)) by apply Hl1.
  destruct (run_end less x B) as [|y B'] eqn:HB'.
  - unfold mret, cmd_ret. eexists _, _, _. split; [done|]. split.
    + split; [done|]. simpl. split; [lia|]. rewrite app_nil_r in HR. exists (A ++ x :: B).
      split; [done|]. split; [done|].
      pose proof (runs_app A (x :: B)). apply sorted_runs in HRs. rewrite <-HR in HRs.
      change (runs []) with 0%nat in HB. split; [lia|]. split; [lia|done].
    + lia.
  - simpl pos. rewrite (cstep _ _ _ _ _ (find_end_of_run_ok less h l (A ++ x :: R) y B' Hl1)).
    destruct (run_end_split y B') as (R' & HR' & HRs').
    rewrite runs_run_end in HB. set (C := run_end less y B') in *.
    assert (is_list h l (A ++ (x :: R) ++ (y :: R') ++ C)) as Hl2.
    { rewrite <-app_assoc in Hl1. simpl in *. by rewrite <-HR'. }
    destruct (inplace_merge_ok l h A x R y R' C) as (h' & M & Hm & Hl' & HMs & HMp & Ho').
    { done. } { by apply sortedb_spec. } { by apply sortedb_spec. }
    cmd_step Hm. unfold mret, cmd_ret. eexists _, _, _. split; [done|].
    assert (x :: B = (x :: R) ++ (y :: R') ++ C) as HBeq by (simpl; rewrite HR, HR'; done).
    assert (O ≡ₚ A ++ M ++ C) as HOM.
    { rewrite HO, HBeq. apply Permutation_app_head. by rewrite HMp, <-app_assoc. }
    split.
    + split; [|split; [simpl; lia|]].
      * apply (only_mono (nodes l O ++ nodes l O)); [intros z; in_list|].
        eapply only_trans; [done|]. eapply only_perm; [|exact Ho']. by rewrite HOM.
      * simpl. exists (A ++ M), C. rewrite <-app_assoc.
        split; [done|]. split; [done|]. split; [done|].
        pose proof (runs_app A M). apply sortedb_spec, sorted_runs in HMs.
        split; [lia|]. split; [lia|done].
    + assert (length (x :: B) = length ((x :: R) ++ (y :: R') ++ C)) as Hlen by (by rewrite HBeq).
      rewrite !length_app in Hlen. simpl in Hlen. lia.
Qed.

Lemma sort_pass_ok l h O : is_list h l O →
  ∃ h' L cnt, sort_pass less l h = Ret (cnt, h') ∧ is_list h' l L ∧ O ≡ₚ L ∧
    only (nodes l O) h h' ∧
    Z.of_nat (runs L) ≤ cnt ∧ 2 * cnt ≤ Z.of_nat (runs O) + 1.
Proof.
  intros Hl. unfold sort_pass. cmd_step (eq_refl : get h = Ret (h, h)).
  cmd_step (list_begin_ok _ _ _ Hl). cmd_step (list_end_ok _ _ _ Hl).
  match goal with |- context [cwhile _ ?c ?b _] =>
    destruct (cwhile_spec (passing l h O) c b (walk_fuel h)
      (S (length O)) (Some (pos l O), 0) h) as (st & h' & n' & Hw & HM & Hc) end.
  - intros n [[a0|] cnt] t HM.
    + exists (negb (a0 =? tail_of l)). split; [done|]. intros Ha. apply negb_true_iff in Ha.
      by apply pass_step.
    + by exists false.
  - split; [apply only_refl|]. split; [done|]. exists [], O. simpl. split; [done|].
    split; [done|]. split; [done|]. split; [done|]. split; [lia|done].
  - pose proof (is_list_length _ _ _ Hl). unfold walk_fuel. lia.
  - rewrite (cstep _ _ _ _ _ Hw). destruct st as [oa0 cnt]. simpl.
    destruct HM as (Ho & Hcnt & HM). destruct oa0 as [a0|]; simpl in *.
    + injection Hc as Hc. apply negb_false_iff in Hc.
      destruct HM as (A & B & Hl' & -> & HO & HA & HB & _).
      rewrite (pos_eq_tail l A B) in Hc by apply Hl'. destruct B; [|done].
      rewrite app_nil_r in *. exists h', A, cnt. change (runs []) with 0%nat in HB.
      split; [done|]. split; [done|]. split; [done|]. split; [done|]. lia.
    + destruct HM as (L & Hl' & HO & HL & HO2 & _). exists h', L, cnt. done.
Qed.

Lemma list_sort_ok l h O : is_list h l O →
  ∃ h' L, list_sort less l h = Ret ((), h') ∧ is_list h' l L ∧ O ≡ₚ L ∧ sorted L ∧
    only (nodes l O) h h'.
Proof.
  intros Hl. unfold list_sort.
  rewrite (is_list_nonnull _ _ _ l Hl) by (unfold nodes, head_of; set_solver).
  cmd_step (assert_ok true h eq_refl). cmd_step (eq_refl : get h = Ret (h, h)).
  destruct (sort_pass_ok l h O Hl) as (h1 & L1 & cnt & Hp & Hl1 & HO1 & Ho1 & HL1 & Hcnt).
  cmd_step Hp.
  match goal with |- context [cwhile _ ?c ?b _] =>
    destruct (cwhile_spec (λ n k t, n = Z.to_nat k ∧ only (nodes l O) h t ∧
        ∃ L, is_list t l L ∧ O ≡ₚ L ∧ Z.of_nat (runs L) ≤ k)
      c b (walk_fuel h) (Z.to_nat cnt) cnt h1) as (k & h' & n' & Hw & HM & Hc) end.
  - intros n k t (-> & Ho & L & HtL & HtO & Hk). exists (1 <? k). split; [done|]. intros Hlt.
    bool_prop. destruct (sort_pass_ok l t L HtL) as (h2 & L2 & k2 & Hp2 & Hl2 & HO2 & Ho2 & HL2 & Hk2).
    exists k2, h2, (Z.to_nat k2). split; [done|]. split; [|lia]. split; [done|]. split.
    + apply (only_mono (nodes l O ++ nodes l O)); [intros z; in_list|].
      eapply only_trans; [done|]. eapply only_perm; [|exact Ho2]. by rewrite HtO.
    + exists L2. split; [done|]. split; [by rewrite HtO|done].
  - split; [done|]. split; [done|]. by exists L1.
  - pose proof (is_list_length _ _ _ Hl). pose proof (runs_length O). unfold walk_fuel. lia.
  - rewrite (cstep _ _ _ _ _ Hw). destruct HM as (_ & Ho & L & HtL & HtO & Hk).
    injection Hc as Hc. bool_prop.
    cmd_step (list_begin_ok _ _ _ HtL). cmd_step (list_end_ok _ _ _ HtL).
    pose proof (is_sorted_ok less h' l [] L []) as Hs. rewrite app_nil_r in Hs.
    specialize (Hs HtL). simpl pos in Hs. assert (sortedb less L = true) as HLs.
    { apply runs_sorted. lia. }
    rewrite HLs in Hs. cmd_step Hs.
    exists h', L. split; [done|]. split; [done|]. split; [done|]. split; [by apply sortedb_spec|done].
Qed.
End Runs.

(** ** The remaining operations *)

Lemma list_init_ok h l : is_Some (h !! head_of l) → is_Some (h !! tail_of l) →
  l ≠ NULL → tail_of l ≠ NULL →
  ∃ h', list_init l h = Ret ((), h') ∧ is_list h' l [] ∧ only [head_of l; tail_of l] h h'.
Proof.
  intros Hh Ht Hl Htl. assert (head_of l ≠ tail_of l) by (unfold head_of, tail_of; lia).
  exists (set_next (tail_of l) NULL (set_prev (tail_of l) (head_of l)
    (set_next (head_of l) (tail_of l) (set_prev (head_of l) NULL h)))).
  split; [|split].
  - unfold list_init. apply Z.eqb_neq in Hl. rewrite Hl. cmd_step (assert_ok true h eq_refl).
    cmd_step (store_prev_ok h _ NULL Hh).
    erewrite cstep; [|apply store_next_ok; by rewrite set_prev_is_Some]. cbv beta.
    erewrite cstep; [|apply store_prev_ok; by rewrite set_next_is_Some, set_prev_is_Some].
    cbv beta. apply store_next_ok. by rewrite set_prev_is_Some, set_next_is_Some, set_prev_is_Some.
  - split; simpl.
    + split; [|done]. split.
      * rewrite nxt_set_next_ne, nxt_set_prev by done. apply nxt_set_next_eq.
        by rewrite set_prev_is_Some.
      * rewrite prv_set_next. apply prv_set_prev_eq. by rewrite set_next_is_Some, set_prev_is_Some.
    + rewrite prv_set_next, prv_set_prev_ne, prv_set_next by done. by apply prv_set_prev_eq.
    + apply nxt_set_next_eq. by rewrite set_prev_is_Some, set_next_is_Some, set_prev_is_Some.
    + unfold nodes; simpl. apply NoDup_cons. split; [set_solver|apply NoDup_singleton].
    + unfold nodes, head_of in *; simpl. set_solver.
  - split.
    + unfold set_next, set_prev. by rewrite !dom_alter_L.
    + intros y Hy. unfold set_next, set_prev. rewrite !lookup_alter_ne by set_solver. done.
Qed.

Lemma list_push_front_ok h l xs e :
  is_list h l xs → e ∉ nodes l xs → e ≠ NULL → is_Some (h !! e) →
  ∃ h', list_push_front l e h = Ret ((), h') ∧ is_list h' l (e :: xs) ∧
    only (e :: nodes l xs) h h'.
Proof.
  intros Hl He Hn Hd. unfold list_push_front. cmd_step (list_begin_ok _ _ _ Hl).
  by apply (list_insert_ok h l [] xs e).
Qed.

Lemma list_push_back_ok h l xs e :
  is_list h l xs → e ∉ nodes l xs → e ≠ NULL → is_Some (h !! e) →
  ∃ h', list_push_back l e h = Ret ((), h') ∧ is_list h' l (xs ++ [e]) ∧
    only (e :: nodes l xs) h h'.
Proof.
  intros Hl He Hn Hd. unfold list_push_back. cmd_step (list_end_ok _ _ _ Hl).
  destruct (list_insert_ok h l xs [] e) as (h' & Hi & Hl' & Ho); rewrite ?app_nil_r in *; eauto.
Qed.

Lemma list_pop_front_ok h l x xs : is_list h l (x :: xs) →
  ∃ h', list_pop_front l h = Ret (x, h') ∧ is_list h' l xs ∧ only (nodes l xs) h h'.
Proof.
  intros Hl. unfold list_pop_front, list_front.
  erewrite cstep.
  2: { cmd_step (list_empty_ok _ _ _ Hl). cmd_step (assert_ok true h eq_refl).
       apply load_next_ok. by apply head_is_list_next. }
  simpl pos. destruct (list_remove_ok h l [] x xs Hl) as (h' & Hr & Hl' & Ho).
  cmd_step Hr. by exists h'.
Qed.

Lemma list_pop_back_ok h l x xs : is_list h l (xs ++ [x]) →
  ∃ h', list_pop_back l h = Ret (x, h') ∧ is_list h' l xs ∧ only (nodes l xs) h h'.
Proof.
  intros Hl. unfold list_pop_back, list_back.
  erewrite cstep.
  2: { cmd_step (list_empty_ok _ _ _ Hl). destruct (xs ++ [x]) eqn:E; [by destruct xs|].
       cmd_step (assert_ok true h eq_refl). rewrite <-E in Hl.
       apply load_prev_ok. by apply tail_is_list_prev. }
  rewrite pred_of_snoc. destruct (list_remove_ok h l xs x [] Hl) as (h' & Hr & Hl' & Ho).
  rewrite app_nil_r in *. cmd_step Hr. by exists h'.
Qed.

(** Where [list_insert_ordered] stops. *)
Fixpoint insert_pos (less : Z → Z → bool) (e : Z) (xs : list Z) : list Z * list Z :=
  match xs with
  | [] => ([], [])
  | x :: r => if less e x then ([], xs)
              else let '(a, b) := insert_pos less e r in (x :: a, b)
  end.

Lemma insert_pos_app less e xs :
  xs = (insert_pos less e xs).1 ++ (insert_pos less e xs).2.
Proof.
  induction xs as [|x r IH]; [done|]. simpl. destruct (less e x); [done|].
  destruct (insert_pos less e r). simpl in *. by rewrite IH at 1.
Qed.

Lemma list_insert_ordered_ok less h l xs e :
  is_list h l xs → e ∉ nodes l xs → e ≠ NULL → is_Some (h !! e) →
  ∃ h', list_insert_ordered less l e h = Ret ((), h') ∧
    is_list h' l ((insert_pos less e xs).1 ++ e :: (insert_pos less e xs).2) ∧
    only (e :: nodes l xs) h h'.
Proof.
  intros Hl He Hn Hd. unfold list_insert_ordered.
  rewrite (is_list_nonnull _ _ _ l Hl) by (unfold nodes, head_of; set_solver).
  apply Z.eqb_neq in Hn as Hn'. rewrite Hn'. do 2 cmd_step (assert_ok true h eq_refl).
  cmd_step (eq_refl : get h = Ret (h, h)).
  cmd_step (list_begin_ok _ _ _ Hl). cmd_step (list_end_ok _ _ _ Hl).
  assert (∀ B A fuel, xs = A ++ B → (length B < fuel)%nat →
    cwhile fuel (λ e0, mret (negb (e0 =? tail_of l) && negb (less e e0))) list_next (pos l B) h
    = Ret (pos l (insert_pos less e B).2, h)) as Hloop.
  { induction B as [|b B IH]; intros A fuel -> Hf;
      (destruct fuel as [|fuel]; [simpl in Hf; lia|]); simpl cwhile; rewrite cret.
    - rewrite Z.eqb_refl. done.
    - pose proof (pos_eq_tail l A (b :: B) (il_nodup _ _ _ Hl)) as Hb. simpl in Hb |- *.
      rewrite Hb. simpl. destruct (less e b); simpl; [done|].
      rewrite (cstep _ _ _ _ _ (list_next_ok _ _ _ _ _ Hl)).
      rewrite (IH (A ++ [b])); [|by rewrite <-app_assoc|simpl in Hf; lia].
      by destruct (insert_pos less e B). }
  rewrite (cstep _ _ _ _ _ (Hloop xs [] _ eq_refl
    (Nat.lt_lt_succ_r _ _ (is_list_length _ _ _ Hl)))).
  pose proof (insert_pos_app less e xs) as Hx. destruct (insert_pos less e xs) as [A B].
  simpl in *. subst xs. by apply list_insert_ok.
Qed.

(** The reference for [list_max] and [list_min]: a scan for the best element. *)
Definition scan (better : Z → Z → bool) (m : Z) (xs : list Z) : Z :=
  fold_left (λ m e, if better m e then e else m) xs m.

Lemma scan_loop_ok better h l xs : is_list h l xs →
  ∀ B A m fuel, xs = A ++ B → (length B < fuel)%nat →
    cwhile fuel ((λ '(e, _), mret (negb (e =? tail_of l))) : Z * Z → cmd heap bool)
      ((λ '(e, m), let* e' := list_next e in mret (e', if better m e : bool then e else m))
         : Z * Z → cmd heap (Z * Z))
      (pos l B, m) h = Ret ((tail_of l, scan better m B), h).
Proof.
  intros Hl. induction B as [|b B IH]; intros A m fuel -> Hf;
    (destruct fuel as [|fuel]; [simpl in Hf; lia|]); simpl cwhile; rewrite cret.
  - simpl. rewrite Z.eqb_refl. done.
  - pose proof (pos_eq_tail l A (b :: B) (il_nodup _ _ _ Hl)) as Hb. simpl in Hb |- *.
    rewrite Hb. simpl. unfold mbind at 1, cmd_bind at 1.
    rewrite (cstep _ _ _ _ _ (list_next_ok _ _ _ _ _ Hl)). unfold mret, cmd_ret.
    rewrite (IH (A ++ [b])); [done|by rewrite <-app_assoc|simpl in Hf; lia].
Qed.

Lemma list_max_ok less h l xs : is_list h l xs →
  list_max less l h = Ret (match xs with [] => tail_of l | x :: r => scan less x r end, h).
Proof.
  intros Hl. unfold list_max. cmd_step (list_begin_ok _ _ _ Hl). cmd_step (list_end_ok _ _ _ Hl).
  rewrite (pos_eq_tail l [] xs) by apply Hl. destruct xs as [|x r]; [done|].
  cmd_step (eq_refl : get h = Ret (h, h)). cmd_step (list_next_ok h l [] x r Hl).
  assert (length r < walk_fuel h)%nat as Hf.
  { pose proof (is_list_length _ _ _ Hl) as Hlen. simpl in Hlen. unfold walk_fuel. lia. }
  rewrite (cstep _ _ _ _ _ (scan_loop_ok less h l _ Hl r [x] x (walk_fuel h) eq_refl Hf)). done.
Qed.

Lemma list_min_ok less h l xs : is_list h l xs →
  list_min less l h =
    Ret (match xs with [] => tail_of l | x :: r => scan (λ m e, less e m) x r end, h).
Proof.
  intros Hl. unfold list_min. cmd_step (list_begin_ok _ _ _ Hl). cmd_step (list_end_ok _ _ _ Hl).
  rewrite (pos_eq_tail l [] xs) by apply Hl. destruct xs as [|x r]; [done|].
  cmd_step (eq_refl : get h = Ret (h, h)). cmd_step (list_next_ok h l [] x r Hl).
  assert (length r < walk_fuel h)%nat as Hf.
  { pose proof (is_list_length _ _ _ Hl) as Hlen. simpl in Hlen. unfold walk_fuel. lia. }
  rewrite (cstep _ _ _ _ _ (scan_loop_ok (λ m e, less e m) h l _ Hl r [x] x (walk_fuel h) eq_refl Hf)). done.
Qed.

(** *** Reversal *)

Definition swapped (e : list_elem) : list_elem := Elem (next e) (prev e).

Lemma swap_links_ok h e : is_Some (h !! e) → swap_links e h = Ret ((), alter swapped e h).
Proof.
  intros [[p n] He]. unfold swap_links.
  assert (prv h e = Some p ∧ nxt h e = Some n) as [Hp Hn].
  { unfold prv, nxt. by rewrite He. }
  cmd_step (load_prev_ok _ _ _ Hp). cmd_step (load_next_ok _ _ _ Hn).
  assert (is_Some (h !! e)) as Hd by eauto.
  cmd_step (store_prev_ok h e n Hd).
  rewrite store_next_ok by (by rewrite set_prev_is_Some).
  do 2 f_equal. apply map_eq. intros q. unfold set_next, set_prev. rewrite !lookup_alter.
  case_decide; [subst|done]. by rewrite decide_True, He by done.
Qed.

(** The heap after the links of the elements [A] were swapped. *)
Definition swap_all (A : list Z) (h h' : heap) : Prop :=
  dom h' = dom h ∧
  ∀ y, h' !! y = if decide (y ∈ A) then swapped <$> h !! y else h !! y.

Lemma swap_all_step A e h h' : e ∉ A → swap_all A h h' → swap_all (A ++ [e]) h (alter swapped e h').
Proof.
  intros He [Hd Hs]. split; [by rewrite dom_alter_L|]. intros y. rewrite lookup_alter, !Hs.
  destruct (decide (e = y)) as [->|].
  - by rewrite (decide_False (P := y ∈ A)), decide_True by (done || set_solver).
  - destruct (decide (y ∈ A)); [rewrite decide_True by set_solver|rewrite decide_False by set_solver];
      done.
Qed.

Lemma linked_rev h h' ns :
  linked h ns →
  (∀ y, y ∈ tail ns → nxt h' y = prv h y) →
  (∀ A y z B, ns = A ++ y :: z :: B → prv h' y = nxt h y) →
  linked h' (reverse ns).
Proof.
  induction ns as [|a [|b r] IH]; intros Hl Ht Hp; [done..|].
  destruct Hl as [[Hn Hpv] Hl]. rewrite reverse_cons.
  assert (linked h' (reverse (b :: r))) as Hl'.
  { apply IH; [done|intros y Hy; apply Ht; simpl in *; set_solver|].
    intros A y z B Heq. apply (Hp (a :: A) y z B). by rewrite Heq. }
  rewrite reverse_cons in *. rewrite <-app_assoc. apply linked_app.
  split; [done|]. split; [|done]. split.
  - rewrite Ht by (simpl; set_solver). done.
  - rewrite (Hp [] a b r) by done. done.
Qed.

Lemma reverse_loop_ok h l xs : is_list h l xs → ∀ B A h' fuel,
  xs = A ++ B → swap_all A h h' → (length B < fuel)%nat →
  ∃ h'', cwhile fuel
    (λ e, let* en := list_end l in mret (negb (e =? en)))
    (λ e, let* _ := swap_links e in load_prev e) (pos l B) h' = Ret (tail_of l, h'') ∧
    swap_all xs h h''.
Proof.
  intros Hl. assert ((l =? NULL) = false) as Hl0.
  { apply (is_list_nonnull _ _ _ l Hl). unfold nodes, head_of. set_solver. }
  assert (∀ t : heap, list_end l t = Ret (tail_of l, t)) as Hend.
  { intros t. unfold list_end. by rewrite Hl0. }
  induction B as [|b B IH]; intros A h' fuel -> Hs Hf;
    (destruct fuel as [|fuel]; [simpl in Hf; lia|]); simpl cwhile.
  - erewrite cstep; [|cmd_step (Hend h'); reflexivity]. simpl. rewrite Z.eqb_refl. simpl.
    rewrite app_nil_r. by exists h'.
  - erewrite cstep; [|cmd_step (Hend h'); reflexivity].
    pose proof (pos_eq_tail l A (b :: B) (il_nodup _ _ _ Hl)) as Hb. simpl in Hb |- *.
    rewrite Hb. simpl.
    assert (is_Some (h' !! b)) as Hd.
    { apply elem_of_dom. rewrite (proj1 Hs). apply elem_of_dom.
      eapply is_list_in_dom; [done|]. in_list. }
    assert (b ∉ A) as HbA.
    { pose proof (il_nodup _ _ _ Hl) as HN. rewrite nodes_app in HN. apply NoDup_mid in HN.
      by not_in. }
    pose proof (swap_all_step A b h h' HbA Hs) as Hs'.
    assert (prv (alter swapped b h') b = Some (pos l B)) as Hp.
    { unfold prv. rewrite (proj2 Hs'), decide_True by set_solver.
      rewrite cons_middle, app_assoc in Hl. pose proof (is_list_link _ _ (A ++ [b]) B Hl) as [Hn _].
      rewrite pred_of_snoc in Hn. unfold nxt in Hn. destruct (h !! b); [|done]. done. }
    erewrite cstep.
    2: { cmd_step (swap_links_ok h' b Hd). by apply load_prev_ok. }
    apply (IH (A ++ [b])); [by rewrite <-app_assoc|done|simpl in Hf; lia].
Qed.

(** The links a reversed list needs, given the list it comes from. *)
Lemma reverse_links h h' l x xs ys z : is_list h l (x :: xs) → x :: xs = ys ++ [z] →
  (∀ y, y ∈ x :: xs → y ≠ z → prv h' y = nxt h y) →
  (∀ y, y ∈ x :: xs → y ≠ x → nxt h' y = prv h y) →
  link h' (head_of l) z → link h' x (tail_of l) →
  prv h' (head_of l) = Some NULL → nxt h' (tail_of l) = Some NULL →
  is_list h' l (reverse (x :: xs)).
Proof.
  intros Hl Hz Hp Hn Hhz Hxt Hh Ht.
  assert (NoDup (x :: xs)) as HNx.
  { pose proof (il_nodup _ _ _ Hl) as HN. unfold nodes in HN.
    apply NoDup_cons in HN as [_ HN]. apply NoDup_app in HN as [HN _]. done. }
  assert (reverse (x :: xs) = z :: reverse ys) as Hr by (by rewrite Hz, reverse_snoc).
  assert (linked h' (reverse (x :: xs))) as Hrev.
  { apply (linked_rev h).
    - pose proof (il_linked _ _ _ Hl) as Hk. unfold nodes in Hk.
      rewrite app_comm_cons in Hk. apply linked_prefix in Hk.
      apply (linked_suffix h [head_of l]). done.
    - simpl. intros y Hy. apply NoDup_cons in HNx as [Hnx _]. apply Hn; set_solver.
    - intros A y w B Heq. apply Hp; [rewrite Heq; set_solver|].
      intros ->. rewrite Hz in Heq, HNx. apply NoDup_app in HNx as (_ & Hd & _).
      assert (z ∈ ys) as Hzy; [|by apply (Hd z Hzy), list_elem_of_here].
      destruct B as [|b B _] using rev_ind.
      + replace (A ++ [z; w]) with ((A ++ [z]) ++ [w]) in Heq by (by rewrite <-app_assoc).
        apply app_inj_tail in Heq as [-> _]. set_solver.
      + replace (A ++ z :: w :: B ++ [b]) with ((A ++ z :: w :: B) ++ [b]) in Heq
          by (by rewrite <-app_assoc).
        apply app_inj_tail in Heq as [-> _]. set_solver. }
  split; [|done|done|..].
  - assert (linked h' ((z :: reverse ys) ++ [tail_of l])) as Hk.
    { rewrite <-Hr, reverse_cons, <-app_assoc. apply linked_app.
      rewrite <-reverse_cons. done. }
    unfold nodes. rewrite Hr. done.
  - unfold nodes. rewrite reverse_Permutation. apply Hl.
  - unfold nodes. rewrite reverse_Permutation. apply Hl.
Qed.

Lemma exchange_ends_ok h l x z :
  head_of l ≠ tail_of l → x ≠ head_of l → z ≠ tail_of l →
  nxt h (head_of l) = Some x → prv h (tail_of l) = Some z →
  prv h z = Some (tail_of l) → nxt h x = Some (head_of l) →
  ∃ h', exchange_ends l h = Ret ((), h') ∧
    link h' (head_of l) z ∧ link h' x (tail_of l) ∧
    (∀ y, y ≠ z → y ≠ tail_of l → prv h' y = prv h y) ∧
    (∀ y, y ≠ x → y ≠ head_of l → nxt h' y = nxt h y) ∧
    only [head_of l; tail_of l; x; z] h h'.
Proof.
  intros Hht Hxh Hzt Hh Ht Hz Hx. unfold exchange_ends.
  pose proof (nxt_is_Some _ _ _ Hh). pose proof (prv_is_Some _ _ _ Ht).
  pose proof (nxt_is_Some _ _ _ Hx). pose proof (prv_is_Some _ _ _ Hz).
  cmd_step (load_next_ok _ _ _ Hh). cmd_step (load_prev_ok _ _ _ Ht).
  erewrite cstep; [|by apply store_next_ok]. cbv beta.
  erewrite cstep; [|apply store_prev_ok; by rewrite set_next_is_Some]. cbv beta.
  set (h2 := set_prev _ _ _).
  assert (nxt h2 (head_of l) = Some z) as H2h.
  { unfold h2. rewrite nxt_set_prev. by apply nxt_set_next_eq. }
  assert (prv h2 (tail_of l) = Some x) as H2t.
  { unfold h2. apply prv_set_prev_eq. by rewrite set_next_is_Some. }
  assert (∀ y, y ≠ tail_of l → prv h2 y = prv h y) as H2p.
  { intros y Hy. unfold h2. by rewrite prv_set_prev_ne, prv_set_next by done. }
  assert (∀ y, y ≠ head_of l → nxt h2 y = nxt h y) as H2n.
  { intros y Hy. unfold h2. by rewrite nxt_set_prev, nxt_set_next_ne by done. }
  cmd_step (load_next_ok _ _ _ H2h). cmd_step (load_prev_ok _ _ _ H2t).
  erewrite cstep; [|apply load_prev_ok; rewrite H2p by done; exact Hz]. cbv beta.
  erewrite cstep; [|apply load_next_ok; rewrite H2n by done; exact Hx]. cbv beta.
  assert (is_Some (h2 !! z) ∧ is_Some (h2 !! x)) as [H2z H2x].
  { unfold h2. by rewrite !set_prev_is_Some, !set_next_is_Some. }
  cmd_step (store_prev_ok h2 z (head_of l) H2z).
  rewrite store_next_ok by (by rewrite set_prev_is_Some).
  eexists. split; [done|].
  assert (∀ y, y ≠ z → prv (set_next x (tail_of l) (set_prev z (head_of l) h2)) y = prv h2 y) as H3p.
  { intros y Hy. by rewrite prv_set_next, prv_set_prev_ne by done. }
  assert (∀ y, y ≠ x → nxt (set_next x (tail_of l) (set_prev z (head_of l) h2)) y = nxt h2 y) as H3n.
  { intros y Hy. by rewrite nxt_set_next_ne, nxt_set_prev by done. }
  split; [|split; [|split; [|split]]].
  - split; [by rewrite H3n|]. rewrite prv_set_next. by apply prv_set_prev_eq.
  - split; [|by rewrite H3p]. apply nxt_set_next_eq. by rewrite set_prev_is_Some.
  - intros y ??. by rewrite H3p, H2p.
  - intros y ??. by rewrite H3n, H2n.
  - split; [by unfold h2, set_next, set_prev; rewrite !dom_alter_L|].
    intros y Hy. unfold h2, set_next, set_prev. rewrite !lookup_alter_ne by set_solver. done.
Qed.

Lemma list_reverse_ok h l xs : is_list h l xs →
  ∃ h', list_reverse l h = Ret ((), h') ∧ is_list h' l (reverse xs) ∧ only (nodes l xs) h h'.
Proof.
  intros Hl. unfold list_reverse. cmd_step (list_empty_ok _ _ _ Hl).
  destruct xs as [|x xs]; [by exists h|]. cmd_step (eq_refl : get h = Ret (h, h)).
  cmd_step (list_begin_ok _ _ _ Hl).
  destruct (reverse_loop_ok h l _ Hl (x :: xs) [] h (walk_fuel h)) as (h1 & Hw & Hdom & Hs).
  { done. } { split; [done|]. intros y. by rewrite decide_False by set_solver. }
  { pose proof (is_list_length _ _ _ Hl). unfold walk_fuel. lia. }
  rewrite (cstep _ _ _ _ _ Hw). clear Hw.
  destruct (exists_last (l := x :: xs)) as (ys & z & Hz); [done|].
  assert (z ∈ x :: xs) as Hzi by (rewrite Hz; set_solver).
  assert (head_of l ≠ tail_of l ∧ head_of l ∉ x :: xs ∧ tail_of l ∉ x :: xs) as (Hht & Hh & Ht).
  { pose proof (il_nodup _ _ _ Hl) as HN. unfold nodes in HN.
    rewrite NoDup_cons, NoDup_app in HN. destruct HN as (HN1 & _ & HN2 & _).
    split; [set_solver|]. split; [set_solver|]. intros Hin. apply (HN2 _ Hin). set_solver. }
  assert (∀ y, y ∈ x :: xs → prv h1 y = nxt h y ∧ nxt h1 y = prv h y) as Hin.
  { intros y Hy. unfold prv, nxt. rewrite Hs, decide_True by done. by destruct (h !! y). }
  assert (∀ y, y ∉ x :: xs → prv h1 y = prv h y ∧ nxt h1 y = nxt h y) as Hout.
  { intros y Hy. unfold prv, nxt. by rewrite Hs, decide_False by done. }
  assert (x ∈ x :: xs) as Hx by set_solver.
  destruct (exchange_ends_ok h1 l x z) as (h' & He & Hhz & Hxt & Hp & Hn & Ho).
  { done. } { set_solver. } { set_solver. }
  { rewrite (proj2 (Hout _ Hh)). by apply (head_is_list_next _ _ _ Hl). }
  { rewrite (proj1 (Hout _ Ht)), (tail_is_list_prev _ _ _ Hl), Hz. by rewrite pred_of_snoc. }
  { rewrite (proj1 (Hin z Hzi)). rewrite Hz in Hl.
    pose proof (is_list_link h l (ys ++ [z]) []) as Hk. rewrite pred_of_snoc in Hk.
    apply Hk. by rewrite app_nil_r. }
  { rewrite (proj2 (Hin x Hx)). apply (is_list_link h l [] (x :: xs) Hl). }
  exists h'. split; [done|]. split.
  - apply (reverse_links h h' l x xs ys z Hl Hz); try done.
    + intros y Hy Hyz. rewrite Hp; [by apply Hin|done|set_solver].
    + intros y Hy Hyx. rewrite Hn; [by apply Hin|done|set_solver].
    + rewrite Hp, (proj1 (Hout _ Hh)) by set_solver. apply Hl.
    + rewrite Hn, (proj2 (Hout _ Ht)) by set_solver. apply Hl.
  - apply (only_mono (nodes l (x :: xs) ++ [head_of l; tail_of l; x; z])).
    { intros y. unfold nodes. set_solver. }
    eapply only_trans; [|done]. split; [done|]. intros y Hy. rewrite Hs, decide_False; [done|].
    revert Hy. in_list.
Qed.

(** *** Duplicates *)

(** The reference for [list_unique]: what is kept and what is removed when
    [e] is the last element kept so far. *)
Fixpoint uniq (less : Z → Z → bool) (e : Z) (xs : list Z) : list Z * list Z :=
  match xs with
  | [] => ([e], [])
  | x :: r =>
      if negb (less e x) && negb (less x e)
      then let '(k, d) := uniq less e r in (k, x :: d)
      else let '(k, d) := uniq less x r in (e :: k, d)
  end.

(** The state of the loop: [A] is done, [e] is the current element, [R] is
    left; the duplicates list, if there is one, holds [D]. *)
Definition uniquing (less : Z → Z → bool) (l dup : Z) (K D : list Z)
    (n : nat) (e : Z) (h : heap) : Prop :=
  ∃ A R D', is_list h l (A ++ e :: R) ∧ K = A ++ (uniq less e R).1 ∧
    (dup ≠ NULL → is_list h dup D' ∧ D = D' ++ (uniq less e R).2 ∧
       ∀ y, y ∈ nodes dup D' → y ∉ nodes l (A ++ e :: R)) ∧
    n = length R.

Lemma unique_step less l dup K D n e h : uniquing less l dup K D n e h →
  ∃ nx, list_next e h = Ret (nx, h) ∧
    (negb (nx =? tail_of l) = true → ∃ e' h' n',
      (let* nxt := list_next e in
       if negb (less e nxt) && negb (less nxt e) then
         let* _ := list_remove nxt in
         let* _ := if negb (dup =? NULL) then list_push_back dup nxt else mret () in
         mret e
       else mret nxt) h = Ret (e', h') ∧
      uniquing less l dup K D n' e' h' ∧ (n' < n)%nat).
Proof.
  intros (A & R & D' & Hl & HK & HD & ->). exists (pos l R).
  pose proof (list_next_ok _ _ _ _ _ Hl) as Hn. split; [done|]. intros Hc.
  assert (is_list h l ((A ++ [e]) ++ R)) as Hl1 by (by rewrite <-app_assoc).
  rewrite (pos_eq_tail l (A ++ [e]) R) in Hc by apply Hl1.
  destruct R as [|x R]; [done|]. clear Hc. cmd_step Hn.
  change (pos l (x :: R)) with x. simpl in HK, HD.
  destruct (negb (less e x) && negb (less x e)) eqn:Hd; cbv iota.
  - destruct (list_remove_ok h l (A ++ [e]) x R Hl1) as (h1 & Hr & Hl2 & Ho). cmd_step Hr.
    destruct (uniq less e R) as [k d] eqn:Hu. rewrite <-app_assoc in Hl2. simpl in *.
    assert (x ∉ nodes l (A ++ e :: R)) as Hx.
    { pose proof (il_nodup _ _ _ Hl1) as HN. rewrite nodes_app in HN. apply NoDup_mid in HN.
      revert HN. in_list. }
    destruct (Z.eqb_spec dup NULL) as [Hz|Hz]; simpl.
    + exists e, h1, (length R). split; [done|]. split; [|lia].
      exists A, R, D'. rewrite Hu. split; [done|]. split; [done|].
      split; [intros Hnz; by destruct (Hnz Hz)|done].
    + destruct (HD Hz) as (Hdl & HDe & Hdis).
      assert (is_list h1 dup D') as Hdl1.
      { eapply is_list_frame; [|done]. intros y Hy. apply Ho. intros Hin.
        apply (Hdis y Hy). revert Hin. in_list. }
      assert (x ∉ nodes dup D') as Hxd.
      { intros Hin. apply (Hdis _ Hin). in_list. }
      assert (x ≠ NULL) as Hxn by (intros ->; apply (il_nonnull _ _ _ Hl); in_list).
      assert (is_Some (h1 !! x)) as Hxs.
      { apply (only_is_Some _ _ _ _ Ho). apply (is_list_in_dom _ _ _ x Hl). in_list. }
      destruct (list_push_back_ok h1 dup D' x Hdl1 Hxd Hxn Hxs) as (h2 & Hp & Hdl2 & Ho2).
      cmd_step Hp. exists e, h2, (length R). split; [done|]. split; [|lia].
      exists A, R, (D' ++ [x]). rewrite Hu. split; [|split; [done|split; [|done]]].
      * eapply is_list_frame; [|exact Hl2]. intros y Hy. apply Ho2. intros Hin.
        apply elem_of_cons in Hin as [->|Hin]; [done|]. apply (Hdis y Hin). revert Hy. in_list.
      * intros _. split; [done|]. split; [by rewrite <-app_assoc|]. intros y Hy Hin.
        assert (y = x ∨ y ∈ nodes dup D') as [->|Hy'] by (revert Hy; in_list); [done|].
        apply (Hdis y Hy'). revert Hin. in_list.
  - exists x, h, (length R). split; [done|]. split; [|simpl; lia].
    destruct (uniq less x R) as [k d] eqn:Hu. simpl in *.
    exists (A ++ [e]), R, D'. rewrite Hu, <-!app_assoc. split; [done|]. split; [done|]. done.
Qed.

Lemma list_unique_ok less l dup h x xs D :
  is_list h l (x :: xs) →
  (dup ≠ NULL → is_list h dup D ∧ ∀ y, y ∈ nodes dup D → y ∉ nodes l (x :: xs)) →
  ∃ h', list_unique less l dup h = Ret ((), h') ∧ is_list h' l (uniq less x xs).1 ∧
    (dup ≠ NULL → is_list h' dup (D ++ (uniq less x xs).2)).
Proof.
  intros Hl HD. unfold list_unique.
  rewrite (is_list_nonnull _ _ _ l Hl) by (unfold head_of; in_list).
  cmd_step (assert_ok true h eq_refl). cmd_step (list_empty_ok _ _ _ Hl).
  cmd_step (eq_refl : get h = Ret (h, h)).
  cmd_step (list_begin_ok _ _ _ Hl). cmd_step (list_end_ok _ _ _ Hl). simpl pos.
  match goal with |- context [cwhile _ ?c ?b _] =>
    destruct (cwhile_spec (uniquing less l dup (uniq less x xs).1 (D ++ (uniq less x xs).2))
      c b (walk_fuel h) (length xs) x h) as (e & h' & n' & Hw & HM & Hc) end.
  - intros n e t HM. destruct (unique_step _ _ _ _ _ _ _ _ HM) as (nx & Hn & Hb).
    exists (negb (nx =? tail_of l)). split; [by cmd_step Hn|done].
  - exists [], xs, D. simpl. split; [done|]. split; [done|]. split; [|done].
    intros Hz. destruct (HD Hz). done.
  - pose proof (is_list_length _ _ _ Hl) as Hlen. simpl in Hlen. unfold walk_fuel. lia.
  - rewrite (cstep _ _ _ _ _ Hw). exists h'. split; [done|].
    destruct HM as (A & R & D' & Hl' & HK & HD' & _).
    rewrite (cstep _ _ _ _ _ (list_next_ok _ _ _ _ _ Hl')) in Hc. injection Hc as Hc.
    assert (is_list h' l ((A ++ [e]) ++ R)) as Hl1 by (by rewrite <-app_assoc).
    rewrite (pos_eq_tail l (A ++ [e]) R) in Hc by apply Hl1.
    destruct R; [|done]. simpl in *. rewrite HK. split; [done|].
    intros Hz. destruct (HD' Hz) as (Hdl & -> & _). by rewrite app_nil_r.
Qed.

(** ** Facts about the references *)

Section References.
Context (less : Z → Z → bool) `{!StrictWeakOrder less}.
Notation sorted := (StronglySorted (le less)).

Lemma insert_pos_sorted e xs : sorted xs →
  sorted ((insert_pos less e xs).1 ++ e :: (insert_pos less e xs).2).
Proof.
  induction xs as [|x r IH]; intros Hs; [repeat constructor|].
  apply StronglySorted_inv in Hs as [Hs Hx]. simpl. destruct (less e x) eqn:He.
  - simpl. pose proof (swo_asym _ _ He) as Hxe.
    constructor; [by constructor|]. constructor; [done|].
    eapply Forall_impl; [done|]. intros y Hy. by eapply le_trans.
  - specialize (IH Hs). pose proof (insert_pos_app less e r) as Hr.
    destruct (insert_pos less e r) as [A B]. simpl in *. constructor; [done|]. subst r.
    rewrite Forall_app, Forall_cons. apply Forall_app in Hx as [HA HB]. done.
Qed.

Lemma insert_pos_greater e xs : sorted xs →
  Forall (λ y, less e y = true) (insert_pos less e xs).2.
Proof.
  induction xs as [|x r IH]; intros Hs; [constructor|].
  apply StronglySorted_inv in Hs as [Hs Hx]. simpl. destruct (less e x) eqn:He; simpl.
  - constructor; [done|]. eapply Forall_impl; [exact Hx|]. intros y Hy. unfold le in Hy.
    destruct (less e y) eqn:Hey; [done|].
    pose proof (swo_trans x y e Hy Hey). congruence.
  - destruct (insert_pos less e r). auto.
Qed.

Lemma flip_order : StrictWeakOrder (λ a b, less b a).
Proof. split; intros; [by apply swo_asym|by eapply swo_trans]. Qed.

Lemma uniq_perm e xs : e :: xs ≡ₚ (uniq less e xs).1 ++ (uniq less e xs).2.
Proof.
  revert e; induction xs as [|x r IH]; intros e; [done|]. simpl.
  destruct (negb (less e x) && negb (less x e)).
  - specialize (IH e). destruct (uniq less e r) as [k d]. simpl in *.
    rewrite (perm_swap x e), IH. apply Permutation_middle.
  - specialize (IH x). destruct (uniq less x r) as [k d]. simpl in *. by rewrite <-IH.
Qed.

Lemma uniq_head e xs : ∃ k, (uniq less e xs).1 = e :: k.
Proof.
  revert e; induction xs as [|x r IH]; intros e; [by exists []|]. simpl.
  destruct (negb (less e x) && negb (less x e)).
  - destruct (IH e) as [k Hk]. destruct (uniq less e r). by exists k.
  - destruct (uniq less x r). by eexists.
Qed.

(** In a sorted list what is kept is strictly increasing. *)
Lemma uniq_strict e xs : sorted (e :: xs) →
  StronglySorted (λ a b, less a b = true) (uniq less e xs).1.
Proof.
  revert e; induction xs as [|x r IH]; intros e Hs; [repeat constructor|].
  apply StronglySorted_inv in Hs as [Hs He]. simpl.
  apply Forall_cons in He as [Hex He]. destruct (less e x) eqn:Hlt; simpl.
  - specialize (IH x Hs). pose proof (uniq_perm x r) as Hp.
    destruct (uniq less x r) as [k d] eqn:Hu. simpl in *. constructor; [done|].
    assert (Forall (λ y, less x y = true ∨ y = x) k) as Hk.
    { destruct (uniq_head x r) as [k' Hk']. rewrite Hu in Hk'. simpl in Hk'. subst k.
      apply StronglySorted_inv in IH as [_ IH]. constructor; [by right|].
      eapply Forall_impl; [done|]. auto. }
    eapply Forall_impl; [exact Hk|]. intros y [Hy| ->]; [|done].
    destruct (less e y) eqn:Hey; [done|]. exfalso.
    pose proof (swo_trans x y e (swo_asym _ _ Hy) Hey) as Hbad. congruence.
  - rewrite Hex. simpl. specialize (IH e). destruct (uniq less e r) as [k d]. apply IH.
    apply StronglySorted_inv in Hs as [Hs _]. by constructor.
Qed.

(** The scan finds the first element that no other one beats. *)
Lemma scan_spec m xs : ∃ A B, m :: xs = A ++ scan less m xs :: B ∧
  Forall (λ y, less y (scan less m xs) = true) A ∧
  Forall (λ y, less (scan less m xs) y = false) B.
Proof.
  induction xs as [|x r IH] using rev_ind; [by exists [], []|].
  destruct IH as (A & B & Heq & HA & HB). unfold scan in *. rewrite fold_left_app. simpl.
  set (w := fold_left _ _ _) in *. destruct (less w x) eqn:Hwx.
  - exists (m :: r), []. split; [done|]. split; [|constructor]. rewrite Heq.
    apply Forall_app. split; [|constructor; [done|]].
    + eapply Forall_impl; [exact HA|]. intros y Hy. simpl in Hy.
      destruct (less y x) eqn:Hyx; [done|]. exfalso.
      pose proof (swo_trans x y w Hyx (swo_asym _ _ Hy)) as Hbad. congruence.
    + eapply Forall_impl; [exact HB|]. intros y Hy. simpl in Hy.
      destruct (less y x) eqn:Hyx; [done|]. exfalso.
      pose proof (swo_trans x y w Hyx Hy) as Hbad. congruence.
  - exists A, (B ++ [x]). split; [|split; [done|]].
    + rewrite app_comm_cons, Heq, <-app_assoc. done.
    + apply Forall_app. split; [done|]. by repeat constructor.
Qed.
End References.

(** ** Sequences of operations *)

(** The operations on one list and the list of elements they act on. *)
Inductive list_op :=
  | PushFront (e : Z) | PushBack (e : Z) | PopFront | PopBack
  | InsertAt (i : nat) (e : Z) | RemoveAt (i : nat) | Reverse | Size.

Definition abs_op (xs : list Z) (op : list_op) : option (Z * list Z) :=
  match op with
  | PushFront e => Some (0, e :: xs)
  | PushBack e => Some (0, xs ++ [e])
  | PopFront => match xs with x :: r => Some (x, r) | [] => None end
  | PopBack => z ← last xs; Some (z, take (pred (length xs)) xs)
  | InsertAt i e => if (i <=? length xs)%nat then Some (0, take i xs ++ e :: drop i xs) else None
  | RemoveAt i => z ← xs !! i; Some (z, take i xs ++ drop (S i) xs)
  | Reverse => Some (0, reverse xs)
  | Size => Some (Z.of_nat (length xs), xs)
  end.

(** The element an operation adds, if any, must be a node outside the list. *)
Definition op_fresh (h : heap) (l : Z) (xs : list Z) (op : list_op) : Prop :=
  match op with
  | PushFront e | PushBack e | InsertAt _ e => e ∉ nodes l xs ∧ e ≠ NULL ∧ is_Some (h !! e)
  | _ => True
  end.

(** The same operations with the calls of list.c; the position of index [i]
    is found with [list_begin] and [list_next]. *)
Fixpoint nth_pos (p : Z) (i : nat) : cmd heap Z :=
  match i with O => mret p | S i => let* p := list_next p in nth_pos p i end.

Definition conc_op (l : Z) (op : list_op) : cmd heap Z :=
  match op with
  | PushFront e => let* _ := list_push_front l e in mret 0
  | PushBack e => let* _ := list_push_back l e in mret 0
  | PopFront => list_pop_front l
  | PopBack => list_pop_back l
  | InsertAt i e =>
      let* b := list_begin l in let* p := nth_pos b i in
      let* _ := list_insert p e in mret 0
  | RemoveAt i =>
      let* b := list_begin l in let* p := nth_pos b i in
      let* _ := list_remove p in mret p
  | Reverse => let* _ := list_reverse l in mret 0
  | Size => list_size l
  end.

Fixpoint abs_ops (xs : list Z) (ops : list list_op) : option (list Z * list Z) :=
  match ops with
  | [] => Some ([], xs)
  | op :: ops =>
      '(r, xs) ← abs_op xs op;
      '(rs, xs) ← abs_ops xs ops;
      Some (r :: rs, xs)
  end.
Fixpoint conc_ops (l : Z) (ops : list list_op) : cmd heap (list Z) :=
  match ops with
  | [] => mret []
  | op :: ops => let* r := conc_op l op in let* rs := conc_ops l ops in mret (r :: rs)
  end.
Fixpoint ops_fresh (h : heap) (l : Z) (xs : list Z) (ops : list list_op) : Prop :=
  match ops with
  | [] => True
  | op :: ops => op_fresh h l xs op ∧
      match abs_op xs op with Some (_, xs') => ops_fresh h l xs' ops | None => True end
  end.

Lemma nth_pos_ok h l xs : is_list h l xs → ∀ i A B, xs = A ++ B → (i <= length B)%nat →
  nth_pos (pos l B) i h = Ret (pos l (drop i B), h).
Proof.
  intros Hl i. induction i as [|i IH]; intros A B Heq Hi; [done|].
  destruct B as [|b B]; simpl in Hi; [lia|]. simpl. subst xs.
  cmd_step (list_next_ok _ _ A b B Hl). apply (IH (A ++ [b]) B); [|lia].
  by rewrite <-app_assoc.
Qed.

Lemma at_index h l xs i : is_list h l xs → (i <= length xs)%nat →
  (let* b := list_begin l in nth_pos b i) h = Ret (pos l (drop i xs), h).
Proof.
  intros Hl Hi. cmd_step (list_begin_ok _ _ _ Hl). by apply (nth_pos_ok _ _ _ Hl i []).
Qed.

Lemma conc_op_ok h l xs op r xs' : is_list h l xs → op_fresh h l xs op →
  abs_op xs op = Some (r, xs') →
  ∃ h', conc_op l op h = Ret (r, h') ∧ is_list h' l xs' ∧ dom h' = dom h.
Proof.
  intros Hl Hf Ha. destruct op as [e|e| | |i e|i| |]; simpl in *.
  - injection Ha as <- <-. destruct Hf as (? & ? & ?).
    destruct (list_push_front_ok h l xs e) as (h' & Hp & ? & Hd & _); [done..|].
    exists h'. by cmd_step Hp.
  - injection Ha as <- <-. destruct Hf as (? & ? & ?).
    destruct (list_push_back_ok h l xs e) as (h' & Hp & ? & Hd & _); [done..|].
    exists h'. by cmd_step Hp.
  - destruct xs as [|x xs]; [done|]. injection Ha as <- <-.
    destruct (list_pop_front_ok h l x xs Hl) as (h' & ? & ? & Hd & _). by exists h'.
  - destruct (last xs) as [z|] eqn:Hz; [|done]. injection Ha as <- <-.
    apply last_Some in Hz as [xs0 ->].
    destruct (list_pop_back_ok h l z xs0 Hl) as (h' & ? & ? & Hd & _). exists h'.
    rewrite length_app, Nat.add_1_r. simpl. by rewrite take_app_length.
  - destruct (Nat.leb_spec i (length xs)); [|done]. injection Ha as <- <-.
    destruct Hf as (? & ? & ?). rewrite <-(take_drop i xs) in Hl.
    destruct (list_insert_ok h l (take i xs) (drop i xs) e) as (h' & Hp & ? & Hd & _);
      rewrite ?take_drop in *; [done..|].
    exists h'. cmd_step (list_begin_ok _ _ _ Hl). cmd_step (nth_pos_ok h l xs Hl i [] xs eq_refl H).
    by cmd_step Hp.
  - destruct (xs !! i) as [z|] eqn:Hz; [|done]. injection Ha as <- <-.
    pose proof (take_drop_middle _ _ _ Hz) as Hx. pose proof (lookup_lt_Some _ _ _ Hz) as Hi.
    pose proof Hl as Hl'. rewrite <-Hx in Hl'.
    destruct (list_remove_ok h l _ z _ Hl') as (h' & Hp & ? & Hd & _). exists h'.
    cmd_step (list_begin_ok _ _ _ Hl).
    cmd_step (nth_pos_ok h l xs Hl i [] xs eq_refl (Nat.lt_le_incl _ _ Hi)).
    rewrite (drop_S _ _ _ Hz). change (pos l (z :: drop (S i) xs)) with z. by cmd_step Hp.
  - injection Ha as <- <-. destruct (list_reverse_ok h l xs Hl) as (h' & Hp & ? & Hd & _).
    exists h'. by cmd_step Hp.
  - injection Ha as <- <-. exists h. by rewrite (list_size_ok _ _ _ Hl).
Qed.

Lemma ops_fresh_dom h h' l xs ops : dom h' = dom h → ops_fresh h l xs ops → ops_fresh h' l xs ops.
Proof.
  intros Hd. revert xs. induction ops as [|op ops IH]; intros xs; [done|]. intros [H1 H2].
  split; [|destruct (abs_op xs op) as [[? ?]|]; auto]. destruct op; simpl in *; try done;
    by rewrite <-elem_of_dom, Hd, elem_of_dom.
Qed.

(** Splicing between two lists that share no node. *)
Lemma splice_between_ok h l1 A f S1 B l2 C D :
  is_list h l1 (A ++ (f :: S1) ++ B) → is_list h l2 (C ++ D) →
  (∀ y, y ∈ nodes l1 (A ++ (f :: S1) ++ B) → y ∉ nodes l2 (C ++ D)) →
  ∃ h', list_splice (pos l2 D) f (pos l1 B) h = Ret ((), h') ∧
    is_list h' l1 (A ++ B) ∧ is_list h' l2 (C ++ (f :: S1) ++ D) ∧
    only (nodes l1 (A ++ (f :: S1) ++ B) ++ nodes l2 (C ++ D)) h h'.
Proof.
  intros Hl1 Hl2 Hd. set (S := f :: S1) in *.
  assert (∃ S2 z, S = S2 ++ [z]) as (S2 & z & HS).
  { destruct (exists_last (l := S)) as (S2 & z & ?); [done|]. by exists S2, z. }
  destruct (is_list_link_out h l1 A B S S1 S2 f z eq_refl HS Hl1) as (_ & _ & Hl1' & _).
  set (h1 := link_out (pred_of l1 A) (pos l1 B) h) in *.
  assert (only (nodes l1 (A ++ B)) h h1) as Ho1.
  { apply only_link_out; [apply pred_in_nodes|apply pos_in_nodes]. }
  assert (∀ y, y ∈ nodes l1 (A ++ B) ∨ y ∈ S → y ∈ nodes l1 (A ++ S ++ B)) as Hin.
  { intros y. rewrite !nodes_app, !elem_of_app. tauto. }
  destruct (splice_ok h l1 A S S1 S2 f z B l2 C D) as (h' & Hs & Hl2' & Ho & Ho2); try done.
  - by apply (assert_position_ok h l2 C D).
  - eapply is_list_frame; [|exact Hl2]. intros y Hy. apply Ho1. intros Hin1.
    apply (Hd y); [|done]. auto.
  - auto.
  - exists h'. split; [done|]. split; [|done].
    eapply is_list_frame; [|exact Hl1']. intros y Hy. apply Ho2.
    rewrite elem_of_app. intros [HyS|Hy2]; [|apply (Hd y); auto].
    pose proof (il_nodup _ _ _ Hl1) as HN. rewrite nodes_app in HN, Hy.
    rewrite <-app_assoc, Permutation_app_swap_app in HN. apply NoDup_app in HN as (_ & HN & _).
    by apply (HN y).
Qed.

(** ** Properties *)

(** A list of three elements at 200, 300 and 400 with its sentinels at 100
    and 108, two lone elements at 500 and 600, and an empty list at 700. *)
Definition demo_heap : heap := list_to_map
  [(100, Elem 0 200); (200, Elem 100 300); (300, Elem 200 400);
   (400, Elem 300 108); (108, Elem 400 0);
   (500, Elem 0 0); (600, Elem 7 9); (700, Elem 0 708); (708, Elem 700 0)].

(** Elements compared as the thread list would compare a key: by the
    hundreds of the address, in decreasing order. *)
Definition demo_less (a b : Z) : bool := (b / 200 <? a / 200).

Lemma demo_is_list : is_list demo_heap 100 [200; 300; 400].
Proof.
  split; [repeat split| | | |]; try reflexivity.
  - apply (bool_decide_unpack _). by vm_compute.
  - apply (bool_decide_unpack _). by vm_compute.
Defined.
Lemma demo_is_list' : is_list demo_heap 700 [].
Proof.
  split; [repeat split| | | |]; try reflexivity.
  - apply (bool_decide_unpack _). by vm_compute.
  - apply (bool_decide_unpack _). by vm_compute.
Defined.
#[global] Instance demo_less_order : StrictWeakOrder demo_less.
Proof. split; unfold demo_less; intros; bool_prop; lia. Defined.

(** C10. [list_sort], the natural merge sort on the links themselves, always
    terminates without an assertion failure or a wild access (its fuel is
    never exhausted); the list then holds the same elements in an order
    compatible with [less], and no node outside the list has changed. *)
Theorem list_sort_sorts less `{!StrictWeakOrder less} h l xs : is_list h l xs →
  ∃ h' ys, list_sort less l h = Ret ((), h') ∧ is_list h' l ys ∧ xs ≡ₚ ys ∧
    StronglySorted (λ a b, less b a = false) ys ∧ only (nodes l xs) h h'.
Proof. apply list_sort_ok, _. Qed.

Lemma list_sort_sorts_witness :
  is_list demo_heap 100 [200; 300; 400] ∧
  ∃ h' ys, list_sort demo_less 100 demo_heap = Ret ((), h') ∧ is_list h' 100 ys ∧
    [200; 300; 400] ≡ₚ ys ∧ StronglySorted (λ a b, demo_less b a = false) ys ∧
    only (nodes 100 [200; 300; 400]) demo_heap h'.
Proof. split; [exact demo_is_list|]. apply list_sort_sorts; [apply _|exact demo_is_list]. Defined.

(** C9. Any sequence of pushes, pops, insertions, removals, reversals and
    size queries on the pointer structure returns what the same sequence on a
    functional list returns, and leaves a well-formed list of the same
    elements, provided each added element is a node outside the list and no
    pop or removal is asked of a missing element. *)
Theorem list_ops_refine h l xs ops rs xs' :
  is_list h l xs → ops_fresh h l xs ops → abs_ops xs ops = Some (rs, xs') →
  ∃ h', conc_ops l ops h = Ret (rs, h') ∧ is_list h' l xs'.
Proof.
  revert h xs rs. induction ops as [|op ops IH]; intros h xs rs Hl Hf Ha; simpl in *.
  { injection Ha as <- <-. by exists h. }
  destruct (abs_op xs op) as [[r xs1]|] eqn:Hop; simpl in Ha; [|done].
  destruct (abs_ops xs1 ops) as [[rs1 xs2]|] eqn:Hops; simpl in Ha; [|done].
  injection Ha as <- <-. destruct Hf as [Hf1 Hf2].
  destruct (conc_op_ok h l xs op r xs1 Hl Hf1 Hop) as (h1 & Hc & Hl1 & Hd).
  destruct (IH h1 xs1 rs1 Hl1) as (h2 & Hcs & Hl2); [|done|].
  { by eapply ops_fresh_dom. }
  exists h2. cmd_step Hc. by cmd_step Hcs.
Qed.

Lemma list_ops_refine_witness :
  let ops := [PushBack 500; InsertAt 1 600; Reverse; PopFront; RemoveAt 2; PopBack; Size] in
  ∃ h', conc_ops 100 ops demo_heap = Ret ([0; 0; 0; 500; 600; 200; 2], h') ∧
    is_list h' 100 [400; 300].
Proof.
  apply list_ops_refine with (xs := [200; 300; 400]); [exact demo_is_list| |reflexivity].
  cbn. repeat split; try done;
    first [eexists; reflexivity | apply (bool_decide_unpack _); by vm_compute].
Defined.

(** [list_splice] moves a non-empty run of elements out of one list and
    in front of any position of another one: both lists stay well formed, hold
    exactly the expected elements in order, and nothing else is touched. *)
Theorem list_splice_moves h l1 A f S1 B l2 C D :
  is_list h l1 (A ++ (f :: S1) ++ B) → is_list h l2 (C ++ D) →
  (∀ y, y ∈ nodes l1 (A ++ (f :: S1) ++ B) → y ∉ nodes l2 (C ++ D)) →
  ∃ h', list_splice (pos l2 D) f (pos l1 B) h = Ret ((), h') ∧
    is_list h' l1 (A ++ B) ∧ is_list h' l2 (C ++ (f :: S1) ++ D) ∧
    only (nodes l1 (A ++ (f :: S1) ++ B) ++ nodes l2 (C ++ D)) h h'.
Proof. apply splice_between_ok. Qed.

Lemma list_splice_moves_witness :
  ∃ h', list_splice 708 300 108 demo_heap = Ret ((), h') ∧
    is_list h' 100 [200] ∧ is_list h' 700 [300; 400] ∧
    only (nodes 100 [200; 300; 400] ++ nodes 700 []) demo_heap h'.
Proof.
  apply (list_splice_moves demo_heap 100 [200] 300 [400] [] 700 [] []).
  - exact demo_is_list.
  - exact demo_is_list'.
  - unfold nodes. simpl. intros y Hy. repeat (apply elem_of_cons in Hy as [->|Hy]);
      try (apply (bool_decide_unpack _); by vm_compute). by apply elem_of_nil in Hy.
Defined.

(** [list_insert_ordered] puts its element after every element that is
    not greater, so it keeps a sorted list sorted and the order of equal
    elements is the order of their insertion. *)
Theorem list_insert_ordered_sorted less `{!StrictWeakOrder less} h l xs e :
  is_list h l xs → e ∉ nodes l xs → e ≠ NULL → is_Some (h !! e) →
  StronglySorted (λ a b, less b a = false) xs →
  ∃ h' A B, xs = A ++ B ∧ list_insert_ordered less l e h = Ret ((), h') ∧
    is_list h' l (A ++ e :: B) ∧ StronglySorted (λ a b, less b a = false) (A ++ e :: B) ∧
    Forall (λ y, less e y = true) B.
Proof.
  intros Hl He Hn Hd Hs.
  destruct (list_insert_ordered_ok less h l xs e) as (h' & Hi & Hl' & _); [done..|].
  exists h', (insert_pos less e xs).1, (insert_pos less e xs).2.
  split; [apply insert_pos_app|]. split; [done|]. split; [done|].
  split; [by apply insert_pos_sorted|by apply insert_pos_greater].
Qed.

Lemma list_insert_ordered_sorted_witness :
  ∃ h' A B, [200; 300; 400] = A ++ B ∧
    list_insert_ordered (λ a b, a <? b) 100 500 demo_heap = Ret ((), h') ∧
    is_list h' 100 (A ++ 500 :: B) ∧
    StronglySorted (λ a b, (b <? a) = false) (A ++ 500 :: B) ∧
    Forall (λ y, (500 <? y) = true) B.
Proof.
  apply list_insert_ordered_sorted.
  - split; intros; bool_prop; lia.
  - exact demo_is_list.
  - apply (bool_decide_unpack _). by vm_compute.
  - done.
  - eexists. reflexivity.
  - repeat constructor.
Defined.

(** On a sorted non-empty list [list_unique] leaves a strictly increasing
    list and moves every other element, in order, to the end of the list of
    duplicates when there is one; no element is lost. *)
Theorem list_unique_removes less `{!StrictWeakOrder less} l dup h x xs D :
  is_list h l (x :: xs) →
  (dup ≠ NULL → is_list h dup D ∧ ∀ y, y ∈ nodes dup D → y ∉ nodes l (x :: xs)) →
  StronglySorted (λ a b, less b a = false) (x :: xs) →
  ∃ h' K M, list_unique less l dup h = Ret ((), h') ∧ is_list h' l K ∧
    (dup ≠ NULL → is_list h' dup (D ++ M)) ∧ x :: xs ≡ₚ K ++ M ∧
    StronglySorted (λ a b, less a b = true) K.
Proof.
  intros Hl HD Hs. destruct (list_unique_ok less l dup h x xs D Hl HD) as (h' & Hu & Hl' & HD').
  exists h', (uniq less x xs).1, (uniq less x xs).2. do 3 (split; [done|]).
  split; [apply uniq_perm|by apply uniq_strict].
Qed.

Lemma list_unique_removes_witness :
  ∃ h' K M, list_unique (λ a b, a / 200 <? b / 200) 100 700 demo_heap = Ret ((), h') ∧ is_list h' 100 K ∧
    (700 ≠ NULL → is_list h' 700 ([] ++ M)) ∧ [200; 300; 400] ≡ₚ K ++ M ∧
    StronglySorted (λ a b, (a / 200 <? b / 200) = true) K.
Proof.
  apply list_unique_removes.
  - split; intros; bool_prop; lia.
  - exact demo_is_list.
  - intros _. split; [exact demo_is_list'|]. unfold nodes. simpl. intros y Hy.
    repeat (apply elem_of_cons in Hy as [->|Hy]);
      try (apply (bool_decide_unpack _); by vm_compute). by apply elem_of_nil in Hy.
  - repeat constructor.
Defined.

(** [list_max] returns the first of the greatest elements and [list_min]
    the first of the smallest ones, and neither changes a link. *)
Theorem list_max_min less `{!StrictWeakOrder less} h l x xs : is_list h l (x :: xs) →
  ∃ A m B A' n B', list_max less l h = Ret (m, h) ∧ list_min less l h = Ret (n, h) ∧
    x :: xs = A ++ m :: B ∧ Forall (λ y, less y m = true) A ∧ Forall (λ y, less m y = false) B ∧
    x :: xs = A' ++ n :: B' ∧ Forall (λ y, less n y = true) A' ∧ Forall (λ y, less y n = false) B'.
Proof.
  intros Hl. rewrite (list_max_ok _ _ _ _ Hl), (list_min_ok _ _ _ _ Hl).
  destruct (scan_spec less x xs) as (A & B & H1 & H2 & H3).
  destruct (scan_spec (λ a b, less b a) (StrictWeakOrder0 := flip_order less) x xs)
    as (A' & B' & H4 & H5 & H6).
  by exists A, (scan less x xs), B, A', (scan (λ m e, less e m) x xs), B'.
Qed.

Lemma list_max_min_witness :
  ∃ A m B A' n B', list_max demo_less 100 demo_heap = Ret (m, demo_heap) ∧
    list_min demo_less 100 demo_heap = Ret (n, demo_heap) ∧
    [200; 300; 400] = A ++ m :: B ∧ Forall (λ y, demo_less y m = true) A ∧
    Forall (λ y, demo_less m y = false) B ∧
    [200; 300; 400] = A' ++ n :: B' ∧ Forall (λ y, demo_less n y = true) A' ∧
    Forall (λ y, demo_less y n = false) B'.
Proof. apply list_max_min; [apply _|exact demo_is_list]. Defined.
