(* ===== verification/Hash.v ===== *)
(** * Hash tables (lib/kernel/hash.c, hash.h)

    A table is its counters and its array of buckets.  A bucket is a
    [struct list]; it is represented by the list of the element pointers it
    holds, in order, which [Klist] shows to be what the operations of list.c
    maintain.  The hash and comparison functions of a table, which the client
    passes to [hash_init], are arguments of the operations, and so is the
    outcome of the [malloc] that [rehash] calls (true: it returned memory).

    The table refines a finite map from keys to elements for every client
    whose functions satisfy [HashKey]. *)

From S2P Require Import Prelude.

Record hash := Hash {
  elem_cnt : Z;               (* Number of elements in table. *)
  bucket_cnt : Z;             (* Number of buckets, a power of 2. *)
  buckets : list (list Z)     (* Array of `bucket_cnt' lists. *)
}.

Definition turn_off_least_1bit (x : Z) : Z := Z.land x (u32 (x - 1)).
Definition is_power_of_2 (x : Z) : bool := negb (x =? 0) && (turn_off_least_1bit x =? 0).

Definition BEST_ELEMS_PER_BUCKET : Z := 2.

(** The number of buckets [rehash] wants for [cnt] elements.  A 32-bit
    number has at most 32 bits to turn off. *)
Definition ideal_bucket_cnt (cnt : Z) : outcome Z :=
  let n := cnt / BEST_ELEMS_PER_BUCKET in
  let n := if n <? 4 then 4 else n in
  while 33 (λ n, Ret (negb (is_power_of_2 n))) (λ n, Ret (turn_off_least_1bit n)) n.

Section Table.
Context (hash_fn : Z → Z) (less : Z → Z → bool).

Definition find_bucket (h : hash) (e : Z) : Z :=
  Z.land (hash_fn e) (u32 (bucket_cnt h - 1)).

Fixpoint find_elem (bucket : list Z) (e : Z) : option Z :=
  match bucket with
  | [] => None
  | hi :: r => if negb (less hi e) && negb (less e hi) then Some hi else find_elem r e
  end.

Definition push_front (bs : list (list Z)) (i e : Z) : outcome (list (list Z)) :=
  let* b := access (zget bs i) in access (zset bs i (e :: b)).

Definition insert_elem (h : hash) (bucket e : Z) : outcome hash :=
  let* bs := push_front (buckets h) bucket e in
  Ret (Hash (u32 (elem_cnt h + 1)) (bucket_cnt h) bs).

(** [list_remove] unlinks the element from the bucket that holds it. *)
Definition remove_elem (h : hash) (e : Z) : hash :=
  Hash (u32 (elem_cnt h - 1)) (bucket_cnt h) (filter (λ x, x ≠ e) <$> buckets h).

(** Move each element of the old buckets to the front of its new bucket. *)
Fixpoint move_all (h : hash) (es : list Z) : outcome hash :=
  match es with
  | [] => Ret h
  | e :: es =>
      let* bs := push_front (buckets h) (find_bucket h e) e in
      move_all (Hash (elem_cnt h) (bucket_cnt h) bs) es
  end.
Fixpoint move_buckets (h : hash) (old : list (list Z)) : outcome hash :=
  match old with
  | [] => Ret h
  | b :: old => let* h := move_all h b in move_buckets h old
  end.

Definition rehash (h : hash) (malloc_ok : bool) : outcome hash :=
  let* new_bucket_cnt := ideal_bucket_cnt (elem_cnt h) in
  if new_bucket_cnt =? bucket_cnt h then Ret h
  else if negb malloc_ok then Ret h
  else
    let h' := Hash (elem_cnt h) new_bucket_cnt (replicate (Z.to_nat new_bucket_cnt) []) in
    move_buckets h' (buckets h).

(** With a destructor each element is popped and passed to it. *)
Definition hash_clear {A} (h : hash) (destructor : option (Z → A → A)) (a : A) : A * hash :=
  let clear_bucket a b :=
    match destructor with Some f => foldl (λ a e, f e a) a b | None => a end in
  (foldl clear_bucket a (buckets h),
   Hash 0 (bucket_cnt h) ((λ _, []) <$> buckets h)).

(** [None]: no memory for the buckets, and the caller gets false. *)
Definition hash_init (malloc_ok : bool) : option hash :=
  if malloc_ok then Some (hash_clear (Hash 0 4 (replicate 4 [])) None ()).2 else None.

(** The buckets are then freed: what remains is the destructor's effect. *)
Definition hash_destroy {A} (h : hash) (destructor : option (Z → A → A)) (a : A) : A :=
  match destructor with Some _ => (hash_clear h destructor a).1 | None => a end.

Definition find_in (h : hash) (e : Z) : outcome (option Z) :=
  let* b := access (zget (buckets h) (find_bucket h e)) in
  Ret (find_elem b e).

Definition hash_insert (h : hash) (new : Z) (malloc_ok : bool) : outcome (option Z * hash) :=
  let bucket := find_bucket h new in
  let* old := find_in h new in
  let* h := match old with None => insert_elem h bucket new | Some _ => Ret h end in
  let* h := rehash h malloc_ok in
  Ret (old, h).

Definition hash_replace (h : hash) (new : Z) (malloc_ok : bool) : outcome (option Z * hash) :=
  let bucket := find_bucket h new in
  let* old := find_in h new in
  let h := match old with Some o => remove_elem h o | None => h end in
  let* h := insert_elem h bucket new in
  let* h := rehash h malloc_ok in
  Ret (old, h).

Definition hash_find (h : hash) (e : Z) : outcome (option Z) := find_in h e.

Definition hash_delete (h : hash) (e : Z) (malloc_ok : bool) : outcome (option Z * hash) :=
  let* found := find_in h e in
  match found with
  | Some x => let* h := rehash (remove_elem h x) malloc_ok in Ret (Some x, h)
  | None => Ret (None, h)
  end.

(** The action is called on each element, bucket after bucket; it may fail
    and it threads a state. *)
Fixpoint apply_bucket {A} (action : Z → A → outcome A) (b : list Z) (a : A) : outcome A :=
  match b with [] => Ret a | e :: b => let* a := action e a in apply_bucket action b a end.
Fixpoint hash_apply_from {A} (action : Z → A → outcome A) (bs : list (list Z)) (a : A) : outcome A :=
  match bs with
  | [] => Ret a
  | b :: bs => let* a := apply_bucket action b a in hash_apply_from action bs a
  end.
Definition hash_apply {A} (h : hash) (action : Z → A → outcome A) (a : A) : outcome A :=
  hash_apply_from action (buckets h) a.
End Table.

Definition hash_size (h : hash) : Z := elem_cnt h.
Definition hash_empty (h : hash) : bool := elem_cnt h =? 0.

(** ** Iteration

    The current element of an iterator is a position in the list of its
    bucket: [-1] is the list's head, the length its tail; [None] is the null
    pointer that ends the iteration. *)
Record hash_iterator := Iter { it_bucket : Z; it_pos : option Z }.

Definition hash_first : hash_iterator := Iter 0 (Some (-1)).

Definition bucket_at (h : hash) (i : Z) : outcome (list Z) := access (zget (buckets h) i).

(** The loop of [hash_next]: leave exhausted buckets. *)
Definition next_bucket (h : hash) (i : hash_iterator) : outcome hash_iterator :=
  while (S (length (buckets h)))
    (λ i, match it_pos i with
          | Some p => let* b := bucket_at h (it_bucket i) in Ret (p =? zlength b)
          | None => Ret false
          end)
    (λ i, let b := it_bucket i + 1 in
          if bucket_cnt h <=? b then Ret (Iter b None) else Ret (Iter b (Some 0)))
    i.

Definition hash_cur (h : hash) (i : hash_iterator) : outcome (option Z) :=
  match it_pos i with
  | None => Ret None
  | Some p =>
      let* b := bucket_at h (it_bucket i) in
      let* e := access (zget b p) in
      Ret (Some e)
  end.

Definition hash_next (h : hash) (i : hash_iterator) : outcome (option Z * hash_iterator) :=
  match it_pos i with
  | None => Fail Fault
  | Some p =>
      let* i := next_bucket h (Iter (it_bucket i) (Some (p + 1))) in
      let* e := hash_cur h i in
      Ret (e, i)
  end.

(** [while (hash_next (&i)) ... hash_cur (&i) ...], collecting the elements. *)
Fixpoint iterate (fuel : nat) (h : hash) (i : hash_iterator) : outcome (list Z) :=
  match fuel with
  | O => Fail OutOfFuel
  | S fuel =>
      let* (e, i) := hash_next h i in
      match e with
      | None => Ret []
      | Some e => let* r := iterate fuel h i in Ret (e :: r)
      end
  end.

(** ** The sample hash functions: Fowler-Noll-Vo *)
Definition FNV_32_PRIME : Z := 16777619.
Definition FNV_32_BASIS : Z := 2166136261.

Definition fnv_step (hash byte : Z) : Z := Z.lxor (u32 (hash * FNV_32_PRIME)) byte.

Definition hash_bytes (buf : list Z) : Z := foldl fnv_step FNV_32_BASIS buf.

(** The string ends at the first zero byte; memory without one is a fault. *)
Fixpoint hash_string_from (hash : Z) (s : list Z) : outcome Z :=
  match s with
  | [] => Fail Fault
  | c :: s => if c =? 0 then Ret hash else hash_string_from (fnv_step hash c) s
  end.
Definition hash_string (s : list Z) : outcome Z := hash_string_from FNV_32_BASIS s.

(** The four bytes of an [int], least significant first. *)
Definition int_bytes (i : Z) : list Z :=
  [u8 i; u8 (Z.shiftr (u32 i) 8); u8 (Z.shiftr (u32 i) 16); u8 (Z.shiftr (u32 i) 24)].
Definition hash_int (i : Z) : Z := hash_bytes (int_bytes i).

Global Arguments hash_bytes : simpl never.
Global Arguments hash_int : simpl never.

(** ** Powers of two *)

Lemma land_pred_pow2 k : 0 ≤ k → Z.land (2^k) (2^k - 1) = 0.
Proof.
  intros. replace (2^k - 1) with (Z.ones k) by (rewrite Z.ones_equiv; lia).
  rewrite Z.land_ones by done. apply Z.mod_same. lia.
Qed.

Lemma testbit_top k n : 0 ≤ k → 2^k ≤ n < 2^(k + 1) → Z.testbit n k = true.
Proof.
  intros. rewrite Z.testbit_true by done. rewrite <-(Z.div_unique n (2^k) 1 (n - 2^k)); [done|..].
  - left. rewrite Z.pow_add_r in * by lia. lia.
  - lia.
Qed.

Section TurnOff.
Context (k n : Z) (Hk : 0 ≤ k < 32) (Hn : 2^k ≤ n < 2^(k + 1)).

Lemma turn_off_exact : turn_off_least_1bit n = Z.land n (n - 1).
Proof.
  unfold turn_off_least_1bit. rewrite u32_id; [done|].
  assert (2^(k+1) ≤ 2^32) by (apply Z.pow_le_mono_r; lia).
  assert (0 < 2^k) by (apply Z.pow_pos_nonneg; lia). lia.
Qed.

Lemma turn_off_top : n ≠ 2^k → 2^k ≤ turn_off_least_1bit n < 2^(k + 1).
Proof.
  intros Hne. rewrite turn_off_exact. split.
  - assert (Z.testbit (Z.land n (n - 1)) k = true) as Hb.
    { rewrite Z.land_spec, !testbit_top by lia. done. }
    destruct (Z.lt_ge_cases (Z.land n (n - 1)) (2^k)) as [Hlt|]; [|done].
    assert (0 ≤ Z.land n (n - 1)) by (apply Z.land_nonneg; lia).
    rewrite Z.bits_above_log2 in Hb; [done..|].
    destruct (decide (Z.land n (n - 1) = 0)) as [Hz|]; [rewrite Hz in Hb; by rewrite Z.bits_0 in Hb|].
    apply Z.log2_lt_pow2; lia.
  - assert (0 ≤ Z.land n (n - 1)) by (apply Z.land_nonneg; lia).
    assert (Z.land n (n - 1) ≤ n); [|lia]. apply Z.ldiff_le; [lia|].
    apply Z.bits_inj'. intros i Hi. rewrite Z.ldiff_spec, Z.land_spec, Z.bits_0.
    destruct (Z.testbit n i), (Z.testbit (n - 1) i); done.
Qed.

Lemma is_power_of_2_iff : is_power_of_2 n = true ↔ n = 2^k.
Proof.
  assert (0 < 2^k) by (apply Z.pow_pos_nonneg; lia).
  unfold is_power_of_2. destruct (Z.eqb_spec n 0); [lia|]. simpl. rewrite Z.eqb_eq. split.
  - intros Hz. destruct (decide (n = 2^k)); [done|]. pose proof turn_off_top. lia.
  - intros E. rewrite turn_off_exact, E. apply land_pred_pow2. lia.
Qed.

(** Turning off the lowest bit makes the number divisible by one more power. *)
Lemma turn_off_divides j : 0 ≤ j → (2^j | n) → (2^(j + 1) | turn_off_least_1bit n).
Proof.
  intros Hj [q Hq]. rewrite turn_off_exact.
  assert (0 < 2^j) by (apply Z.pow_pos_nonneg; lia).
  assert (Z.land n (n - 1) mod 2^(j + 1) = 0) as Hm.
  { rewrite <-Z.land_ones by lia. apply Z.bits_inj'. intros i Hi.
    rewrite Z.land_spec, Z.land_spec, Z.bits_0.
    destruct (Z.lt_ge_cases i (j + 1)); [|rewrite Z.ones_spec_high by lia; apply andb_false_r].
    rewrite Z.ones_spec_low, andb_true_r by lia.
    assert (n = Z.shiftl q j) as Hsh by (rewrite Z.shiftl_mul_pow2; lia).
    destruct (decide (i = j)) as [->|]; [|by rewrite Hsh, Z.shiftl_spec_low by lia].
    rewrite Hsh at 1. rewrite Z.shiftl_spec_high, Z.sub_diag, Z.bit0_odd by lia.
    destruct (Z.odd q) eqn:Hodd; [|done]. simpl.
    rewrite <-(Z.add_0_l j), <-Z.shiftr_spec, Z.bit0_odd by lia.
    rewrite Z.shiftr_div_pow2 by lia.
    rewrite <-(Z.div_unique (n - 1) (2^j) (q - 1) (2^j - 1)) by lia.
    rewrite Z.odd_sub, Hodd. done. }
  apply Z.mod_divide in Hm; [done|]. assert (0 < 2^(j+1)); [apply Z.pow_pos_nonneg; lia|lia].
Qed.
End TurnOff.

Lemma round_down_pow2 f k j n : 0 ≤ k < 32 → 0 ≤ j → 2^k ≤ n < 2^(k + 1) → (2^j | n) →
  k - j < Z.of_nat f →
  while f (λ n, Ret (negb (is_power_of_2 n))) (λ n, Ret (turn_off_least_1bit n)) n = Ret (2^k).
Proof.
  intros Hk. revert j n; induction f as [|f IH]; intros j n Hj Hn Hd Hf.
  - assert (j ≤ k); [|lia]. apply (Z.pow_le_mono_r_iff 2); [lia..|].
    destruct (Z.le_gt_cases (2^j) n) as [Hle|Hgt].
    + destruct (decide (j ≤ k)); [by apply Z.pow_le_mono_r|].
      assert (2^(k+1) ≤ 2^j) by (apply Z.pow_le_mono_r; lia). lia.
    + apply Z.divide_pos_le in Hd; [lia|]. assert (0 < 2^k) by (apply Z.pow_pos_nonneg; lia). lia.
  - simpl. destruct (is_power_of_2 n) eqn:Hp; simpl.
    + apply (is_power_of_2_iff k n Hk Hn) in Hp. by subst.
    + assert (n ≠ 2^k) by (intros E; apply (is_power_of_2_iff k n Hk Hn) in E; congruence).
      apply (IH (j + 1)); [lia|by apply turn_off_top|by apply (turn_off_divides k)|lia].
Qed.

Lemma ideal_bucket_cnt_ok c : 0 ≤ c < 2^32 →
  ∃ k, 2 ≤ k < 32 ∧ ideal_bucket_cnt c = Ret (2^k) ∧
    ((c < 8 ∧ k = 2) ∨ 2 * 2^k ≤ c < 4 * 2^k).
Proof.
  intros Hc. unfold ideal_bucket_cnt, BEST_ELEMS_PER_BUCKET.
  destruct (Z.ltb_spec (c / 2) 4).
  - exists 2. split; [lia|]. split; [|left; div_lia].
    apply (round_down_pow2 33 2 0); try lia. apply Z.divide_1_l.
  - set (n := c / 2) in *. exists (Z.log2 n). pose proof (Z.log2_spec n) as Hl.
    assert (2 ≤ Z.log2 n) by (apply Z.log2_le_pow2; lia).
    assert (Z.log2 n < 32) by (apply Z.log2_lt_pow2; subst n; div_lia).
    split; [lia|]. split; [|right].
    + apply (round_down_pow2 33 (Z.log2 n) 0); try lia. apply Z.divide_1_l.
    + rewrite Z.pow_succ_r in Hl by lia. subst n. div_lia.
Qed.

(** ** What a client's functions must satisfy

    [key] is the part of an element that [less] compares: elements are equal
    to the table exactly when their keys are equal, and then they hash to the
    same value. *)
Class HashKey {K} (key : Z → K) (hash_fn : Z → Z) (less : Z → Z → bool) : Prop := {
  hk_hash a b : key a = key b → hash_fn a = hash_fn b;
  hk_range e : 0 ≤ hash_fn e < 2^32;
  hk_equal a b : less a b = false ∧ less b a = false ↔ key a = key b
}.

Section Refinement.
Context {K} `{Countable K} (key : Z → K).
Context (hash_fn : Z → Z) (less : Z → Z → bool) `{!HashKey key hash_fn less}.
Notation find_bucket := (find_bucket hash_fn).
Notation find_elem := (find_elem less).

(** Every bucket holds elements that hash to it. *)
Record placed (h : hash) : Prop := {
  pl_len : zlength (buckets h) = bucket_cnt h;
  pl_pow : ∃ k, 0 ≤ k < 32 ∧ bucket_cnt h = 2^k;
  pl_at i b e : buckets h !! i = Some b → e ∈ b → find_bucket h e = Z.of_nat i
}.

(** The table holds the finite map [m]. *)
Record hash_repr (h : hash) (m : gmap K Z) : Prop := {
  hr_placed : placed h;
  hr_elems : map_to_list m ≡ₚ (λ e, (key e, e)) <$> concat (buckets h);
  hr_cnt : elem_cnt h = Z.of_nat (size m)
}.

Lemma find_bucket_range h e : placed h → 0 ≤ find_bucket h e < zlength (buckets h).
Proof.
  intros Hp. rewrite (pl_len _ Hp). destruct (pl_pow _ Hp) as (k & Hk & Heq).
  unfold Hash.find_bucket. rewrite Heq.
  assert (0 < 2^k) by (apply Z.pow_pos_nonneg; lia).
  assert (2^k ≤ 2^31) by (apply Z.pow_le_mono_r; lia).
  rewrite u32_id by lia. replace (2^k - 1) with (Z.ones k) by (rewrite Z.ones_equiv; lia).
  rewrite Z.land_ones by lia. apply Z.mod_pos_bound. lia.
Qed.

Lemma find_bucket_key h a b : key a = key b → find_bucket h a = find_bucket h b.
Proof. intros Hk. unfold Hash.find_bucket. by rewrite (hk_hash a b Hk). Qed.

Lemma bucket_of h e : placed h → ∃ b, buckets h !! Z.to_nat (find_bucket h e) = Some b.
Proof.
  intros Hp. pose proof (find_bucket_range h e Hp).
  destruct (lookup_lt_is_Some_2 (buckets h) (Z.to_nat (find_bucket h e))) as [b Hb]; [lia|].
  by exists b.
Qed.

Lemma concat_insert_cons (bs : list (list Z)) i b e : bs !! i = Some b →
  concat (<[i := e :: b]> bs) ≡ₚ e :: concat bs.
Proof.
  revert i; induction bs as [|c bs IH]; intros [|i] Hi; simpl in *; [done..| |].
  - by injection Hi as ->.
  - rewrite IH by done. by rewrite Permutation_middle.
Qed.

Lemma push_front_ok h c e : placed h →
  ∃ bs, push_front (buckets h) (find_bucket h e) e = Ret bs ∧
    placed (Hash c (bucket_cnt h) bs) ∧ concat bs ≡ₚ e :: concat (buckets h).
Proof.
  intros Hp. pose proof (find_bucket_range h e Hp) as Hr. destruct (bucket_of h e Hp) as [b Hb].
  unfold push_front. eexists. split; [|split].
  - rewrite (proj2 (zget_Some _ _ b)) by (split; [lia|done]). simpl.
    by rewrite zset_Some by done.
  - split; simpl; [rewrite length_insert; apply Hp|apply Hp|].
    intros i b' x Hi Hx. destruct (decide (i = Z.to_nat (find_bucket h e))) as [->|Hne].
    + rewrite list_lookup_insert_eq in Hi by lia. injection Hi as <-.
      apply elem_of_cons in Hx as [->|Hx].
      * by rewrite Z2Nat.id by lia.
      * by apply (pl_at _ Hp _ _ _ Hb).
    + rewrite list_lookup_insert_ne in Hi by done. by apply (pl_at _ Hp _ _ _ Hi).
  - by apply concat_insert_cons.
Qed.

Lemma move_all_ok es h : placed h →
  ∃ h', move_all hash_fn h es = Ret h' ∧ placed h' ∧ elem_cnt h' = elem_cnt h ∧
    bucket_cnt h' = bucket_cnt h ∧ concat (buckets h') ≡ₚ es ++ concat (buckets h).
Proof.
  revert h; induction es as [|e es IH]; intros h Hp; simpl; [by exists h|].
  destruct (push_front_ok h (elem_cnt h) e Hp) as (bs & Hbs & Hp' & Hc).
  rewrite Hbs. simpl. destruct (IH _ Hp') as (h' & Hm & Hp'' & He & Hb & Hc').
  exists h'. do 4 (split; [done|]). rewrite Hc'. simpl. rewrite Hc. by rewrite Permutation_middle.
Qed.

Lemma move_buckets_ok old h : placed h →
  ∃ h', move_buckets hash_fn h old = Ret h' ∧ placed h' ∧ elem_cnt h' = elem_cnt h ∧
    bucket_cnt h' = bucket_cnt h ∧ concat (buckets h') ≡ₚ concat old ++ concat (buckets h).
Proof.
  revert h; induction old as [|b old IH]; intros h Hp; simpl; [by exists h|].
  destruct (move_all_ok b h Hp) as (h1 & Hm & Hp1 & He1 & Hb1 & Hc1). rewrite Hm. simpl.
  destruct (IH _ Hp1) as (h' & Hm' & Hp' & He & Hb & Hc'). exists h'.
  do 2 (split; [done|]). do 2 (split; [congruence|]).
  rewrite Hc', Hc1, app_assoc. apply Permutation_app_tail, Permutation_app_comm.
Qed.

Lemma concat_replicate_nil n : concat (replicate n []) = ([] : list Z).
Proof. by induction n. Qed.

Lemma empty_placed c k : 0 ≤ k < 32 → placed (Hash c (2^k) (replicate (Z.to_nat (2^k)) [])).
Proof.
  intros Hk. assert (0 < 2^k) by (apply Z.pow_pos_nonneg; lia). split; simpl.
  - rewrite length_replicate. lia.
  - by exists k.
  - intros i b e [-> _]%lookup_replicate Hin. by apply elem_of_nil in Hin.
Qed.

(** The bucket count after [rehash] when [malloc] delivers. *)
Definition load_ok (h : hash) : Prop :=
  (elem_cnt h < 8 ∧ bucket_cnt h = 4) ∨
  2 * bucket_cnt h ≤ elem_cnt h < 4 * bucket_cnt h.

Lemma rehash_ok h ok : placed h → 0 ≤ elem_cnt h < 2^32 →
  ∃ h', rehash hash_fn h ok = Ret h' ∧ placed h' ∧ elem_cnt h' = elem_cnt h ∧
    concat (buckets h') ≡ₚ concat (buckets h) ∧ (ok = true → load_ok h').
Proof.
  intros Hp Hc. unfold rehash. destruct (ideal_bucket_cnt_ok _ Hc) as (k & Hk & -> & Hld). simpl.
  assert (∀ h', elem_cnt h' = elem_cnt h → bucket_cnt h' = 2^k → load_ok h') as Hl.
  { intros h' H1 H2. unfold load_ok. rewrite H1, H2. destruct Hld as [[? ->]|]; [left|right]; done. }
  destruct (Z.eqb_spec (2^k) (bucket_cnt h)).
  { exists h. do 4 (split; [done|]). intros _. by apply Hl. }
  destruct ok; simpl; [|exists h; done].
  destruct (move_buckets_ok (buckets h) (Hash (elem_cnt h) (2^k) (replicate (Z.to_nat (2^k)) [])))
    as (h' & Hm & Hp' & He & Hb & Hcc); [apply empty_placed; lia|].
  exists h'. do 3 (split; [done|]). simpl in *. rewrite concat_replicate_nil, app_nil_r in Hcc.
  split; [done|]. intros _. by apply Hl.
Qed.

Lemma find_elem_Some b e x : find_elem b e = Some x → x ∈ b ∧ key x = key e.
Proof.
  induction b as [|y b IH]; simpl; [done|].
  destruct (negb (less y e) && negb (less e y)) eqn:E.
  - intros [= ->]. bool_prop. split; [left|by apply hk_equal].
  - intros Hf. destruct (IH Hf). split; [by right|done].
Qed.

Lemma find_elem_None b e x : find_elem b e = None → x ∈ b → key x ≠ key e.
Proof.
  induction b as [|y b IH]; simpl; [by intros _ ?%elem_of_nil|].
  destruct (negb (less y e) && negb (less e y)) eqn:E; [done|].
  intros Hf [->|Hx]%elem_of_cons; [|by apply IH]. intros Hk.
  apply hk_equal in Hk as [H1 H2]. by rewrite H1, H2 in E.
Qed.

Lemma repr_lookup h m k x : hash_repr h m →
  m !! k = Some x ↔ x ∈ concat (buckets h) ∧ key x = k.
Proof.
  intros Hr. rewrite <-elem_of_map_to_list, (hr_elems _ _ Hr), list_elem_of_fmap. naive_solver.
Qed.

Lemma elem_of_concat_bucket h e x : placed h → key x = key e →
  x ∈ concat (buckets h) ↔ ∃ b, buckets h !! Z.to_nat (find_bucket h e) = Some b ∧ x ∈ b.
Proof.
  intros Hp Hk. rewrite elem_of_concat. split.
  - intros (b & Hx & [i Hi]%list_elem_of_lookup). exists b.
    pose proof (pl_at _ Hp _ _ _ Hi Hx) as Hb. rewrite (find_bucket_key h x e Hk) in Hb.
    by rewrite Hb, Nat2Z.id.
  - intros (b & Hb & Hx). exists b. split; [done|]. by eapply list_elem_of_lookup_2.
Qed.

Lemma find_in_ok h m e : hash_repr h m → find_in hash_fn less h e = Ret (m !! key e).
Proof.
  intros Hr. pose proof (hr_placed _ _ Hr) as Hp. unfold find_in.
  pose proof (find_bucket_range h e Hp) as Hrg. destruct (bucket_of h e Hp) as [b Hb].
  rewrite (proj2 (zget_Some _ _ b)) by (split; [lia|done]). simpl. f_equal.
  destruct (find_elem b e) as [x|] eqn:Hf.
  - apply find_elem_Some in Hf as [Hx Hk]. symmetry. apply (repr_lookup h); [done|].
    split; [|done]. apply (elem_of_concat_bucket h e); [done..|]. by exists b.
  - symmetry. apply eq_None_not_Some. intros [x [Hx Hk]%(repr_lookup h)]; [|done].
    apply (elem_of_concat_bucket h e) in Hx as (b' & Hb' & Hx); [|done..].
    simplify_eq. by eapply find_elem_None.
Qed.

Lemma repr_NoDup h m : hash_repr h m → NoDup (concat (buckets h)).
Proof.
  intros Hr. apply (NoDup_fmap_1 (λ e, (key e, e))).
  rewrite <-(hr_elems _ _ Hr). apply NoDup_map_to_list.
Qed.

Lemma filter_ne_perm (x : Z) l : NoDup l → x ∈ l → l ≡ₚ x :: filter (λ y, y ≠ x) l.
Proof.
  induction 1 as [|y l Hy Hnd IH]; [by intros ?%elem_of_nil|].
  intros [->|Hx]%elem_of_cons.
  - rewrite filter_cons_False by naive_solver. f_equiv.
    clear -Hy. induction l as [|z l IH]; [done|].
    apply not_elem_of_cons in Hy as [? ?]. rewrite filter_cons_True by done. f_equiv. auto.
  - rewrite filter_cons_True by (intros ->; done). rewrite (IH Hx) at 1. apply perm_swap.
Qed.

Lemma concat_filter (P : Z → Prop) `{!∀ x, Decision (P x)} (bs : list (list Z)) :
  concat (filter P <$> bs) = filter P (concat bs).
Proof. induction bs as [|b bs IH]; [done|]. rewrite fmap_cons. cbn [concat]. by rewrite IH, filter_app. Qed.

(** Between the update of the elements and [rehash] the count is right and
    the elements are placed; the map is what the elements say. *)
Lemma insert_elem_ok h m e : hash_repr h m → m !! key e = None →
  Z.of_nat (size m) < 2^32 - 1 →
  ∃ h', insert_elem h (find_bucket h e) e = Ret h' ∧ hash_repr h' (<[key e := e]> m).
Proof.
  intros Hr Hn Hs. unfold insert_elem.
  destruct (push_front_ok h (u32 (elem_cnt h + 1)) e (hr_placed _ _ Hr)) as (bs & Hbs & Hp & Hc).
  rewrite Hbs. simpl. eexists. split; [done|]. split; simpl; [done|..].
  - rewrite map_to_list_insert by done. rewrite Hc, (hr_elems _ _ Hr). done.
  - rewrite (hr_cnt _ _ Hr), u32_id by lia. rewrite map_size_insert_None by done. lia.
Qed.

Lemma remove_elem_ok h m x : hash_repr h m → m !! key x = Some x →
  Z.of_nat (size m) < 2^32 → hash_repr (remove_elem h x) (delete (key x) m).
Proof.
  intros Hr Hx Hs. pose proof (hr_placed _ _ Hr) as Hp. split; simpl.
  - split; simpl; [rewrite length_fmap; apply Hp|apply Hp|].
    intros i b e Hb He. rewrite list_lookup_fmap in Hb.
    destruct (buckets h !! i) as [b'|] eqn:Hb'; simplify_eq/=.
    apply list_elem_of_filter in He as [_ He]. by apply (pl_at _ Hp _ _ _ Hb').
  - rewrite concat_filter. apply (Permutation_cons_inv (a := (key x, x))).
    rewrite map_to_list_delete by done. rewrite (hr_elems _ _ Hr).
    apply (repr_lookup h) in Hx as [Hx _]; [|done].
    by rewrite (filter_ne_perm x (concat (buckets h)) (repr_NoDup _ _ Hr) Hx) at 1.
  - assert (size m ≠ 0%nat) by (intros E%map_size_empty_iff; by rewrite E, lookup_empty in Hx).
    rewrite (hr_cnt _ _ Hr), u32_id by lia. rewrite map_size_delete_Some by eauto. lia.
Qed.

Lemma rehash_repr h m ok : hash_repr h m → Z.of_nat (size m) < 2^32 →
  ∃ h', rehash hash_fn h ok = Ret h' ∧ hash_repr h' m ∧ (ok = true → load_ok h').
Proof.
  intros Hr Hs. pose proof (hr_cnt _ _ Hr) as Hc.
  destruct (rehash_ok h ok (hr_placed _ _ Hr)) as (h' & Hh & Hp & He & Hcc & Hl); [lia|].
  exists h'. split; [done|]. split; [|done]. split; [done|by rewrite Hcc; apply Hr|congruence].
Qed.

Lemma hash_insert_ok h m e ok : hash_repr h m → Z.of_nat (size m) < 2^32 - 1 →
  ∃ h', hash_insert hash_fn less h e ok = Ret (m !! key e, h') ∧
    hash_repr h' (match m !! key e with Some _ => m | None => <[key e := e]> m end) ∧
    (ok = true → load_ok h').
Proof.
  intros Hr Hs. unfold hash_insert. rewrite (find_in_ok h m e Hr). simpl.
  destruct (m !! key e) as [x|] eqn:Hx; simpl.
  - destruct (rehash_repr h m ok Hr) as (h' & -> & ? & ?); [lia|]. by exists h'.
  - destruct (insert_elem_ok h m e Hr Hx Hs) as (h1 & -> & Hr1). simpl.
    destruct (rehash_repr h1 _ ok Hr1) as (h' & -> & ? & ?); [|by exists h'].
    rewrite map_size_insert_None by done. lia.
Qed.

Lemma hash_delete_ok h m e ok : hash_repr h m → Z.of_nat (size m) < 2^32 →
  ∃ h', hash_delete hash_fn less h e ok = Ret (m !! key e, h') ∧
    hash_repr h' (delete (key e) m).
Proof.
  intros Hr Hs. unfold hash_delete. rewrite (find_in_ok h m e Hr). simpl.
  destruct (m !! key e) as [x|] eqn:Hx; simpl.
  - pose proof Hx as [_ Hk]%(repr_lookup h); [|done]. rewrite <-Hk in *.
    destruct (rehash_repr _ _ ok (remove_elem_ok h m x Hr Hx Hs)) as (h' & -> & ? & _).
    { rewrite map_size_delete_Some by eauto. lia. }
    by exists h'.
  - exists h. by rewrite delete_id.
Qed.

Lemma hash_replace_ok h m e ok : hash_repr h m → Z.of_nat (size m) < 2^32 - 1 →
  ∃ h', hash_replace hash_fn less h e ok = Ret (m !! key e, h') ∧
    hash_repr h' (<[key e := e]> m).
Proof.
  intros Hr Hs. unfold hash_replace. rewrite (find_in_ok h m e Hr). simpl.
  set (h1 := match m !! key e with Some o => remove_elem h o | None => h end).
  assert (hash_repr h1 (delete (key e) m)) as Hr1.
  { subst h1. destruct (m !! key e) as [x|] eqn:Hx; [|by rewrite delete_id].
    pose proof Hx as [_ Hk]%(repr_lookup h); [|done]. rewrite <-Hk in *.
    apply remove_elem_ok; [done..|lia]. }
  assert (find_bucket h e = find_bucket h1 e) as Hfb by (subst h1; by destruct (m !! key e)).
  assert (size (delete (key e) m) ≤ size m)%nat
    by (rewrite map_size_delete; destruct (m !! key e); unfold id; lia).
  rewrite Hfb. destruct (insert_elem_ok h1 _ e Hr1) as (h2 & -> & Hr2); [apply lookup_delete_eq|lia|].
  simpl. rewrite insert_delete_eq in Hr2.
  destruct (rehash_repr h2 _ ok Hr2) as (h' & -> & ? & _); [|by exists h'].
  rewrite map_size_insert. destruct (m !! key e); unfold id; lia.
Qed.

Lemma hash_init_ok : ∃ h, hash_init true = Some h ∧ hash_repr h ∅.
Proof.
  eexists. split; [done|]. split; simpl; [|by rewrite map_to_list_empty|done].
  apply (empty_placed 0 2). lia.
Qed.
End Refinement.

(** ** Tables with any comparison

    The structure of the table does not depend on [less]: with a comparison
    that is no order the operations still return, but which element counts as
    equal is then arbitrary. *)
Section AnyLess.
Context (hash_fn : Z → Z) (less : Z → Z → bool).

Record table_wf (h : hash) : Prop := {
  tw_placed : placed hash_fn h;
  tw_cnt : elem_cnt h = zlength (concat (buckets h));
  tw_nodup : NoDup (concat (buckets h));
  tw_small : elem_cnt h < 2^32 - 1
}.

Lemma find_elem_in b e x : find_elem less b e = Some x → x ∈ b.
Proof.
  induction b as [|y b IH]; simpl; [done|]. case_match; [intros [= ->]; left|].
  intros Hf. right. by apply IH.
Qed.

Lemma find_in_total h e : placed hash_fn h →
  ∃ r, find_in hash_fn less h e = Ret r ∧ ∀ x, r = Some x → x ∈ concat (buckets h).
Proof.
  intros Hp. unfold find_in. pose proof (find_bucket_range hash_fn h e Hp) as Hr.
  destruct (bucket_of hash_fn h e Hp) as [b Hb].
  rewrite (proj2 (zget_Some _ _ b)) by (split; [lia|done]). simpl.
  eexists. split; [done|]. intros x Hx. apply find_elem_in in Hx. apply elem_of_concat.
  exists b. split; [done|]. by eapply list_elem_of_lookup_2.
Qed.

Lemma remove_elem_wf h x : table_wf h → x ∈ concat (buckets h) → table_wf (remove_elem h x).
Proof.
  intros [Hp Hc Hnd Hsm] Hx.
  assert (concat (buckets h) ≡ₚ x :: concat (buckets (remove_elem h x))) as Hperm.
  { simpl. rewrite concat_filter. by apply filter_ne_perm. }
  assert (length (concat (buckets h)) = S (length (concat (buckets (remove_elem h x))))) as Hlen.
  { by rewrite Hperm at 1. }
  split.
  - split; simpl; [rewrite length_fmap; apply Hp|apply Hp|].
    intros i b e Hb He. rewrite list_lookup_fmap in Hb.
    destruct (buckets h !! i) as [b'|] eqn:Hb'; simplify_eq/=.
    apply list_elem_of_filter in He as [_ He]. by apply (pl_at _ _ Hp _ _ _ Hb').
  - cbn [elem_cnt remove_elem]. rewrite u32_id by lia. lia.
  - rewrite Hperm in Hnd. by apply NoDup_cons in Hnd as [_ ?].
  - cbn [elem_cnt remove_elem]. rewrite u32_id by lia. lia.
Qed.

(** Deleting an element that the search for it finds. *)
Lemma hash_delete_total h e ok : table_wf h → e ∈ concat (buckets h) →
  find_in hash_fn less h e = Ret (Some e) →
  ∃ h', hash_delete hash_fn less h e ok = Ret (Some e, h') ∧ table_wf h' ∧
    elem_cnt h' = elem_cnt h - 1 ∧
    ∀ x, x ∈ concat (buckets h') ↔ x ∈ concat (buckets h) ∧ x ≠ e.
Proof.
  intros Hw He Hf. unfold hash_delete. rewrite Hf. cbn [mbind outcome_bind].
  pose proof (remove_elem_wf h e Hw He) as Hw1.
  assert (elem_cnt (remove_elem h e) = elem_cnt h - 1) as Hc1.
  { cbn [elem_cnt remove_elem]. rewrite u32_id; [done|].
    pose proof (tw_cnt _ Hw). pose proof (tw_small _ Hw).
    destruct (concat (buckets h)); [by apply elem_of_nil in He|]. simpl in *. lia. }
  destruct (rehash_ok hash_fn (remove_elem h e) ok (tw_placed _ Hw1)) as (h' & -> & Hp & Hc & Hcc & _).
  { pose proof (tw_small _ Hw1). rewrite (tw_cnt _ Hw1) in *. lia. }
  cbn [mbind outcome_bind]. exists h'. split; [done|]. split; [|split; [lia|]].
  - split; [done| | |rewrite Hc; apply Hw1].
    + rewrite Hc, (tw_cnt _ Hw1), Hcc. done.
    + rewrite Hcc. apply Hw1.
  - intros x. rewrite Hcc. simpl. rewrite concat_filter, list_elem_of_filter. tauto.
Qed.

Lemma hash_replace_total h e ok : table_wf h → e ∉ concat (buckets h) → elem_cnt h < 2^32 - 2 →
  ∃ r h', hash_replace hash_fn less h e ok = Ret (r, h') ∧ table_wf h' ∧
    e ∈ concat (buckets h') ∧ ∀ x, x ∈ concat (buckets h') → x = e ∨ x ∈ concat (buckets h).
Proof.
  intros Hw He Hsm. unfold hash_replace.
  destruct (find_in_total h e (tw_placed _ Hw)) as (r & -> & Hr). cbn [mbind outcome_bind].
  set (h1 := match r with Some o => remove_elem h o | None => h end).
  assert (table_wf h1 ∧ (∀ x, x ∈ concat (buckets h1) → x ∈ concat (buckets h)) ∧
    elem_cnt h1 ≤ elem_cnt h ∧ find_bucket hash_fn h e = find_bucket hash_fn h1 e) as (Hw1 & Hsub & Hle & Hfb).
  { subst h1. destruct r as [o|]; [|done]. specialize (Hr o eq_refl).
    pose proof (remove_elem_wf h o Hw Hr) as Hw1. split; [done|]. split; [|split; [|done]].
    - simpl. rewrite concat_filter. intros x [_ ?]%list_elem_of_filter. done.
    - rewrite (tw_cnt _ Hw1), (tw_cnt _ Hw). simpl. rewrite concat_filter.
      pose proof (length_filter (λ x, x ≠ o) (concat (buckets h))). lia. }
  rewrite Hfb. unfold insert_elem.
  destruct (push_front_ok hash_fn h1 (u32 (elem_cnt h1 + 1)) e (tw_placed _ Hw1)) as (bs & -> & Hp & Hc).
  cbn [mbind outcome_bind]. pose proof (tw_cnt _ Hw1) as Hcnt.
  assert (0 ≤ elem_cnt h1) by lia. rewrite u32_id in Hp |- * by lia.
  destruct (rehash_ok hash_fn (Hash (elem_cnt h1 + 1) (bucket_cnt h1) bs) ok Hp) as (h' & -> & Hp' & Hc' & Hcc & _).
  { simpl. lia. }
  cbn [mbind outcome_bind]. exists r, h'. split; [done|]. simpl in Hc', Hcc.
  assert (concat (buckets h') ≡ₚ e :: concat (buckets h1)) as Hall by (by rewrite Hcc).
  split; [|split; [rewrite Hall; left|]].
  - split; [done| |rewrite Hall|lia].
    + rewrite Hc', Hall. simpl. lia.
    + constructor; [|apply Hw1]. intros Hin. by apply He, Hsub.
  - intros x. rewrite Hall, elem_of_cons. intros [->|Hx]; [by left|right; by apply Hsub].
Qed.
End AnyLess.

Lemma find_in_ext hash_fn hash_fn' less less' h e :
  (∀ x, hash_fn' x = hash_fn x) → (∀ x y, less' x y = less x y) →
  find_in hash_fn' less' h e = find_in hash_fn less h e.
Proof.
  intros Hh Hl. unfold find_in, find_bucket. rewrite Hh.
  destruct (access _) as [b|f]; [|done]. simpl. f_equal.
  induction b as [|x b IH]; [done|]. simpl. by rewrite !Hl, IH.
Qed.

Lemma table_wf_ext hash_fn hash_fn' h :
  (∀ e, e ∈ concat (buckets h) → hash_fn' e = hash_fn e) → table_wf hash_fn h → table_wf hash_fn' h.
Proof.
  intros Hext [Hp Hc Hn Hs]. split; [|done..]. split; [apply Hp..|].
  intros i b e Hb He. rewrite <-(pl_at _ _ Hp i b e Hb He). unfold find_bucket. f_equal.
  apply Hext, elem_of_concat. exists b. split; [done|]. by eapply list_elem_of_lookup_2.
Qed.

(** The table depends on the functions only through its elements. *)
Lemma hash_repr_ext {K} `{Countable K} (key key' : Z → K) hash_fn hash_fn' h m :
  (∀ e, e ∈ concat (buckets h) → key' e = key e ∧ hash_fn' e = hash_fn e) →
  hash_repr key hash_fn h m → hash_repr key' hash_fn' h m.
Proof.
  intros Hext Hr. pose proof (hr_placed _ _ _ _ Hr) as Hp. split.
  - split; [apply Hp..|]. intros i b e Hb He. rewrite <-(pl_at _ _ Hp i b e Hb He).
    unfold find_bucket. f_equal. apply Hext. apply elem_of_concat. exists b. split; [done|].
    by eapply list_elem_of_lookup_2.
  - rewrite (hr_elems _ _ _ _ Hr). apply Permutation_refl'. apply list_fmap_ext.
    intros i e Hi. f_equal. symmetry. apply Hext. by eapply list_elem_of_lookup_2.
  - apply Hr.
Qed.

(** ** Iteration visits every element once *)

Section Iteration.
Context (h : hash) (Hlen : zlength (buckets h) = bucket_cnt h).

(** What is left to visit when the current element is number [q] of bucket
    [i]. *)
Definition remaining (i q : nat) : list Z :=
  drop q (default [] (buckets h !! i)) ++ concat (drop (S i) (buckets h)).

Definition at_pos (i q : nat) : hash_iterator := Iter (Z.of_nat i) (Some (Z.of_nat q)).

Lemma next_bucket_loop fuel i q b : buckets h !! i = Some b → (q ≤ length b)%nat →
  (length (buckets h) - i < fuel)%nat →
  ∃ it, while fuel
    (λ i, match it_pos i with
          | Some p => let* b := bucket_at h (it_bucket i) in Ret (p =? zlength b)
          | None => Ret false
          end)
    (λ i, let b := it_bucket i + 1 in
          if bucket_cnt h <=? b then Ret (Iter b None) else Ret (Iter b (Some 0)))
    (at_pos i q) = Ret it ∧
  ((it_pos it = None ∧ remaining i q = []) ∨
   ∃ i' q' b', it = at_pos i' q' ∧ buckets h !! i' = Some b' ∧ (q' < length b')%nat ∧
     remaining i q = remaining i' q').
Proof.
  revert i q b; induction fuel as [|fuel IH]; intros i q b Hb Hq Hf; [lia|].
  pose proof (lookup_lt_Some _ _ _ Hb) as Hi. simpl. unfold bucket_at.
  rewrite zget_nat, Hb. simpl. destruct (Z.eqb_spec (Z.of_nat q) (zlength b)) as [E|E].
  2: { eexists. split; [done|]. right. exists i, q, b. repeat split; [done|lia]. }
  assert (remaining i q = concat (drop (S i) (buckets h))) as Hrem.
  { unfold remaining. rewrite Hb. simpl. rewrite drop_ge by lia. done. }
  destruct (Z.leb_spec (bucket_cnt h) (Z.of_nat i + 1)) as [Hc|Hc]; simpl.
  - exists (Iter (Z.of_nat i + 1) None). split; [by destruct fuel; [lia|]|].
    left. split; [done|]. rewrite Hrem, drop_ge by lia. done.
  - destruct (lookup_lt_is_Some_2 (buckets h) (S i)) as [b' Hb']; [lia|].
    destruct (IH (S i) 0%nat b' Hb') as (it & Hit & Hcase); [lia..|].
    exists it. unfold at_pos in Hit. rewrite Nat2Z.inj_succ in Hit. split; [exact Hit|].
    assert (remaining i q = remaining (S i) 0) as ->; [|done].
    rewrite Hrem. unfold remaining. by rewrite Hb', drop_0, (drop_S _ _ _ Hb').
Qed.

(** The current element is number [q - 1] of bucket [i] or, when [q] is 0,
    the head of its list. *)
Lemma hash_next_ok i q b : buckets h !! i = Some b → (q ≤ length b)%nat →
  ∃ it, (hash_next h (Iter (Z.of_nat i) (Some (Z.of_nat q - 1))) = Ret (None, it) ∧
         remaining i q = []) ∨
  ∃ e i' q' b', hash_next h (Iter (Z.of_nat i) (Some (Z.of_nat q - 1))) =
      Ret (Some e, Iter (Z.of_nat i') (Some (Z.of_nat (S q') - 1))) ∧
    buckets h !! i' = Some b' ∧ (S q' ≤ length b')%nat ∧
    remaining i q = e :: remaining i' (S q').
Proof.
  intros Hb Hq. unfold hash_next. simpl. replace (Z.of_nat q - 1 + 1) with (Z.of_nat q) by lia.
  destruct (next_bucket_loop (S (length (buckets h))) i q b Hb Hq) as (it & Hit & Hcase); [lia|].
  exists it. change (next_bucket h (Iter (Z.of_nat i) (Some (Z.of_nat q))) = Ret it) in Hit.
  rewrite Hit. cbn [mbind outcome_bind].
  destruct Hcase as [[Hn Hr]|(i' & q' & b' & -> & Hb' & Hq' & Hr)].
  { left. unfold hash_cur. rewrite Hn. done. }
  right. destruct (lookup_lt_is_Some_2 b' q' Hq') as [e He].
  exists e, i', q', b'. split; [|split; [done|split; [lia|]]].
  - unfold hash_cur, at_pos, bucket_at. simpl. rewrite zget_nat, Hb'. simpl.
    rewrite zget_nat, He. simpl. do 4 f_equal. lia.
  - rewrite Hr. unfold remaining. rewrite Hb'. simpl. by rewrite (drop_S _ _ _ He).
Qed.

Lemma iterate_ok fuel i q b : buckets h !! i = Some b → (q ≤ length b)%nat →
  (length (remaining i q) < fuel)%nat →
  iterate fuel h (Iter (Z.of_nat i) (Some (Z.of_nat q - 1))) = Ret (remaining i q).
Proof.
  revert i q b; induction fuel as [|fuel IH]; intros i q b Hb Hq Hf; [lia|].
  simpl. destruct (hash_next_ok i q b Hb Hq) as [it [[Hn Hr]|(e & i' & q' & b' & Hn & Hb' & Hq' & Hr)]].
  - rewrite Hn, Hr. done.
  - rewrite Hn. simpl. rewrite Hr in Hf |- *. simpl in Hf. rewrite (IH i' (S q') b'); [done..|lia].
Qed.
End Iteration.

Lemma apply_bucket_app {A} (action : Z → A → outcome A) b b' a :
  apply_bucket action (b ++ b') a = let* a := apply_bucket action b a in apply_bucket action b' a.
Proof.
  revert a; induction b as [|e b IH]; intros a; [done|]. simpl.
  destruct (action e a); [apply IH|done].
Qed.

Lemma hash_apply_concat {A} (action : Z → A → outcome A) h a :
  hash_apply h action a = apply_bucket action (concat (buckets h)) a.
Proof.
  unfold hash_apply. generalize (buckets h). intros bs. revert a.
  induction bs as [|b bs IH]; intros a; [done|]. simpl. rewrite apply_bucket_app.
  destruct (apply_bucket action b a); [apply IH|done].
Qed.

Lemma fnv_range buf hash : 0 ≤ hash < 2^32 → Forall (λ b, 0 ≤ b < 256) buf →
  0 ≤ foldl fnv_step hash buf < 2^32.
Proof.
  revert hash; induction buf as [|b buf IH]; intros hash Hh Hb; [done|].
  apply Forall_cons in Hb as [Hb Hbs]. simpl. apply IH; [|done].
  unfold fnv_step. pose proof (u32_range (hash * FNV_32_PRIME)) as Hr.
  assert (0 ≤ Z.lxor (u32 (hash * FNV_32_PRIME)) b) by (apply Z.lxor_nonneg; lia).
  split; [done|].
  destruct (decide (Z.lxor (u32 (hash * FNV_32_PRIME)) b = 0)) as [->|]; [lia|].
  apply Z.log2_lt_pow2; [lia|]. eapply Z.le_lt_trans; [by apply Z.log2_lxor; lia|].
  apply Z.max_lub_lt.
  - destruct (decide (u32 (hash * FNV_32_PRIME) = 0)) as [->|]; [done|].
    apply Z.log2_lt_pow2; lia.
  - destruct (decide (b = 0)) as [->|]; [done|]. apply Z.log2_lt_pow2; lia.
Qed.

Lemma hash_bytes_range buf : Forall (λ b, 0 ≤ b < 256) buf → 0 ≤ hash_bytes buf < 2^32.
Proof. by apply fnv_range. Qed.

Lemma hash_int_range i : 0 ≤ hash_int i < 2^32.
Proof.
  unfold hash_int, hash_bytes. apply fnv_range; [done|].
  repeat constructor; by apply Z.mod_pos_bound.
Qed.

(** ** Sequences of operations

    Each operation comes with the outcome of the allocation its [rehash] may
    attempt. *)
Inductive hash_op := OpInsert (e : Z) (ok : bool) | OpReplace (e : Z) (ok : bool)
  | OpDelete (e : Z) (ok : bool) | OpFind (e : Z).

Definition run_op (hash_fn : Z → Z) (less : Z → Z → bool) (h : hash) (op : hash_op)
    : outcome (option Z * hash) :=
  match op with
  | OpInsert e ok => hash_insert hash_fn less h e ok
  | OpReplace e ok => hash_replace hash_fn less h e ok
  | OpDelete e ok => hash_delete hash_fn less h e ok
  | OpFind e => let* r := hash_find hash_fn less h e in Ret (r, h)
  end.
Fixpoint run_ops (hash_fn : Z → Z) (less : Z → Z → bool) (h : hash) (ops : list hash_op)
    : outcome (list (option Z) * hash) :=
  match ops with
  | [] => Ret ([], h)
  | op :: ops =>
      let* (r, h) := run_op hash_fn less h op in
      let* (rs, h) := run_ops hash_fn less h ops in
      Ret (r :: rs, h)
  end.

(** The same on a finite map. *)
Section AbstractMap.
Context {K} `{Countable K} (key : Z → K).
Definition map_op (m : gmap K Z) (op : hash_op) : option Z * gmap K Z :=
  match op with
  | OpInsert e _ => (m !! key e, match m !! key e with Some _ => m | None => <[key e := e]> m end)
  | OpReplace e _ => (m !! key e, <[key e := e]> m)
  | OpDelete e _ => (m !! key e, delete (key e) m)
  | OpFind e => (m !! key e, m)
  end.
Fixpoint map_ops (m : gmap K Z) (ops : list hash_op) : list (option Z) * gmap K Z :=
  match ops with
  | [] => ([], m)
  | op :: ops =>
      let '(r, m) := map_op m op in let '(rs, m) := map_ops m ops in (r :: rs, m)
  end.

Lemma map_op_size m op : (size (map_op m op).2 ≤ S (size m))%nat.
Proof.
  destruct op as [e ?|e ?|e ?|e]; simpl.
  - destruct (m !! key e) eqn:E; [lia|]. rewrite map_size_insert_None by done. lia.
  - rewrite map_size_insert. destruct (m !! key e); unfold id; lia.
  - rewrite map_size_delete. destruct (m !! key e); unfold id; lia.
  - lia.
Qed.

Lemma run_op_ok hash_fn less `{!HashKey key hash_fn less} h m op :
  hash_repr key hash_fn h m → Z.of_nat (size m) < 2^32 - 1 →
  ∃ h', run_op hash_fn less h op = Ret ((map_op m op).1, h') ∧
    hash_repr key hash_fn h' (map_op m op).2.
Proof.
  intros Hr Hs. destruct op as [e ok|e ok|e ok|e]; simpl.
  - destruct (hash_insert_ok key hash_fn less h m e ok Hr Hs) as (h' & ? & ? & _). by exists h'.
  - destruct (hash_replace_ok key hash_fn less h m e ok Hr Hs) as (h' & ? & ?). by exists h'.
  - destruct (hash_delete_ok key hash_fn less h m e ok Hr) as (h' & ? & ?); [lia|]. by exists h'.
  - exists h. unfold hash_find. by rewrite (find_in_ok key hash_fn less h m e Hr).
Qed.

Lemma run_ops_ok hash_fn less `{!HashKey key hash_fn less} ops h m :
  hash_repr key hash_fn h m → Z.of_nat (size m) + zlength ops < 2^32 →
  ∃ h', run_ops hash_fn less h ops = Ret ((map_ops m ops).1, h') ∧
    hash_repr key hash_fn h' (map_ops m ops).2.
Proof.
  revert h m; induction ops as [|op ops IH]; intros h m Hr Hs; simpl in *; [by exists h|].
  destruct (run_op_ok hash_fn less h m op Hr) as (h1 & Hop & Hr1); [lia|].
  pose proof (map_op_size m op). destruct (map_op m op) as [r m1]. simpl in *.
  destruct (IH h1 m1 Hr1) as (h2 & Hops & Hr2); [lia|].
  exists h2. rewrite Hop. simpl. rewrite Hops. simpl. by destruct (map_ops m1 ops).
Qed.
End AbstractMap.

(** ** Properties *)

(** Elements keyed by their decade, hashed with [hash_int]. *)
Definition demo_key (e : Z) : Z := e / 10.
#[global] Instance demo_hash_key :
  HashKey demo_key (λ e, hash_int (demo_key e)) (λ a b, demo_key a <? demo_key b).
Proof.
  split.
  - by intros a b ->.
  - intros e. apply hash_int_range.
  - intros a b. rewrite !Z.ltb_ge. lia.
Defined.

(** C11. The hash table refines a finite map: from [hash_init] on, every
    sequence of insertions, replacements, deletions and searches returns what
    the same sequence on a map from keys to elements returns, whatever the
    bucket resizings and whichever of their allocations fail, and no operation
    faults. *)
Theorem hash_refines_map {K} `{Countable K} (key : Z → K) hash_fn less
    `{!HashKey key hash_fn less} ops h :
  hash_init true = Some h → zlength ops < 2^32 →
  ∃ h', run_ops hash_fn less h ops = Ret ((map_ops key ∅ ops).1, h') ∧
    hash_repr key hash_fn h' (map_ops key ∅ ops).2 ∧
    hash_size h' = Z.of_nat (size (map_ops key ∅ ops).2).
Proof.
  intros Hi Hn. destruct (hash_init_ok key hash_fn) as (h0 & Hh & Hr).
  rewrite Hi in Hh. injection Hh as ->.
  destruct (run_ops_ok key hash_fn less ops h0 ∅ Hr) as (h' & ? & Hr'); [by rewrite map_size_empty|].
  exists h'. do 2 (split; [done|]). apply Hr'.
Qed.

Definition demo_ops : list hash_op :=
  [OpInsert 11 true; OpInsert 25 false; OpInsert 17 true; OpReplace 28 true; OpFind 20;
   OpDelete 12 true; OpFind 19].

Lemma hash_refines_map_witness :
  ∃ h', run_ops (λ e, hash_int (demo_key e)) (λ a b, demo_key a <? demo_key b)
      (Hash 0 4 [[]; []; []; []]) demo_ops =
      Ret ([None; None; Some 11; Some 25; Some 28; Some 11; None], h') ∧
    hash_repr demo_key (λ e, hash_int (demo_key e)) h' {[2 := 28]} ∧ hash_size h' = 1.
Proof.
  assert (map_ops demo_key ∅ demo_ops =
    ([None; None; Some 11; Some 25; Some 28; Some 11; None], {[2 := 28]})) as E
    by (by vm_compute).
  pose proof (hash_refines_map demo_key (λ e, hash_int (demo_key e))
    (λ a b, demo_key a <? demo_key b) demo_ops _ eq_refl) as Hw.
  rewrite E in Hw. by apply Hw.
Defined.

(** After an insertion whose allocation succeeds the table has four
    buckets and fewer than eight elements, or between two and four elements
    per bucket; a failed allocation only costs that bound. *)
Theorem hash_insert_load {K} `{Countable K} (key : Z → K) hash_fn less
    `{!HashKey key hash_fn less} h m e ok :
  hash_repr key hash_fn h m → Z.of_nat (size m) < 2^32 - 1 →
  ∃ h', hash_insert hash_fn less h e ok = Ret (m !! key e, h') ∧
    (ok = true →
      (elem_cnt h' < 8 ∧ bucket_cnt h' = 4) ∨
      2 * bucket_cnt h' ≤ elem_cnt h' < 4 * bucket_cnt h').
Proof.
  intros Hr Hs. destruct (hash_insert_ok key hash_fn less h m e ok Hr Hs) as (h' & ? & _ & Hl).
  by exists h'.
Qed.

Lemma hash_insert_load_witness :
  ∃ h', hash_insert (λ e, hash_int (demo_key e)) (λ a b, demo_key a <? demo_key b)
      (Hash 0 4 [[]; []; []; []]) 11 true = Ret (None, h') ∧
    (true = true → (elem_cnt h' < 8 ∧ bucket_cnt h' = 4) ∨
      2 * bucket_cnt h' ≤ elem_cnt h' < 4 * bucket_cnt h').
Proof.
  rewrite <-(lookup_empty (M := gmap Z) (demo_key 11)).
  apply (hash_insert_load demo_key (λ e, hash_int (demo_key e)) (λ a b, demo_key a <? demo_key b)
    (Hash 0 4 [[]; []; []; []]) ∅ 11 true); [|done].
  split; [apply (empty_placed _ 0 2); lia|by rewrite map_to_list_empty|done].
Defined.

(** The iteration idiom of [hash_first] and [hash_next] visits exactly
    the elements of the table's map, each once, and ends with the null
    pointer; [hash_apply] performs its action on the same elements. *)
Theorem hash_iteration_complete {K} `{Countable K} (key : Z → K) hash_fn h (m : gmap K Z) :
  hash_repr key hash_fn h m →
  ∃ es, iterate (S (size m)) h hash_first = Ret es ∧ NoDup es ∧
    map_to_list m ≡ₚ (λ e, (key e, e)) <$> es ∧
    ∀ A (action : Z → A → outcome A) a, hash_apply h action a = apply_bucket action es a.
Proof.
  intros Hr. exists (concat (buckets h)). pose proof (hr_placed _ _ _ _ Hr) as Hp.
  assert (length (concat (buckets h)) = size m) as Hsz.
  { by rewrite <-length_map_to_list, (hr_elems _ _ _ _ Hr), length_fmap. }
  split; [|split; [by eapply repr_NoDup|split; [apply Hr|intros; apply hash_apply_concat]]].
  destruct (pl_pow _ _ Hp) as (k & Hk & Hb). pose proof (pl_len _ _ Hp) as Hlen.
  assert (0 < 2^k) by (apply Z.pow_pos_nonneg; lia).
  destruct (lookup_lt_is_Some_2 (buckets h) 0) as [b0 Hb0]; [lia|].
  assert (remaining h 0 0 = concat (buckets h)) as Hrem.
  { unfold remaining. rewrite Hb0. simpl. rewrite drop_0. by destruct (buckets h); simplify_eq/=. }
  rewrite <-Hrem. apply (iterate_ok h Hlen _ 0 0 b0 Hb0); [lia|]. rewrite Hrem. lia.
Qed.

Definition demo_table : hash := Hash 3 4 [[37]; []; [11]; [25]].

Lemma demo_table_repr :
  hash_repr demo_key (λ e, hash_int (demo_key e)) demo_table {[1 := 11; 2 := 25; 3 := 37]}.
Proof.
  split; [|vm_compute|done].
  - split; [done|by exists 2|]. intros i b e Hb He.
    do 4 (destruct i as [|i]; [injection Hb as <-;
      repeat (apply elem_of_cons in He as [->|He]; [by vm_compute|]); by apply elem_of_nil in He|]).
    done.
  - apply perm_skip, perm_swap.
Defined.

Lemma hash_iteration_complete_witness :
  ∃ es, iterate 4 demo_table hash_first = Ret es ∧ NoDup es ∧
    map_to_list {[1 := 11; 2 := 25; 3 := 37]} ≡ₚ (λ e, (demo_key e, e)) <$> es ∧
    ∀ A (action : Z → A → outcome A) a,
      hash_apply demo_table action a = apply_bucket action es a.
Proof. apply (hash_iteration_complete _ _ _ _ demo_table_repr). Defined.
