(* ===== verification/Vaddr.v ===== *)
(** * Virtual addresses and page table entries (threads/vaddr.h, threads/pte.h)

    Addresses and entries are 32-bit integers; the masks and shifts are those
    of the headers.  The lemmas say what they compute: page number, offset
    within the page, directory and table index, frame and flags of an entry. *)

From S2P Require Import Prelude.

Definition BITMASK (SHIFT CNT : Z) : Z := Z.shiftl (Z.shiftl 1 CNT - 1) SHIFT.
Definition PGBITS : Z := 12.
Definition PGSIZE : Z := Z.shiftl 1 PGBITS.
Definition PGMASK : Z := BITMASK 0 PGBITS.

Definition pg_ofs (va : Z) : Z := Z.land va PGMASK.
Definition pg_no (va : Z) : Z := Z.shiftr va PGBITS.
Definition pg_round_down (va : Z) : Z := Z.land va (u32 (Z.lnot PGMASK)).
Definition pg_round_up (va : Z) : Z := Z.land (u32 (va + PGSIZE - 1)) (u32 (Z.lnot PGMASK)).

Definition PHYS_BASE : Z := 0xc0000000.
Definition is_user_vaddr (vaddr : Z) : bool := vaddr <? PHYS_BASE.
Definition is_kernel_vaddr (vaddr : Z) : bool := PHYS_BASE <=? vaddr.

Definition ptov (paddr : Z) : outcome Z :=
  let* _ := ASSERT (paddr <? PHYS_BASE) in Ret (u32 (paddr + PHYS_BASE)).
Definition vtop (vaddr : Z) : outcome Z :=
  let* _ := ASSERT (is_kernel_vaddr vaddr) in Ret (vaddr - PHYS_BASE).

Definition PTSHIFT : Z := PGBITS.
Definition PTBITS : Z := 10.
Definition PTMASK : Z := BITMASK PTSHIFT PTBITS.
Definition PDSHIFT : Z := PTSHIFT + PTBITS.

Definition pt_no (va : Z) : Z := Z.shiftr (Z.land va PTMASK) PTSHIFT.
Definition pd_no (va : Z) : Z := Z.shiftr va PDSHIFT.

Definition PTE_ADDR : Z := 0xfffff000.
Definition PTE_P : Z := 0x1.
Definition PTE_W : Z := 0x2.
Definition PTE_U : Z := 0x4.
Definition PTE_A : Z := 0x20.
Definition PTE_D : Z := 0x40.

Definition pde_create (pt : Z) : outcome Z :=
  let* _ := ASSERT (pg_ofs pt =? 0) in
  let* p := vtop pt in
  Ret (Z.lor (Z.lor (Z.lor p PTE_U) PTE_P) PTE_W).
Definition pde_get_pt (pde : Z) : outcome Z :=
  let* _ := ASSERT (negb (Z.land pde PTE_P =? 0)) in
  ptov (Z.land pde PTE_ADDR).
Definition pte_create_kernel (page : Z) (writable : bool) : outcome Z :=
  let* _ := ASSERT (pg_ofs page =? 0) in
  let* p := vtop page in
  Ret (Z.lor (Z.lor p PTE_P) (if writable then PTE_W else 0)).
Definition pte_create_user (page : Z) (writable : bool) : outcome Z :=
  let* p := pte_create_kernel page writable in Ret (Z.lor p PTE_U).
Definition pte_get_page (pte : Z) : outcome Z := ptov (Z.land pte PTE_ADDR).

(** [*pte & flag] as a condition, [*pte |= flag] and [*pte &= ~flag]. *)
Definition has (pte flag : Z) : bool := negb (Z.land pte flag =? 0).
Definition set_flag (pte flag : Z) : Z := Z.lor pte flag.
Definition clear_flag (pte flag : Z) : Z := Z.land pte (u32 (Z.lnot flag)).

(** ** What they compute *)

Lemma pg_ofs_mod va : pg_ofs va = va mod 4096.
Proof. unfold pg_ofs. change PGMASK with (Z.ones 12). by apply Z.land_ones. Qed.

Lemma land_page a : 0 ≤ a < 2^32 → Z.land a 0xfffff000 = a / 4096 * 4096.
Proof.
  intros Ha. change 0xfffff000 with (Z.shiftl (Z.ones 20) 12).
  transitivity (Z.shiftl (Z.land (Z.shiftr a 12) (Z.ones 20)) 12).
  - apply Z.bits_inj'. intros i Hi. rewrite Z.land_spec.
    destruct (Z.lt_ge_cases i 12).
    + rewrite !Z.shiftl_spec_low by done. apply andb_false_r.
    + rewrite !Z.shiftl_spec, Z.land_spec, Z.shiftr_spec by lia.
      by rewrite Z.sub_add.
  - rewrite Z.land_ones, Z.shiftl_mul_pow2, Z.shiftr_div_pow2 by done.
    rewrite Z.mod_small; [done|]. change (2^12) with 4096. div_lia.
Qed.

Lemma pg_round_down_eq a : 0 ≤ a < 2^32 → pg_round_down a = a / 4096 * 4096.
Proof. apply land_page. Qed.

Lemma pg_round_up_eq a : 0 ≤ a → a + 4095 < 2^32 → pg_round_up a = (a + 4095) / 4096 * 4096.
Proof.
  intros. unfold pg_round_up. change PGSIZE with 4096.
  rewrite u32_id by lia. change (u32 (Z.lnot PGMASK)) with 0xfffff000.
  rewrite land_page by lia. do 2 f_equal. lia.
Qed.

Lemma pg_no_div va : pg_no va = va / 4096.
Proof. unfold pg_no. by rewrite Z.shiftr_div_pow2. Qed.

Lemma pd_no_div va : pd_no va = va / 2^22.
Proof. unfold pd_no. by rewrite Z.shiftr_div_pow2. Qed.

Lemma pt_no_mod va : pt_no va = (va / 4096) mod 1024.
Proof.
  unfold pt_no. change PTMASK with (Z.shiftl (Z.ones 10) 12). change PTSHIFT with 12.
  rewrite Z.shiftr_land, Z.shiftr_shiftl_l by done. change (12 - 12) with 0.
  rewrite Z.shiftl_0_r, Z.land_ones, Z.shiftr_div_pow2 by done. done.
Qed.

Lemma pt_no_range va : 0 ≤ pt_no va < 1024.
Proof. rewrite pt_no_mod. by apply Z.mod_pos_bound. Qed.

Lemma pd_no_range va : 0 ≤ va < PHYS_BASE → 0 ≤ pd_no va < 768.
Proof. unfold PHYS_BASE. rewrite pd_no_div. intros. div_lia. Qed.

(** Two addresses with the same indices are on the same page. *)
Lemma indices_inj a b : pd_no a = pd_no b → pt_no a = pt_no b → pg_no a = pg_no b.
Proof. rewrite !pd_no_div, !pt_no_mod, !pg_no_div. intros. div_lia. Qed.

Lemma has_testbit pte k : 0 ≤ k → has pte (2^k) = Z.testbit pte k.
Proof.
  intros Hk. unfold has. destruct (Z.testbit pte k) eqn:E.
  - destruct (Z.eqb_spec (Z.land pte (2^k)) 0) as [H0|]; [|done].
    assert (Z.testbit (Z.land pte (2^k)) k = true) as Hb
      by (by rewrite Z.land_spec, E, Z.pow2_bits_true).
    by rewrite H0, Z.bits_0 in Hb.
  - replace (Z.land pte (2^k)) with 0; [done|]. apply Z.bits_inj'. intros i Hi.
    rewrite Z.bits_0, Z.land_spec. destruct (decide (k = i)) as [->|]; [by rewrite E|].
    by rewrite Z.pow2_bits_false, andb_false_r.
Qed.

Lemma has_P w : has w PTE_P = Z.testbit w 0.
Proof. by apply (has_testbit w 0). Qed.
Lemma has_W w : has w PTE_W = Z.testbit w 1.
Proof. by apply (has_testbit w 1). Qed.
Lemma has_U w : has w PTE_U = Z.testbit w 2.
Proof. by apply (has_testbit w 2). Qed.
Lemma has_A w : has w PTE_A = Z.testbit w 5.
Proof. by apply (has_testbit w 5). Qed.
Lemma has_D w : has w PTE_D = Z.testbit w 6.
Proof. by apply (has_testbit w 6). Qed.

Lemma u32_bits_high w i : 0 ≤ w < 2^32 → 32 ≤ i → Z.testbit w i = false.
Proof.
  intros Hw Hi. destruct (decide (w = 0)) as [->|]; [apply Z.bits_0|].
  apply Z.bits_above_log2; [lia|]. apply Z.log2_lt_pow2; [lia|].
  assert (2^32 ≤ 2^i) by (apply Z.pow_le_mono_r; lia). lia.
Qed.

Lemma u32_of_bits w : 0 ≤ w → (∀ i, 32 ≤ i → Z.testbit w i = false) → 0 ≤ w < 2^32.
Proof.
  intros Hw Hb. split; [done|]. destruct (Z.lt_ge_cases w (2^32)); [done|].
  assert (32 ≤ Z.log2 w) by (apply Z.log2_le_pow2; lia).
  assert (Z.testbit w (Z.log2 w) = true) as Ht by (apply Z.bit_log2; lia).
  by rewrite Hb in Ht.
Qed.

Lemma clear_flag_testbit w k i : 0 ≤ w < 2^32 → 0 ≤ k < 32 → 0 ≤ i →
  Z.testbit (clear_flag w (2^k)) i = Z.testbit w i && negb (i =? k).
Proof.
  intros Hw Hk Hi. unfold clear_flag, u32. rewrite Z.land_spec.
  destruct (Z.lt_ge_cases i 32); [|by rewrite (u32_bits_high w)].
  rewrite Z.mod_pow2_bits_low, Z.lnot_spec by lia. f_equal. f_equal.
  destruct (Z.eqb_spec i k) as [->|]; [by apply Z.pow2_bits_true|by apply Z.pow2_bits_false].
Qed.

Lemma set_flag_testbit w k i : 0 ≤ k → 0 ≤ i →
  Z.testbit (set_flag w (2^k)) i = Z.testbit w i || (i =? k).
Proof.
  intros Hk Hi. unfold set_flag. rewrite Z.lor_spec. f_equal.
  destruct (Z.eqb_spec i k) as [->|]; [by apply Z.pow2_bits_true|by apply Z.pow2_bits_false].
Qed.

Lemma clear_flag_range w k : 0 ≤ w < 2^32 → 0 ≤ k < 32 → 0 ≤ clear_flag w (2^k) < 2^32.
Proof.
  intros Hw Hk. apply u32_of_bits.
  - apply Z.land_nonneg. lia.
  - intros i Hi. rewrite clear_flag_testbit by lia. by rewrite u32_bits_high.
Qed.

Lemma set_flag_range w k : 0 ≤ w < 2^32 → 0 ≤ k < 32 → 0 ≤ set_flag w (2^k) < 2^32.
Proof.
  intros Hw Hk. apply u32_of_bits.
  - apply Z.lor_nonneg. lia.
  - intros i Hi. rewrite set_flag_testbit by lia. rewrite u32_bits_high by done.
    simpl. apply Z.eqb_neq. lia.
Qed.

Lemma PTE_ADDR_testbit i : 0 ≤ i → i < 12 → Z.testbit PTE_ADDR i = false.
Proof.
  intros. change PTE_ADDR with (Z.shiftl (Z.ones 20) 12). by apply Z.shiftl_spec_low.
Qed.

(** The flags are below the frame address. *)
Lemma same_frame w w' : 0 ≤ w → (∀ i, 12 ≤ i → Z.testbit w' i = Z.testbit w i) →
  Z.land w' PTE_ADDR = Z.land w PTE_ADDR.
Proof.
  intros Hw Hb. apply Z.bits_inj'. intros i Hi. rewrite !Z.land_spec.
  destruct (Z.lt_ge_cases i 12); [by rewrite PTE_ADDR_testbit, !andb_false_r by done|].
  by rewrite Hb.
Qed.

Lemma clear_flag_frame w k : 0 ≤ w < 2^32 → 0 ≤ k < 12 →
  Z.land (clear_flag w (2^k)) PTE_ADDR = Z.land w PTE_ADDR.
Proof.
  intros Hw Hk. apply same_frame; [lia|]. intros i Hi. rewrite clear_flag_testbit by lia.
  by rewrite (proj2 (Z.eqb_neq i k)), andb_true_r by lia.
Qed.

Lemma set_flag_frame w k : 0 ≤ w < 2^32 → 0 ≤ k < 12 →
  Z.land (set_flag w (2^k)) PTE_ADDR = Z.land w PTE_ADDR.
Proof.
  intros Hw Hk. apply same_frame; [lia|]. intros i Hi. rewrite set_flag_testbit by lia.
  by rewrite (proj2 (Z.eqb_neq i k)), orb_false_r by lia.
Qed.

Lemma clear_absent w : 0 ≤ w < 2^32 → has w PTE_P = false → clear_flag w PTE_P = w.
Proof.
  intros Hw Hp. rewrite has_P in Hp. apply Z.bits_inj'. intros i Hi.
  rewrite (clear_flag_testbit w 0) by lia. destruct (Z.eqb_spec i 0) as [->|]; [|apply andb_true_r].
  by rewrite Hp.
Qed.

(** An entry made of a page-aligned frame and flags. *)
Lemma entry_ok x f : 0 ≤ x < 2^32 → x mod 4096 = 0 → 0 ≤ f < 4096 →
  Z.land (Z.lor x f) PTE_ADDR = x ∧ 0 ≤ Z.lor x f < 2^32 ∧
  ∀ k, 0 ≤ k < 12 → Z.testbit (Z.lor x f) k = Z.testbit f k.
Proof.
  intros Hx Ha Hf.
  assert (∀ i, 12 ≤ i → Z.testbit f i = false) as Hfb.
  { intros i Hi. destruct (decide (f = 0)) as [->|]; [apply Z.bits_0|].
    apply Z.bits_above_log2; [lia|]. apply Z.log2_lt_pow2; [lia|].
    assert (2^12 ≤ 2^i) by (apply Z.pow_le_mono_r; lia). lia. }
  assert (0 ≤ Z.lor x f) by (apply Z.lor_nonneg; lia).
  split; [|split].
  - rewrite (same_frame x).
    + unfold PTE_ADDR. rewrite land_page by done. div_lia.
    + lia.
    + intros i Hi. rewrite Z.lor_spec, Hfb, orb_false_r by done. done.
  - apply u32_of_bits; [done|]. intros i Hi.
    rewrite Z.lor_spec, Hfb, u32_bits_high by lia. done.
  - intros k Hk. rewrite Z.lor_spec. replace (Z.testbit x k) with false; [done|].
    symmetry. rewrite <-(Z.mod_pow2_bits_low x 12) by lia. change (2^12) with 4096.
    by rewrite Ha, Z.bits_0.
Qed.

Definition kernel_page (p : Z) : Prop := PHYS_BASE ≤ p < 2^32 ∧ p mod 4096 = 0.

Lemma ptov_frame w p : Z.land w PTE_ADDR = p - PHYS_BASE → kernel_page p →
  ptov (Z.land w PTE_ADDR) = Ret p.
Proof.
  intros -> [Hp _]. unfold ptov, PHYS_BASE in *.
  destruct (Z.ltb_spec (p - 0xc0000000) 0xc0000000); [|lia]. simpl. rewrite u32_id by lia.
  f_equal. lia.
Qed.

(** The flags of a new user entry. *)
Definition user_flags (writable : bool) : Z :=
  Z.lor (Z.lor PTE_P (if writable then PTE_W else 0)) PTE_U.

Lemma pte_create_user_ok page writable : kernel_page page →
  pte_create_user page writable = Ret (Z.lor (page - PHYS_BASE) (user_flags writable)).
Proof.
  intros [Hp Ha]. unfold pte_create_user, pte_create_kernel, vtop, is_kernel_vaddr.
  rewrite pg_ofs_mod, Ha. simpl. destruct (Z.leb_spec PHYS_BASE page); [|lia]. simpl.
  unfold user_flags. by rewrite !Z.lor_assoc.
Qed.

Lemma kernel_page_frame p : kernel_page p → 0 ≤ p - PHYS_BASE < 2^32 ∧ (p - PHYS_BASE) mod 4096 = 0.
Proof. unfold kernel_page, PHYS_BASE. intros [Hp Ha]. split; [lia|]. div_lia. Qed.

Lemma user_pte_ok page writable : kernel_page page →
  let pte := Z.lor (page - PHYS_BASE) (user_flags writable) in
  0 ≤ pte < 2^32 ∧ pte_get_page pte = Ret page ∧ has pte PTE_P = true ∧ has pte PTE_U = true ∧
  has pte PTE_W = writable ∧ has pte PTE_D = false ∧ has pte PTE_A = false.
Proof.
  intros Hp pte. destruct (kernel_page_frame page Hp) as [Hr Ha].
  destruct (entry_ok (page - PHYS_BASE) (user_flags writable) Hr Ha) as (Hfr & Hrange & Hb).
  { by destruct writable. }
  split; [done|]. split; [by apply ptov_frame|]. subst pte.
  rewrite has_P, has_U, has_W, has_D, has_A, !Hb by done. by destruct writable.
Qed.

Lemma pde_create_ok pt : kernel_page pt →
  ∃ pde, pde_create pt = Ret pde ∧ pde ≠ 0 ∧ 0 ≤ pde < 2^32 ∧ pde_get_pt pde = Ret pt.
Proof.
  intros Hp. destruct (kernel_page_frame pt Hp) as [Hr Ha]. pose proof Hp as [Hp1 Hp2].
  unfold pde_create, vtop, is_kernel_vaddr. rewrite pg_ofs_mod, Hp2. simpl.
  destruct (Z.leb_spec PHYS_BASE pt); [|lia]. simpl. eexists. split; [done|].
  rewrite <-!Z.lor_assoc.
  destruct (entry_ok (pt - PHYS_BASE) (Z.lor PTE_U (Z.lor PTE_P PTE_W)) Hr Ha) as (Hfr & Hrange & Hb);
    [done|].
  assert (has (Z.lor (pt - PHYS_BASE) (Z.lor PTE_U (Z.lor PTE_P PTE_W))) PTE_P = true) as Hpres.
  { by rewrite has_P, Hb. }
  split; [|split; [done|]].
  - intros E. by rewrite E in Hpres.
  - unfold pde_get_pt. unfold has in Hpres. rewrite Hpres. simpl. by apply ptov_frame.
Qed.
