(* ===== verification/Stack.v ===== *)
(** * The initial stack of a process (userprog/process.c)

    [parse_push] copies the words of the command line to the stack page of a
    new process, and below them the argument vector, its address and its
    length.  The addresses of user memory and of kernel memory are in one map
    of bytes, as they are for the code.  The theorem: a program that starts
    with this stack finds its arguments. *)

From S2P Require Import Prelude Cstring Vaddr.

(** ** The code *)

Definition MAX_CMD_LEN : Z := 128.

(** [*p = v] for an int. *)
Definition store_int (p v : Z) : cmd memory unit :=
  let* _ := store p v in
  let* _ := store (p + 1) (v / 256) in
  let* _ := store (p + 2) (v / 65536) in
  store (p + 3) (v / 16777216).

(** The loop over the words: the stack pointer, [argc] and [file_name]. *)
Fixpoint push_tokens (fuel : nat) (delimiters s save_ptr my_esp argc file_name : Z) : cmd memory (Z * Z * Z) :=
  match fuel with
  | O => lift (Fail OutOfFuel)
  | S fuel =>
      let* (token, save_ptr) := strtok_r s delimiters save_ptr in
      if token =? 0 then mret (my_esp, argc, file_name) else
      let* len := strnlen token MAX_CMD_LEN in
      let my_esp := my_esp - (len + 1) in
      let* _ := strlcpy my_esp token (len + 1) in
      push_tokens fuel delimiters 0 save_ptr my_esp (argc + 1) (if argc =? 0 then my_esp else file_name)
  end.

(** The walk back up the stack. *)
Fixpoint push_pointers (fuel : nat) (save_ptr esp_int : Z) : cmd memory Z :=
  match fuel with
  | O => lift (Fail OutOfFuel)
  | S fuel =>
      if save_ptr <? PHYS_BASE - 1 then
        let* x := load save_ptr in
        if x =? 0 then
          let* _ := store_int (esp_int - 4) (save_ptr + 1) in
          push_pointers fuel (save_ptr + 2) (esp_int - 4)
        else push_pointers fuel (save_ptr + 1) esp_int
      else mret esp_int
  end.

(** [page] is what palloc_get_page returns; PAL_ASSERT makes a failure a
    panic.  The page is zero when it is allocated, and overwritten when it is
    freed.  The result is [file_name] and the new stack pointer. *)
Definition parse_push (page : option Z) (delimiters cmdline esp : Z) : cmd memory (Z * Z) :=
  let* s := lift (match page with Some s => Ret s | None => Fail Panicked end) in
  let* _ := modify (λ m, write m s (replicate (Z.to_nat PGSIZE) 0)) in
  let* n := strnlen cmdline MAX_CMD_LEN in
  let* _ := strlcpy s cmdline (n + 1) in
  let* (my_esp, argc, file_name) := push_tokens (S (S (Z.to_nat MAX_CMD_LEN))) delimiters s 0 esp 0 0 in
  let* _ := modify (λ m, write m s (replicate (Z.to_nat PGSIZE) 0xcc)) in
  let save_ptr := my_esp in
  let my_esp := my_esp - my_esp mod 4 in
  let esp_int := my_esp - 4 in
  let save_ptr := save_ptr - 1 in
  let* esp_int := push_pointers (S (Z.to_nat PGSIZE)) save_ptr esp_int in
  let save_ptr := esp_int in
  let* _ := store_int (esp_int - 4) save_ptr in
  let* _ := store_int (esp_int - 8) argc in
  mret (file_name, esp_int - 12).

(** ** Words in memory *)

Definition int_at (m : memory) (p v : Z) : Prop := bytes_at m p (le4 v).

Lemma store_int_ok m p v : mapped m p 4 → store_int p v m = Ret ((), write m p (le4 v)).
Proof.
  intros Hm. assert (∀ m' q b, mapped m' p 4 → p ≤ q < p + 4 → store q b m' = Ret ((), <[q := b mod 256]> m')) as Hst.
  { intros m' q b Hm' Hq. unfold store. destruct (Hm' q Hq) as [x ->]. done. }
  unfold store_int. rewrite (cstep _ _ _ () (<[p := v mod 256]> m)) by (apply Hst; [done|lia]).
  rewrite (cstep _ _ _ () (<[p + 1 := v / 256 mod 256]> (<[p := v mod 256]> m))) by (apply Hst; [by apply mapped_insert|lia]).
  rewrite (cstep _ _ _ () (<[p + 2 := v / 65536 mod 256]> (<[p + 1 := v / 256 mod 256]> (<[p := v mod 256]> m)))) by (apply Hst; [by do 2 apply mapped_insert|lia]).
  rewrite Hst by (by do 3 apply mapped_insert) || lia. cbn [write le4].
  by replace (p + 1 + 1 + 1) with (p + 3) by lia; replace (p + 1 + 1) with (p + 2) by lia.
Qed.

(** The strings [ws] one after the other, each with its terminator. *)
Definition flat (ws : list (list Z)) : list Z := concat ((λ w, w ++ [0]) <$> ws).

Lemma flat_app ws ws' : flat (ws ++ ws') = flat ws ++ flat ws'.
Proof. unfold flat. by rewrite fmap_app, concat_app. Qed.

(** A word: some characters, none of them zero. *)
Definition wordy (w : list Z) : Prop := w ≠ [] ∧ ∀ x, x ∈ w → 0 < x < 256.

Lemma words_wordy d s : ∀ cur, (∀ x, x ∈ cur ++ s → 0 < x < 256) → Forall wordy (words_from d cur s).
Proof.
  induction s as [|x s IH]; intros cur Hs; cbn [words_from].
  - destruct cur as [|c cur]; [constructor|]. constructor; [|constructor]. split; [done|]. intros y Hy. apply Hs. by rewrite app_nil_r.
  - destruct (d x); [|apply IH; intros y Hy; apply Hs; by rewrite <- app_assoc in Hy].
    assert (Forall wordy (words_from d [] s)) as H by (apply IH; intros y Hy; apply Hs; set_solver).
    destruct cur as [|c cur]; [done|]. constructor; [|done]. split; [done|]. intros y Hy. apply Hs. set_solver.
Qed.

Lemma words_flat d s : ∀ cur, zlength (flat (words_from d cur s)) ≤ zlength cur + zlength s + 1.
Proof.
  induction s as [|x s IH]; intros cur; cbn [words_from].
  - destruct cur; cbn; [lia|]. rewrite !length_app. simpl. lia.
  - destruct (d x); [|pose proof (IH (cur ++ [x])) as H; rewrite length_app in H; simpl length in *; lia].
    pose proof (IH []) as H. destruct cur as [|c cur]; [simpl length in *; lia|].
    unfold flat in *. rewrite fmap_cons. cbn [concat]. rewrite !length_app. simpl length in *. lia.
Qed.

Lemma wordy_flat ws : Forall wordy ws → 2 * zlength ws ≤ zlength (flat ws).
Proof.
  induction 1 as [|w ws [Hw _] _ IH]; [done|]. unfold flat in *. rewrite fmap_cons. cbn [concat]. rewrite !length_app.
  destruct w; [done|]. simpl length in *. lia.
Qed.

Lemma write_below m p bs cs : write (write m (p + zlength bs) cs) p bs = write m p (bs ++ cs).
Proof.
  apply map_eq. intros a. rewrite !write_lookup, length_app. destruct (decide (p ≤ a < p + zlength bs)).
  - rewrite decide_True by lia. by rewrite lookup_app_l by lia.
  - destruct (decide (p + zlength bs ≤ a < p + zlength bs + zlength cs)).
    + rewrite decide_True by lia. rewrite lookup_app_r by lia. f_equal. lia.
    + by rewrite decide_False by lia.
Qed.

(** ** The strings *)

Lemma flat_cons w ws : flat (w :: ws) = w ++ 0 :: flat ws.
Proof. unfold flat. rewrite fmap_cons. cbn [concat]. by rewrite <- app_assoc. Qed.

Lemma flat_reverse ws : zlength (flat (reverse ws)) = zlength (flat ws).
Proof.
  induction ws as [|w ws IH]; [done|]. rewrite reverse_cons, flat_app, !flat_cons, !length_app. change (flat []) with (@nil Z). simpl length. lia.
Qed.

Lemma push_tokens_ok q fuel : ∀ m p s s0 saved E argc fn, string_at m q [32] → string_at m p s → (if s0 =? 0 then saved else s0) = p →
  q + 1 < p ∨ p + zlength s ≤ q → E ≤ p → E ≤ q → zlength s ≤ MAX_CMD_LEN → (length s < fuel)%nat →
  let ws := words (member [32]) s in
  mapped m (E - zlength (flat ws)) (zlength (flat ws)) → 0 < E - zlength (flat ws) →
  ∃ m' fn', push_tokens fuel q s0 saved E argc fn m = Ret ((E - zlength (flat ws), argc + zlength ws, fn'), m') ∧
    bytes_at m' (E - zlength (flat ws)) (flat (reverse ws)) ∧
    ∀ a, ¬ (p ≤ a < p + zlength s) → ¬ (E - zlength (flat ws) ≤ a < E) → m' !! a = m !! a.
Proof.
  induction fuel as [|fuel IH]; intros m p s s0 saved E argc fn Hq Hs Ep Hdis Hp Hqe Hmax Hf ws Hm Hpos; [lia|]. cbn [push_tokens].
  destruct (strtok_step q [32] m p s s0 saved Hq Hs Ep) as [[Es Hw]|(t & sv & m1 & w & rest & Es & Ht & Htok)]; rewrite (cstep _ _ _ _ _ Es); cbn iota beta.
  { exists m, fn. unfold ws. rewrite Hw. simpl. rewrite Z.sub_0_r, Z.add_0_r. split; [done|]. split; [by intros k b|done]. }
  destruct Htok as (Hw & Hne & Hrest & Hwords & Hpt & Htw & Hsv & Hlen & Hout & Hsep & Hz). destruct (Z.eqb_spec t 0); [done|].
  unfold ws in *. rewrite Hwords in *. clear ws. set (ws := words (member [32]) rest) in *. rewrite flat_cons, length_app in *. simpl length in *.
  rewrite (cstep _ _ _ (zlength w) m1) by (rewrite (strnlen_ok m1 t w) by (done || unfold MAX_CMD_LEN in *; lia); do 2 f_equal; unfold MAX_CMD_LEN in *; lia).
  set (E1 := E - (zlength w + 1)). set (m2 := write m1 E1 (w ++ [0])).
  rewrite (cstep _ _ _ (zlength w) m2).
  2:{ rewrite (strlcpy_ok m1 E1 t w); [|done|unfold E1; lia|lia| |unfold E1; lia].
      - rewrite take_ge by lia. done.
      - intros a Ha. rewrite Hout by (unfold E1 in Ha; lia). apply Hm. unfold E1 in Ha. lia. }
  assert (∀ a, ¬ (E1 ≤ a < E) → m2 !! a = m1 !! a) as Hm2. { intros a Ha. apply write_other. unfold E1 in *. rewrite length_app. simpl. lia. }
  destruct (IH m2 sv rest 0 sv E1 (argc + 1) (if argc =? 0 then E1 else fn)) as (m3 & fn' & E3 & Hb & Hout3); try (done || unfold E1; lia).
  - apply (string_at_agree m); [done|]. intros a Ha. simpl in Ha. rewrite Hm2 by lia. apply Hout. lia.
  - apply (string_at_agree m1); [done|]. intros a Ha. apply Hm2. lia.
  - fold ws. intros a Ha. rewrite Hm2 by (unfold E1 in *; lia). rewrite Hout by (unfold E1 in *; lia). apply Hm. unfold E1 in *. lia.
  - fold ws. unfold E1 in *. lia.
  - fold ws in E3, Hb, Hout3. unfold E1 in *. exists m3, fn'. rewrite E3. match type of Hb with bytes_at _ ?x _ => replace x with (E - Z.of_nat (length w + S (length (flat ws)))) in * by lia end.
    replace (argc + 1 + zlength ws) with (argc + Z.of_nat (S (length ws))) by lia. split; [done|]. rewrite reverse_cons, flat_app, flat_cons. split.
    + apply bytes_at_app. rewrite flat_reverse. split; [exact Hb|].
      replace (E - Z.of_nat (length w + S (length (flat ws))) + zlength (flat ws)) with (E - (zlength w + 1)) by lia.
      apply (bytes_at_agree m2); [apply write_at|]. intros a Ha. rewrite length_app in Ha. simpl length in Ha. apply Hout3; lia.
    + intros a Ha Hb'. rewrite Hout3, Hm2, Hout by lia. done.
Qed.

(** ** The pointers *)

(** The addresses of the strings [ws] when the first one is at [p]. *)
Fixpoint starts (p : Z) (ws : list (list Z)) : list Z :=
  match ws with [] => [] | w :: ws => p :: starts (p + zlength w + 1) ws end.

Lemma starts_length ws : ∀ p, length (starts p ws) = length ws.
Proof. induction ws as [|w ws IH]; intros p; simpl; [done|]. by rewrite IH. Qed.

(** The strings [ws] at the addresses [ps], between [lo] and [hi]. *)
Definition strings_in (m : memory) (lo hi : Z) (ps : list Z) (ws : list (list Z)) : Prop :=
  Forall2 (λ a w, string_at m a w ∧ lo ≤ a ∧ a + zlength w < hi) ps ws.

Lemma starts_strings m ws : Forall wordy ws → ∀ p, 0 < p → bytes_at m p (flat ws) → strings_in m p (p + zlength (flat ws)) (starts p ws) ws.
Proof.
  induction 1 as [|w ws [_ Hw] _ IH]; intros p Hp Hb; [constructor|]. rewrite flat_cons in *. simpl.
  change (w ++ 0 :: flat ws) with (w ++ [0] ++ flat ws) in Hb. rewrite app_assoc in Hb. apply bytes_at_app in Hb as [Hb1 Hb2].
  rewrite length_app in *. simpl length in *. constructor; [split; [by split|lia]|].
  replace (p + Z.of_nat (length w + 1)) with (p + zlength w + 1) in Hb2 by lia. eapply Forall2_impl; [apply IH; [lia|exact Hb2]|]. simpl. intros a v (? & ? & ?). split; [done|lia].
Qed.

Lemma scan_ok w : ∀ fuel sp e m, bytes_at m sp w → (∀ x, x ∈ w → 0 < x < 256) → sp + zlength w ≤ PHYS_BASE - 1 →
  push_pointers (length w + fuel) sp e m = push_pointers fuel (sp + zlength w) e m.
Proof.
  induction w as [|x w IH]; intros fuel sp e m Hb Hw Hsp; [by rewrite Z.add_0_r|]. apply bytes_at_cons in Hb as [Hx Hb]. simpl length in *.
  cbn [push_pointers Nat.add]. destruct (Z.ltb_spec sp (PHYS_BASE - 1)); [|lia]. rewrite (cstep _ _ _ x m) by by apply load_ok.
  assert (0 < x < 256) by (apply Hw; by left). destruct (Z.eqb_spec x 0); [lia|]. rewrite IH; [f_equal; lia|done|intros y Hy; apply Hw; by right|lia].
Qed.

Definition vector (ps : list Z) : list Z := concat (le4 <$> ps).
Lemma vector_app ps qs : vector (ps ++ qs) = vector ps ++ vector qs.
Proof. unfold vector. by rewrite fmap_app, concat_app. Qed.
Lemma vector_length ps : zlength (vector ps) = 4 * zlength ps.
Proof. induction ps as [|p ps IH]; [done|]. unfold vector in *. rewrite fmap_cons. cbn [concat]. rewrite length_app. simpl length. lia. Qed.

Lemma push_pointers_ok ws : Forall wordy ws → ∀ fuel sp e m, bytes_at m sp (0 :: flat ws) → sp + 1 + zlength (flat ws) = PHYS_BASE →
  (length (flat ws) < fuel)%nat → mapped m (e - 4 * zlength ws) (4 * zlength ws) → e ≤ sp →
  push_pointers fuel sp e m = Ret (e - 4 * zlength ws, write m (e - 4 * zlength ws) (vector (reverse (starts (sp + 1) ws)))).
Proof.
  induction 1 as [|w ws [Hne Hw] Hws IH]; intros fuel sp e m Hb Hsp Hf Hm He.
  { destruct fuel as [|fuel]; [lia|]. cbn [push_pointers]. simpl in Hsp. destruct (Z.ltb_spec sp (PHYS_BASE - 1)); [lia|]. simpl. by rewrite Z.sub_0_r. }
  rewrite flat_cons, length_app in *. simpl length in *. apply bytes_at_cons in Hb as [H0 Hb]. apply bytes_at_app in Hb as [Hbw Hb].
  destruct w as [|x w]; [done|]. simpl length in *. destruct fuel as [|fuel]; [lia|]. cbn [push_pointers].
  destruct (Z.ltb_spec sp (PHYS_BASE - 1)); [|lia]. rewrite (cstep _ _ _ 0 m) by by apply load_ok. cbn [Z.eqb].
  set (m1 := write m (e - 4) (le4 (sp + 1))). rewrite (cstep _ _ _ () m1) by (apply store_int_ok; intros a Ha; apply Hm; lia).
  assert (∀ a, e ≤ a ∨ a < e - 4 → m1 !! a = m !! a) as Hm1 by (intros a Ha; apply write_other; simpl; lia).
  apply bytes_at_cons in Hbw as [_ Hbw]. replace fuel with (length w + (fuel - length w))%nat by lia. rewrite scan_ok.
  2:{ replace (sp + 2) with (sp + 1 + 1) by lia. apply (bytes_at_agree m); [done|]. intros a Ha. apply Hm1. lia. }
  2:{ intros y Hy. apply Hw. by right. }
  2:{ lia. }
  rewrite IH.
  - cbn [starts]. simpl length. rewrite reverse_cons, vector_app. replace (sp + 2 + zlength w + 1) with (sp + 1 + Z.of_nat (S (length w)) + 1) by lia.
    set (ps := vector _). assert (zlength ps = 4 * zlength ws) as Hps by (unfold ps; by rewrite vector_length, length_reverse, starts_length).
    rewrite <- write_below. change (vector [sp + 1]) with (le4 (sp + 1)). unfold m1.
    replace (e - 4 * Z.of_nat (S (length ws)) + zlength ps) with (e - 4) by lia. do 2 f_equal; [lia|]. f_equal. lia.
  - replace (sp + 2 + zlength w) with (sp + 1 + Z.of_nat (S (length w))) by lia. apply (bytes_at_agree m); [done|]. intros a Ha. apply Hm1. lia.
  - lia.
  - lia.
  - intros a Ha. destruct (decide (e - 4 ≤ a)); [lia|]. rewrite Hm1 by lia. apply Hm. lia.
  - lia.
Qed.

(** ** The stack *)

(** The command line [text] at [cmdline], the page for the copy, and a stack
    page of zeros. *)
Record stack_ready (m : memory) (page delimiters cmdline : Z) (text : list Z) : Prop := {
  sr_text : string_at m cmdline text;
  sr_space : string_at m delimiters [32];
  sr_kernel : PHYS_BASE ≤ page ∧ PHYS_BASE ≤ delimiters ∧ PHYS_BASE ≤ cmdline;
  sr_text_apart : cmdline + zlength text < page ∨ page + PGSIZE ≤ cmdline;
  sr_space_apart : delimiters + 1 < page ∨ page + PGSIZE ≤ delimiters;
  sr_stack a : PHYS_BASE - PGSIZE ≤ a < PHYS_BASE → m !! a = Some 0
}.

(** The arguments of the program. *)
Definition arguments (text : list Z) : list (list Z) := words (member [32]) (take (Z.to_nat MAX_CMD_LEN) text).

#[local] Ltac pages := unfold PHYS_BASE in *; change PGSIZE with 4096 in *.

Section ParsePush.
Context (m : memory) (page q cmdline : Z) (text : list Z) (Hr : stack_ready m page q cmdline text).
Notation ws := (arguments text).
Notation top := (PHYS_BASE - zlength (flat ws)).

Lemma text_chars x : x ∈ take (Z.to_nat MAX_CMD_LEN) text → 0 < x < 256.
Proof. intros Hx. apply (st_chars _ _ _ (sr_text _ _ _ _ _ Hr)). rewrite <- (take_drop (Z.to_nat MAX_CMD_LEN) text). apply elem_of_app. by left. Qed.

Lemma arguments_wordy : Forall wordy ws.
Proof. apply words_wordy. apply text_chars. Qed.

Lemma arguments_small : zlength (flat ws) ≤ 129 ∧ zlength ws ≤ 64.
Proof.
  pose proof (words_flat (member [32]) (take (Z.to_nat MAX_CMD_LEN) text) []) as H. pose proof (wordy_flat _ arguments_wordy) as H2.
  fold (words (member [32]) (take (Z.to_nat MAX_CMD_LEN) text)) in H. fold (arguments text) in H. rewrite length_take in H. simpl length in H. unfold MAX_CMD_LEN in *. lia.
Qed.

(** The copy of the command line. *)
Lemma copy_ok : ∃ m', (∀ B (k : Z → cmd memory B), (let* _ := modify (λ m, write m page (replicate (Z.to_nat PGSIZE) 0)) in
    let* n := strnlen cmdline MAX_CMD_LEN in let* r := strlcpy page cmdline (n + 1) in k r) m = k (zlength text) m') ∧
  string_at m' page (take (Z.to_nat MAX_CMD_LEN) text) ∧ ∀ a, ¬ (page ≤ a < page + PGSIZE) → m' !! a = m !! a.
Proof.
  destruct (sr_kernel _ _ _ _ _ Hr) as (Hk1 & Hk2 & Hk3). pose proof (sr_text_apart _ _ _ _ _ Hr) as Hap. pages.
  change (Z.to_nat 4096) with 4096%nat. set (m1 := write m page (replicate 4096 0)).
  assert (∀ a, ¬ (page ≤ a < page + 4096) → m1 !! a = m !! a) as Hm1 by (intros a Ha; apply write_other; rewrite length_replicate; lia).
  assert (string_at m1 cmdline text) as Ht by (apply (string_at_agree m); [apply Hr|]; intros a Ha; apply Hm1; lia).
  set (n := Z.min (zlength text) MAX_CMD_LEN). assert (take (Z.to_nat n) text = take (Z.to_nat MAX_CMD_LEN) text) as En.
  { unfold n. destruct (decide (zlength text ≤ MAX_CMD_LEN)); [rewrite !take_ge by lia; done|]. f_equal. lia. }
  assert (0 ≤ n ≤ 128) as Hn by (unfold n, MAX_CMD_LEN; lia).
  eexists. split.
  { intros B k. rewrite cmodify. fold m1. rewrite (cstep _ _ _ _ _ (strnlen_ok m1 cmdline text MAX_CMD_LEN Ht ltac:(done))). fold n.
    rewrite (cstep _ _ _ (zlength text) (write m1 page (take (Z.to_nat (n + 1 - 1)) text ++ [0]))); [done|]. apply strlcpy_ok; [done|lia|lia| |lia].
    intros a Ha. unfold m1. rewrite write_lookup, length_replicate, decide_True by lia.
    apply lookup_lt_is_Some. rewrite length_replicate. lia. }
  replace (n + 1 - 1) with n by lia. rewrite En. split; [apply string_written; [lia|apply text_chars]|].
  intros a Ha. rewrite write_other; [by apply Hm1|]. rewrite length_app, length_take. simpl length. unfold MAX_CMD_LEN. lia.
Qed.

(** The words on the stack, the last one lowest. *)
Lemma strings_ok : ∃ m' fn, (∀ B (k : Z → Z → Z → cmd memory B), (let* _ := modify (λ m, write m page (replicate (Z.to_nat PGSIZE) 0)) in
    let* n := strnlen cmdline MAX_CMD_LEN in
    let* _ := strlcpy page cmdline (n + 1) in
    let* (my_esp, argc, fn) := push_tokens (S (S (Z.to_nat MAX_CMD_LEN))) q page 0 PHYS_BASE 0 0 in
    let* _ := modify (λ m, write m page (replicate (Z.to_nat PGSIZE) 0xcc)) in k my_esp argc fn) m = k top (zlength ws) fn m') ∧
  bytes_at m' top (flat (reverse ws)) ∧ (∀ a, PHYS_BASE - PGSIZE ≤ a < top → m' !! a = Some 0) ∧
  ∀ a, ¬ (page ≤ a < page + PGSIZE) → ¬ (PHYS_BASE - PGSIZE ≤ a < PHYS_BASE) → m' !! a = m !! a.
Proof.
  destruct (sr_kernel _ _ _ _ _ Hr) as (Hk1 & Hk2 & Hk3). pose proof arguments_small as [Hsm _]. pose proof (sr_space_apart _ _ _ _ _ Hr) as Hap.
  destruct copy_ok as (m1 & E1 & Hs & Hm1). assert (length (take (Z.to_nat MAX_CMD_LEN) text) ≤ 128)%nat as Hl by (rewrite length_take; unfold MAX_CMD_LEN; lia).
  assert (∀ a, PHYS_BASE - PGSIZE ≤ a < PHYS_BASE → m1 !! a = Some 0) as Hz.
  { intros a Ha. rewrite Hm1 by (pages; lia). by apply Hr. }
  destruct (push_tokens_ok q (S (S (Z.to_nat MAX_CMD_LEN))) m1 page (take (Z.to_nat MAX_CMD_LEN) text) page 0 PHYS_BASE 0 0) as (m2 & fn & E2 & Hb & Hm2); try (done || unfold MAX_CMD_LEN in *; lia).
  { apply (string_at_agree m); [apply Hr|]. intros a Ha. simpl in Ha. apply Hm1. pages. lia. }
  { destruct (Z.eqb_spec page 0); [pages; lia|done]. }
  { pages. lia. }
  { intros a Ha. fold ws in Ha. rewrite Hz; [done|]. pages. lia. }
  { fold ws. pages. lia. }
  fold ws in E2, Hb, Hm2. rewrite Z.add_0_l in E2. set (m3 := write m2 page (replicate 4096 0xcc)).
  assert (∀ a, ¬ (page ≤ a < page + PGSIZE) → m3 !! a = m2 !! a) as Hm3 by (intros a Ha; apply write_other; rewrite length_replicate; pages; lia).
  exists m3, fn. split.
  - intros B k. rewrite E1, (cstep _ _ _ _ _ E2). by rewrite cmodify.
  - split; [apply (bytes_at_agree m2); [done|]; intros a Ha; apply Hm3; rewrite flat_reverse in Ha; pages; lia|]. split.
    + intros a Ha. rewrite Hm3, Hm2; [apply Hz; lia|pages; lia..].
    + intros a Ha Ha'. rewrite Hm3, Hm2, Hm1 by (done || pages; unfold MAX_CMD_LEN in *; lia). done.
Qed.

Lemma pointers_ok m1 : bytes_at m1 top (flat (reverse ws)) → (∀ a, PHYS_BASE - PGSIZE ≤ a < top → m1 !! a = Some 0) →
  let e := top - top mod 4 - 4 in let argv := e - 4 * zlength ws in let ptrs := reverse (starts top (reverse ws)) in
  ∀ B (k : Z → cmd memory B), (let* esp := push_pointers (S (Z.to_nat PGSIZE)) (top - 1) e in
    let* _ := store_int (esp - 4) esp in let* _ := store_int (esp - 8) (zlength ws) in k esp) m1 =
  k argv (write m1 (argv - 8) (vector (zlength ws :: argv :: ptrs))).
Proof.
  intros Hb Hz e argv ptrs B k. pose proof arguments_small as [Hs1 Hs2]. pose proof (Z.mod_pos_bound top 4 ltac:(lia)) as Hmod.
  assert (zlength (reverse ws) = zlength ws) as Hrl by (by rewrite length_reverse).
  assert (push_pointers (S (Z.to_nat PGSIZE)) (top - 1) e m1 = Ret (argv, write m1 argv (vector ptrs))) as E.
  { pose proof (push_pointers_ok (reverse ws)) as H. rewrite Hrl in H. rewrite H.
    - by replace (top - 1 + 1) with top by lia.
    - apply Forall_reverse, arguments_wordy.
    - apply bytes_at_cons. replace (top - 1 + 1) with top by lia. split; [apply Hz; pages; lia|done].
    - rewrite flat_reverse. lia.
    - pose proof (flat_reverse ws). pages. lia.
    - intros a Ha. rewrite Hz; [done|]. unfold e in *. pages. lia.
    - unfold e. lia. }
  assert (zlength (vector ptrs) = 4 * zlength ws) as Hv by (rewrite vector_length; unfold ptrs; by rewrite length_reverse, starts_length, length_reverse).
  assert (∀ a n, argv - 12 ≤ a → a + n ≤ argv → mapped m1 a n) as Hm by (intros a n Ha Hn b Hb'; rewrite Hz; [done|]; unfold argv, e in *; pages; lia).
  rewrite (cstep _ _ _ _ _ E). rewrite (cstep _ _ _ () (write m1 (argv - 4) (vector (argv :: ptrs)))).
  2:{ rewrite store_int_ok by (intros a Ha; rewrite write_other by lia; apply (Hm (argv - 4) 4); lia).
      change (vector (argv :: ptrs)) with (le4 argv ++ vector ptrs). rewrite <- write_below. by replace (argv - 4 + zlength (le4 argv)) with argv by (simpl; lia). }
  rewrite (cstep _ _ _ () (write m1 (argv - 8) (vector (zlength ws :: argv :: ptrs)))); [done|].
  rewrite store_int_ok by (intros a Ha; rewrite write_other by lia; apply (Hm (argv - 8) 4); lia).
  change (vector (zlength ws :: argv :: ptrs)) with (le4 (zlength ws) ++ vector (argv :: ptrs)). rewrite <- write_below.
  by replace (argv - 8 + zlength (le4 (zlength ws))) with (argv - 4) by (simpl; lia).
Qed.
End ParsePush.

Lemma vector_at m p ps i a : bytes_at m p (vector ps) → ps !! i = Some a → int_at m (p + 4 * Z.of_nat i) a.
Proof.
  intros Hb Hi. rewrite <- (take_drop_middle ps i a Hi), vector_app in Hb. apply bytes_at_app in Hb as [_ Hb].
  rewrite vector_length, length_take in Hb. apply lookup_lt_Some in Hi. replace (Z.of_nat (Nat.min i (length ps))) with (Z.of_nat i) in Hb by lia.
  change (vector (a :: drop (S i) ps)) with (le4 a ++ vector (drop (S i) ps)) in Hb. by apply bytes_at_app in Hb as [Hb _].
Qed.

(** What a program finds at its stack pointer: a return address, [argc] and
    [argv], the address of a vector of pointers to the arguments that a null
    pointer ends. *)
Definition stack_layout (m : memory) (esp : Z) (args : list (list Z)) : Prop :=
  esp mod 4 = 0 ∧ PHYS_BASE - PGSIZE < esp ∧ esp + 16 + 4 * zlength args ≤ PHYS_BASE ∧
  int_at m esp 0 ∧ int_at m (esp + 4) (zlength args) ∧ int_at m (esp + 8) (esp + 12) ∧
  ∃ ptrs, strings_in m esp PHYS_BASE ptrs args ∧ (∀ i a, ptrs !! i = Some a → int_at m (esp + 12 + 4 * Z.of_nat i) a) ∧
    int_at m (esp + 12 + 4 * zlength args) 0.

Lemma layout_agree m m' esp args : stack_layout m esp args →
  (∀ a b, PHYS_BASE - PGSIZE ≤ a < PHYS_BASE → m !! a = Some b → m' !! a = Some b) → stack_layout m' esp args.
Proof.
  intros (Hal & Hlo & Hhi & H0 & H1 & H2 & ptrs & Hs & Hp & Hn) Ha.
  assert (∀ p bs, bytes_at m p bs → PHYS_BASE - PGSIZE ≤ p → p + zlength bs ≤ PHYS_BASE → bytes_at m' p bs) as Hby.
  { intros p bs Hb H3 H4 i b Hi. apply Ha; [|by apply Hb]. apply lookup_lt_Some in Hi. lia. }
  assert (∀ p v, int_at m p v → PHYS_BASE - PGSIZE ≤ p → p + 4 ≤ PHYS_BASE → int_at m' p v) as Hi by (intros p v H H3 H4; by apply Hby).
  pose proof (Forall2_length _ _ _ Hs) as Hl.
  repeat split; try done; [apply Hi; (done || lia)..|]. exists ptrs. split; [|split; [|apply Hi; (done || lia)]].
  - eapply Forall2_impl; [exact Hs|]. simpl. intros a w ([Hb Hc Hpos] & H3 & H4). split; [|done]. split; [|done|done]. apply Hby; [done|lia|rewrite length_app; simpl; lia].
  - intros i a Hia. apply Hi; [by apply Hp|lia|]. apply lookup_lt_Some in Hia. lia.
Qed.

Lemma parse_push_ok m page delimiters cmdline text : stack_ready m page delimiters cmdline text →
  ∃ fn esp m', parse_push (Some page) delimiters cmdline PHYS_BASE m = Ret ((fn, esp), m') ∧ stack_layout m' esp (arguments text) ∧
    ∀ a, ¬ (page ≤ a < page + PGSIZE) → ¬ (PHYS_BASE - PGSIZE ≤ a < PHYS_BASE) → m' !! a = m !! a.
Proof.
  intros Hr. set (ws := arguments text). destruct (strings_ok m page delimiters cmdline text Hr) as (m1 & fn & E1 & Hb & Hz & Hout).
  pose proof (pointers_ok m page delimiters cmdline text Hr m1 Hb Hz) as E2. cbv zeta in E2. fold ws in Hb, Hz, E2.
  pose proof (arguments_small m page delimiters cmdline text Hr) as [Hs1 Hs2]. fold ws in Hs1, Hs2. set (top := PHYS_BASE - zlength (flat ws)) in *.
  pose proof (Z.mod_pos_bound top 4 ltac:(lia)) as Hmod. set (e := top - top mod 4 - 4) in *. set (argv := e - 4 * zlength ws) in *.
  set (ptrs := reverse (starts top (reverse ws))) in *. set (m' := write m1 (argv - 8) (vector (zlength ws :: argv :: ptrs))) in *.
  assert (length ptrs = length ws) as Hpl by (unfold ptrs; by rewrite length_reverse, starts_length, length_reverse).
  assert (zlength (vector (zlength ws :: argv :: ptrs)) = 8 + 4 * zlength ws) as Hvl by (rewrite vector_length; simpl length; lia).
  assert (∀ a, e ≤ a ∨ a < argv - 8 → m' !! a = m1 !! a) as Hm' by (intros a Ha; apply write_other; unfold argv in *; lia).
  assert (bytes_at m' (argv - 8) (vector (zlength ws :: argv :: ptrs))) as Hv by apply write_at.
  assert (∀ p, PHYS_BASE - PGSIZE ≤ p → p + 4 ≤ argv - 8 ∨ e ≤ p → p + 4 ≤ top → int_at m' p 0) as Hnull.
  { intros p H1 H2 H3 [|[|[|[|k]]]] b [= <-]; rewrite Hm' by lia; apply Hz; lia. }
  exists fn, (argv - 12), m'. split.
  { unfold parse_push. rewrite (cstep _ _ _ page m) by done. rewrite E1. cbv zeta. fold ws top e. by rewrite E2. }
  assert (top = PHYS_BASE - zlength (flat ws)) as Et by done. assert (e = top - top mod 4 - 4) as Ee by done. assert (argv = e - 4 * zlength ws) as Ea by done.
  assert (reverse (starts top (reverse ws)) = ptrs) as Ep by done. clearbody m' ptrs argv e top.
  split; [|intros a Ha Ha'; rewrite Hm' by (pages; lia); by apply Hout].
  split. { pose proof (Z.div_mod top 4 ltac:(lia)). replace (argv - 12) with (4 * (top / 4 - 4 - zlength ws)) by lia. by rewrite Z.mul_comm, Z.mod_mul. }
  split; [pages; lia|]. split; [pages; lia|]. split; [apply Hnull; pages; lia|].
  split; [replace (argv - 12 + 4) with (argv - 8 + 4 * Z.of_nat 0) by lia; by eapply vector_at|].
  split; [replace (argv - 12 + 8) with (argv - 8 + 4 * Z.of_nat 1) by lia; replace (argv - 12 + 12) with argv by lia; by eapply vector_at|].
  exists ptrs. split; [|split].
  - rewrite <- Ep. rewrite <- (reverse_involutive ws) at 2. apply Forall2_reverse.
    eapply Forall2_impl; [apply (starts_strings m')|]; [apply Forall_reverse, (arguments_wordy m page delimiters cmdline text Hr)|pages; lia| |].
    + apply (bytes_at_agree m1); [done|]. intros a Ha. apply Hm'. lia.
    + simpl. intros a w (? & ? & Hhi). rewrite flat_reverse in Hhi. split; [done|]. lia.
  - intros i a Hi. replace (argv - 12 + 12 + 4 * Z.of_nat i) with (argv - 8 + 4 * Z.of_nat (S (S i))) by lia. by eapply vector_at.
  - replace (argv - 12 + 12 + 4 * zlength ws) with e by lia. apply Hnull; pages; lia.
Qed.

(** ** Theorem *)

(** The stack of a new process: for every command line, parse_push returns
    a word-aligned stack pointer in the stack page; above the return address,
    which is zero, are argc, the number of words of the command line, and argv,
    the address of a vector of the addresses of the words, in order, each a
    string in the stack page, followed by a null pointer.  Nothing but the
    stack page and the page of the copy is written. *)
Theorem parse_push_layout m page delimiters cmdline text : stack_ready m page delimiters cmdline text →
  ∃ fn esp m', parse_push (Some page) delimiters cmdline PHYS_BASE m = Ret ((fn, esp), m') ∧ stack_layout m' esp (arguments text) ∧
    ∀ a, ¬ (page ≤ a < page + PGSIZE) → ¬ (PHYS_BASE - PGSIZE ≤ a < PHYS_BASE) → m' !! a = m !! a.
Proof. apply parse_push_ok. Qed.

(** A command line of two words. *)
Definition demo_line : list Z := [108; 115; 32; 45; 108].
Definition demo_space : memory :=
  write (write (write ∅ 0xc0001000 [32; 0]) 0xc0002000 (demo_line ++ [0])) (PHYS_BASE - PGSIZE) (replicate 4096 0).

Lemma demo_stack_ready : stack_ready demo_space 0xc0003000 0xc0001000 0xc0002000 demo_line.
Proof.
  assert (∀ a, PHYS_BASE ≤ a → demo_space !! a = write (write ∅ 0xc0001000 [32; 0]) 0xc0002000 (demo_line ++ [0]) !! a) as Hk.
  { intros a Ha. apply write_other. rewrite length_replicate. pages. lia. }
  split.
  - apply (string_at_agree (write (write ∅ 0xc0001000 [32; 0]) 0xc0002000 (demo_line ++ [0]))).
    + apply string_written; [lia|]. intros x Hx. repeat (apply elem_of_cons in Hx as [->|Hx]; [lia|]). by apply elem_of_nil in Hx.
    + intros a Ha. apply Hk. pages. lia.
  - apply (string_at_agree (write ∅ 0xc0001000 ([32] ++ [0]))).
    + apply string_written; [lia|]. intros x ->%list_elem_of_singleton. lia.
    + intros a Ha. simpl in Ha. rewrite Hk by (pages; lia). apply write_other. simpl. lia.
  - pages. lia.
  - simpl. pages. lia.
  - pages. lia.
  - intros a Ha. unfold demo_space. rewrite write_lookup, length_replicate, decide_True by (pages; lia). apply lookup_replicate. pages. split; [done|lia].
Qed.

Lemma parse_push_layout_witness : ∃ fn esp m', parse_push (Some 0xc0003000) 0xc0001000 0xc0002000 PHYS_BASE demo_space = Ret ((fn, esp), m') ∧
  stack_layout m' esp [[108; 115]; [45; 108]].
Proof.
  destruct (parse_push_layout demo_space 0xc0003000 0xc0001000 0xc0002000 demo_line) as (fn & esp & m' & H & Hl & _); [apply demo_stack_ready|].
  exists fn, esp, m'. split; [exact H|exact Hl].
Defined.
