(* ===== verification/Pagedir.v ===== *)
(** * Page directories (userprog/pagedir.c)

    The directory and the page tables are pages of memory of 1024 words each;
    the machine also has the CR3 register, whose rewriting flushes the TLB and
    is counted.  The pages that [palloc_get_page] returns are arguments, and
    [pagedir_destroy] yields the sequence of releases it performs, since
    palloc.c and frame.c are modelled elsewhere.

    The theorems show that a well-formed directory is a map from user pages to
    entries, and that each operation changes the entry of its page and no
    other. *)

From S2P Require Import Prelude Vaddr.

Notation memory := (gmap Z (list Z)).

Record machine := Machine { pages : memory; cr3 : Z; reloads : Z }.

Definition with_pages (s : machine) (m : memory) : machine := Machine m (cr3 s) (reloads s).

(** Word number [i] of the page at [p]. *)
Definition slot (m : memory) (p i : Z) : option Z := ws ← m !! p; zget ws i.
Definition upd (m : memory) (p i v : Z) : memory := alter (λ ws, <[Z.to_nat i := v]> ws) p m.

Definition load32 (a : Z) : cmd machine Z := λ s,
  match slot (pages s) (pg_round_down a) (pg_ofs a / 4) with
  | Some w => Ret (w, s) | None => Fail Fault
  end.
Definition store32 (a v : Z) : cmd machine unit := λ s,
  match slot (pages s) (pg_round_down a) (pg_ofs a / 4) with
  | Some _ => Ret ((), with_pages s (upd (pages s) (pg_round_down a) (pg_ofs a / 4) v))
  | None => Fail Fault
  end.
(** The effect of PAL_ZERO on the page palloc hands out. *)
Definition zero_page (p : Z) : cmd machine unit :=
  modify (λ s, with_pages s (<[p := replicate 1024 0]> (pages s))).

(** [pagedir_destroy] returns pages to palloc.c and entries to frame.c. *)
Inductive release := PallocFree (page : Z) | FreeFrame (vaddr : Z).

Section Pagedir.
Context (init_page_dir init_ram_pages : Z).

Definition pagedir_create (page : option Z) : cmd machine (option Z) :=
  match page with
  | None => mret None
  | Some pd =>
      let* s := get in
      let* ws := lift (access (pages s !! init_page_dir)) in
      let* _ := put (with_pages s (<[pd := ws]> (pages s))) in
      mret (Some pd)
  end.

Definition lookup_page (pd vaddr : Z) (create : bool) (new_pt : option Z) : cmd machine (option Z) :=
  let* _ := assert (negb (pd =? 0)) in
  let* _ := assert (negb create || is_user_vaddr vaddr) in
  let pde := pd + 4 * pd_no vaddr in
  let entry : cmd machine (option Z) :=
    let* w := load32 pde in
    let* pt := lift (pde_get_pt w) in
    mret (Some (pt + 4 * pt_no vaddr)) in
  let* w := load32 pde in
  if w =? 0 then
    if create then
      match new_pt with
      | None => mret None
      | Some pt =>
          let* _ := zero_page pt in
          let* e := lift (pde_create pt) in
          let* _ := store32 pde e in
          entry
      end
    else mret None
  else entry.

Definition pagedir_set_page (pd upage kpage : Z) (writable : bool) (new_pt : option Z)
    : cmd machine bool :=
  let* _ := assert (pg_ofs upage =? 0) in
  let* _ := assert (pg_ofs kpage =? 0) in
  let* _ := assert (is_user_vaddr upage) in
  let* p := lift (vtop kpage) in
  let* _ := assert (Z.shiftr p PTSHIFT <? init_ram_pages) in
  let* _ := assert (negb (pd =? init_page_dir)) in
  let* pte := lookup_page pd upage true new_pt in
  match pte with
  | Some pte =>
      let* w := load32 pte in
      let* _ := assert (Z.land w PTE_P =? 0) in
      let* e := lift (pte_create_user kpage writable) in
      let* _ := store32 pte e in
      mret true
  | None => mret false
  end.

Definition pagedir_get_page (pd uaddr : Z) : cmd machine (option Z) :=
  let* _ := assert (is_user_vaddr uaddr) in
  let* pte := lookup_page pd uaddr false None in
  match pte with
  | Some pte =>
      let* w := load32 pte in
      if has w PTE_P then
        let* p := lift (pte_get_page w) in mret (Some (p + pg_ofs uaddr))
      else mret None
  | None => mret None
  end.

Definition pagedir_activate (pd : Z) : cmd machine unit :=
  let pd := if pd =? 0 then init_page_dir else pd in
  let* p := lift (vtop pd) in
  modify (λ s, Machine (pages s) p (reloads s + 1)).

Definition active_pd : cmd machine Z :=
  let* s := get in lift (ptov (cr3 s)).

Definition invalidate_pagedir (pd : Z) : cmd machine unit :=
  let* a := active_pd in
  if a =? pd then pagedir_activate pd else mret ().

Definition pagedir_clear_page (pd upage : Z) : cmd machine unit :=
  let* _ := assert (pg_ofs upage =? 0) in
  let* _ := assert (is_user_vaddr upage) in
  let* pte := lookup_page pd upage false None in
  match pte with
  | Some pte =>
      let* w := load32 pte in
      if has w PTE_P then
        let* _ := store32 pte (clear_flag w PTE_P) in
        invalidate_pagedir pd
      else mret ()
  | None => mret ()
  end.

Definition test_flag (pd vpage flag : Z) : cmd machine bool :=
  let* pte := lookup_page pd vpage false None in
  match pte with
  | Some pte => let* w := load32 pte in mret (has w flag)
  | None => mret false
  end.
Definition write_flag (pd vpage flag : Z) (value : bool) : cmd machine unit :=
  let* pte := lookup_page pd vpage false None in
  match pte with
  | Some pte =>
      let* w := load32 pte in
      if value then store32 pte (set_flag w flag)
      else
        let* _ := store32 pte (clear_flag w flag) in
        invalidate_pagedir pd
  | None => mret ()
  end.

Definition pagedir_is_dirty (pd vpage : Z) : cmd machine bool := test_flag pd vpage PTE_D.
Definition pagedir_set_dirty (pd vpage : Z) (dirty : bool) : cmd machine unit :=
  write_flag pd vpage PTE_D dirty.
Definition pagedir_is_accessed (pd vpage : Z) : cmd machine bool := test_flag pd vpage PTE_A.
Definition pagedir_set_accessed (pd vpage : Z) (accessed : bool) : cmd machine unit :=
  write_flag pd vpage PTE_A accessed.

(** The two loops of [pagedir_destroy]. *)
Definition destroy_table (m : memory) (pt : Z) (acc : list release) : outcome (list release) :=
  for_range 1024 0 (λ i acc,
    let* w := access (slot m pt i) in
    if has w PTE_P then
      let* page := pte_get_page w in
      Ret (acc ++ [PallocFree page; FreeFrame page])
    else Ret acc) acc.

Definition pagedir_destroy (pd : Z) (m : memory) : outcome (list release) :=
  if pd =? 0 then Ret [] else
  let* _ := ASSERT (negb (pd =? init_page_dir)) in
  let* acc := for_range (Z.to_nat (pd_no PHYS_BASE)) 0 (λ i acc,
    let* pde := access (slot m pd i) in
    if has pde PTE_P then
      let* pt := pde_get_pt pde in
      let* acc := destroy_table m pt acc in
      Ret (acc ++ [PallocFree pt])
    else Ret acc) [] in
  Ret (acc ++ [PallocFree pd]).
End Pagedir.

(** ** Well-formed directories *)

Definition is_table (m : memory) (p : Z) : Prop :=
  kernel_page p ∧ ∃ ws, m !! p = Some ws ∧ length ws = 1024%nat ∧ Forall (λ w, 0 ≤ w < 2^32) ws.

(** The page table that directory entry [i] points to. *)
Definition table (m : memory) (pd i : Z) : option Z :=
  w ← slot m pd i;
  if w =? 0 then None else match pde_get_pt w with Ret pt => Some pt | Fail _ => None end.

Record pd_wf (m : memory) (pd : Z) : Prop := {
  wf_dir : is_table m pd;
  wf_pt i w : 0 ≤ i < 768 → slot m pd i = Some w → w ≠ 0 →
    ∃ pt, pde_get_pt w = Ret pt ∧ is_table m pt ∧ pt ≠ pd;
  wf_inj i j pt : 0 ≤ i < 768 → 0 ≤ j < 768 →
    table m pd i = Some pt → table m pd j = Some pt → i = j
}.

(** The entry of a user address, 0 when there is no table for it. *)
Definition pte_of (m : memory) (pd v : Z) : Z :=
  match table m pd (pd_no v) with
  | Some pt => default 0 (slot m pt (pt_no v))
  | None => 0
  end.

(** A page palloc may hand out while [pd] is in use. *)
Definition fresh_page (m : memory) (pd p : Z) : Prop :=
  kernel_page p ∧ p ≠ pd ∧ ∀ i, 0 ≤ i < 768 → table m pd i ≠ Some p.

(** ** Words of pages *)

Lemma slot_address p i : kernel_page p → 0 ≤ i < 1024 →
  pg_round_down (p + 4 * i) = p ∧ pg_ofs (p + 4 * i) / 4 = i.
Proof.
  intros [Hp Ha] Hi. unfold PHYS_BASE in Hp.
  assert (p = p / 4096 * 4096) as Hq by div_lia. set (q := p / 4096) in *. clearbody q. subst p.
  assert (q * 4096 + 4 * i < 2^32) by div_lia.
  rewrite pg_round_down_eq by lia. rewrite pg_ofs_mod. split; div_lia.
Qed.

Lemma load32_ok s p i w : kernel_page p → 0 ≤ i < 1024 → slot (pages s) p i = Some w →
  load32 (p + 4 * i) s = Ret (w, s).
Proof.
  intros Hp Hi Hw. unfold load32. destruct (slot_address p i Hp Hi) as [-> ->]. by rewrite Hw.
Qed.

Lemma store32_ok s p i v : kernel_page p → 0 ≤ i < 1024 → is_Some (slot (pages s) p i) →
  store32 (p + 4 * i) v s = Ret ((), with_pages s (upd (pages s) p i v)).
Proof.
  intros Hp Hi [w Hw]. unfold store32. destruct (slot_address p i Hp Hi) as [-> ->]. by rewrite Hw.
Qed.

Lemma table_slot m p i : is_table m p → 0 ≤ i < 1024 →
  ∃ w, slot m p i = Some w ∧ 0 ≤ w < 2^32.
Proof.
  intros (_ & ws & Hm & Hlen & Hw) Hi. unfold slot. rewrite Hm. simpl.
  destruct (zget_is_Some ws i) as [w Hg]; [lia|]. exists w. split; [done|].
  apply zget_Some in Hg as [_ Hg]. exact (Forall_lookup_1 _ _ _ _ Hw Hg).
Qed.

Lemma slot_upd m p i v q j : 0 ≤ i → 0 ≤ j → is_Some (slot m p i) →
  slot (upd m p i v) q j = if decide (p = q ∧ i = j) then Some v else slot m q j.
Proof.
  intros Hi Hj [w Hw]. unfold slot, upd in *. destruct (decide (p = q)) as [<-|Hne].
  2: { rewrite lookup_alter_ne by done. by rewrite decide_False by naive_solver. }
  rewrite lookup_alter_eq. destruct (m !! p) as [ws|]; simpl in *; [|done].
  pose proof (zget_lt _ _ _ Hw) as Hlt.
  rewrite (zget_zset ws (<[Z.to_nat i := v]> ws) i j v) by (by apply zset_Some).
  destruct (decide (i = j)) as [->|]; [by rewrite decide_True|by rewrite decide_False by naive_solver].
Qed.

Lemma is_table_upd m p i v q : 0 ≤ v < 2^32 → is_table m q → is_table (upd m p i v) q.
Proof.
  intros Hv (Hk & ws & Hm & Hlen & Hw). split; [done|]. unfold upd.
  destruct (decide (p = q)) as [->|].
  - rewrite lookup_alter_eq, Hm. eexists. split; [done|]. rewrite length_insert.
    split; [done|]. by apply Forall_insert.
  - rewrite lookup_alter_ne by done. by exists ws.
Qed.

Lemma table_Some m pd i pt : pd_wf m pd → 0 ≤ i < 768 → table m pd i = Some pt →
  ∃ w, slot m pd i = Some w ∧ w ≠ 0 ∧ pde_get_pt w = Ret pt ∧ is_table m pt ∧ pt ≠ pd.
Proof.
  intros Hwf Hi Ht. unfold table in Ht. destruct (slot m pd i) as [w|] eqn:Hw; [|done]. simpl in Ht.
  destruct (Z.eqb_spec w 0); [done|]. destruct (wf_pt _ _ Hwf i w) as (pt' & Hg & ? & ?); [done..|].
  rewrite Hg in Ht. injection Ht as ->. by exists w.
Qed.

Lemma table_None m pd i : pd_wf m pd → 0 ≤ i < 768 → table m pd i = None → slot m pd i = Some 0.
Proof.
  intros Hwf Hi Ht. destruct (table_slot m pd i (wf_dir _ _ Hwf)) as (w & Hw & _); [lia|].
  unfold table in Ht. rewrite Hw in Ht. simpl in Ht. destruct (Z.eqb_spec w 0) as [E|]; [by rewrite Hw, E|].
  destruct (wf_pt _ _ Hwf i w) as (pt' & Hg & ? & ?); [done..|]. by rewrite Hg in Ht.
Qed.

(** ** Updating one entry *)

Lemma table_upd_pte m pd k pt j v i : pd_wf m pd → 0 ≤ k < 768 → table m pd k = Some pt →
  0 ≤ j < 1024 → 0 ≤ i → table (upd m pt j v) pd i = table m pd i.
Proof.
  intros Hwf Hk Ht Hj Hi. destruct (table_Some _ _ _ _ Hwf Hk Ht) as (w & _ & _ & _ & Htab & Hne).
  destruct (table_slot _ _ j Htab Hj) as (u & Hu & _).
  unfold table. rewrite slot_upd by (done || lia || by eexists).
  rewrite decide_False by naive_solver. done.
Qed.

Lemma upd_pte_wf m pd k pt j v : pd_wf m pd → 0 ≤ k < 768 → table m pd k = Some pt →
  0 ≤ j < 1024 → 0 ≤ v < 2^32 → pd_wf (upd m pt j v) pd.
Proof.
  intros Hwf Hk Ht Hj Hv. destruct (table_Some _ _ _ _ Hwf Hk Ht) as (w & _ & _ & _ & Htab & Hne).
  destruct (table_slot _ _ j Htab Hj) as (u & Hu & _). split.
  - apply is_table_upd, Hwf. done.
  - intros i x Hi. rewrite slot_upd by (done || lia || by eexists).
    rewrite decide_False by naive_solver. intros Hx Hx0.
    destruct (wf_pt _ _ Hwf i x) as (pt' & ? & ? & ?); [done..|]. exists pt'.
    split; [done|]. split; [by apply is_table_upd|done].
  - intros i i' pt' Hi Hi'. rewrite !(table_upd_pte m pd k) by (done || lia).
    by apply (wf_inj _ _ Hwf).
Qed.

Lemma upd_pte_of m pd k pt j v a : pd_wf m pd → 0 ≤ k < 768 → table m pd k = Some pt →
  0 ≤ j < 1024 → 0 ≤ a < PHYS_BASE →
  pte_of (upd m pt j v) pd a =
    if decide (pd_no a = k ∧ pt_no a = j) then v else pte_of m pd a.
Proof.
  intros Hwf Hk Ht Hj Ha. pose proof (pd_no_range a Ha) as Hda. pose proof (pt_no_range a) as Hta.
  destruct (table_Some _ _ _ _ Hwf Hk Ht) as (w & _ & _ & _ & Htab & Hne).
  destruct (table_slot _ _ j Htab Hj) as (u & Hu & _).
  unfold pte_of. rewrite (table_upd_pte m pd k) by (done || lia).
  destruct (table m pd (pd_no a)) as [pt'|] eqn:Ht'.
  - rewrite slot_upd by (done || lia || by eexists).
    destruct (decide (pd_no a = k ∧ pt_no a = j)) as [[Hk' Hj']|Hn].
    + rewrite Hk' in Ht'. rewrite decide_True; [done|]. split; congruence.
    + rewrite decide_False; [done|]. intros [-> ->]. apply Hn. split; [|done].
      by apply (wf_inj _ _ Hwf _ _ pt').
  - rewrite decide_False; [done|]. intros [? _]. congruence.
Qed.

(** ** Finding the entry of an address *)

Section Lookup.
Context (s : machine) (pd v : Z) (Hwf : pd_wf (pages s) pd) (Hv : 0 ≤ v < PHYS_BASE).
Let m := pages s.

Lemma lookup_asserts create : (negb (pd =? 0) = true) ∧ (negb create || is_user_vaddr v = true).
Proof.
  destruct (wf_dir _ _ Hwf) as [[Hp _] _]. unfold is_user_vaddr, PHYS_BASE in *. split.
  - apply negb_true_iff, Z.eqb_neq. lia.
  - destruct create; [|done]. simpl. apply Z.ltb_lt. lia.
Qed.

Lemma load_pde w : slot m pd (pd_no v) = Some w → load32 (pd + 4 * pd_no v) s = Ret (w, s).
Proof. pose proof (pd_no_range v Hv). apply load32_ok; [apply Hwf|lia]. Qed.

Lemma lookup_found create np pt : table m pd (pd_no v) = Some pt →
  lookup_page pd v create np s = Ret (Some (pt + 4 * pt_no v), s).
Proof.
  intros Ht. destruct (table_Some _ _ _ _ Hwf (pd_no_range v Hv) Ht) as (w & Hw & Hw0 & Hg & _).
  destruct (lookup_asserts create) as [H1 H2]. unfold lookup_page.
  cmd_step (assert_ok _ s H1). cmd_step (assert_ok _ s H2). cmd_step (load_pde w Hw).
  apply Z.eqb_neq in Hw0. rewrite Hw0. cmd_step (load_pde w Hw). by rewrite Hg.
Qed.

Lemma lookup_missing create np : table m pd (pd_no v) = None → create = false ∨ np = None →
  lookup_page pd v create np s = Ret (None, s).
Proof.
  intros Ht Hc. apply (table_None _ _ _ Hwf (pd_no_range v Hv)) in Ht.
  destruct (lookup_asserts create) as [H1 H2]. unfold lookup_page.
  cmd_step (assert_ok _ s H1). cmd_step (assert_ok _ s H2). cmd_step (load_pde 0 Ht).
  by destruct create, np, Hc.
Qed.
End Lookup.

(** The directory after the creation of a table for entry [k]. *)
Definition add_table (m : memory) (pd k pt pde : Z) : memory :=
  upd (<[pt := replicate 1024 0]> m) pd k pde.

Section AddTable.
Context (m : memory) (pd k pt pde : Z).
Context (Hwf : pd_wf m pd) (Hk : 0 ≤ k < 768) (Hno : table m pd k = None).
Context (Hfresh : fresh_page m pd pt) (Hpde : pde ≠ 0) (Hr : 0 ≤ pde < 2^32) (Hg : pde_get_pt pde = Ret pt).
Notation m' := (add_table m pd k pt pde).

Lemma add_table_is_table q : is_table m q → is_table m' q.
Proof.
  intros Hq. apply is_table_upd; [done|]. destruct Hq as (Hkq & ws & Hm & Hlen & Hw). split; [done|].
  destruct (decide (q = pt)) as [->|].
  - rewrite lookup_insert_eq. eexists. split; [done|]. split; [done|].
    by apply Forall_replicate.
  - rewrite lookup_insert_ne by done. by exists ws.
Qed.

Lemma add_table_new : is_table m' pt.
Proof.
  apply is_table_upd; [done|]. split; [apply Hfresh|]. rewrite lookup_insert_eq.
  eexists. split; [done|]. split; [done|]. by apply Forall_replicate.
Qed.

Lemma add_table_slot q j : q ≠ pt → 0 ≤ j →
  slot m' q j = if decide (q = pd ∧ j = k) then Some pde else slot m q j.
Proof.
  intros Hq Hj. destruct Hfresh as (_ & Hne & _).
  assert (∀ i, slot (<[pt := replicate 1024 0]> m) q i = slot m q i) as Hs.
  { intros i. unfold slot. by rewrite lookup_insert_ne. }
  unfold add_table. rewrite slot_upd; [|lia|done|].
  - rewrite Hs. by repeat case_decide; naive_solver.
  - unfold slot. rewrite lookup_insert_ne by done.
    pose proof (table_None _ _ _ Hwf Hk Hno) as H0. unfold slot in H0. by rewrite H0.
Qed.

Lemma add_table_table i : 0 ≤ i → table m' pd i = if decide (i = k) then Some pt else table m pd i.
Proof.
  intros Hi. destruct Hfresh as (_ & Hne & _). unfold table. rewrite add_table_slot by done.
  destruct (decide (i = k)) as [->|]; [|by rewrite decide_False by naive_solver].
  rewrite decide_True by done. simpl. apply Z.eqb_neq in Hpde. by rewrite Hpde, Hg.
Qed.

Lemma add_table_wf : pd_wf m' pd.
Proof.
  destruct Hfresh as (Hkp & Hne & Hnt). split.
  - apply add_table_is_table, Hwf.
  - intros i w Hi. rewrite add_table_slot by (done || lia). case_decide as Hd.
    + intros [= <-] _. exists pt. split; [done|]. split; [apply add_table_new|done].
    + intros Hw Hw0. destruct (wf_pt _ _ Hwf i w) as (pt' & ? & ? & ?); [done..|].
      exists pt'. split; [done|]. split; [by apply add_table_is_table|done].
  - intros i j p Hi Hj. rewrite !add_table_table by lia. intros H1 H2.
    destruct (decide (i = k)), (decide (j = k)); subst; simplify_eq/=; try done.
    + by destruct (Hnt j Hj).
    + by destruct (Hnt i Hi).
    + by apply (wf_inj _ _ Hwf _ _ p).
Qed.

Lemma add_table_pte a : 0 ≤ a < PHYS_BASE → pte_of m' pd a = pte_of m pd a.
Proof.
  intros Ha. pose proof (pd_no_range a Ha) as Hda. pose proof (pt_no_range a) as Hta.
  destruct Hfresh as (Hkp & Hne & Hnt). unfold pte_of. rewrite add_table_table by lia.
  destruct (decide (pd_no a = k)) as [->|].
  - rewrite Hno. unfold slot, add_table, upd. rewrite lookup_alter_ne by done.
    rewrite lookup_insert_eq. cbn [mbind option_bind]. unfold zget. destruct (Z.leb_spec 0 (pt_no a)); [|lia].
    by rewrite lookup_replicate_2 by lia.
  - destruct (table m pd (pd_no a)) as [p|] eqn:Hp; [|done].
    rewrite add_table_slot; [|by intros ->; apply (Hnt _ Hda)|lia].
    rewrite decide_False; [done|]. intros [-> _].
    by destruct (table_Some _ _ _ _ Hwf Hda Hp) as (? & _ & _ & _ & _ & []).
Qed.
End AddTable.

Lemma lookup_create s pd v pt : pd_wf (pages s) pd → 0 ≤ v < PHYS_BASE →
  table (pages s) pd (pd_no v) = None → fresh_page (pages s) pd pt →
  ∃ m', lookup_page pd v true (Some pt) s = Ret (Some (pt + 4 * pt_no v), with_pages s m') ∧
    pd_wf m' pd ∧ table m' pd (pd_no v) = Some pt ∧
    ∀ a, 0 ≤ a < PHYS_BASE → pte_of m' pd a = pte_of (pages s) pd a.
Proof.
  intros Hwf Hv Hno Hf. pose proof (pd_no_range v Hv) as Hk.
  destruct (pde_create_ok pt) as (pde & Hc & Hp0 & Hpr & Hg); [apply Hf|].
  exists (add_table (pages s) pd (pd_no v) pt pde).
  pose proof (table_None _ _ _ Hwf Hk Hno) as H0. destruct Hf as (Hkp & Hne & Hnt).
  split; [|split; [by apply add_table_wf|split; [|intros; by apply add_table_pte]]].
  2: { rewrite add_table_table; try done; [by rewrite decide_True|lia]. }
  destruct (lookup_asserts s pd v Hwf Hv true) as [H1 H2]. unfold lookup_page.
  cmd_step (assert_ok _ s H1). cmd_step (assert_ok _ s H2). cmd_step (load_pde s pd v Hwf Hv 0 H0).
  change (0 =? 0) with true. cbv iota.
  set (s1 := with_pages s (<[pt := replicate 1024 0]> (pages s))).
  cmd_step (eq_refl : zero_page pt s = Ret ((), s1)). rewrite Hc. cmd_step (eq_refl : lift (Ret pde) s1 = Ret (pde, s1)).
  assert (slot (pages s1) pd (pd_no v) = Some 0) as H0'.
  { simpl. unfold slot. rewrite lookup_insert_ne by done. exact H0. }
  erewrite cstep; [|apply store32_ok; [apply Hwf|lia|by eexists]]. cbv beta.
  erewrite cstep.
  2: { apply load32_ok; [apply Hwf|lia|]. simpl. rewrite slot_upd by (lia || by eexists).
       by rewrite decide_True. }
  by rewrite Hg.
Qed.

(** ** The operations on an existing entry *)

Lemma same_page a b : (pd_no a = pd_no b ∧ pt_no a = pt_no b) ↔ pg_no a = pg_no b.
Proof.
  split; [intros []; by apply indices_inj|]. rewrite !pd_no_div, !pt_no_mod, !pg_no_div. intros E.
  change (2^22) with (4096 * 1024). rewrite <-!Z.div_div by done. by rewrite E.
Qed.

Section Entry.
Context (s : machine) (pd v pt : Z) (Hwf : pd_wf (pages s) pd) (Hv : 0 ≤ v < PHYS_BASE).
Context (Ht : table (pages s) pd (pd_no v) = Some pt).

Lemma entry_slot : slot (pages s) pt (pt_no v) = Some (pte_of (pages s) pd v) ∧
  0 ≤ pte_of (pages s) pd v < 2^32 ∧ kernel_page pt.
Proof.
  destruct (table_Some _ _ _ _ Hwf (pd_no_range v Hv) Ht) as (_ & _ & _ & _ & Htab & _).
  destruct (table_slot _ _ _ Htab (pt_no_range v)) as (w & Hw & Hr).
  unfold pte_of. rewrite Ht, Hw. split; [done|]. split; [done|apply Htab].
Qed.

Lemma load_entry : load32 (pt + 4 * pt_no v) s = Ret (pte_of (pages s) pd v, s).
Proof. destruct entry_slot as (? & _ & ?). apply load32_ok; [done|apply pt_no_range|done]. Qed.

Lemma store_entry w : 0 ≤ w < 2^32 →
  ∃ m', store32 (pt + 4 * pt_no v) w s = Ret ((), with_pages s m') ∧ pd_wf m' pd ∧
    ∀ a, 0 ≤ a < PHYS_BASE →
      pte_of m' pd a = if decide (pg_no a = pg_no v) then w else pte_of (pages s) pd a.
Proof.
  intros Hw. destruct entry_slot as (Hs & _ & Hk). pose proof (pt_no_range v) as Hj.
  exists (upd (pages s) pt (pt_no v) w). split; [|split].
  - apply store32_ok; [done..|by eexists].
  - by apply (upd_pte_wf _ _ (pd_no v)); [| apply pd_no_range | | |].
  - intros a Ha. rewrite (upd_pte_of _ _ (pd_no v)) by (done || by apply pd_no_range).
    pose proof (same_page a v). by repeat case_decide; naive_solver.
Qed.
End Entry.

Lemma pte_of_range m pd v : pd_wf m pd → 0 ≤ v < PHYS_BASE → 0 ≤ pte_of m pd v < 2^32.
Proof.
  intros Hwf Hv. destruct (table m pd (pd_no v)) as [pt|] eqn:Ht.
  - by apply (entry_slot (Machine m 0 0) pd v pt).
  - unfold pte_of. by rewrite Ht.
Qed.

(** Rewriting CR3 when the changed directory is the active one. *)
Definition flushed (s : machine) (active pd : Z) : Z :=
  if decide (active = pd) then reloads s + 1 else reloads s.

Lemma invalidate_ok init s pd active m' : kernel_page active → cr3 s = active - PHYS_BASE →
  pd ≠ 0 → invalidate_pagedir init pd (with_pages s m') =
    Ret ((), Machine m' (cr3 s) (flushed s active pd)).
Proof.
  intros Hk Hc Hpd. unfold invalidate_pagedir, active_pd.
  assert (ptov (cr3 s) = Ret active) as Hp.
  { destruct Hk as [Hk _]. unfold ptov, PHYS_BASE in *. rewrite Hc.
    destruct (Z.ltb_spec (active - 0xc0000000) 0xc0000000); [|lia]. simpl. rewrite u32_id by lia.
    f_equal. lia. }
  assert ((let* t := get in lift (ptov (cr3 t))) (with_pages s m') = Ret (active, with_pages s m')) as Ha.
  { unfold mbind, cmd_bind, get. simpl. by rewrite Hp. }
  cmd_step Ha. unfold flushed. destruct (Z.eqb_spec active pd) as [->|].
  - rewrite decide_True by done. unfold pagedir_activate. apply Z.eqb_neq in Hpd. rewrite Hpd.
    unfold vtop, is_kernel_vaddr. destruct Hk as [Hk _].
    destruct (Z.leb_spec PHYS_BASE pd); [|lia]. unfold mbind, cmd_bind. simpl. by rewrite Hc.
  - rewrite decide_False by done. by destruct s.
Qed.

Section Operations.
Context (init_page_dir init_ram_pages : Z).
Context (s : machine) (pd active : Z) (Hwf : pd_wf (pages s) pd).
Context (Hact : kernel_page active) (Hcr3 : cr3 s = active - PHYS_BASE).

Lemma pd_nonzero : pd ≠ 0.
Proof. destruct (wf_dir _ _ Hwf) as [[Hp _] _]. unfold PHYS_BASE in *. lia. Qed.

Lemma no_table_pte v : table (pages s) pd (pd_no v) = None → pte_of (pages s) pd v = 0.
Proof. intros H. unfold pte_of. by rewrite H. Qed.

Lemma user_ok v : 0 ≤ v < PHYS_BASE → is_user_vaddr v = true.
Proof. intros. unfold is_user_vaddr. apply Z.ltb_lt. lia. Qed.

Lemma pagedir_get_page_ok v : 0 ≤ v < PHYS_BASE →
  (has (pte_of (pages s) pd v) PTE_P = false → pagedir_get_page pd v s = Ret (None, s)) ∧
  ∀ p, has (pte_of (pages s) pd v) PTE_P = true → pte_get_page (pte_of (pages s) pd v) = Ret p →
    pagedir_get_page pd v s = Ret (Some (p + v mod 4096), s).
Proof.
  intros Hv. unfold pagedir_get_page.
  destruct (table (pages s) pd (pd_no v)) as [pt|] eqn:Ht.
  - split.
    + intros Hp. cmd_step (assert_ok _ s (user_ok v Hv)).
      cmd_step (lookup_found s pd v Hwf Hv false None pt Ht).
      cmd_step (load_entry s pd v pt Hwf Hv Ht). by rewrite Hp.
    + intros p Hp Hg. cmd_step (assert_ok _ s (user_ok v Hv)).
      cmd_step (lookup_found s pd v Hwf Hv false None pt Ht).
      cmd_step (load_entry s pd v pt Hwf Hv Ht). rewrite Hp, Hg, pg_ofs_mod. done.
  - rewrite (no_table_pte v Ht). split; [|done]. intros _.
    cmd_step (assert_ok _ s (user_ok v Hv)).
    cmd_step (lookup_missing s pd v Hwf Hv false None Ht (or_introl eq_refl)). done.
Qed.

Lemma test_flag_ok v flag : 0 ≤ v < PHYS_BASE →
  test_flag pd v flag s = Ret (has (pte_of (pages s) pd v) flag, s).
Proof.
  intros Hv. unfold test_flag. destruct (table (pages s) pd (pd_no v)) as [pt|] eqn:Ht.
  - cmd_step (lookup_found s pd v Hwf Hv false None pt Ht).
    by cmd_step (load_entry s pd v pt Hwf Hv Ht).
  - cmd_step (lookup_missing s pd v Hwf Hv false None Ht (or_introl eq_refl)).
    by rewrite (no_table_pte v Ht).
Qed.

(** What a change of the entry of [v] to [w] must give. *)
Definition entry_becomes (m' : memory) (v w : Z) : Prop :=
  pd_wf m' pd ∧ ∀ a, 0 ≤ a < PHYS_BASE →
    pte_of m' pd a = if decide (pg_no a = pg_no v) then w else pte_of (pages s) pd a.

Lemma entry_unchanged v : entry_becomes (pages s) v (pte_of (pages s) pd v).
Proof.
  split; [done|]. intros a Ha. case_decide as E; [|done].
  apply same_page in E as [E1 E2]. unfold pte_of. by rewrite E1, E2.
Qed.

Lemma write_flag_ok v k value : 0 ≤ v < PHYS_BASE → 0 ≤ k < 12 →
  ∃ m' r, write_flag init_page_dir pd v (2^k) value s = Ret ((), Machine m' (cr3 s) r) ∧
    entry_becomes m' v
      (if table (pages s) pd (pd_no v)
       then (if value then set_flag else clear_flag) (pte_of (pages s) pd v) (2^k) else 0).
Proof.
  intros Hv Hk. unfold write_flag. destruct (table (pages s) pd (pd_no v)) as [pt|] eqn:Ht.
  - cmd_step (lookup_found s pd v Hwf Hv false None pt Ht).
    cmd_step (load_entry s pd v pt Hwf Hv Ht).
    destruct (entry_slot s pd v pt Hwf Hv Ht) as (_ & Hr & _). destruct value.
    + destruct (store_entry s pd v pt Hwf Hv Ht (set_flag (pte_of (pages s) pd v) (2^k)))
        as (m' & Hs & He); [apply set_flag_range; lia|]. by exists m', (reloads s).
    + destruct (store_entry s pd v pt Hwf Hv Ht (clear_flag (pte_of (pages s) pd v) (2^k)))
        as (m' & Hs & He); [apply clear_flag_range; lia|]. exists m', (flushed s active pd).
      cmd_step Hs. split; [|done]. apply invalidate_ok; [done..|apply pd_nonzero].
  - cmd_step (lookup_missing s pd v Hwf Hv false None Ht (or_introl eq_refl)).
    exists (pages s), (reloads s). split; [by destruct s|].
    rewrite <-(no_table_pte v Ht). apply entry_unchanged.
Qed.

Lemma pagedir_clear_page_ok v : 0 ≤ v < PHYS_BASE → v mod 4096 = 0 →
  ∃ m' r, pagedir_clear_page init_page_dir pd v s = Ret ((), Machine m' (cr3 s) r) ∧
    entry_becomes m' v (clear_flag (pte_of (pages s) pd v) PTE_P) ∧
    (has (pte_of (pages s) pd v) PTE_P = true → r = flushed s active pd).
Proof.
  intros Hv Ha. unfold pagedir_clear_page. rewrite pg_ofs_mod, Ha.
  cmd_step (assert_ok _ s (eq_refl : (0 =? 0) = true)). cmd_step (assert_ok _ s (user_ok v Hv)).
  destruct (table (pages s) pd (pd_no v)) as [pt|] eqn:Ht.
  - cmd_step (lookup_found s pd v Hwf Hv false None pt Ht).
    cmd_step (load_entry s pd v pt Hwf Hv Ht).
    destruct (entry_slot s pd v pt Hwf Hv Ht) as (_ & Hr & _).
    destruct (has (pte_of (pages s) pd v) PTE_P) eqn:Hp.
    + destruct (store_entry s pd v pt Hwf Hv Ht (clear_flag (pte_of (pages s) pd v) PTE_P))
        as (m' & Hs & He); [apply (clear_flag_range _ 0); lia|].
      exists m', (flushed s active pd). cmd_step Hs. split; [|done].
      apply invalidate_ok; [done..|apply pd_nonzero].
    + exists (pages s), (reloads s). split; [by destruct s|]. split; [|done].
      rewrite clear_absent by (done || lia). apply entry_unchanged.
  - cmd_step (lookup_missing s pd v Hwf Hv false None Ht (or_introl eq_refl)).
    exists (pages s), (reloads s). split; [by destruct s|].
    rewrite (no_table_pte v Ht). split; [|done]. change (clear_flag 0 PTE_P) with 0.
    rewrite <-(no_table_pte v Ht). apply entry_unchanged.
Qed.
End Operations.

(** ** Installing a mapping *)

Section Install.
Context (init_page_dir init_ram_pages : Z) (s : machine) (pd u k : Z) (writable : bool).
Context (Hwf : pd_wf (pages s) pd) (Hinit : pd ≠ init_page_dir).
Context (Hu : 0 ≤ u < PHYS_BASE) (Hua : u mod 4096 = 0).
Context (Hk : kernel_page k) (Hram : (k - PHYS_BASE) / 4096 < init_ram_pages).
Context (Habs : has (pte_of (pages s) pd u) PTE_P = false).
Notation new_pte := (Z.lor (k - PHYS_BASE) (user_flags writable)).
Notation set_page np := (pagedir_set_page init_page_dir init_ram_pages pd u k writable np s).

Lemma set_page_prefix np :
  set_page np = (let* pte := lookup_page pd u true np in
    match pte with
    | Some pte =>
        let* w := load32 pte in
        let* _ := assert (Z.land w PTE_P =? 0) in
        let* e := lift (pte_create_user k writable) in
        let* _ := store32 pte e in
        mret true
    | None => mret false
    end) s.
Proof.
  unfold pagedir_set_page. destruct Hk as [Hk1 Hk2]. rewrite !pg_ofs_mod, Hua, Hk2.
  do 2 cmd_step (assert_ok _ s (eq_refl : (0 =? 0) = true)). cmd_step (assert_ok _ s (user_ok u Hu)).
  assert (vtop k = Ret (k - PHYS_BASE)) as Hp.
  { unfold vtop, is_kernel_vaddr. by destruct (Z.leb_spec PHYS_BASE k); [|lia]. }
  rewrite Hp. cmd_step (eq_refl : lift (Ret (k - PHYS_BASE)) s = Ret (k - PHYS_BASE, s)).
  assert ((Z.shiftr (k - PHYS_BASE) PTSHIFT <? init_ram_pages) = true) as Hr.
  { apply Z.ltb_lt. unfold PTSHIFT, PGBITS. by rewrite Z.shiftr_div_pow2. }
  cmd_step (assert_ok _ s Hr). apply Z.eqb_neq in Hinit. rewrite Hinit.
  by cmd_step (assert_ok (negb false) s eq_refl).
Qed.

(** The rest of the function, once the entry is found. *)
Lemma set_page_suffix t pt : pd_wf (pages t) pd → table (pages t) pd (pd_no u) = Some pt →
  pte_of (pages t) pd u = pte_of (pages s) pd u →
  ∃ m', (let* w := load32 (pt + 4 * pt_no u) in
         let* _ := assert (Z.land w PTE_P =? 0) in
         let* e := lift (pte_create_user k writable) in
         let* _ := store32 (pt + 4 * pt_no u) e in
         mret true) t = Ret (true, with_pages t m') ∧ pd_wf m' pd ∧
    ∀ a, 0 ≤ a < PHYS_BASE →
      pte_of m' pd a = if decide (pg_no a = pg_no u) then new_pte else pte_of (pages t) pd a.
Proof.
  intros Hwt Ht Hsame. destruct (user_pte_ok k writable Hk) as [Hr _].
  destruct (store_entry t pd u pt Hwt Hu Ht new_pte Hr) as (m' & Hs & Hm).
  exists m'. split; [|done]. cmd_step (load_entry t pd u pt Hwt Hu Ht).
  rewrite Hsame. unfold has in Habs. apply negb_false_iff in Habs. rewrite Habs.
  cmd_step (assert_ok true t eq_refl). rewrite pte_create_user_ok by done.
  cmd_step (eq_refl : lift (Ret new_pte) t = Ret (new_pte, t)). by cmd_step Hs.
Qed.

Lemma set_page_ok np : (∀ p, np = Some p → fresh_page (pages s) pd p) →
  (∃ m', set_page np = Ret (true, with_pages s m') ∧ entry_becomes s pd m' u new_pte) ∨
  (np = None ∧ table (pages s) pd (pd_no u) = None ∧ set_page np = Ret (false, s)).
Proof.
  intros Hnp. rewrite set_page_prefix. destruct (table (pages s) pd (pd_no u)) as [pt|] eqn:Ht.
  - left. destruct (set_page_suffix s pt Hwf Ht eq_refl) as (m' & Hs & Hm). exists m'.
    split; [|done]. cmd_step (lookup_found s pd u Hwf Hu true np pt Ht). exact Hs.
  - destruct np as [pt|].
    + left. destruct (lookup_create s pd u pt Hwf Hu Ht (Hnp _ eq_refl)) as (m1 & Hl & Hw1 & Ht1 & Hp1).
      destruct (set_page_suffix (with_pages s m1) pt Hw1 Ht1) as (m' & Hs & Hw' & Hp'); [by apply Hp1|].
      exists m'. split; [by cmd_step Hl; rewrite Hs|]. split; [done|].
      intros a Ha. rewrite Hp' by done. case_decide; [done|]. simpl. by apply Hp1.
    + right. do 2 (split; [done|]).
      by cmd_step (lookup_missing s pd u Hwf Hu true None Ht (or_intror eq_refl)).
Qed.
End Install.

(** ** Destruction *)

(** The frame of a present entry, as [pte_get_page] reads it. *)
Definition maps (m : memory) (pt i p : Z) : Prop :=
  ∃ w, slot m pt i = Some w ∧ has w PTE_P = true ∧ pte_get_page w = Ret p.

(** Every present entry of the user half can be translated. *)
Definition frames_ok (m : memory) (pd : Z) : Prop :=
  (∀ i w, 0 ≤ i < 768 → slot m pd i = Some w → w ≠ 0 → has w PTE_P = true) ∧
  ∀ k pt i w, 0 ≤ k < 768 → table m pd k = Some pt → 0 ≤ i < 1024 →
    slot m pt i = Some w → has w PTE_P = true → ∃ p, pte_get_page w = Ret p ∧ PHYS_BASE ≤ p.

Lemma destroy_table_ok m pd k pt acc : pd_wf m pd → frames_ok m pd → 0 ≤ k < 768 →
  table m pd k = Some pt →
  ∃ r, destroy_table m pt acc = Ret r ∧
    ∀ e, e ∈ r ↔ e ∈ acc ∨ ∃ i p, 0 ≤ i < 1024 ∧ maps m pt i p ∧ (e = PallocFree p ∨ e = FreeFrame p).
Proof.
  intros Hwf [_ Hf] Hk Ht. unfold destroy_table.
  destruct (table_Some _ _ _ _ Hwf Hk Ht) as (_ & _ & _ & _ & Htab & _).
  destruct (for_range_spec (λ j r, ∀ e, e ∈ r ↔ e ∈ acc ∨
    ∃ i p, 0 ≤ i < j ∧ maps m pt i p ∧ (e = PallocFree p ∨ e = FreeFrame p))
    (λ i acc, let* w := access (slot m pt i) in
      if has w PTE_P then let* page := pte_get_page w in Ret (acc ++ [PallocFree page; FreeFrame page])
      else Ret acc) 1024 0 acc) as (r & Hr & HP).
  - intros e. split; [auto|]. intros [?|(i & p & ? & _)]; [done|lia].
  - intros j t Hj HP. destruct (table_slot m pt j Htab) as (w & Hw & _); [lia|].
    rewrite Hw. simpl. destruct (has w PTE_P) eqn:Hp.
    + destruct (Hf k pt j w Hk Ht) as (p & Hg & _); [lia|done..|]. rewrite Hg. simpl.
      eexists. split; [done|]. intros e. rewrite elem_of_app, HP, !elem_of_cons, elem_of_nil. split.
      * intros [[?|(i & q & ? & ?)]|[He|[He|[]]]]; [by left|right; exists i, q; by split; [lia|]|..];
          right; exists j, p; (split; [lia|]); (split; [by exists w|auto]).
      * intros [?|(i & q & Hi & Hm & He)]; [by left; left|].
        destruct (decide (i = j)) as [->|]; [|left; right; exists i, q; by split; [lia|]].
        destruct Hm as (w' & Hw' & _ & Hg'). assert (q = p) as -> by congruence.
        right. destruct He; auto.
    + exists t. split; [done|]. intros e. rewrite HP. split.
      * intros [?|(i & q & ? & ?)]; [by left|right; exists i, q; by split; [lia|]].
      * intros [?|(i & q & Hi & Hm & He)]; [by left|]. right. exists i, q. split; [|done].
        destruct (decide (i = j)) as [->|]; [|lia]. destruct Hm as (w' & ? & ? & _). congruence.
  - exists r. split; [done|]. intros e. rewrite HP. by rewrite Z.add_0_l.
Qed.

Lemma pagedir_destroy_ok init m pd : pd_wf m pd → frames_ok m pd → pd ≠ init →
  ∃ r, pagedir_destroy init pd m = Ret r ∧
    ∀ e, e ∈ r ↔ e = PallocFree pd ∨ ∃ k pt, 0 ≤ k < 768 ∧ table m pd k = Some pt ∧
      (e = PallocFree pt ∨ ∃ i p, 0 ≤ i < 1024 ∧ maps m pt i p ∧ (e = PallocFree p ∨ e = FreeFrame p)).
Proof.
  intros Hwf Hf Hi. unfold pagedir_destroy.
  assert (pd ≠ 0) as Hpd by (destruct (wf_dir _ _ Hwf) as [[? _] _]; unfold PHYS_BASE in *; lia).
  apply Z.eqb_neq in Hpd, Hi. rewrite Hpd, Hi. cbn [ASSERT negb mbind outcome_bind].
  match goal with |- context [for_range ?n 0 ?f []] =>
    destruct (for_range_spec (λ j r, ∀ e, e ∈ r ↔ ∃ k pt, 0 ≤ k < j ∧ table m pd k = Some pt ∧
      (e = PallocFree pt ∨ ∃ i p, 0 ≤ i < 1024 ∧ maps m pt i p ∧ (e = PallocFree p ∨ e = FreeFrame p)))
      f n 0 []) as (r & Hr & HP)
  end.
  - intros e. split; [by intros ?%elem_of_nil|]. intros (k & pt & ? & _). lia.
  - change (Z.of_nat (Z.to_nat (pd_no PHYS_BASE))) with 768. intros j t Hj HP.
    destruct (table_slot m pd j (wf_dir _ _ Hwf)) as (w & Hw & _); [lia|]. rewrite Hw. simpl.
    destruct (table m pd j) as [pt|] eqn:Ht.
    + destruct (table_Some _ _ _ _ Hwf Hj Ht) as (w' & Hw' & Hw0 & Hg & _).
      assert (w' = w) as -> by congruence.
      rewrite (proj1 Hf j w Hj Hw Hw0), Hg. simpl.
      destruct (destroy_table_ok m pd j pt t Hwf Hf Hj Ht) as (r & -> & Hr). simpl.
      eexists. split; [done|]. intros e. rewrite elem_of_app, Hr, HP, list_elem_of_singleton. split.
      * intros [[(k & q & ? & ?)|He]| ->]; [exists k, q; by split; [lia|]|..];
          exists j, pt; (split; [lia|]); (split; [done|]); auto.
      * intros (k & q & Hk & Hq & He). destruct (decide (k = j)) as [->|]; [|left; left; exists k, q; by split; [lia|]].
        simplify_eq. destruct He as [->|He]; [by right|left; by right].
    + apply (table_None _ _ _ Hwf Hj) in Ht as Hw0. simplify_eq. change (has 0 PTE_P) with false. cbv iota.
      exists t. split; [done|]. intros e. rewrite HP. split.
      * intros (k & q & ? & ?). exists k, q. by split; [lia|].
      * intros (k & q & Hk & Hq & He). exists k, q. split; [|done].
        destruct (decide (k = j)) as [->|]; [congruence|lia].
  - rewrite Hr. simpl. eexists. split; [done|]. intros e.
    rewrite elem_of_app, HP, list_elem_of_singleton.
    change (0 + Z.of_nat (Z.to_nat (pd_no PHYS_BASE))) with 768. tauto.
Qed.

(** ** A directory with one mapping *)

Lemma zero_slot m pd i w : m !! pd = Some (replicate 1024 0) → slot m pd i = Some w → w = 0.
Proof.
  intros Hm. unfold slot. rewrite Hm. by intros [_ [-> _]%lookup_replicate]%zget_Some.
Qed.

Lemma zero_dir_table m pd i : m !! pd = Some (replicate 1024 0) → table m pd i = None.
Proof.
  intros Hm. unfold table. destruct (slot m pd i) as [w|] eqn:E; [|done].
  by rewrite (zero_slot m pd i w Hm E).
Qed.

Lemma empty_dir_wf m pd : kernel_page pd → m !! pd = Some (replicate 1024 0) → pd_wf m pd.
Proof.
  intros Hk Hm. split.
  - split; [done|]. eexists. split; [done|]. split; [done|]. by apply Forall_replicate.
  - intros i w _ Hw Hn. by destruct Hn, (zero_slot m pd i w Hm Hw).
  - intros i j pt _ _ Hi. by rewrite (zero_dir_table m pd i Hm) in Hi.
Qed.

Definition demo_dir : Z := 0xc0001000.
Definition demo_pt : Z := 0xc0002000.
Definition demo_frame : Z := 0xc0003000.
Definition demo_empty : memory := {[demo_dir := replicate 1024 0]}.
(** User page 0x8000 is mapped to [demo_frame], writable and dirty. *)
Definition demo_mapped : memory :=
  upd (add_table demo_empty demo_dir 0 demo_pt (0x2000 + 7)) demo_pt 8 (0x3000 + 7 + 64).

Lemma demo_empty_wf : pd_wf demo_empty demo_dir.
Proof. by apply empty_dir_wf. Defined.

Lemma demo_fresh : fresh_page demo_empty demo_dir demo_pt.
Proof.
  split; [done|]. split; [done|]. intros i Hi. by rewrite zero_dir_table.
Defined.

Lemma demo_table : table (add_table demo_empty demo_dir 0 demo_pt (0x2000 + 7)) demo_dir 0 = Some demo_pt ∧
  pd_wf (add_table demo_empty demo_dir 0 demo_pt (0x2000 + 7)) demo_dir ∧
  ∀ k, 0 ≤ k → k ≠ 0 → table (add_table demo_empty demo_dir 0 demo_pt (0x2000 + 7)) demo_dir k = None.
Proof.
  assert (table demo_empty demo_dir 0 = None) as Hno by (by apply zero_dir_table).
  assert (0 ≤ 0 < 768) as H0 by done.
  assert (0x2000 + 7 ≠ 0 ∧ 0 ≤ 0x2000 + 7 < 2^32 ∧ pde_get_pt (0x2000 + 7) = Ret demo_pt)
    as (Hn & Hr & Hg) by (by vm_compute).
  split; [|split].
  - by rewrite (add_table_table _ _ _ _ _ demo_empty_wf H0 Hno demo_fresh Hn Hr Hg), decide_True.
  - apply (add_table_wf _ _ _ _ _ demo_empty_wf H0 Hno demo_fresh Hn Hr Hg).
  - intros k Hk Hk0. rewrite (add_table_table _ _ _ _ _ demo_empty_wf H0 Hno demo_fresh Hn Hr Hg) by done.
    rewrite decide_False by done. by apply zero_dir_table.
Defined.

Lemma demo_mapped_wf : pd_wf demo_mapped demo_dir ∧
  pte_of demo_mapped demo_dir 0x8000 = 0x3000 + 7 + 64.
Proof.
  destruct demo_table as (Ht & Hw & _).
  split; [by apply (upd_pte_wf _ _ 0)|]. unfold demo_mapped.
  rewrite (upd_pte_of _ _ 0); [|done..]. by rewrite decide_True.
Defined.

Lemma demo_mapped_frames : frames_ok demo_mapped demo_dir.
Proof.
  destruct demo_table as (Ht & Hw & Hno).
  assert (is_Some (slot (add_table demo_empty demo_dir 0 demo_pt (0x2000 + 7)) demo_pt 8)) as H8
    by (exists 0; by vm_compute).
  split.
  - intros i w Hi Hs Hn. destruct (decide (i = 0)) as [->|Hi0]; [by injection Hs as <-|].
    specialize (Hno i (proj1 Hi) Hi0). apply (table_None _ _ _ Hw Hi) in Hno.
    unfold demo_mapped in Hs. rewrite slot_upd in Hs by (lia || exact H8).
    rewrite decide_False in Hs by (by intros [? _]). congruence.
  - intros k pt i w Hk Htk Hi Hs Hp. unfold demo_mapped in *.
    rewrite (table_upd_pte _ _ 0) in Htk by (done || lia).
    destruct (decide (k = 0)) as [->|Hk0]; [|by rewrite Hno in Htk by lia].
    rewrite Ht in Htk. injection Htk as <-. rewrite slot_upd in Hs by (lia || exact H8).
    case_decide; [injection Hs as <-; by exists demo_frame|].
    unfold slot, add_table, upd in Hs. rewrite lookup_alter_ne, lookup_insert_eq in Hs by done.
    apply zget_Some in Hs as [_ [-> _]%lookup_replicate]. done.
Defined.

Definition demo_machine (m : memory) : machine := Machine m 0x1000 0.

(** ** Properties *)



(** Clearing a user page makes it unmapped for [pagedir_get_page] while
    its dirty and accessed bits stay readable; no other entry changes; and
    when the page was present in the active directory CR3 is rewritten, so no
    stale translation survives. *)
Theorem pagedir_clear_unmaps init_page_dir s pd active v :
  pd_wf (pages s) pd → kernel_page active → cr3 s = active - PHYS_BASE →
  0 ≤ v < PHYS_BASE → v mod 4096 = 0 →
  ∃ s', pagedir_clear_page init_page_dir pd v s = Ret ((), s') ∧ pd_wf (pages s') pd ∧
    (∀ a, 0 ≤ a < PHYS_BASE → pg_no a = pg_no v →
      pagedir_get_page pd a s' = Ret (None, s') ∧
      pagedir_is_dirty pd a s' = Ret (has (pte_of (pages s) pd v) PTE_D, s') ∧
      pagedir_is_accessed pd a s' = Ret (has (pte_of (pages s) pd v) PTE_A, s')) ∧
    (∀ a, 0 ≤ a < PHYS_BASE → pg_no a ≠ pg_no v → pte_of (pages s') pd a = pte_of (pages s) pd a) ∧
    (has (pte_of (pages s) pd v) PTE_P = true → active = pd → reloads s' = reloads s + 1).
Proof.
  intros Hwf Hact Hcr3 Hv Hva.
  destruct (pagedir_clear_page_ok init_page_dir s pd active Hwf Hact Hcr3 v Hv Hva)
    as (m' & r & Hc & [Hw Hp] & Hr).
  exists (Machine m' (cr3 s) r). do 2 (split; [done|]). split; [|split].
  - intros a Ha Hpg. specialize (Hp a Ha). rewrite decide_True in Hp by done.
    pose proof (pte_of_range (pages s) pd v Hwf Hv) as Hrng.
    destruct (pagedir_get_page_ok (Machine m' (cr3 s) r) pd Hw a Ha) as [Hget _]. simpl in Hget.
    unfold pagedir_is_dirty, pagedir_is_accessed.
    rewrite !(test_flag_ok (Machine m' (cr3 s) r) pd Hw a _ Ha). simpl. rewrite Hp in *.
    assert (∀ k, 0 ≤ k → k ≠ 0 → Z.testbit (clear_flag (pte_of (pages s) pd v) PTE_P) k =
      Z.testbit (pte_of (pages s) pd v) k) as Hk.
    { intros k ? ?. rewrite (clear_flag_testbit _ 0) by lia. destruct (Z.eqb_spec k 0); [done|].
      apply andb_true_r. }
    rewrite !has_D, !has_A, !Hk by done. split; [|done]. apply Hget.
    rewrite has_P, (clear_flag_testbit _ 0) by lia. apply andb_false_r.
  - intros a Ha Hpg. simpl. rewrite Hp by done. by rewrite decide_False.
  - intros Hpres ->. simpl. rewrite (Hr Hpres). unfold flushed. by rewrite decide_True.
Qed.

Lemma pagedir_clear_unmaps_witness :
  let s := demo_machine demo_mapped in
  has (pte_of demo_mapped demo_dir 0x8000) PTE_P = true ∧
  ∃ s', pagedir_clear_page 0 demo_dir 0x8000 s = Ret ((), s') ∧ pd_wf (pages s') demo_dir ∧
    (∀ a, 0 ≤ a < PHYS_BASE → pg_no a = pg_no 0x8000 →
      pagedir_get_page demo_dir a s' = Ret (None, s') ∧
      pagedir_is_dirty demo_dir a s' = Ret (has (pte_of demo_mapped demo_dir 0x8000) PTE_D, s') ∧
      pagedir_is_accessed demo_dir a s' = Ret (has (pte_of demo_mapped demo_dir 0x8000) PTE_A, s')) ∧
    (∀ a, 0 ≤ a < PHYS_BASE → pg_no a ≠ pg_no 0x8000 →
      pte_of (pages s') demo_dir a = pte_of demo_mapped demo_dir a) ∧
    (has (pte_of demo_mapped demo_dir 0x8000) PTE_P = true → demo_dir = demo_dir → reloads s' = 0 + 1).
Proof.
  destruct demo_mapped_wf as [Hw Hp]. split; [by rewrite Hp|].
  by apply (pagedir_clear_unmaps 0 (demo_machine demo_mapped) demo_dir demo_dir 0x8000).
Defined.

(** Writing the dirty or the accessed bit of a user page that has a page
    table makes the matching test return it and changes neither the other
    flags of the entry nor its frame, nor any other entry. *)
Theorem pagedir_flags init_page_dir s pd active v k value pt :
  pd_wf (pages s) pd → kernel_page active → cr3 s = active - PHYS_BASE →
  0 ≤ v < PHYS_BASE → table (pages s) pd (pd_no v) = Some pt →
  k = 5 ∨ k = 6 →
  ∃ s', (if decide (k = 5) then pagedir_set_accessed init_page_dir pd v value s
         else pagedir_set_dirty init_page_dir pd v value s) = Ret ((), s') ∧
    pd_wf (pages s') pd ∧
    (if decide (k = 5) then pagedir_is_accessed pd v s' else pagedir_is_dirty pd v s') = Ret (value, s') ∧
    (∀ i, 0 ≤ i → i ≠ k →
      Z.testbit (pte_of (pages s') pd v) i = Z.testbit (pte_of (pages s) pd v) i) ∧
    ∀ a, 0 ≤ a < PHYS_BASE → pg_no a ≠ pg_no v → pte_of (pages s') pd a = pte_of (pages s) pd a.
Proof.
  intros Hwf Hact Hcr3 Hv Ht Hk. assert (0 ≤ k < 12) as Hk' by lia.
  destruct (write_flag_ok init_page_dir s pd active Hwf Hact Hcr3 v k value Hv Hk')
    as (m' & r & Hc & Hw & Hp). rewrite Ht in Hp.
  exists (Machine m' (cr3 s) r). pose proof (Hp v Hv) as Hpv. rewrite decide_True in Hpv by done.
  pose proof (pte_of_range (pages s) pd v Hwf Hv) as Hrng.
  assert (∀ i, 0 ≤ i → Z.testbit (pte_of m' pd v) i =
    if decide (i = k) then value else Z.testbit (pte_of (pages s) pd v) i) as Hb.
  { intros i Hi. rewrite Hpv. destruct value.
    - rewrite set_flag_testbit by lia. case_decide as E; [|apply Z.eqb_neq in E; by rewrite E, orb_false_r].
      by rewrite E, Z.eqb_refl, orb_true_r.
    - rewrite clear_flag_testbit by lia. case_decide as E; [|apply Z.eqb_neq in E; by rewrite E, andb_true_r].
      by rewrite E, Z.eqb_refl, andb_false_r. }
  split; [destruct Hk as [-> | ->]; exact Hc|]. split; [done|]. split; [|split].
  - unfold pagedir_is_accessed, pagedir_is_dirty.
    rewrite !(test_flag_ok (Machine m' (cr3 s) r) pd Hw v _ Hv), has_D, has_A. cbn [pages].
    rewrite !Hb by done. destruct Hk as [-> | ->]; by repeat case_decide.
  - intros i Hi Hne. simpl. rewrite Hb by done. by rewrite decide_False.
  - intros a Ha Hpg. simpl. rewrite Hp by done. by rewrite decide_False.
Qed.

Lemma pagedir_flags_witness :
  ∃ s', pagedir_set_dirty 0 demo_dir 0x8000 false (demo_machine demo_mapped) = Ret ((), s') ∧
    pd_wf (pages s') demo_dir ∧ pagedir_is_dirty demo_dir 0x8000 s' = Ret (false, s') ∧
    (∀ i, 0 ≤ i → i ≠ 6 → Z.testbit (pte_of (pages s') demo_dir 0x8000) i =
      Z.testbit (pte_of demo_mapped demo_dir 0x8000) i) ∧
    ∀ a, 0 ≤ a < PHYS_BASE → pg_no a ≠ pg_no 0x8000 →
      pte_of (pages s') demo_dir a = pte_of demo_mapped demo_dir a.
Proof.
  destruct demo_mapped_wf as [Hw _].
  apply (pagedir_flags 0 (demo_machine demo_mapped) demo_dir demo_dir 0x8000 6 false demo_pt);
    try done. by right.
Defined.

(** [pagedir_destroy] gives back to palloc exactly the directory, its
    page tables and the frames of its present entries; but every frame-table
    release it asks for names a kernel address, whereas frame-table entries
    are named by user addresses, so none of those calls can find its entry. *)
Theorem pagedir_destroy_releases init_page_dir m pd :
  pd_wf m pd → frames_ok m pd → pd ≠ init_page_dir →
  ∃ r, pagedir_destroy init_page_dir pd m = Ret r ∧
    (∀ p, PallocFree p ∈ r ↔ p = pd ∨ ∃ k pt, 0 ≤ k < 768 ∧ table m pd k = Some pt ∧
       (p = pt ∨ ∃ i, 0 ≤ i < 1024 ∧ maps m pt i p)) ∧
    ∀ v, FreeFrame v ∈ r → is_user_vaddr v = false.
Proof.
  intros Hwf Hf Hi. destruct (pagedir_destroy_ok init_page_dir m pd Hwf Hf Hi) as (r & Hr & He).
  exists r. split; [done|]. split.
  - intros p. rewrite He. split.
    + intros [[= ->]|(k & pt & Hk & Ht & [[= ->]|(i & q & ? & ? & [[= ->]|[=]])])]; [by left|..];
        right; exists k, pt; (split; [done|]); (split; [done|]); [by left|right; by exists i].
    + intros [->|(k & pt & Hk & Ht & [->|(i & ? & ?)])]; [by left|..];
        right; exists k, pt; (split; [done|]); (split; [done|]); [by left|].
      right. exists i, p. auto.
  - intros v [[=]|(k & pt & Hk & Ht & [[=]|(i & q & Hi' & (w & Hw & Hp & Hg) & [[=]|[= ->]])])]%He.
    destruct (proj2 Hf k pt i w Hk Ht Hi' Hw Hp) as (q' & Hq & Hge). simplify_eq.
    unfold is_user_vaddr. apply Z.ltb_ge. rewrite Hg in Hq. by simplify_eq.
Qed.

Lemma pagedir_destroy_releases_witness :
  ∃ r, pagedir_destroy 0 demo_dir demo_mapped = Ret r ∧
    (∀ p, PallocFree p ∈ r ↔ p = demo_dir ∨ ∃ k pt, 0 ≤ k < 768 ∧
       table demo_mapped demo_dir k = Some pt ∧
       (p = pt ∨ ∃ i, 0 ≤ i < 1024 ∧ maps demo_mapped pt i p)) ∧
    ∀ v, FreeFrame v ∈ r → is_user_vaddr v = false.
Proof.
  destruct demo_mapped_wf as [Hw _]. apply (pagedir_destroy_releases 0 demo_mapped demo_dir Hw); [|done].
  exact demo_mapped_frames.
Defined.
