(* ===== verification/Block.v ===== *)
(** * Block devices (devices/block.c) and partitions (devices/partition.c)

    A driver is a record of two functions on the state that [aux] points to,
    as in [struct block_operations]; [DriverOk] states what a driver promises.
    A block device adds the bounds check and the counters.  The driver of a
    partition goes through the block device that contains it, and is shown to
    keep the promise on its own range of sectors.

    A sector is a list of 512 bytes.  The IDE driver is not modelled: its
    place is taken by any driver that satisfies [DriverOk], and a disk held in
    memory shows that there are such drivers. *)

From S2P Require Import Prelude.

Definition BLOCK_SECTOR_SIZE : Z := 512.

Inductive block_type :=
  BLOCK_KERNEL | BLOCK_FILESYS | BLOCK_SCRATCH | BLOCK_SWAP | BLOCK_RAW | BLOCK_FOREIGN.
#[global] Instance block_type_eq_dec : EqDecision block_type.
Proof. solve_decision. Defined.

Definition sector_data (data : list Z) : Prop := zlength data = BLOCK_SECTOR_SIZE.

Record block_operations (D : Type) := BlockOps {
  op_read : D → Z → outcome (list Z * D);
  op_write : D → Z → list Z → outcome D
}.
Global Arguments BlockOps {D} _ _.
Global Arguments op_read {D} _ _ _.
Global Arguments op_write {D} _ _ _ _.

Record block (D : Type) := Block {
  b_type : block_type;
  b_size : Z;                (* Size in sectors. *)
  b_aux : D;                 (* The driver's state. *)
  read_cnt : Z;              (* Number of sectors read. *)
  write_cnt : Z              (* Number of sectors written. *)
}.
Global Arguments Block {D} _ _ _ _ _.
Global Arguments b_type {D} _.
Global Arguments b_size {D} _.
Global Arguments b_aux {D} _.
Global Arguments read_cnt {D} _.
Global Arguments write_cnt {D} _.

Section Device.
Context {D : Type} (ops : block_operations D).

Definition check_sector (b : block D) (sector : Z) : outcome unit :=
  if b_size b <=? sector then Fail Panicked else Ret ().

Definition block_read (b : block D) (sector : Z) : outcome (list Z * block D) :=
  let* _ := check_sector b sector in
  let* (data, d) := op_read ops (b_aux b) sector in
  Ret (data, Block (b_type b) (b_size b) d (u64 (read_cnt b + 1)) (write_cnt b)).

Definition block_write (b : block D) (sector : Z) (buffer : list Z) : outcome (block D) :=
  let* _ := check_sector b sector in
  let* _ := ASSERT (bool_decide (b_type b ≠ BLOCK_FOREIGN)) in
  let* d := op_write ops (b_aux b) sector buffer in
  Ret (Block (b_type b) (b_size b) d (read_cnt b) (u64 (write_cnt b + 1))).

Definition block_size (b : block D) : Z := b_size b.
End Device.

(** A newly registered device. *)
Definition block_register {D} (type : block_type) (size : Z) (aux : D) : block D :=
  Block type size aux 0 0.

(** The device of each role, by its number in the list of all devices. *)
Definition roles := list (option nat).
Definition role_index (role : block_type) : option nat :=
  match role with
  | BLOCK_KERNEL => Some 0%nat | BLOCK_FILESYS => Some 1%nat
  | BLOCK_SCRATCH => Some 2%nat | BLOCK_SWAP => Some 3%nat
  | _ => None
  end.
Definition block_get_role (by_role : roles) (role : block_type) : outcome (option nat) :=
  match role_index role with
  | Some i => access (by_role !! i)
  | None => Fail AssertFailed
  end.
Definition block_set_role (by_role : roles) (role : block_type) (b : option nat) : outcome roles :=
  match role_index role with
  | Some i => Ret (<[i := b]> by_role)
  | None => Fail AssertFailed
  end.

(** ** What a driver promises

    [content d s] is what sector [s] of the medium holds.  A read returns it
    and changes no content; a write changes the content of its sector only. *)
Class DriverOk {D} (ops : block_operations D) (ok : D → Prop) (size : Z)
    (content : D → Z → list Z) : Prop := {
  do_sector d s : ok d → 0 ≤ s < size → sector_data (content d s);
  do_read d s : ok d → 0 ≤ s < size →
    ∃ d', op_read ops d s = Ret (content d s, d') ∧ ok d' ∧
      ∀ t, 0 ≤ t < size → content d' t = content d t;
  do_write d s data : ok d → 0 ≤ s < size → sector_data data →
    ∃ d', op_write ops d s data = Ret d' ∧ ok d' ∧
      ∀ t, 0 ≤ t < size → content d' t = if decide (t = s) then data else content d t
}.

(** A block device whose driver keeps its promise. *)
Section DeviceOk.
Context {D : Type} (ops : block_operations D) (ok : D → Prop) (size : Z).
Context (content : D → Z → list Z) `{!DriverOk ops ok size content}.

Definition block_ok (b : block D) : Prop :=
  ok (b_aux b) ∧ b_size b = size ∧ b_type b ≠ BLOCK_FOREIGN.
Definition block_content (b : block D) (s : Z) : list Z := content (b_aux b) s.

Lemma block_sector b s : block_ok b → 0 ≤ s < size → length (block_content b s) = 512%nat.
Proof.
  intros [Hok _] Hs. pose proof (do_sector (b_aux b) s Hok Hs) as Hd.
  unfold sector_data, BLOCK_SECTOR_SIZE in Hd. unfold block_content. lia.
Qed.

Lemma check_sector_ok b s : block_ok b → 0 ≤ s < size → check_sector b s = Ret ().
Proof.
  intros (_ & Hs & _) Hr. unfold check_sector. destruct (Z.leb_spec (b_size b) s); [lia|done].
Qed.

Lemma block_read_ok b s : block_ok b → 0 ≤ s < size →
  ∃ b', block_read ops b s = Ret (block_content b s, b') ∧ block_ok b' ∧
    ∀ t, 0 ≤ t < size → block_content b' t = block_content b t.
Proof.
  intros Hb Hs. unfold block_read. rewrite check_sector_ok by done. simpl.
  destruct Hb as (Hok & Hsz & Hty). destruct (do_read (b_aux b) s Hok Hs) as (d' & -> & ? & ?).
  simpl. eexists. by split.
Qed.

Lemma block_write_ok b s data : block_ok b → 0 ≤ s < size → sector_data data →
  ∃ b', block_write ops b s data = Ret b' ∧ block_ok b' ∧
    ∀ t, 0 ≤ t < size → block_content b' t = if decide (t = s) then data else block_content b t.
Proof.
  intros Hb Hs Hd. unfold block_write. rewrite check_sector_ok by done. simpl.
  destruct Hb as (Hok & Hsz & Hty). rewrite bool_decide_true by done. simpl.
  destruct (do_write (b_aux b) s data Hok Hs Hd) as (d' & -> & ? & ?). simpl. eexists. by split.
Qed.

Lemma block_past_end b s data : block_ok b → size ≤ s →
  block_read ops b s = Fail Panicked ∧ block_write ops b s data = Fail Panicked.
Proof.
  intros (_ & Hsz & _) Hs. unfold block_read, block_write, check_sector.
  by destruct (Z.leb_spec (b_size b) s); [|lia].
Qed.
End DeviceOk.

(** ** A disk in memory *)

Definition ram_ops : block_operations (list (list Z)) := BlockOps
  (λ d s, let* data := access (zget d s) in Ret (data, d))
  (λ d s data, access (zset d s data)).
Definition ram_ok (size : Z) (d : list (list Z)) : Prop :=
  zlength d = size ∧ Forall sector_data d.
Definition ram_content (d : list (list Z)) (s : Z) : list Z := default [] (zget d s).

#[global] Instance ram_driver size : DriverOk ram_ops (ram_ok size) size ram_content.
Proof.
  split.
  - intros d s [Hl Hf] Hs. unfold ram_content.
    destruct (zget_is_Some d s) as [data Hd]; [lia|]. rewrite Hd. simpl.
    apply zget_Some in Hd as [_ Hd]. exact (Forall_lookup_1 _ _ _ _ Hf Hd).
  - intros d s [Hl Hf] Hs. unfold ram_content. simpl.
    destruct (zget_is_Some d s) as [data Hd]; [lia|]. rewrite Hd. simpl. by exists d.
  - intros d s data [Hl Hf] Hs Hdata. simpl. rewrite zset_Some by lia.
    eexists. split; [done|]. split.
    + split; [by rewrite length_insert|by apply Forall_insert].
    + intros t Ht. unfold ram_content.
      rewrite (zget_zset d (<[Z.to_nat s := data]> d) s t data) by (apply zset_Some; lia).
      repeat case_decide; subst; done.
Qed.

(** ** Partitions

    The driver of a partition that starts at [start] works on the containing
    block device. *)
Section Partition.
Context {D : Type} (ops : block_operations D).

Definition partition_read (start : Z) (b : block D) (sector : Z) : outcome (list Z * block D) :=
  block_read ops b (u32 (start + sector)).
Definition partition_write (start : Z) (b : block D) (sector : Z) (buffer : list Z) : outcome (block D) :=
  block_write ops b (u32 (start + sector)) buffer.
Definition partition_operations (start : Z) : block_operations (block D) :=
  BlockOps (partition_read start) (partition_write start).

(** [found_partition]: the device it registers, if any. *)
Definition part_block_type (part_type : Z) : block_type :=
  if part_type =? 0x20 then BLOCK_KERNEL else if part_type =? 0x21 then BLOCK_FILESYS
  else if part_type =? 0x22 then BLOCK_SCRATCH else if part_type =? 0x23 then BLOCK_SWAP
  else BLOCK_FOREIGN.

Record found := Found { f_type : block_type; f_start : Z; f_size : Z; f_nr : Z }.

Definition found_partition (dev_size part_type start size part_nr : Z) : list found :=
  if dev_size <=? start then []
  else if (u32 (start + size) <? start) || (dev_size <? u32 (start + size)) then []
  else [Found (part_block_type part_type) start size part_nr].

(** A little-endian word of a sector. *)
Definition le_word (data : list Z) (ofs : Z) : outcome Z :=
  let* a := access (zget data ofs) in let* b := access (zget data (ofs + 1)) in
  let* c := access (zget data (ofs + 2)) in let* d := access (zget data (ofs + 3)) in
  Ret (a + 256 * b + 65536 * c + 16777216 * d).

(** [read_partition_table]; the parsed entries are those of sector 0 whatever
    [sector] is, as in the source.  [fuel] bounds the nesting of extended
    partition tables. *)
Definition is_extended (type : Z) : bool :=
  (type =? 0x05) || (type =? 0x0f) || (type =? 0x85) || (type =? 0xc5).

(** The device, the number of partitions so far and those registered. *)
Definition scan_state : Type := block D * Z * list found.

Fixpoint read_partition_table (fuel : nat) (sector primary : Z) (st : scan_state)
    : outcome scan_state :=
  match fuel with
  | O => Fail OutOfFuel
  | S fuel =>
    let '(b, nr, fs) := st in
    if block_size b <=? sector then Ret st else
    let* (pt, b) := block_read ops b 0 in
    let* lo := access (zget pt 510) in
    let* hi := access (zget pt 511) in
    if negb (lo + 256 * hi =? 0xaa55) then Ret (b, nr, fs) else
    for_range 4 0 (λ i (st : scan_state),
      let '(b, nr, fs) := st in
      let e := 446 + 16 * i in
      let* type := access (zget pt (e + 4)) in
      let* offset := le_word pt (e + 8) in
      let* size := le_word pt (e + 12) in
      if (size =? 0) || (type =? 0) then Ret st
      else if is_extended type then
        if sector =? 0 then read_partition_table fuel offset offset st
        else read_partition_table fuel (u32 (offset + primary)) primary st
      else
        Ret (b, nr + 1,
             fs ++ found_partition (block_size b) type (u32 (offset + sector)) size (nr + 1)))
      (b, nr, fs)
  end.

Definition partition_scan (fuel : nat) (b : block D) : outcome scan_state :=
  read_partition_table fuel 0 0 (b, 0, []).
End Partition.

(** ** A partition is a driver *)

Section PartitionOk.
Context {D : Type} (ops : block_operations D) (ok : D → Prop) (size : Z).
Context (content : D → Z → list Z) `{!DriverOk ops ok size content}.
Notation block_ok := (block_ok ok size).
Notation block_content := (block_content content).

#[global] Instance partition_driver start psize :
  0 ≤ start → start + psize ≤ size → size < 2^32 →
  DriverOk (partition_operations ops start) block_ok psize (λ b s, block_content b (start + s)).
Proof.
  intros Hst Hsz Hlt. split.
  - intros b s (Hok & _) Hs. unfold Block.block_content. apply (do_sector (ops := ops) (b_aux b)); [done|lia].
  - intros b s Hb Hs. simpl. unfold partition_read. rewrite u32_id by lia.
    destruct (block_read_ok ops ok size content b (start + s) Hb) as (b' & ? & ? & Ht); [lia|].
    exists b'. do 2 (split; [done|]). intros t ?. apply Ht. lia.
  - intros b s data Hb Hs Hd. simpl. unfold partition_write. rewrite u32_id by lia.
    destruct (block_write_ok ops ok size content b (start + s) data Hb) as (b' & ? & ? & Ht); [lia|done|].
    exists b'. do 2 (split; [done|]). intros t ?. rewrite Ht by lia. repeat case_decide; done || lia.
Qed.

(** Writing through a partition leaves the rest of the device alone. *)
Lemma partition_frame start psize pb s data pb' :
  0 ≤ start → start + psize ≤ size → size < 2^32 → block_ok (b_aux pb) → b_size pb = psize →
  0 ≤ s → sector_data data →
  block_write (partition_operations ops start) pb s data = Ret pb' →
  ∀ t, 0 ≤ t < size → t < start ∨ start + psize ≤ t →
    block_content (b_aux pb') t = block_content (b_aux pb) t.
Proof.
  intros Hst Hsz Hlt Hb Hps Hs Hd Hw t Ht Hout. unfold block_write, check_sector in Hw.
  destruct (Z.leb_spec (b_size pb) s); [done|]. simpl in Hw. outcome_inv. simpl.
  unfold partition_write in Hv0. rewrite u32_id in Hv0 by lia.
  destruct (block_write_ok ops ok size content (b_aux pb) (start + s) data Hb) as (b' & Hb' & _ & Hc);
    [lia|done|]. rewrite Hb' in Hv0. outcome_inv. rewrite Hc by lia. by rewrite decide_False by lia.
Qed.

(** ** The scan *)

Definition in_device (f : found) : Prop := 0 ≤ f_start f ∧ f_start f + f_size f ≤ size.

Lemma found_in_device type start psize nr : 0 ≤ start < 2^32 → 0 ≤ psize < 2^32 →
  Forall in_device (found_partition size type start psize nr).
Proof.
  intros Hst Hp. unfold found_partition. destruct (Z.leb_spec size start); [constructor|].
  destruct (Z.ltb_spec (u32 (start + psize)) start); [constructor|].
  destruct (Z.ltb_spec size (u32 (start + psize))); [constructor|]. simpl.
  repeat constructor; simpl; [lia|]. unfold u32 in *. div_lia.
Qed.

Definition bytes (data : list Z) : Prop := Forall (λ x, 0 ≤ x < 256) data.

Lemma le_word_ok data ofs : bytes data → 0 ≤ ofs → ofs + 3 < zlength data →
  ∃ w, le_word data ofs = Ret w ∧ 0 ≤ w < 2^32.
Proof.
  intros Hb Ho Hl. assert (∀ i, 0 ≤ i < zlength data → ∃ x, zget data i = Some x ∧ 0 ≤ x < 256) as Hg.
  { intros i Hi. destruct (zget_is_Some data i Hi) as [x Hx]. exists x. split; [done|].
    apply zget_Some in Hx as [_ Hx]. exact (Forall_lookup_1 _ _ _ _ Hb Hx). }
  destruct (Hg ofs) as (a & Ha & ?); [lia|]. destruct (Hg (ofs + 1)) as (b & Hb1 & ?); [lia|].
  destruct (Hg (ofs + 2)) as (c & Hc & ?); [lia|]. destruct (Hg (ofs + 3)) as (d & Hd & ?); [lia|].
  unfold le_word. rewrite Ha, Hb1, Hc, Hd. simpl. eexists. split; [done|]. lia.
Qed.

(** No entry of the partition table in [pt] is an extended partition. *)
Definition no_extended (pt : list Z) : Prop :=
  ∀ i type, 0 ≤ i < 4 → zget pt (446 + 16 * i + 4) = Some type → is_extended type = false.

Lemma partition_scan_ok b : block_ok b → 0 < size → bytes (block_content b 0) →
  no_extended (block_content b 0) →
  ∃ b' nr fs, partition_scan ops 1 b = Ret (b', nr, fs) ∧ block_ok b' ∧
    Forall in_device fs ∧ zlength fs ≤ nr ≤ 4 ∧
    ∀ t, 0 ≤ t < size → block_content b' t = block_content b t.
Proof.
  intros Hb Hsz Hby Hne. unfold partition_scan. cbn [read_partition_table]. unfold block_size.
  destruct Hb as (Hok & Hbs & Hty). rewrite Hbs. destruct (Z.leb_spec size 0); [lia|].
  destruct (block_read_ok ops ok size content b 0) as (b1 & Hr & Hb1 & Hc1); [done|lia|].
  rewrite Hr. cbn [mbind outcome_bind]. pose proof (do_sector (ops := ops) (b_aux b) 0 Hok (conj (Z.le_refl 0) Hsz)) as Hlen.
  unfold sector_data, BLOCK_SECTOR_SIZE in Hlen. fold (block_content b 0) in Hlen.
  set (pt := block_content b 0) in *.
  destruct (zget_is_Some pt 510) as [lo Hlo]; [lia|]. destruct (zget_is_Some pt 511) as [hi Hhi]; [lia|].
  rewrite Hlo, Hhi. cbn [access mbind outcome_bind].
  destruct (lo + 256 * hi =? 43605); cbn [negb].
  2: { exists b1, 0, []. repeat split; try done; apply Hb1. }
  match goal with |- context [for_range 4 0 ?f ?s] =>
    destruct (for_range_spec (λ j (st : block D * Z * list found), st.1.1 = b1 ∧
      Forall in_device st.2 ∧ zlength st.2 ≤ st.1.2 ≤ j) f 4 0 s) as ([[b' nr] fs] & Hf & Hb' & HF & Hn)
  end.
  - repeat split; [constructor|simpl; lia..].
  - intros j [[b2 nr] fs] Hj (Hb2 & HF & Hn). simpl in Hb2, HF, Hn. subst b2.
    destruct (zget_is_Some pt (446 + 16 * j + 4)) as [ty Hty']; [lia|]. rewrite Hty'. simpl.
    destruct (le_word_ok pt (446 + 16 * j + 8)) as (o & -> & Ho); [done|lia..|]. simpl.
    destruct (le_word_ok pt (446 + 16 * j + 12)) as (sz & -> & Hs'); [done|lia..|]. simpl.
    destruct ((sz =? 0) || (ty =? 0)).
    { eexists. split; [done|]. simpl. repeat split; [done|lia..]. }
    rewrite (Hne j ty); [|lia|done]. eexists. split; [done|]. simpl.
    destruct Hb1 as (_ & Hsz1 & _). unfold block_size. rewrite Hsz1.
    split; [done|]. split.
    + apply Forall_app. split; [done|]. apply found_in_device; [apply u32_range|done].
    + rewrite length_app. unfold found_partition.
      repeat case_match; simpl; lia.
  - exists b', nr, fs. simpl in Hb', HF, Hn. subst b'. done.
Qed.
End PartitionOk.

(** ** Properties *)

(** A disk of eight sectors; sector 0 has two partitions in its table. *)
Definition table_entry (type offset size : Z) : list Z :=
  [0; 0; 0; 0; type; 0; 0; 0; offset; 0; 0; 0; size; 0; 0; 0].
Definition mbr (entries : list (list Z)) : list Z :=
  replicate 446 0 ++ concat entries ++ [0x55; 0xaa].
Definition demo_disk (e0 e1 : list Z) : list (list Z) :=
  mbr [e0; e1; table_entry 0 0 0; table_entry 0 0 0] :: replicate 7 (replicate 512 7).
Definition demo_block (e0 e1 : list Z) : block (list (list Z)) :=
  Block BLOCK_RAW 8 (demo_disk e0 e1) 0 0.

Lemma demo_block_ok e0 e1 : length e0 = 16%nat → length e1 = 16%nat →
  block_ok (ram_ok 8) 8 (demo_block e0 e1).
Proof.
  intros H0 H1. split; [|done]. split; [done|].
  constructor; [|by repeat constructor].
  unfold sector_data, mbr. simpl concat. rewrite !length_app, length_replicate, H0, H1. done.
Defined.

(** C27. A partition is a block device of its own inside its range: a write
    through it is read back, leaves the partition's other sectors alone, and
    changes no sector of the containing device outside the partition, while an
    access past its end panics instead of reaching the neighbouring one. *)
Theorem partition_isolated {D} (ops : block_operations D) ok size content
    `{!DriverOk ops ok size content} start psize type (b : block D) s data :
  0 ≤ start → start + psize ≤ size → size < 2^32 → block_ok ok size b →
  type ≠ BLOCK_FOREIGN → 0 ≤ s < psize → sector_data data →
  let pops := partition_operations ops start in
  let pb := block_register type psize b in
  (∀ t d, psize ≤ t → block_read pops pb t = Fail Panicked ∧ block_write pops pb t d = Fail Panicked) ∧
  ∃ pb' pb'', block_write pops pb s data = Ret pb' ∧ block_read pops pb' s = Ret (data, pb'') ∧
    (∀ t, 0 ≤ t < psize → t ≠ s →
      block_content content (b_aux pb') (start + t) = block_content content b (start + t)) ∧
    ∀ t, 0 ≤ t < size → t < start ∨ start + psize ≤ t →
      block_content content (b_aux pb') t = block_content content b t.
Proof.
  intros Hst Hsz Hlt Hb Hty Hs Hd pops pb.
  pose proof (partition_driver ops ok size content start psize Hst Hsz Hlt) as HD.
  assert (block_ok (block_ok ok size) psize pb) as Hpb by done.
  split; [intros t d Ht; by apply (block_past_end pops (block_ok ok size) psize)|].
  destruct (block_write_ok pops _ psize _ pb s data Hpb Hs Hd) as (pb' & Hw & Hpb' & Hc).
  destruct (block_read_ok pops _ psize _ pb' s Hpb' Hs) as (pb'' & Hr & _).
  exists pb', pb''. split; [done|]. split; [|split].
  - rewrite Hr, Hc by done. by rewrite decide_True.
  - intros t Ht Hne. specialize (Hc t Ht). by rewrite decide_False in Hc.
  - intros t Ht Hout.
    by eapply (partition_frame ops ok size content start psize pb s data pb'); try done; lia.
Qed.

Lemma partition_isolated_witness :
  let b := demo_block (table_entry 0x21 1 2) (table_entry 0x23 3 5) in
  let pops := partition_operations ram_ops 3 in
  let pb := block_register BLOCK_SWAP 5 b in
  (∀ t d, 5 ≤ t → block_read pops pb t = Fail Panicked ∧ block_write pops pb t d = Fail Panicked) ∧
  ∃ pb' pb'', block_write pops pb 1 (replicate 512 9) = Ret pb' ∧
    block_read pops pb' 1 = Ret (replicate 512 9, pb'') ∧
    (∀ t, 0 ≤ t < 5 → t ≠ 1 → block_content ram_content (b_aux pb') (3 + t) =
      block_content ram_content b (3 + t)) ∧
    ∀ t, 0 ≤ t < 8 → t < 3 ∨ 3 + 5 ≤ t →
      block_content ram_content (b_aux pb') t = block_content ram_content b t.
Proof.
  apply (partition_isolated ram_ops (ram_ok 8) 8 ram_content 3 5 BLOCK_SWAP); try done.
  by apply demo_block_ok.
Defined.

(** On a device whose partition table has no extended partition the scan
    terminates, registers at most four partitions, and each of them lies
    inside the device, whatever the bytes of the table are. *)
Theorem partition_scan_in_device {D} (ops : block_operations D) ok size content
    `{!DriverOk ops ok size content} b :
  block_ok ok size b → 0 < size → bytes (block_content content b 0) →
  no_extended (block_content content b 0) →
  ∃ b' nr fs, partition_scan ops 1 b = Ret (b', nr, fs) ∧
    (length fs ≤ 4)%nat ∧ Forall (λ f, 0 ≤ f_start f ∧ f_start f + f_size f ≤ size) fs ∧
    ∀ t, 0 ≤ t < size → block_content content b' t = block_content content b t.
Proof.
  intros Hb Hs Hby Hne.
  destruct (partition_scan_ok ops ok size content b Hb Hs Hby Hne) as (b' & nr & fs & ? & _ & ? & ? & ?).
  exists b', nr, fs. split; [done|]. split; [lia|done].
Qed.

Lemma partition_scan_in_device_witness :
  let b := demo_block (table_entry 0x21 1 2) (table_entry 0x23 3 9) in
  ∃ b' nr fs, partition_scan ram_ops 1 b = Ret (b', nr, fs) ∧
    (length fs ≤ 4)%nat ∧ Forall (λ f, 0 ≤ f_start f ∧ f_start f + f_size f ≤ 8) fs ∧
    ∀ t, 0 ≤ t < 8 → block_content ram_content b' t = block_content ram_content b t.
Proof.
  apply (partition_scan_in_device ram_ops (ram_ok 8) 8 ram_content); [by apply demo_block_ok|done|..].
  - by apply (bool_decide_unpack _); vm_compute.
  - intros i type Hi. assert (i = 0 ∨ i = 1 ∨ i = 2 ∨ i = 3) as Hc by lia.
    destruct Hc as [-> |[-> |[-> | ->]]]; vm_compute; by intros [= <-].
Defined.

(** A device with an extended partition at sector 2. *)
Definition ext_block (rc wc : Z) : block (list (list Z)) :=
  Block BLOCK_RAW 8 (demo_disk (table_entry 5 2 1) (table_entry 0 0 0)) rc wc.

(** Wherever a table is asked for, the entries are those of sector 0, and the
    first one leads to another table. *)
Lemma extended_step fuel sector primary rc wc nr fs : 0 ≤ sector < 8 →
  (∀ rc, read_partition_table ram_ops fuel
     (if sector =? 0 then 2 else u32 (2 + primary)) (if sector =? 0 then 2 else primary)
     (ext_block rc wc, nr, fs) = Fail OutOfFuel) →
  read_partition_table ram_ops (S fuel) sector primary (ext_block rc wc, nr, fs) = Fail OutOfFuel.
Proof.
  intros Hs IH. unfold ext_block in *. cbn [read_partition_table].
  unfold block_size, block_read, check_sector. cbn [b_size]. destruct (Z.leb_spec 8 sector); [lia|]. change (8 <=? 0) with false.
  cbn [mbind outcome_bind op_read ram_ops b_aux].
  set (pt := mbr [table_entry 5 2 1; table_entry 0 0 0; table_entry 0 0 0; table_entry 0 0 0]).
  assert (zget (demo_disk (table_entry 5 2 1) (table_entry 0 0 0)) 0 = Some pt) as -> by done.
  cbn [access mbind outcome_bind b_type read_cnt write_cnt b_size].
  assert (zget pt 510 = Some 0x55 ∧ zget pt 511 = Some 0xaa) as [-> ->] by (by vm_compute).
  cbn [access mbind outcome_bind]. change (negb (85 + 256 * 170 =? 43605)) with false. cbv iota.
  assert (zget pt (446 + 16 * 0 + 4) = Some 5 ∧ le_word pt (446 + 16 * 0 + 8) = Ret 2 ∧
    le_word pt (446 + 16 * 0 + 12) = Ret 1) as (H1 & H2 & H3) by (by vm_compute).
  cbn [for_range]. rewrite H1, H2, H3. cbn [access mbind outcome_bind].
  change ((1 =? 0) || (5 =? 0)) with false. change (is_extended 5) with true. cbv iota.
  specialize (IH (u64 (rc + 1))). by destruct (sector =? 0); rewrite IH.
Qed.

