(* ===== verification/Swap.v ===== *)
(** * The swap area (vm/swap.c)

    The swap table has one bit per sector of the swap device; a page takes
    eight of them.  [swap_sema] only serialises the accesses to the table, so
    each function is one step here.  A frame is the list of its 4096 bytes. *)

From S2P Require Import Prelude Bitmap Block.

Definition SECTORS_PER_PAGE : Z := 8.

Record swap (D : Type) := Swap { swap_table : bitmap; swap_device : block D }.
Global Arguments Swap {D} _ _.
Global Arguments swap_table {D} _.
Global Arguments swap_device {D} _.

(** The [i]-th sector of a frame: the 512 bytes at [frame_addr + 512 * i]. *)
Definition chunk (frame : list Z) (i : Z) : list Z := take 512 (drop (Z.to_nat (512 * i)) frame).

Section SwapArea.
Context {D : Type} (ops : block_operations D).

(** [malloc_ok] and [storage] are what malloc returns in [bitmap_create]. *)
Definition swap_init (dev : block D) (malloc_ok : bool) (storage : option (list Z))
    : outcome (option (swap D)) :=
  let* table := bitmap_create (block_size dev) malloc_ok storage in
  Ret (match table with Some b => Some (Swap b dev) | None => None end).

Definition swap_write (frame : list Z) (sw : swap D) : outcome (Z * swap D) :=
  let* (index, table) := bitmap_scan_and_flip (swap_table sw) 0 8 false in
  if index =? BITMAP_ERROR then Ret (index, Swap table (swap_device sw))
  else
    let* dev := for_range 8 0 (λ i dev, block_write ops dev (u32 (index + i)) (chunk frame i))
      (swap_device sw) in
    Ret (index, Swap table dev).

Definition swap_read (sector : Z) (sw : swap D) : outcome (list Z * swap D) :=
  let* table := bitmap_mark (swap_table sw) sector in
  let* (frame, dev) := for_range 8 0 (λ i (st : list Z * block D),
      let* (data, dev) := block_read ops st.2 (u32 (sector + i)) in Ret (st.1 ++ data, dev))
    ([], swap_device sw) in
  Ret (frame, Swap table dev).

Definition swap_remove (sector : Z) (sw : swap D) : outcome (swap D) :=
  let* table := bitmap_reset (swap_table sw) sector in
  Ret (Swap table (swap_device sw)).
End SwapArea.

(** ** The page stored at a sector *)

Lemma chunk_sector frame i : length frame = 4096%nat → 0 ≤ i < 8 → sector_data (chunk frame i).
Proof.
  intros Hl Hi. unfold sector_data, chunk, BLOCK_SECTOR_SIZE. rewrite length_take, length_drop. lia.
Qed.

Section SwapOk.
Context {D : Type} (ops : block_operations D) (ok : D → Prop) (size : Z).
Context (content : D → Z → list Z) `{!DriverOk ops ok size content}.
Notation block_ok := (block_ok ok size).
Notation block_content := (block_content content).

Record swap_ok (sw : swap D) : Prop := {
  so_table : bm_wf (swap_table sw);
  so_size : bit_cnt (swap_table sw) = size;
  so_device : block_ok (swap_device sw);
  so_small : size < SIZE_MAX
}.

(** The first [n] sectors of the page at sector [s], one after the other. *)
Fixpoint stored (b : block D) (s : Z) (n : nat) : list Z :=
  match n with O => [] | S n => stored b s n ++ block_content b (s + Z.of_nat n) end.

Lemma stored_ext b b' s n : (∀ i, 0 ≤ i < Z.of_nat n → block_content b' (s + i) = block_content b (s + i)) →
  stored b' s n = stored b s n.
Proof.
  induction n as [|n IH]; intros H; [done|]. simpl. rewrite H by lia. rewrite IH; [done|].
  intros i Hi. apply H. lia.
Qed.

Lemma stored_chunks b s frame n : (n ≤ 8)%nat → length frame = 4096%nat →
  (∀ i, 0 ≤ i < Z.of_nat n → block_content b (s + i) = chunk frame i) →
  stored b s n = take (512 * n) frame.
Proof.
  induction n as [|n IH]; intros Hn Hl H; [by rewrite Nat.mul_0_r|]. simpl stored.
  rewrite IH, H by (done || lia || (intros; apply H; lia)). unfold chunk.
  replace (512 * S n)%nat with (512 * n + 512)%nat by lia.
  rewrite <-(take_take_drop frame (512 * n) 512). do 3 f_equal. lia.
Qed.

Lemma swap_write_ok frame sw : swap_ok sw → length frame = 4096%nat →
  ∃ r sw', swap_write ops frame sw = Ret (r, sw') ∧ swap_ok sw' ∧
    ((r = BITMAP_ERROR ∧ sw' = sw ∧
      ∀ i, 0 ≤ i → i + 8 ≤ size → ¬ bm_run (swap_table sw) i 8 false) ∨
     (0 ≤ r ∧ r + 8 ≤ size ∧ bm_run (swap_table sw) r 8 false ∧
      (∀ j, 0 ≤ j → bm_test (swap_table sw') j =
        if decide (r ≤ j < r + 8) then true else bm_test (swap_table sw) j) ∧
      stored (swap_device sw') r 8 = frame ∧
      ∀ t, 0 ≤ t < size → t < r ∨ r + 8 ≤ t →
        block_content (swap_device sw') t = block_content (swap_device sw) t)).
Proof.
  intros [Hwf Hsz Hdev Hsm] Hl. unfold swap_write.
  destruct (bitmap_scan_and_flip_spec (swap_table sw) 0 8 false Hwf) as (r & b' & Hr & Hcase);
    [pose proof (wf_cnt _ Hwf); lia|lia|]. rewrite Hr. cbn [mbind outcome_bind].
  destruct Hcase as [(Hne & H0 & H8 & Hrun & _ & Hbec)|(-> & -> & Hno)].
  2: { rewrite Z.eqb_refl. exists BITMAP_ERROR, sw. split; [by destruct sw|]. split; [done|].
       left. split; [done|]. split; [done|]. intros i ? ?. apply Hno; lia. }
  apply Z.eqb_neq in Hne. rewrite Hne. unfold SIZE_MAX in Hsm.
  destruct (for_range_spec (λ n d, block_ok d ∧
      (∀ i, 0 ≤ i < n → block_content d (r + i) = chunk frame i) ∧
      ∀ t, 0 ≤ t < size → t < r ∨ r + n ≤ t → block_content d t = block_content (swap_device sw) t)
    (λ i dev, block_write ops dev (u32 (r + i)) (chunk frame i)) 8 0 (swap_device sw))
    as (d' & Hd' & Hok' & Hin & Hout).
  - split; [done|]. split; [lia|done].
  - intros j d Hj (Hok & Hin & Hout). rewrite u32_id by lia.
    destruct (block_write_ok ops ok size content d (r + j) (chunk frame j)) as (d1 & Hw & Hok1 & Hc);
      [done|lia|apply chunk_sector; [done|lia]|].
    exists d1. split; [done|]. split; [done|]. split.
    + intros i Hi. rewrite Hc by lia. case_decide; [f_equal; lia|]. apply Hin. lia.
    + intros t Ht Ho. rewrite Hc by done. rewrite decide_False by lia. apply Hout; lia.
  - rewrite Hd'. cbn [mbind outcome_bind]. exists r, (Swap b' d'). split; [done|]. split.
    + split; simpl; [apply Hbec|by rewrite (becomes_cnt _ _ _ Hbec)|done|done].
    + right. cbn [swap_table swap_device]. split; [done|]. split; [lia|]. split; [done|]. split; [apply Hbec|].
      split; [|intros t Ht Ho; apply Hout; lia].
      rewrite (stored_chunks _ _ frame) by (done || lia || (intros; apply Hin; lia)).
      by rewrite take_ge by lia.
Qed.

Lemma swap_read_ok s sw : swap_ok sw → 0 ≤ s → s + 8 ≤ size →
  ∃ sw', swap_read ops s sw = Ret (stored (swap_device sw) s 8, sw') ∧ swap_ok sw' ∧
    (∀ j, 0 ≤ j → bm_test (swap_table sw') j = if decide (j = s) then true else bm_test (swap_table sw) j) ∧
    ∀ t, 0 ≤ t < size → block_content (swap_device sw') t = block_content (swap_device sw) t.
Proof.
  intros [Hwf Hsz Hdev Hsm] Hs H8. unfold swap_read. unfold SIZE_MAX in Hsm.
  destruct (bitmap_mark_spec (swap_table sw) s Hwf) as (b' & -> & Hbec); [lia|]. cbn [mbind outcome_bind].
  destruct (for_range_spec (λ n st, block_ok st.2 ∧ st.1 = stored (swap_device sw) s (Z.to_nat n) ∧
      ∀ t, 0 ≤ t < size → block_content st.2 t = block_content (swap_device sw) t)
    (λ i (st : list Z * block D),
      let* (data, dev) := block_read ops st.2 (u32 (s + i)) in Ret (st.1 ++ data, dev))
    8 0 ([], swap_device sw)) as ([f d'] & Hd' & Hok' & Hf & Hc').
  - done.
  - intros j [f d] Hj (Hok & Hf & Hc). simpl in *. rewrite u32_id by lia.
    destruct (block_read_ok ops ok size content d (s + j)) as (d1 & -> & Hok1 & Hc1); [done|lia|].
    simpl. eexists. split; [done|]. simpl. split; [done|]. split.
    + replace (Z.to_nat (j + 1)) with (S (Z.to_nat j)) by lia. simpl.
      rewrite Hf, Hc by lia. do 2 f_equal. lia.
    + intros t Ht. rewrite Hc1 by done. by apply Hc.
  - rewrite Hd'. cbn [mbind outcome_bind]. simpl in Hf, Hok', Hc'. exists (Swap b' d').
    split; [by rewrite Hf|]. split; [|split; [apply Hbec|done]].
    split; simpl; [apply Hbec|by rewrite (becomes_cnt _ _ _ Hbec)|done|done].
Qed.

Lemma swap_remove_ok s sw : swap_ok sw → 0 ≤ s < size →
  ∃ sw', swap_remove s sw = Ret sw' ∧ swap_ok sw' ∧ swap_device sw' = swap_device sw ∧
    ∀ j, 0 ≤ j → bm_test (swap_table sw') j = if decide (j = s) then false else bm_test (swap_table sw) j.
Proof.
  intros [Hwf Hsz Hdev Hsm] Hs. unfold swap_remove.
  destruct (bitmap_reset_spec (swap_table sw) s Hwf) as (b' & -> & Hbec); [lia|]. simpl.
  eexists. split; [done|]. split; [|split; [done|apply Hbec]].
  split; simpl; [apply Hbec|by rewrite (becomes_cnt _ _ _ Hbec)|done|done].
Qed.
End SwapOk.

(** ** Properties *)

(** A swap device of 16 sectors, the first eight of them in use. *)
Definition demo_swap : swap (list (list Z)) :=
  Swap (Bitmap 16 [0xff]) (Block BLOCK_SWAP 16 (replicate 16 (replicate 512 1)) 0 0).
Definition demo_page : list Z := replicate 4096 5.

Lemma demo_swap_ok : swap_ok (ram_ok 16) 16 demo_swap.
Proof.
  split; [|done| |done].
  - split; [done|done|by repeat constructor].
  - split; [|done]. split; [done|]. by repeat constructor.
Defined.

(** C26. A page written to swap is read back unchanged from the sector that
    [swap_write] returned; writing it leaves every page whose eight sectors
    were already in use as it was; and a failed write means that no eight
    consecutive sectors were free and changes nothing. *)
Theorem swap_roundtrip {D} (ops : block_operations D) ok size content
    `{!DriverOk ops ok size content} sw frame :
  swap_ok ok size sw → length frame = 4096%nat →
  ∃ r sw', swap_write ops frame sw = Ret (r, sw') ∧ swap_ok ok size sw' ∧
    (r = BITMAP_ERROR → sw' = sw ∧
      ∀ i, 0 ≤ i → i + 8 ≤ size → ¬ bm_run (swap_table sw) i 8 false) ∧
    (r ≠ BITMAP_ERROR →
      (∃ sw'', swap_read ops r sw' = Ret (frame, sw'') ∧ swap_ok ok size sw'') ∧
      ∀ s, 0 ≤ s → s + 8 ≤ size → bm_run (swap_table sw) s 8 true →
        ∃ sw1 sw2, swap_read ops s sw = Ret (stored content (swap_device sw) s 8, sw1) ∧
          swap_read ops s sw' = Ret (stored content (swap_device sw) s 8, sw2)).
Proof.
  intros Hsw Hl. destruct (swap_write_ok ops ok size content frame sw Hsw Hl) as (r & sw' & Hw & Hsw' & Hcase).
  exists r, sw'. do 2 (split; [done|]).
  destruct Hcase as [(-> & -> & Hno)|(Hr & H8 & Hrun & Hb & Hst & Hout)]; [by split|].
  pose proof (so_small _ _ _ Hsw). split; [unfold BITMAP_ERROR; lia|]. intros _. split.
  - destruct (swap_read_ok ops ok size content r sw' Hsw' Hr H8) as (sw'' & Hrd & ? & _).
    rewrite Hst in Hrd. by exists sw''.
  - intros s Hs Hs8 Hused.
    destruct (swap_read_ok ops ok size content s sw Hsw Hs Hs8) as (sw1 & Hr1 & _).
    destruct (swap_read_ok ops ok size content s sw' Hsw' Hs Hs8) as (sw2 & Hr2 & _).
    exists sw1, sw2. split; [done|]. rewrite Hr2, (stored_ext content (swap_device sw)); [done|].
    intros i Hi. apply Hout; [lia|].
    destruct (decide (s + i < r ∨ r + 8 ≤ s + i)) as [|Hin]; [done|].
    pose proof (Hrun (s + i) ltac:(lia)). pose proof (Hused (s + i) ltac:(lia)). congruence.
Qed.

Lemma swap_roundtrip_witness :
  ∃ r sw', swap_write ram_ops demo_page demo_swap = Ret (r, sw') ∧ swap_ok (ram_ok 16) 16 sw' ∧
    (r = BITMAP_ERROR → sw' = demo_swap ∧
      ∀ i, 0 ≤ i → i + 8 ≤ 16 → ¬ bm_run (swap_table demo_swap) i 8 false) ∧
    (r ≠ BITMAP_ERROR →
      (∃ sw'', swap_read ram_ops r sw' = Ret (demo_page, sw'') ∧ swap_ok (ram_ok 16) 16 sw'') ∧
      ∀ s, 0 ≤ s → s + 8 ≤ 16 → bm_run (swap_table demo_swap) s 8 true →
        ∃ sw1 sw2, swap_read ram_ops s demo_swap = Ret (stored ram_content (swap_device demo_swap) s 8, sw1) ∧
          swap_read ram_ops s sw' = Ret (stored ram_content (swap_device demo_swap) s 8, sw2)).
Proof. apply (swap_roundtrip ram_ops); [apply _|exact demo_swap_ok|apply length_replicate]. Defined.


