(* ===== verification/Page.v ===== *)
(** * The supplemental page table (vm/page.c)

    A [struct spte] is an object on the heap; the table is a hash table of
    pointers to such objects, hashed and compared by the user address they
    hold.  The [struct spte] on the stack that a search uses as its key is an
    object at the address [probe], which is not on the heap.  Results of
    [malloc] are arguments.

    The theorems show that the table is a finite map from user pages to
    entries, and what [load_page] puts into a frame. *)

From S2P Require Import Prelude Hash Vaddr Bitmap Block Swap.

Definition FILE_SYS : Z := 3.
Definition SWAP_SYS : Z := 2.
Definition MEM_SYS : Z := 1.
Definition ZERO_SYS : Z := 0.

Record spte := Spte {
  writable : bool;
  location : Z;
  sector : Z;
  read_bytes : Z;
  vaddr : Z
}.

Record supdir := Supdir { sp_table : hash; sptes : gmap Z spte }.

(** [less_than] and [hash] of page.c on the elements of the heap. *)
Definition spte_vaddr (heap : gmap Z spte) (e : Z) : Z := from_option vaddr 0 (heap !! e).
Definition page_less (heap : gmap Z spte) (a b : Z) : bool := spte_vaddr heap a <? spte_vaddr heap b.
Definition page_hash (heap : gmap Z spte) (e : Z) : Z := hash_bytes (int_bytes (spte_vaddr heap e)).

Definition supdir_create (malloc_ok : bool) : option supdir :=
  match hash_init malloc_ok with Some h => Some (Supdir h ∅) | None => None end.

Section Operations.
Context (probe : Z).

Definition lookup_sup_page (sd : supdir) (va : Z) : outcome (option Z) :=
  let heap := <[probe := Spte false 0 0 0 va]> (sptes sd) in
  hash_find (page_hash heap) (page_less heap) (sp_table sd) probe.

Definition supdir_set_page (sd : supdir) (va sec rb loc : Z) (w : bool)
    (malloc : option Z) (rehash_ok : bool) : outcome (bool * supdir) :=
  let* found := lookup_sup_page sd va in
  match (match found with Some e => Some e | None => malloc end) with
  | None => Ret (false, sd)
  | Some e =>
      let heap := <[e := Spte w loc sec rb va]> (sptes sd) in
      let* (_, h) := hash_replace (page_hash heap) (page_less heap) (sp_table sd) e rehash_ok in
      Ret (true, Supdir h heap)
  end.

Definition supdir_set_swap (sd : supdir) (va swap_sector : Z) : outcome (bool * supdir) :=
  let* found := lookup_sup_page sd va in
  match found with
  | Some e =>
      let* p := access (sptes sd !! e) in
      Ret (true, Supdir (sp_table sd)
        (<[e := Spte (writable p) SWAP_SYS swap_sector PGSIZE (vaddr p)]> (sptes sd)))
  | None => Ret (false, sd)
  end.

Definition supdir_clear_page (sd : supdir) (upage : Z) (rehash_ok : bool) : outcome supdir :=
  let* _ := ASSERT (pg_ofs upage =? 0) in
  let* _ := ASSERT (is_user_vaddr upage) in
  let* found := lookup_sup_page sd upage in
  match found with
  | Some e =>
      let* (_, h) := hash_delete (page_hash (sptes sd)) (page_less (sptes sd)) (sp_table sd) e rehash_ok in
      Ret (Supdir h (delete e (sptes sd)))
  | None => Ret sd
  end.
End Operations.

(** ** The contents of a loaded page *)

Section Load.
Context {D : Type} (ops : block_operations D).

(** The loop of [load_page] over the sectors of a page of a file:
    [read_bytes], [sector], the offset [frame_ - frame], the frame and the
    device change. *)
Definition file_state : Type := Z * Z * Z * list Z * block D.

Definition load_file (fs : block D) (sec rb : Z) (frame : list Z) : outcome file_state :=
  while 9 (λ '(rb, _, _, _, _), Ret (0 <? rb))
    (λ '(rb, sec, pos, frame, dev),
      let* (data, dev) := block_read ops dev sec in
      let* frame := overwrite frame pos data in
      let pos := if BLOCK_SECTOR_SIZE <=? rb then pos + BLOCK_SECTOR_SIZE else pos + rb in
      Ret (rb - BLOCK_SECTOR_SIZE, u32 (sec + 1), pos, frame, dev))
    (rb, sec, 0, frame, fs).

(** What [load_page] does to the frame, from the entry of the page: file
    sectors, a page of the swap area, or nothing, and then zeros. *)
Definition load_contents (e : spte) (fs : block D) (sw : swap D) (frame : list Z)
    : outcome (list Z * block D * swap D) :=
  let zero_bytes := u32 (PGSIZE - read_bytes e) in
  let* (frame, pos, fs, sw) :=
    (if location e =? FILE_SYS then
       let* (rb, sec, pos, frame, fs) := load_file fs (sector e) (s32 (read_bytes e)) frame in
       Ret (frame, pos, fs, sw)
     else if location e =? SWAP_SYS then
       let* (data, sw) := swap_read ops (sector e) sw in
       let* frame := overwrite frame 0 data in
       Ret (frame, 0, fs, sw)
     else Ret (frame, 0, fs, sw)) in
  let* frame := (if 0 <? zero_bytes then overwrite frame pos (replicate (Z.to_nat zero_bytes) 0)
                 else Ret frame) in
  Ret (frame, fs, sw).
End Load.

(** ** The table as a map *)

#[global] Instance page_hash_key heap : HashKey (spte_vaddr heap) (page_hash heap) (page_less heap).
Proof.
  split.
  - intros a b E. unfold page_hash. by rewrite E.
  - intros e. apply hash_bytes_range. repeat constructor; by apply Z.mod_pos_bound.
  - intros a b. unfold page_less. rewrite !Z.ltb_ge. lia.
Qed.

(** The pointers in the table, by the address of their entry. *)
Record supdir_ptrs (sd : supdir) (pm : gmap Z Z) : Prop := {
  sp_repr : hash_repr (spte_vaddr (sptes sd)) (page_hash (sptes sd)) (sp_table sd) pm;
  sp_alive v p : pm !! v = Some p → is_Some (sptes sd !! p)
}.

(** The table holds the entries of [m]. *)
Definition supdir_repr (sd : supdir) (m : gmap Z spte) : Prop :=
  ∃ pm, supdir_ptrs sd pm ∧ ∀ v, m !! v = (p ← pm !! v; sptes sd !! p).

Section SupdirOk.
Context (probe : Z) (sd : supdir) (pm : gmap Z Z) (Hp : supdir_ptrs sd pm).
Context (Hprobe : sptes sd !! probe = None).

Lemma in_table p : p ∈ concat (buckets (sp_table sd)) → pm !! spte_vaddr (sptes sd) p = Some p.
Proof. intros Hin. by apply (repr_lookup _ _ _ _ _ _ (sp_repr _ _ Hp)). Qed.

Lemma ptr_key v p : pm !! v = Some p →
  p ∈ concat (buckets (sp_table sd)) ∧ spte_vaddr (sptes sd) p = v.
Proof. apply (repr_lookup _ _ _ _ _ _ (sp_repr _ _ Hp)). Qed.

Lemma in_table_alive p : p ∈ concat (buckets (sp_table sd)) → is_Some (sptes sd !! p).
Proof. intros Hin. eapply sp_alive; [done|by apply in_table]. Qed.

(** A heap that agrees with this one on the entries of the table. *)
Lemma repr_heap heap : (∀ p, p ∈ concat (buckets (sp_table sd)) →
    spte_vaddr heap p = spte_vaddr (sptes sd) p) →
  hash_repr (spte_vaddr heap) (page_hash heap) (sp_table sd) pm.
Proof.
  intros Hk. apply (hash_repr_ext (spte_vaddr (sptes sd)) _ (page_hash (sptes sd))); [|apply Hp].
  intros e He. unfold page_hash. by rewrite Hk.
Qed.

Lemma vaddr_insert p e q : spte_vaddr (<[p := e]> (sptes sd)) q =
  if decide (q = p) then vaddr e else spte_vaddr (sptes sd) q.
Proof.
  unfold spte_vaddr. case_decide as E; [by rewrite E, lookup_insert_eq|by rewrite lookup_insert_ne].
Qed.

Lemma lookup_sup_page_ok va : lookup_sup_page probe sd va = Ret (pm !! va).
Proof.
  unfold lookup_sup_page, hash_find. set (heap := <[_ := _]> _).
  rewrite (find_in_ok (spte_vaddr heap) (page_hash heap) (page_less heap) _ pm).
  - subst heap. rewrite vaddr_insert. by rewrite decide_True.
  - apply repr_heap. intros p Hin. subst heap. rewrite vaddr_insert.
    rewrite decide_False; [done|]. intros ->. destruct (in_table_alive _ Hin). congruence.
Qed.

Lemma supdir_set_page_ok va sec rb loc w malloc rehash_ok :
  Z.of_nat (size pm) < 2^32 - 1 →
  (∀ p, malloc = Some p → sptes sd !! p = None) →
  (pm !! va = None → malloc = None →
    supdir_set_page probe sd va sec rb loc w malloc rehash_ok = Ret (false, sd)) ∧
  (is_Some (pm !! va) ∨ is_Some malloc →
    ∃ p sd', supdir_set_page probe sd va sec rb loc w malloc rehash_ok = Ret (true, sd') ∧
      supdir_ptrs sd' (<[va := p]> pm) ∧ sptes sd' = <[p := Spte w loc sec rb va]> (sptes sd) ∧
      (∀ v, v ≠ va → pm !! v ≠ Some p) ∧ (pm !! va = Some p ∨ malloc = Some p)).
Proof.
  intros Hs Hm. unfold supdir_set_page. rewrite lookup_sup_page_ok. cbn [mbind outcome_bind].
  assert (∀ p, (pm !! va = Some p ∨ pm !! va = None ∧ malloc = Some p) →
    let heap := <[p := Spte w loc sec rb va]> (sptes sd) in
    ∃ sd', (let* (_, h) := hash_replace (page_hash heap) (page_less heap) (sp_table sd) p rehash_ok in
      Ret (true, Supdir h heap)) = Ret (true, sd') ∧ supdir_ptrs sd' (<[va := p]> pm) ∧
      sptes sd' = heap ∧ ∀ v, v ≠ va → pm !! v ≠ Some p) as Hset.
  { intros p Hpc heap.
    assert (∀ q, q ∈ concat (buckets (sp_table sd)) → spte_vaddr heap q = spte_vaddr (sptes sd) q) as Hk.
    { intros q Hq. subst heap. rewrite vaddr_insert. case_decide as E; [|done]. subst q. simpl.
      destruct Hpc as [Hpc|[_ Hpc]]; [by apply ptr_key in Hpc as [_ ?]|].
      destruct (in_table_alive _ Hq). by rewrite (Hm _ Hpc) in *. }
    assert (spte_vaddr heap p = va) as Hkp by (subst heap; rewrite vaddr_insert; by rewrite decide_True).
    destruct (hash_replace_ok (spte_vaddr heap) (page_hash heap) (page_less heap) (sp_table sd) pm p rehash_ok)
      as (h' & Hr & Hr'); [by apply repr_heap|done|]. rewrite Hkp in *.
    exists (Supdir h' heap). rewrite Hr. split; [done|]. split; [|split; [done|]].
    - split; simpl; [done|]. intros v q. rewrite lookup_insert_Some. intros [[-> ->]|[Hne Hq]].
      + subst heap. rewrite lookup_insert_eq. by eexists.
      + subst heap. rewrite lookup_insert_is_Some. right.
        split; [|by apply (sp_alive _ _ Hp v)]. intros ->. apply ptr_key in Hq as [Hin Hv].
        destruct Hpc as [Hpc|[_ Hpc]]; [apply ptr_key in Hpc as [_ ?]; congruence|].
        destruct (in_table_alive _ Hin). by rewrite (Hm _ Hpc) in *.
    - intros v Hne Hq. apply ptr_key in Hq as [Hin Hv].
      destruct Hpc as [Hpc|[_ Hpc]]; [apply ptr_key in Hpc as [_ ?]; congruence|].
      destruct (in_table_alive _ Hin). by rewrite (Hm _ Hpc) in *. }
  split; [by intros -> ->|]. intros Hsome. destruct (pm !! va) as [p|] eqn:Hva.
  - destruct (Hset p (or_introl eq_refl)) as (sd' & H1 & H2 & H3 & H4). exists p, sd'. do 4 (split; [done|]). by left.
  - destruct malloc as [p|]; [|by destruct Hsome as [[]|[]]].
    destruct (Hset p (or_intror (conj eq_refl eq_refl))) as (sd' & H1 & H2 & H3 & H4). exists p, sd'. do 4 (split; [done|]). by right.
Qed.

Lemma supdir_set_swap_ok va sec :
  match pm !! va with
  | None => supdir_set_swap probe sd va sec = Ret (false, sd)
  | Some p => ∃ e, sptes sd !! p = Some e ∧
      let heap := <[p := Spte (writable e) SWAP_SYS sec PGSIZE (vaddr e)]> (sptes sd) in
      supdir_set_swap probe sd va sec = Ret (true, Supdir (sp_table sd) heap) ∧
      supdir_ptrs (Supdir (sp_table sd) heap) pm
  end.
Proof.
  unfold supdir_set_swap. rewrite lookup_sup_page_ok. cbn [mbind outcome_bind].
  destruct (pm !! va) as [p|] eqn:Hva; [|done].
  destruct (sp_alive _ _ Hp _ _ Hva) as [e He]. exists e. split; [done|]. rewrite He. split; [done|].
  split; simpl.
  - apply repr_heap. intros q Hq. rewrite vaddr_insert. case_decide as E; [|done]. subst q.
    unfold spte_vaddr. by rewrite He.
  - intros v q Hq. rewrite lookup_insert_is_Some. destruct (decide (p = q)); [by left|right].
    split; [done|]. by apply (sp_alive _ _ Hp v).
Qed.

Lemma supdir_clear_page_ok va rehash_ok : 0 ≤ va < PHYS_BASE → va mod 4096 = 0 →
  Z.of_nat (size pm) < 2^32 →
  ∃ sd', supdir_clear_page probe sd va rehash_ok = Ret sd' ∧ supdir_ptrs sd' (delete va pm) ∧
    sptes sd' = match pm !! va with Some p => delete p (sptes sd) | None => sptes sd end.
Proof.
  intros Hu Ha Hs. unfold supdir_clear_page, is_user_vaddr. rewrite pg_ofs_mod, Ha.
  destruct (Z.ltb_spec va PHYS_BASE); [|lia]. cbn [ASSERT Z.eqb mbind outcome_bind].
  rewrite lookup_sup_page_ok. cbn [mbind outcome_bind]. destruct (pm !! va) as [p|] eqn:Hva.
  2: { exists sd. split; [done|]. split; [|done]. by rewrite delete_id. }
  destruct (ptr_key _ _ Hva) as [Hin Hk].
  destruct (hash_delete_ok (spte_vaddr (sptes sd)) (page_hash (sptes sd)) (page_less (sptes sd))
    (sp_table sd) pm p rehash_ok (sp_repr _ _ Hp) Hs) as (h' & Hd & Hr'). rewrite Hk in *.
  rewrite Hd. cbn [mbind outcome_bind]. eexists. split; [done|]. split; [|done].
  assert (∀ v q, delete va pm !! v = Some q → q ≠ p) as Hne.
  { intros v q [Hv Hq]%lookup_delete_Some ->. apply ptr_key in Hq as [_ ?]. congruence. }
  split; simpl.
  - apply (hash_repr_ext (spte_vaddr (sptes sd)) _ (page_hash (sptes sd))); [|done].
    intros e He. assert (e ≠ p) as Hep.
    { apply (Hne (spte_vaddr (sptes sd) e)). by apply (repr_lookup _ _ _ _ _ _ Hr'). }
    unfold page_hash, spte_vaddr. by rewrite lookup_delete_ne.
  - intros v q Hq. rewrite lookup_delete_ne by (symmetry; by eapply Hne).
    apply lookup_delete_Some in Hq as [_ Hq]. by apply (sp_alive _ _ Hp v).
Qed.
End SupdirOk.

(** ** Loading *)

Section LoadOk.
Context {D : Type} (ops : block_operations D) (ok : D → Prop) (size : Z).
Context (content : D → Z → list Z) `{!DriverOk ops ok size content}.
Notation block_ok := (block_ok ok size).
Notation stored := (stored content).

Lemma stored_length b s n : block_ok b → 0 ≤ s → s + Z.of_nat n ≤ size →
  length (stored b s n) = (512 * n)%nat.
Proof.
  intros Hb Hs. induction n as [|n IH]; intros Hn; [done|]. cbn [Swap.stored].
  rewrite length_app, IH, (block_sector ops ok size content) by (done || lia). lia.
Qed.

(** The sectors that hold the first [r] bytes of a page. *)
Definition file_sectors (r : Z) : Z := (r + 511) / 512.

(** After [k] sectors. *)
Definition loading (fs : block D) (s r : Z) (k : nat) (st : file_state (D := D)) : Prop :=
  let '(rb, sec, pos, frame, dev) := st in
  Z.of_nat k ≤ file_sectors r ∧ rb = r - 512 * Z.of_nat k ∧ sec = s + Z.of_nat k ∧
  pos = Z.min (512 * Z.of_nat k) r ∧ length frame = 4096%nat ∧ block_ok dev ∧
  (∀ t, 0 ≤ t < size → block_content content dev t = block_content content fs t) ∧
  take (512 * k) frame = stored fs s k.

Lemma load_file_ok fs s r frame : block_ok fs → 0 ≤ r ≤ 4096 → 0 ≤ s →
  s + file_sectors r ≤ size → size < 2^32 → length frame = 4096%nat →
  ∃ rb sec frame' dev, load_file ops fs s r frame = Ret (rb, sec, r, frame', dev) ∧
    length frame' = 4096%nat ∧ block_ok dev ∧
    (∀ t, 0 ≤ t < size → block_content content dev t = block_content content fs t) ∧
    take (Z.to_nat r) frame' = take (Z.to_nat r) (stored fs s (Z.to_nat (file_sectors r))).
Proof.
  intros Hfs Hr Hs Hsz Hlt Hl. unfold load_file.
  destruct (while_spec (λ st, ∃ k, loading fs s r k st)
    (λ st, Z.to_nat (file_sectors r - (st.1.1.1.2 - s)))
    (λ '(rb, _, _, _, _), Ret (0 <? rb))
    (λ '(rb, sec, pos, frame, dev),
      let* (data, dev) := block_read ops dev sec in
      let* frame := overwrite frame pos data in
      let pos := if BLOCK_SECTOR_SIZE <=? rb then pos + BLOCK_SECTOR_SIZE else pos + rb in
      Ret (rb - BLOCK_SECTOR_SIZE, u32 (sec + 1), pos, frame, dev)) 9 (r, s, 0, frame, fs))
    as ([[[[rb sec] pos] f'] dev] & Hw & [k Hk] & Hc).
  - intros [[[[rb sec] pos] f] dev] [k (Hkn & -> & -> & -> & Hlf & Hd & Hcd & Htk)].
    eexists. split; [done|]. intros Hpos. bool_prop. unfold file_sectors in *.
    destruct (block_read_ok ops ok size content dev (s + Z.of_nat k)) as (d1 & -> & Hd1 & Hc1); [done|div_lia|].
    cbn [mbind outcome_bind]. rewrite Hcd by div_lia.
    assert (length (block_content content fs (s + Z.of_nat k)) = 512%nat) as Hlen.
    { apply (block_sector ops ok size content); [done|div_lia]. }
    rewrite overwrite_ok by div_lia. cbn [mbind outcome_bind]. eexists. split; [done|].
    rewrite u32_id by div_lia. split.
    + exists (S k). unfold loading, file_sectors, BLOCK_SECTOR_SIZE. repeat split; try done; try div_lia.
      * destruct (Z.leb_spec 512 (r - 512 * Z.of_nat k)); lia.
      * rewrite length_overwritten; [done|]. lia.
      * apply Hd1.
      * apply Hd1.
      * apply Hd1.
      * intros t Ht. by rewrite Hc1, Hcd.
      * replace (Z.to_nat (Z.min (512 * Z.of_nat k) r)) with (512 * k)%nat by lia.
        cbn [Swap.stored]. rewrite Htk, app_assoc, take_app_le.
        -- rewrite take_ge; [done|]. rewrite length_app, Hlen, <-Htk, length_take. lia.
        -- rewrite length_app, Hlen, <-Htk, length_take. lia.
    + simpl. div_lia.
  - exists 0%nat. unfold loading. repeat split; try done; try apply Hfs; unfold file_sectors; try div_lia.
  - simpl. unfold file_sectors in *. div_lia.
  - destruct Hk as (Hkn & -> & -> & -> & Hlf & Hd & Hcd & Htk). unfold file_sectors in *.
    injection Hc as Hc. bool_prop.
    assert (Z.of_nat k = (r + 511) / 512) as Hkk by div_lia.
    exists (r - 512 * Z.of_nat k), (s + Z.of_nat k), f', dev.
    replace (Z.min (512 * Z.of_nat k) r) with r in Hw by div_lia. split; [exact Hw|].
    do 3 (split; [done|]). rewrite <-Hkk, Nat2Z.id, <-Htk, take_take. f_equal. lia.
Qed.

(** What the entry of a page says about its contents. *)
Definition page_contents (e : spte) (fs : block D) (sw : swap D) : list Z :=
  if location e =? FILE_SYS then
    take (Z.to_nat (read_bytes e)) (stored fs (sector e) (Z.to_nat (file_sectors (read_bytes e)))) ++
    replicate (Z.to_nat (4096 - read_bytes e)) 0
  else if location e =? SWAP_SYS then stored (swap_device sw) (sector e) 8
  else replicate 4096 0.

(** An entry that the kernel makes: part of a file, a page of the swap area,
    or a page of zeros. *)
Definition spte_ok (e : spte) : Prop :=
  0 ≤ sector e ∧
  ((location e = FILE_SYS ∧ 0 ≤ read_bytes e ≤ 4096 ∧ sector e + file_sectors (read_bytes e) ≤ size) ∨
   (location e = SWAP_SYS ∧ read_bytes e = 4096 ∧ sector e + 8 ≤ size) ∨
   (location e = ZERO_SYS ∧ read_bytes e = 0)).

Lemma zero_fill (f : list Z) r : length f = 4096%nat → 0 ≤ r ≤ 4096 →
  (if 0 <? u32 (PGSIZE - r) then overwrite f r (replicate (Z.to_nat (u32 (PGSIZE - r))) 0) else Ret f) =
  Ret (take (Z.to_nat r) f ++ replicate (Z.to_nat (4096 - r)) 0).
Proof.
  intros Hl Hr. change PGSIZE with 4096. rewrite u32_id by lia.
  destruct (Z.ltb_spec 0 (4096 - r)).
  - rewrite overwrite_ok by (rewrite ?length_replicate; lia). f_equal.
    rewrite length_replicate, drop_ge by lia. by rewrite app_nil_r.
  - replace r with 4096 by lia. rewrite take_ge by lia. by rewrite app_nil_r.
Qed.

Lemma load_contents_ok e fs sw frame : spte_ok e → size < SIZE_MAX → block_ok fs → swap_ok ok size sw →
  length frame = 4096%nat →
  ∃ fs' sw', load_contents ops e fs sw frame = Ret (page_contents e fs sw, fs', sw') ∧
    block_ok fs' ∧ swap_ok ok size sw' ∧
    (∀ t, 0 ≤ t < size → block_content content fs' t = block_content content fs t) ∧
    ∀ t, 0 ≤ t < size → block_content content (swap_device sw') t = block_content content (swap_device sw) t.
Proof.
  intros [Hs He] Hsz Hfs Hsw Hl. unfold SIZE_MAX in Hsz. unfold load_contents, page_contents.
  destruct He as [(-> & Hr & Hn)|[(-> & Hr & Hn)|(-> & Hr)]].
  - change (FILE_SYS =? FILE_SYS) with true. cbv iota. rewrite s32_id by lia.
    destruct (load_file_ok fs (sector e) (read_bytes e) frame) as (rb & sec & f' & dev & -> & Hlf & Hd & Hc & Ht);
      [done|done|done|done|lia|done|]. cbn [mbind outcome_bind]. rewrite zero_fill by done.
    cbn [mbind outcome_bind]. exists dev, sw. by rewrite Ht.
  - change (SWAP_SYS =? FILE_SYS) with false. change (SWAP_SYS =? SWAP_SYS) with true. cbv iota.
    destruct (swap_read_ok ops ok size content (sector e) sw Hsw Hs Hn) as (sw' & -> & Hsw' & _ & Hc).
    cbn [mbind outcome_bind].
    assert (length (stored (swap_device sw) (sector e) 8) = 4096%nat) as Hls.
    { apply stored_length; [apply Hsw|done|lia]. }
    rewrite overwrite_ok by lia. cbn [mbind outcome_bind]. rewrite Hr.
    change (0 <? u32 (PGSIZE - 4096)) with false. cbv iota. cbn [mbind outcome_bind].
    change (Z.to_nat 0) with 0%nat. rewrite take_0, drop_ge by lia. rewrite app_nil_r, app_nil_l.
    by exists fs, sw'.
  - change (ZERO_SYS =? FILE_SYS) with false. change (ZERO_SYS =? SWAP_SYS) with false. cbv iota.
    cbn [mbind outcome_bind]. rewrite Hr, zero_fill by (done || lia). cbn [mbind outcome_bind].
    change (Z.to_nat 0) with 0%nat. rewrite take_0, app_nil_l. by exists fs, sw.
Qed.
End LoadOk.

(** ** Properties *)

Lemma ptrs_size sd pm (m : gmap Z spte) :
  supdir_ptrs sd pm → (∀ v, m !! v = (p ← pm !! v; sptes sd !! p)) → size pm = size m.
Proof.
  intros Hp Hm. rewrite <-!size_dom. f_equal. apply set_eq. intros v. rewrite !elem_of_dom, Hm.
  destruct (pm !! v) as [p|] eqn:E; simpl; [|done]. pose proof (sp_alive _ _ Hp _ _ E). split; [done|].
  by eexists.
Qed.

Section Refine.
Context (probe va : Z) (sd : supdir) (pm : gmap Z Z) (m : gmap Z spte).
Context (Hp : supdir_ptrs sd pm) (Hm : ∀ v, m !! v = (p ← pm !! v; sptes sd !! p)).
Context (Hpr : sptes sd !! probe = None) (Hs : Z.of_nat (size m) < 2^32 - 1).

Lemma same_ptr v w p : pm !! v = Some p → pm !! w = Some p → v = w.
Proof. intros Hv Hw. apply (ptr_key sd pm Hp) in Hv as [_ <-], Hw as [_ <-]. done. Qed.

Lemma set_page_repr sec rb loc w malloc ok : (∀ p, malloc = Some p → sptes sd !! p = None) →
  is_Some malloc →
  ∃ sd', supdir_set_page probe sd va sec rb loc w malloc ok = Ret (true, sd') ∧
    supdir_repr sd' (<[va := Spte w loc sec rb va]> m) ∧
    ∀ q, sptes sd !! q = None → malloc ≠ Some q → sptes sd' !! q = None.
Proof.
  intros Hfr Hmal. pose proof (ptrs_size _ _ _ Hp Hm) as Hsz.
  destruct (supdir_set_page_ok probe sd pm Hp Hpr va sec rb loc w malloc ok) as [_ Hset]; [lia|done|].
  destruct Hset as (q & sd' & Hq & Hp' & Hheap & Hne & Hold); [by right|].
  exists sd'. split; [done|]. split.
  2:{ intros r Hr Hmr. rewrite Hheap, lookup_insert_ne; [done|]. intros ->. destruct Hold as [Hold|?]; [|done].
      destruct (sp_alive _ _ Hp va r Hold). congruence. }
  exists (<[va := q]> pm). split; [done|]. intros v. rewrite Hheap.
  destruct (decide (v = va)) as [->|Hv].
  { rewrite !lookup_insert_eq. simpl. by rewrite lookup_insert_eq. }
  rewrite !lookup_insert_ne, Hm by done. destruct (pm !! v) as [x|] eqn:E; [|done]. simpl.
  rewrite lookup_insert_ne; [done|]. intros ->. by apply (Hne v).
Qed.

Lemma set_swap_repr sec :
  ∃ sd', supdir_set_swap probe sd va sec = Ret (bool_decide (is_Some (m !! va)), sd') ∧
    supdir_repr sd' (alter (λ e, Spte (writable e) SWAP_SYS sec PGSIZE (vaddr e)) va m).
Proof.
  pose proof (supdir_set_swap_ok probe sd pm Hp Hpr va sec) as Hset.
  destruct (pm !! va) as [p|] eqn:E.
  - destruct Hset as (e & He & Hset & Hp'). eexists. split.
    { rewrite Hset. rewrite bool_decide_true; [done|]. rewrite Hm, E. simpl. by eexists. }
    exists pm. split; [done|]. intros v. simpl. destruct (decide (v = va)) as [->|Hv].
    + rewrite lookup_alter_eq, Hm, E. simpl. by rewrite He, lookup_insert_eq.
    + rewrite lookup_alter_ne, Hm by done. destruct (pm !! v) as [x|] eqn:Ex; [|done]. simpl.
      rewrite lookup_insert_ne; [done|]. intros ->. by apply Hv, (same_ptr v va x).
  - exists sd. split.
    { rewrite Hset. rewrite bool_decide_false; [done|]. rewrite Hm, E. by intros []. }
    exists pm. split; [done|]. intros v. rewrite <-Hm. destruct (decide (v = va)) as [->|].
    + by rewrite lookup_alter_eq, !Hm, E.
    + by rewrite lookup_alter_ne.
Qed.

Lemma clear_repr ok : 0 ≤ va < PHYS_BASE → va mod 4096 = 0 →
  ∃ sd', supdir_clear_page probe sd va ok = Ret sd' ∧ supdir_repr sd' (delete va m).
Proof.
  intros Hu Ha. pose proof (ptrs_size _ _ _ Hp Hm) as Hsz.
  destruct (supdir_clear_page_ok probe sd pm Hp Hpr va ok Hu Ha) as (sd' & Hc & Hp' & Hheap); [lia|].
  exists sd'. split; [done|]. exists (delete va pm). split; [done|]. intros v. rewrite Hheap.
  destruct (decide (v = va)) as [->|Hv]; [by rewrite !lookup_delete_eq|].
  rewrite !lookup_delete_ne, Hm by done. destruct (pm !! v) as [x|] eqn:Ex; [|done]. simpl.
  destruct (pm !! va) as [p|] eqn:E; [|done]. rewrite lookup_delete_ne; [done|].
  intros ->. by apply Hv, (same_ptr v va x).
Qed.
End Refine.

(** C18. The supplemental page table is a finite map from user pages to
    entries: a lookup finds the entry of the page or nothing, setting an entry
    creates or overwrites it, moving a page to swap changes only its entry's
    location, sector and size, and clearing a page removes its entry; the
    entries of all other pages stay. *)
Theorem supdir_refines_map probe sd m va :
  supdir_repr sd m → sptes sd !! probe = None → Z.of_nat (size m) < 2^32 - 1 →
  (∃ r, lookup_sup_page probe sd va = Ret r ∧ m !! va = (p ← r; sptes sd !! p)) ∧
  (∀ sec rb loc w p ok, sptes sd !! p = None →
    ∃ sd', supdir_set_page probe sd va sec rb loc w (Some p) ok = Ret (true, sd') ∧
      supdir_repr sd' (<[va := Spte w loc sec rb va]> m)) ∧
  (∀ sec, ∃ sd', supdir_set_swap probe sd va sec = Ret (bool_decide (is_Some (m !! va)), sd') ∧
      supdir_repr sd' (alter (λ e, Spte (writable e) SWAP_SYS sec PGSIZE (vaddr e)) va m)) ∧
  (∀ ok, 0 ≤ va < PHYS_BASE → va mod 4096 = 0 →
    ∃ sd', supdir_clear_page probe sd va ok = Ret sd' ∧ supdir_repr sd' (delete va m)).
Proof.
  intros (pm & Hp & Hm) Hpr Hs. split; [|split; [|split]].
  - exists (pm !! va). split; [by apply lookup_sup_page_ok|done].
  - intros sec rb loc w p ok Hfr. destruct (set_page_repr probe va sd pm m Hp Hm Hpr Hs sec rb loc w (Some p) ok) as (sd' & H1 & H2 & _); [|by eexists|by exists sd'].
    by intros ? [= <-].
  - apply (set_swap_repr probe va sd pm m Hp Hm Hpr).
  - apply (clear_repr probe va sd pm m Hp Hm Hpr Hs).
Qed.

(** An empty table, then one with the entry of page 0x8000. *)
Definition demo_supdir : supdir := Supdir (Hash 0 4 [[]; []; []; []]) ∅.

Lemma demo_supdir_repr : supdir_repr demo_supdir ∅.
Proof.
  exists ∅. split; [|done]. split; [|done].
  split; [apply (empty_placed _ 0 2); lia|by rewrite map_to_list_empty|done].
Defined.

Lemma supdir_refines_map_witness :
  (∃ r, lookup_sup_page 1 demo_supdir 0x8000 = Ret r ∧
    (∅ : gmap Z spte) !! 0x8000 = (p ← r; sptes demo_supdir !! p)) ∧
  (∀ sec rb loc w p ok, sptes demo_supdir !! p = None →
    ∃ sd', supdir_set_page 1 demo_supdir 0x8000 sec rb loc w (Some p) ok = Ret (true, sd') ∧
      supdir_repr sd' (<[0x8000 := Spte w loc sec rb 0x8000]> ∅)) ∧
  (∀ sec, ∃ sd', supdir_set_swap 1 demo_supdir 0x8000 sec =
      Ret (bool_decide (is_Some ((∅ : gmap Z spte) !! 0x8000)), sd') ∧
      supdir_repr sd' (alter (λ e, Spte (writable e) SWAP_SYS sec PGSIZE (vaddr e)) 0x8000 ∅)) ∧
  (∀ ok, 0 ≤ 0x8000 < PHYS_BASE → 0x8000 mod 4096 = 0 →
    ∃ sd', supdir_clear_page 1 demo_supdir 0x8000 ok = Ret sd' ∧ supdir_repr sd' (delete 0x8000 ∅)).
Proof. apply (supdir_refines_map 1 demo_supdir ∅ 0x8000); [exact demo_supdir_repr|done|done]. Defined.

(** Loading a page fills the whole frame with what its entry says,
    whatever the frame held before: the bytes of the file followed by zeros,
    the page of the swap area, or zeros only; and it changes the contents of
    neither device. *)
Theorem load_page_contents {D} (ops : block_operations D) ok size content
    `{!DriverOk ops ok size content} e fs sw frame :
  spte_ok size e → size < SIZE_MAX → block_ok ok size fs → swap_ok ok size sw →
  length frame = 4096%nat →
  ∃ fs' sw', load_contents ops e fs sw frame =
      Ret (if location e =? FILE_SYS then
             take (Z.to_nat (read_bytes e))
               (stored content fs (sector e) (Z.to_nat ((read_bytes e + 511) / 512))) ++
             replicate (Z.to_nat (4096 - read_bytes e)) 0
           else if location e =? SWAP_SYS then stored content (swap_device sw) (sector e) 8
           else replicate 4096 0, fs', sw') ∧
    (∀ t, 0 ≤ t < size → block_content content fs' t = block_content content fs t) ∧
    ∀ t, 0 ≤ t < size → block_content content (swap_device sw') t = block_content content (swap_device sw) t.
Proof.
  intros He Hs Hfs Hsw Hl.
  destruct (load_contents_ok ops ok size content e fs sw frame He Hs Hfs Hsw Hl)
    as (fs' & sw' & Hload & _ & _ & ? & ?).
  exists fs', sw'. by split.
Qed.

Lemma load_page_contents_witness :
  let e := Spte true FILE_SYS 3 700 0x8000 in
  let fs := Block BLOCK_FILESYS 16 (replicate 16 (replicate 512 7)) 0 0 in
  ∃ fs' sw', load_contents ram_ops e fs demo_swap demo_page =
      Ret (take 700 (stored ram_content fs 3 2) ++ replicate 3396 0, fs', sw') ∧
    (∀ t, 0 ≤ t < 16 → block_content ram_content fs' t = block_content ram_content fs t) ∧
    ∀ t, 0 ≤ t < 16 → block_content ram_content (swap_device sw') t =
      block_content ram_content (swap_device demo_swap) t.
Proof.
  apply (load_page_contents ram_ops (ram_ok 16) 16 ram_content (Spte true FILE_SYS 3 700 0x8000)).
  - split; [done|]. left. done.
  - done.
  - split; [|done]. split; [done|]. by repeat constructor.
  - exact demo_swap_ok.
  - apply length_replicate.
Defined.
