(* ===== verification/Frame.v ===== *)
(** * The frame table and demand paging (vm/frame.c, vm/page.c: load_page and
    supdir_destroy, userprog/exception.c: page_in and page_fault)

    The state is what these functions share: the page directories and
    supplemental tables of the threads, the machine's page tables, the
    contents of the frames, the two block devices and the frame table with its
    entries.  A pin semaphore is its value, 0 or 1; [ft_sema] only makes each
    function one step.  The running thread is the argument [cur]; what the
    allocators return is an argument too. *)

From S2P Require Import Prelude Bitmap Hash Vaddr Block Swap Page Pagedir.

Record ft_entry := Ft { f_thread : Z; f_vaddr : Z; f_pin : Z }.

Record vm (D : Type) := Vm {
  threads : gmap Z (supdir * Z);     (* supdir and pagedir of each thread *)
  mach : machine;
  frames : gmap Z (list Z);          (* contents of frames *)
  fs_device : block D;
  swap_area : swap D;
  ft : hash;
  fts : gmap Z ft_entry
}.
Global Arguments Vm {D} _ _ _ _ _ _ _.
Global Arguments threads {D} _.
Global Arguments mach {D} _.
Global Arguments frames {D} _.
Global Arguments fs_device {D} _.
Global Arguments swap_area {D} _.
Global Arguments ft {D} _.
Global Arguments fts {D} _.

(** The functions of the frame table on its entries. *)
Definition ft_vaddr (heap : gmap Z ft_entry) (e : Z) : Z := from_option f_vaddr 0 (heap !! e).
Definition ft_thread (heap : gmap Z ft_entry) (e : Z) : Z := from_option f_thread 0 (heap !! e).

(** The eight bytes of [identifier]: the thread, then the address. *)
Definition frame_hash (heap : gmap Z ft_entry) (e : Z) : Z :=
  hash_bytes (int_bytes (ft_thread heap e) ++ int_bytes (ft_vaddr heap e)).
Definition frame_less_than (heap : gmap Z ft_entry) (a b : Z) : bool :=
  (ft_vaddr heap a <? ft_vaddr heap b) && (ft_thread heap a <? ft_thread heap b).

(** What the allocators return during one call. *)
Record allocs := Allocs {
  a_page : option Z;         (* palloc_get_page in get_user_page *)
  a_entry : option Z;        (* malloc in get_user_page *)
  a_table : option Z;        (* palloc_get_page in lookup_page *)
  a_rehash : bool            (* malloc in rehash *)
}.

Inductive fault_result := Loaded | Killed.

Section Vm.
Context {D : Type} (ops : block_operations D).
Context (init_page_dir init_ram_pages : Z) (probe cur : Z).
Notation vm := (vm D).

Definition set_mach (s : vm) (m : machine) : vm :=
  Vm (threads s) m (frames s) (fs_device s) (swap_area s) (ft s) (fts s).
Definition set_frames (s : vm) (f : gmap Z (list Z)) : vm :=
  Vm (threads s) (mach s) f (fs_device s) (swap_area s) (ft s) (fts s).
Definition set_ft (s : vm) (h : hash) (heap : gmap Z ft_entry) : vm :=
  Vm (threads s) (mach s) (frames s) (fs_device s) (swap_area s) h heap.
Definition set_devices (s : vm) (fs : block D) (sw : swap D) : vm :=
  Vm (threads s) (mach s) (frames s) fs sw (ft s) (fts s).
Definition set_supdir (s : vm) (t : Z) (sd : supdir) : vm :=
  Vm (alter (λ p, (sd, p.2)) t (threads s)) (mach s) (frames s) (fs_device s) (swap_area s) (ft s) (fts s).

Definition on_mach {A} (c : cmd machine A) : cmd vm A := zoom mach set_mach c.
(** An operation on the frame table, with the functions of the current heap. *)
Definition on_ft (op : (Z → Z) → (Z → Z → bool) → hash → outcome (option Z * hash)) : cmd vm (option Z) := λ s,
  match op (frame_hash (fts s)) (frame_less_than (fts s)) (ft s) with
  | Ret (r, h) => Ret (r, set_ft s h (fts s))
  | Fail f => Fail f
  end.
Definition set_entry (e : Z) (en : ft_entry) : cmd vm unit :=
  modify (λ s, set_ft s (ft s) (<[e := en]> (fts s))).
Definition get_entry (e : Z) : cmd vm ft_entry :=
  let* s := get in lift (access (fts s !! e)).
Definition thread_of (t : Z) : cmd vm (supdir * Z) :=
  let* s := get in lift (access (threads s !! t)).

(** Pin semaphores. *)
Definition pin_try_down (e : Z) : cmd vm bool :=
  let* en := get_entry e in
  if 0 <? f_pin en then
    let* _ := set_entry e (Ft (f_thread en) (f_vaddr en) (f_pin en - 1)) in mret true
  else mret false.
Definition pin_up (e : Z) : cmd vm unit :=
  let* en := get_entry e in
  set_entry e (Ft (f_thread en) (f_vaddr en) (f_pin en + 1)).
(** Waiting on a pinned frame: the thread does not proceed in this step. *)
Definition pin_down (e : Z) : cmd vm unit :=
  let* ok := pin_try_down e in
  if ok : bool then mret () else lift (Fail Blocked).

Definition get_user_page (va : Z) (a : allocs) : cmd vm (option Z) :=
  match a_page a with
  | None => mret None
  | Some page =>
      let* _ := modify (λ s, set_frames s (<[page := replicate 4096 0]> (frames s))) in
      let* e := lift (access (a_entry a)) in
      let* _ := set_entry e (Ft cur va 1) in
      let* _ := on_ft (λ hf lt h, hash_replace hf lt h e (a_rehash a)) in
      mret (Some page)
  end.

(** The search for a victim: the first entry, in the order of the table,
    whose pin can be taken.  With every frame pinned the null pointer that
    ends the iteration is dereferenced. *)
Fixpoint find_victim (fuel : nat) (e : option Z) (it : hash_iterator) : cmd vm Z :=
  match fuel with
  | O => lift (Fail OutOfFuel)
  | S fuel =>
      let* entry := lift (access e) in
      let* ok := pin_try_down entry in
      if ok : bool then mret entry
      else
        let* s := get in
        let* (e, it) := lift (hash_next (ft s) it) in
        find_victim fuel e it
  end.

(** The middle of [evict_page]: write the victim's page to swap when it is
    dirty or came from there, and unmap it. *)
Definition save_page (victim old_addr : Z) : cmd vm (option Z) :=
  let* (sd, pd) := thread_of victim in
  let* frame_addr := on_mach (pagedir_get_page pd old_addr) in
  let* spte := lift (lookup_sup_page probe sd old_addr) in
  let* dirty := on_mach (pagedir_is_dirty pd old_addr) in
  let* to_swap :=
    (if dirty : bool then mret true
     else let* p := lift (access spte) in
          let* p := lift (access (sptes sd !! p)) in
          mret (location p =? SWAP_SYS)) in
  let* _ :=
    (if to_swap : bool then
       let* s := get in
       let* f := lift (access frame_addr) in
       let* data := lift (access (frames s !! f)) in
       let* (sector, sw) := lift (swap_write ops data (swap_area s)) in
       let* (_, sd') := lift (supdir_set_swap probe sd old_addr sector) in
       let* _ := modify (λ s, set_devices s (fs_device s) sw) in
       modify (λ s, set_supdir s victim sd')
     else mret ()) in
  let* _ := on_mach (pagedir_clear_page init_page_dir pd old_addr) in
  mret frame_addr.

(** The end of [evict_page]: [e] is the first element of the table, [entry]
    the victim's. *)
Definition reassign (e entry new_addr : Z) (rehash_ok : bool) : cmd vm unit :=
  let* _ := on_ft (λ hf lt h, hash_delete hf lt h e rehash_ok) in
  let* en := get_entry entry in
  let* _ := set_entry entry (Ft cur new_addr (f_pin en)) in
  let* _ := on_ft (λ hf lt h, hash_replace hf lt h e rehash_ok) in
  mret ().

Definition evict_page (new_addr : Z) (a : allocs) : cmd vm (option Z) :=
  let* s := get in
  let* (e, it) := lift (hash_next (ft s) hash_first) in
  let* entry := find_victim (S (length (concat (buckets (ft s))))) e it in
  let* en := get_entry entry in
  let* frame_addr := save_page (f_thread en) (f_vaddr en) in
  let* e := lift (access e) in
  let* _ := reassign e entry new_addr (a_rehash a) in
  mret frame_addr.

Definition find_frame (va : Z) : cmd vm (option Z) := λ s,
  let heap := <[probe := Ft cur va 0]> (fts s) in
  match hash_find (frame_hash heap) (frame_less_than heap) (ft s) probe with
  | Ret r => Ret (r, s) | Fail f => Fail f
  end.

Definition free_frame (va : Z) (rehash_ok : bool) : cmd vm unit :=
  let* found := find_frame va in
  match found with
  | Some e =>
      let* _ := on_ft (λ hf lt h, hash_delete hf lt h e rehash_ok) in
      modify (λ s, set_ft s (ft s) (delete e (fts s)))
  | None => mret ()
  end.

Definition set_pinned (va : Z) (set : bool) : cmd vm unit :=
  let* found := find_frame va in
  match found with
  | Some e =>
      if set then pin_down e
      else let* _ := pin_try_down e in pin_up e
  | None => mret ()
  end.

Definition load_page (vpage frame : Z) (a : allocs) : cmd vm bool :=
  let* (sd, pd) := thread_of cur in
  let* found := lift (lookup_sup_page probe sd vpage) in
  match found with
  | Some p =>
      let* e := lift (access (sptes sd !! p)) in
      let* s := get in
      let* old := lift (access (frames s !! frame)) in
      let* (data, fs, sw) := lift (load_contents ops e (fs_device s) (swap_area s) old) in
      let* _ := modify (λ s, set_devices (set_frames s (<[frame := data]> (frames s))) fs sw) in
      let* _ := on_mach (pagedir_set_page init_page_dir init_ram_pages pd vpage frame (writable e) (a_table a)) in
      mret true
  | None => mret false
  end.

(** [page_in]; [self_destruct] does not return. *)
Definition page_in (fault_addr : Z) (stack_page : bool) (a : allocs) : cmd vm fault_result :=
  let fault_page := Z.land fault_addr PTE_ADDR in
  let* (sd, pd) := thread_of cur in
  let* known := (if stack_page then mret true
                 else let* found := lift (lookup_sup_page probe sd fault_page) in
                      mret (match found with Some _ => true | None => false end)) in
  if negb known then mret Killed else
  let* frame := get_user_page fault_page a in
  let* frame := (match frame with Some f => mret (Some f) | None => evict_page fault_page a end) in
  match frame with
  | None => mret Killed
  | Some frame =>
      if stack_page then
        let* _ := modify (λ s, set_frames s (<[frame := replicate 4096 0]> (frames s))) in
        let* _ := on_mach (pagedir_set_page init_page_dir init_ram_pages pd fault_page frame true (a_table a)) in
        mret Loaded
      else
        let* _ := load_page fault_page frame a in
        let* _ := set_pinned fault_page false in
        mret Loaded
  end.

Definition PF_P : Z := 1.
Definition PF_U : Z := 4.

(** [page_fault]: [None] when the fault is not one of a user access to a page
    that is not present, and [kill] is called. *)
Definition page_fault (error_code fault_addr esp : Z) (a : allocs) : cmd vm (option fault_result) :=
  let not_present := Z.land error_code PF_P =? 0 in
  let user := negb (Z.land error_code PF_U =? 0) in
  if user && not_present then
    let stack_page := (fault_addr <? PHYS_BASE) && (u32 (esp - 32) <=? fault_addr) in
    let* r := page_in fault_addr stack_page a in mret (Some r)
  else mret None.

(** [supdir_destroy] of the running thread: the swap pages of entries that
    are not resident are given back. *)
Fixpoint destroy_entries (pd : Z) (sd : supdir) (es : list Z) : cmd vm unit :=
  match es with
  | [] => mret ()
  | p :: es =>
      let* e := lift (access (sptes sd !! p)) in
      let* pte := on_mach (lookup_page pd (vaddr e) false None) in
      let* _ :=
        (match pte with
         | Some pte =>
             let* w := on_mach (load32 pte) in
             if negb (has w PTE_P) && (location e =? SWAP_SYS) then
               let* s := get in
               let* sw := lift (swap_remove (sector e) (swap_area s)) in
               modify (λ s, set_devices s (fs_device s) sw)
             else mret ()
         | None => mret ()
         end) in
      destroy_entries pd sd es
  end.
Definition supdir_destroy (pd : Z) (sd : supdir) : cmd vm unit :=
  let* es := lift (iterate (S (length (concat (buckets (sp_table sd))))) (sp_table sd) hash_first) in
  destroy_entries pd sd es.
End Vm.

(** ** The frame table during a page-in *)

(** The table is structurally sound and all its entries are on the heap. *)
Definition ft_ok (heap : gmap Z ft_entry) (h : hash) : Prop :=
  table_wf (frame_hash heap) h ∧ ∀ e, e ∈ concat (buckets h) → is_Some (heap !! e).

Lemma frame_hash_insert heap e en x : x ≠ e → frame_hash (<[e := en]> heap) x = frame_hash heap x.
Proof. intros Hx. unfold frame_hash, ft_thread, ft_vaddr. by rewrite lookup_insert_ne. Qed.

Lemma ft_wf_insert heap h e en : ft_ok heap h → heap !! e = None →
  table_wf (frame_hash (<[e := en]> heap)) h ∧ e ∉ concat (buckets h).
Proof.
  intros [Hw Ha] He. assert (e ∉ concat (buckets h)) as Hn.
  { intros Hin. destruct (Ha e Hin). congruence. }
  split; [|done]. apply (table_wf_ext (frame_hash heap)); [|done].
  intros x Hx. apply frame_hash_insert. by intros ->.
Qed.

Section Frames.
Context {D : Type} (ops : block_operations D).
Context (init_page_dir init_ram_pages : Z) (probe cur : Z).
Notation vm := (vm D).

Lemma get_user_page_ok va a page e (s : vm) : a_page a = Some page → a_entry a = Some e →
  ft_ok (fts s) (ft s) → fts s !! e = None → elem_cnt (ft s) < 2^32 - 2 →
  ∃ h, get_user_page cur va a s = Ret (Some page,
      set_ft (set_frames s (<[page := replicate 4096 0]> (frames s))) h (<[e := Ft cur va 1]> (fts s))) ∧
    ft_ok (<[e := Ft cur va 1]> (fts s)) h.
Proof.
  intros Hpg He Hok Hfr Hsm. unfold get_user_page. rewrite Hpg, He.
  destruct (ft_wf_insert _ _ e (Ft cur va 1) Hok Hfr) as [Hw Hne].
  destruct (hash_replace_total (frame_hash (<[e := Ft cur va 1]> (fts s)))
    (frame_less_than (<[e := Ft cur va 1]> (fts s))) (ft s) e (a_rehash a) Hw Hne Hsm)
    as (r & h & Hr & Hw' & _ & Hsub).
  exists h. split.
  - set (s1 := set_frames s (<[page := replicate 4096 0]> (frames s))).
    cmd_step (eq_refl : modify (λ s : vm, set_frames s (<[page := replicate 4096 0]> (frames s))) s = Ret ((), s1)).
    cmd_step (eq_refl : lift (access (Some e)) s1 = Ret (e, s1)).
    cmd_step (eq_refl : set_entry e (Ft cur va 1) s1 = Ret ((), set_ft s1 (ft s1) (<[e := Ft cur va 1]> (fts s1)))).
    erewrite cstep; [|unfold on_ft; cbn [ft fts set_ft s1 set_frames]; rewrite Hr; reflexivity]. done.
  - split; [done|]. intros x Hx. destruct (Hsub x Hx) as [->|Hin].
    + rewrite lookup_insert_eq. by eexists.
    + rewrite lookup_insert_is_Some. destruct (decide (e = x)); [by left|right]. split; [done|].
      by apply Hok.
Qed.

Lemma find_frame_ok va (s : vm) : ft_ok (fts s) (ft s) → fts s !! probe = None →
  ∃ r, find_frame probe cur va s = Ret (r, s) ∧ ∀ x, r = Some x → is_Some (fts s !! x).
Proof.
  intros Hok Hpr. destruct (ft_wf_insert _ _ probe (Ft cur va 0) Hok Hpr) as [Hw _].
  unfold find_frame, hash_find.
  destruct (find_in_total (frame_hash (<[probe := Ft cur va 0]> (fts s)))
    (frame_less_than (<[probe := Ft cur va 0]> (fts s))) (ft s) probe (tw_placed _ _ Hw)) as (r & -> & Hr).
  exists r. split; [done|]. intros x Hx. by apply Hok, Hr.
Qed.

Lemma get_entry_ok x en (s : vm) : fts s !! x = Some en → get_entry x s = Ret (en, s).
Proof. intros Hx. unfold get_entry, mbind, cmd_bind, get. by rewrite Hx. Qed.

Lemma pin_try_down_ok x en (s : vm) : fts s !! x = Some en →
  pin_try_down x s = Ret (if 0 <? f_pin en
    then (true, set_ft s (ft s) (<[x := Ft (f_thread en) (f_vaddr en) (f_pin en - 1)]> (fts s)))
    else (false, s)).
Proof.
  intros Hx. unfold pin_try_down. cmd_step (get_entry_ok x en s Hx). by destruct (0 <? f_pin en).
Qed.

Lemma pin_up_ok x en (s : vm) : fts s !! x = Some en →
  pin_up x s = Ret ((), set_ft s (ft s) (<[x := Ft (f_thread en) (f_vaddr en) (f_pin en + 1)]> (fts s))).
Proof. intros Hx. unfold pin_up. by cmd_step (get_entry_ok x en s Hx). Qed.

(** Unpinning changes pin values and nothing else. *)
Lemma set_unpinned_ok va (s : vm) : ft_ok (fts s) (ft s) → fts s !! probe = None →
  ∃ heap, set_pinned probe cur va false s = Ret ((), set_ft s (ft s) heap).
Proof.
  intros Hok Hpr. destruct (find_frame_ok va s Hok Hpr) as (r & Hf & Hr). unfold set_pinned.
  cmd_step Hf. destruct r as [x|]; [|exists (fts s); by destruct s].
  destruct (Hr x eq_refl) as [en Hen].
  pose proof (pin_try_down_ok x en s Hen) as Htry. destruct (0 <? f_pin en); cmd_step Htry.
  - erewrite pin_up_ok by apply lookup_insert_eq. by eexists.
  - rewrite (pin_up_ok x en s Hen). by eexists.
Qed.

(** ** Loading and paging in *)

Context (ok : D → Prop) (size : Z) (content : D → Z → list Z) `{!DriverOk ops ok size content}.

(** A page of the running thread that is in its supplemental table but not
    mapped, and the resources to bring it in. *)
Record pageable (s : vm) (sd : supdir) (pd v : Z) (e : spte) (fr : Z) (a : allocs) : Prop := {
  pb_thread : threads s !! cur = Some (sd, pd);
  pb_entry : ∃ p, lookup_sup_page probe sd v = Ret (Some p) ∧ sptes sd !! p = Some e;
  pb_spte : spte_ok size e;
  pb_size : size < SIZE_MAX;
  pb_fs : block_ok ok size (fs_device s);
  pb_swap : swap_ok ok size (swap_area s);
  pb_pd : pd_wf (pages (mach s)) pd;
  pb_init : pd ≠ init_page_dir;
  pb_user : 0 ≤ v < PHYS_BASE;
  pb_aligned : v mod 4096 = 0;
  pb_frame : kernel_page fr;
  pb_ram : (fr - PHYS_BASE) / 4096 < init_ram_pages;
  pb_absent : has (pte_of (pages (mach s)) pd v) PTE_P = false;
  pb_table : ∃ t, a_table a = Some t ∧ fresh_page (pages (mach s)) pd t
}.

Lemma load_page_step s sd pd v e fr a old data fs' sw' : pageable s sd pd v e fr a → frames s !! fr = Some old →
  load_contents ops e (fs_device s) (swap_area s) old = Ret (data, fs', sw') →
  ∃ m', load_page ops init_page_dir init_ram_pages probe cur v fr a s =
      Ret (true, Vm (threads s) (with_pages (mach s) m') (<[fr := data]> (frames s)) fs' sw' (ft s) (fts s)) ∧
    entry_becomes (mach s) pd m' v (Z.lor (fr - PHYS_BASE) (user_flags (writable e))).
Proof.
  intros [Hth (p & Hlk & Hpe) Hsp Hsz Hfs Hsw Hpd Hin Hu Hal Hkf Hram Habs (t & Hat & Hft)] Hfr Hld.
  set (s1 := set_devices (set_frames s (<[fr := data]> (frames s))) fs' sw').
  destruct (set_page_ok init_page_dir init_ram_pages (mach s1) pd v fr (writable e) Hpd Hin Hu Hal Hkf Hram Habs (Some t))
    as [(m' & Hset & Hbec)|(? & _)]; [by intros ? [= <-]| |done].
  exists m'. split; [|done]. unfold load_page.
  assert (thread_of cur s = Ret ((sd, pd), s)) as Ht by (unfold thread_of, mbind, cmd_bind, get; by rewrite Hth).
  cmd_step Ht. rewrite Hlk. cmd_step (eq_refl : lift (Ret (Some p)) s = Ret (Some p, s)).
  rewrite Hpe. cmd_step (eq_refl : lift (access (Some e)) s = Ret (e, s)).
  cmd_step (eq_refl : get s = Ret (s, s)). rewrite Hfr. cmd_step (eq_refl : lift (access (Some old)) s = Ret (old, s)).
  rewrite Hld. erewrite cstep; [|reflexivity]. cbv beta iota.
  rewrite cmodify. fold s1. rewrite Hat.
  erewrite cstep; [|apply zoom_ok, Hset]. done.
Qed.

Lemma load_page_ok s sd pd v e fr a old : pageable s sd pd v e fr a →
  frames s !! fr = Some old → length old = 4096%nat →
  ∃ m' fs' sw', load_page ops init_page_dir init_ram_pages probe cur v fr a s =
      Ret (true, Vm (threads s) (with_pages (mach s) m')
        (<[fr := page_contents content e (fs_device s) (swap_area s)]> (frames s)) fs' sw' (ft s) (fts s)) ∧
    entry_becomes (mach s) pd m' v (Z.lor (fr - PHYS_BASE) (user_flags (writable e))).
Proof.
  intros Hpb Hfr Hlo.
  destruct (load_contents_ok ops ok size content e (fs_device s) (swap_area s) old) as (fs' & sw' & Hld & _); [apply Hpb..|done|].
  destruct (load_page_step s sd pd v e fr a old _ fs' sw' Hpb Hfr Hld) as (m' & ? & ?). by exists m', fs', sw'.
Qed.

Lemma page_in_ok s sd pd fa e fr a en : 0 ≤ fa < 2^32 →
  pageable s sd pd (Z.land fa PTE_ADDR) e fr a →
  ft_ok (fts s) (ft s) → elem_cnt (ft s) < 2^32 - 2 → a_page a = Some fr →
  a_entry a = Some en → fts s !! en = None → fts s !! probe = None → en ≠ probe →
  ∃ s' m', page_in ops init_page_dir init_ram_pages probe cur fa false a s = Ret (Loaded, s') ∧
    mach s' = with_pages (mach s) m' ∧
    entry_becomes (mach s) pd m' (Z.land fa PTE_ADDR) (Z.lor (fr - PHYS_BASE) (user_flags (writable e))) ∧
    frames s' = <[fr := page_contents content e (fs_device s) (swap_area s)]>
      (<[fr := replicate 4096 0]> (frames s)).
Proof.
  intros Hfa Hpb Hft Hsm Hap Hae Hen Hpr Hne. set (v := Z.land fa PTE_ADDR) in *.
  destruct (get_user_page_ok v a fr en s Hap Hae Hft Hen Hsm) as (h & Hgu & Hft').
  set (s1 := set_ft (set_frames s (<[fr := replicate 4096 0]> (frames s))) h (<[en := Ft cur v 1]> (fts s))) in *.
  assert (pageable s1 sd pd v e fr a) as Hpb1 by (destruct Hpb; by split).
  destruct (load_page_ok s1 sd pd v e fr a (replicate 4096 0) Hpb1) as (m' & fs' & sw' & Hld & Hbec);
    [apply lookup_insert_eq|apply length_replicate|].
  set (s2 := Vm _ _ _ _ _ _ _) in Hld.
  destruct (set_unpinned_ok v s2) as (heap & Hun); [done| |].
  { simpl. by rewrite lookup_insert_ne. }
  exists (set_ft s2 (ft s2) heap), m'. split; [|done].
  destruct (pb_entry _ _ _ _ _ _ _ Hpb) as (p & Hlk & _). unfold page_in. fold v.
  assert (thread_of cur s = Ret ((sd, pd), s)) as Ht.
  { unfold thread_of, mbind, cmd_bind, get. by rewrite (pb_thread _ _ _ _ _ _ _ Hpb). }
  cmd_step Ht. rewrite Hlk. rewrite (cstep _ _ s true s eq_refl). cbn [negb].
  cmd_step Hgu. cmd_step Hld. by cmd_step Hun.
Qed.

(** ** Evicting a dirty page *)

(** The first frame of the table is not pinned; it holds [data], the page
    [va] of thread [th], mapped, modified and known to its supplemental
    table. *)
Record evictable (s : vm) (e : Z) (en : ft_entry) (sd : supdir) (pd p f : Z) (sp : spte)
    (data : list Z) : Prop := {
  ev_first : ∃ it, hash_next (ft s) hash_first = Ret (Some e, it);
  ev_in : e ∈ concat (buckets (ft s));
  ev_entry : fts s !! e = Some en;
  ev_unpinned : 0 < f_pin en;
  ev_found : find_in (frame_hash (fts s)) (frame_less_than (fts s)) (ft s) e = Ret (Some e);
  ev_ft : ft_ok (fts s) (ft s);
  ev_thread : threads s !! f_thread en = Some (sd, pd);
  ev_sup : ∃ pm, supdir_ptrs sd pm ∧ pm !! f_vaddr en = Some p;
  ev_probe : sptes sd !! probe = None;
  ev_spte : sptes sd !! p = Some sp;
  ev_pd : pd_wf (pages (mach s)) pd;
  ev_user : 0 ≤ f_vaddr en < PHYS_BASE;
  ev_aligned : f_vaddr en mod 4096 = 0;
  ev_present : has (pte_of (pages (mach s)) pd (f_vaddr en)) PTE_P = true;
  ev_dirty : has (pte_of (pages (mach s)) pd (f_vaddr en)) PTE_D = true;
  ev_frame : pte_get_page (pte_of (pages (mach s)) pd (f_vaddr en)) = Ret f;
  ev_data : frames s !! f = Some data;
  ev_len : length data = 4096%nat;
  ev_swap : swap_ok ok size (swap_area s);
  ev_cr3 : ∃ active, kernel_page active ∧ cr3 (mach s) = active - PHYS_BASE
}.

(** The choice of the victim when the first frame is not pinned. *)
Lemma find_victim_first fuel e it en (s : vm) : fts s !! e = Some en → 0 < f_pin en →
  find_victim (S fuel) (Some e) it s =
    Ret (e, set_ft s (ft s) (<[e := Ft (f_thread en) (f_vaddr en) (f_pin en - 1)]> (fts s))).
Proof.
  intros He Hp. cbn [find_victim]. rewrite (clift _ e s). pose proof (pin_try_down_ok e en s He) as Htry.
  apply Z.ltb_lt in Hp. rewrite Hp in Htry. by cmd_step Htry.
Qed.

(** The exchange of the entry's owner in the frame table. *)
Lemma ft_exchange (heap : gmap Z ft_entry) h e en new_addr rok :
  table_wf (frame_hash heap) h → (∀ x, x ∈ concat (buckets h) → is_Some (heap !! x)) →
  e ∈ concat (buckets h) → heap !! e = Some en →
  find_in (frame_hash heap) (frame_less_than heap) h e = Ret (Some e) →
  let heap' := <[e := Ft cur new_addr (f_pin en)]> heap in
  ∃ h1 r h2, hash_delete (frame_hash heap) (frame_less_than heap) h e rok = Ret (Some e, h1) ∧
    hash_replace (frame_hash heap') (frame_less_than heap') h1 e rok = Ret (r, h2) ∧ ft_ok heap' h2.
Proof.
  intros Hw Ha Hin He Hf heap'.
  destruct (hash_delete_total (frame_hash heap) (frame_less_than heap) h e rok Hw Hin Hf)
    as (h1 & Hd & Hw1 & Hc1 & Hx1).
  assert (e ∉ concat (buckets h1)) as Hne by (rewrite Hx1; naive_solver).
  assert (table_wf (frame_hash heap') h1) as Hw1'.
  { apply (table_wf_ext (frame_hash heap)); [|done]. intros x Hx. apply frame_hash_insert. by intros ->. }
  destruct (hash_replace_total (frame_hash heap') (frame_less_than heap') h1 e rok Hw1' Hne)
    as (r & h2 & Hr & Hw2 & _ & Hx2); [pose proof (tw_small _ _ Hw); lia|].
  exists h1, r, h2. do 2 (split; [done|]). split; [done|]. intros x Hx.
  subst heap'. rewrite lookup_insert_is_Some. destruct (decide (e = x)) as [|Hex]; [by left|right].
  split; [done|]. destruct (Hx2 x Hx) as [->|Hx']; [done|]. apply Ha. by apply Hx1 in Hx' as [? _].
Qed.

Section Evict.
Context (s : vm) (e : Z) (en : ft_entry) (sd : supdir) (pd p f : Z) (sp : spte) (data : list Z).
Context (Hev : evictable s e en sd pd p f sp data).

(** Any state that differs from [s] in the frame table only. *)
Context (h' : hash) (heap' : gmap Z ft_entry).
Let t := set_ft s h' heap'.

Lemma save_frame : on_mach (pagedir_get_page pd (f_vaddr en)) t = Ret (Some f, t).
Proof.
  destruct Hev. unfold on_mach, zoom.
  destruct (pagedir_get_page_ok (mach t) pd ev_pd0 (f_vaddr en) ev_user0) as [_ Hget].
  specialize (Hget f ev_present0 ev_frame0). rewrite ev_aligned0, Z.add_0_r in Hget. by rewrite Hget.
Qed.

Lemma save_dirty : on_mach (pagedir_is_dirty pd (f_vaddr en)) t = Ret (true, t).
Proof.
  destruct Hev. unfold on_mach, zoom, pagedir_is_dirty.
  rewrite (test_flag_ok (mach t) pd ev_pd0 (f_vaddr en) PTE_D ev_user0).
  unfold t, set_ft. cbn [mach]. by rewrite ev_dirty0.
Qed.

Lemma save_page_ok : ∃ sec sw' m' r,
  let heap := <[p := Spte (writable sp) SWAP_SYS sec PGSIZE (vaddr sp)]> (sptes sd) in
  save_page ops init_page_dir probe (f_thread en) (f_vaddr en) t =
    Ret (Some f, set_mach (set_supdir (set_devices t (fs_device s) sw') (f_thread en) (Supdir (sp_table sd) heap))
      (Machine m' (cr3 (mach s)) r)) ∧
  has (pte_of m' pd (f_vaddr en)) PTE_P = false ∧ swap_ok ok size sw' ∧
  (sec ≠ BITMAP_ERROR → 0 ≤ sec ∧ sec + 8 ≤ size ∧ stored content (swap_device sw') sec 8 = data).
Proof.
  pose proof save_frame as Hf. pose proof save_dirty as Hd. destruct Hev.
  destruct (swap_write_ok ops ok size content data (swap_area s) ev_swap0 ev_len0)
    as (sec & sw' & Hsw & Hsw' & Hcase).
  destruct ev_sup0 as (pm & Hpm & Hpv).
  pose proof (lookup_sup_page_ok probe sd pm Hpm ev_probe0 (f_vaddr en)) as Hlk.
  pose proof (supdir_set_swap_ok probe sd pm Hpm ev_probe0 (f_vaddr en) sec) as Hss.
  rewrite Hpv in Hlk, Hss. destruct Hss as (sp' & Hsp' & Hss & _).
  rewrite ev_spte0 in Hsp'. injection Hsp' as <-.
  destruct ev_cr4 as (active & Hka & Hcr3).
  destruct (pagedir_clear_page_ok init_page_dir (mach s) pd active ev_pd0 Hka Hcr3 (f_vaddr en) ev_user0 ev_aligned0)
    as (m' & r & Hclr & [Hwm Hpte] & _).
  exists sec, sw', m', r. split; [|split; [|split; [done|]]].
  - unfold save_page.
    assert (thread_of (f_thread en) t = Ret ((sd, pd), t)) as Ht.
    { unfold thread_of. rewrite cget. change (threads t) with (threads s). by rewrite ev_thread0. }
    cmd_step Ht. cmd_step Hf. rewrite Hlk, (clift _ (Some p) t). cbv beta iota. cmd_step Hd.
    erewrite cstep.
    2: { rewrite cget. rewrite (clift _ f t). cbv beta.
         change (frames t) with (frames s). rewrite ev_data0, (clift _ data t). cbv beta.
         change (swap_area t) with (swap_area s). rewrite Hsw, (clift _ (sec, sw') t). cbv beta iota.
         rewrite Hss, (clift _ _ t). cbv beta iota. rewrite cmodify. reflexivity. }
    cbv beta. by erewrite cstep; [|apply zoom_ok, Hclr].
  - rewrite Hpte by done. rewrite decide_True by done.
    pose proof (pte_of_range (pages (mach s)) pd (f_vaddr en) ev_pd0 ev_user0).
    rewrite has_P, (clear_flag_testbit _ 0) by lia. apply andb_false_r.
  - intros Hne. destruct Hcase as [(? & _)|(? & ? & _ & _ & ? & _)]; done.
Qed.
End Evict.

Lemma same_owner heap e en x : heap !! e = Some en →
  let heap1 := <[e := Ft (f_thread en) (f_vaddr en) (f_pin en - 1)]> heap in
  ft_thread heap1 x = ft_thread heap x ∧ ft_vaddr heap1 x = ft_vaddr heap x.
Proof.
  intros He heap1. subst heap1. unfold ft_thread, ft_vaddr.
  destruct (decide (x = e)) as [->|]; [by rewrite lookup_insert_eq, He|by rewrite lookup_insert_ne].
Qed.

Lemma reassign_ok (s : vm) e en new_addr rok : ft_ok (fts s) (ft s) → e ∈ concat (buckets (ft s)) →
  fts s !! e = Some en →
  find_in (frame_hash (fts s)) (frame_less_than (fts s)) (ft s) e = Ret (Some e) →
  ∃ h, let heap := <[e := Ft cur new_addr (f_pin en)]> (fts s) in
    reassign cur e e new_addr rok s = Ret ((), set_ft s h heap) ∧ ft_ok heap h.
Proof.
  intros [Hw Ha] Hin He Hf.
  destruct (ft_exchange (fts s) (ft s) e en new_addr rok Hw Ha Hin He Hf) as (h1 & r & h2 & Hd & Hr & Hok).
  exists h2. split; [|done]. unfold reassign.
  erewrite cstep; [|unfold on_ft; rewrite Hd; reflexivity]. cbv beta.
  erewrite cstep; [|apply get_entry_ok; exact He]. cbv beta.
  unfold set_entry. rewrite cmodify. cbn [ft fts set_ft].
  erewrite cstep; [|unfold on_ft; cbn [ft fts set_ft]; rewrite Hr; reflexivity]. done.
Qed.

Lemma evict_ok s e en sd pd p f sp data new_addr a : evictable s e en sd pd p f sp data →
  ∃ s' sec, evict_page ops init_page_dir probe cur new_addr a s = Ret (Some f, s') ∧
    threads s' !! f_thread en = Some (Supdir (sp_table sd)
      (<[p := Spte (writable sp) SWAP_SYS sec PGSIZE (vaddr sp)]> (sptes sd)), pd) ∧
    has (pte_of (pages (mach s')) pd (f_vaddr en)) PTE_P = false ∧
    swap_ok ok size (swap_area s') ∧
    (sec ≠ BITMAP_ERROR → 0 ≤ sec ∧ sec + 8 ≤ size ∧ stored content (swap_device (swap_area s')) sec 8 = data) ∧
    frames s' = frames s ∧ ft_ok (fts s') (ft s') ∧
    fts s' !! e = Some (Ft cur new_addr (f_pin en - 1)).
Proof.
  intros Hev. set (heap1 := <[e := Ft (f_thread en) (f_vaddr en) (f_pin en - 1)]> (fts s)).
  destruct (save_page_ok s e en sd pd p f sp data Hev (ft s) heap1) as (sec & sw' & m' & r & Hsv & Hpte & Hsw & Hst).
  destruct Hev. destruct ev_first0 as [it Hit].
  assert (∀ x, frame_hash heap1 x = frame_hash (fts s) x) as Hfh.
  { intros x. unfold frame_hash, heap1. by destruct (same_owner (fts s) e en x ev_entry0) as [-> ->]. }
  assert (∀ x y, frame_less_than heap1 x y = frame_less_than (fts s) x y) as Hfl.
  { intros x y. unfold frame_less_than, heap1. destruct (same_owner (fts s) e en x ev_entry0) as [-> ->].
    by destruct (same_owner (fts s) e en y ev_entry0) as [-> ->]. }
  assert (ft_ok heap1 (ft s)) as Hok1.
  { destruct ev_ft0 as [Hw Ha]. split; [apply (table_wf_ext (frame_hash (fts s))); [|done]; intros; apply Hfh|].
    intros x Hx. subst heap1. rewrite lookup_insert_is_Some'. right. by apply Ha. }
  set (s2 := set_mach _ _) in Hsv.
  destruct (reassign_ok s2 e (Ft (f_thread en) (f_vaddr en) (f_pin en - 1)) new_addr (a_rehash a))
    as (h & Hre & Hok2).
  { exact Hok1. } { done. } { apply lookup_insert_eq. }
  { cbn [s2 set_mach set_supdir set_devices set_ft ft fts]. rewrite (find_in_ext (frame_hash (fts s)) _ (frame_less_than (fts s))); done. }
  eexists _, sec. split.
  - unfold evict_page. rewrite cget, Hit, (clift _ (Some e, it) s). cbv beta iota.
    cmd_step (find_victim_first (length (concat (buckets (ft s)))) e it en s ev_entry0 ev_unpinned0).
    erewrite cstep; [|apply get_entry_ok, lookup_insert_eq]. cbn [f_thread f_vaddr].
    erewrite cstep; [|exact Hsv]. cbv beta.
    rewrite (clift _ e s2 : mbind _ (lift (access (Some e))) _ = _). erewrite cstep; [|exact Hre]. reflexivity.
  - cbn [s2 set_mach set_supdir set_devices set_ft ft fts threads mach swap_area frames pages f_pin f_thread] in *.
    split; [by rewrite lookup_alter_eq, ev_thread0|]. do 5 (split; [done|]). apply lookup_insert_eq.
Qed.
End Frames.

(** ** Properties *)

(** Thread 7 has one page, 0x8000, whose entry is at 50; the frame table has
    one entry, at 60. *)
Definition demo_sd (loc sec rb : Z) : supdir :=
  Supdir (Hash 1 4 [[]; [50]; []; []]) {[50 := Spte true loc sec rb 0x8000]}.
Definition demo_fs : block (list (list Z)) :=
  Block BLOCK_FILESYS 16 (replicate 16 (replicate 512 7)) 0 0.
Definition demo_vm (m : memory) (h : hash) (heap : gmap Z ft_entry) (sd : supdir) : vm (list (list Z)) :=
  Vm {[7 := (sd, demo_dir)]} (demo_machine m) {[demo_frame := demo_page]} demo_fs demo_swap h heap.
Definition empty_ft : hash := Hash 0 4 [[]; []; []; []].
Definition one_ft : hash := Hash 1 4 [[60]; []; []; []].
Definition one_fts : gmap Z ft_entry := {[60 := Ft 7 0x8000 1]}.
Definition demo_allocs : allocs := Allocs (Some 0xc0004000) (Some 61) (Some demo_pt) true.

Lemma demo_sd_ptrs loc sec rb : supdir_ptrs (demo_sd loc sec rb) {[0x8000 := 50]}.
Proof.
  split.
  - split; [|by rewrite map_to_list_singleton|done]. split; [done|by exists 2|].
    intros i b e Hb He. destruct i as [|[|[|[|i]]]]; simpl in Hb; simplify_eq;
      try (by apply elem_of_nil in He). apply list_elem_of_singleton in He as ->. by vm_compute.
  - intros v p [<- <-]%lookup_singleton_Some. by eexists.
Defined.

Lemma empty_ft_ok : ft_ok ∅ empty_ft.
Proof.
  split; [|by intros e ?%elem_of_nil].
  split; [apply (empty_placed _ 0 2); lia|done|apply NoDup_nil_2|done].
Defined.

Lemma one_ft_ok : ft_ok one_fts one_ft.
Proof.
  split.
  - split; [|done|by apply NoDup_singleton|done]. split; [done|by exists 2|].
    intros i b e Hb He. destruct i as [|[|[|[|i]]]]; simpl in Hb; simplify_eq;
      try (by apply elem_of_nil in He). apply list_elem_of_singleton in He as ->. by vm_compute.
  - intros e ->%list_elem_of_singleton. by eexists.
Defined.





#[local] Opaque hash_replace.

Lemma get_user_page_frame {D} cur va a fr (s s1 : vm D) r : a_page a = Some fr →
  get_user_page cur va a s = Ret (r, s1) → r = Some fr ∧ swap_area s1 = swap_area s.
Proof.
  intros Ha Hg. unfold get_user_page in Hg. rewrite Ha, cmodify in Hg.
  destruct (a_entry a) as [en|]; [|done]. rewrite (clift _ en _ : mbind _ (lift (access (Some en))) _ = _) in Hg.
  cbv beta in Hg. unfold set_entry in Hg. rewrite cmodify in Hg.
  apply cmd_bind_Ret in Hg as (o & t & Hft & Hret). injection Hret as <- <-. split; [done|].
  unfold on_ft in Hft. destruct (hash_replace _ _ _ _ _) as [[o' h]|]; [|done]. by injection Hft as _ <-.
Qed.



(** Two frames of different threads and different pages. *)
Definition two_fts : gmap Z ft_entry :=
  {[60 := Ft 0xc010b000 0x8048000 1; 61 := Ft 0xc010a000 0x8049000 1]}.

(** [frame_less_than] is not an order on the frames: of two entries with
    different threads and different pages neither precedes the other, so the
    frame table takes them for the same frame, and registering the second one
    silently removes the first, whose page stays in memory without an entry. *)
Theorem frame_entry_lost :
  frame_less_than two_fts 60 61 = false ∧ frame_less_than two_fts 61 60 = false ∧
  ∃ h1 h2, hash_replace (frame_hash two_fts) (frame_less_than two_fts) empty_ft 60 true = Ret (None, h1) ∧
    hash_replace (frame_hash two_fts) (frame_less_than two_fts) h1 61 true = Ret (Some 60, h2) ∧
    concat (buckets h2) = [61] ∧ hash_size h2 = 1.
Proof.
  do 2 (split; [by vm_compute|]). eexists _, _. split; [vm_compute; reflexivity|].
  split; [vm_compute; reflexivity|]. done.
Qed.

(** The first frame of the table pinned, the second one not. *)
Definition pinned_ft : hash := Hash 2 4 [[59; 60]; []; []; []].
Definition pinned_fts : gmap Z ft_entry := {[59 := Ft 3 0x7000 0; 60 := Ft 7 0x8000 1]}.
Definition pinned_vm : vm (list (list Z)) :=
  demo_vm demo_mapped pinned_ft pinned_fts (demo_sd FILE_SYS 3 700).

Lemma pinned_ft_ok : ft_ok pinned_fts pinned_ft.
Proof.
  assert (∀ e, e ∈ [59; 60] → e = 59 ∨ e = 60) as Hc.
  { intros e. rewrite !elem_of_cons, elem_of_nil. tauto. }
  split.
  - split; [|done|apply (bool_decide_unpack _); by vm_compute|done]. split; [done|by exists 2|].
    intros i b e Hb He. destruct i as [|[|[|[|i]]]]; simpl in Hb; simplify_eq;
      try (by apply elem_of_nil in He). destruct (Hc e He) as [-> | ->]; by vm_compute.
  - intros e [-> | ->]%Hc; by eexists.
Defined.

(** When the first frame of the table is pinned, [evict_page] takes
    another one but deletes and re-inserts the first: the victim's entry gets a
    new thread and page while it stays in the bucket of the old ones, and a
    search for the new owner of the frame does not find it. *)
Theorem evict_misplaces_entry :
  ft_ok (fts pinned_vm) (ft pinned_vm) ∧
  ∃ r, evict_page ram_ops 0 1 9 0x9000 demo_allocs pinned_vm = Ret r ∧ r.1 = Some demo_frame ∧
    fts r.2 !! 60 = Some (Ft 9 0x9000 0) ∧ concat (buckets (ft r.2)) = [59; 60] ∧
    find_frame 1 9 0x9000 r.2 = Ret (None, r.2).
Proof.
  split; [exact pinned_ft_ok|].
  destruct (evict_page ram_ops 0 1 9 0x9000 demo_allocs pinned_vm) as [r|] eqn:E; vm_compute in E; [|done].
  injection E as <-. eexists. split; [done|]. by vm_compute.
Qed.
