(* ===== verification/Palloc.v ===== *)
(** * The page allocator (threads/palloc.c)

    Two pools, each with the bitmap of its used pages and its base address.
    The contents of pages are kept for the effects of PAL_ZERO and of freeing.
    The pool locks make each operation one step. *)

From S2P Require Import Prelude Bitmap Vaddr.

Definition PAL_ASSERT : Z := 1.
Definition PAL_ZERO : Z := 2.
Definition PAL_USER : Z := 4.

Record pool := Pool { used_map : bitmap; base : Z }.

Record palloc := Palloc {
  kernel_pool : pool;
  user_pool : pool;
  contents : gmap Z (list Z)      (* bytes of each page *)
}.

(** [memset] of [n] pages from [p] on. *)
Fixpoint fill_pages (n : nat) (p v : Z) (c : gmap Z (list Z)) : gmap Z (list Z) :=
  match n with
  | O => c
  | S n => fill_pages n (p + PGSIZE) v (<[p := replicate 4096 v]> c)
  end.

Definition with_pool (st : palloc) (user : bool) (p : pool) (c : gmap Z (list Z)) : palloc :=
  if user then Palloc (kernel_pool st) p c else Palloc p (user_pool st) c.
Definition get_pool (st : palloc) (user : bool) : pool :=
  if user then user_pool st else kernel_pool st.

(** [init_pool]; [mem] gives the words of memory from before, the bits of the
    map start 8 bytes into the pool. *)
Definition init_pool (base page_cnt : Z) (mem : Z → Z) : outcome pool :=
  let bm_pages := DIV_ROUND_UP (bitmap_buf_size page_cnt) PGSIZE in
  if page_cnt <? bm_pages then Fail Panicked else
  let page_cnt := page_cnt - bm_pages in
  let words := map (λ i, mem (base + 8 + 4 * i)) (seqZ 0 (elem_cnt page_cnt)) in
  let* b := bitmap_create_in_buf page_cnt words (bm_pages * PGSIZE) in
  Ret (Pool b (base + bm_pages * PGSIZE)).

Definition palloc_init (init_ram_pages user_page_limit : Z) (mem : Z → Z)
    (c : gmap Z (list Z)) : outcome palloc :=
  let* free_start := ptov (1024 * 1024) in
  let* free_end := ptov (u32 (init_ram_pages * PGSIZE)) in
  let free_pages := u32 (Z.quot (free_end - free_start) PGSIZE) in
  let user_pages := free_pages / 2 in
  let user_pages := if user_page_limit <? user_pages then user_page_limit else user_pages in
  let kernel_pages := free_pages - user_pages in
  let* k := init_pool free_start kernel_pages mem in
  let* u := init_pool (free_start + kernel_pages * PGSIZE) user_pages mem in
  Ret (Palloc k u c).

Definition palloc_get_multiple (flags page_cnt : Z) (st : palloc) : outcome (option Z * palloc) :=
  let user := negb (Z.land flags PAL_USER =? 0) in
  let p := get_pool st user in
  if page_cnt =? 0 then Ret (None, st) else
  let* (page_idx, b) := bitmap_scan_and_flip (used_map p) 0 page_cnt false in
  if negb (page_idx =? BITMAP_ERROR) then
    let pages := base p + PGSIZE * page_idx in
    let c := if negb (Z.land flags PAL_ZERO =? 0)
             then fill_pages (Z.to_nat page_cnt) pages 0 (contents st) else contents st in
    Ret (Some pages, with_pool st user (Pool b (base p)) c)
  else if negb (Z.land flags PAL_ASSERT =? 0) then Fail Panicked
  else Ret (None, with_pool st user (Pool b (base p)) (contents st)).

Definition palloc_get_page (flags : Z) (st : palloc) : outcome (option Z * palloc) :=
  palloc_get_multiple flags 1 st.

Definition page_from_pool (p : pool) (page : Z) : bool :=
  let page_no := pg_no page in
  let start_page := pg_no (base p) in
  let end_page := start_page + bitmap_size (used_map p) in
  (start_page <=? page_no) && (page_no <? end_page).

Definition palloc_free_multiple (pages page_cnt : Z) (st : palloc) : outcome palloc :=
  let* _ := ASSERT (pg_ofs pages =? 0) in
  if (pages =? 0) || (page_cnt =? 0) then Ret st else
  let* user := (if page_from_pool (kernel_pool st) pages then Ret false
                else if page_from_pool (user_pool st) pages then Ret true
                else Fail Panicked) in
  let p := get_pool st user in
  let page_idx := pg_no pages - pg_no (base p) in
  let c := fill_pages (Z.to_nat page_cnt) pages 0xcc (contents st) in
  let* all := bitmap_all (used_map p) page_idx page_cnt in
  let* _ := ASSERT all in
  let* b := bitmap_set_multiple (used_map p) page_idx page_cnt false in
  Ret (with_pool st user (Pool b (base p)) c).

Definition palloc_free_page (page : Z) (st : palloc) : outcome palloc :=
  palloc_free_multiple page 1 st.

(** ** Invariant *)

Definition pool_size (p : pool) : Z := bit_cnt (used_map p).
Definition pool_end (p : pool) : Z := base p + 4096 * pool_size p.

Record pool_ok (p : pool) : Prop := {
  po_map : bm_wf (used_map p);
  po_base : 0 < base p ∧ base p mod 4096 = 0;
  po_end : pool_end p ≤ 2^32
}.

Record palloc_ok (st : palloc) : Prop := {
  pa_kernel : pool_ok (kernel_pool st);
  pa_user : pool_ok (user_pool st);
  pa_disjoint : pool_end (kernel_pool st) ≤ base (user_pool st)
}.

(** Page [a] belongs to one of the pools and is handed out. *)
Definition in_pool (p : pool) (a : Z) : Prop := base p ≤ a < pool_end p.
Definition page_used (st : palloc) (user : bool) (i : Z) : bool :=
  bm_test (used_map (get_pool st user)) i.

Lemma get_pool_ok st user : palloc_ok st → pool_ok (get_pool st user).
Proof. intros H. destruct user; apply H. Qed.

Lemma pool_index p i : pool_ok p → 0 ≤ i → pg_no (base p + 4096 * i) - pg_no (base p) = i.
Proof. intros [_ [_ Hb] _] Hi. rewrite !pg_no_div. div_lia. Qed.

Lemma page_from_pool_ok p i : pool_ok p → 0 ≤ i < pool_size p →
  page_from_pool p (base p + 4096 * i) = true.
Proof.
  intros Hp Hi. unfold page_from_pool, bitmap_size. pose proof (pool_index p i Hp).
  unfold pool_size in Hi. apply andb_true_iff. split; [apply Z.leb_le|apply Z.ltb_lt]; lia.
Qed.

Lemma page_not_from_pool p a : pool_ok p → pool_end p ≤ a → page_from_pool p a = false.
Proof.
  intros [_ [Hb0 Hb] He] Ha. unfold page_from_pool, bitmap_size. rewrite !pg_no_div.
  unfold pool_end, pool_size in *. apply andb_false_iff. right. apply Z.ltb_ge. div_lia.
Qed.

Lemma fill_pages_other n p v c a : a < p ∨ p + 4096 * Z.of_nat n ≤ a →
  fill_pages n p v c !! a = c !! a.
Proof.
  revert p c; induction n as [|n IH]; intros p c Ha; [done|]. cbn [fill_pages].
  change PGSIZE with 4096. rewrite IH by lia. apply lookup_insert_ne. lia.
Qed.

Lemma fill_pages_in n p v c i : 0 ≤ i < Z.of_nat n →
  fill_pages n p v c !! (p + 4096 * i) = Some (replicate 4096 v).
Proof.
  revert p c i; induction n as [|n IH]; intros p c i Hi; [lia|]. cbn [fill_pages].
  change PGSIZE with 4096. destruct (decide (i = 0)) as [->|].
  - rewrite fill_pages_other by lia. rewrite Z.mul_0_r, Z.add_0_r. apply lookup_insert_eq.
  - replace (p + 4096 * i) with (p + 4096 + 4096 * (i - 1)) by lia. apply IH. lia.
Qed.

(** The state after the bits of a pool changed. *)
Lemma with_pool_ok st user b c : palloc_ok st → bm_wf b →
  bit_cnt b = pool_size (get_pool st user) →
  palloc_ok (with_pool st user (Pool b (base (get_pool st user))) c).
Proof.
  intros [Hk Hu Hd] Hb Hc.
  assert (pool_ok (Pool b (base (get_pool st user)))) as Hp.
  { pose proof (get_pool_ok st user (Build_palloc_ok st Hk Hu Hd)) as [? ? He].
    split; simpl; [done..|]. unfold pool_end, pool_size in *. simpl. by rewrite Hc. }
  destruct user; simpl in *; split; simpl; try done; unfold pool_end, pool_size in *; simpl; lia.
Qed.

Lemma get_with_pool st user p c v :
  get_pool (with_pool st user p c) v = if decide (user = v) then p else get_pool st v.
Proof. by destruct user, v. Qed.

(** ** Allocation and release *)

(** [st'] is [st] with the pages [idx] to [idx + cnt - 1] of a pool marked. *)
Definition marked (st st' : palloc) (user : bool) (idx cnt : Z) (value : bool) : Prop :=
  palloc_ok st' ∧
  (∀ v, base (get_pool st' v) = base (get_pool st v) ∧
        pool_size (get_pool st' v) = pool_size (get_pool st v)) ∧
  ∀ v i, 0 ≤ i → page_used st' v i =
    if decide (v = user ∧ idx ≤ i < idx + cnt) then value else page_used st v i.

Lemma marked_intro st user b c idx cnt value : palloc_ok st →
  bm_becomes (used_map (get_pool st user)) b
    (λ j, if decide (idx ≤ j < idx + cnt) then value else bm_test (used_map (get_pool st user)) j) →
  marked st (with_pool st user (Pool b (base (get_pool st user))) c) user idx cnt value.
Proof.
  intros Hok Hbec. split; [|split].
  - apply with_pool_ok; [done|apply Hbec|apply Hbec].
  - intros v. rewrite get_with_pool. case_decide; [|done]. subst v. split; [done|].
    apply (becomes_cnt _ _ _ Hbec).
  - intros v i Hi. unfold page_used. rewrite get_with_pool. case_decide as E.
    + subst v. cbn [used_map]. rewrite (becomes_test _ _ _ Hbec) by done.
      repeat case_decide; naive_solver.
    + rewrite decide_False; [done|]. naive_solver.
Qed.

Definition flag (flags f : Z) : bool := negb (Z.land flags f =? 0).

Lemma palloc_get_ok flags cnt st : palloc_ok st → 0 < cnt →
  let user := flag flags PAL_USER in
  let p := get_pool st user in
  (∃ idx st', palloc_get_multiple flags cnt st = Ret (Some (base p + 4096 * idx), st') ∧
    0 ≤ idx ∧ idx + cnt ≤ pool_size p ∧ bm_run (used_map p) idx cnt false ∧
    marked st st' user idx cnt true ∧
    (∀ a, a < base p + 4096 * idx ∨ base p + 4096 * (idx + cnt) ≤ a → contents st' !! a = contents st !! a) ∧
    (flag flags PAL_ZERO = true → ∀ i, 0 ≤ i < cnt →
      contents st' !! (base p + 4096 * (idx + i)) = Some (replicate 4096 0)) ∧
    (flag flags PAL_ZERO = false → contents st' = contents st)) ∨
  ((∀ i, 0 ≤ i → i + cnt ≤ pool_size p → ¬ bm_run (used_map p) i cnt false) ∧
   palloc_get_multiple flags cnt st =
     if flag flags PAL_ASSERT then Fail Panicked else Ret (None, st)).
Proof.
  intros Hok Hc user p. pose proof (get_pool_ok st user Hok) as Hp. fold p in Hp.
  unfold palloc_get_multiple. fold (flag flags PAL_USER). fold user. fold p.
  destruct (Z.eqb_spec cnt 0); [lia|]. pose proof (wf_cnt _ (po_map _ Hp)).
  destruct (bitmap_scan_and_flip_spec (used_map p) 0 cnt false (po_map _ Hp)) as (r & b & -> & Hcase);
    [lia..|]. cbn [mbind outcome_bind].
  destruct Hcase as [(Hne & H0 & Hle & Hrun & _ & Hbec)|(-> & -> & Hno)].
  - left. apply Z.eqb_neq in Hne. rewrite Hne. cbn [negb]. change PGSIZE with 4096.
    eexists r, _. split; [done|]. do 3 (split; [done|]).
    split; [by apply marked_intro|]. fold (flag flags PAL_ZERO).
    assert (∀ c, contents (with_pool st user (Pool b (base p)) c) = c) as Hcc by (by destruct user).
    rewrite !Hcc. split; [|split; [|by intros ->]].
    + intros a Ha. destruct (flag flags PAL_ZERO); [|done]. apply fill_pages_other. lia.
    + intros -> i Hi. replace (base p + 4096 * (r + i)) with (base p + 4096 * r + 4096 * i) by lia.
      apply fill_pages_in. lia.
  - right. split; [intros i ? ?; by apply Hno|]. rewrite Z.eqb_refl. cbn [negb].
    fold (flag flags PAL_ASSERT). destruct (flag flags PAL_ASSERT); [done|].
    do 2 f_equal. unfold p, with_pool, get_pool. by destruct st as [[] [] c], user.
Qed.

Lemma select_pool st user idx : palloc_ok st → 0 ≤ idx < pool_size (get_pool st user) →
  (if page_from_pool (kernel_pool st) (base (get_pool st user) + 4096 * idx) then Ret false
   else if page_from_pool (user_pool st) (base (get_pool st user) + 4096 * idx) then Ret true
   else Fail Panicked) = Ret user.
Proof.
  intros Hok Hi. pose proof (pa_disjoint _ Hok) as Hd. destruct user; simpl in *.
  - rewrite page_not_from_pool; [|apply Hok|lia].
    by rewrite page_from_pool_ok by (apply Hok || lia).
  - by rewrite page_from_pool_ok by (apply Hok || lia).
Qed.

Lemma palloc_free_ok user idx cnt st : palloc_ok st → 0 < cnt → 0 ≤ idx →
  idx + cnt ≤ pool_size (get_pool st user) →
  (∀ i, idx ≤ i < idx + cnt → page_used st user i = true) →
  ∃ st', palloc_free_multiple (base (get_pool st user) + 4096 * idx) cnt st = Ret st' ∧
    marked st st' user idx cnt false ∧
    contents st' = fill_pages (Z.to_nat cnt) (base (get_pool st user) + 4096 * idx) 0xcc (contents st).
Proof.
  intros Hok Hc Hi Hle Hused. set (p := get_pool st user) in *.
  pose proof (get_pool_ok st user Hok) as Hp. fold p in Hp. pose proof (po_base _ Hp) as [Hb0 Hb].
  unfold palloc_free_multiple. rewrite pg_ofs_mod.
  assert ((base p + 4096 * idx) mod 4096 = 0) as -> by div_lia. cbn [ASSERT Z.eqb mbind outcome_bind].
  destruct (Z.eqb_spec (base p + 4096 * idx) 0); [lia|]. destruct (Z.eqb_spec cnt 0); [lia|]. cbn [orb].
  assert (0 ≤ idx < pool_size (get_pool st user)) as Hin by (fold p; lia).
  pose proof (select_pool st user idx Hok Hin) as Hsel. fold p in Hsel. rewrite Hsel.
  cbn [mbind outcome_bind]. fold p. rewrite pool_index by done.
  unfold pool_size in Hle.
  destruct (bitmap_all_spec (used_map p) idx cnt (po_map _ Hp)) as (a & -> & Ha); [lia..|].
  cbn [mbind outcome_bind]. rewrite (proj2 Ha) by (intros k Hk; by apply Hused).
  cbn [ASSERT mbind outcome_bind].
  destruct (bitmap_set_multiple_spec (used_map p) idx cnt false (po_map _ Hp)) as (b & -> & Hbec); [lia..|].
  cbn [mbind outcome_bind]. eexists. split; [done|].
  split; [by apply marked_intro|]. by destruct user.
Qed.

(** ** Initialisation *)

Lemma byte_cnt_eq cnt : 0 ≤ cnt ≤ 2^20 → byte_cnt cnt = 4 * ((cnt + 31) / 32).
Proof.
  intros Hc. unfold byte_cnt, elem_cnt, ELEM_BITS.
  rewrite (u32_id (cnt + 32 - 1)) by lia. replace (cnt + 32 - 1) with (cnt + 31) by lia.
  rewrite u32_id; [done|]. div_lia.
Qed.

Lemma bm_pages_le cnt : 1 ≤ cnt ≤ 2^20 →
  1 ≤ DIV_ROUND_UP (bitmap_buf_size cnt) PGSIZE ≤ cnt.
Proof.
  intros Hc. unfold DIV_ROUND_UP, bitmap_buf_size. rewrite byte_cnt_eq by lia.
  change PGSIZE with 4096. div_lia.
Qed.

Lemma bm_pages_fit cnt : 1 ≤ cnt ≤ 2^20 → let bm := DIV_ROUND_UP (bitmap_buf_size cnt) PGSIZE in
  bitmap_buf_size (cnt - bm) ≤ bm * PGSIZE.
Proof.
  intros Hc bm. pose proof (bm_pages_le cnt Hc) as Hbm. fold bm in Hbm.
  assert (bitmap_buf_size (cnt - bm) ≤ bitmap_buf_size cnt) as Hmono.
  { unfold bitmap_buf_size. rewrite !byte_cnt_eq by lia. div_lia. }
  subst bm. unfold DIV_ROUND_UP in *. change PGSIZE with 4096 in *. div_lia.
Qed.

(** A pool of [cnt] pages ends where its memory ends and starts all free. *)
Lemma init_pool_ok start cnt mem : 0 < start → start mod 4096 = 0 → start + 4096 * cnt ≤ 2^32 →
  1 ≤ cnt ≤ 2^20 → (∀ a, word (mem a)) →
  ∃ p, init_pool start cnt mem = Ret p ∧ pool_ok p ∧ start < base p ∧ pool_end p = start + 4096 * cnt ∧
    bm_run (used_map p) 0 (pool_size p) false.
Proof.
  intros Hs Ha He Hc Hw. unfold init_pool.
  pose proof (bm_pages_le cnt Hc) as Hbm. pose proof (bm_pages_fit cnt Hc) as Hfit. cbn zeta in Hfit.
  set (bm := DIV_ROUND_UP (bitmap_buf_size cnt) PGSIZE) in *. clearbody bm.
  set (words := map _ _).
  destruct (Z.ltb_spec cnt bm); [lia|]. unfold bitmap_create_in_buf.
  apply Z.leb_le in Hfit. rewrite Hfit. cbn [ASSERT mbind outcome_bind].
  assert (bm_wf (Bitmap (cnt - bm) words)) as Hwf.
  { assert (zlength words = elem_cnt (cnt - bm)) as Hl.
    { unfold zlength, words. rewrite length_map, length_seqZ.
      apply Z2Nat.id, Z.div_pos; [apply u32_range|done]. }
    split; cbn [bit_cnt bits]; [unfold SIZE_MAX; lia| |].
    - rewrite Hl. apply elem_cnt_room. lia.
    - apply Forall_map, Forall_true. intros i. apply Hw. }
  destruct (bitmap_set_all_spec (Bitmap (cnt - bm) words) false Hwf) as (b & -> & Hbec).
  cbn [mbind outcome_bind].
  eexists. split; [done|]. change PGSIZE with 4096. pose proof (becomes_cnt _ _ _ Hbec) as Hcnt.
  cbn [bit_cnt] in Hcnt. unfold pool_end, pool_size. cbn [used_map base].
  split; [|split; [lia|split; [lia|]]].
  - split; cbn [base used_map]; [apply Hbec|split; [lia|div_lia]|]. unfold pool_end, pool_size.
    cbn [used_map base]. lia.
  - intros k Hk. rewrite (becomes_test _ _ _ Hbec) by lia.
    cbn [bit_cnt]. by rewrite decide_True by lia.
Qed.

(** The pages of both pools. *)
Definition all_free (st : palloc) : Prop :=
  ∀ user i, 0 ≤ i < pool_size (get_pool st user) → page_used st user i = false.

(** [palloc_init] on any RAM between 258 pages and 1 GB divides the memory
    from 1 MB to the end of RAM into two disjoint pools that satisfy the
    invariant, the user pool last and of at most half of the pages and at most
    USER_PAGE_LIMIT pages with its bitmap, with every page free. *)
Theorem palloc_init_pools ram limit mem c :
  258 ≤ ram < 2^18 → 1 ≤ limit → (∀ a, word (mem a)) →
  ∃ st, palloc_init ram limit mem c = Ret st ∧ palloc_ok st ∧ all_free st ∧
    PHYS_BASE + 2^20 < base (kernel_pool st) ∧
    pool_end (user_pool st) = PHYS_BASE + 4096 * ram ∧
    pool_end (user_pool st) - pool_end (kernel_pool st) = 4096 * Z.min limit ((ram - 256) / 2).
Proof.
  intros Hr Hl Hw. unfold palloc_init, ptov, PHYS_BASE. change PGSIZE with 4096.
  rewrite (u32_id (ram * 4096)) by lia. destruct (Z.ltb_spec (ram * 4096) 0xc0000000); [|lia].
  cbn [Z.ltb ASSERT mbind outcome_bind]. change (1024 * 1024 <? 0xc0000000) with true.
  cbn [ASSERT mbind outcome_bind].
  change (u32 (1024 * 1024 + 0xc0000000)) with 3222274048. rewrite (u32_id (ram * 4096 + _)) by lia.
  replace (Z.quot (ram * 4096 + 0xc0000000 - 3222274048) 4096) with (ram - 256).
  2:{ symmetry. rewrite Z.quot_div_nonneg by lia. div_lia. }
  rewrite (u32_id (ram - 256)) by lia.
  assert ((if limit <? (ram - 256) / 2 then limit else (ram - 256) / 2) = Z.min limit ((ram - 256) / 2))
    as Hmin by (destruct (Z.ltb_spec limit ((ram - 256) / 2)); lia).
  rewrite Hmin. set (up := Z.min limit ((ram - 256) / 2)).
  assert (1 ≤ up ∧ 2 * up ≤ ram - 256) as Hup by (subst up; div_lia). clearbody up.
  destruct (init_pool_ok 3222274048 (ram - 256 - up) mem) as (k & -> & Hk & Hkb & Hke & Hkf);
    [lia|done|lia..|done|]. cbn [mbind outcome_bind].
  destruct (init_pool_ok (3222274048 + (ram - 256 - up) * 4096) up mem) as (u & -> & Hu & Hub & Hue & Huf);
    [lia|div_lia|lia..|done|]. cbn [mbind outcome_bind].
  eexists. split; [done|]. cbn [kernel_pool user_pool]. split; [|split; [|lia]].
  - split; cbn [kernel_pool user_pool]; [done..|]. lia.
  - intros [] i Hi; [apply Huf|apply Hkf]; exact Hi.
Qed.

Lemma palloc_init_pools_witness :
  ∃ st, palloc_init 1024 384 (λ _, 0xcccccccc) ∅ = Ret st ∧ palloc_ok st.
Proof.
  destruct (palloc_init_pools 1024 384 (λ _, 0xcccccccc) ∅) as (st & H1 & H2 & _);
    [lia|lia|intros a; unfold word; lia|eauto].
Defined.

(** C17. Allocation of [cnt] pages takes a contiguous run of pages of the pool
    FLAGS selects, all of which were free, and marks exactly these as used;
    PAL_ZERO makes them all zeros and no other page changes.  It fails only
    when the pool has no such run, with a panic for PAL_ASSERT and otherwise
    with NULL and an unchanged state.  Pages that are obtained and freed
    again leave every page as used as it was. *)
Theorem palloc_get_exclusive flags cnt st : palloc_ok st → 0 < cnt →
  let user := flag flags PAL_USER in
  let p := get_pool st user in
  (∃ idx st', let pages := base p + 4096 * idx in
    palloc_get_multiple flags cnt st = Ret (Some pages, st') ∧ palloc_ok st' ∧
    base p ≤ pages ∧ pages + 4096 * cnt ≤ pool_end p ∧
    (∀ i, idx ≤ i < idx + cnt → page_used st user i = false) ∧
    (∀ v i, 0 ≤ i → page_used st' v i =
      bool_decide (v = user ∧ idx ≤ i < idx + cnt) || page_used st v i) ∧
    (∀ a, a < pages ∨ pages + 4096 * cnt ≤ a → contents st' !! a = contents st !! a) ∧
    (flag flags PAL_ZERO = true → ∀ i, 0 ≤ i < cnt →
      contents st' !! (pages + 4096 * i) = Some (replicate 4096 0)) ∧
    ∃ st'', palloc_free_multiple pages cnt st' = Ret st'' ∧ palloc_ok st'' ∧
      ∀ v i, 0 ≤ i → page_used st'' v i = page_used st v i) ∨
  ((∀ i, 0 ≤ i → i + cnt ≤ pool_size p →
      ∃ j, i ≤ j < i + cnt ∧ page_used st user j = true) ∧
   palloc_get_multiple flags cnt st =
     if flag flags PAL_ASSERT then Fail Panicked else Ret (None, st)).
Proof.
  intros Hok Hc user p. destruct (palloc_get_ok flags cnt st Hok Hc)
    as [(idx & st' & Hget & Hi & Hle & Hrun & (Hok' & Hsame & Hbits) & Hcont & Hzero & _)|[Hno Hget]].
  - left. fold user in Hget, Hle, Hrun, Hbits, Hcont, Hzero, Hsame. fold p in Hget, Hle, Hrun, Hcont, Hzero.
    exists idx, st'. cbn zeta. unfold pool_end. split; [done|]. split; [done|].
    split; [lia|]. split; [lia|]. split; [exact Hrun|]. split.
    { intros v i Hi'. rewrite Hbits by done. case_decide; [rewrite bool_decide_true by done|rewrite bool_decide_false by done]; done. }
    split; [intros a Ha; apply Hcont; lia|]. split.
    { intros Hz i Hi'. rewrite <- Hzero with (i := i) by done. f_equal. lia. }
    destruct (Hsame user) as [Hb Hs].
    destruct (palloc_free_ok user idx cnt st') as (st'' & Hfree & (Hok'' & _ & Hbits'') & _); [done..|by rewrite Hs| |].
    { intros i Hi'. rewrite Hbits by lia. by rewrite decide_True. }
    rewrite Hb in Hfree. exists st''. split; [done|]. split; [done|]. intros v i Hi'.
    rewrite Hbits'', Hbits by done. case_decide as E; [|done]. destruct E as [-> E]. symmetry. by apply Hrun.
  - right. split; [|done]. intros i Hi Hle. pose proof (Hno i Hi Hle) as Hn.
    destruct (decide (Exists (λ j, page_used st user j = true) (seqZ i cnt))) as [He|He].
    + apply Exists_exists in He as (j & Hj & Hu). apply elem_of_seqZ in Hj. eauto.
    + destruct Hn. intros k Hk. apply not_true_is_false. intros Ht. apply He, Exists_exists.
      exists k. split; [by apply elem_of_seqZ|done].
Qed.

Definition demo_palloc : palloc :=
  Palloc (Pool (Bitmap 4 [5]) 0xc0200000) (Pool (Bitmap 40 [1; 0]) 0xc0300000) ∅.

Lemma palloc_get_exclusive_witness :
  palloc_ok demo_palloc ∧ ∃ a st, palloc_get_multiple PAL_USER 2 demo_palloc = Ret (Some a, st) ∧ palloc_ok st.
Proof.
  assert (palloc_ok demo_palloc) as Hok.
  { assert (∀ c ws b, 0 ≤ c ≤ 32 * zlength ws → c < 2^10 → Forall word ws →
      0 < b < 0xd0000000 → b mod 4096 = 0 → pool_ok (Pool (Bitmap c ws) b)) as Hp.
    { intros c ws b ? ? ? ? ?. split; [split; cbn [used_map bit_cnt bits]|cbn [base]; lia|];
        unfold SIZE_MAX, ELEM_BITS, pool_end, pool_size; cbn [used_map base bit_cnt]; [lia..|done|lia]. }
    split; [apply Hp|apply Hp|vm_compute]; try done; repeat constructor; by vm_compute. }
  split; [exact Hok|].
  destruct (palloc_get_exclusive PAL_USER 2 demo_palloc Hok) as [(idx & st & H & Hst & _)|[H _]]; [lia| |].
  - eexists _, st. split; [exact H|exact Hst].
  - exfalso. destruct (H 1) as (j & Hj & Hu); [lia|vm_compute; discriminate|].
    assert (j = 1 ∨ j = 2) as [Ej|Ej] by lia; rewrite Ej in Hu; vm_compute in Hu; discriminate.
Defined.
