(* ===== verification/Malloc.v ===== *)
(** * The block allocator (threads/malloc.c)

    Ten descriptors at most, one per power of two, each with the list of its
    free blocks; arenas are pages of the kernel pool with a header.  Headers
    and the links of the free lists are kept as structured values, the other
    bytes of memory are those of the page allocator.  Free lists are lists of
    block addresses, by the refinement theorem of lib/kernel/list.c.  The
    descriptor locks make each operation one step. *)

From S2P Require Import Prelude Bitmap Vaddr Palloc.

(** ** Bytes of memory *)

Notation memory := (gmap Z (list Z)).
Definition page_of (a : Z) : Z := a - a mod 4096.
Definition byte (c : memory) (a : Z) : option Z :=
  c !! page_of a ≫= λ p, p !! Z.to_nat (a mod 4096).
Definition put_byte (c : memory) (a v : Z) : memory :=
  alter (<[Z.to_nat (a mod 4096) := v]>) (page_of a) c.
Fixpoint memset (c : memory) (a v : Z) (n : nat) : memory :=
  match n with O => c | S n => memset (put_byte c a v) (a + 1) v n end.
Fixpoint memcpy (c : memory) (dst src : Z) (n : nat) : outcome memory :=
  match n with
  | O => Ret c
  | S n => let* v := access (byte c src) in memcpy (put_byte c dst v) (dst + 1) (src + 1) n
  end.

(** ** State *)

Record desc := Desc {
  d_block_size : Z;              (* Size of each element in bytes. *)
  blocks_per_arena : Z;          (* Number of blocks in an arena. *)
  free_list : list Z             (* List of free blocks. *)
}.

Definition ARENA_MAGIC : Z := 0x9a548eed.
Definition ARENA_SIZE : Z := 12. (* sizeof (struct arena) *)

Record arena := Arena {
  magic : Z;                     (* Always set to ARENA_MAGIC. *)
  a_desc : option nat;           (* Owning descriptor, null for big block. *)
  free_cnt : Z                   (* Free blocks; pages in big block. *)
}.

Record heap := Heap {
  descs : list desc;
  arenas : gmap Z arena;         (* the headers, by their page *)
  pages : palloc
}.

Definition set_desc (k : nat) (d : desc) : cmd heap unit :=
  modify (λ h, Heap (<[k := d]> (descs h)) (arenas h) (pages h)).
Definition set_arena (a : Z) (ar : arena) : cmd heap unit :=
  modify (λ h, Heap (descs h) (<[a := ar]> (arenas h)) (pages h)).
Definition get_desc (k : nat) : cmd heap desc :=
  let* h := get in lift (access (descs h !! k)).
Definition get_arena (a : Z) : cmd heap arena :=
  let* h := get in lift (access (arenas h !! a)).
Definition get_pages (page_cnt : Z) : cmd heap (option Z) := λ h,
  let* (r, p) := palloc_get_multiple 0 page_cnt (pages h) in
  Ret (r, Heap (descs h) (arenas h) p).
(** Freeing pages overwrites the header in the first one. *)
Definition free_pages (a page_cnt : Z) : cmd heap unit := λ h,
  let* p := palloc_free_multiple a page_cnt (pages h) in
  Ret ((), Heap (descs h) (delete a (arenas h)) p).
Definition set_contents (g : memory → outcome memory) : cmd heap unit := λ h,
  let* c := g (contents (pages h)) in
  Ret ((), Heap (descs h) (arenas h) (Palloc (kernel_pool (pages h)) (user_pool (pages h)) c)).

(** ** Operations *)

Definition malloc_init : outcome (list desc) :=
  let* (_, ds) := while 10 (λ '(block_size, _), Ret (block_size <? PGSIZE / 2))
    (λ '(block_size, ds),
       let* _ := ASSERT (zlength ds + 1 <=? 10) in
       Ret (block_size * 2, ds ++ [Desc block_size ((PGSIZE - ARENA_SIZE) / block_size) []]))
    (16, []) in
  Ret ds.

Definition block_to_arena (b : Z) : cmd heap Z :=
  let a := pg_round_down b in
  let* _ := assert (negb (a =? 0)) in
  let* ar := get_arena a in
  let* _ := assert (magic ar =? ARENA_MAGIC) in
  let* _ := match a_desc ar with
            | None => mret ()
            | Some k => let* d := get_desc k in
                        assert (u32 (pg_ofs b - ARENA_SIZE) mod d_block_size d =? 0)
            end in
  let* _ := assert (bool_decide (a_desc ar ≠ None) || (pg_ofs b =? ARENA_SIZE)) in
  mret a.

Definition arena_to_block (a idx : Z) : cmd heap Z :=
  let* _ := assert (negb (a =? 0)) in
  let* ar := get_arena a in
  let* _ := assert (magic ar =? ARENA_MAGIC) in
  let* k := lift (access (a_desc ar)) in
  let* d := get_desc k in
  let* _ := assert (idx <? blocks_per_arena d) in
  mret (a + ARENA_SIZE + idx * d_block_size d).

(** The smallest descriptor for [size] bytes. *)
Fixpoint find_desc (ds : list desc) (size : Z) : option nat :=
  match ds with
  | [] => None
  | d :: ds => if size <=? d_block_size d then Some O else S <$> find_desc ds size
  end.

Definition push_back (k : nat) (b : Z) : cmd heap unit :=
  let* d := get_desc k in
  set_desc k (Desc (d_block_size d) (blocks_per_arena d) (free_list d ++ [b])).
Definition push_front (k : nat) (b : Z) : cmd heap unit :=
  let* d := get_desc k in
  set_desc k (Desc (d_block_size d) (blocks_per_arena d) (b :: free_list d)).
Definition pop_front (k : nat) : cmd heap Z :=
  let* d := get_desc k in
  match free_list d with
  | [] => lift (Fail AssertFailed)
  | b :: l => let* _ := set_desc k (Desc (d_block_size d) (blocks_per_arena d) l) in mret b
  end.
Definition unlink (k : nat) (b : Z) : cmd heap unit :=
  let* d := get_desc k in
  if decide (b ∈ free_list d) then
    set_desc k (Desc (d_block_size d) (blocks_per_arena d) (filter (.≠ b) (free_list d)))
  else lift (Fail Fault).

(** A loop over the blocks of an arena. *)
Fixpoint each_block (n : nat) (a i : Z) (f : Z → cmd heap unit) : cmd heap unit :=
  match n with
  | O => mret ()
  | S n => let* b := arena_to_block a i in let* _ := f b in each_block n a (i + 1) f
  end.

(** A new arena for descriptor [k]. *)
Definition new_arena (k : nat) : cmd heap bool :=
  let* d := get_desc k in
  let* r := get_pages 1 in
  match r with
  | None => mret false
  | Some a =>
      let* _ := set_arena a (Arena ARENA_MAGIC (Some k) (blocks_per_arena d)) in
      let* _ := each_block (Z.to_nat (blocks_per_arena d)) a 0 (push_back k) in
      mret true
  end.

Definition malloc (size : Z) : cmd heap (option Z) :=
  if size =? 0 then mret None else
  let* h := get in
  match find_desc (descs h) size with
  | None =>
      let page_cnt := u32 (u32 (u32 (size + ARENA_SIZE) + PGSIZE) - 1) / PGSIZE in
      let* r := get_pages page_cnt in
      match r with
      | None => mret None
      | Some a =>
          let* _ := set_arena a (Arena ARENA_MAGIC None page_cnt) in
          mret (Some (a + ARENA_SIZE))
      end
  | Some k =>
      let* d := get_desc k in
      let* ok := (if decide (free_list d = []) then new_arena k else mret true) in
      if ok : bool then
        let* b := pop_front k in
        let* a := block_to_arena b in
        let* ar := get_arena a in
        let* _ := set_arena a (Arena (magic ar) (a_desc ar) (u32 (free_cnt ar - 1))) in
        mret (Some b)
      else mret None
  end.

Definition calloc (a b : Z) : cmd heap (option Z) :=
  let size := u32 (a * b) in
  if (size <? a) || (size <? b) then mret None else
  let* p := malloc size in
  match p with
  | None => mret None
  | Some p => let* _ := set_contents (λ c, Ret (memset c p 0 (Z.to_nat size))) in mret (Some p)
  end.

Definition block_size (block : Z) : cmd heap Z :=
  let* a := block_to_arena block in
  let* ar := get_arena a in
  match a_desc ar with
  | Some k => let* d := get_desc k in mret (d_block_size d)
  | None => mret (PGSIZE * free_cnt ar - pg_ofs block)
  end.

Definition free (p : Z) : cmd heap unit :=
  if p =? 0 then mret () else
  let* a := block_to_arena p in
  let* ar := get_arena a in
  match a_desc ar with
  | Some k =>
      let* d := get_desc k in
      let* _ := set_contents (λ c, Ret (memset c p 0xcc (Z.to_nat (d_block_size d)))) in
      let* _ := push_front k p in
      let free_cnt := u32 (free_cnt ar + 1) in
      let* _ := set_arena a (Arena (magic ar) (a_desc ar) free_cnt) in
      if blocks_per_arena d <=? free_cnt then
        let* _ := assert (free_cnt =? blocks_per_arena d) in
        let* _ := each_block (Z.to_nat (blocks_per_arena d)) a 0 (unlink k) in
        free_pages a 1
      else mret ()
  | None => free_pages a (free_cnt ar)
  end.

Definition realloc (old_block new_size : Z) : cmd heap (option Z) :=
  if new_size =? 0 then let* _ := free old_block in mret None else
  let* new_block := malloc new_size in
  match new_block with
  | Some p =>
      if negb (old_block =? 0) then
        let* old_size := block_size old_block in
        let min_size := if new_size <? old_size then new_size else old_size in
        let* _ := set_contents (λ c, memcpy c p old_block (Z.to_nat min_size)) in
        let* _ := free old_block in
        mret (Some p)
      else mret (Some p)
  | None => mret None
  end.

(** ** Bytes: what the memory functions write *)

(** Every page of the kernel pool holds 4096 bytes. *)
Definition mapped (c : memory) (a : Z) : Prop := ∃ p, c !! page_of a = Some p ∧ length p = 4096%nat.

Lemma byte_put c a b v : mapped c a → byte (put_byte c a v) b = if decide (b = a) then Some v else byte c b.
Proof.
  intros (p & Hp & Hl). unfold byte, put_byte.
  pose proof (Z.mod_pos_bound a 4096). pose proof (Z.mod_pos_bound b 4096).
  destruct (decide (page_of b = page_of a)) as [E|E].
  - rewrite E, lookup_alter_eq, Hp. simpl. case_decide as Eb.
    + subst b. apply list_lookup_insert_eq. lia.
    + apply list_lookup_insert_ne. unfold page_of in E. intros Hm. apply Z2Nat.inj in Hm; lia.
  - rewrite lookup_alter_ne by done. rewrite decide_False; [done|]. by intros ->.
Qed.

Lemma mapped_put c a v b : mapped c b → mapped (put_byte c a v) b.
Proof.
  intros (p & Hp & Hl). unfold mapped, put_byte. destruct (decide (page_of b = page_of a)) as [E|E].
  - rewrite E, lookup_alter_eq, <- E, Hp. eexists. split; [done|]. by rewrite length_insert.
  - rewrite lookup_alter_ne by done. eauto.
Qed.

Lemma mapped_memset c a v n b : mapped c b → mapped (memset c a v n) b.
Proof. revert c a; induction n; intros c a Hb; simpl; auto using mapped_put. Qed.

Lemma byte_memset c a v n b : (∀ x, a ≤ x < a + Z.of_nat n → mapped c x) →
  byte (memset c a v n) b = if decide (a ≤ b < a + Z.of_nat n) then Some v else byte c b.
Proof.
  revert c a; induction n as [|n IH]; intros c a Hm; cbn [memset].
  - by rewrite decide_False by lia.
  - rewrite IH by (intros; apply mapped_put, Hm; lia).
    rewrite byte_put by (apply Hm; lia). repeat case_decide; done || lia.
Qed.

Lemma byte_mapped c a : mapped c a → is_Some (byte c a).
Proof.
  intros (p & Hp & Hl). unfold byte. rewrite Hp. simpl.
  apply lookup_lt_is_Some. pose proof (Z.mod_pos_bound a 4096). lia.
Qed.

(** [memcpy] between disjoint ranges. *)
Lemma memcpy_ok c dst src n : (∀ x, dst ≤ x < dst + Z.of_nat n → mapped c x) →
  (∀ x, src ≤ x < src + Z.of_nat n → mapped c x) →
  dst + Z.of_nat n ≤ src ∨ src + Z.of_nat n ≤ dst →
  ∃ c', memcpy c dst src n = Ret c' ∧ (∀ b, mapped c b → mapped c' b) ∧
    ∀ b, byte c' b = if decide (dst ≤ b < dst + Z.of_nat n) then byte c (src + (b - dst)) else byte c b.
Proof.
  revert c dst src; induction n as [|n IH]; intros c dst src Hd Hs Hdis; cbn [memcpy].
  - exists c. split; [done|]. split; [done|]. intros b. by rewrite decide_False by lia.
  - destruct (byte_mapped c src) as [v Hv]; [apply Hs; lia|]. rewrite Hv. cbn [access mbind outcome_bind].
    destruct (IH (put_byte c dst v) (dst + 1) (src + 1)) as (c' & -> & Hm & Hb).
    { intros. apply mapped_put, Hd. lia. } { intros. apply mapped_put, Hs. lia. } { lia. }
    exists c'. split; [done|]. split; [auto using mapped_put|]. intros b.
    rewrite Hb, !byte_put by (apply Hd; lia).
    repeat case_decide; try lia; try done.
    + f_equal. lia.
    + subst b. rewrite <- Hv. f_equal. lia.
Qed.

(** ** Invariant *)

Definition blk (a : Z) (d : desc) (i : Z) : Z := a + 12 + i * d_block_size d.
Definition arena_pages (ar : arena) : Z := match a_desc ar with Some _ => 1 | None => free_cnt ar end.
Definition free_in (a : Z) (fl : list Z) : list Z := filter (λ b, page_of b = a) fl.

(** The pages [a], [a + 4096], ... are pages of the kernel pool in use. *)
Definition owned (P : palloc) (a n : Z) : Prop := ∃ i, a = base (kernel_pool P) + 4096 * i ∧
  0 ≤ i ∧ i + n ≤ pool_size (kernel_pool P) ∧ ∀ j, i ≤ j < i + n → page_used P false j = true.

Definition desc_shape (d : desc) : Prop :=
  16 ≤ d_block_size d ≤ 2048 ∧ blocks_per_arena d = 4084 / d_block_size d.

Record desc_ok (h : heap) (k : nat) (d : desc) : Prop := {
  de_shape : desc_shape d;
  de_nodup : NoDup (free_list d);
  de_free b : b ∈ free_list d → ∃ a ar i, arenas h !! a = Some ar ∧ a_desc ar = Some k ∧
    0 ≤ i < blocks_per_arena d ∧ b = blk a d i
}.

Record arena_ok (h : heap) (a : Z) (ar : arena) : Prop := {
  ao_magic : magic ar = ARENA_MAGIC;
  ao_cnt : 1 ≤ arena_pages ar;
  ao_pages : owned (pages h) a (arena_pages ar);
  ao_free : match a_desc ar with
            | None => True
            | Some k => ∃ d, descs h !! k = Some d ∧ free_cnt ar = zlength (free_in a (free_list d))
            end
}.

Definition kernel_mapped (P : palloc) : Prop := ∀ a,
  base (kernel_pool P) ≤ a < pool_end (kernel_pool P) → mapped (contents P) a.

Record heap_ok (h : heap) : Prop := {
  ho_pages : palloc_ok (pages h);
  ho_mapped : kernel_mapped (pages h);
  ho_descs k d : descs h !! k = Some d → desc_ok h k d;
  ho_arenas a ar : arenas h !! a = Some ar → arena_ok h a ar;
  ho_disjoint a ar a' ar' : arenas h !! a = Some ar → arenas h !! a' = Some ar' → a ≠ a' →
    a + 4096 * arena_pages ar ≤ a' ∨ a' + 4096 * arena_pages ar' ≤ a
}.

(** The block at [p], of [n] bytes, is allocated. *)
Definition live (h : heap) (p n : Z) : Prop := ∃ ar, arenas h !! page_of p = Some ar ∧
  match a_desc ar with
  | Some k => ∃ d i, descs h !! k = Some d ∧ 0 ≤ i < blocks_per_arena d ∧ p = blk (page_of p) d i ∧
                n = d_block_size d ∧ p ∉ free_list d
  | None => p = page_of p + 12 ∧ n = 4096 * free_cnt ar - 12
  end.

Lemma owned_addr P a n : palloc_ok P → owned P a n → 1 ≤ n →
  0 < a ∧ a mod 4096 = 0 ∧ a + 4096 * n ≤ 2^32 ∧ base (kernel_pool P) ≤ a ∧ a + 4096 * n ≤ pool_end (kernel_pool P).
Proof.
  intros HP (i & -> & Hi & Hle & _) Hn. pose proof (pa_kernel _ HP) as [_ [Hb Hm] He].
  unfold pool_end in *. div_lia.
Qed.

Lemma blk_page a d i : a mod 4096 = 0 → 0 < a → a + 4096 ≤ 2^32 → desc_shape d → 0 ≤ i < blocks_per_arena d →
  page_of (blk a d i) = a ∧ pg_round_down (blk a d i) = a ∧ pg_ofs (blk a d i) = 12 + i * d_block_size d ∧
  a + 12 ≤ blk a d i ∧ blk a d i + d_block_size d ≤ a + 4096.
Proof.
  intros Ha H0 H32 [Hd Hb] Hi.
  assert (12 + i * d_block_size d + d_block_size d ≤ 4096) as Hin.
  { assert ((i + 1) * d_block_size d ≤ 4084 / d_block_size d * d_block_size d) by nia.
    pose proof (Z.mul_div_le 4084 (d_block_size d)). lia. }
  assert (0 ≤ i * d_block_size d) by nia.
  unfold blk. set (o := i * d_block_size d) in *. clearbody o.
  rewrite pg_ofs_mod. unfold page_of. rewrite pg_round_down_eq by lia. div_lia.
Qed.

Lemma blk_inj a d i j : desc_shape d → blk a d i = blk a d j → i = j.
Proof. intros [Hd _] H. unfold blk in H. nia. Qed.

(** Blocks of an arena that are in a free list are among all its blocks. *)
Definition blocks (a : Z) (d : desc) : list Z := map (blk a d) (seqZ 0 (blocks_per_arena d)).

Lemma elem_of_blocks a d b : b ∈ blocks a d ↔ ∃ i, 0 ≤ i < blocks_per_arena d ∧ b = blk a d i.
Proof.
  unfold blocks. rewrite list_elem_of_fmap. split.
  - intros (i & -> & Hi%elem_of_seqZ). exists i. split; [lia|done].
  - intros (i & Hi & ->). exists i. split; [done|]. apply elem_of_seqZ. lia.
Qed.

(** ** Pages *)

Lemma owned_mark P P' idx cnt a n : marked P P' false idx cnt true → owned P a n → owned P' a n.
Proof.
  intros (_ & Hs & Hu) (i & -> & Hi & Hle & Hin). destruct (Hs false) as [Hb Hsz]. simpl in *.
  exists i. rewrite Hb, Hsz. do 3 (split; [done|]). intros j Hj. rewrite Hu by lia.
  case_decide; [done|]. apply Hin. lia.
Qed.

Lemma owned_unmark P P' idx cnt a n : marked P P' false idx cnt false → 0 ≤ idx → owned P a n →
  a + 4096 * n ≤ base (kernel_pool P) + 4096 * idx ∨ base (kernel_pool P) + 4096 * (idx + cnt) ≤ a →
  owned P' a n.
Proof.
  intros (_ & Hs & Hu) H0 (i & -> & Hi & Hle & Hin) Hdis. destruct (Hs false) as [Hb Hsz]. simpl in *.
  exists i. rewrite Hb, Hsz. do 3 (split; [done|]). intros j Hj. rewrite Hu by lia.
  rewrite decide_False by lia. apply Hin. lia.
Qed.

Lemma owned_new P P' idx cnt : marked P P' false idx cnt true → 0 ≤ idx → 
  idx + cnt ≤ pool_size (kernel_pool P) → owned P' (base (kernel_pool P) + 4096 * idx) cnt.
Proof.
  intros (_ & Hs & Hu) H0 Hle. destruct (Hs false) as [Hb Hsz]. simpl in *.
  exists idx. rewrite Hb, Hsz. do 3 (split; [done|]). intros j Hj. rewrite Hu by lia.
  by rewrite decide_True.
Qed.

(** A run of free pages meets no pages in use. *)
Lemma owned_free P idx cnt a n : owned P a n → 1 ≤ n → 0 < cnt → 0 ≤ idx →
  bm_run (used_map (kernel_pool P)) idx cnt false →
  a + 4096 * n ≤ base (kernel_pool P) + 4096 * idx ∨ base (kernel_pool P) + 4096 * idx + 4096 * cnt ≤ a.
Proof.
  intros (i & -> & Hi & Hle & Hin) Hn Hc H0 Hrun.
  destruct (decide (i + n ≤ idx)); [lia|]. destruct (decide (idx + cnt ≤ i)); [lia|].
  pose proof (Hin (Z.max i idx)) as Hj. unfold page_used in Hj. simpl in Hj.
  rewrite Hrun in Hj by lia. discriminate Hj. lia.
Qed.

(** What [palloc_get_multiple] does for the heap. *)
Lemma get_pages_ok h cnt : palloc_ok (pages h) → kernel_mapped (pages h) → 0 ≤ cnt →
  get_pages cnt h = Ret (None, h) ∨
  (0 < cnt ∧ ∃ a P', get_pages cnt h = Ret (Some a, Heap (descs h) (arenas h) P') ∧
    palloc_ok P' ∧ kernel_mapped P' ∧ contents P' = contents (pages h) ∧
    owned P' a cnt ∧
    (∀ b n, owned (pages h) b n → owned P' b n) ∧
    (∀ b n, owned (pages h) b n → 1 ≤ n → b + 4096 * n ≤ a ∨ a + 4096 * cnt ≤ b)).
Proof.
  intros HP Hm Hc. unfold get_pages. destruct (decide (cnt = 0)) as [->|Hne].
  { left. simpl. by destruct h. }
  destruct (palloc_get_ok 0 cnt (pages h) HP) as [(idx & P' & -> & Hi & Hle & Hrun & Hmk & _ & _ & Hcon)|[_ ->]];
    [lia| |].
  - right. split; [lia|]. simpl in *. specialize (Hcon eq_refl).
    destruct (Hmk) as (HP' & Hs & _). destruct (Hs false) as [Hb Hsz]. simpl in *.
    eexists _, P'. split; [done|]. split; [done|]. split.
    { intros a Ha. rewrite Hcon. apply Hm. unfold pool_end in *. by rewrite Hb, Hsz in Ha. }
    split; [done|]. split; [by apply owned_new|]. split; [intros b n; by apply (owned_mark _ _ idx cnt)|].
    intros b n Hbn Hn. apply owned_free; try done. lia.
  - left. simpl. by destruct h.
Qed.

Lemma page_of_bounds b a n : a mod 4096 = 0 → b < a ∨ a + 4096 * n ≤ b →
  page_of b < a ∨ a + 4096 * n ≤ page_of b.
Proof. intros Ha Hb. unfold page_of. div_lia. Qed.

Lemma byte_fill c a v n b : a mod 4096 = 0 → b < a ∨ a + 4096 * Z.of_nat n ≤ b →
  byte (fill_pages n a v c) b = byte c b.
Proof. intros Ha Hb. unfold byte. by rewrite fill_pages_other by (by apply page_of_bounds). Qed.

Lemma mapped_fill c a v n b : mapped c b → mapped (fill_pages n a v c) b.
Proof.
  revert c a; induction n as [|n IH]; intros c a Hb; [done|]. cbn [fill_pages]. apply IH.
  destruct Hb as (p & Hp & Hl). destruct (decide (page_of b = a)) as [<-|].
  - exists (replicate 4096 v). split; [apply lookup_insert_eq|apply length_replicate].
  - exists p. by rewrite lookup_insert_ne.
Qed.

Lemma free_pages_ok h a cnt : palloc_ok (pages h) → kernel_mapped (pages h) → 1 ≤ cnt →
  owned (pages h) a cnt →
  ∃ P', free_pages a cnt h = Ret ((), Heap (descs h) (delete a (arenas h)) P') ∧
    palloc_ok P' ∧ kernel_mapped P' ∧
    (∀ b n, owned (pages h) b n → b + 4096 * n ≤ a ∨ a + 4096 * cnt ≤ b → owned P' b n) ∧
    (∀ b, b < a ∨ a + 4096 * cnt ≤ b → byte (contents P') b = byte (contents (pages h)) b).
Proof.
  intros HP Hm Hc Ho. pose proof (owned_addr _ _ _ HP Ho Hc) as (Ha0 & Ha & _).
  destruct Ho as (idx & -> & Hi & Hle & Hused).
  destruct (palloc_free_ok false idx cnt (pages h)) as (P' & Hf & Hmk & Hcon); [done|lia|done..|].
  simpl in *. unfold free_pages. rewrite Hf. cbn [mbind outcome_bind].
  destruct (Hmk) as (HP' & Hs & _). destruct (Hs false) as [Hb Hsz]. simpl in *.
  exists P'. split; [done|]. split; [done|]. split; [|split].
  - intros b Hbb. rewrite Hcon. apply mapped_fill, Hm. unfold pool_end in *. by rewrite Hb, Hsz in Hbb.
  - intros b n Hbn Hd. apply (owned_unmark (pages h) P' idx cnt); try done. lia.
  - intros b Hbb. rewrite Hcon, byte_fill; [done..|]. rewrite Z2Nat.id by lia. lia.
Qed.

(** ** Addresses of blocks *)

Lemma block_to_arena_small h a ar k d i : arenas h !! a = Some ar → magic ar = ARENA_MAGIC →
  a_desc ar = Some k → descs h !! k = Some d → desc_shape d → 0 < a → a mod 4096 = 0 → a + 4096 ≤ 2^32 →
  0 ≤ i < blocks_per_arena d → block_to_arena (blk a d i) h = Ret (a, h).
Proof.
  intros Har Hmg Hk Hd Hsh H0 Ha H32 Hi.
  destruct (blk_page a d i) as (_ & Hrd & Hofs & Hlo & Hhi); [done..|].
  unfold block_to_arena. rewrite Hrd, Hofs.
  rewrite (cstep _ _ _ () h) by (apply assert_ok; destruct (Z.eqb_spec a 0); [lia|done]).
  rewrite (cstep _ _ _ ar h) by (unfold get_arena; by rewrite cget, Har).
  rewrite (cstep _ _ _ () h) by (apply assert_ok; by apply Z.eqb_eq).
  rewrite Hk. rewrite (cstep _ _ _ () h).
  2:{ rewrite (cstep _ _ _ d h) by (unfold get_desc; by rewrite cget, Hd).
      apply assert_ok, Z.eqb_eq. unfold ARENA_SIZE. destruct Hsh as [Hs _]. unfold blk in *.
      replace (12 + i * d_block_size d - 12) with (i * d_block_size d) by lia.
      rewrite u32_id by lia. apply Z.mod_mul. lia. }
  rewrite (cstep _ _ _ () h) by (apply assert_ok; by rewrite bool_decide_true). done.
Qed.

Lemma block_to_arena_big h a ar : arenas h !! a = Some ar → magic ar = ARENA_MAGIC →
  a_desc ar = None → 0 < a → a mod 4096 = 0 → a + 4096 ≤ 2^32 → block_to_arena (a + 12) h = Ret (a, h).
Proof.
  intros Har Hmg Hk H0 Ha H32. unfold block_to_arena.
  assert (pg_round_down (a + 12) = a) as -> by (rewrite pg_round_down_eq by lia; div_lia).
  assert (pg_ofs (a + 12) = 12) as -> by (rewrite pg_ofs_mod; div_lia).
  rewrite (cstep _ _ _ () h) by (apply assert_ok; destruct (Z.eqb_spec a 0); [lia|done]).
  rewrite (cstep _ _ _ ar h) by (unfold get_arena; by rewrite cget, Har).
  rewrite (cstep _ _ _ () h) by (apply assert_ok; by apply Z.eqb_eq).
  rewrite Hk. rewrite cret. rewrite (cstep _ _ _ () h) by (apply assert_ok; by rewrite orb_true_r). done.
Qed.

Lemma arena_to_block_ok h a ar k d i : arenas h !! a = Some ar → magic ar = ARENA_MAGIC →
  a_desc ar = Some k → descs h !! k = Some d → a ≠ 0 → i < blocks_per_arena d →
  arena_to_block a i h = Ret (blk a d i, h).
Proof.
  intros Har Hmg Hk Hd H0 Hi. unfold arena_to_block.
  rewrite (cstep _ _ _ () h) by (apply assert_ok; by destruct (Z.eqb_spec a 0)).
  rewrite (cstep _ _ _ ar h) by (unfold get_arena; by rewrite cget, Har).
  rewrite (cstep _ _ _ () h) by (apply assert_ok; by apply Z.eqb_eq).
  rewrite (cstep _ _ _ k h) by (by rewrite Hk).
  rewrite (cstep _ _ _ d h) by (unfold get_desc; by rewrite cget, Hd).
  rewrite (cstep _ _ _ () h) by (apply assert_ok; by apply Z.ltb_lt). done.
Qed.

(** ** The loops over an arena *)

(** The heap with another free list for descriptor [k]. *)
Definition with_free (h : heap) (k : nat) (d : desc) (fl : list Z) : heap :=
  Heap (<[k := Desc (d_block_size d) (blocks_per_arena d) fl]> (descs h)) (arenas h) (pages h).

Lemma with_free_lookup h k d fl : descs h !! k = Some d →
  descs (with_free h k d fl) !! k = Some (Desc (d_block_size d) (blocks_per_arena d) fl).
Proof. intros Hd. simpl. apply list_lookup_insert_eq. by eapply lookup_lt_Some. Qed.

Lemma with_free_twice h k d fl fl' :
  with_free (with_free h k d fl) k (Desc (d_block_size d) (blocks_per_arena d) fl) fl' = with_free h k d fl'.
Proof. unfold with_free. simpl. by rewrite list_insert_insert_eq. Qed.

Lemma with_free_same h k d : descs h !! k = Some d → with_free h k d (free_list d) = h.
Proof. intros Hd. unfold with_free. destruct d, h. simpl in *. by rewrite list_insert_id. Qed.

Lemma get_desc_ok h k d : descs h !! k = Some d → get_desc k h = Ret (d, h).
Proof. intros Hd. unfold get_desc. by rewrite cget, Hd. Qed.
Lemma get_arena_ok h a ar : arenas h !! a = Some ar → get_arena a h = Ret (ar, h).
Proof. intros Hd. unfold get_arena. by rewrite cget, Hd. Qed.

Section EachBlock.
Context (h : heap) (a : Z) (ar : arena) (k : nat) (d : desc).
Hypotheses (Har : arenas h !! a = Some ar) (Hmg : magic ar = ARENA_MAGIC) (Hk : a_desc ar = Some k).
Hypotheses (Hd : descs h !! k = Some d) (Ha : a ≠ 0).

Lemma each_block_push n i fl : i + Z.of_nat n ≤ blocks_per_arena d →
  each_block n a i (push_back k) (with_free h k d fl) =
  Ret ((), with_free h k d (fl ++ map (blk a d) (seqZ i (Z.of_nat n)))).
Proof.
  revert i fl; induction n as [|n IH]; intros i fl Hi; cbn [each_block].
  { simpl. by rewrite app_nil_r. }
  erewrite cstep by (eapply (arena_to_block_ok _ a ar k); [done..|by apply with_free_lookup|done|simpl; lia]).
  erewrite cstep.
  2:{ unfold push_back. erewrite cstep by (by apply get_desc_ok, with_free_lookup).
      unfold set_desc, modify. reflexivity. }
  change (Heap _ _ _) with (with_free (with_free h k d fl) k (Desc (d_block_size d) (blocks_per_arena d) fl) (fl ++ [blk a d i])).
  rewrite with_free_twice, IH by lia.
  rewrite (seqZ_cons i) by lia. replace (Z.succ i) with (i + 1) by lia.
  replace (Z.pred (Z.of_nat (S n))) with (Z.of_nat n) by lia. cbn [map]. by rewrite <- app_assoc.
Qed.

Lemma each_block_unlink n i fl : 0 ≤ i → i + Z.of_nat n ≤ blocks_per_arena d → desc_shape d →
  (∀ j, i ≤ j < i + Z.of_nat n → blk a d j ∈ fl) →
  each_block n a i (unlink k) (with_free h k d fl) =
  Ret ((), with_free h k d (filter (.∉ map (blk a d) (seqZ i (Z.of_nat n))) fl)).
Proof.
  intros H0. revert i H0 fl; induction n as [|n IH]; intros i H0 fl Hi Hsh Hin; cbn [each_block].
  { rewrite filter_all; [done|]. intros x _. apply not_elem_of_nil. }
  erewrite cstep by (eapply (arena_to_block_ok _ a ar k); [done..|by apply with_free_lookup|done|simpl; lia]).
  erewrite cstep.
  2:{ unfold unlink. erewrite cstep by (by apply get_desc_ok, with_free_lookup).
      rewrite decide_True by (apply Hin; lia). unfold set_desc, modify. reflexivity. }
  change (Heap _ _ _) with (with_free (with_free h k d fl) k (Desc (d_block_size d) (blocks_per_arena d) fl) (filter (.≠ blk a d i) fl)).
  rewrite with_free_twice, IH; [|lia|lia|done|].
  - rewrite (seqZ_cons i) by lia. replace (Z.succ i) with (i + 1) by lia.
    replace (Z.pred (Z.of_nat (S n))) with (Z.of_nat n) by lia. cbn [map].
    rewrite list_filter_filter. do 3 f_equal. apply list_filter_iff. intros x.
    rewrite elem_of_cons. naive_solver.
  - intros j Hj. apply list_elem_of_filter. split; [|apply Hin; lia].
    intros E%blk_inj; [lia|done].
Qed.
End EachBlock.

(** ** The invariant along the steps of the operations *)

Lemma arena_addr h a ar : heap_ok h → arenas h !! a = Some ar →
  0 < a ∧ a mod 4096 = 0 ∧ a + 4096 * arena_pages ar ≤ 2^32 ∧ 1 ≤ arena_pages ar ∧
  base (kernel_pool (pages h)) ≤ a ∧ a + 4096 * arena_pages ar ≤ pool_end (kernel_pool (pages h)).
Proof.
  intros Hh Har. pose proof (ho_arenas _ Hh _ _ Har) as [_ Hc Ho _].
  pose proof (owned_addr _ _ _ (ho_pages _ Hh) Ho Hc). tauto.
Qed.

(** The page of a block is its arena. *)
Lemma blk_arena h a ar k d i : heap_ok h → arenas h !! a = Some ar → a_desc ar = Some k →
  descs h !! k = Some d → 0 ≤ i < blocks_per_arena d →
  page_of (blk a d i) = a ∧ a + 12 ≤ blk a d i ∧ blk a d i + d_block_size d ≤ a + 4096.
Proof.
  intros Hh Har Hk Hd Hi. pose proof (arena_addr _ _ _ Hh Har) as (H0 & Hm & H32 & _).
  unfold arena_pages in H32. rewrite Hk in H32.
  destruct (blk_page a d i) as (? & _ & _ & ? & ?); [done..|lia|by apply (ho_descs _ Hh k d Hd)|done|done].
Qed.

Lemma free_block h k d b : heap_ok h → descs h !! k = Some d → b ∈ free_list d →
  ∃ ar i, arenas h !! page_of b = Some ar ∧ a_desc ar = Some k ∧ 0 ≤ i < blocks_per_arena d ∧
    b = blk (page_of b) d i.
Proof.
  intros Hh Hd Hb. destruct (de_free _ _ _ (ho_descs _ Hh k d Hd) b Hb) as (a & ar & i & Har & Hk & Hi & Eb).
  destruct (blk_arena h a ar k d i) as (Hp & _); [done..|].
  exists ar, i. assert (page_of b = a) as -> by congruence. done.
Qed.

Lemma free_in_blocks h a k d b : heap_ok h → descs h !! k = Some d →
  b ∈ free_in a (free_list d) → b ∈ blocks a d.
Proof.
  intros Hh Hd [Hp Hb]%list_elem_of_filter.
  destruct (free_block h k d b Hh Hd Hb) as (ar & i & _ & _ & Hi & Eb).
  apply elem_of_blocks. exists i. rewrite Hp in Eb. done.
Qed.

Lemma blocks_length a d : 0 ≤ blocks_per_arena d → zlength (blocks a d) = blocks_per_arena d.
Proof. intros H. unfold blocks. rewrite length_map, length_seqZ. lia. Qed.

Lemma shape_blocks d : desc_shape d → 1 ≤ blocks_per_arena d ≤ 4084.
Proof. intros [Hs ->]. div_lia. Qed.

Lemma blocks_NoDup a d : desc_shape d → NoDup (blocks a d).
Proof.
  intros Hs. unfold blocks. apply NoDup_fmap_2_strong; [|apply NoDup_seqZ].
  intros i j _ _. by apply blk_inj.
Qed.

Lemma blocks_page h a k d b : heap_ok h → descs h !! k = Some d → 0 < a → a mod 4096 = 0 → a + 4096 ≤ 2^32 →
  b ∈ blocks a d → page_of b = a.
Proof.
  intros Hh Hd H0 Hm H32 (i & Hi & ->)%elem_of_blocks.
  apply blk_page; try done. apply (ho_descs _ Hh k d Hd).
Qed.

Lemma free_in_other a fl gl : (∀ b, b ∈ gl → page_of b ≠ a) → free_in a (fl ++ gl) = free_in a fl.
Proof.
  intros H. unfold free_in. rewrite filter_app, (filter_none _ gl) by done. apply app_nil_r.
Qed.

(** [h'] is [h] with changes to the arena at page [a] only: its header, its
    blocks in the free lists, and the pages in use. *)
Definition in_arena (h : heap) (a : Z) (k : nat) : Prop :=
  ∃ ar, arenas h !! a = Some ar ∧ a_desc ar = Some k.

Record same_elsewhere (h' : heap) (a : Z) (k : nat) (d d' : desc) : Prop := {
  se_size : d_block_size d' = d_block_size d;
  se_cnt : blocks_per_arena d' = blocks_per_arena d;
  se_nodup : NoDup (free_list d');
  se_other a' : a' ≠ a → free_in a' (free_list d') = free_in a' (free_list d);
  se_here b : b ∈ free_in a (free_list d') → b ∈ blocks a d ∧ in_arena h' a k
}.

Record step_at (a : Z) (h h' : heap) : Prop := {
  st_pages : palloc_ok (pages h');
  st_mapped : kernel_mapped (pages h');
  st_arenas a' : a' ≠ a → arenas h' !! a' = arenas h !! a';
  st_owned a' ar : a' ≠ a → arenas h !! a' = Some ar → owned (pages h') a' (arena_pages ar);
  st_descs k : option_Forall2 (same_elsewhere h' a k) (descs h !! k) (descs h' !! k);
  st_here ar : arenas h' !! a = Some ar → arena_ok h' a ar ∧
    ∀ a' ar', a' ≠ a → arenas h !! a' = Some ar' →
      a + 4096 * arena_pages ar ≤ a' ∨ a' + 4096 * arena_pages ar' ≤ a
}.

Lemma elem_of_free_in b fl : b ∈ free_in (page_of b) fl ↔ b ∈ fl.
Proof. unfold free_in. rewrite list_elem_of_filter. tauto. Qed.

Lemma step_desc_ok a h h' k d' : heap_ok h → step_at a h h' → descs h' !! k = Some d' → desc_ok h' k d'.
Proof.
  intros Hh Hs Hd'. pose proof (st_descs _ _ _ Hs k) as H. rewrite Hd' in H.
  inversion H as [d ? [Es Ec Hnd Hot Hhe] Hd|]; subst. symmetry in Hd.
  pose proof (ho_descs _ Hh k d Hd) as [Hsh _ _].
  split; [unfold desc_shape in *; by rewrite Es, Ec|done|]. intros b Hb.
  rewrite <- elem_of_free_in in Hb. destruct (decide (page_of b = a)) as [E|E].
  - rewrite E in Hb. apply Hhe in Hb as [(i & Hi & ->)%elem_of_blocks (ar & Har & Hk)].
    exists a, ar, i. rewrite Ec. unfold blk. by rewrite Es.
  - rewrite Hot, elem_of_free_in in Hb by done.
    destruct (free_block h k d b Hh Hd Hb) as (ar & i & Har & Hk & Hi & Eb).
    exists (page_of b), ar, i. rewrite (st_arenas _ _ _ Hs) by done. rewrite Ec. unfold blk in *. by rewrite Es.
Qed.

Lemma step_arena_ok a h h' a' ar : heap_ok h → step_at a h h' → arenas h' !! a' = Some ar → arena_ok h' a' ar.
Proof.
  intros Hh Hs Har. destruct (decide (a' = a)) as [->|Ha]; [by apply Hs|].
  rewrite (st_arenas _ _ _ Hs) in Har by done.
  pose proof (ho_arenas _ Hh a' ar Har) as [? ? ? Hf]. split; [done..|by apply Hs|].
  destruct (a_desc ar) as [k|]; [|done]. destruct Hf as (d & Hd & Hc).
  pose proof (st_descs _ _ _ Hs k) as H. rewrite Hd in H. inversion H as [? d' [_ _ _ Hot _] Ed Ed'|]; subst.
  exists d'. split; [done|]. by rewrite Hot.
Qed.

Lemma step_inv a h h' : heap_ok h → step_at a h h' → heap_ok h'.
Proof.
  intros Hh Hs. split; [apply Hs|apply Hs|..].
  - intros k d'. by apply (step_desc_ok a h).
  - intros a' ar. by apply (step_arena_ok a h).
  - intros a1 ar1 a2 ar2 H1 H2 H12. destruct (decide (a1 = a)) as [->|]; destruct (decide (a2 = a)) as [->|].
    + done.
    + rewrite (st_arenas _ _ _ Hs) in H2 by done. by apply (proj2 (st_here _ _ _ Hs _ H1)).
    + rewrite (st_arenas _ _ _ Hs) in H1 by done. destruct (proj2 (st_here _ _ _ Hs _ H2) _ _ H12 H1); auto.
    + rewrite (st_arenas _ _ _ Hs) in H1, H2 by done. by apply (ho_disjoint _ Hh).
Qed.

(** Blocks elsewhere are allocated or not as before. *)
Lemma step_live a h h' q m : step_at a h h' → page_of q ≠ a → live h' q m ↔ live h q m.
Proof.
  intros Hs Hq. unfold live. rewrite (st_arenas _ _ _ Hs) by done.
  apply exist_proper. intros ar. apply and_iff_compat_l. destruct (a_desc ar) as [k|]; [|done].
  pose proof (st_descs _ _ _ Hs k) as H. inversion H as [d d' [Es Ec _ Hot _] Ed Ed'|]; [|done].
  assert (q ∉ free_list d' ↔ q ∉ free_list d) as Hfree
    by (rewrite <- (elem_of_free_in q (free_list d')), <- (elem_of_free_in q (free_list d)); by rewrite Hot).
  unfold blk. split; intros (d0 & i & E0 & ?); injection E0 as <-.
  - exists d, i. by rewrite <- Es, <- Ec, <- Hfree.
  - exists d', i. by rewrite Es, Ec, Hfree.
Qed.

Lemma descs_refl h h' a : heap_ok h → (∀ k, ¬ in_arena h a k) → descs h' = descs h →
  ∀ k, option_Forall2 (same_elsewhere h' a k) (descs h !! k) (descs h' !! k).
Proof.
  intros Hh Hno -> k. destruct (descs h !! k) as [d|] eqn:Hd; constructor.
  split; try done; [apply (ho_descs _ Hh k d Hd)|].
  intros b [Hp Hb]%list_elem_of_filter. destruct (free_block h k d b Hh Hd Hb) as (ar & _ & Har & Hk & _).
  destruct (Hno k). exists ar. by rewrite <- Hp.
Qed.

Lemma descs_insert h h' a k d fl : heap_ok h → descs h !! k = Some d → (∀ k', k' ≠ k → ¬ in_arena h a k') →
  descs h' = <[k := Desc (d_block_size d) (blocks_per_arena d) fl]> (descs h) →
  NoDup fl → (∀ a', a' ≠ a → free_in a' fl = free_in a' (free_list d)) →
  (∀ b, b ∈ free_in a fl → b ∈ blocks a d ∧ in_arena h' a k) →
  ∀ k, option_Forall2 (same_elsewhere h' a k) (descs h !! k) (descs h' !! k).
Proof.
  intros Hh Hd Hno -> Hnd Hot Hhe k'. destruct (decide (k' = k)) as [->|Hk'].
  - rewrite list_lookup_insert_eq, Hd by (by eapply lookup_lt_Some). by constructor.
  - rewrite list_lookup_insert_ne by done. destruct (descs h !! k') as [d'|] eqn:Hd'; constructor.
    split; try done; [apply (ho_descs _ Hh k' d' Hd')|].
    intros b [Hp Hb]%list_elem_of_filter. destruct (free_block h k' d' b Hh Hd' Hb) as (ar & _ & Har & Hak & _).
    destruct (Hno k' Hk'). exists ar. by rewrite <- Hp.
Qed.

(** The other arenas keep their pages in [P'], apart from those of [a]. *)
Definition others_keep (h : heap) (a n : Z) (P' : palloc) : Prop :=
  ∀ a' ar', a' ≠ a → arenas h !! a' = Some ar' → owned P' a' (arena_pages ar') ∧
    (a + 4096 * n ≤ a' ∨ a' + 4096 * arena_pages ar' ≤ a).

Definition put_arena (h : heap) (k : nat) (d : desc) (a : Z) (fl : list Z) (P' : palloc) : heap :=
  Heap (<[k := Desc (d_block_size d) (blocks_per_arena d) fl]> (descs h))
       (<[a := Arena ARENA_MAGIC (Some k) (zlength (free_in a fl))]> (arenas h)) P'.
Definition drop_arena (h : heap) (k : nat) (d : desc) (a : Z) (fl : list Z) (P' : palloc) : heap :=
  Heap (<[k := Desc (d_block_size d) (blocks_per_arena d) fl]> (descs h)) (delete a (arenas h)) P'.

Lemma put_arena_step h k d a fl P' : heap_ok h → descs h !! k = Some d →
  palloc_ok P' → kernel_mapped P' → others_keep h a 1 P' → owned P' a 1 →
  (∀ k', k' ≠ k → ¬ in_arena h a k') → NoDup fl →
  (∀ a', a' ≠ a → free_in a' fl = free_in a' (free_list d)) →
  (∀ b, b ∈ free_in a fl → b ∈ blocks a d) → step_at a h (put_arena h k d a fl P').
Proof.
  intros Hh Hd HP Hm Hkeep Ho Hno Hnd Hot Hin. split; [done|done| | | |].
  - intros a' Ha'. by apply lookup_insert_ne.
  - intros a' ar Ha' Har. by apply Hkeep.
  - apply (descs_insert h _ a k d fl); try done. intros b Hb. split; [by apply Hin|].
    eexists. split; [apply lookup_insert_eq|done].
  - intros ar Har. simpl in Har. rewrite lookup_insert_eq in Har. injection Har as <-. split.
    + split; simpl; [done..| |].
      * done.
      * eexists. split; [apply list_lookup_insert_eq; by eapply lookup_lt_Some|done].
    + intros a' ar' Ha' Har'. by apply Hkeep.
Qed.

Lemma drop_arena_step h k d a fl P' : heap_ok h → descs h !! k = Some d →
  palloc_ok P' → kernel_mapped P' → others_keep h a 1 P' →
  (∀ k', k' ≠ k → ¬ in_arena h a k') → NoDup fl →
  (∀ a', a' ≠ a → free_in a' fl = free_in a' (free_list d)) → free_in a fl = [] →
  step_at a h (drop_arena h k d a fl P').
Proof.
  intros Hh Hd HP Hm Hkeep Hno Hnd Hot Hnil. split; [done|done| | | |].
  - intros a' Ha'. by apply lookup_delete_ne.
  - intros a' ar Ha' Har. by apply Hkeep.
  - apply (descs_insert h _ a k d fl); try done. rewrite Hnil. intros b Hb. by apply elem_of_nil in Hb.
  - intros ar Har. simpl in Har. by rewrite lookup_delete_eq in Har.
Qed.

(** Arenas of big blocks. *)
Lemma put_big_step h a n P' : heap_ok h → palloc_ok P' → kernel_mapped P' → 1 ≤ n → others_keep h a n P' →
  owned P' a n → (∀ k, ¬ in_arena h a k) →
  step_at a h (Heap (descs h) (<[a := Arena ARENA_MAGIC None n]> (arenas h)) P').
Proof.
  intros Hh HP Hm Hn Hkeep Ho Hno. split; [done|done| | | |].
  - intros a' Ha'. by apply lookup_insert_ne.
  - intros a' ar Ha' Har. by apply Hkeep.
  - by apply descs_refl.
  - intros ar Har. simpl in Har. rewrite lookup_insert_eq in Har. injection Har as <-.
    split; [done|]. intros a' ar' Ha' Har'. by apply Hkeep.
Qed.

Lemma drop_big_step h a n P' : heap_ok h → palloc_ok P' → kernel_mapped P' → others_keep h a n P' →
  (∀ k, ¬ in_arena h a k) → step_at a h (Heap (descs h) (delete a (arenas h)) P').
Proof.
  intros Hh HP Hm Hkeep Hno. split; [done|done| | | |].
  - intros a' Ha'. by apply lookup_delete_ne.
  - intros a' ar Ha' Har. by apply Hkeep.
  - by apply descs_refl.
  - intros ar Har. simpl in Har. by rewrite lookup_delete_eq in Har.
Qed.

(** An arena that exists already. *)
Lemma others_keep_old h a ar P' : heap_ok h → arenas h !! a = Some ar →
  (∀ b n, owned (pages h) b n → b + 4096 * n ≤ a ∨ a + 4096 * arena_pages ar ≤ b → owned P' b n) →
  others_keep h a (arena_pages ar) P'.
Proof.
  intros Hh Har Hk a' ar' Ha' Har'. pose proof (ho_disjoint _ Hh _ _ _ _ Har Har' (not_eq_sym Ha')) as Hd.
  pose proof (ho_arenas _ Hh _ _ Har') as [_ _ Ho _]. split; [apply Hk; [done|lia]|lia].
Qed.

(** A new one. *)
Lemma others_keep_new h a n P' : heap_ok h →
  (∀ b m, owned (pages h) b m → owned P' b m) →
  (∀ b m, owned (pages h) b m → 1 ≤ m → b + 4096 * m ≤ a ∨ a + 4096 * n ≤ b) →
  1 ≤ n → arenas h !! a = None ∧ others_keep h a n P'.
Proof.
  intros Hh Hk Hdis Hn. split.
  - destruct (arenas h !! a) as [ar|] eqn:E; [|done]. pose proof (ho_arenas _ Hh _ _ E) as [_ Hc Hp _].
    pose proof (Hdis _ _ Hp Hc). lia.
  - intros a' ar' Ha' Har'. pose proof (ho_arenas _ Hh _ _ Har') as [_ Hc Hp _].
    split; [by apply Hk|]. pose proof (Hdis _ _ Hp Hc). lia.
Qed.

Lemma in_arena_unique h a ar k k' : arenas h !! a = Some ar → a_desc ar = Some k → k' ≠ k → ¬ in_arena h a k'.
Proof. intros Har Hk Hne (ar' & Har' & Hk'). congruence. Qed.

Lemma in_arena_none h a k : arenas h !! a = None → ¬ in_arena h a k.
Proof. intros Hn (ar & Har & _). congruence. Qed.

(** ** Allocation *)

Lemma new_arena_inv h k d a P' : heap_ok h → descs h !! k = Some d → free_list d = [] →
  palloc_ok P' → kernel_mapped P' → arenas h !! a = None → others_keep h a 1 P' → owned P' a 1 →
  heap_ok (put_arena h k d a (blocks a d) P') ∧
  (∀ q m, live (put_arena h k d a (blocks a d) P') q m ↔ live h q m) ∧
  zlength (free_in a (blocks a d)) = blocks_per_arena d.
Proof.
  intros Hh Hd Hnil HP Hm Hnone Hkeep Ho.
  pose proof (owned_addr _ _ _ HP Ho ltac:(lia)) as (Ha0 & Ham & Ha32 & _).
  assert (∀ b, b ∈ blocks a d → page_of b = a) as Hpg by (intros b; apply (blocks_page h a k d); done || lia).
  pose proof (ho_descs _ Hh k d Hd) as [Hsh _ _].
  assert (step_at a h (put_arena h k d a (blocks a d) P')) as Hst.
  { apply put_arena_step; try done.
    - intros k' _. by apply in_arena_none.
    - by apply blocks_NoDup.
    - intros a' Ha'. rewrite Hnil. apply (free_in_other a' []). intros b Hb%Hpg. congruence.
    - intros b [_ Hb]%list_elem_of_filter. done. }
  split; [by apply (step_inv a h)|]. split.
  - intros q m. destruct (decide (page_of q = a)) as [E|E]; [|by apply (step_live a)].
    split; intros (ar & Har & Hl).
    + simpl in Har. rewrite E, lookup_insert_eq in Har. injection Har as <-. simpl in Hl.
      destruct Hl as (d' & i & Hd' & Hi & Eq & _ & Hnf).
      rewrite list_lookup_insert_eq in Hd' by (by eapply lookup_lt_Some). injection Hd' as <-.
      destruct Hnf. simpl in *. apply elem_of_blocks. exists i. by rewrite E in Eq.
    + rewrite E in Har. congruence.
  - unfold free_in. rewrite filter_all by done. apply blocks_length. pose proof (shape_blocks d Hsh). lia.
Qed.

Lemma new_arena_ok h k d : heap_ok h → descs h !! k = Some d → free_list d = [] →
  new_arena k h = Ret (false, h) ∨
  ∃ h' d', new_arena k h = Ret (true, h') ∧ heap_ok h' ∧ descs h' !! k = Some d' ∧
    d_block_size d' = d_block_size d ∧ free_list d' ≠ [] ∧
    contents (pages h') = contents (pages h) ∧ ∀ q m, live h' q m ↔ live h q m.
Proof.
  intros Hh Hd Hnil. unfold new_arena. rewrite (cstep _ _ _ d h) by (by apply get_desc_ok).
  pose proof (shape_blocks d (de_shape _ _ _ (ho_descs _ Hh k d Hd))) as Hbpa.
  destruct (get_pages_ok h 1) as [Hg|(_ & a & P' & Hg & HP & Hm & Hcon & Ho & Hk & Hdis)];
    [apply Hh|apply Hh|lia| |].
  { left. by rewrite (cstep _ _ _ _ _ Hg). }
  right. rewrite (cstep _ _ _ _ _ Hg).
  destruct (others_keep_new h a 1 P' Hh Hk Hdis) as [Hnone Hkeep]; [lia|].
  destruct (new_arena_inv h k d a P') as (Hok & Hlive & Hlen); [done..|].
  set (h1 := Heap (descs h) (<[a := Arena ARENA_MAGIC (Some k) (blocks_per_arena d)]> (arenas h)) P').
  rewrite (cstep _ _ _ () h1) by done.
  assert (h1 = with_free h1 k d []) as -> by (rewrite <- Hnil; symmetry; by apply with_free_same).
  pose proof (owned_addr _ _ _ HP Ho ltac:(lia)) as (Ha0 & _).
  erewrite cstep by (eapply each_block_push; [apply lookup_insert_eq|done|done|done|lia|lia]).
  rewrite Z2Nat.id by lia. simpl app.
  assert (with_free h1 k d (map (blk a d) (seqZ 0 (blocks_per_arena d))) = put_arena h k d a (blocks a d) P') as ->.
  { unfold put_arena. rewrite Hlen. done. }
  eexists _, _. split; [done|]. split; [done|].
  split; [apply list_lookup_insert_eq; by eapply lookup_lt_Some|].
  split; [done|]. split; [|split; [done|done]]. simpl. intros E. apply (f_equal (λ l, zlength l)) in E.
  rewrite blocks_length in E; simpl in E; lia.
Qed.

(** Take the first free block. *)
Definition take_block (k : nat) : cmd heap (option Z) :=
  let* b := pop_front k in
  let* a := block_to_arena b in
  let* ar := get_arena a in
  let* _ := set_arena a (Arena (magic ar) (a_desc ar) (u32 (free_cnt ar - 1))) in
  mret (Some b).

Lemma free_in_cons b fl : free_in (page_of b) (b :: fl) = b :: free_in (page_of b) fl.
Proof. unfold free_in. by rewrite filter_cons_True. Qed.
Lemma free_in_cons_ne a b fl : a ≠ page_of b → free_in a (b :: fl) = free_in a fl.
Proof. intros H. unfold free_in. by rewrite filter_cons_False. Qed.

Lemma arena_count h a ar k d : heap_ok h → arenas h !! a = Some ar → a_desc ar = Some k →
  descs h !! k = Some d → free_cnt ar = zlength (free_in a (free_list d)) ∧ free_cnt ar ≤ blocks_per_arena d.
Proof.
  intros Hh Har Hk Hd. pose proof (ho_arenas _ Hh _ _ Har) as [_ _ _ Hf]. rewrite Hk in Hf.
  destruct Hf as (d' & Hd' & Hc). assert (d' = d) as -> by congruence. split; [done|].
  pose proof (ho_descs _ Hh k d Hd) as [Hsh Hnd _]. pose proof (shape_blocks d Hsh).
  rewrite Hc, <- (blocks_length a d) by lia. apply inj_le, NoDup_incl_length; [by apply NoDup_filter|].
  intros b. by apply (free_in_blocks h a k d).
Qed.

Lemma take_inv h k d b l ar : heap_ok h → descs h !! k = Some d → free_list d = b :: l →
  arenas h !! page_of b = Some ar → a_desc ar = Some k →
  heap_ok (put_arena h k d (page_of b) l (pages h)) ∧
  ∀ q m, live (put_arena h k d (page_of b) l (pages h)) q m ↔ live h q m ∨ q = b ∧ m = d_block_size d.
Proof.
  intros Hh Hd Hfl Har Hk. pose proof (ho_descs _ Hh k d Hd) as [Hsh Hnd _].
  pose proof (ho_arenas _ Hh _ _ Har) as [_ _ Hown _]. unfold arena_pages in Hown. rewrite Hk in Hown.
  rewrite Hfl in Hnd. apply NoDup_cons in Hnd as [Hbl Hnd].
  assert (step_at (page_of b) h (put_arena h k d (page_of b) l (pages h))) as Hst.
  { apply put_arena_step; try done; try apply Hh.
    - pose proof (others_keep_old h _ ar (pages h) Hh Har ltac:(auto)) as Hko.
      unfold arena_pages in Hko. by rewrite Hk in Hko.
    - intros k'. by apply (in_arena_unique h _ ar k).
    - intros a' Ha'. rewrite Hfl. by rewrite free_in_cons_ne.
    - intros b' Hb'. apply (free_in_blocks h _ k d); [done..|]. rewrite Hfl, free_in_cons. set_solver. }
  split; [by apply (step_inv (page_of b) h)|]. intros q m.
  destruct (decide (page_of q = page_of b)) as [E|E].
  2:{ rewrite (step_live _ _ _ q m Hst E). split; [auto|]. intros [?|[-> _]]; done. }
  unfold live. rewrite E. cbn [put_arena arenas descs]. rewrite lookup_insert_eq, Har. split.
  - intros (ar' & [= <-] & d' & i & Hd' & Hi & Eq & -> & Hnf). cbn [a_desc] in *.
    rewrite list_lookup_insert_eq in Hd' by (by eapply lookup_lt_Some). injection Hd' as <-. simpl in *.
    destruct (decide (q = b)) as [->|Hne]; [by right|]. left. exists ar. split; [done|].
    rewrite Hk. exists d, i. rewrite Hfl. do 4 (split; [done|]). set_solver.
  - intros [(ar' & [= <-] & Hl)|[-> ->]].
    + rewrite Hk in Hl. destruct Hl as (d' & i & Hd' & Hi & Eq & -> & Hnf).
      assert (d' = d) as -> by congruence. eexists. split; [done|]. cbn [a_desc].
      eexists _, i. split; [apply list_lookup_insert_eq; by eapply lookup_lt_Some|]. simpl.
      do 3 (split; [done|]). rewrite Hfl in Hnf. set_solver.
    + destruct (free_block h k d b Hh Hd) as (_ & i & _ & _ & Hi & Eb); [rewrite Hfl; set_solver|].
      eexists. split; [done|]. cbn [a_desc].
      eexists _, i. split; [apply list_lookup_insert_eq; by eapply lookup_lt_Some|]. done.
Qed.

Lemma take_block_ok h k d b l : heap_ok h → descs h !! k = Some d → free_list d = b :: l →
  ∃ h', take_block k h = Ret (Some b, h') ∧ heap_ok h' ∧ contents (pages h') = contents (pages h) ∧
    ∀ q m, live h' q m ↔ live h q m ∨ q = b ∧ m = d_block_size d.
Proof.
  intros Hh Hd Hfl. destruct (free_block h k d b Hh Hd) as (ar & i & Har & Hk & Hi & Eb); [rewrite Hfl; set_solver|].
  destruct (take_inv h k d b l ar) as [Hok Hlive]; [done..|].
  exists (put_arena h k d (page_of b) l (pages h)). split; [|done]. unfold take_block.
  rewrite (cstep _ _ _ b (with_free h k d l)).
  2:{ unfold pop_front. rewrite (cstep _ _ _ d h) by (by apply get_desc_ok). by rewrite Hfl. }
  pose proof (ho_descs _ Hh k d Hd) as [Hsh Hnd _]. pose proof (ho_arenas _ Hh _ _ Har) as [Hmg _ _ _].
  pose proof (arena_addr h _ ar Hh Har) as (Ha0 & Ham & Ha32 & Ha1 & _).
  rewrite (cstep _ _ _ (page_of b) (with_free h k d l)).
  2:{ rewrite Eb at 1. change (blk (page_of b) d i) with (blk (page_of b) (Desc (d_block_size d) (blocks_per_arena d) l) i).
      apply (block_to_arena_small _ _ ar k); try done; [by apply with_free_lookup|lia]. }
  rewrite (cstep _ _ _ ar (with_free h k d l)) by (by apply get_arena_ok).
  destruct (arena_count h _ ar k d Hh Har Hk Hd) as [Hc Hle]. rewrite Hfl, free_in_cons in Hc. simpl in Hc.
  pose proof (shape_blocks d Hsh). rewrite Hmg, Hk, u32_id by lia.
  unfold put_arena. replace (zlength (free_in (page_of b) l)) with (free_cnt ar - 1) by lia. done.
Qed.

Lemma find_desc_Some ds size k : find_desc ds size = Some k → ∃ d, ds !! k = Some d ∧ size ≤ d_block_size d.
Proof.
  revert k; induction ds as [|d ds IH]; intros k; simpl; [done|].
  destruct (Z.leb_spec size (d_block_size d)); [intros [= <-]; eauto|].
  destruct (find_desc ds size) as [j|]; simpl; [|done]. intros [= <-]. by apply IH.
Qed.

(** An allocated block lies in its arena, behind the header. *)
Lemma live_range h p n : heap_ok h → live h p n → ∃ ar, arenas h !! page_of p = Some ar ∧
  page_of p + 12 ≤ p ∧ 16 ≤ n ∧ p + n ≤ page_of p + 4096 * arena_pages ar.
Proof.
  intros Hh (ar & Har & Hl). pose proof (arena_addr _ _ _ Hh Har) as (_ & _ & _ & Hc & _).
  exists ar. split; [done|]. unfold arena_pages in *. destruct (a_desc ar) as [k|] eqn:Hk; [|lia].
  destruct Hl as (d & i & Hd & Hi & Eb & -> & _).
  destruct (blk_arena h _ ar k d i Hh Har Hk Hd Hi) as (_ & Hlo & Hhi). rewrite <- Eb in Hlo, Hhi.
  pose proof (ho_descs _ Hh k d Hd) as [[Hs _] _ _]. lia.
Qed.

Lemma live_mapped h p n x : heap_ok h → live h p n → p ≤ x < p + n → mapped (contents (pages h)) x.
Proof.
  intros Hh Hl Hx. destruct (live_range h p n Hh Hl) as (ar & Har & Hlo & _ & Hhi).
  pose proof (arena_addr _ _ _ Hh Har). apply (ho_mapped _ Hh). lia.
Qed.

Lemma live_disjoint h p n q m : heap_ok h → live h p n → live h q m →
  p = q ∧ n = m ∨ p + n ≤ q ∨ q + m ≤ p.
Proof.
  intros Hh Hp Hq. destruct (decide (page_of p = page_of q)) as [E|E].
  - destruct Hp as (ar & Har & Hp), Hq as (ar' & Har' & Hq). rewrite E in Har.
    assert (ar' = ar) as -> by congruence. destruct (a_desc ar) as [k|].
    + destruct Hp as (d & i & Hd & Hi & Ep & -> & _), Hq as (d' & j & Hd' & Hj & Eq & -> & _).
      assert (d' = d) as -> by congruence. rewrite E in Ep. unfold blk in *.
      pose proof (ho_descs _ Hh k d Hd) as [[Hs _] _ _].
      destruct (Z.lt_trichotomy i j) as [?|[->|?]]; [right; left|left|right; right]; nia.
    + left. rewrite E in Hp. lia.
  - destruct (live_range h p n Hh Hp) as (ar & Har & ? & _ & ?), (live_range h q m Hh Hq) as (ar' & Har' & ? & _ & ?).
    pose proof (ho_disjoint _ Hh _ _ _ _ Har Har' E). lia.
Qed.

(** What a successful allocation of [n] bytes at [p] does. *)
Definition allocated (h h' : heap) (p n : Z) : Prop :=
  heap_ok h' ∧ contents (pages h') = contents (pages h) ∧ ¬ (∃ m, live h p m) ∧
  ∀ q m, live h' q m ↔ live h q m ∨ q = p ∧ m = n.

Lemma malloc_small_ok h size k : heap_ok h → size ≠ 0 → find_desc (descs h) size = Some k →
  (∃ h', malloc size h = Ret (None, h') ∧ h' = h) ∨
  ∃ p n h', malloc size h = Ret (Some p, h') ∧ size ≤ n ∧ allocated h h' p n.
Proof.
  intros Hh H0 Hfind. unfold malloc. apply Z.eqb_neq in H0. rewrite H0, cget, Hfind.
  destruct (find_desc_Some _ _ _ Hfind) as (d & Hd & Hsz).
  rewrite (cstep _ _ _ d h) by (by apply get_desc_ok).
  assert (∀ h1 d1, heap_ok h1 → descs h1 !! k = Some d1 → d_block_size d1 = d_block_size d →
    free_list d1 ≠ [] → contents (pages h1) = contents (pages h) → (∀ q m, live h1 q m ↔ live h q m) →
    ∃ p n h', take_block k h1 = Ret (Some p, h') ∧ size ≤ n ∧ allocated h h' p n) as Htake.
  { intros h1 d1 Hok1 Hd1 Es Hne Hcon Hlive. destruct (free_list d1) as [|b l] eqn:Hfl; [done|].
    destruct (take_block_ok h1 k d1 b l) as (h' & -> & Hok' & Hcon' & Hlive'); [done..|].
    exists b, (d_block_size d1), h'. split; [done|]. split; [lia|]. split; [done|]. split; [congruence|]. split.
    - intros [m Hm]. apply Hlive in Hm. destruct Hm as (ar & Har & Hm).
      destruct (free_block h1 k d1 b Hok1 Hd1) as (ar' & i & Har' & Hk & _); [rewrite Hfl; set_solver|].
      assert (ar' = ar) as -> by congruence. rewrite Hk in Hm.
      destruct Hm as (d2 & _ & Hd2 & _ & _ & _ & Hnf). assert (d2 = d1) as -> by congruence.
      rewrite Hfl in Hnf. set_solver.
    - intros q m. by rewrite Hlive', Hlive. }
  case_decide as Hnil.
  - destruct (new_arena_ok h k d Hh Hd Hnil) as [Hn|(h1 & d1 & Hn & Hok1 & Hd1 & Es & Hne & Hcon & Hlive)].
    + left. rewrite (cstep _ _ _ _ _ Hn). eauto.
    + right. rewrite (cstep _ _ _ _ _ Hn). by apply (Htake h1 d1).
  - right. rewrite cret. by apply (Htake h d).
Qed.

(** The page count of a big request; a request within a page of the largest
    size wraps to zero pages, which [palloc_get_multiple] refuses. *)
Lemma page_cnt_ok size : 0 < size < 2^32 - 11 →
  let cnt := u32 (u32 (u32 (size + 12) + 4096) - 1) / 4096 in
  0 ≤ cnt ∧ (1 ≤ cnt → size + 12 ≤ 4096 * cnt).
Proof.
  intros Hs cnt. assert (cnt = u32 (size + 4107) / 4096) as ->.
  { unfold cnt, u32. rewrite Zminus_mod_idemp_l, <- Z.add_sub_assoc, Zplus_mod_idemp_l.
    do 2 f_equal. lia. }
  split; [apply Z.div_pos; [apply u32_range|done]|].
  destruct (decide (size + 4107 < 2^32)).
  - rewrite u32_id by lia. intros _. pose proof (Z.mod_pos_bound (size + 4107) 4096).
    pose proof (Z.div_mod (size + 4107) 4096). lia.
  - replace (u32 (size + 4107)) with (size + 4107 - 2^32)
      by (unfold u32; rewrite <- (Z_mod_plus_full _ (-1)), Z.mod_small; lia).
    rewrite Z.div_small by lia. lia.
Qed.

Lemma malloc_big_ok h size : heap_ok h → 0 < size < 2^32 - 11 → find_desc (descs h) size = None →
  (∃ h', malloc size h = Ret (None, h') ∧ h' = h) ∨
  ∃ p n h', malloc size h = Ret (Some p, h') ∧ size ≤ n ∧ allocated h h' p n.
Proof.
  intros Hh H0 Hfind. unfold malloc. destruct (Z.eqb_spec size 0) as [|_]; [lia|]. rewrite cget, Hfind.
  unfold ARENA_SIZE. change PGSIZE with 4096.
  set (cnt := u32 (u32 (u32 (size + 12) + 4096) - 1) / 4096).
  assert (0 ≤ cnt ∧ (1 ≤ cnt → size + 12 ≤ 4096 * cnt)) as [Hc0 Hc].
  { apply page_cnt_ok. lia. }
  clearbody cnt.
  destruct (get_pages_ok h cnt) as [Hg|(Hpos & a & P' & Hg & HP & Hm & Hcon & Ho & Hk & Hdis)];
    [apply Hh|apply Hh|done| |]; rewrite (cstep _ _ _ _ _ Hg); [eauto|]. right.
  destruct (others_keep_new h a cnt P' Hh Hk Hdis) as [Hnone Hkeep]; [lia|].
  pose proof (owned_addr _ _ _ HP Ho ltac:(lia)) as (Ha0 & Ham & Ha32 & _).
  assert (page_of (a + 12) = a) as Hpg by (unfold page_of; div_lia).
  assert (step_at a h (Heap (descs h) (<[a := Arena ARENA_MAGIC None cnt]> (arenas h)) P')) as Hst
    by (apply put_big_step; try done; [lia|intros k; by apply in_arena_none]).
  eexists _, (4096 * cnt - 12), _. split; [done|]. split; [lia|].
  split; [by apply (step_inv a h)|]. split; [done|]. split.
  { intros (m & ar & Har & _). rewrite Hpg in Har. congruence. }
  intros q m. destruct (decide (page_of q = a)) as [E|E].
  - unfold live. rewrite E. simpl. rewrite lookup_insert_eq, Hnone. split.
    + intros (? & [= <-] & Hl). simpl in Hl. naive_solver.
    + intros [(? & [=] & _)|[-> ->]]. eexists. split; [done|]. done.
  - rewrite (step_live a h _ q m Hst E). split; [auto|]. intros [?|[-> _]]; [done|congruence].
Qed.

Lemma malloc_ok h size : heap_ok h → 0 < size < 2^32 - 11 →
  malloc size h = Ret (None, h) ∨
  ∃ p n h', malloc size h = Ret (Some p, h') ∧ size ≤ n ∧ allocated h h' p n.
Proof.
  intros Hh H0. destruct (find_desc (descs h) size) as [k|] eqn:Hf.
  - destruct (malloc_small_ok h size k) as [(h' & ? & ->)|?]; auto. lia.
  - destruct (malloc_big_ok h size) as [(h' & ? & ->)|?]; auto.
Qed.

(** ** Release *)

Definition set_bytes (P : palloc) (c : memory) : palloc := Palloc (kernel_pool P) (user_pool P) c.

Lemma set_bytes_ok P c : palloc_ok P → palloc_ok (set_bytes P c).
Proof. by intros [? ? ?]. Qed.

Lemma give_inv h k d p i ar P1 : heap_ok h → descs h !! k = Some d → arenas h !! page_of p = Some ar →
  a_desc ar = Some k → 0 ≤ i < blocks_per_arena d → p = blk (page_of p) d i → p ∉ free_list d →
  kernel_pool P1 = kernel_pool (pages h) → palloc_ok P1 → kernel_mapped P1 →
  heap_ok (put_arena h k d (page_of p) (p :: free_list d) P1) ∧
  ∀ q m, live (put_arena h k d (page_of p) (p :: free_list d) P1) q m ↔ live h q m ∧ q ≠ p.
Proof.
  intros Hh Hd Har Hk Hi Ep Hnf HK HP Hm. pose proof (ho_descs _ Hh k d Hd) as [Hsh Hnd _].
  assert (∀ b n, owned (pages h) b n → owned P1 b n) as Hown.
  { intros b n. unfold owned, page_used. cbn [get_pool]. by rewrite HK. }
  assert (step_at (page_of p) h (put_arena h k d (page_of p) (p :: free_list d) P1)) as Hst.
  { apply put_arena_step; try done.
    - pose proof (others_keep_old h _ ar P1 Hh Har ltac:(auto)) as Hko.
      unfold arena_pages in Hko. by rewrite Hk in Hko.
    - pose proof (ho_arenas _ Hh _ _ Har) as [_ _ Ho _]. unfold arena_pages in Ho. rewrite Hk in Ho. auto.
    - intros k'. by apply (in_arena_unique h _ ar k).
    - by constructor.
    - intros a' Ha'. by rewrite free_in_cons_ne.
    - rewrite free_in_cons. intros b [->|Hb]%elem_of_cons; [|by apply (free_in_blocks h _ k d)].
      apply elem_of_blocks. eauto. }
  split; [by apply (step_inv (page_of p) h)|]. intros q m.
  destruct (decide (page_of q = page_of p)) as [E|E].
  2:{ rewrite (step_live _ _ _ q m Hst E). split; [|tauto]. intros ?. split; [done|]. by intros ->. }
  unfold live. rewrite E. cbn [put_arena arenas descs]. rewrite lookup_insert_eq, Har. split.
  - intros (ar' & [= <-] & d' & j & Hd' & Hj & Eq & -> & Hqf). cbn [a_desc] in *.
    rewrite list_lookup_insert_eq in Hd' by (by eapply lookup_lt_Some). injection Hd' as <-. simpl in *.
    apply not_elem_of_cons in Hqf as [Hne Hqf]. split; [|done]. exists ar. split; [done|].
    rewrite Hk. exists d, j. done.
  - intros [(ar' & [= <-] & Hl) Hne]. rewrite Hk in Hl. destruct Hl as (d' & j & Hd' & Hj & Eq & -> & Hqf).
    assert (d' = d) as -> by congruence. eexists. split; [done|]. cbn [a_desc].
    eexists _, j. split; [apply list_lookup_insert_eq; by eapply lookup_lt_Some|]. simpl.
    do 3 (split; [done|]). by apply not_elem_of_cons.
Qed.

(** An arena without allocated blocks goes back to the page allocator. *)
Lemma drop_ok h k d a ar : heap_ok h → descs h !! k = Some d → arenas h !! a = Some ar →
  a_desc ar = Some k → free_cnt ar = blocks_per_arena d →
  ∃ h', (let* _ := each_block (Z.to_nat (blocks_per_arena d)) a 0 (unlink k) in free_pages a 1) h = Ret ((), h') ∧
    heap_ok h' ∧ (∀ q m, live h' q m ↔ live h q m) ∧
    (∀ q m x, live h' q m → q ≤ x < q + m → byte (contents (pages h')) x = byte (contents (pages h)) x).
Proof.
  intros Hh Hd Har Hk Hfull. pose proof (ho_descs _ Hh k d Hd) as [Hsh Hnd _]. pose proof (shape_blocks d Hsh) as Hb.
  pose proof (ho_arenas _ Hh _ _ Har) as [Hmg _ Ho _]. unfold arena_pages in Ho. rewrite Hk in Ho.
  pose proof (arena_addr h a ar Hh Har) as (Ha0 & Ham & Ha32 & Ha1 & _).
  destruct (arena_count h a ar k d Hh Har Hk Hd) as [Hc _].
  assert (∀ b, b ∈ blocks a d → b ∈ free_list d) as Hall.
  { intros b Hbb. assert (b ∈ free_in a (free_list d)) as [_ ?]%list_elem_of_filter; [|done].
    apply (NoDup_incl_full _ (blocks a d)); [by apply NoDup_filter|intros x; by apply (free_in_blocks h a k d)| |done].
    pose proof (blocks_length a d). lia. }
  set (fl := filter (.∉ blocks a d) (free_list d)).
  rewrite (cstep _ _ _ () (with_free h k d fl)).
  2:{ rewrite <- (with_free_same h k d Hd) at 1. erewrite each_block_unlink; try done; try lia.
      - rewrite Z2Nat.id by lia. done.
      - intros j Hj. apply Hall, elem_of_blocks. exists j. split; [lia|done]. }
  destruct (free_pages_ok (with_free h k d fl) a 1) as (P' & Hf & HP' & Hm' & Hown & Hbyte); [apply Hh|apply Hh|lia|done|].
  rewrite Hf. change (Heap _ _ _) with (drop_arena h k d a fl P').
  assert (others_keep h a 1 P') as Hkeep.
  { pose proof (others_keep_old h a ar P' Hh Har) as Hko. unfold arena_pages in Hko. rewrite Hk in Hko. by apply Hko. }
  assert (step_at a h (drop_arena h k d a fl P')) as Hst.
  { apply drop_arena_step; try done.
    - intros k'. by apply (in_arena_unique h _ ar k).
    - by apply NoDup_filter.
    - intros a' Ha'. unfold free_in, fl. rewrite list_filter_filter. apply list_filter_iff. intros x.
      split; [tauto|]. intros Hx. split; [done|]. intros Hxb. apply Ha'. rewrite <- Hx.
      apply (blocks_page h a k d); try done. lia.
    - apply filter_none. intros x [Hx Hxf]%list_elem_of_filter Hpa. apply Hx.
      apply (free_in_blocks h a k d); [done..|]. by apply list_elem_of_filter. }
  assert (∀ q m, ¬ (page_of q = a ∧ live h q m)) as Hnolive.
  { intros q m [E (ar' & Har' & Hl)]. rewrite E in Har'. assert (ar' = ar) as -> by congruence.
    rewrite Hk in Hl. destruct Hl as (d' & i & Hd' & Hi & Eq & _ & Hnf). assert (d' = d) as -> by congruence.
    apply Hnf, Hall, elem_of_blocks. exists i. by rewrite E in Eq. }
  eexists. split; [done|]. split; [by apply (step_inv a h)|].
  assert (∀ q m, live (drop_arena h k d a fl P') q m ↔ live h q m) as Hlive.
  { intros q m. destruct (decide (page_of q = a)) as [E|E]; [|by apply (step_live a)]. split.
    - intros (ar' & Har' & _). simpl in Har'. by rewrite E, lookup_delete_eq in Har'.
    - intros Hl. by destruct (Hnolive q m). }
  split; [done|]. intros q m x Hq Hx. apply Hbyte. apply Hlive in Hq.
  destruct (live_range h q m Hh Hq) as (ar' & Har' & ? & _ & ?).
  assert (page_of q ≠ a) as Hne by (intros E; by apply (Hnolive q m)).
  destruct (Hkeep _ _ Hne Har'). lia.
Qed.

(** What a release of the block at [p] does. *)
Definition released (h h' : heap) (p : Z) : Prop :=
  heap_ok h' ∧ (∀ q m, live h' q m ↔ live h q m ∧ q ≠ p) ∧
  ∀ q m x, live h' q m → q ≤ x < q + m → byte (contents (pages h')) x = byte (contents (pages h)) x.

Lemma live_pos h p n : heap_ok h → live h p n → p ≠ 0.
Proof.
  intros Hh Hl. destruct (live_range h p n Hh Hl) as (ar & Har & Hlo & _).
  pose proof (arena_addr _ _ _ Hh Har). lia.
Qed.

Lemma live_to_arena h p n : heap_ok h → live h p n → block_to_arena p h = Ret (page_of p, h).
Proof.
  intros Hh (ar & Har & Hl). pose proof (arena_addr _ _ _ Hh Har) as (H0 & Hm & H32 & H1 & _).
  pose proof (ho_arenas _ Hh _ _ Har) as [Hmg _ _ _]. destruct (a_desc ar) as [k|] eqn:Hk.
  - destruct Hl as (d & i & Hd & Hi & Ep & _). rewrite Ep at 1.
    apply (block_to_arena_small h _ ar k); try done; [apply (ho_descs _ Hh k d Hd)|lia].
  - destruct Hl as [Ep _]. rewrite Ep at 1. apply (block_to_arena_big h _ ar); try done. lia.
Qed.

Lemma free_big_ok h p n ar : heap_ok h → live h p n → arenas h !! page_of p = Some ar → a_desc ar = None →
  ∃ h', free_pages (page_of p) (free_cnt ar) h = Ret ((), h') ∧ released h h' p.
Proof.
  intros Hh Hl Har Hk. pose proof (ho_arenas _ Hh _ _ Har) as [Hmg H1 Ho _].
  unfold arena_pages in H1, Ho. rewrite Hk in H1, Ho.
  destruct (free_pages_ok h (page_of p) (free_cnt ar)) as (P' & -> & HP & Hm & Hown & Hbyte); [apply Hh|apply Hh|done..|].
  assert (others_keep h (page_of p) (free_cnt ar) P') as Hkeep.
  { pose proof (others_keep_old h (page_of p) ar P' Hh Har) as Hko. unfold arena_pages in Hko. rewrite Hk in Hko. by apply Hko. }
  assert (∀ k, ¬ in_arena h (page_of p) k) as Hno by (intros k (ar' & ? & ?); congruence).
  pose proof (drop_big_step h (page_of p) _ P' Hh HP Hm Hkeep Hno) as Hst.
  eexists. split; [done|]. split; [by apply (step_inv (page_of p) h)|].
  assert (∀ q m, live (Heap (descs h) (delete (page_of p) (arenas h)) P') q m ↔ live h q m ∧ q ≠ p) as Hlive.
  { intros q m. destruct (decide (page_of q = page_of p)) as [E|E].
    - split.
      + intros (ar' & Har' & _). simpl in Har'. by rewrite E, lookup_delete_eq in Har'.
      + intros [Hq Hne]. destruct Hl as (ar1 & H11 & H12), Hq as (ar2 & H21 & H22). rewrite E in H21, H22.
        assert (ar1 = ar ∧ ar2 = ar) as [-> ->] by (split; congruence). rewrite Hk in H12, H22. lia.
    - rewrite (step_live _ _ _ q m Hst E). split; [|tauto]. intros ?. split; [done|]. by intros ->. }
  split; [done|]. intros q m x Hq Hx. apply Hbyte. apply Hlive in Hq as [Hq Hqp].
  destruct (live_range h q m Hh Hq) as (ar' & Har' & ? & _ & ?).
  destruct (decide (page_of q = page_of p)) as [E|E].
  - destruct Hl as (ar1 & H11 & H12), Hq as (ar2 & H21 & H22). rewrite E in H21, H22.
    assert (ar1 = ar ∧ ar2 = ar) as [-> ->] by (split; congruence). rewrite Hk in H12, H22. lia.
  - destruct (Hkeep _ _ E Har'). lia.
Qed.

Lemma free_ok h p n : heap_ok h → live h p n → ∃ h', free p h = Ret ((), h') ∧ released h h' p.
Proof.
  intros Hh Hl. pose proof (live_pos _ _ _ Hh Hl) as H0. unfold free. apply Z.eqb_neq in H0. rewrite H0.
  rewrite (cstep _ _ _ _ _ (live_to_arena h p n Hh Hl)).
  destruct (Hl) as (ar & Har & Hl'). rewrite (cstep _ _ _ _ _ (get_arena_ok _ _ _ Har)).
  destruct (a_desc ar) as [k|] eqn:Hk; [|by apply (free_big_ok h p n)].
  destruct Hl' as (d & i & Hd & Hi & Ep & -> & Hnf).
  pose proof (ho_descs _ Hh k d Hd) as [Hsh _ _]. pose proof (shape_blocks d Hsh) as Hb. destruct Hsh as [Hbs _].
  rewrite (cstep _ _ _ _ _ (get_desc_ok _ _ _ Hd)).
  set (P1 := set_bytes (pages h) (memset (contents (pages h)) p 0xcc (Z.to_nat (d_block_size d)))).
  assert (kernel_mapped P1) as Hm1 by (intros a Ha; apply mapped_memset, (ho_mapped _ Hh); exact Ha).
  destruct (give_inv h k d p i ar P1) as [Hok Hlive];
    [done..|apply set_bytes_ok, Hh|done|]. set (h1 := put_arena h k d (page_of p) (p :: free_list d) P1) in *.
  assert (∀ q m x, live h1 q m → q ≤ x < q + m → byte (contents P1) x = byte (contents (pages h)) x) as Hbyte.
  { intros q m x [Hq Hqp]%Hlive Hx. simpl. rewrite byte_memset.
    - rewrite decide_False; [done|]. rewrite Z2Nat.id by lia. destruct (live_disjoint h p _ q m Hh Hl Hq); lia.
    - intros y Hy. rewrite Z2Nat.id in Hy by lia. by apply (live_mapped h p (d_block_size d)). }
  rewrite (cstep _ _ _ () (Heap (descs h) (arenas h) P1)) by done.
  rewrite (cstep _ _ _ () (with_free (Heap (descs h) (arenas h) P1) k d (p :: free_list d))).
  2:{ unfold push_front. by rewrite (cstep _ _ _ d (Heap (descs h) (arenas h) P1)) by (by apply get_desc_ok). }
  destruct (arena_count h _ ar k d Hh Har Hk Hd) as [Hc Hle].
  assert (u32 (free_cnt ar + 1) = zlength (free_in (page_of p) (p :: free_list d))) as Hcnt.
  { rewrite free_in_cons. simpl length. rewrite u32_id; lia. }
  pose proof (ho_arenas _ Hh _ _ Har) as [Hmg _ _ _]. rewrite Hmg, Hcnt. rewrite (cstep _ _ _ () h1) by done.
  set (d1 := Desc (d_block_size d) (blocks_per_arena d) (p :: free_list d)).
  assert (descs h1 !! k = Some d1) as Hd1 by (apply list_lookup_insert_eq; by eapply lookup_lt_Some).
  assert (arenas h1 !! page_of p = Some (Arena ARENA_MAGIC (Some k) (zlength (free_in (page_of p) (p :: free_list d)))))
    as Har1 by apply lookup_insert_eq.
  destruct (arena_count h1 _ _ k d1 Hok Har1 eq_refl Hd1) as [_ Hle1]. simpl in Hle1.
  destruct (Z.leb_spec (blocks_per_arena d) (zlength (free_in (page_of p) (p :: free_list d)))) as [Hfull|].
  - rewrite (cstep _ _ _ () h1) by (apply assert_ok, Z.eqb_eq; lia).
    destruct (drop_ok h1 k d1 (page_of p) _ Hok Hd1 Har1) as (h' & Hh' & Hok' & Hlive' & Hbyte'); [done|simpl; lia|].
    exists h'. split; [exact Hh'|]. split; [done|]. split; [intros q m; by rewrite Hlive'|].
    intros q m x Hq Hx. rewrite (Hbyte' q m x) by done. apply (Hbyte q m); [by apply Hlive'|done].
  - exists h1. split; [done|]. split; [done|]. split; [done|]. exact Hbyte.
Qed.

(** ** Contents *)

Definition with_bytes (h : heap) (c : memory) : heap := Heap (descs h) (arenas h) (set_bytes (pages h) c).

Lemma with_bytes_ok h c : heap_ok h → (∀ a, mapped (contents (pages h)) a → mapped c a) → heap_ok (with_bytes h c).
Proof.
  intros [HP Hm Hd Ha Hdis] Hc. split.
  - by apply set_bytes_ok.
  - intros a Haa. apply Hc, Hm, Haa.
  - intros k d Hk. destruct (Hd k d Hk). by split.
  - intros a ar Har. destruct (Ha a ar Har). by split.
  - exact Hdis.
Qed.

Lemma block_size_ok h p n : heap_ok h → live h p n → block_size p h = Ret (n, h).
Proof.
  intros Hh Hl. unfold block_size. rewrite (cstep _ _ _ _ _ (live_to_arena h p n Hh Hl)).
  destruct Hl as (ar & Har & Hl). rewrite (cstep _ _ _ _ _ (get_arena_ok _ _ _ Har)).
  destruct (a_desc ar) as [k|].
  - destruct Hl as (d & i & Hd & _ & _ & -> & _). by rewrite (cstep _ _ _ _ _ (get_desc_ok _ _ _ Hd)).
  - destruct Hl as [Ep ->]. rewrite Ep, pg_ofs_mod. change PGSIZE with 4096.
    replace ((page_of p + 12) mod 4096) with 12; [done|]. unfold page_of. div_lia.
Qed.

(** A new block and the blocks from before do not overlap. *)
Lemma allocated_fresh h h' p n q m : allocated h h' p n → live h q m → p + n ≤ q ∨ q + m ≤ p.
Proof.
  intros (Hok & _ & Hno & Hlive) Hq.
  destruct (live_disjoint h' p n q m Hok) as [[E _]|?]; [apply Hlive; auto|apply Hlive; auto| |done].
  subst q. destruct Hno. eauto.
Qed.

Lemma calloc_ok h a b : heap_ok h → 0 ≤ a < 2^32 → 0 ≤ b < 2^32 → u32 (a * b) < 2^32 - 11 →
  calloc a b h = Ret (None, h) ∨
  ∃ p n h' c, calloc a b h = Ret (Some p, with_bytes h' c) ∧ heap_ok (with_bytes h' c) ∧
    u32 (a * b) ≤ n ∧ allocated h h' p n ∧
    ∀ x, byte c x = if decide (p ≤ x < p + u32 (a * b)) then Some 0 else byte (contents (pages h)) x.
Proof.
  intros Hh Ha Hb Hsz. pose proof (u32_range (a * b)) as Hr. unfold calloc.
  destruct ((u32 (a * b) <? a) || (u32 (a * b) <? b)) eqn:Hc; [by left|].
  apply orb_false_iff in Hc as [Ha'%Z.ltb_ge Hb'%Z.ltb_ge]. set (size := u32 (a * b)) in *.
  destruct (decide (size = 0)) as [E|Hne]; [left; by rewrite E|].
  destruct (malloc_ok h size Hh) as [Hm|(p & n & h' & Hm & Hn & Hall)]; [lia|left|right];
    rewrite (cstep _ _ _ _ _ Hm); [done|].
  destruct (Hall) as (Hok & Hcon & _ & Hlive).
  assert (∀ x, p ≤ x < p + Z.of_nat (Z.to_nat size) → mapped (contents (pages h')) x) as Hmap.
  { intros x Hx. apply (live_mapped h' p n); [done|apply Hlive; auto|lia]. }
  exists p, n, h', (memset (contents (pages h')) p 0 (Z.to_nat size)). split; [done|].
  split; [apply with_bytes_ok; [done|]; intros; by apply mapped_memset|]. split; [done|]. split; [done|].
  intros x. rewrite byte_memset by done. rewrite Z2Nat.id, Hcon by lia. done.
Qed.

Lemma realloc_ok h old m size : heap_ok h → live h old m → 0 < size < 2^32 - 11 →
  realloc old size h = Ret (None, h) ∨
  ∃ p n h', realloc old size h = Ret (Some p, h') ∧ heap_ok h' ∧ size ≤ n ∧ p ≠ old ∧
    (∀ q k, live h' q k ↔ (live h q k ∧ q ≠ old) ∨ q = p ∧ k = n) ∧
    (∀ i, 0 ≤ i < Z.min m size → byte (contents (pages h')) (p + i) = byte (contents (pages h)) (old + i)) ∧
    (∀ q k x, live h q k → q ≠ old → q ≤ x < q + k →
      byte (contents (pages h')) x = byte (contents (pages h)) x).
Proof.
  intros Hh Hold Hsz. unfold realloc. destruct (Z.eqb_spec size 0) as [|_]; [lia|].
  destruct (malloc_ok h size Hh Hsz) as [Hm|(p & n & h1 & Hm & Hn & Hall)]; [left|right];
    rewrite (cstep _ _ _ _ _ Hm); [done|].
  pose proof (live_pos _ _ _ Hh Hold) as H0. apply Z.eqb_neq in H0. rewrite H0. cbn [negb].
  destruct (Hall) as (Hok1 & Hcon & Hno & Hlive). assert (live h1 old m) as Hold1 by (apply Hlive; auto).
  assert (live h1 p n) as Hp1 by (apply Hlive; auto).
  pose proof (allocated_fresh _ _ _ _ _ _ Hall Hold) as Hfr.
  destruct (live_range _ _ _ Hok1 Hold1) as (_ & _ & _ & Hm16 & _).
  rewrite (cstep _ _ _ _ _ (block_size_ok h1 old m Hok1 Hold1)).
  set (k := if size <? m then size else m). assert (k = Z.min m size) as Ek
    by (subst k; destruct (Z.ltb_spec size m); lia). rewrite Ek. clear k Ek.
  destruct (memcpy_ok (contents (pages h1)) p old (Z.to_nat (Z.min m size))) as (c & Hc & Hmap & Hbyte).
  { intros x Hx. apply (live_mapped h1 p n); [done..|lia]. }
  { intros x Hx. apply (live_mapped h1 old m); [done..|lia]. } { lia. }
  rewrite (cstep _ _ _ () (with_bytes h1 c)) by (unfold set_contents; by rewrite Hc).
  pose proof (with_bytes_ok h1 c Hok1 Hmap) as Hok2.
  destruct (free_ok (with_bytes h1 c) old m Hok2 Hold1) as (h' & Hf & Hok' & Hlive' & Hbyte').
  rewrite (cstep _ _ _ _ _ Hf). exists p, n, h'.
  assert (p ≠ old) as Hne by (intros ->; apply Hno; eauto).
  assert (∀ q k, live h' q k ↔ (live h q k ∧ q ≠ old) ∨ q = p ∧ k = n) as HL.
  { intros q j. rewrite Hlive'. change (live (with_bytes h1 c) q j) with (live h1 q j). rewrite Hlive.
    split; [tauto|]. intros [?|[-> ->]]; [tauto|]. auto. }
  split; [done|]. split; [done|]. split; [done|]. split; [done|]. split; [done|]. split.
  - intros i Hi. rewrite (Hbyte' p n) by (apply HL || lia; auto). cbn [with_bytes pages set_bytes contents].
    rewrite Hbyte, Hcon, decide_True by lia. f_equal. lia.
  - intros q j x Hq Hqo Hx. rewrite (Hbyte' q j) by (apply HL || lia; auto). cbn [with_bytes pages set_bytes contents].
    rewrite Hbyte, Hcon, decide_False; [done|]. pose proof (allocated_fresh _ _ _ _ _ _ Hall Hq). lia.
Qed.

(** ** Properties *)

Inductive heap_op := Malloc (size : Z) | Calloc (a b : Z) | Realloc (p size : Z) | Free (p : Z).

Definition run_op (op : heap_op) : cmd heap (option Z) :=
  match op with
  | Malloc size => malloc size
  | Calloc a b => calloc a b
  | Realloc p size => realloc p size
  | Free p => let* _ := free p in mret None
  end.

(** Requests that do not come within 12 bytes of the largest size, and
    releases of allocated blocks only. *)
Definition request (size : Z) : Prop := 0 ≤ size < 2^32 - 11.
Definition block_or_null (h : heap) (p : Z) : Prop := p = 0 ∨ ∃ n, live h p n.
Definition legal (h : heap) (op : heap_op) : Prop :=
  match op with
  | Malloc size => request size
  | Calloc a b => 0 ≤ a < 2^32 ∧ 0 ≤ b < 2^32 ∧ request (u32 (a * b))
  | Realloc p size => request size ∧ block_or_null h p
  | Free p => block_or_null h p
  end.
Definition heap_step (h h' : heap) : Prop := ∃ op r, legal h op ∧ run_op op h = Ret (r, h').

Lemma malloc_ok' h size : heap_ok h → request size → ∃ r h', malloc size h = Ret (r, h') ∧ heap_ok h'.
Proof.
  intros Hh Hs. destruct (decide (size = 0)) as [->|Hne]; [eexists _, h; done|].
  destruct (malloc_ok h size Hh) as [->|(p & n & h' & -> & _ & Hok & _)]; [unfold request in Hs; lia|eauto..].
Qed.

Lemma free_ok' h p : heap_ok h → block_or_null h p → ∃ h', free p h = Ret ((), h') ∧ heap_ok h'.
Proof.
  intros Hh [->|[n Hl]]; [by exists h|].
  destruct (free_ok h p n Hh Hl) as (h' & -> & Hok & _). eauto.
Qed.

Lemma heap_progress h op : heap_ok h → legal h op → ∃ r h', run_op op h = Ret (r, h') ∧ heap_ok h'.
Proof.
  intros Hh. destruct op as [size|a b|p size|p]; cbn [run_op legal].
  - by apply malloc_ok'.
  - intros (Ha & Hb & [_ Hsz]). destruct (calloc_ok h a b) as [->|(p & n & h' & c & -> & Hok & _)]; eauto.
  - intros [Hsz Hp]. destruct (decide (size = 0)) as [->|Hne].
    + unfold realloc. cbn [Z.eqb]. destruct (free_ok' h p Hh Hp) as (h' & Hf & Hok).
      rewrite (cstep _ _ _ _ _ Hf). eauto.
    + destruct Hp as [->|[n Hl]].
      * unfold realloc. apply Z.eqb_neq in Hne. rewrite Hne.
        destruct (malloc_ok' h size Hh Hsz) as (r & h' & Hm & Hok). rewrite (cstep _ _ _ _ _ Hm).
        destruct r; eauto.
      * destruct (realloc_ok h p n size Hh Hl) as [->|(q & m & h' & -> & Hok & _)];
          [unfold request in Hsz; lia|eauto..].
  - intros Hp. destruct (free_ok' h p Hh Hp) as (h' & Hf & Hok). rewrite (cstep _ _ _ _ _ Hf). eauto.
Qed.

Lemma malloc_init_ok : ∃ ds, malloc_init = Ret ds ∧ Forall (λ d, desc_shape d ∧ free_list d = []) ds ∧
  d_block_size <$> ds = [16; 32; 64; 128; 256; 512; 1024].
Proof.
  eexists. split; [reflexivity|]. split; [|done]. repeat constructor; simpl; lia.
Qed.

Lemma heap_init_ok ds P : malloc_init = Ret ds → palloc_ok P → kernel_mapped P → heap_ok (Heap ds ∅ P).
Proof.
  intros Hi HP Hm. destruct malloc_init_ok as (ds' & Hi' & Hf & _). assert (ds' = ds) as -> by congruence.
  split; simpl; [done|done|..].
  - intros k d Hd. rewrite Forall_forall in Hf. destruct (Hf d) as [Hs Hn]; [by eapply list_elem_of_lookup_2|].
    split; [done|rewrite Hn; constructor|]. rewrite Hn. intros b Hb. by apply elem_of_nil in Hb.
  - intros a ar Har. by rewrite lookup_empty in Har.
  - intros a ar a' ar' Har. by rewrite lookup_empty in Har.
Qed.


Lemma fill_mapped n a v c b : a mod 4096 = 0 → a ≤ b < a + 4096 * Z.of_nat n → mapped (fill_pages n a v c) b.
Proof.
  intros Ha Hb. exists (replicate 4096 v). split; [|apply length_replicate].
  replace (page_of b) with (a + 4096 * ((b - a) / 4096)) by (unfold page_of; div_lia).
  apply fill_pages_in. div_lia.
Qed.

Definition demo_pages : palloc :=
  Palloc (Pool (Bitmap 4 [5]) 0xc0200000) (Pool (Bitmap 40 [1; 0]) 0xc0300000) (fill_pages 4 0xc0200000 0 ∅).
Definition demo_heap : heap := Heap (match malloc_init with Ret ds => ds | _ => [] end) ∅ demo_pages.

Lemma demo_pages_ok : palloc_ok demo_pages ∧ kernel_mapped demo_pages.
Proof.
  split.
  - assert (∀ c ws b, 0 ≤ c ≤ 32 * zlength ws → c < 2^10 → Forall word ws →
      0 < b < 0xd0000000 → b mod 4096 = 0 → pool_ok (Pool (Bitmap c ws) b)) as Hp.
    { intros c ws b ? ? ? ? ?. split; [split; cbn [used_map bit_cnt bits]|cbn [base]; lia|];
        unfold SIZE_MAX, ELEM_BITS, pool_end, pool_size; cbn [used_map base bit_cnt]; [lia..|done|lia]. }
    split; [apply Hp|apply Hp|vm_compute]; try done; repeat constructor; by vm_compute.
  - intros a Ha. apply fill_mapped; [done|]. exact Ha.
Qed.


(** [realloc] of an allocated block either fails and changes nothing, or
    returns a block of at least the new size that replaces the old one, with
    the old contents up to the smaller of the two sizes, while every other
    block stays allocated with its contents. *)
Theorem realloc_moves h old m size : heap_ok h → live h old m → 0 < size < 2^32 - 11 →
  realloc old size h = Ret (None, h) ∨
  ∃ p n h', realloc old size h = Ret (Some p, h') ∧ heap_ok h' ∧ size ≤ n ∧
    (∀ q k, live h' q k ↔ (live h q k ∧ q ≠ old) ∨ q = p ∧ k = n) ∧
    (∀ i, 0 ≤ i < Z.min m size → byte (contents (pages h')) (p + i) = byte (contents (pages h)) (old + i)) ∧
    (∀ q k x, live h q k → q ≠ old → q ≤ x < q + k →
      byte (contents (pages h')) x = byte (contents (pages h)) x).
Proof.
  intros Hh Hl Hs. destruct (realloc_ok h old m size Hh Hl Hs)
    as [?|(p & n & h' & Hr & Hok & Hn & _ & Hlive & Hbytes)]; [by left|].
  right. exists p, n, h'. tauto.
Qed.

Lemma demo_heap_ok : heap_ok demo_heap.
Proof.
  destruct malloc_init_ok as (ds & Hi & _). destruct demo_pages_ok as [HP Hm].
  unfold demo_heap. rewrite Hi. by apply heap_init_ok.
Qed.

Lemma realloc_moves_witness : ∃ h p, malloc 100 demo_heap = Ret (Some p, h) ∧
  ∃ r h', realloc p 200 h = Ret (r, h').
Proof.
  destruct (malloc_ok demo_heap 100 demo_heap_ok) as [H|(p & n & h & H & Hn & Hok & _ & _ & Hlive)]; [lia| |].
  - apply (f_equal (λ o, match o with Ret (None, _) => true | _ => false end)) in H.
    vm_compute in H. discriminate H.
  - exists h, p. split; [exact H|].
    destruct (realloc_moves h p n 200 Hok) as [->|(q & k & h' & -> & _)]; [apply Hlive; auto|lia|eauto..].
Defined.

(** [calloc] of [a] times [b] bytes, when the product fits, returns null
    with nothing changed or a new block of that many bytes, all zero, and
    changes no other byte of memory. *)
Theorem calloc_zeroes h a b : heap_ok h → 0 < a → 0 < b → a * b < 2^32 - 11 →
  calloc a b h = Ret (None, h) ∨
  ∃ p n h', calloc a b h = Ret (Some p, h') ∧ heap_ok h' ∧ a * b ≤ n ∧
    (∀ q m, live h' q m ↔ live h q m ∨ q = p ∧ m = n) ∧
    (∀ q m, live h q m → p + n ≤ q ∨ q + m ≤ p) ∧
    ∀ x, byte (contents (pages h')) x =
      if decide (p ≤ x < p + a * b) then Some 0 else byte (contents (pages h)) x.
Proof.
  intros Hh Ha Hb Hab. assert (u32 (a * b) = a * b) as E by (apply u32_id; nia).
  destruct (calloc_ok h a b Hh) as [?|(p & n & h' & c & Hc & Hok & Hn & Hall & Hbyte)]; [nia|nia|lia|by left|right].
  rewrite E in *. exists p, n, (with_bytes h' c). do 3 (split; [done|]). split; [apply Hall|].
  split; [|done]. intros q m. by apply (allocated_fresh h h').
Qed.

Lemma calloc_zeroes_witness : ∃ r h', calloc 10 20 demo_heap = Ret (r, h').
Proof.
  destruct (calloc_zeroes demo_heap 10 20 demo_heap_ok) as [->|(p & n & h' & -> & _)]; [lia..|eauto|eauto].
Defined.

(** The overflow checks miss wrapped sizes: [calloc] of 65537 times 65537
    bytes, more than 4 GB, is the same as [calloc] of 131073 bytes, and
    [malloc] of 0xfffffff5 bytes is the same as [malloc] of 4000 bytes. *)
Theorem size_checks_wrap h : Forall (λ d, d_block_size d < 4000) (descs h) →
  calloc 65537 65537 h = calloc 1 131073 h ∧ malloc 0xfffffff5 h = malloc 4000 h.
Proof.
  intros Hd. split; [done|].
  unfold malloc. cbn [Z.eqb].
  assert (∀ size, 4000 ≤ size → find_desc (descs h) size = None) as Hnone.
  { intros size Hs. induction Hd as [|d ds Hlt _ IH]; simpl; [done|].
    destruct (Z.leb_spec size (d_block_size d)); [lia|]. by rewrite IH. }
  rewrite !cget, !Hnone by lia. done.
Qed.

Lemma size_checks_wrap_witness : malloc 0xfffffff5 demo_heap = malloc 4000 demo_heap.
Proof. apply size_checks_wrap. repeat constructor. Defined.
