(* ===== verification/Thread.v ===== *)
(** * Threads, the scheduler and synchronization (threads/thread.c, threads/synch.c)

    A single processor runs one thread at a time; a switch happens where the
    code calls [schedule], or at a timer interrupt when interrupts are on.
    The functions are those of the source.  What a thread has still to do
    inside the kernel is its [code], a list of instructions: each is a stretch
    of the source that no other thread can interleave with, because
    interrupts are off or because it touches only state of its own thread.
    [sema_down] that has to wait leaves [IDownLoop] in the code, the loop to
    continue with once the thread runs again.

    Lists of threads are lists of their addresses, by the refinement theorem
    of lib/kernel/list.c.  Pages for new threads and for the semaphores of
    waiters are arguments: the page allocator and the stack provide them.
    [process_activate] and the address space are not part of this state. *)

From S2P Require Import Prelude Vaddr.

Inductive thread_status := THREAD_RUNNING | THREAD_READY | THREAD_BLOCKED | THREAD_DYING.
#[global] Instance thread_status_eq_dec : EqDecision thread_status.
Proof. solve_decision. Defined.

Definition PRI_MIN : Z := 0.
Definition PRI_DEFAULT : Z := 31.
Definition PRI_MAX : Z := 63.
Definition THREAD_MAGIC : Z := 0xcd6abf4b.
Definition TIME_SLICE : Z := 4.

(** The interrupt level: [true] is INTR_ON. *)
Notation INTR_ON := true (only parsing).
Notation INTR_OFF := false (only parsing).

(** Instructions.  In [IDownLoop] and [ITryDown] the last argument is the
    lock the semaphore belongs to, for [lock_acquire] and [lock_try_acquire]. *)
Inductive instr :=
| IDown (s : Z)                              (* sema_down (s) *)
| IDownLoop (s : Z) (old : bool) (lk : option Z) (* its loop, after a wait *)
| ITryDown (s : Z) (lk : option Z)           (* sema_try_down (s) *)
| IUp (s : Z)                                (* sema_up (s) *)
| IAcquire (l : Z)                           (* lock_acquire: check and sema_down *)
| ITryAcquire (l : Z)                        (* lock_try_acquire: check and sema_try_down *)
| ISetHolder (l : Z)                         (* l->holder = thread_current () *)
| IRelease (l : Z)                           (* lock_release: check, l->holder = NULL *)
| ILockUp (l : Z)                            (* and its sema_up *)
| ICondSignal (c l : Z)                      (* cond_signal *)
| ICondBroadcast (c l : Z)                   (* the loop of cond_broadcast *)
| ISetTid (t : Z)                            (* t->tid = next_tid++ *)
| IParent (t : Z)                            (* t->parent = thread_current () *)
| IPushChild (p t : Z)                       (* t onto the children of its parent p *)
| IFrames (t : Z)                            (* the frames on the new stack *)
| IUnblock (t : Z)                           (* thread_unblock (t) *)
| IYield                                     (* thread_yield () *)
| IExit                                      (* thread_exit () *)
| ISetLevel (old : bool)                     (* intr_set_level (old) *)
| IIdleStart (s : Z)                         (* idle: set idle_thread *)
| IIdleBlock                                 (* idle: block *)
| IHlt.                                      (* idle: sti; hlt *)

Record thread := Thread {
  tid : Z;
  status : thread_status;
  stack : Z;                 (* Saved stack pointer. *)
  priority : Z;
  pagedir : Z;
  parent : Z;
  children : list Z;
  files : Z;
  magic : Z;
  result : bool;             (* What the last call returned. *)
  code : list instr          (* What is left of the kernel call. *)
}.

Record semaphore := Sema { value : Z; waiters : list Z }.

Record kernel := Kernel {
  threads : gmap Z thread;
  ready_list : list Z;
  all_list : list Z;
  idle_thread : Z;
  running : Z;               (* the thread whose stack the CPU uses *)
  level : bool;
  thread_ticks : Z;
  idle_ticks : Z;
  kernel_ticks : Z;
  user_ticks : Z;
  next_tid : Z;
  semas : gmap Z semaphore;
  holders : gmap Z Z;        (* the holder of each lock, 0 for none *)
  conds : gmap Z (list Z)    (* the waiting semaphores of each condition *)
}.

(** Members of [struct lock] and [struct thread]. *)
Definition lock_sema (l : Z) : Z := l + 4.
Definition child_sema (t : Z) : Z := t + 84.
Definition load_sema (t : Z) : Z := t + 104.
Definition child_list_sema (t : Z) : Z := t + 124.

(** ** Access to the state *)

Definition get_thread (t : Z) : cmd kernel thread := λ k,
  let* th := access (threads k !! t) in Ret (th, k).
Definition with_threads (k : kernel) (m : gmap Z thread) : kernel :=
  Kernel m (ready_list k) (all_list k) (idle_thread k) (running k) (level k) (thread_ticks k)
    (idle_ticks k) (kernel_ticks k) (user_ticks k) (next_tid k) (semas k) (holders k) (conds k).
Definition set_thread (t : Z) (g : thread → thread) : cmd kernel unit := λ k,
  let* th := access (threads k !! t) in Ret ((), with_threads k (<[t := g th]> (threads k))).
Definition with_status (x : thread_status) (th : thread) : thread :=
  Thread (tid th) x (stack th) (priority th) (pagedir th) (parent th) (children th) (files th)
    (magic th) (result th) (code th).
Definition with_code (c : list instr) (th : thread) : thread :=
  Thread (tid th) (status th) (stack th) (priority th) (pagedir th) (parent th) (children th) (files th)
    (magic th) (result th) c.
Definition with_result (b : bool) (th : thread) : thread :=
  Thread (tid th) (status th) (stack th) (priority th) (pagedir th) (parent th) (children th) (files th)
    (magic th) b (code th).
(** Continue with [i] before the rest of the code. *)
Definition push_code (t : Z) (i : instr) : cmd kernel unit :=
  set_thread t (λ th, with_code (i :: code th) th).

Definition w_ready (l : list Z) (k : kernel) : kernel :=
  Kernel (threads k) l (all_list k) (idle_thread k) (running k) (level k) (thread_ticks k)
    (idle_ticks k) (kernel_ticks k) (user_ticks k) (next_tid k) (semas k) (holders k) (conds k).
Definition set_ready (l : list Z) : cmd kernel unit := modify (w_ready l).
Definition w_all (l : list Z) (k : kernel) : kernel :=
  Kernel (threads k) (ready_list k) l (idle_thread k) (running k) (level k) (thread_ticks k)
    (idle_ticks k) (kernel_ticks k) (user_ticks k) (next_tid k) (semas k) (holders k) (conds k).
Definition set_all (l : list Z) : cmd kernel unit := modify (w_all l).
Definition w_idle (t : Z) (k : kernel) : kernel :=
  Kernel (threads k) (ready_list k) (all_list k) t (running k) (level k) (thread_ticks k)
    (idle_ticks k) (kernel_ticks k) (user_ticks k) (next_tid k) (semas k) (holders k) (conds k).
Definition set_idle (t : Z) : cmd kernel unit := modify (w_idle t).
Definition w_running (t : Z) (k : kernel) : kernel :=
  Kernel (threads k) (ready_list k) (all_list k) (idle_thread k) t (level k) (thread_ticks k)
    (idle_ticks k) (kernel_ticks k) (user_ticks k) (next_tid k) (semas k) (holders k) (conds k).
Definition set_running (t : Z) : cmd kernel unit := modify (w_running t).
Definition w_level (b : bool) (k : kernel) : kernel :=
  Kernel (threads k) (ready_list k) (all_list k) (idle_thread k) (running k) b (thread_ticks k)
    (idle_ticks k) (kernel_ticks k) (user_ticks k) (next_tid k) (semas k) (holders k) (conds k).
Definition intr_set_level (b : bool) : cmd kernel unit := modify (w_level b).
Definition w_ticks (n i ke u : Z) (k : kernel) : kernel :=
  Kernel (threads k) (ready_list k) (all_list k) (idle_thread k) (running k) (level k) n
    i ke u (next_tid k) (semas k) (holders k) (conds k).
Definition set_ticks (n i ke u : Z) : cmd kernel unit := modify (w_ticks n i ke u).
Definition w_next_tid (n : Z) (k : kernel) : kernel :=
  Kernel (threads k) (ready_list k) (all_list k) (idle_thread k) (running k) (level k) (thread_ticks k)
    (idle_ticks k) (kernel_ticks k) (user_ticks k) n (semas k) (holders k) (conds k).
Definition set_next_tid (n : Z) : cmd kernel unit := modify (w_next_tid n).
Definition w_sema (s : Z) (x : semaphore) (k : kernel) : kernel :=
  Kernel (threads k) (ready_list k) (all_list k) (idle_thread k) (running k) (level k) (thread_ticks k)
    (idle_ticks k) (kernel_ticks k) (user_ticks k) (next_tid k) (<[s := x]> (semas k)) (holders k) (conds k).
Definition set_sema (s : Z) (x : semaphore) : cmd kernel unit := modify (w_sema s x).
Definition w_holder (l t : Z) (k : kernel) : kernel :=
  Kernel (threads k) (ready_list k) (all_list k) (idle_thread k) (running k) (level k) (thread_ticks k)
    (idle_ticks k) (kernel_ticks k) (user_ticks k) (next_tid k) (semas k) (<[l := t]> (holders k)) (conds k).
Definition set_holder (l t : Z) : cmd kernel unit := modify (w_holder l t).
Definition w_cond (c : Z) (ws : list Z) (k : kernel) : kernel :=
  Kernel (threads k) (ready_list k) (all_list k) (idle_thread k) (running k) (level k) (thread_ticks k)
    (idle_ticks k) (kernel_ticks k) (user_ticks k) (next_tid k) (semas k) (holders k) (<[c := ws]> (conds k)).
Definition set_cond (c : Z) (ws : list Z) : cmd kernel unit := modify (w_cond c ws).

Definition get_sema (s : Z) : cmd kernel semaphore := λ k,
  let* x := access (semas k !! s) in Ret (x, k).
Definition get_holder (l : Z) : cmd kernel Z := λ k,
  let* x := access (holders k !! l) in Ret (x, k).
Definition get_cond (c : Z) : cmd kernel (list Z) := λ k,
  let* x := access (conds k !! c) in Ret (x, k).
Definition intr_get_level : cmd kernel bool := λ k, Ret (level k, k).
Definition intr_disable : cmd kernel bool :=
  let* old := intr_get_level in let* _ := intr_set_level INTR_OFF in mret old.

(** ** threads/thread.c *)

(** Static variables are given negative addresses. *)
Definition tid_lock : Z := -8.

Definition running_thread : cmd kernel Z := λ k, Ret (running k, k).

Definition is_thread (t : Z) : cmd kernel bool :=
  if t =? 0 then mret false else
  let* th := get_thread t in mret (magic th =? THREAD_MAGIC).

Definition thread_current : cmd kernel Z :=
  let* t := running_thread in
  let* b := is_thread t in
  let* _ := assert b in
  let* th := get_thread t in
  let* _ := assert (bool_decide (status th = THREAD_RUNNING)) in
  mret t.

Definition next_thread_to_run : cmd kernel Z :=
  let* k := get in
  match ready_list k with
  | [] => mret (idle_thread k)
  | t :: l => let* _ := set_ready l in mret t
  end.

Definition thread_schedule_tail : cmd kernel unit :=
  let* cur := running_thread in
  let* lev := intr_get_level in
  let* _ := assert (negb lev) in
  let* _ := set_thread cur (with_status THREAD_RUNNING) in
  let* k := get in
  set_ticks 0 (idle_ticks k) (kernel_ticks k) (user_ticks k).

(** [switch_threads] continues with the saved state of the next thread. *)
Definition schedule : cmd kernel unit :=
  let* cur := running_thread in
  let* next := next_thread_to_run in
  let* lev := intr_get_level in
  let* _ := assert (negb lev) in
  let* th := get_thread cur in
  let* _ := assert (bool_decide (status th ≠ THREAD_RUNNING)) in
  let* b := is_thread next in
  let* _ := assert b in
  let* _ := (if negb (cur =? next) then set_running next else mret ()) in
  thread_schedule_tail.

Definition thread_block : cmd kernel unit :=
  let* lev := intr_get_level in
  let* _ := assert (negb lev) in
  let* t := thread_current in
  let* _ := set_thread t (with_status THREAD_BLOCKED) in
  schedule.

Definition thread_unblock (t : Z) : cmd kernel unit :=
  let* b := is_thread t in
  let* _ := assert b in
  let* old_level := intr_disable in
  let* th := get_thread t in
  let* _ := assert (bool_decide (status th = THREAD_BLOCKED)) in
  let* k := get in
  let* _ := set_ready (ready_list k ++ [t]) in
  let* _ := set_thread t (with_status THREAD_READY) in
  intr_set_level old_level.

(** The level is restored when the thread runs again. *)
Definition thread_yield : cmd kernel unit :=
  let* cur := thread_current in
  let* old_level := intr_disable in
  let* k := get in
  let* _ := (if negb (cur =? idle_thread k) then set_ready (ready_list k ++ [cur]) else mret ()) in
  let* _ := set_thread cur (with_status THREAD_READY) in
  let* _ := push_code cur (ISetLevel old_level) in
  schedule.

(** [thread_exit], without [process_exit]. *)
Definition thread_exit : cmd kernel unit :=
  let* _ := intr_disable in
  let* t := thread_current in
  let* k := get in
  let* _ := (if decide (t ∈ all_list k) then set_all (filter (.≠ t) (all_list k)) else lift (Fail Fault)) in
  let* t := thread_current in
  let* _ := set_thread t (with_status THREAD_DYING) in
  schedule.

Definition thread_tick : cmd kernel bool :=
  let* t := thread_current in
  let* th := get_thread t in
  let* k := get in
  let ticks := u32 (thread_ticks k + 1) in
  let* _ := (if t =? idle_thread k
             then set_ticks ticks (s64 (idle_ticks k + 1)) (kernel_ticks k) (user_ticks k)
             else if negb (pagedir th =? 0)
             then set_ticks ticks (idle_ticks k) (kernel_ticks k) (s64 (user_ticks k + 1))
             else set_ticks ticks (idle_ticks k) (s64 (kernel_ticks k + 1)) (user_ticks k)) in
  mret (TIME_SLICE <=? ticks).

(** The timer interrupt: [intr_handler] yields after the handler if asked to. *)
Definition timer_tick : cmd kernel unit :=
  let* y := thread_tick in if y : bool then thread_yield else mret ().

(** ** threads/synch.c *)

Definition sema_init (s v : Z) : cmd kernel unit := set_sema s (Sema v []).

(** The loop of [sema_down], from the test to the end or to the next wait. *)
Definition down_loop (s : Z) (old : bool) (lk : option Z) : cmd kernel unit :=
  let* x := get_sema s in
  if value x =? 0 then
    let* t := thread_current in
    let* _ := set_sema s (Sema (value x) (waiters x ++ [t])) in
    let* _ := push_code t (IDownLoop s old lk) in
    thread_block
  else
    let* _ := set_sema s (Sema (value x - 1) (waiters x)) in
    let* _ := intr_set_level old in
    match lk with
    | None => mret ()
    | Some l => let* t := running_thread in push_code t (ISetHolder l)
    end.

Definition sema_down (s : Z) (lk : option Z) : cmd kernel unit :=
  let* old_level := intr_disable in down_loop s old_level lk.

Definition sema_try_down (s : Z) : cmd kernel bool :=
  let* x := get_sema s in
  if 0 <? value x then let* _ := set_sema s (Sema (value x - 1) (waiters x)) in mret true
  else mret false.

Definition sema_up (s : Z) : cmd kernel unit :=
  let* old_level := intr_disable in
  let* x := get_sema s in
  let* x := (match waiters x with
             | [] => mret x
             | t :: l => let* _ := set_sema s (Sema (value x) l) in
                         let* _ := thread_unblock t in get_sema s
             end) in
  let* _ := set_sema s (Sema (u32 (value x + 1)) (waiters x)) in
  intr_set_level old_level.

Definition lock_init (l : Z) : cmd kernel unit :=
  let* _ := set_holder l 0 in sema_init (lock_sema l) 1.

Definition lock_held_by_current_thread (l : Z) : cmd kernel bool :=
  let* h := get_holder l in let* t := thread_current in mret (h =? t).

(** The functions that are more than one stretch push the rest on the code
    of the caller [t]. *)
Definition lock_acquire (l : Z) : cmd kernel unit :=
  let* h := lock_held_by_current_thread l in
  let* _ := assert (negb h) in
  sema_down (lock_sema l) (Some l).

Definition lock_try_acquire (t l : Z) : cmd kernel unit :=
  let* h := lock_held_by_current_thread l in
  let* _ := assert (negb h) in
  push_code t (ITryDown (lock_sema l) (Some l)).

Definition lock_release (t l : Z) : cmd kernel unit :=
  let* h := lock_held_by_current_thread l in
  let* _ := assert h in
  let* _ := set_holder l 0 in
  push_code t (ILockUp l).

Definition cond_init (c : Z) : cmd kernel unit := set_cond c [].

(** [w] is the semaphore of the waiter on the caller's stack.  The lock that
    protects the list of waiters is held, so that the entry is one step. *)
Definition cond_wait_enter (c l w : Z) : cmd kernel unit :=
  let* h := lock_held_by_current_thread l in
  let* _ := assert h in
  let* _ := sema_init w 0 in
  let* ws := get_cond c in
  set_cond c (ws ++ [w]).
Definition cond_wait (l w : Z) : list instr :=
  [IRelease l; IDown w; IAcquire l].

Definition cond_signal (t c l : Z) : cmd kernel unit :=
  let* h := lock_held_by_current_thread l in
  let* _ := assert h in
  let* ws := get_cond c in
  match ws with
  | [] => mret ()
  | w :: ws => let* _ := set_cond c ws in push_code t (IUp w)
  end.

(** The loop: one signal, then the test again. *)
Definition cond_broadcast (t c l : Z) : cmd kernel unit :=
  let* ws := get_cond c in
  match ws with
  | [] => mret ()
  | _ => let* _ := push_code t (ICondBroadcast c l) in push_code t (ICondSignal c l)
  end.

(** [thread_create] after [init_thread]. *)
Definition allocate_tid (t : Z) : list instr :=
  [IAcquire tid_lock; ISetTid t; IRelease tid_lock].
Definition create_rest (cur t : Z) : list instr :=
  allocate_tid t ++ [IParent t; IDown (child_list_sema cur); IPushChild cur t; IUp (child_list_sema cur);
    IFrames t; IUnblock t].

(** A new thread starts in [kernel_thread], which turns interrupts on and
    calls the thread function. *)
Definition init_thread (t prio fpage : Z) (func : list instr) : cmd kernel unit :=
  let* _ := assert (negb (t =? 0)) in
  let* _ := assert ((PRI_MIN <=? prio) && (prio <=? PRI_MAX)) in
  let* _ := modify (λ k, with_threads k (<[t := Thread 0 THREAD_BLOCKED (t + PGSIZE) prio 0 0 [] fpage
                                            THREAD_MAGIC false (ISetLevel INTR_ON :: func)]> (threads k))) in
  let* k := get in
  let* _ := set_all (all_list k ++ [t]) in
  let* _ := sema_init (child_sema t) 0 in
  let* _ := sema_init (load_sema t) 0 in
  sema_init (child_list_sema t) 1.

Definition alloc_frame (t size : Z) : cmd kernel unit :=
  let* b := is_thread t in
  let* _ := assert b in
  let* _ := assert (size mod 4 =? 0) in
  set_thread t (λ th, Thread (tid th) (status th) (stack th - size) (priority th) (pagedir th) (parent th)
    (children th) (files th) (magic th) (result th) (code th)).

(** [idle]: the start, and the two halves of its loop. *)
Definition idle_start (t s : Z) : cmd kernel unit :=
  let* c := thread_current in
  let* _ := set_idle c in
  let* _ := push_code t IIdleBlock in
  push_code t (IUp s).
Definition idle_block (t : Z) : cmd kernel unit :=
  let* _ := intr_disable in
  let* _ := push_code t IHlt in
  thread_block.
Definition idle_wait (t : Z) : cmd kernel unit :=
  let* _ := intr_set_level INTR_ON in
  push_code t IIdleBlock.

(** ** The instructions *)

Definition exec_instr (t : Z) (i : instr) : cmd kernel unit :=
  match i with
  | IDown s => sema_down s None
  | IDownLoop s old lk => down_loop s old lk
  | ITryDown s lk =>
      let* b := sema_try_down s in
      let* _ := set_thread t (with_result b) in
      match b, lk with true, Some l => push_code t (ISetHolder l) | _, _ => mret () end
  | IUp s => sema_up s
  | IAcquire l => lock_acquire l
  | ITryAcquire l => lock_try_acquire t l
  | ISetHolder l => let* c := thread_current in set_holder l c
  | IRelease l => lock_release t l
  | ILockUp l => sema_up (lock_sema l)
  | ICondSignal c l => cond_signal t c l
  | ICondBroadcast c l => cond_broadcast t c l
  | ISetTid t' =>
      let* k := get in
      let* _ := set_thread t' (λ th, Thread (next_tid k) (status th) (stack th) (priority th) (pagedir th)
        (parent th) (children th) (files th) (magic th) (result th) (code th)) in
      set_next_tid (s32 (next_tid k + 1))
  | IParent t' =>
      let* c := thread_current in
      set_thread t' (λ th, Thread (tid th) (status th) (stack th) (priority th) (pagedir th)
        c (children th) (files th) (magic th) (result th) (code th))
  | IPushChild p t' =>
      set_thread p (λ th, Thread (tid th) (status th) (stack th) (priority th) (pagedir th)
        (parent th) (children th ++ [t']) (files th) (magic th) (result th) (code th))
  | IFrames t' =>
      let* _ := alloc_frame t' 12 in
      let* _ := alloc_frame t' 4 in
      alloc_frame t' 28
  | IUnblock t' => thread_unblock t'
  | IYield => thread_yield
  | IExit => thread_exit
  | ISetLevel old => intr_set_level old
  | IIdleStart s => idle_start t s
  | IIdleBlock => idle_block t
  | IHlt => idle_wait t
  end.

(** The running thread executes its next instruction. *)
Definition exec : cmd kernel unit :=
  let* t := running_thread in
  let* th := get_thread t in
  match code th with
  | [] => lift (Fail Blocked)
  | i :: rest => let* _ := set_thread t (with_code rest) in exec_instr t i
  end.

(** Calls a thread can make. *)
Inductive call :=
| CSemaInit (s v : Z) | CSemaDown (s : Z) | CSemaTryDown (s : Z) | CSemaUp (s : Z)
| CLockInit (l : Z) | CLockAcquire (l : Z) | CLockTryAcquire (l : Z) | CLockRelease (l : Z)
| CCondInit (c : Z) | CCondWait (c l w : Z) | CCondSignal (c l : Z) | CCondBroadcast (c l : Z)
| CCreate (t prio fpage : Z) | CYield | CExit | CSetPriority (prio : Z).

Definition call_code (cur : Z) (c : call) : list instr :=
  match c with
  | CSemaDown s => [IDown s] | CSemaTryDown s => [ITryDown s None] | CSemaUp s => [IUp s]
  | CLockAcquire l => [IAcquire l] | CLockTryAcquire l => [ITryAcquire l]
  | CLockRelease l => [IRelease l]
  | CCondWait c l w => cond_wait l w | CCondSignal c l => [ICondSignal c l]
  | CCondBroadcast c l => [ICondBroadcast c l]
  | CCreate t _ _ => create_rest cur t
  | CYield => [IYield] | CExit => [IExit]
  | CSemaInit _ _ | CLockInit _ | CCondInit _ | CSetPriority _ => []
  end.

Definition thread_set_priority (prio : Z) : cmd kernel unit :=
  let* t := thread_current in
  set_thread t (λ th, Thread (tid th) (status th) (stack th) prio (pagedir th) (parent th)
    (children th) (files th) (magic th) (result th) (code th)).
Definition thread_get_priority : cmd kernel Z :=
  let* t := thread_current in let* th := get_thread t in mret (priority th).

(** The start of a call: what is done at once, and the code that is left. *)
Definition start_call (c : call) : cmd kernel unit :=
  let* t := running_thread in
  let* _ := match c with
            | CSemaInit s v => sema_init s v
            | CLockInit l => lock_init l
            | CCondInit c => cond_init c
            | CCondWait c l w => cond_wait_enter c l w
            | CCreate t' prio fpage => init_thread t' prio fpage []
            | CSetPriority prio => thread_set_priority prio
            | _ => mret ()
            end in
  set_thread t (with_code (call_code t c)).

(** [thread_init], for the initial thread at page [main], and [thread_start],
    which creates the idle thread at page [idle] and waits for it. *)
Definition thread_init (main : Z) : cmd kernel unit :=
  let* lev := intr_get_level in
  let* _ := assert (negb lev) in
  let* _ := lock_init tid_lock in
  let* _ := set_ready [] in
  let* _ := set_all [] in
  let* _ := init_thread main PRI_DEFAULT 0 [] in
  let* _ := set_thread main (with_status THREAD_RUNNING) in
  let* _ := set_running main in
  set_thread main (with_code (allocate_tid main)).

Definition thread_start (idle idle_started fpage : Z) : cmd kernel unit :=
  let* t := running_thread in
  let* _ := sema_init idle_started 0 in
  let* _ := init_thread idle PRI_MIN fpage [IIdleStart idle_started] in
  set_thread t (with_code (create_rest t idle ++ [ISetLevel INTR_ON; IDown idle_started])).

(** [n] instructions. *)
Fixpoint exec_n (n : nat) : cmd kernel unit :=
  match n with O => mret () | S n => let* _ := exec in exec_n n end.

(** The state of the machine before [thread_init]. *)
Definition reset_kernel : kernel := Kernel ∅ [] [] 0 0 INTR_OFF 0 0 0 0 1 ∅ ∅ ∅.

(** The kernel after [thread_init] and [thread_start], with no timer tick in
    between. *)
Definition booted (main idle idle_started fpage : Z) : outcome (unit * kernel) :=
  (let* _ := thread_init main in
   let* _ := exec_n 5 in
   let* _ := thread_start idle idle_started fpage in
   exec_n 18) reset_kernel.
