(* ===== verification/Sched.v ===== *)
(** * Invariants of the scheduler and of synchronization

    The step relation of the machine of [Thread]: the running thread executes
    an instruction, starts a call, or is interrupted by the timer.  The
    invariants hold in every reachable state, by rule induction: which
    threads are on which list, that no wake-up is lost, and that a lock has
    one owner. *)

From S2P Require Import Prelude Vaddr Thread.

(** ** What the invariants look at *)

Definition st (k : kernel) (t : Z) : option thread_status := status <$> threads k !! t.
Definition cd (k : kernel) (t : Z) : option (list instr) := code <$> threads k !! t.

(** The thread is in the loop of [sema_down] on [s]. *)
Definition at_loop (c : option (list instr)) (s : Z) : Prop :=
  match c with Some (IDownLoop s' _ _ :: _) => s' = s | _ => False end.
#[global] Instance at_loop_dec c s : Decision (at_loop c s).
Proof. destruct c as [[|[] ?]|]; simpl; apply _. Defined.

(** The threads that code is going to unblock. *)
Definition unblocks (c : list instr) : list Z :=
  omap (λ i, match i with IUnblock t => Some t | _ => None end) c.

(** Code of the idle thread. *)
Fixpoint idle_code (c : list instr) : Prop :=
  match c with
  | ISetLevel _ :: c => idle_code c
  | [IIdleBlock] | [IHlt] => True
  | _ => False
  end.

(** A semaphore that is not part of a lock, and a lock. *)
Definition client_sema (k : kernel) (s : Z) : Prop :=
  is_Some (semas k !! s) ∧ holders k !! (s - 4) = None.
Definition is_lock (k : kernel) (l : Z) : Prop :=
  is_Some (holders k !! l) ∧ is_Some (semas k !! lock_sema l).

(** Instructions that only [exec] puts at the head of the code. *)
Definition dynamic (i : instr) : Prop :=
  match i with IDownLoop _ _ _ | ISetHolder _ | ILockUp _ | ISetLevel _ | IHlt | IIdleBlock | IIdleStart _
  | ITryDown _ (Some _) => True
  | _ => False end.

Definition sema_of (k : kernel) (s : Z) (lk : option Z) : Prop :=
  match lk with None => client_sema k s | Some l => s = lock_sema l ∧ is_lock k l end.

Definition instr_ok (k : kernel) (i : instr) : Prop :=
  match i with
  | IDown s | IUp s => client_sema k s
  | IDownLoop s _ lk | ITryDown s lk => sema_of k s lk
  | IAcquire l | ITryAcquire l | ISetHolder l | IRelease l | ILockUp l => is_lock k l
  | ICondSignal c l | ICondBroadcast c l => is_lock k l ∧ is_Some (conds k !! c)
  | ISetTid t | IParent t | IFrames t | IUnblock t => is_Some (threads k !! t)
  | IPushChild p t => is_Some (threads k !! p)
  | IYield | IExit | ISetLevel _ => True
  | IIdleStart _ | IIdleBlock | IHlt => False
  end.

(** Dynamic instructions come first, after the change of level of a thread
    that the timer interrupted. *)
Definition not_level (i : instr) : Prop := match i with ISetLevel _ => False | _ => True end.
Fixpoint shape (c : list instr) : Prop :=
  match c with
  | [] => True
  | ISetLevel _ :: c => shape c ∧ ∀ s, ¬ at_loop (Some c) s
  | _ :: c => Forall (λ i, ¬ dynamic i) c
  end.
Definition code_ok (k : kernel) (c : list instr) : Prop := Forall (instr_ok k) c ∧ shape c.

(** ** The lists of threads

    [o] is the thread with status THREAD_RUNNING: the running one, or none
    while [schedule] is at work. *)
Record lists_ok (o : option Z) (k : kernel) : Prop := {
  lo_running t : st k t = Some THREAD_RUNNING ↔ o = Some t;
  lo_ready_nodup : NoDup (ready_list k);
  lo_ready t : t ∈ ready_list k ↔ st k t = Some THREAD_READY ∧ t ≠ idle_thread k;
  lo_waiters s x : semas k !! s = Some x → NoDup (waiters x) ∧
    ∀ t, t ∈ waiters x ↔ st k t = Some THREAD_BLOCKED ∧ at_loop (cd k t) s;
  lo_all_nodup : NoDup (all_list k);
  lo_all t : t ∈ all_list k ↔ ∃ x, st k t = Some x ∧ x ≠ THREAD_DYING;
  lo_idle : ∃ c, cd k (idle_thread k) = Some c ∧ idle_code c ∧ st k (idle_thread k) ≠ Some THREAD_DYING;
  lo_magic t th : threads k !! t = Some th → t ≠ 0 ∧ magic th = THREAD_MAGIC;
  lo_unblock p c t : cd k p = Some c → t ∈ unblocks c →
    st k t = Some THREAD_BLOCKED ∧ cd k t = Some [ISetLevel INTR_ON] ∧ t ≠ idle_thread k;
  lo_unblock_nodup p c : cd k p = Some c → NoDup (unblocks c);
  lo_unblock_one p q c c' t : cd k p = Some c → cd k q = Some c' → t ∈ unblocks c → t ∈ unblocks c' → p = q
}.

(** Names in code and the fixed parts of the state. *)
Record names_ok (k : kernel) : Prop := {
  no_run : is_Some (threads k !! running k);
  no_code t c : cd k t = Some c → t ≠ idle_thread k → code_ok k c;
  no_sema t : is_Some (threads k !! t) → client_sema k (child_list_sema t);
  no_cond c ws w : conds k !! c = Some ws → w ∈ ws → client_sema k w;
  no_lock l : is_Some (holders k !! l) → is_Some (semas k !! lock_sema l);
  no_tid : is_lock k tid_lock
}.

(** ** Updates *)

Definition put_code (k : kernel) (t : Z) (c : list instr) : kernel :=
  with_threads k (alter (with_code c) t (threads k)).
Definition put_status (k : kernel) (t : Z) (x : thread_status) : kernel :=
  with_threads k (alter (with_status x) t (threads k)).

Lemma st_put_code k t c u : st (put_code k t c) u = st k u.
Proof.
  unfold st. simpl. destruct (decide (u = t)) as [->|]; [rewrite lookup_alter_eq|by rewrite lookup_alter_ne].
  by destruct (threads k !! t).
Qed.
Lemma cd_put_code k t c u : is_Some (threads k !! t) →
  cd (put_code k t c) u = if decide (u = t) then Some c else cd k u.
Proof.
  intros [th Hth]. unfold cd. simpl. case_decide; [subst; by rewrite lookup_alter_eq, Hth|by rewrite lookup_alter_ne].
Qed.
Lemma st_put_status k t x u : is_Some (threads k !! t) →
  st (put_status k t x) u = if decide (u = t) then Some x else st k u.
Proof.
  intros [th Hth]. unfold st. simpl. case_decide; [subst; by rewrite lookup_alter_eq, Hth|by rewrite lookup_alter_ne].
Qed.
Lemma cd_put_status k t x u : cd (put_status k t x) u = cd k u.
Proof.
  unfold cd. simpl. destruct (decide (u = t)) as [->|]; [rewrite lookup_alter_eq|by rewrite lookup_alter_ne].
  by destruct (threads k !! t).
Qed.

(** Two states that agree on everything the invariants look at. *)
Definition mg (k : kernel) (t : Z) : option Z := magic <$> threads k !! t.

Lemma mg_put_code k t c u : mg (put_code k t c) u = mg k u.
Proof.
  unfold mg. simpl. destruct (decide (u = t)) as [->|]; [rewrite lookup_alter_eq|by rewrite lookup_alter_ne].
  by destruct (threads k !! t).
Qed.
Lemma mg_put_status k t c u : mg (put_status k t c) u = mg k u.
Proof.
  unfold mg. simpl. destruct (decide (u = t)) as [->|]; [rewrite lookup_alter_eq|by rewrite lookup_alter_ne].
  by destruct (threads k !! t).
Qed.

Record same_view (k k' : kernel) : Prop := {
  sv_st t : st k' t = st k t;
  sv_cd t : cd k' t = cd k t;
  sv_mg t : mg k' t = mg k t;
  sv_ready : ready_list k' = ready_list k;
  sv_all : all_list k' = all_list k;
  sv_idle : idle_thread k' = idle_thread k;
  sv_running : running k' = running k;
  sv_semas : semas k' = semas k;
  sv_holders : holders k' = holders k
}.

#[global] Instance same_view_equiv : Equivalence same_view.
Proof.
  split.
  - by intros k.
  - intros k1 k2 [? ? ? ? ? ? ? ? ?]. split; congruence.
  - intros k1 k2 k3 [? ? ? ? ? ? ? ? ?] [? ? ? ? ? ? ? ? ?]. split; congruence.
Qed.

Lemma st_is_Some k t x : st k t = Some x → is_Some (threads k !! t).
Proof. unfold st. destruct (threads k !! t); naive_solver. Qed.
Lemma cd_is_Some k t c : cd k t = Some c → is_Some (threads k !! t).
Proof. unfold cd. destruct (threads k !! t); naive_solver. Qed.
Lemma threads_st_cd k t : is_Some (threads k !! t) ↔ is_Some (st k t).
Proof. unfold st. rewrite fmap_is_Some. done. Qed.

Lemma lo_magic' o k t m : lists_ok o k → mg k t = Some m → t ≠ 0 ∧ m = THREAD_MAGIC.
Proof.
  intros Hk. unfold mg. destruct (threads k !! t) as [th|] eqn:E; [|done].
  intros [= <-]. by apply (lo_magic _ _ Hk t th).
Qed.

Lemma lists_same o k k' : same_view k k' → lists_ok o k → lists_ok o k'.
Proof.
  intros [Est Ecd Emg Er Ea Ei Erun Es Eh] [? ? ? ? ? ? ? Hm ? ? ?].
  split; rewrite ?Er, ?Ea, ?Ei; try done.
  - intros t. by rewrite Est.
  - intros t. by rewrite Est.
  - intros s x. rewrite Es. intros Hx. setoid_rewrite Est. setoid_rewrite Ecd. eauto.
  - intros t. setoid_rewrite Est. done.
  - by rewrite Ecd, Est.
  - intros t th Hth. pose proof (Emg t) as E. unfold mg in E. rewrite Hth in E. simpl in E.
    destruct (threads k !! t) as [th0|] eqn:Eth; [|done]. injection E as E.
    rewrite E. by apply (Hm t th0).
  - intros p c t. rewrite !Ecd, Est. eauto.
  - intros p c. rewrite Ecd. eauto.
  - intros p q c c' t. rewrite !Ecd. eauto.
Qed.

(** ** The running thread changes its own status and code *)

Record move (k k' : kernel) (t : Z) (x : thread_status) (c' : list instr) : Prop := {
  mv_st u : st k' u = if decide (u = t) then Some x else st k u;
  mv_cd u : cd k' u = if decide (u = t) then Some c' else cd k u;
  mv_mg u : mg k' u = mg k u;
  mv_idle : idle_thread k' = idle_thread k;
  mv_ready_nodup : NoDup (ready_list k');
  mv_ready u : u ∈ ready_list k' ↔ u ∈ ready_list k ∨ u = t ∧ x = THREAD_READY ∧ t ≠ idle_thread k;
  mv_waiters s y' : semas k' !! s = Some y' → NoDup (waiters y') ∧
    ((∃ y, semas k !! s = Some y ∧
       ∀ u, u ∈ waiters y' ↔ u ∈ waiters y ∨ u = t ∧ x = THREAD_BLOCKED ∧ at_loop (Some c') s) ∨
     waiters y' = [] ∧ (∀ u, ¬ at_loop (cd k u) s) ∧ ¬ at_loop (Some c') s);
  mv_all_nodup : NoDup (all_list k');
  mv_all u : u ∈ all_list k' ↔ u ∈ all_list k ∧ ¬ (u = t ∧ x = THREAD_DYING);
  mv_idle_code : t = idle_thread k → idle_code c' ∧ x ≠ THREAD_DYING;
  mv_unblocks u : u ∈ unblocks c' → ∃ c, cd k t = Some c ∧ u ∈ unblocks c;
  mv_unblocks_nodup : NoDup (unblocks c')
}.

Lemma move_waiters k k' t x c' s y' : lists_ok (Some t) k → move k k' t x c' → semas k' !! s = Some y' →
  ∀ u, u ∈ waiters y' ↔ st k' u = Some THREAD_BLOCKED ∧ at_loop (cd k' u) s.
Proof.
  intros Hk Hm Hy' u. rewrite (mv_st _ _ _ _ _ Hm), (mv_cd _ _ _ _ _ Hm).
  destruct (mv_waiters _ _ _ _ _ Hm s y' Hy') as [_ [(y & Hy & Hw)|(Hw & Hno & Hc)]].
  - rewrite Hw. destruct (lo_waiters _ _ Hk s y Hy) as [_ Hy2]. rewrite Hy2.
    case_decide as E; [subst u|naive_solver].
    pose proof (proj2 (lo_running _ _ Hk t) eq_refl). naive_solver congruence.
  - rewrite Hw. split; [intros H; by apply elem_of_nil in H|]. intros [_ Hl]. case_decide; naive_solver.
Qed.

Lemma move_all k k' t x c' u : lists_ok (Some t) k → move k k' t x c' →
  u ∈ all_list k' ↔ ∃ y, st k' u = Some y ∧ y ≠ THREAD_DYING.
Proof.
  intros Hk Hm. rewrite (mv_all _ _ _ _ _ Hm), (lo_all _ _ Hk), (mv_st _ _ _ _ _ Hm).
  pose proof (proj2 (lo_running _ _ Hk t) eq_refl) as Ht. case_decide as E; [subst u|naive_solver].
  split.
  - intros [_ Hx]. exists x. naive_solver.
  - intros (y & [= ->] & Hy). split; [|naive_solver]. eexists. split; [done|done].
Qed.

Lemma move_lists k k' t x c' : lists_ok (Some t) k → move k k' t x c' →
  lists_ok (if decide (x = THREAD_RUNNING) then Some t else None) k'.
Proof.
  intros Hk Hm. pose proof (proj2 (lo_running _ _ Hk t) eq_refl) as Ht.
  pose proof (mv_st _ _ _ _ _ Hm) as Hst. pose proof (mv_cd _ _ _ _ _ Hm) as Hcd.
  assert (∀ p c u, cd k' p = Some c → u ∈ unblocks c →
    ∃ c0, cd k p = Some c0 ∧ u ∈ unblocks c0) as Hub.
  { intros p c u Hp Hu. rewrite Hcd in Hp. case_decide; [|eauto]. subst p. injection Hp as <-.
    by apply (mv_unblocks _ _ _ _ _ Hm). }
  split.
  - intros u. rewrite Hst. pose proof (lo_running _ _ Hk u). repeat case_decide; naive_solver.
  - apply Hm.
  - intros u. rewrite (mv_ready _ _ _ _ _ Hm), (mv_idle _ _ _ _ _ Hm), (lo_ready _ _ Hk), Hst.
    case_decide; naive_solver.
  - intros s y' Hy'. split; [by apply (mv_waiters _ _ _ _ _ Hm s)|]. by apply (move_waiters k k' t x c').
  - apply Hm.
  - intros u. by apply (move_all k k' t x c').
  - rewrite (mv_idle _ _ _ _ _ Hm), Hcd, Hst. destruct (lo_idle _ _ Hk) as (c & Hc & Hic & Hd).
    case_decide as E; [|eauto]. destruct (mv_idle_code _ _ _ _ _ Hm (eq_sym E)). eexists. naive_solver.
  - intros u th Hth. pose proof (mv_mg _ _ _ _ _ Hm u) as E. unfold mg at 1 in E. rewrite Hth in E.
    by apply (lo_magic' (Some t) k).
  - intros p c u Hp Hu. destruct (Hub p c u Hp Hu) as (c0 & Hc0 & Hu0).
    destruct (lo_unblock _ _ Hk p c0 u Hc0 Hu0) as (? & ? & ?).
    rewrite Hst, Hcd, (mv_idle _ _ _ _ _ Hm). case_decide; [subst u; congruence|done].
  - intros p c Hp. rewrite Hcd in Hp. case_decide; [injection Hp as <-; apply Hm|by apply (lo_unblock_nodup _ _ Hk p)].
  - intros p q c c1 u Hp Hq Hu Hu'. destruct (Hub p c u Hp Hu) as (? & ? & ?), (Hub q c1 u Hq Hu') as (? & ? & ?).
    by eapply (lo_unblock_one _ _ Hk).
Qed.

(** ** Another thread becomes ready *)

Record wake (k k' : kernel) (w : Z) : Prop := {
  wk_st u : st k' u = if decide (u = w) then Some THREAD_READY else st k u;
  wk_cd u : cd k' u = cd k u;
  wk_mg u : mg k' u = mg k u;
  wk_idle : idle_thread k' = idle_thread k;
  wk_ready : ready_list k' = ready_list k ++ [w];
  wk_all : all_list k' = all_list k;
  wk_blocked : st k w = Some THREAD_BLOCKED ∧ w ≠ idle_thread k;
  wk_unblocks p c : cd k p = Some c → w ∉ unblocks c;
  wk_waiters s y' : semas k' !! s = Some y' → ∃ y, semas k !! s = Some y ∧
    waiters y' = filter (.≠ w) (waiters y)
}.

Lemma wake_lists o k k' w : lists_ok o k → wake k k' w → lists_ok o k'.
Proof.
  intros Hk [Hst Hcd Hmg Hi Hr Ha [Hw Hwi] Hub Hwt]. split.
  - intros u. rewrite Hst. case_decide; [subst u|apply (lo_running _ _ Hk)].
    pose proof (lo_running _ _ Hk w). naive_solver congruence.
  - rewrite Hr. apply NoDup_app. split; [apply Hk|]. split; [|apply NoDup_singleton].
    intros u Hu ->%list_elem_of_singleton. apply (lo_ready _ _ Hk) in Hu as [? _]. congruence.
  - intros u. rewrite Hr, Hi, elem_of_app, list_elem_of_singleton, (lo_ready _ _ Hk), Hst.
    case_decide; naive_solver.
  - intros s y' Hy'. destruct (Hwt s y' Hy') as (y & Hy & ->).
    destruct (lo_waiters _ _ Hk s y Hy) as [Hnd Hiff]. split; [by apply NoDup_filter|]. intros u.
    rewrite list_elem_of_filter, Hiff, Hst, Hcd. case_decide; naive_solver.
  - rewrite Ha. apply Hk.
  - intros u. rewrite Ha, (lo_all _ _ Hk), Hst. case_decide; [subst u|done].
    split; intros _; eexists; split; [done..|exact Hw|done].
  - rewrite Hi, Hcd, Hst. destruct (lo_idle _ _ Hk) as (c & ? & ? & ?). exists c.
    split; [done|]. split; [done|]. by rewrite decide_False by done.
  - intros u th Hth. pose proof (Hmg u) as E. unfold mg at 1 in E. rewrite Hth in E. by apply (lo_magic' o k).
  - intros p c u Hp Hu. rewrite Hcd in Hp. rewrite Hst, Hcd, Hi.
    destruct (decide (u = w)) as [->|]; [by destruct (Hub p c Hp)|by apply (lo_unblock _ _ Hk p c)].
  - intros p c. rewrite Hcd. apply Hk.
  - intros p q c c' u. rewrite !Hcd. by apply Hk.
Qed.

(** ** [schedule] *)

Definition switch_to (k : kernel) (n : Z) (l : list Z) : kernel :=
  put_status (w_running n (w_ready l k)) n THREAD_RUNNING.

Lemma cd_switch k n l u : cd (switch_to k n l) u = cd k u.
Proof. apply (cd_put_status (w_running n (w_ready l k))). Qed.

(** The thread [next_thread_to_run] chooses and the ready list it leaves. *)
Definition chosen (k : kernel) (n : Z) (l : list Z) : Prop :=
  ready_list k = n :: l ∨ ready_list k = [] ∧ l = [] ∧ n = idle_thread k.

Lemma idle_not_loop c s : idle_code c → ¬ at_loop (Some c) s.
Proof. destruct c as [|[] ?]; simpl; intros Hc H; exact Hc || exact H. Qed.

Lemma chosen_Some k n l : lists_ok None k → chosen k n l → is_Some (threads k !! n).
Proof.
  intros Hk [Hr|(_ & _ & ->)].
  - apply (st_is_Some k n THREAD_READY). apply (lo_ready _ _ Hk). rewrite Hr. set_solver.
  - destruct (lo_idle _ _ Hk) as (c & Hc & _). by eapply cd_is_Some.
Qed.

Lemma chosen_not_waiting k n l s : lists_ok None k → chosen k n l →
  ¬ (st k n = Some THREAD_BLOCKED ∧ at_loop (cd k n) s).
Proof.
  intros Hk [Hr|(_ & _ & ->)] [Hb Hl].
  - assert (st k n = Some THREAD_READY) by (apply (lo_ready _ _ Hk); rewrite Hr; set_solver). congruence.
  - destruct (lo_idle _ _ Hk) as (c & Hc & Hi & _). rewrite Hc in Hl. by apply idle_not_loop in Hl.
Qed.

Lemma switch_lists k n l : lists_ok None k → chosen k n l → lists_ok (Some n) (switch_to k n l).
Proof.
  intros Hk Hch. pose proof (chosen_Some k n l Hk Hch) as Hn.
  assert (∀ u, st (switch_to k n l) u = if decide (u = n) then Some THREAD_RUNNING else st k u) as Hst
    by (intros u; by apply (st_put_status (w_running n (w_ready l k)))).
  assert (∀ u, cd (switch_to k n l) u = cd k u) as Hcd by (intros u; apply (cd_put_status (w_running n (w_ready l k)))).
  assert (∀ u, st k u = Some THREAD_READY ∧ u ≠ idle_thread k ↔ u ∈ ready_list k) as Hrd
    by (intros u; symmetry; apply (lo_ready _ _ Hk)).
  split.
  - intros u. rewrite Hst. pose proof (lo_running _ _ Hk u). case_decide; naive_solver.
  - simpl. pose proof (lo_ready_nodup _ _ Hk) as Hnd. destruct Hch as [Hr|(Hr & -> & _)]; [|constructor].
    rewrite Hr in Hnd. by apply NoDup_cons in Hnd as [_ ?].
  - intros u. rewrite Hst. cbn [switch_to put_status with_threads w_running w_ready ready_list idle_thread].
    pose proof (Hrd u) as Hu. pose proof (lo_ready_nodup _ _ Hk) as Hnd.
    destruct Hch as [Hr|(Hr & -> & ->)]; rewrite Hr in Hu, Hnd.
    + apply NoDup_cons in Hnd as [Hnl _]. rewrite elem_of_cons in Hu. case_decide; naive_solver.
    + case_decide; naive_solver.
  - intros s y Hy. destruct (lo_waiters _ _ Hk s y Hy) as [Hnd Hiff]. split; [done|]. intros u.
    rewrite Hiff, Hst, Hcd. case_decide; [subst u|done].
    split; [intros H; by apply (chosen_not_waiting k n l s) in H|naive_solver].
  - apply Hk.
  - intros u. rewrite Hst. cbn [switch_to put_status with_threads w_running w_ready all_list]. rewrite (lo_all _ _ Hk).
    case_decide; [subst u|done]. split; intros _; [by eexists|].
    destruct Hch as [Hr|(_ & _ & ->)].
    + exists THREAD_READY. split; [|done]. apply Hrd. rewrite Hr. set_solver.
    + destruct (lo_idle _ _ Hk) as (c & Hc & _ & Hd). apply threads_st_cd in Hn as [x Hx]. exists x. naive_solver.
  - cbn [switch_to put_status with_threads w_running w_ready idle_thread]. rewrite Hcd, Hst.
    destruct (lo_idle _ _ Hk) as (c & ? & ? & ?). exists c. case_decide; naive_solver.
  - intros u th Hth. assert (mg (switch_to k n l) u = mg k u) as E by apply (mg_put_status (w_running n (w_ready l k))).
    unfold mg at 1 in E. rewrite Hth in E. by apply (lo_magic' None k).
  - intros p c u. rewrite !Hcd, Hst. intros Hp Hu. destruct (lo_unblock _ _ Hk p c u Hp Hu) as (Hb & ? & Hui).
    case_decide; [subst u|done]. destruct Hch as [Hr|(_ & _ & ->)]; [|done].
    assert (st k n = Some THREAD_READY) by (apply Hrd; rewrite Hr; set_solver). congruence.
  - intros p c. rewrite Hcd. apply Hk.
  - intros p q c c' u. rewrite !Hcd. by apply Hk.
Qed.

Lemma is_thread_ok o k t : lists_ok o k → is_Some (threads k !! t) → is_thread t k = Ret (true, k).
Proof.
  intros Hk [th Hth]. destruct (lo_magic _ _ Hk t th Hth) as [H0 Hm]. unfold is_thread.
  apply Z.eqb_neq in H0. rewrite H0. unfold get_thread. rewrite (cstep _ _ _ th k) by (by rewrite Hth).
  rewrite Hm. done.
Qed.

(** The running thread is one, and marked as running. *)
Record cur_ok (k : kernel) : Prop := {
  co_st : st k (running k) = Some THREAD_RUNNING;
  co_mg : mg k (running k) = Some THREAD_MAGIC;
  co_0 : running k ≠ 0
}.

Lemma lists_cur k : lists_ok (Some (running k)) k → cur_ok k.
Proof.
  intros Hk. pose proof (proj2 (lo_running _ _ Hk (running k)) eq_refl) as Hst.
  destruct (st_is_Some _ _ _ Hst) as [th Hth]. destruct (lo_magic _ _ Hk _ _ Hth) as [? Hm].
  split; [done| |done]. unfold mg. rewrite Hth. simpl. by rewrite Hm.
Qed.

Lemma cur_put_code k t c : cur_ok k → cur_ok (put_code k t c).
Proof. intros [? ? ?]. split; [by rewrite st_put_code|by rewrite mg_put_code|done]. Qed.

Lemma thread_current_ok k : cur_ok k → thread_current k = Ret (running k, k).
Proof.
  intros [Hst Hmg H0]. destruct (st_is_Some _ _ _ Hst) as [th Hth]. unfold st, mg in *. rewrite Hth in Hst, Hmg.
  injection Hst as Hst. injection Hmg as Hmg. unfold thread_current, is_thread, get_thread.
  rewrite (cstep _ _ _ (running k) k) by done. apply Z.eqb_neq in H0. rewrite H0.
  rewrite (cstep _ _ _ true k) by (rewrite (cstep _ _ _ th k) by (by rewrite Hth); by rewrite Hmg).
  rewrite (cstep _ _ _ () k) by done. rewrite (cstep _ _ _ th k) by (by rewrite Hth).
  rewrite (cstep _ _ _ () k) by (apply assert_ok; by rewrite bool_decide_true). done.
Qed.

Lemma set_thread_ok t g k : is_Some (threads k !! t) →
  set_thread t g k = Ret ((), with_threads k (alter g t (threads k))).
Proof.
  intros [th Hth]. unfold set_thread. rewrite Hth. simpl. do 3 f_equal.
  apply map_eq. intros u. destruct (decide (u = t)) as [->|].
  - by rewrite lookup_insert_eq, lookup_alter_eq, Hth.
  - by rewrite lookup_insert_ne, lookup_alter_ne.
Qed.

Lemma schedule_ok k : lists_ok None k → level k = INTR_OFF → is_Some (threads k !! running k) →
  ∃ n l k', schedule k = Ret ((), k') ∧ chosen k n l ∧ same_view (switch_to k n l) k' ∧
    level k' = INTR_OFF ∧ conds k' = conds k.
Proof.
  intros Hk Hlev [th Hth]. unfold schedule. rewrite (cstep _ _ _ (running k) k) by done.
  assert (∃ n l, chosen k n l ∧ next_thread_to_run k = Ret (n, w_ready l k)) as (n & l & Hch & Hnext).
  { unfold next_thread_to_run. rewrite cget. destruct (ready_list k) as [|n l] eqn:Hr.
    - exists (idle_thread k), []. split; [by right|]. destruct k. simpl in *. by rewrite Hr.
    - exists n, l. split; [by left|done]. }
  rewrite (cstep _ _ _ _ _ Hnext). set (k1 := w_ready l k).
  rewrite (cstep _ _ _ (level k1) k1) by done. simpl level. rewrite Hlev.
  rewrite (cstep _ _ _ () k1) by done.
  rewrite (cstep _ _ _ th k1) by (unfold get_thread; simpl; by rewrite Hth).
  assert (status th ≠ THREAD_RUNNING) as Hnr.
  { intros E. assert (st k (running k) = Some THREAD_RUNNING) as H by (unfold st; by rewrite Hth; simpl; rewrite E).
    by apply (lo_running _ _ Hk) in H. }
  rewrite (cstep _ _ _ () k1) by (apply assert_ok; by rewrite bool_decide_true).
  pose proof (chosen_Some k n l Hk Hch) as Hn. destruct (Hn) as [thn Hthn].
  rewrite (cstep _ _ _ true k1).
  2:{ destruct (lo_magic _ _ Hk n thn Hthn) as [H0 Hm]. unfold is_thread. apply Z.eqb_neq in H0. rewrite H0.
      unfold get_thread. rewrite (cstep _ _ _ thn k1) by (simpl; by rewrite Hthn). by rewrite Hm. }
  rewrite (cstep _ _ _ () k1) by done.
  rewrite (cstep _ _ _ () (w_running n k1)).
  2:{ destruct (Z.eqb_spec (running k) n) as [E|]; [|done]. simpl. unfold mret, cmd_ret. rewrite <- E. by destruct k. }
  unfold thread_schedule_tail. rewrite (cstep _ _ _ n (w_running n k1)) by done.
  rewrite (cstep _ _ _ INTR_OFF (w_running n k1)) by (unfold intr_get_level; simpl; by rewrite Hlev).
  rewrite (cstep _ _ _ () (w_running n k1)) by done.
  rewrite (cstep _ _ _ () (switch_to k n l)) by (by apply set_thread_ok).
  rewrite cget. eexists n, l, _. split; [done|]. split; [done|]. split; [by split|]. done.
Qed.

(** ** What an instruction does

    The effect of executing [i], with [rest] left, as an explicit state up to
    what the invariants do not look at. *)

(** [i] decrements [s], for the lock [lk]; [i] increments [s]. *)
Inductive downs : instr → Z → option Z → Prop :=
| downs_down s : downs (IDown s) s None
| downs_loop s old lk : downs (IDownLoop s old lk) s lk
| downs_try s lk : downs (ITryDown s lk) s lk
| downs_acquire l : downs (IAcquire l) (lock_sema l) (Some l).
Inductive ups : instr → Z → Prop :=
| ups_up s : ups (IUp s) s
| ups_lock l : ups (ILockUp l) (lock_sema l).
Definition got (lk : option Z) (rest : list instr) : list instr :=
  match lk with Some l => ISetHolder l :: rest | None => rest end.

(** Instructions that mean nothing to the invariants while they wait. *)
Definition plain (i : instr) : Prop :=
  match i with ISetHolder _ | ILockUp _ | IDownLoop _ _ _ | IUnblock _ => False | _ => True end.

Definition waits (k : kernel) (s : Z) (x : semaphore) (lk : option Z) (old : bool) (rest : list instr) : kernel :=
  w_sema s (Sema 0 (waiters x ++ [running k]))
    (put_status (put_code k (running k) (IDownLoop s old lk :: rest)) (running k) THREAD_BLOCKED).
Definition yields (k : kernel) (c : list instr) : kernel :=
  w_ready (if decide (running k = idle_thread k) then ready_list k else ready_list k ++ [running k])
    (put_status (put_code k (running k) c) (running k) THREAD_READY).
Definition exits (k : kernel) (rest : list instr) : kernel :=
  w_all (filter (.≠ running k) (all_list k)) (put_status (put_code k (running k) rest) (running k) THREAD_DYING).
Definition wakes (k : kernel) (rest : list instr) (w : Z) : kernel :=
  w_ready (ready_list k ++ [w]) (put_status (put_code k (running k) rest) w THREAD_READY).
Definition idles (k : kernel) : kernel :=
  put_status (put_code k (running k) [IHlt]) (running k) THREAD_BLOCKED.

Inductive event (k : kernel) (i : instr) (rest : list instr) : kernel → Prop :=
| EvCode js : plain i → Forall plain js →
    (running k = idle_thread k → idle_code (js ++ rest)) → event k i rest (put_code k (running k) (js ++ rest))
| EvDown s x lk : downs i s lk → semas k !! s = Some x → value x ≠ 0 →
    event k i rest (w_sema s (Sema (value x - 1) (waiters x)) (put_code k (running k) (got lk rest)))
| EvHold l : i = ISetHolder l → event k i rest (w_holder l (running k) (put_code k (running k) rest))
| EvRelease l : i = IRelease l → holders k !! l = Some (running k) →
    event k i rest (w_holder l 0 (put_code k (running k) (ILockUp l :: rest)))
| EvUp s x : ups i s → semas k !! s = Some x → waiters x = [] →
    event k i rest (w_sema s (Sema (u32 (value x + 1)) []) (put_code k (running k) rest))
| EvWake s x w ws : ups i s → semas k !! s = Some x → waiters x = w :: ws →
    event k i rest (w_sema s (Sema (u32 (value x + 1)) ws) (wakes k rest w))
| EvUnblock w : i = IUnblock w → event k i rest (wakes k rest w)
| EvWait s x lk old n l : downs i s lk → semas k !! s = Some x → value x = 0 →
    chosen (waits k s x lk old rest) n l → event k i rest (switch_to (waits k s x lk old rest) n l)
| EvYield old n l : i = IYield → chosen (yields k (ISetLevel old :: rest)) n l →
    event k i rest (switch_to (yields k (ISetLevel old :: rest)) n l)
| EvExit n l : i = IExit → chosen (exits k rest) n l → event k i rest (switch_to (exits k rest) n l)
| EvIdle n l : i = IIdleBlock → running k = idle_thread k → rest = [] → chosen (idles k) n l → event k i rest (switch_to (idles k) n l).

(** ** The lists along the events *)

Lemma unblocks_plain js rest : Forall plain js → unblocks (js ++ rest) = unblocks rest.
Proof.
  intros Hp. unfold unblocks. rewrite omap_app. replace (omap _ js) with (@nil Z); [done|].
  induction Hp as [|j js Hj _ IH]; [done|]. simpl. destruct j; simpl in *; done.
Qed.

Lemma unblocks_tail i rest u : u ∈ unblocks rest → u ∈ unblocks (i :: rest).
Proof. unfold unblocks. simpl. destruct i; simpl; set_solver. Qed.
Lemma unblocks_tail_nodup i rest : NoDup (unblocks (i :: rest)) → NoDup (unblocks rest).
Proof. unfold unblocks. simpl. destruct i; simpl; try done. intros H. by apply NoDup_cons in H as [_ ?]. Qed.

Section Lists.
Context (k : kernel) (i : instr) (rest : list instr).
Hypothesis Hk : lists_ok (Some (running k)) k.
Hypothesis Hcode : cd k (running k) = Some (i :: rest).

Let Hrun : is_Some (threads k !! running k).
Proof. by eapply cd_is_Some. Qed.
Let Hsome : ∀ c, is_Some (threads (put_code k (running k) c) !! running k).
Proof. intros c. apply threads_st_cd. rewrite st_put_code. by apply threads_st_cd. Qed.

(** The running thread goes on with code [c'] and status [x]. *)
Lemma self_move x js k' : Forall plain js ∨ (∃ s old lk, js = [IDownLoop s old lk]) ∨ (∃ l, js = [ISetHolder l]) ∨ (∃ l, js = [ILockUp l]) →
  (running k = idle_thread k → idle_code (js ++ rest) ∧ x ≠ THREAD_DYING) →
  (∀ u, st k' u = if decide (u = running k) then Some x else st k u) →
  (∀ u, cd k' u = if decide (u = running k) then Some (js ++ rest) else cd k u) →
  (∀ u, mg k' u = mg k u) → idle_thread k' = idle_thread k →
  NoDup (ready_list k') →
  (∀ u, u ∈ ready_list k' ↔ u ∈ ready_list k ∨ u = running k ∧ x = THREAD_READY ∧ running k ≠ idle_thread k) →
  (∀ s y', semas k' !! s = Some y' → NoDup (waiters y') ∧ ∃ y, semas k !! s = Some y ∧
     ∀ u, u ∈ waiters y' ↔ u ∈ waiters y ∨ u = running k ∧ x = THREAD_BLOCKED ∧ at_loop (Some (js ++ rest)) s) →
  NoDup (all_list k') → (∀ u, u ∈ all_list k' ↔ u ∈ all_list k ∧ ¬ (u = running k ∧ x = THREAD_DYING)) →
  move k k' (running k) x (js ++ rest).
Proof.
  intros Hjs Hi Hst Hcd Hmg Hid Hrn Hr Hw Han Ha.
  assert (unblocks (js ++ rest) = unblocks rest) as Hub.
  { destruct Hjs as [Hp|[(s & old & lk & ->)|[(l & ->)|(l & ->)]]]; [by apply unblocks_plain|done..]. }
  split; try done.
  - intros s y' Hy'. destruct (Hw s y' Hy') as [? ?]. split; [done|]. by left.
  - intros u. rewrite Hub. intros Hu. eexists. split; [done|]. by apply unblocks_tail.
  - rewrite Hub. eapply unblocks_tail_nodup, (lo_unblock_nodup _ _ Hk), Hcode.
Qed.

Lemma code_lists js : Forall plain js ∨ (∃ l, js = [ISetHolder l]) ∨ (∃ l, js = [ILockUp l]) →
  (running k = idle_thread k → idle_code (js ++ rest)) →
  lists_ok (Some (running k)) (put_code k (running k) (js ++ rest)).
Proof.
  intros Hjs Hi. pose proof (proj2 (lo_running _ _ Hk _) eq_refl) as Hst.
  apply (move_lists k _ (running k) THREAD_RUNNING (js ++ rest) Hk). apply self_move; try done.
  - destruct Hjs as [?|?]; auto.
  - auto.
  - intros u. rewrite st_put_code. by case_decide; [subst|].
  - intros u. by rewrite cd_put_code.
  - intros u. apply mg_put_code.
  - apply Hk.
  - intros u. simpl. naive_solver.
  - intros s y' Hy. simpl in Hy. split; [by apply (lo_waiters _ _ Hk s)|]. exists y'. split; [done|].
    intros u. naive_solver.
  - apply Hk.
  - intros u. simpl. naive_solver.
Qed.

Lemma waits_lists s x lk old : semas k !! s = Some x → running k ≠ idle_thread k →
  lists_ok None (waits k s x lk old rest).
Proof.
  intros Hx Hni. pose proof (proj2 (lo_running _ _ Hk _) eq_refl) as Hst.
  apply (move_lists k _ (running k) THREAD_BLOCKED (IDownLoop s old lk :: rest) Hk).
  apply (self_move THREAD_BLOCKED [IDownLoop s old lk]); try done.
  - right. left. eauto.
  - intros u. unfold waits. change (st (w_sema ?s ?x ?k) u) with (st k u). rewrite st_put_status by done.
    by rewrite st_put_code.
  - intros u. unfold waits. change (cd (w_sema ?s ?x ?k) u) with (cd k u). rewrite cd_put_status. by rewrite cd_put_code.
  - intros u. unfold waits. change (mg (w_sema ?s ?x ?k) u) with (mg k u). by rewrite mg_put_status, mg_put_code.
  - apply Hk.
  - intros u. simpl. naive_solver.
  - intros s' y' Hy. simpl in Hy. apply lookup_insert_Some in Hy as [[<- <-]|[Hne Hy]].
    + destruct (lo_waiters _ _ Hk s x Hx) as [Hnd Hiff]. simpl. split.
      * apply NoDup_app. split; [done|]. split; [|apply NoDup_singleton].
        intros u Hu ->%list_elem_of_singleton. apply Hiff in Hu as [? _]. congruence.
      * exists x. split; [done|]. intros u. rewrite elem_of_app, list_elem_of_singleton. naive_solver.
    + split; [by apply (lo_waiters _ _ Hk s')|]. exists y'. split; [done|]. intros u. simpl. naive_solver.
  - apply Hk.
  - intros u. simpl. naive_solver.
Qed.

Lemma exits_lists : running k ≠ idle_thread k → lists_ok None (exits k rest).
Proof.
  intros Hni. apply (move_lists k _ (running k) THREAD_DYING rest Hk).
  apply (self_move THREAD_DYING []); try done.
  - by left.
  - intros u. unfold exits. change (st (w_all ?s ?k) u) with (st k u). rewrite st_put_status by done.
    by rewrite st_put_code.
  - intros u. unfold exits. change (cd (w_all ?s ?k) u) with (cd k u). rewrite cd_put_status. by rewrite cd_put_code.
  - intros u. unfold exits. change (mg (w_all ?s ?k) u) with (mg k u). by rewrite mg_put_status, mg_put_code.
  - apply Hk.
  - intros u. simpl. naive_solver.
  - intros s y' Hy. simpl in Hy. split; [by apply (lo_waiters _ _ Hk s)|]. exists y'. split; [done|].
    intros u. naive_solver.
  - apply NoDup_filter, Hk.
  - intros u. simpl. rewrite list_elem_of_filter. naive_solver.
Qed.

Lemma idles_lists : rest = [] → running k = idle_thread k → lists_ok None (idles k).
Proof.
  intros Hrest Hi. apply (move_lists k _ (running k) THREAD_BLOCKED [IHlt] Hk).
  replace [IHlt] with ([IHlt] ++ rest) by (by rewrite Hrest). apply (self_move THREAD_BLOCKED [IHlt]); try done.
  - left. by repeat constructor.
  - by rewrite Hrest.
  - intros u. unfold idles. rewrite st_put_status by done. by rewrite st_put_code.
  - intros u. unfold idles. rewrite cd_put_status, Hrest. by apply cd_put_code.
  - intros u. unfold idles. by rewrite mg_put_status, mg_put_code.
  - apply Hk.
  - intros u. simpl. naive_solver.
  - intros s y' Hy. simpl in Hy. split; [by apply (lo_waiters _ _ Hk s)|]. exists y'. split; [done|].
    intros u. simpl. naive_solver.
  - apply Hk.
  - intros u. simpl. naive_solver.
Qed.
End Lists.

(** A yield, by the thread or by the timer, whatever its code. *)
Lemma yields_lists k c0 c old : lists_ok (Some (running k)) k → cd k (running k) = Some c0 →
  (running k = idle_thread k → idle_code c) → unblocks c = unblocks c0 →
  lists_ok None (yields k (ISetLevel old :: c)).
Proof.
  intros Hk Hcode Hi Hub. assert (is_Some (threads k !! running k)) as Hrun by (by eapply cd_is_Some).
  assert (∀ c, is_Some (threads (put_code k (running k) c) !! running k)) as Hsome
    by (intros; apply threads_st_cd; rewrite st_put_code; by apply threads_st_cd).
  pose proof (proj2 (lo_running _ _ Hk _) eq_refl) as Hst.
  apply (move_lists k _ (running k) THREAD_READY (ISetLevel old :: c) Hk). split.
  - intros u. unfold yields. change (st (w_ready ?s ?k) u) with (st k u). rewrite st_put_status by done.
    by rewrite st_put_code.
  - intros u. unfold yields. change (cd (w_ready ?s ?k) u) with (cd k u). rewrite cd_put_status. by rewrite cd_put_code.
  - intros u. unfold yields. change (mg (w_ready ?s ?k) u) with (mg k u). by rewrite mg_put_status, mg_put_code.
  - done.
  - simpl. case_decide; [apply Hk|]. apply NoDup_app. split; [apply Hk|]. split; [|apply NoDup_singleton].
    intros u Hu ->%list_elem_of_singleton. apply (lo_ready _ _ Hk) in Hu as [? _]. congruence.
  - intros u. simpl. case_decide; [naive_solver|]. rewrite elem_of_app, list_elem_of_singleton. naive_solver.
  - intros s y' Hy. simpl in Hy. split; [by apply (lo_waiters _ _ Hk s)|]. left. exists y'. split; [done|].
    intros u. naive_solver.
  - apply Hk.
  - intros u. simpl. naive_solver.
  - intros E. split; [by apply Hi|done].
  - intros u Hu. exists c0. split; [done|]. by rewrite <- Hub.
  - change (NoDup (unblocks c)). rewrite Hub. exact (lo_unblock_nodup _ _ Hk (running k) c0 Hcode).
Qed.

Lemma sema_lists o k s x x' : lists_ok o k → semas k !! s = Some x → waiters x' = waiters x →
  lists_ok o (w_sema s x' k).
Proof.
  intros [] Hx Hw. split; try done. intros s' y Hy. simpl in Hy.
  apply lookup_insert_Some in Hy as [[<- <-]|[_ Hy]]; [rewrite Hw|]; eauto.
Qed.

Lemma holder_lists o k l t : lists_ok o k → lists_ok o (w_holder l t k).
Proof. intros []. by split. Qed.

(** Wake-ups: of the first waiter of a semaphore, and of a new thread. *)
Lemma waiter_facts k s x w ws : lists_ok (Some (running k)) k → semas k !! s = Some x → waiters x = w :: ws →
  st k w = Some THREAD_BLOCKED ∧ at_loop (cd k w) s ∧ w ≠ idle_thread k ∧ w ∉ ws ∧
  (∀ p c, cd k p = Some c → w ∉ unblocks c) ∧ (∀ s' y, semas k !! s' = Some y → s' ≠ s → w ∉ waiters y).
Proof.
  intros Hk Hx Hw. destruct (lo_waiters _ _ Hk s x Hx) as [Hnd Hiff]. rewrite Hw in Hnd.
  apply NoDup_cons in Hnd as [Hnw _]. destruct (proj1 (Hiff w)) as [Hb Hl]; [rewrite Hw; set_solver|].
  split; [done|]. split; [done|]. split; [|split; [done|split]].
  - intros ->. destruct (lo_idle _ _ Hk) as (c & Hc & Hi & _). rewrite Hc in Hl. by apply idle_not_loop in Hl.
  - intros p c Hp Hin. destruct (lo_unblock _ _ Hk p c w Hp Hin) as (_ & E & _). by rewrite E in Hl.
  - intros s' y Hy Hne Hin. apply (lo_waiters _ _ Hk s' y Hy) in Hin as [_ Hl'].
    destruct (cd k w) as [[|[] ?]|]; simpl in *; congruence.
Qed.

Lemma filter_not_in (w : Z) (l : list Z) : w ∉ l → filter (.≠ w) l = l.
Proof. intros Hw. apply filter_all. intros x Hx ->. done. Qed.

Lemma wakes_threads k c w : is_Some (threads k !! running k) → is_Some (threads k !! w) →
  (∀ u, st (wakes k c w) u = if decide (u = w) then Some THREAD_READY else st k u) ∧
  (∀ u, cd (wakes k c w) u = if decide (u = running k) then Some c else cd k u) ∧
  (∀ u, mg (wakes k c w) u = mg k u).
Proof.
  intros Hr Hw. unfold wakes.
  assert (is_Some (threads (put_code k (running k) c) !! w)) as Hw'
    by (apply threads_st_cd; rewrite st_put_code; by apply threads_st_cd).
  split; [|split]; intros u; change (st (w_ready ?a ?b) u) with (st b u);
    change (cd (w_ready ?a ?b) u) with (cd b u); change (mg (w_ready ?a ?b) u) with (mg b u).
  - rewrite st_put_status by done. by rewrite st_put_code.
  - rewrite cd_put_status. by apply cd_put_code.
  - by rewrite mg_put_status, mg_put_code.
Qed.

Section Wakes.
Context (k : kernel) (i : instr) (rest : list instr).
Hypothesis Hk : lists_ok (Some (running k)) k.
Hypothesis Hcode : cd k (running k) = Some (i :: rest).
Hypothesis Hni : running k ≠ idle_thread k.

Let Hrun : is_Some (threads k !! running k).
Proof. by eapply cd_is_Some. Qed.

Lemma wake_waiter_lists s x w ws v : semas k !! s = Some x → waiters x = w :: ws →
  lists_ok (Some (running k)) (w_sema s (Sema v ws) (wakes k rest w)).
Proof.
  intros Hx Hw. destruct (waiter_facts k s x w ws Hk Hx Hw) as (Hb & Hl & Hwi & Hnw & Hub & Hoth).
  assert (lists_ok (Some (running k)) (put_code k (running k) rest)) as Hk1.
  { apply (code_lists k i rest Hk Hcode []); [by left|done]. }
  destruct (wakes_threads k rest w) as (Hst & Hcd & Hmg); [done|by eapply st_is_Some|].
  apply (wake_lists _ _ _ w Hk1). split.
  - intros u. rewrite st_put_code. apply Hst.
  - intros u. rewrite cd_put_code by done. apply Hcd.
  - intros u. rewrite mg_put_code. apply Hmg.
  - done.
  - done.
  - done.
  - by rewrite st_put_code.
  - intros p c. rewrite cd_put_code by done. case_decide as E; [|apply Hub]. intros [= <-] Hin.
    apply (Hub (running k) (i :: rest) Hcode). by apply unblocks_tail.
  - intros s' y' Hy. simpl in Hy. apply lookup_insert_Some in Hy as [[<- <-]|[Hne Hy]].
    + exists x. split; [done|]. rewrite Hw. simpl. rewrite filter_cons_False by auto. by rewrite filter_not_in.
    + exists y'. split; [done|]. rewrite filter_not_in; [done|]. by apply (Hoth s').
Qed.

Lemma wake_new_lists w : i = IUnblock w → lists_ok (Some (running k)) (wakes k rest w).
Proof.
  intros Ei. assert (w ∈ unblocks (i :: rest)) as Hin by (rewrite Ei; set_solver).
  destruct (lo_unblock _ _ Hk _ _ w Hcode Hin) as (Hb & Hc & Hwi).
  assert (lists_ok (Some (running k)) (put_code k (running k) rest)) as Hk1.
  { apply (code_lists k i rest Hk Hcode []); [by left|done]. }
  destruct (wakes_threads k rest w) as (Hst & Hcd & Hmg); [done|by eapply st_is_Some|].
  apply (wake_lists _ _ _ w Hk1). split.
  - intros u. rewrite st_put_code. apply Hst.
  - intros u. rewrite cd_put_code by done. apply Hcd.
  - intros u. rewrite mg_put_code. apply Hmg.
  - done.
  - done.
  - done.
  - by rewrite st_put_code.
  - intros p c. rewrite cd_put_code by done. case_decide as E.
    + intros [= <-] Hr. pose proof (lo_unblock_nodup _ _ Hk _ _ Hcode) as Hnd. rewrite Ei in Hnd. simpl in Hnd.
      by apply NoDup_cons in Hnd as [? _].
    + intros Hp Hr. apply E. by apply (lo_unblock_one _ _ Hk p (running k) c (i :: rest) w).
  - intros s y Hy. simpl in Hy. exists y. split; [done|]. rewrite filter_not_in; [done|]. intros Hwy.
    apply (lo_waiters _ _ Hk s y Hy) in Hwy as [_ Hl]. by rewrite Hc in Hl.
Qed.
End Wakes.

(** Every event preserves the lists. *)
Lemma event_lists k i rest k' : lists_ok (Some (running k)) k → cd k (running k) = Some (i :: rest) →
  (running k = idle_thread k → idle_code (i :: rest)) → event k i rest k' → lists_ok (Some (running k')) k'.
Proof.
  intros Hk Hc Hi Hev.
  assert (∀ s lk, downs i s lk → running k ≠ idle_thread k) as Hd by (intros s lk Hd E; by destruct Hd, (Hi E)).
  assert (∀ s, ups i s → running k ≠ idle_thread k) as Hu by (intros s Hu E; by destruct Hu, (Hi E)).
  destruct Hev as [js Hp Hjs Hij|s x lk Hdn Hx Hv|l ->|l -> Hh|s x Hup Hx Hw|s x w ws Hup Hx Hw|w ->
    |s x lk old n l Hdn Hx Hv Hch|old n l -> Hch|n l -> Hch|n l -> Hri Hrest Hch]; simpl running.
  - apply (code_lists k i rest Hk Hc); [by left|done].
  - apply (sema_lists _ _ s x); [|done|done].
    replace (got lk rest) with ((match lk with Some l => [ISetHolder l] | None => [] end) ++ rest) by (by destruct lk).
    apply (code_lists k i rest Hk Hc); [destruct lk; eauto|]. intros E. by apply (Hd s lk) in E.
  - apply holder_lists, (code_lists k _ rest Hk Hc []); [by left|]. intros E. by destruct (Hi E).
  - apply holder_lists, (code_lists k _ rest Hk Hc [ILockUp l]); [eauto|]. intros E. by destruct (Hi E).
  - apply (sema_lists _ _ s x); [|done|done].
    apply (code_lists k _ rest Hk Hc []); [by left|]. intros E. by apply (Hu s) in E.
  - apply (wake_waiter_lists k i rest Hk Hc (Hu s Hup) s x); done.
  - apply (wake_new_lists k _ rest Hk Hc); [|done]. intros E. by destruct (Hi E).
  - apply switch_lists; [|done]. by apply (waits_lists k i rest Hk Hc s x lk old Hx), (Hd s lk).
  - apply switch_lists; [|done].
    apply (yields_lists k (IYield :: rest) rest old Hk Hc); [|done]. intros E. by destruct (Hi E).
  - apply switch_lists; [|done]. apply (exits_lists k _ rest Hk Hc). intros E. by destruct (Hi E).
  - apply switch_lists; [|done]. by apply (idles_lists k IIdleBlock rest Hk Hc).
Qed.

(** ** Execution *)

Lemma put_code_twice k t c c' : put_code (put_code k t c) t c' = put_code k t c'.
Proof.
  unfold put_code, with_threads. simpl. f_equal. apply map_eq. intros u.
  destruct (decide (u = t)) as [->|]; [rewrite !lookup_alter_eq; by destruct (threads k !! t)|by rewrite !lookup_alter_ne].
Qed.

Lemma push_code_ok k t i c : cd k t = Some c → push_code t i k = Ret ((), put_code k t (i :: c)).
Proof.
  intros Hc. assert (is_Some (threads k !! t)) as Hs by (by eapply cd_is_Some). unfold push_code.
  rewrite set_thread_ok by done. unfold put_code. do 3 f_equal. apply alter_ext. intros th Hth.
  unfold cd in Hc. rewrite Hth in Hc. simpl in Hc. by injection Hc as ->.
Qed.

Lemma switch_same k1 k2 n l : same_view k1 k2 → is_Some (threads k1 !! n) →
  same_view (switch_to k1 n l) (switch_to k2 n l).
Proof.
  intros [Est Ecd Emg ? ? ? ? ? ?] Hn. assert (is_Some (threads k2 !! n)) as Hn2
    by (apply threads_st_cd; rewrite Est; by apply threads_st_cd).
  unfold switch_to. split; try done; intros u.
  - rewrite !st_put_status by done. case_decide; [done|]. apply Est.
  - rewrite !cd_put_status. apply Ecd.
  - rewrite !mg_put_status. apply Emg.
Qed.

(** [schedule] from a state like [kx]. *)
Lemma away_ok kx ky : lists_ok None kx → same_view kx ky → level ky = INTR_OFF →
  is_Some (threads kx !! running kx) →
  ∃ n l k', schedule ky = Ret ((), k') ∧ chosen kx n l ∧ same_view (switch_to kx n l) k' ∧
    level k' = INTR_OFF ∧ conds k' = conds ky.
Proof.
  intros Hx Hs Hl Hr. destruct (schedule_ok ky) as (n & l & k' & Hk' & Hch & Hsv & Hlev & Hc).
  - by apply (lists_same _ kx).
  - done.
  - rewrite (sv_running _ _ Hs). apply threads_st_cd. rewrite (sv_st _ _ Hs). by apply threads_st_cd.
  - assert (chosen kx n l) as Hch'.
    { unfold chosen in *. by rewrite (sv_ready _ _ Hs), (sv_idle _ _ Hs) in Hch. }
    exists n, l, k'. split; [done|]. split; [done|]. split; [|done].
    etrans; [|exact Hsv]. apply switch_same; [done|]. by apply (chosen_Some kx n l).
Qed.

(** The condition variables only lose waiters. *)
Definition conds_le (k k' : kernel) : Prop := ∀ c, option_relation (λ ws' ws : list Z, ws' ⊆ ws) (λ _, False) (λ _, False)
  (conds k' !! c) (conds k !! c).

Lemma conds_le_eq k k' : conds k' = conds k → conds_le k k'.
Proof. intros E c. rewrite E. by destruct (conds k !! c); simpl. Qed.

Record result (k : kernel) (i : instr) (rest : list instr) (k' : kernel) : Prop := {
  re_event : ∃ k0, event k i rest k0 ∧ same_view k0 k';
  re_conds : conds_le k k';
  re_level s : at_loop (cd k' (running k')) s → level k' = INTR_OFF;
  re_code : running k ≠ idle_thread k → ∃ c, cd k' (running k) = Some c ∧ code_ok k c
}.

(** What is left of good code is good. *)
Lemma static_shape c : Forall (λ i, ¬ dynamic i) c → shape c.
Proof. destruct c as [|j c]; [done|]. intros [Hj Hc]%Forall_cons. destruct j; try exact Hc; by destruct Hj. Qed.
Lemma static_not_loop c s : Forall (λ i, ¬ dynamic i) c → ¬ at_loop (Some c) s.
Proof. destruct c as [|j c]; [by intros _ []|]. intros [Hj Hc]%Forall_cons Hl. destruct j; try exact Hl; by destruct Hj. Qed.
Lemma shape_static i rest : shape (i :: rest) → not_level i → Forall (λ i, ¬ dynamic i) rest.
Proof. by destruct i. Qed.
Lemma shape_cons j rest : Forall (λ i, ¬ dynamic i) rest → shape (j :: rest).
Proof. intros Hs. destruct j; simpl; try done. split; [by apply static_shape|]. intros s. by apply static_not_loop. Qed.

Lemma rest_ok k i rest : code_ok k (i :: rest) → code_ok k rest.
Proof.
  intros [Hf Hs]. apply Forall_cons in Hf as [_ Hf].
  split; [done|]. destruct i; simpl in Hs; try by apply static_shape. apply Hs.
Qed.
Lemma rest_not_loop k i rest s : code_ok k (i :: rest) → ¬ at_loop (Some rest) s.
Proof. intros [_ Hs]. destruct i; simpl in Hs; try by apply static_not_loop. apply Hs. Qed.
Lemma cons_ok k i j rest : code_ok k (i :: rest) → not_level i → instr_ok k j → code_ok k (j :: rest).
Proof.
  intros [Hf Hs] Hi Hj. apply Forall_cons in Hf as [_ Hf]. split; [by constructor|].
  by eapply shape_cons, shape_static.
Qed.
Lemma downs_not_level i s lk : downs i s lk → not_level i.
Proof. by destruct 1. Qed.

Section Exec.
Context (k : kernel) (i : instr) (rest : list instr).
Hypothesis Hk : lists_ok (Some (running k)) k.
Hypothesis Hcode : cd k (running k) = Some (i :: rest).

Lemma exec_run : is_Some (threads k !! running k).
Proof. by eapply cd_is_Some. Qed.
Lemma exec_some c : is_Some (threads (put_code k (running k) c) !! running k).
Proof. apply threads_st_cd. rewrite st_put_code. apply threads_st_cd, exec_run. Qed.
Lemma exec_cd c : cd (put_code k (running k) c) (running k) = Some c.
Proof. rewrite cd_put_code by apply exec_run. by rewrite decide_True. Qed.

(** The next instruction runs in the state without it. *)
Lemma exec_pop : exec k = exec_instr (running k) i (put_code k (running k) rest).
Proof.
  unfold exec. rewrite (cstep _ _ _ (running k) k) by done. destruct exec_run as [th Hth].
  rewrite (cstep _ _ _ th k) by (unfold get_thread; by rewrite Hth).
  pose proof Hcode as Hc. unfold cd in Hc. rewrite Hth in Hc. injection Hc as ->.
  by rewrite (cstep _ _ _ () (put_code k (running k) rest)) by (by apply set_thread_ok, exec_run).
Qed.

(** A change of the code of the running thread and of nothing the invariants see. *)
Lemma code_result js k' : plain i → Forall plain js →
  (running k = idle_thread k → idle_code (js ++ rest)) →
  same_view (put_code k (running k) (js ++ rest)) k' → conds_le k k' →
  (running k ≠ idle_thread k → code_ok k (js ++ rest)) →
  (¬ ∃ s, at_loop (Some (js ++ rest)) s) → result k i rest k'.
Proof.
  intros Hp Hjs Hi Hsv Hcl Hok Hnl. split.
  - eexists. split; [by apply EvCode|done].
  - done.
  - intros s. rewrite (sv_running _ _ Hsv), (sv_cd _ _ Hsv), exec_cd. intros H. destruct Hnl. eauto.
  - intros Hni. exists (js ++ rest). rewrite (sv_cd _ _ Hsv), exec_cd. auto.
Qed.

End Exec.

(** Updates of similar states. *)
Lemma sv_some k1 k2 t : same_view k1 k2 → is_Some (threads k1 !! t) → is_Some (threads k2 !! t).
Proof. intros Hs. rewrite !threads_st_cd, (sv_st _ _ Hs). done. Qed.
Lemma sv_put_code k1 k2 t c : same_view k1 k2 → is_Some (threads k1 !! t) →
  same_view (put_code k1 t c) (put_code k2 t c).
Proof.
  intros Hs Ht. pose proof (sv_some _ _ _ Hs Ht). destruct Hs as [Est Ecd Emg ? ? ? ? ? ?].
  split; try done; intros u; rewrite ?st_put_code, ?mg_put_code, ?cd_put_code by done; [apply Est| |apply Emg].
  case_decide; [done|apply Ecd].
Qed.
Lemma sv_put_status k1 k2 t x : same_view k1 k2 → is_Some (threads k1 !! t) →
  same_view (put_status k1 t x) (put_status k2 t x).
Proof.
  intros Hs Ht. pose proof (sv_some _ _ _ Hs Ht). destruct Hs as [Est Ecd Emg ? ? ? ? ? ?].
  split; try done; intros u; rewrite ?st_put_status, ?mg_put_status, ?cd_put_status by done; [|apply Ecd|apply Emg].
  case_decide; [done|apply Est].
Qed.
Lemma sv_sema k1 k2 s x : same_view k1 k2 → same_view (w_sema s x k1) (w_sema s x k2).
Proof. intros []. split; simpl; try done. congruence. Qed.
Lemma sv_holder k1 k2 l t : same_view k1 k2 → same_view (w_holder l t k1) (w_holder l t k2).
Proof. intros []. split; simpl; try done. congruence. Qed.
Lemma sv_ready_to k1 k2 l : same_view k1 k2 → same_view (w_ready l k1) (w_ready l k2).
Proof. intros []. by split. Qed.
Lemma sv_all_to k1 k2 l : same_view k1 k2 → same_view (w_all l k1) (w_all l k2).
Proof. intros []. by split. Qed.
Lemma sv_level k1 k2 b : same_view k1 k2 → same_view k1 (w_level b k2).
Proof. intros []. by split. Qed.
Lemma sv_cur k1 k2 : same_view k1 k2 → cur_ok k1 → cur_ok k2.
Proof. intros [Est Ecd Emg ? ? ? Er ? ?] [? ? ?]. split; rewrite Er; [by rewrite Est|by rewrite Emg|done]. Qed.

Lemma thread_block_ok kx ky c : lists_ok None kx → same_view kx (put_status ky (running ky) THREAD_BLOCKED) →
  cur_ok ky → level ky = INTR_OFF → cd ky (running ky) = Some c →
  ∃ n l k', thread_block ky = Ret ((), k') ∧ chosen kx n l ∧ same_view (switch_to kx n l) k' ∧
    level k' = INTR_OFF ∧ conds k' = conds ky.
Proof.
  intros Hx Hs Hc Hl Hcd. unfold thread_block. rewrite (cstep _ _ _ (level ky) ky) by done. rewrite Hl.
  rewrite (cstep _ _ _ () ky) by done. rewrite (cstep _ _ _ _ _ (thread_current_ok ky Hc)).
  assert (is_Some (threads ky !! running ky)) as Hr by (by eapply cd_is_Some).
  rewrite (cstep _ _ _ () (put_status ky (running ky) THREAD_BLOCKED)) by (by apply set_thread_ok).
  apply (away_ok kx (put_status ky (running ky) THREAD_BLOCKED)); [done..|].
  apply (sv_some (put_status ky (running ky) THREAD_BLOCKED)); [by symmetry|].
  pose proof (sv_running _ _ Hs) as Er. simpl in Er. rewrite <- Er. apply threads_st_cd.
  rewrite st_put_status by done. by rewrite decide_True.
Qed.

Section Down.
Context (k : kernel) (i : instr) (rest : list instr) (ky : kernel).
Hypothesis Hk : lists_ok (Some (running k)) k.
Hypothesis Hcode : cd k (running k) = Some (i :: rest).
Hypothesis Hni : running k ≠ idle_thread k.
Hypothesis Hci : code_ok k (i :: rest).
Hypothesis Hy : same_view (put_code k (running k) rest) ky.
Hypothesis Hconds : conds ky = conds k.

Lemma ky_cur : cur_ok ky.
Proof. apply (sv_cur _ _ Hy), cur_put_code, lists_cur, Hk. Qed.
Lemma ky_running : running ky = running k.
Proof. apply (sv_running _ _ Hy). Qed.
Lemma ky_code : cd ky (running k) = Some rest.
Proof. rewrite (sv_cd _ _ Hy). by apply (exec_cd k i rest). Qed.
Lemma ky_semas : semas ky = semas k.
Proof. apply (sv_semas _ _ Hy). Qed.

Lemma down_loop_ok s old lk : downs i s lk → level ky = INTR_OFF → sema_of k s lk →
  is_Some (semas k !! s) → ∃ k', down_loop s old lk ky = Ret ((), k') ∧ result k i rest k'.
Proof.
  intros Hdn Hlev Hso [x Hx]. unfold down_loop.
  rewrite (cstep _ _ _ x ky) by (unfold get_sema; by rewrite ky_semas, Hx).
  destruct (Z.eqb_spec (value x) 0) as [Hv|Hv].
  - rewrite (cstep _ _ _ _ _ (thread_current_ok ky ky_cur)). rewrite ky_running, Hv.
    set (x' := Sema 0 (waiters x ++ [running k])).
    rewrite (cstep _ _ _ () (w_sema s x' ky)) by done.
    rewrite (cstep _ _ _ () (put_code (w_sema s x' ky) (running k) (IDownLoop s old lk :: rest)))
      by (apply push_code_ok, ky_code).
    set (kz := put_code (w_sema s x' ky) (running k) (IDownLoop s old lk :: rest)).
    assert (is_Some (threads (w_sema s x' ky) !! running k)) as Hr by (eapply cd_is_Some, ky_code).
    assert (same_view (put_code k (running k) (IDownLoop s old lk :: rest))
      (put_code ky (running k) (IDownLoop s old lk :: rest))) as Hkz.
    { rewrite <- (put_code_twice k (running k) rest). apply sv_put_code; [done|by apply (exec_some k i rest)]. }
    destruct (thread_block_ok (waits k s x lk old rest) kz (IDownLoop s old lk :: rest))
      as (n & l & k' & Hk' & Hch & Hsv & Hl' & Hc').
    + by apply (waits_lists k i rest).
    + unfold waits. change (put_status kz (running kz) THREAD_BLOCKED) with
        (w_sema s x' (put_status (put_code ky (running k) (IDownLoop s old lk :: rest)) (running ky) THREAD_BLOCKED)).
      rewrite ky_running. apply sv_sema, sv_put_status; [done|by apply (exec_some k i rest)].
    + apply cur_put_code. by destruct ky_cur.
    + done.
    + change (running kz) with (running ky). rewrite ky_running.
      unfold kz. rewrite cd_put_code by done. by rewrite decide_True.
    + exists k'. split; [exact Hk'|]. split.
      * eexists. split; [by eapply EvWait|done].
      * apply conds_le_eq. rewrite Hc'. done.
      * done.
      * intros _. exists (IDownLoop s old lk :: rest).
        assert (cd k' (running k) = cd (waits k s x lk old rest) (running k)) as ->.
        { rewrite (sv_cd _ _ Hsv). apply cd_switch. }
        split; [|by apply (cons_ok k i); [|eapply downs_not_level|]]. unfold waits.
        change (cd (w_sema ?a ?b ?c) (running k)) with (cd c (running k)).
        rewrite cd_put_status. by apply (exec_cd k i rest).
  - set (x' := Sema (value x - 1) (waiters x)). rewrite (cstep _ _ _ () (w_sema s x' ky)) by done.
    rewrite (cstep _ _ _ () (w_level old (w_sema s x' ky))) by done.
    assert (same_view (w_sema s x' (put_code k (running k) (got lk rest)))
      (w_level old (w_sema s x' (put_code ky (running k) (got lk rest))))) as Hsv.
    { apply sv_level, sv_sema. rewrite <- (put_code_twice k (running k) rest).
      apply sv_put_code; [done|by apply (exec_some k i rest)]. }
    assert (∃ k', (match lk with None => mret ()
      | Some l => let* t := running_thread in push_code t (ISetHolder l) end) (w_level old (w_sema s x' ky)) = Ret ((), k') ∧
      same_view (w_level old (w_sema s x' (put_code ky (running k) (got lk rest)))) k' ∧ conds k' = conds ky) as (k' & Hk' & Hsv' & Hc').
    { destruct lk as [l|]; cbn [got].
      - rewrite (cstep _ _ _ (running ky) (w_level old (w_sema s x' ky))) by done. rewrite ky_running.
        eexists. split; [apply push_code_ok, ky_code|]. by split.
      - eexists. split; [done|]. split; [|done].
        assert (is_Some (threads ky !! running k)) as Hr by (eapply cd_is_Some, ky_code).
        split; try done; intros u; simpl.
        + change (st ky u = st (put_code ky (running k) rest) u). by rewrite st_put_code.
        + change (cd ky u = cd (put_code ky (running k) rest) u). rewrite cd_put_code by done.
          case_decide; [subst u; apply ky_code|done].
        + change (mg ky u = mg (put_code ky (running k) rest) u). by rewrite mg_put_code. }
    exists k'. split; [exact Hk'|]. pose proof (same_view_equiv.(Equivalence_Transitive) _ _ _ Hsv Hsv') as Hsv''.
    split.
    + eexists. split; [by eapply EvDown|exact Hsv''].
    + apply conds_le_eq. by rewrite Hc'.
    + intros s'. rewrite (sv_running _ _ Hsv''), (sv_cd _ _ Hsv''). simpl.
      change (cd (w_sema s x' ?c) (running k)) with (cd c (running k)). rewrite (exec_cd k i rest) by done.
      intros Hl. exfalso. destruct lk as [l|]; [done|]. by apply (rest_not_loop k i rest s').
    + intros _. exists (got lk rest). rewrite (sv_cd _ _ Hsv'').
      change (cd (w_sema s x' ?c) (running k)) with (cd c (running k)). split; [by apply (exec_cd k i rest)|].
      destruct lk as [l|]; [apply (cons_ok k i _ rest Hci); [by eapply downs_not_level|apply Hso]|by apply (rest_ok k i)].
Qed.
End Down.

Lemma thread_unblock_ok kz w : st kz w = Some THREAD_BLOCKED → mg kz w = Some THREAD_MAGIC → w ≠ 0 →
  thread_unblock w kz =
  Ret ((), w_level (level kz) (put_status (w_ready (ready_list kz ++ [w]) (w_level INTR_OFF kz)) w THREAD_READY)).
Proof.
  intros Hst Hmg H0. destruct (st_is_Some _ _ _ Hst) as [th Hth]. unfold st, mg in *. rewrite Hth in Hst, Hmg.
  injection Hst as Hst. injection Hmg as Hmg. unfold thread_unblock, is_thread, get_thread.
  apply Z.eqb_neq in H0. rewrite H0.
  rewrite (cstep _ _ _ true kz) by (rewrite (cstep _ _ _ th kz) by (by rewrite Hth); by rewrite Hmg).
  rewrite (cstep _ _ _ () kz) by done.
  rewrite (cstep _ _ _ (level kz) (w_level INTR_OFF kz)) by done.
  rewrite (cstep _ _ _ th (w_level INTR_OFF kz)) by (simpl; by rewrite Hth).
  rewrite (cstep _ _ _ () (w_level INTR_OFF kz)) by (apply assert_ok; by rewrite bool_decide_true).
  rewrite cget. rewrite (cstep _ _ _ () (w_ready (ready_list kz ++ [w]) (w_level INTR_OFF kz))) by done.
  rewrite (cstep _ _ _ () (put_status (w_ready (ready_list kz ++ [w]) (w_level INTR_OFF kz)) w THREAD_READY)); [done|].
  apply set_thread_ok. simpl. eauto.
Qed.

Section Up.
Context (k : kernel) (i : instr) (rest : list instr) (ky : kernel).
Hypothesis Hk : lists_ok (Some (running k)) k.
Hypothesis Hcode : cd k (running k) = Some (i :: rest).
Hypothesis Hni : running k ≠ idle_thread k.
Hypothesis Hci : code_ok k (i :: rest).
Hypothesis Hy : same_view (put_code k (running k) rest) ky.
Hypothesis Hconds : conds ky = conds k.

(** The result when the code that is left is [rest]. *)
Lemma rest_result k0 k' : event k i rest k0 → same_view k0 k' → running k0 = running k →
  cd k0 (running k) = Some rest → conds k' = conds k → result k i rest k'.
Proof.
  intros Hev Hsv Hr Hc Hco. split; [by exists k0|by apply conds_le_eq| |].
  - intros s. rewrite (sv_running _ _ Hsv), Hr, (sv_cd _ _ Hsv), Hc. intros Hl. by apply (rest_not_loop k i rest s) in Hl.
  - intros _. exists rest. rewrite (sv_cd _ _ Hsv), Hc. split; [done|]. by apply (rest_ok k i).
Qed.

Lemma unblock_view w : is_Some (threads k !! w) →
  same_view (wakes k rest w) (put_status (w_ready (ready_list ky ++ [w]) ky) w THREAD_READY).
Proof.
  intros Hw. unfold wakes. rewrite (sv_ready _ _ Hy).
  change (put_status (w_ready ?l ky) w THREAD_READY) with (w_ready l (put_status ky w THREAD_READY)).
  apply sv_ready_to, sv_put_status; [done|]. apply threads_st_cd. rewrite st_put_code. by apply threads_st_cd.
Qed.

Lemma unblock_ok w : i = IUnblock w → ∃ k', thread_unblock w ky = Ret ((), k') ∧ result k i rest k'.
Proof.
  intros Ei. assert (w ∈ unblocks (i :: rest)) as Hin by (rewrite Ei; set_solver).
  destruct (lo_unblock _ _ Hk _ _ w Hcode Hin) as (Hb & _ & _). pose proof (st_is_Some _ _ _ Hb) as [th Hth].
  destruct (lo_magic _ _ Hk w th Hth) as [H0 Hm].
  eexists. split; [apply thread_unblock_ok; [|by rewrite (sv_mg _ _ Hy), mg_put_code; unfold mg; rewrite Hth; simpl; rewrite Hm|done]|].
  - by rewrite (sv_st _ _ Hy), st_put_code.
  - apply (rest_result (wakes k rest w)); [by apply EvUnblock| |done| |done].
    + apply sv_level. etrans; [apply unblock_view; eauto|]. by split.
    + destruct (wakes_threads k rest w) as (_ & -> & _); [by eapply cd_is_Some|eauto|]. by rewrite decide_True.
Qed.

Lemma sema_up_ok s : ups i s → is_Some (semas k !! s) → ∃ k', sema_up s ky = Ret ((), k') ∧ result k i rest k'.
Proof.
  intros Hup [x Hx]. unfold sema_up. pose proof (sv_semas _ _ Hy) as Es. simpl in Es.
  set (k1 := w_level INTR_OFF ky). rewrite (cstep _ _ _ (level ky) k1) by done.
  rewrite (cstep _ _ _ x k1) by (unfold get_sema; simpl; by rewrite Es, Hx).
  assert (is_Some (threads k !! running k)) as Hr by (by eapply cd_is_Some).
  destruct (waiters x) as [|w ws] eqn:Hw.
  - rewrite (cstep _ _ _ x k1) by done. rewrite Hw.
    rewrite (cstep _ _ _ () (w_sema s (Sema (u32 (value x + 1)) []) k1)) by done.
    eexists. split; [done|].
    apply (rest_result (w_sema s (Sema (u32 (value x + 1)) []) (put_code k (running k) rest))).
    + by apply EvUp.
    + by apply sv_level, sv_sema, sv_level.
    + done.
    + by apply (exec_cd k i rest).
    + done.
  - destruct (waiter_facts k s x w ws Hk Hx Hw) as (Hb & _).
    pose proof (st_is_Some _ _ _ Hb) as [th Hth]. destruct (lo_magic _ _ Hk w th Hth) as [H0 Hm].
    set (k2 := w_sema s (Sema (value x) ws) k1).
    assert (thread_unblock w k2 = Ret ((), w_level (level k2) (put_status (w_ready (ready_list k2 ++ [w]) (w_level INTR_OFF k2)) w THREAD_READY))) as Hub.
    { apply thread_unblock_ok; [|by change (mg k2 w) with (mg ky w); rewrite (sv_mg _ _ Hy), mg_put_code; unfold mg; rewrite Hth; simpl; rewrite Hm|done].
      change (st k2 w) with (st ky w). by rewrite (sv_st _ _ Hy), st_put_code. }
    set (k3 := w_level (level k2) (put_status (w_ready (ready_list k2 ++ [w]) (w_level INTR_OFF k2)) w THREAD_READY)) in *.
    rewrite (cstep _ _ _ (Sema (value x) ws) k3).
    2:{ rewrite (cstep _ _ _ () k2) by done. rewrite (cstep _ _ _ _ _ Hub). unfold get_sema. simpl.
        by rewrite lookup_insert_eq. }
    rewrite (cstep _ _ _ () (w_sema s (Sema (u32 (value x + 1)) ws) k3)) by done.
    eexists. split; [done|].
    apply (rest_result (w_sema s (Sema (u32 (value x + 1)) ws) (wakes k rest w))).
    + by apply (EvWake k i rest s x).
    + pose proof (unblock_view w (mk_is_Some _ _ Hth)) as Huv.
      apply sv_level. apply (sv_sema _ _ s (Sema (u32 (value x + 1)) ws)) in Huv.
      etrans; [exact Huv|]. split; try done. simpl. by rewrite insert_insert_eq.
    + done.
    + change (cd (w_sema ?a ?b ?c) ?u) with (cd c u).
      destruct (wakes_threads k rest w) as (_ & -> & _); [done|eauto|]. by rewrite decide_True.
    + done.
Qed.

Lemma exit_ok : i = IExit → ∃ k', thread_exit ky = Ret ((), k') ∧ result k i rest k'.
Proof.
  intros Ei. unfold thread_exit. set (k1 := w_level INTR_OFF ky).
  rewrite (cstep _ _ _ (level ky) k1) by done.
  assert (cur_ok k1) as Hc1 by (destruct (sv_cur _ _ Hy (cur_put_code _ _ _ (lists_cur _ Hk))); by split).
  rewrite (cstep _ _ _ _ _ (thread_current_ok k1 Hc1)), cget. simpl running.
  pose proof (sv_running _ _ Hy) as Er. simpl in Er. rewrite Er. pose proof (sv_all _ _ Hy) as Ea. simpl in Ea.
  assert (running k ∈ all_list k1) as Hin.
  { simpl. rewrite Ea. apply (lo_all _ _ Hk). exists THREAD_RUNNING. split; [|done]. by apply (lo_running _ _ Hk). }
  rewrite decide_True by done. simpl all_list. rewrite Ea.
  set (al := filter (.≠ running k) (all_list k)).
  rewrite (cstep _ _ _ () (w_all al k1)) by done.
  assert (cur_ok (w_all al k1)) as Hc2 by (destruct Hc1; by split).
  rewrite (cstep _ _ _ _ _ (thread_current_ok _ Hc2)). simpl running. rewrite Er.
  assert (is_Some (threads (w_all al k1) !! running k)) as Hr.
  { apply (sv_some _ _ _ Hy). by apply (exec_some k i rest). }
  rewrite (cstep _ _ _ () (put_status (w_all al k1) (running k) THREAD_DYING)) by (by apply set_thread_ok).
  destruct (away_ok (exits k rest) (put_status (w_all al k1) (running k) THREAD_DYING))
    as (n & l & k' & Hk' & Hch & Hsv & Hl' & Hc').
  - by apply (exits_lists k i).
  - change (put_status (w_all al k1) (running k) THREAD_DYING) with
      (w_level INTR_OFF (w_all al (put_status ky (running k) THREAD_DYING))).
    apply sv_level, sv_all_to, sv_put_status; [done|]. by apply (exec_some k i rest).
  - done.
  - apply threads_st_cd. change (st (exits k rest) ?u) with (st (put_status (put_code k (running k) rest) (running k) THREAD_DYING) u).
    rewrite st_put_status by (by apply (exec_some k i rest)). by rewrite decide_True.
  - exists k'. split; [exact Hk'|]. split.
    + eexists. split; [by apply EvExit|done].
    + apply conds_le_eq. by rewrite Hc'.
    + done.
    + intros _. exists rest. rewrite (sv_cd _ _ Hsv), cd_switch.
      change (cd (exits k rest) ?u) with (cd (put_status (put_code k (running k) rest) (running k) THREAD_DYING) u).
      rewrite cd_put_status. split; [by apply (exec_cd k i rest)|]. by apply (rest_ok k i).
Qed.
End Up.

Lemma yield_ok ky c : lists_ok (Some (running ky)) ky ∨ lists_ok None (yields ky (ISetLevel (level ky) :: c)) →
  (running ky = idle_thread ky → idle_code c) → cur_ok ky → cd ky (running ky) = Some c →
  ∃ n l k', thread_yield ky = Ret ((), k') ∧ chosen (yields ky (ISetLevel (level ky) :: c)) n l ∧
    same_view (switch_to (yields ky (ISetLevel (level ky) :: c)) n l) k' ∧ level k' = INTR_OFF ∧ conds k' = conds ky.
Proof.
  intros Hok Hi Hc Hcd. assert (lists_ok None (yields ky (ISetLevel (level ky) :: c))) as Hy.
  { destruct Hok as [Hok|Hok]; [|done]. by apply (yields_lists ky c). }
  clear Hok. unfold thread_yield. rewrite (cstep _ _ _ _ _ (thread_current_ok ky Hc)).
  set (k1 := w_level INTR_OFF ky). rewrite (cstep _ _ _ (level ky) k1) by done. rewrite cget.
  set (rl := if decide (running ky = idle_thread ky) then ready_list ky else ready_list ky ++ [running ky]).
  rewrite (cstep _ _ _ () (w_ready rl k1)).
  2:{ unfold rl. simpl. destruct (Z.eqb_spec (running ky) (idle_thread ky)); by case_decide. }
  assert (is_Some (threads ky !! running ky)) as Hr by (by eapply cd_is_Some).
  rewrite (cstep _ _ _ () (put_status (w_ready rl k1) (running ky) THREAD_READY)) by (by apply set_thread_ok).
  set (k2 := put_status (w_ready rl k1) (running ky) THREAD_READY).
  assert (cd k2 (running ky) = Some c) as Hc2 by (unfold k2; rewrite cd_put_status; exact Hcd).
  rewrite (cstep _ _ _ () (put_code k2 (running ky) (ISetLevel (level ky) :: c))) by (by apply push_code_ok).
  assert (is_Some (threads (put_code ky (running ky) (ISetLevel (level ky) :: c)) !! running ky)) as Hr2
    by (apply threads_st_cd; rewrite st_put_code; by apply threads_st_cd).
  apply (away_ok (yields ky (ISetLevel (level ky) :: c))
    (put_code k2 (running ky) (ISetLevel (level ky) :: c))); try done.
  - split; try done; intros u.
    + rewrite st_put_code. unfold k2. rewrite st_put_status by done.
      change (st (yields ?a ?b) u) with (st (put_status (put_code a (running a) b) (running a) THREAD_READY) u).
      rewrite st_put_status by done. by rewrite st_put_code.
    + rewrite cd_put_code by (by eapply cd_is_Some). unfold k2. rewrite cd_put_status.
      change (cd (yields ?a ?b) u) with (cd (put_status (put_code a (running a) b) (running a) THREAD_READY) u).
      rewrite cd_put_status. by rewrite cd_put_code.
    + rewrite mg_put_code. unfold k2. rewrite mg_put_status.
      change (mg (yields ?a ?b) u) with (mg (put_status (put_code a (running a) b) (running a) THREAD_READY) u).
      by rewrite mg_put_status, mg_put_code.
  - apply threads_st_cd.
    change (st (yields ?a ?b) ?u) with (st (put_status (put_code a (running a) b) (running a) THREAD_READY) u).
    rewrite st_put_status by done. simpl. by rewrite decide_True.
Qed.

(** Errors of the caller, which the assertions of synch.c detect. *)
Definition caller_error (k : kernel) (i : instr) : Prop :=
  match i with
  | IAcquire l | ITryAcquire l => holders k !! l = Some (running k)
  | IRelease l | ICondSignal _ l => holders k !! l ≠ Some (running k)
  | _ => False
  end.

Lemma held_ok ky l h : cur_ok ky → holders ky !! l = Some h →
  lock_held_by_current_thread l ky = Ret (h =? running ky, ky).
Proof.
  intros Hc Hh. unfold lock_held_by_current_thread.
  rewrite (cstep _ _ _ h ky) by (unfold get_holder; by rewrite Hh).
  by rewrite (cstep _ _ _ _ _ (thread_current_ok ky Hc)).
Qed.

(** Fields of a thread that the invariants do not look at. *)
Lemma set_field_view k t g : is_Some (threads k !! t) →
  (∀ th, status (g th) = status th ∧ code (g th) = code th ∧ magic (g th) = magic th) →
  ∃ k', set_thread t g k = Ret ((), k') ∧ same_view k k' ∧ conds k' = conds k ∧ level k' = level k ∧
    (∀ u, is_Some (threads k' !! u) ↔ is_Some (threads k !! u)).
Proof.
  intros Ht Hg. eexists. split; [by apply set_thread_ok|].
  assert (∀ {A} (f : thread → A) u, (∀ th, f (g th) = f th) → f <$> alter g t (threads k) !! u = f <$> threads k !! u) as Hf.
  { intros A f u Hgf. destruct (decide (u = t)) as [->|]; [rewrite lookup_alter_eq|by rewrite lookup_alter_ne].
    destruct (threads k !! t); simpl; [by rewrite Hgf|done]. }
  split; [|split; [done|split; [done|]]].
  - split; try done; intros u; (apply Hf; intros th; apply Hg).
  - intros u. simpl. rewrite <- !(fmap_is_Some magic). rewrite (Hf _ magic u); [done|]. intros th. apply Hg.
Qed.

Lemma alloc_frame_ok k t size : is_Some (threads k !! t) → t ≠ 0 → mg k t = Some THREAD_MAGIC → size mod 4 = 0 →
  ∃ k', alloc_frame t size k = Ret ((), k') ∧ same_view k k' ∧ conds k' = conds k ∧ level k' = level k ∧
    (∀ u, is_Some (threads k' !! u) ↔ is_Some (threads k !! u)).
Proof.
  intros Ht H0 Hm Hs. unfold alloc_frame, is_thread, get_thread. apply Z.eqb_neq in H0. rewrite H0.
  destruct (Ht) as [th Hth]. unfold mg in Hm. rewrite Hth in Hm. injection Hm as Hm.
  rewrite (cstep _ _ _ true k) by (rewrite (cstep _ _ _ th k) by (by rewrite Hth); by rewrite Hm).
  rewrite (cstep _ _ _ () k) by done. rewrite (cstep _ _ _ () k) by (apply assert_ok; by apply Z.eqb_eq).
  by apply set_field_view.
Qed.

Section ExecOk.
Context (k : kernel) (i : instr) (rest : list instr).
Hypothesis Hk : lists_ok (Some (running k)) k.
Hypothesis Hcode : cd k (running k) = Some (i :: rest).

Notation k1 := (put_code k (running k) rest).

Lemma exec_k1_cur : cur_ok k1.
Proof. apply cur_put_code, lists_cur, Hk. Qed.

Section NotIdle.
Hypothesis Hni : running k ≠ idle_thread k.
Hypothesis Hci : code_ok k (i :: rest).
Hypothesis Hnames : names_ok k.

Lemma instr_head_ok : instr_ok k i.
Proof. destruct Hci as [Hf _]. by apply Forall_cons in Hf as [? _]. Qed.

(** The code that is left, and nothing else changed that matters. *)
Lemma skip_ok k' : plain i → same_view k1 k' → conds_le k k' → result k i rest k'.
Proof.
  intros Hp Hsv Hc. apply (code_result k i rest Hcode []); try done.
  - intros _. by apply (rest_ok k i).
  - intros [s Hs]. by apply (rest_not_loop k i rest s) in Hs.
Qed.

Lemma try_down_ok s lk : i = ITryDown s lk → ∃ k', exec_instr (running k) i k1 = Ret ((), k') ∧ result k i rest k'.
Proof.
  intros Ei. pose proof instr_head_ok as Hok. rewrite Ei in Hok |- *. simpl in Hok.
  assert (is_Some (semas k !! s)) as [x Hx] by (destruct lk; simpl in Hok; [destruct Hok as [-> Hl]; apply Hl|apply Hok]).
  cbn [exec_instr]. unfold sema_try_down.
  destruct (Z.ltb_spec 0 (value x)) as [Hv|Hv].
  - set (x' := Sema (value x - 1) (waiters x)).
    rewrite (cstep _ _ _ true (w_sema s x' k1)).
    2:{ rewrite (cstep _ _ _ x k1) by (unfold get_sema; simpl; by rewrite Hx). by destruct (Z.ltb_spec 0 (value x)); [|lia]. }
    assert (is_Some (threads (w_sema s x' k1) !! running k)) as Hr by (by apply (exec_some k i rest)).
    destruct (set_field_view (w_sema s x' k1) (running k) (with_result true) Hr) as (k2 & Hs2 & Hsv & Hc2 & _); [done|].
    rewrite (cstep _ _ _ _ _ Hs2).
    assert (same_view (w_sema s x' (put_code k (running k) (got lk rest))) (put_code k2 (running k) (got lk rest))) as Hsv2.
    { rewrite <- (put_code_twice k (running k) rest).
      change (w_sema s x' (put_code ?a ?b ?c)) with (put_code (w_sema s x' a) b c).
      by apply sv_put_code. }
    assert (cd k2 (running k) = Some rest) as Hcd2.
    { rewrite (sv_cd _ _ Hsv). apply (exec_cd k _ rest Hcode). }
    assert (∃ k', (match lk with Some l => push_code (running k) (ISetHolder l) | None => mret () end) k2 = Ret ((), k') ∧
      same_view (put_code k2 (running k) (got lk rest)) k' ∧ conds k' = conds k2) as (k' & Hk' & Hsv' & Hc').
    { destruct lk as [l|]; [by eexists; split; [by apply push_code_ok|]|]. exists k2. split; [done|]. split; [|done].
      assert (is_Some (threads k2 !! running k)) as Hr2 by (by eapply cd_is_Some).
      split; try done; intros u; cbn [got]; rewrite ?st_put_code, ?mg_put_code, ?cd_put_code by done; try done.
      case_decide; [by subst u|done]. }
    exists k'. split; [by destruct lk|]. pose proof (same_view_equiv.(Equivalence_Transitive) _ _ _ Hsv2 Hsv') as Hsv''.
    split.
    + eexists. split; [eapply EvDown; [constructor|done|lia]|exact Hsv''].
    + apply conds_le_eq. by rewrite Hc', Hc2.
    + intros s'. rewrite (sv_running _ _ Hsv''), (sv_cd _ _ Hsv'').
      change (cd (w_sema s x' ?c) ?u) with (cd c u). simpl running. rewrite (exec_cd k _ rest Hcode).
      intros Hl. exfalso. destruct lk; [done|]. by apply (rest_not_loop k _ rest s' Hci).
    + intros _. exists (got lk rest). rewrite (sv_cd _ _ Hsv'').
      change (cd (w_sema s x' ?c) ?u) with (cd c u). split; [apply (exec_cd k _ rest Hcode)|].
      destruct lk; [apply (cons_ok k _ _ rest Hci); [by rewrite Ei|apply Hok]|by eapply rest_ok].
  - rewrite (cstep _ _ _ false k1).
    2:{ rewrite (cstep _ _ _ x k1) by (unfold get_sema; simpl; by rewrite Hx). by destruct (Z.ltb_spec 0 (value x)); [lia|]. }
    destruct (set_field_view k1 (running k) (with_result false)) as (k2 & Hs2 & Hsv & Hc2 & _);
      [by apply (exec_some k _ rest Hcode)|done|].
    rewrite (cstep _ _ _ _ _ Hs2). exists k2. split; [done|]. rewrite <- Ei. apply skip_ok; [by rewrite Ei|done|].
    by apply conds_le_eq.
Qed.

Lemma exec_locks l : i = IAcquire l ∨ i = ITryAcquire l ∨ i = ISetHolder l ∨ i = IRelease l →
  (∃ k', exec k = Ret ((), k') ∧ result k i rest k') ∨ (caller_error k i ∧ exec k = Fail AssertFailed).
Proof.
  intros Hi. pose proof instr_head_ok as Hok. rewrite (exec_pop k i rest Hcode).
  assert (is_lock k l) as [[h Hh] Hs] by (by destruct Hi as [E|[E|[E|E]]]; rewrite E in Hok).
  pose proof (held_ok k1 l h exec_k1_cur Hh) as Hheld. simpl running in Hheld.
  destruct Hi as [E|[E|[E|E]]]; rewrite E; cbn [exec_instr]; unfold lock_acquire, lock_try_acquire, lock_release, cond_signal, cond_broadcast.
  - rewrite (cstep _ _ _ _ _ Hheld). destruct (Z.eqb_spec h (running k)) as [->|Hne]; [by right|left].
    rewrite (cstep _ _ _ () k1) by done. unfold sema_down. rewrite (cstep _ _ _ (level k1) (w_level INTR_OFF k1)) by done.
    rewrite <- E. apply (down_loop_ok k i rest); try done.
    rewrite E. constructor.
  - rewrite (cstep _ _ _ _ _ Hheld). destruct (Z.eqb_spec h (running k)) as [->|Hne]; [by right|left].
    rewrite (cstep _ _ _ () k1) by done. eexists. split; [by apply push_code_ok, (exec_cd k i rest)|].
    rewrite put_code_twice. rewrite <- E. apply (code_result k i rest Hcode [ITryDown (lock_sema l) (Some l)]).
    + by rewrite E.
    + by repeat constructor.
    + done.
    + done.
    + by apply conds_le_eq.
    + intros _. apply (cons_ok k i); [done|by rewrite E|]. split; [done|]. split; eauto.
    + by intros [s Hs'].
  - left. rewrite (cstep _ _ _ _ _ (thread_current_ok k1 exec_k1_cur)). eexists. split; [done|].
    rewrite <- E. apply (rest_result k i rest Hci (w_holder l (running k) k1)); try done.
    + by apply EvHold.
    + by apply (exec_cd k i rest).
  - rewrite (cstep _ _ _ _ _ Hheld). destruct (Z.eqb_spec h (running k)) as [->|Hne]; [left|right].
    + rewrite (cstep _ _ _ () k1) by done. rewrite (cstep _ _ _ () (w_holder l 0 k1)) by done.
      eexists. split; [by apply push_code_ok, (exec_cd k i rest)|]. rewrite <- E.
      assert (put_code (w_holder l 0 k1) (running k) (ILockUp l :: rest) =
        w_holder l 0 (put_code k (running k) (ILockUp l :: rest))) as ->.
      { by rewrite <- (put_code_twice k (running k) rest (ILockUp l :: rest)). }
      split.
      * eexists. split; [by apply EvRelease|done].
      * by apply conds_le_eq.
      * intros s. change (cd (w_holder ?a ?b ?c) ?u) with (cd c u). simpl running.
        by rewrite (exec_cd k i rest) by done.
      * intros _. eexists. split; [by apply (exec_cd k i rest)|]. apply (cons_ok k i); [done|by rewrite E|]. split; eauto.
    + split; [|done]. simpl. rewrite Hh. congruence.
Qed.
Lemma conds_le_pop c w ws k' : conds k !! c = Some (w :: ws) → conds k' = <[c := ws]> (conds k) → conds_le k k'.
Proof.
  intros Hc E c'. rewrite E. destruct (decide (c' = c)) as [->|].
  - rewrite lookup_insert_eq, Hc. simpl. set_solver.
  - rewrite lookup_insert_ne by done. by destruct (conds k !! c'); simpl.
Qed.

Lemma exec_conds : (∃ c l, i = ICondSignal c l ∨ i = ICondBroadcast c l) →
  (∃ k', exec k = Ret ((), k') ∧ result k i rest k') ∨ (caller_error k i ∧ exec k = Fail AssertFailed).
Proof.
  intros (c & l & Hi). pose proof instr_head_ok as Hok. rewrite (exec_pop k i rest Hcode).
  assert (is_lock k l ∧ is_Some (conds k !! c)) as [[[h Hh] Hs] [ws Hws]] by (by destruct Hi as [E|E]; rewrite E in Hok).
  destruct Hi as [E|E]; rewrite E; cbn [exec_instr]; unfold lock_acquire, lock_try_acquire, lock_release, cond_signal, cond_broadcast.
  - pose proof (held_ok k1 l h exec_k1_cur Hh) as Hheld. simpl running in Hheld. rewrite (cstep _ _ _ _ _ Hheld).
    destruct (Z.eqb_spec h (running k)) as [->|Hne]; [left|right].
    2:{ split; [|done]. simpl. rewrite Hh. congruence. }
    rewrite (cstep _ _ _ () k1) by done.
    rewrite (cstep _ _ _ ws k1) by (unfold get_cond; simpl; by rewrite Hws).
    destruct ws as [|w ws].
    + eexists. split; [done|]. rewrite <- E. apply skip_ok; [by rewrite E|done|by apply conds_le_eq].
    + rewrite (cstep _ _ _ () (w_cond c ws k1)) by done.
      eexists. split; [by apply push_code_ok, (exec_cd k i rest)|].
      rewrite <- E. apply (code_result k i rest Hcode [IUp w]).
      * by rewrite E.
      * by repeat constructor.
      * done.
      * rewrite <- (put_code_twice k (running k) rest ([IUp w] ++ rest)). by split.
      * by apply (conds_le_pop c w ws).
      * intros _. apply (cons_ok k i); [done|by rewrite E|]. apply (no_cond _ Hnames c (w :: ws)); [done|set_solver].
      * by intros [s Hs'].
  - left. rewrite (cstep _ _ _ ws k1) by (unfold get_cond; simpl; by rewrite Hws).
    destruct ws as [|w ws].
    + eexists. split; [done|]. rewrite <- E. apply skip_ok; [by rewrite E|done|by apply conds_le_eq].
    + rewrite (cstep _ _ _ () (put_code k1 (running k) (ICondBroadcast c l :: rest)))
        by (by apply push_code_ok, (exec_cd k i rest)). rewrite put_code_twice.
      eexists. split; [by apply push_code_ok, (exec_cd k i rest Hcode)|].
      rewrite put_code_twice.
      enough (result k i rest (put_code k (running k) ([ICondSignal c l; ICondBroadcast c l] ++ rest))) as Hres
        by (by rewrite E in Hres).
      apply (code_result k i rest Hcode [ICondSignal c l; ICondBroadcast c l]); try done.
      * by rewrite E.
      * by repeat constructor.
      * by apply conds_le_eq.
      * intros _. destruct Hci as [Hf Hst]. rewrite E in Hf. apply Forall_cons in Hf as [Hc Hf].
        split; [do 2 (constructor; [done|]); done|]. simpl. constructor; [by intros []|].
        rewrite E in Hst. exact Hst.
      * by intros [s Hs'].
Qed.

Lemma exec_fields : (∃ t', i = ISetTid t' ∨ i = IParent t' ∨ i = IFrames t' ∨ ∃ p, i = IPushChild p t') →
  ∃ k', exec k = Ret ((), k') ∧ result k i rest k'.
Proof.
  intros (t' & Hi). pose proof instr_head_ok as Hok. rewrite (exec_pop k i rest Hcode).
  assert (∀ u, is_Some (threads k !! u) → is_Some (threads k1 !! u)) as Hsome
    by (intros u; rewrite !threads_st_cd; by rewrite st_put_code).
  assert (plain i) as Hp by (destruct Hi as [E|[E|[E|(p & E)]]]; by rewrite E).
  destruct Hi as [E|[E|[E|(p & E)]]]; rewrite E in Hok |- *; cbn [exec_instr]; rewrite <- E; simpl in Hok.
  - rewrite cget. edestruct set_field_view as (k2 & Hs & Hsv & Hc & _); [apply Hsome, Hok| |]; [|
      rewrite (cstep _ _ _ _ _ Hs); eexists; split; [done|]; apply skip_ok; [done| |by apply conds_le_eq]].
    + done.
    + etrans; [exact Hsv|]. by split.
  - rewrite (cstep _ _ _ _ _ (thread_current_ok k1 exec_k1_cur)).
    edestruct set_field_view as (k2 & Hs & Hsv & Hc & _); [apply Hsome, Hok| |];
      [|exists k2; split; [exact Hs|apply skip_ok; [done|exact Hsv|by apply conds_le_eq]]]. done.
  - destruct (Hok) as [th Hth]. destruct (lo_magic _ _ Hk t' th Hth) as [H0 Hm].
    assert (∀ kz, same_view k1 kz → mg kz t' = Some THREAD_MAGIC ∧ is_Some (threads kz !! t')) as Hz.
    { intros kz Hz. split; [|apply (sv_some _ _ _ Hz), Hsome, Hok].
      rewrite (sv_mg _ _ Hz), mg_put_code. unfold mg. rewrite Hth. simpl. by rewrite Hm. }
    destruct (alloc_frame_ok k1 t' 12) as (k2 & H2 & Hv2 & Hc2 & _); [by apply Hz|done|by apply Hz|done|].
    rewrite (cstep _ _ _ _ _ H2).
    destruct (alloc_frame_ok k2 t' 4) as (k3 & H3 & Hv3 & Hc3 & _); [by apply Hz|done|by apply Hz|done|].
    rewrite (cstep _ _ _ _ _ H3). assert (same_view k1 k3) as Hv13 by (by etrans).
    destruct (alloc_frame_ok k3 t' 28) as (k4 & H4 & Hv4 & Hc4 & _); [by apply Hz|done|by apply Hz|done|].
    exists k4. split; [exact H4|]. apply skip_ok; [done|by etrans|]. apply conds_le_eq. by rewrite Hc4, Hc3, Hc2.
  - edestruct set_field_view as (k2 & Hs & Hsv & Hc & _); [apply Hsome, Hok| |];
      [|exists k2; split; [exact Hs|apply skip_ok; [done|exact Hsv|by apply conds_le_eq]]]. done.
Qed.

Lemma exec_yield : i = IYield → ∃ k', exec k = Ret ((), k') ∧ result k i rest k'.
Proof.
  intros E. rewrite (exec_pop k i rest Hcode), E. cbn [exec_instr]. rewrite <- E.
  assert (cd k1 (running k) = Some rest) as Hc1 by (by apply (exec_cd k i rest)).
  assert (yields k1 (ISetLevel (level k1) :: rest) = yields k (ISetLevel (level k) :: rest)) as Ey.
  { unfold yields. simpl. by rewrite put_code_twice. }
  destruct (yield_ok k1 rest) as (n & l & k' & Hk' & Hch & Hsv & Hl & Hc).
  - left. apply (code_lists k i rest Hk Hcode []); [by left|done].
  - done.
  - apply exec_k1_cur.
  - done.
  - rewrite Ey in *. exists k'. split; [exact Hk'|]. split.
    + eexists. split; [by apply EvYield|done].
    + by apply conds_le_eq.
    + done.
    + intros _. exists (ISetLevel (level k) :: rest). rewrite (sv_cd _ _ Hsv), cd_switch.
      change (cd (yields ?a ?b) ?u) with (cd (put_status (put_code a (running a) b) (running a) THREAD_READY) u).
      rewrite cd_put_status. split; [by apply (exec_cd k i rest)|]. by apply (cons_ok k i); [|rewrite E|].
Qed.
End NotIdle.
Lemma exec_idle : running k = idle_thread k → idle_code (i :: rest) →
  ∃ k', exec k = Ret ((), k') ∧ result k i rest k'.
Proof.
  intros Hri Hi. rewrite (exec_pop k i rest Hcode).
  assert (cd k1 (running k) = Some rest) as Hc1 by (by apply (exec_cd k i rest)).
  assert (i = IIdleBlock ∧ rest = [] ∨ i = IHlt ∧ rest = [] ∨ (∃ b, i = ISetLevel b) ∧ idle_code rest) as Hcase.
  { destruct i; simpl in Hi; try done; eauto; destruct rest; simpl in Hi; naive_solver. }
  destruct Hcase as [[E Er]|[[E Er]|[[b E] Hir]]]; rewrite E; cbn [exec_instr]; unfold idle_start, idle_block, idle_wait; rewrite <- E.
  - set (k2 := w_level INTR_OFF k1). rewrite (cstep _ _ _ (level k1) k2) by done.
    rewrite (cstep _ _ _ () (put_code k2 (running k) (IHlt :: rest))) by (by apply push_code_ok).
    destruct (thread_block_ok (idles k) (put_code k2 (running k) (IHlt :: rest)) (IHlt :: rest))
      as (n & l & k' & Hk' & Hch & Hsv & Hl & Hc).
    + by apply (idles_lists k i rest).
    + unfold idles. replace [IHlt] with (IHlt :: rest) by (by rewrite Er).
      rewrite <- (put_code_twice k (running k) rest (IHlt :: rest)). by split.
    + apply cur_put_code. destruct exec_k1_cur. by split.
    + done.
    + change (running (put_code k2 (running k) (IHlt :: rest))) with (running k).
      rewrite cd_put_code; [by rewrite decide_True|]. by eapply cd_is_Some.
    + exists k'. split; [exact Hk'|]. split.
      * eexists. split; [by apply EvIdle|done].
      * by apply conds_le_eq.
      * done.
      * done.
  - rewrite (cstep _ _ _ () (w_level INTR_ON k1)) by done.
    eexists. split; [by apply push_code_ok|]. apply (code_result k i rest Hcode [IIdleBlock]).
    + by rewrite E.
    + by repeat constructor.
    + by rewrite Er.
    + rewrite <- (put_code_twice k (running k) rest ([IIdleBlock] ++ rest)). by split.
    + by apply conds_le_eq.
    + done.
    + by intros [s Hs].
  - eexists. split; [done|]. apply (code_result k i rest Hcode []); try done.
    + by rewrite E.
    + by apply conds_le_eq.
    + intros [s Hs]. by apply idle_not_loop in Hs.
Qed.

End ExecOk.

Lemma exec_ok k i rest : lists_ok (Some (running k)) k → cd k (running k) = Some (i :: rest) → names_ok k → (∀ s, at_loop (cd k (running k)) s → level k = INTR_OFF) →
  (∃ k', exec k = Ret ((), k') ∧ result k i rest k') ∨ (caller_error k i ∧ exec k = Fail AssertFailed).
Proof.
  intros Hk Hcode Hn Hlev. destruct (decide (running k = idle_thread k)) as [Hri|Hni].
  { left. apply exec_idle; [done..|]. destruct (lo_idle _ _ Hk) as (c & Hc & Hi & _). rewrite Hri in Hcode. congruence. }
  pose proof (no_code _ Hn _ _ Hcode Hni) as Hci. pose proof (instr_head_ok _ _ _ Hci) as Hok.
  destruct i as [s|s old lk|s lk|s|l|l|l|l|l|c l|c l|t|t|p t|t|t| | |b|s| |]; simpl in Hok.
  - left. rewrite (exec_pop k _ rest Hcode). cbn [exec_instr]. unfold sema_down.
    rewrite (cstep _ _ _ (level k) (w_level INTR_OFF (put_code k (running k) rest))) by done.
    apply (down_loop_ok k _ rest); try done; [constructor|apply Hok].
  - left. rewrite (exec_pop k _ rest Hcode). cbn [exec_instr].
    apply (down_loop_ok k _ rest); try done; [constructor| |].
    + apply (Hlev s). by rewrite Hcode.
    + destruct lk; simpl in Hok; [destruct Hok as [-> Hl]; apply Hl|apply Hok].
  - left. rewrite (exec_pop k _ rest Hcode). eapply try_down_ok; eauto.
  - left. rewrite (exec_pop k _ rest Hcode). cbn [exec_instr]. apply (sema_up_ok k _ rest); try done; [constructor|apply Hok].
  - eapply exec_locks; eauto 6.
  - eapply exec_locks; eauto 6.
  - eapply exec_locks; eauto 6.
  - eapply exec_locks; eauto 6.
  - left. rewrite (exec_pop k _ rest Hcode). cbn [exec_instr]. apply (sema_up_ok k _ rest); try done; [constructor|apply Hok].
  - eapply exec_conds; eauto 6.
  - eapply exec_conds; eauto 6.
  - left. eapply exec_fields; eauto 6.
  - left. eapply exec_fields; eauto 6.
  - left. eapply exec_fields; eauto 6.
  - left. eapply exec_fields; eauto 6.
  - left. rewrite (exec_pop k _ rest Hcode). cbn [exec_instr]. by apply (unblock_ok k _ rest).
  - left. eapply exec_yield; eauto.
  - left. rewrite (exec_pop k _ rest Hcode). cbn [exec_instr]. by apply (exit_ok k _ rest).
  - left. rewrite (exec_pop k _ rest Hcode). cbn [exec_instr]. eexists. split; [done|].
    eapply skip_ok; [done|done|done|..]; [done|by split|by apply conds_le_eq].
  - done.
  - done.
  - done.
Qed.

