(* ===== verification/Reach.v ===== *)
(** * Reachable states of the scheduler

    Steps of the machine of [Thread] and the invariants of every reachable
    state, by rule induction on [reachable]: [inv] says which threads are on
    which list and that instructions do not fail, [wakeups] that no wake-up is
    lost, [locks_ok] that a lock has at most one owner. *)

From S2P Require Import Prelude Vaddr Thread Sched.

(** ** What a step leaves alone *)

Record keeps (k k' : kernel) : Prop := {
  kp_threads t : is_Some (threads k' !! t) ↔ is_Some (threads k !! t);
  kp_cd t : t ≠ running k → cd k' t = cd k t;
  kp_semas s : is_Some (semas k' !! s) ↔ is_Some (semas k !! s);
  kp_holders l : is_Some (holders k' !! l) ↔ is_Some (holders k !! l);
  kp_idle : idle_thread k' = idle_thread k
}.

Lemma alter_is_Some (m : gmap Z thread) f t u : is_Some (alter f t m !! u) ↔ is_Some (m !! u).
Proof.
  destruct (decide (u = t)) as [->|]; [rewrite lookup_alter_eq|by rewrite lookup_alter_ne].
  by rewrite fmap_is_Some.
Qed.
Lemma insert_is_Some {A} (m : gmap Z A) t x u : is_Some (m !! t) → is_Some (<[t := x]> m !! u) ↔ is_Some (m !! u).
Proof.
  intros Ht. destruct (decide (u = t)) as [->|]; [rewrite lookup_insert_eq; naive_solver|by rewrite lookup_insert_ne].
Qed.

Lemma keeps_code k c : keeps k (put_code k (running k) c).
Proof.
  split; try done; [intros t; apply alter_is_Some|]. intros t Ht. unfold cd. simpl. by rewrite lookup_alter_ne.
Qed.
Lemma keeps_status k k' t x : keeps k k' → keeps k (put_status k' t x).
Proof.
  intros [? ? ? ? ?]. split; try done; [|intros u Hu; by rewrite cd_put_status; auto].
  intros u. simpl. by rewrite alter_is_Some.
Qed.
Lemma keeps_sema k k' s x : keeps k k' → is_Some (semas k !! s) → keeps k (w_sema s x k').
Proof. intros [? ? Hs ? ?] Hx. split; try done. intros u. simpl. by rewrite insert_is_Some by (by apply Hs). Qed.
Lemma keeps_holder k k' l t : keeps k k' → is_Some (holders k !! l) → keeps k (w_holder l t k').
Proof. intros [? ? ? Hs ?] Hx. split; try done. intros u. simpl. by rewrite insert_is_Some by (by apply Hs). Qed.
Lemma keeps_ready k k' l : keeps k k' → keeps k (w_ready l k').
Proof. intros []. by split. Qed.
Lemma keeps_all k k' l : keeps k k' → keeps k (w_all l k').
Proof. intros []. by split. Qed.
Lemma keeps_switch k k' n l : keeps k k' → keeps k (switch_to k' n l).
Proof. intros Hk. apply keeps_status. destruct Hk. by split. Qed.
Lemma keeps_same k k' k'' : keeps k k' → same_view k' k'' → keeps k k''.
Proof.
  intros [Ht Hc Hs Hl Hi] [Est Ecd Emg ? ? Ei ? Es Eh]. split.
  - intros t. by rewrite threads_st_cd, Est, <- threads_st_cd.
  - intros t Hne. by rewrite Ecd, Hc.
  - by rewrite Es.
  - by rewrite Eh.
  - congruence.
Qed.

#[local] Hint Resolve keeps_code keeps_status keeps_sema keeps_holder keeps_ready keeps_all keeps_switch : keeps.

Lemma event_keeps k i rest k' : instr_ok k i ∨ running k = idle_thread k ∧ idle_code (i :: rest) →
  event k i rest k' → keeps k k'.
Proof.
  intros Hi Hev. assert (∀ l, i = ISetHolder l → is_Some (holders k !! l)) as Hl.
  { intros l ->. destruct Hi as [Hi|[_ Hi]]; [apply Hi|done]. }
  destruct Hev; unfold waits, yields, exits, wakes, idles; eauto 10 with keeps.
Qed.

(** Every named object stays, and a semaphore of its own stays one. *)
Record grows (k k' : kernel) : Prop := {
  gr_threads t : is_Some (threads k !! t) → is_Some (threads k' !! t);
  gr_sema s : client_sema k s → client_sema k' s;
  gr_lock l : is_lock k l → is_lock k' l;
  gr_conds c : is_Some (conds k !! c) → is_Some (conds k' !! c)
}.

Lemma keeps_grows k k' : keeps k k' → conds_le k k' → grows k k'.
Proof.
  intros [Ht Hc Hs Hl Hi] Hle. split.
  - intros t. by rewrite Ht.
  - intros s [Hx Hn]. split; [by apply Hs|]. apply eq_None_not_Some. rewrite Hl, Hn. by intros [? ?].
  - intros l [Hx Hn]. split; [by apply Hl|by apply Hs].
  - intros c Hc'. specialize (Hle c). destruct (conds k !! c), (conds k' !! c); simpl in Hle; naive_solver.
Qed.

Lemma code_ok_grows k k' c : grows k k' → code_ok k c → code_ok k' c.
Proof.
  intros [Ht Hs Hl Hc] [Hf Hsh]. split; [|done]. eapply Forall_impl; [done|]. intros i.
  destruct i as [s|s old lk|s lk| | | | | | |c' l|c' l| | | | | | | | | | |]; simpl; auto; try naive_solver.
  - destruct lk; simpl; naive_solver.
  - destruct lk; simpl; naive_solver.
Qed.

Lemma names_step k k' : names_ok k → grows k k' → idle_thread k' = idle_thread k →
  is_Some (threads k' !! running k') →
  (∀ t c, cd k' t = Some c → t ≠ idle_thread k → cd k t = Some c ∨ code_ok k' c) →
  (∀ t, is_Some (threads k' !! t) → is_Some (threads k !! t) ∨ client_sema k' (child_list_sema t)) →
  (∀ c ws w, conds k' !! c = Some ws → w ∈ ws → (∃ ws0, conds k !! c = Some ws0 ∧ w ∈ ws0) ∨ client_sema k' w) →
  (∀ l, is_Some (holders k' !! l) → is_Some (holders k !! l) ∨ is_Some (semas k' !! lock_sema l)) → names_ok k'.
Proof.
  intros [? Hc Hs Hw Hl Htid] Hg Hi Hrun Hcd Hth Hws Hlk. split.
  - done.
  - intros t c Ht. rewrite Hi. intros Hne. destruct (Hcd t c Ht Hne) as [Ht'|?]; [|done].
    apply (code_ok_grows k); [done|]. by apply (Hc t).
  - intros t Ht. destruct (Hth t Ht) as [Ht'|?]; [|done]. by apply (gr_sema _ _ Hg), Hs.
  - intros c ws w Hcw Hin. destruct (Hws c ws w Hcw Hin) as [(ws0 & H0 & Hin0)|?]; [|done].
    by apply (gr_sema _ _ Hg), (Hw c ws0).
  - intros l Hx. destruct (Hlk l Hx) as [Hx'|?]; [|done].
    apply (gr_lock _ _ Hg l). split; [done|]. by apply Hl.
  - by apply (gr_lock _ _ Hg).
Qed.

Lemma conds_le_elem k k' c ws w : conds_le k k' → conds k' !! c = Some ws → w ∈ ws →
  ∃ ws0, conds k !! c = Some ws0 ∧ w ∈ ws0.
Proof. intros Hle Hc Hw. specialize (Hle c). rewrite Hc in Hle. destruct (conds k !! c); simpl in Hle; [eauto|done]. Qed.

(** ** The invariant *)

Record inv (k : kernel) : Prop := {
  in_lists : lists_ok (Some (running k)) k;
  in_names : names_ok k;
  in_level s : at_loop (cd k (running k)) s → level k = INTR_OFF
}.

Lemma inv_head k i rest : inv k → cd k (running k) = Some (i :: rest) →
  running k ≠ idle_thread k ∧ code_ok k (i :: rest) ∨ running k = idle_thread k ∧ idle_code (i :: rest).
Proof.
  intros [Hk Hn _] Hc. destruct (decide (running k = idle_thread k)) as [E|E]; [right|left].
  - destruct (lo_idle _ _ Hk) as (c & Hc' & Hi & _). rewrite <- E in Hc'. split; [done|]. congruence.
  - split; [done|]. by apply (no_code _ Hn (running k)).
Qed.

Lemma result_keeps k i rest k' : inv k → cd k (running k) = Some (i :: rest) → result k i rest k' → keeps k k'.
Proof.
  intros Hinv Hc [(k0 & Hev & Hsv) _ _ _]. eapply keeps_same; [|done]. apply (event_keeps k i rest); [|done].
  destruct (inv_head k i rest Hinv Hc) as [[_ [Hf _]]|?]; [left|by right]. by apply Forall_cons in Hf as [? _].
Qed.

Lemma result_inv k i rest k' : inv k → cd k (running k) = Some (i :: rest) → result k i rest k' → inv k'.
Proof.
  intros Hinv Hc Hr. pose proof (result_keeps _ _ _ _ Hinv Hc Hr) as Hkp. pose proof Hinv as [Hk Hn _].
  destruct Hr as [(k0 & Hev & Hsv) Hcl Hlev Hcode].
  assert (lists_ok (Some (running k')) k') as Hk'.
  { rewrite (sv_running _ _ Hsv). apply (lists_same _ k0); [done|]. apply (event_lists k i rest); try done.
    intros E. destruct (inv_head k i rest Hinv Hc) as [[? _]|[_ ?]]; done. }
  split; [done| |done]. apply (names_step k); try done.
  - by apply keeps_grows.
  - apply Hkp.
  - apply threads_st_cd. rewrite (proj2 (lo_running _ _ Hk' _) eq_refl). eauto.
  - intros t c Ht Hne. destruct (decide (t = running k)) as [->|Htr]; [|left; by rewrite <- (kp_cd _ _ Hkp)].
    right. destruct (Hcode Hne) as (c' & Hc' & Hok). replace c with c' by congruence.
    apply (code_ok_grows k); [by apply keeps_grows|done].
  - intros t Ht. left. by apply (kp_threads _ _ Hkp).
  - intros c ws w Hws Hw. left. by eapply conds_le_elem.
  - intros l Hl. left. by apply (kp_holders _ _ Hkp).
Qed.

(** ** The timer *)

(** The state after a timer interrupt: the running thread goes on, or it has
    yielded and restores its level when it runs again. *)
Inductive ticked (k k' : kernel) : Prop :=
| TickSame : same_view k k' → conds k' = conds k → level k' = level k → ticked k k'
| TickYield c n l : cd k (running k) = Some c → chosen (yields k (ISetLevel INTR_ON :: c)) n l →
    same_view (switch_to (yields k (ISetLevel INTR_ON :: c)) n l) k' → level k' = INTR_OFF → conds k' = conds k →
    ticked k k'.

Lemma inv_code k : inv k → ∃ c, cd k (running k) = Some c ∧ (running k = idle_thread k → idle_code c).
Proof.
  intros [Hk Hn _]. destruct (no_run _ Hn) as [th Hth]. exists (code th).
  assert (cd k (running k) = Some (code th)) as Hc by (unfold cd; by rewrite Hth). split; [done|].
  intros E. destruct (lo_idle _ _ Hk) as (c & Hc' & Hi & _). rewrite <- E in Hc'. congruence.
Qed.

Lemma thread_tick_ok k : cur_ok k → ∃ b k', thread_tick k = Ret (b, k') ∧ same_view k k' ∧ conds k' = conds k ∧ level k' = level k.
Proof.
  intros Hc. unfold thread_tick. rewrite (cstep _ _ _ _ _ (thread_current_ok k Hc)).
  assert (is_Some (threads k !! running k)) as [th Hth] by (eapply st_is_Some, Hc).
  rewrite (cstep _ _ _ th k) by (unfold get_thread; by rewrite Hth). rewrite cget.
  cbv zeta. destruct (running k =? idle_thread k); [|destruct (negb (pagedir th =? 0))];
    by (eexists _, _; split; [done|]; split; [by split|]).
Qed.

Lemma timer_tick_ok k : inv k → level k = INTR_ON → ∃ k', timer_tick k = Ret ((), k') ∧ ticked k k'.
Proof.
  intros Hinv Hl. pose proof Hinv as [Hk Hn _]. destruct (inv_code k Hinv) as (c & Hc & Hi).
  destruct (thread_tick_ok k (lists_cur _ Hk)) as (b & k1 & Hk1 & Hsv & Hcd & Hlev).
  unfold timer_tick. rewrite (cstep _ _ _ _ _ Hk1). destruct b; [|exists k1; split; [done|by constructor]].
  assert (running k1 = running k) as Er by apply Hsv. assert (idle_thread k1 = idle_thread k) as Ei by apply Hsv.
  destruct (yield_ok k1 c) as (n & l & k' & Hk' & Hch & Hsv' & Hl' & Hc').
  - left. rewrite Er. by apply (lists_same _ k).
  - by rewrite Er, Ei.
  - apply (sv_cur k); [done|by apply lists_cur].
  - by rewrite Er, (sv_cd _ _ Hsv).
  - exists k'. split; [done|]. rewrite Hlev, Hl in Hch, Hsv'.
    assert (same_view (yields k (ISetLevel INTR_ON :: c)) (yields k1 (ISetLevel INTR_ON :: c))) as Hy.
    { unfold yields. rewrite Er, Ei, (sv_ready _ _ Hsv). apply sv_ready_to, sv_put_status.
      - apply sv_put_code; [done|apply Hn].
      - apply alter_is_Some, Hn. }
    apply (TickYield _ _ c n l); try done; [| |congruence].
    + unfold chosen in *. by rewrite (sv_ready _ _ Hy), (sv_idle _ _ Hy) in Hch.
    + etrans; [|exact Hsv']. apply switch_same; [done|]. apply (chosen_Some _ n l).
      * by apply (yields_lists k c).
      * unfold chosen in *. by rewrite (sv_ready _ _ Hy), (sv_idle _ _ Hy) in Hch.
Qed.

Lemma ticked_keeps k k' : inv k → ticked k k' → keeps k k'.
Proof.
  intros Hinv [Hsv _ _|c n l Hc Hch Hsv _ _].
  - apply (keeps_same k k); [by split|done].
  - eapply keeps_same; [|done]. unfold yields. eauto 10 with keeps.
Qed.

Lemma names_same k k' : same_view k k' → conds k' = conds k → names_ok k → names_ok k'.
Proof.
  intros Hsv Hc Hn. assert (keeps k k') as Hkp by (apply (keeps_same k k); [by split|done]).
  apply (names_step k); try done.
  - by apply keeps_grows, conds_le_eq.
  - apply Hsv.
  - rewrite (sv_running _ _ Hsv). by apply (kp_threads _ _ Hkp), Hn.
  - intros t c. rewrite (sv_cd _ _ Hsv). auto.
  - intros t Ht. left. by apply (kp_threads _ _ Hkp).
  - intros c ws w. rewrite Hc. eauto.
  - intros l Hl. left. by apply (kp_holders _ _ Hkp).
Qed.

Lemma ticked_inv k k' : inv k → level k = INTR_ON → ticked k k' → inv k'.
Proof.
  intros Hinv Hon Htk. pose proof (ticked_keeps k k' Hinv Htk) as Hkp. pose proof Hinv as [Hk Hn Hlv].
  destruct Htk as [Hsv Hcd Hlev|c n l Hc Hch Hsv Hlev Hcd].
  - split.
    + rewrite (sv_running _ _ Hsv). by apply (lists_same _ k).
    + by apply (names_same k).
    + intros s. rewrite (sv_running _ _ Hsv), (sv_cd _ _ Hsv), Hlev. apply Hlv.
  - assert (running k = idle_thread k → idle_code c) as Hi.
    { destruct (inv_code k Hinv) as (c' & Hc' & Hi). by replace c with c' by congruence. }
    assert (lists_ok (Some (running k')) k') as Hk'.
    { rewrite (sv_running _ _ Hsv). apply (lists_same _ _ _ Hsv), switch_lists; [|done].
      by apply (yields_lists k c). }
    split; [done| |done]. assert (grows k k') as Hg by (by apply keeps_grows, conds_le_eq).
    apply (names_step k); try done.
    + apply Hkp.
    + apply threads_st_cd. rewrite (proj2 (lo_running _ _ Hk' _) eq_refl). eauto.
    + intros t c' Ht Hne. destruct (decide (t = running k)) as [->|Htr]; [|left; by rewrite <- (kp_cd _ _ Hkp)].
      right. rewrite (sv_cd _ _ Hsv), cd_switch in Ht. unfold yields in Ht.
      change (cd (w_ready ?a ?b) (running k)) with (cd b (running k)) in Ht.
      rewrite cd_put_status, cd_put_code, decide_True in Ht by (done || apply Hn). injection Ht as <-.
      destruct (no_code _ Hn _ _ Hc Hne) as [Hf Hs]. apply (code_ok_grows k); [done|]. split; [by constructor|].
      split; [done|]. intros s Hl. rewrite <- Hc in Hl. rewrite (Hlv s Hl) in Hon. done.
    + intros t Ht. left. by apply (kp_threads _ _ Hkp).
    + intros c' ws w. rewrite Hcd. eauto.
    + intros l' Hl. left. by apply (kp_holders _ _ Hkp).
Qed.

(** ** Calls *)

(** A semaphore may be initialized where it is not part of a lock and no
    thread waits. *)
Definition quiet (k : kernel) (s : Z) : Prop := holders k !! (s - 4) = None ∧ ∀ t, ¬ at_loop (cd k t) s.

(** The calls of a correct client: its objects are initialized, a new lock or
    thread is at a new address. *)
Definition legal (k : kernel) (c : call) : Prop :=
  match c with
  | CSemaInit s v => quiet k s ∧ 0 ≤ v < 2 ^ 32
  | CSemaDown s | CSemaTryDown s | CSemaUp s => client_sema k s
  | CLockInit l => holders k !! l = None ∧ semas k !! lock_sema l = None
  | CLockAcquire l | CLockTryAcquire l | CLockRelease l => is_lock k l
  | CCondInit _ | CYield | CExit | CSetPriority _ => True
  | CCondWait c l w => is_lock k l ∧ is_Some (conds k !! c) ∧ quiet k w
  | CCondSignal c l | CCondBroadcast c l => is_lock k l ∧ is_Some (conds k !! c)
  | CCreate t prio fpage => threads k !! t = None ∧ quiet k (child_sema t) ∧ quiet k (load_sema t) ∧
      quiet k (child_list_sema t)
  end.

Definition new_thread (t prio fpage : Z) : thread :=
  Thread 0 THREAD_BLOCKED (t + PGSIZE) prio 0 0 [] fpage THREAD_MAGIC false [ISetLevel INTR_ON].
Definition add_thread (k : kernel) (t : Z) (th : thread) : kernel :=
  w_all (all_list k ++ [t]) (with_threads k (<[t := th]> (threads k))).
Definition created (k : kernel) (t prio fpage : Z) : kernel :=
  w_sema (child_list_sema t) (Sema 1 []) (w_sema (load_sema t) (Sema 0 [])
    (w_sema (child_sema t) (Sema 0 []) (add_thread k t (new_thread t prio fpage)))).

(** What a call does at once. *)
Inductive prepared (k : kernel) : call → kernel → Prop :=
| PrSema s v : prepared k (CSemaInit s v) (w_sema s (Sema v []) k)
| PrLock l : prepared k (CLockInit l) (w_sema (lock_sema l) (Sema 1 []) (w_holder l 0 k))
| PrCond c : prepared k (CCondInit c) (w_cond c [] k)
| PrWait c l w ws : conds k !! c = Some ws → holders k !! l = Some (running k) →
    prepared k (CCondWait c l w) (w_cond c (ws ++ [w]) (w_sema w (Sema 0 []) k))
| PrCreate t prio fpage : t ≠ 0 → PRI_MIN ≤ prio ≤ PRI_MAX → prepared k (CCreate t prio fpage) (created k t prio fpage)
| PrNone c kx : same_view k kx → conds kx = conds k → level kx = level k →
    match c with CSemaInit _ _ | CLockInit _ | CCondInit _ | CCondWait _ _ _ | CCreate _ _ _ => False | _ => True end →
    prepared k c kx.

Lemma assert_inv b k u k' : assert (S := kernel) b k = Ret (u, k') → b = true ∧ k' = k.
Proof. unfold assert. destruct b; simpl; [intros [= _ <-]; done|done]. Qed.

Lemma cond_wait_inv c l w k u k' : cur_ok k → cond_wait_enter c l w k = Ret (u, k') → is_Some (holders k !! l) →
  holders k !! l = Some (running k) ∧ ∃ ws, conds k !! c = Some ws ∧ k' = w_cond c (ws ++ [w]) (w_sema w (Sema 0 []) k).
Proof.
  intros Hcur He [h Hh]. unfold cond_wait_enter in He. rewrite (cstep _ _ _ _ _ (held_ok k l h Hcur Hh)) in He.
  apply cmd_bind_Ret in He as ([] & k1 & Ha & He). apply assert_inv in Ha as [Ha ->].
  rewrite (cstep _ _ _ () (w_sema w (Sema 0 []) k)) in He by done.
  apply cmd_bind_Ret in He as (ws & k2 & Hg & He). unfold get_cond in Hg. simpl in Hg.
  destruct (conds k !! c) as [ws'|] eqn:Hws; simpl in Hg; [injection Hg as <- <-|done].
  injection He as _ <-. apply Z.eqb_eq in Ha as ->. eauto.
Qed.

Lemma init_thread_inv t prio fpage k u k' : init_thread t prio fpage [] k = Ret (u, k') →
  t ≠ 0 ∧ PRI_MIN ≤ prio ≤ PRI_MAX ∧ k' = created k t prio fpage.
Proof.
  unfold init_thread. intros He.
  apply cmd_bind_Ret in He as ([] & k1 & Ha & He). apply assert_inv in Ha as [Ha ->].
  apply cmd_bind_Ret in He as ([] & k1 & Hp & He). apply assert_inv in Hp as [Hp ->].
  injection He as <- <-. split; [|split; [|done]]; bool_prop; lia.
Qed.

Lemma start_call_inv c k u k' : cur_ok k → legal k c → start_call c k = Ret (u, k') →
  ∃ kx, prepared k c kx ∧ k' = put_code kx (running k) (call_code (running k) c).
Proof.
  intros Hcur Hlg He. unfold start_call in He. rewrite (cstep _ _ _ (running k) k) in He by done.
  apply cmd_bind_Ret in He as ([] & kx & Hm & He). exists kx.
  split; [|unfold set_thread in He; destruct (threads kx !! running k) eqn:Ht; [injection He as _ <-|done]].
  - destruct c; try (injection Hm as <-; by constructor).
    + apply cond_wait_inv in Hm as (Hh & ws & Hws & ->); [by constructor|done|apply Hlg].
    + apply init_thread_inv in Hm as (? & ? & ->). by constructor.
    + unfold thread_set_priority in Hm. rewrite (cstep _ _ _ _ _ (thread_current_ok k Hcur)) in Hm.
      assert (is_Some (threads k !! running k)) as Hs by (eapply st_is_Some, Hcur).
      match type of Hm with set_thread _ ?g _ = _ =>
        destruct (set_field_view k (running k) g Hs) as (k1 & Hk1 & Hsv & Hc1 & Hl1 & _); [done|] end.
      rewrite Hk1 in Hm. injection Hm as <-. by constructor.
  - unfold put_code. f_equal. apply map_eq. intros v.
    destruct (decide (v = running k)) as [->|];
      [by rewrite lookup_alter_eq, lookup_insert_eq, Ht|by rewrite lookup_alter_ne, lookup_insert_ne].
Qed.

(** Lists after a call. *)
Lemma init_lists o k s v : (∀ t, ¬ at_loop (cd k t) s) → lists_ok o k → lists_ok o (w_sema s (Sema v []) k).
Proof.
  intros Hq []. split; try done. intros s' y Hy. simpl in Hy.
  apply lookup_insert_Some in Hy as [[<- <-]|[_ Hy]]; [|eauto].
  split; [constructor|]. intros t. simpl. rewrite elem_of_nil. change (cd (w_sema _ _ _) t) with (cd k t).
  naive_solver.
Qed.

Lemma st_add k t th u : st (add_thread k t th) u = if decide (u = t) then Some (status th) else st k u.
Proof. unfold st. simpl. case_decide; [subst; by rewrite lookup_insert_eq|by rewrite lookup_insert_ne]. Qed.
Lemma cd_add k t th u : cd (add_thread k t th) u = if decide (u = t) then Some (code th) else cd k u.
Proof. unfold cd. simpl. case_decide; [subst; by rewrite lookup_insert_eq|by rewrite lookup_insert_ne]. Qed.

Lemma add_lists k t prio fpage : threads k !! t = None → t ≠ 0 → lists_ok (Some (running k)) k →
  lists_ok (Some (running k)) (add_thread k t (new_thread t prio fpage)).
Proof.
  intros Ht Ht0 Hk. assert (st k t = None) as Hst by (unfold st; by rewrite Ht).
  assert (cd k t = None) as Hcd by (unfold cd; by rewrite Ht).
  destruct (lo_idle _ _ Hk) as (ci & Hci & Hii & Hid).
  assert (t ≠ idle_thread k) as Hti by congruence.
  assert (∀ p c u, cd (add_thread k t (new_thread t prio fpage)) p = Some c → u ∈ unblocks c → cd k p = Some c) as Hub.
  { intros p c u. rewrite cd_add. case_decide; [|done]. intros [= <-] Hu. by apply elem_of_nil in Hu. }
  pose proof Hk as [Hr Hrn Hrd Hw Han Ha _ Hm Hu Hun Hu1]. split; try done.
  - intros u. rewrite st_add. case_decide; [subst u|apply Hr]. rewrite <- Hr, Hst. naive_solver.
  - intros u. rewrite st_add. change (ready_list (add_thread _ _ _)) with (ready_list k).
    rewrite Hrd. case_decide; [subst u; rewrite Hst; simpl; naive_solver|done].
  - intros s x Hx. destruct (Hw s x Hx) as [Hnd Hiff]. split; [done|]. intros u. rewrite Hiff, st_add, cd_add.
    case_decide; [subst u; rewrite Hst; simpl; naive_solver|done].
  - simpl. apply NoDup_app. split; [done|]. split; [|apply NoDup_singleton].
    intros u Hin ->%list_elem_of_singleton. apply Ha in Hin as (x & Hx & _). congruence.
  - intros u. rewrite st_add. simpl. rewrite elem_of_app, list_elem_of_singleton, Ha.
    case_decide; [subst u; rewrite Hst; simpl; naive_solver|naive_solver].
  - exists ci. rewrite cd_add, st_add. simpl. by rewrite !decide_False by done.
  - intros u th Hth. simpl in Hth. apply lookup_insert_Some in Hth as [[<- <-]|[_ Hth]]; [done|by apply Hm].
  - intros p c u Hp Hin. destruct (Hu p c u (Hub p c u Hp Hin) Hin) as (? & ? & ?).
    rewrite st_add, cd_add. simpl. case_decide; [congruence|done].
  - intros p c. rewrite cd_add. case_decide; [intros [= <-]; constructor|apply Hun].
  - intros p q c c' u Hp Hq Hin Hin'. by apply (Hu1 p q c c' u); eauto.
Qed.

(** Code for a thread that had none. *)
Lemma start_lists k c : lists_ok (Some (running k)) k → cd k (running k) = Some [] →
  (∀ s, ¬ at_loop (Some c) s) → NoDup (unblocks c) → running k ≠ idle_thread k →
  (∀ t, t ∈ unblocks c → st k t = Some THREAD_BLOCKED ∧ cd k t = Some [ISetLevel INTR_ON] ∧ t ≠ idle_thread k ∧
    ∀ p c', cd k p = Some c' → t ∉ unblocks c') →
  lists_ok (Some (running k)) (put_code k (running k) c).
Proof.
  intros Hk Hcd Hl Hnd Hni Hub. assert (is_Some (threads k !! running k)) as Hr by (by eapply cd_is_Some).
  pose proof (proj2 (lo_running _ _ Hk _) eq_refl) as Hst.
  pose proof Hk as [Hrn ? Hrd Hw ? Ha Hi Hm Hu Hun Hu1]. split; try done.
  - intros u. rewrite st_put_code. apply Hrn.
  - intros u. rewrite st_put_code. apply Hrd.
  - intros s x Hx. destruct (Hw s x Hx) as [? Hiff]. split; [done|]. intros u.
    rewrite Hiff, st_put_code, cd_put_code by done. case_decide; [subst u; naive_solver congruence|done].
  - intros u. rewrite st_put_code. apply Ha.
  - simpl. rewrite st_put_code, cd_put_code by done. by rewrite decide_False by done.
  - intros u th Hth. pose proof (mg_put_code k (running k) c u) as E. unfold mg at 1 in E. rewrite Hth in E.
    by apply (lo_magic' _ _ _ _ Hk).
  - intros p c' u. rewrite st_put_code, !cd_put_code by done. simpl. intros Hp Hin.
    assert (st k u = Some THREAD_BLOCKED ∧ cd k u = Some [ISetLevel INTR_ON] ∧ u ≠ idle_thread k) as (? & ? & ?).
    { case_decide; [injection Hp as <-; naive_solver|by apply (Hu p c')]. }
    rewrite decide_False; [done|]. intros ->. congruence.
  - intros p c'. rewrite cd_put_code by done. case_decide; [by intros [= <-]|apply Hun].
  - intros p q c' c2 u. rewrite !cd_put_code by done. intros Hp Hq Hin Hin'.
    destruct (decide (p = running k)) as [->|], (decide (q = running k)) as [->|]; [done| | |].
    + injection Hp as ->. destruct (Hub u Hin) as (_ & _ & _ & Hno). by destruct (Hno q c2 Hq).
    + injection Hq as ->. destruct (Hub u Hin') as (_ & _ & _ & Hno). by destruct (Hno p c' Hp).
    + by apply (Hu1 p q c' c2 u).
Qed.

(** ** A call preserves the invariant *)

Lemma at_loop_sema k t s : names_ok k → lists_ok (Some (running k)) k → at_loop (cd k t) s → is_Some (semas k !! s).
Proof.
  intros Hn Hk Hl. destruct (cd k t) as [c|] eqn:Hc; [|done].
  assert (t ≠ idle_thread k) as Hne.
  { intros ->. destruct (lo_idle _ _ Hk) as (c' & Hc' & Hi & _). apply (idle_not_loop c' s Hi). by rewrite <- Hc', Hc. }
  destruct (no_code _ Hn t c Hc Hne) as [Hf _]. destruct c as [|i c]; [done|].
  apply Forall_cons in Hf as [Hi _]. destruct i as [| s' old lk | | | | | | | | | | | | | | | | | | | |]; simpl in Hl; try done. subst s'.
  destruct lk; simpl in Hi; [destruct Hi as [-> Hi]; apply Hi|apply Hi].
Qed.

Lemma prepared_lists k c kx : inv k → legal k c → prepared k c kx → lists_ok (Some (running k)) kx.
Proof.
  intros [Hk Hn _] Hlg Hp. destruct Hp as [s v|l|c|c l w ws Hws Hh|t prio fpage Ht0 Hpr|c kx Hsv Hcd Hlev Hc].
  - apply init_lists; [apply Hlg|done].
  - apply init_lists; [|by apply holder_lists]. intros t Hl. destruct Hlg as [_ Hlg].
    apply (at_loop_sema k t) in Hl as [? ?]; [congruence|done|done].
  - destruct Hk. by split.
  - assert (lists_ok (Some (running k)) (w_sema w (Sema 0 []) k)) as [] by (apply init_lists; [apply Hlg|done]). by split.
  - destruct Hlg as (Ht & Q1 & Q2 & Q3).
    assert (∀ s u, quiet k s → ¬ at_loop (cd (add_thread k t (new_thread t prio fpage)) u) s) as Hq.
    { intros s u [_ Hq]. rewrite cd_add. case_decide; [by intros []|apply Hq]. }
    repeat (apply init_lists; [intros u; by apply Hq|]). by apply add_lists.
  - by apply (lists_same _ k).
Qed.

Lemma prepared_code k c kx t : inv k → legal k c → prepared k c kx → is_Some (threads k !! t) → cd kx t = cd k t.
Proof.
  intros _ Hlg Hp [th Hth]. destruct Hp as [| | | |t' prio fpage Ht0 Hpr|c kx Hsv]; try done; [|apply Hsv].
  destruct Hlg as [Ht' _]. change (cd (created k t' prio fpage) t) with (cd (add_thread k t' (new_thread t' prio fpage)) t).
  rewrite cd_add. case_decide; [congruence|done].
Qed.

Lemma prepared_same_run k c kx : prepared k c kx → running kx = running k ∧ idle_thread kx = idle_thread k.
Proof. intros Hp. destruct Hp as [| | | |t' prio fpage Ht0 Hpr|c kx Hsv]; try done. split; apply Hsv. Qed.

Lemma insert_Some_mono {A} (m : gmap Z A) t x u : is_Some (m !! u) → is_Some (<[t := x]> m !! u).
Proof. intros Hu. destruct (decide (u = t)) as [->|]; [rewrite lookup_insert_eq; eauto|by rewrite lookup_insert_ne]. Qed.

Lemma grows_sema k s x : grows k (w_sema s x k).
Proof.
  split; try done.
  - intros s' [? ?]. split; [by apply insert_Some_mono|done].
  - intros l [? ?]. split; [done|by apply insert_Some_mono].
Qed.

Lemma grows_trans k1 k2 k3 : grows k1 k2 → grows k2 k3 → grows k1 k3.
Proof. intros [] []. split; auto. Qed.

Lemma grows_same k k' : same_view k k' → conds k' = conds k → grows k k'.
Proof. intros Hsv Hc. apply keeps_grows; [apply (keeps_same k k); [by split|done]|by apply conds_le_eq]. Qed.

Lemma grows_cond k c ws : grows k (w_cond c ws k).
Proof. split; try done. intros c' Hc. by apply insert_Some_mono. Qed.

Lemma grows_add k t th : grows k (add_thread k t th).
Proof. split; try done. intros u Hu. by apply insert_Some_mono. Qed.

Lemma prepared_grows k c kx : legal k c → prepared k c kx → grows k kx.
Proof.
  intros Hlg Hp. destruct Hp as [s v|l|c|c l w ws Hws Hh|t prio fpage Ht0 Hpr|c kx Hsv Hcd Hlev Hc].
  - apply grows_sema.
  - eapply grows_trans; [|apply grows_sema]. destruct Hlg as [Hl Hs]. split; try done.
    + intros s [Hx Hnl]. split; [done|]. simpl. rewrite lookup_insert_ne; [done|].
      intros ->. unfold lock_sema in Hs. replace (s - 4 + 4) with s in Hs by lia. destruct Hx. congruence.
    + intros l' [? ?]. split; [by apply insert_Some_mono|done].
  - apply grows_cond.
  - eapply grows_trans; [apply grows_sema|apply grows_cond].
  - repeat (eapply grows_trans; [|apply grows_sema]). apply grows_add.
  - by apply grows_same.
Qed.

Lemma prepared_names k c kx : inv k → legal k c → prepared k c kx → names_ok kx.
Proof.
  intros Hinv Hlg Hp. pose proof Hinv as [Hk Hn _]. pose proof (prepared_grows k c kx Hlg Hp) as Hg.
  pose proof (prepared_same_run k c kx Hp) as [Hr Hi].
  destruct Hp as [s v|l|c|c l w ws Hws Hh|t prio fpage Ht0 Hpr|c kx Hsv Hcd Hlev Hc].
  - apply (names_step k); eauto; apply Hn.
  - apply (names_step k); eauto; [apply Hn|]. intros l' Hl'. simpl in Hl'. destruct (decide (l' = l)) as [->|].
    + right. simpl. rewrite lookup_insert_eq. eauto.
    + left. by rewrite lookup_insert_ne in Hl'.
  - apply (names_step k); eauto; [apply Hn|]. intros c' ws w. simpl. intros [[<- <-]|[? ?]]%lookup_insert_Some; [|eauto].
    intros Hw. by apply elem_of_nil in Hw.
  - apply (names_step k); eauto; [apply Hn|]. intros c' ws' w'. simpl.
    intros [[<- <-]|[? ?]]%lookup_insert_Some; [|eauto]. intros [?| ->%list_elem_of_singleton]%elem_of_app; [eauto|].
    right. split; [simpl; rewrite lookup_insert_eq; eauto|apply Hlg].
  - apply (names_step k); eauto.
    + apply (gr_threads _ _ Hg), Hn.
    + intros u c. change (cd (created k t prio fpage) u) with (cd (add_thread k t (new_thread t prio fpage)) u).
      rewrite cd_add. case_decide; [|by left]. intros [= <-] _. right. split; [by repeat constructor|].
      split; [done|]. by intros s [].
    + intros u Hu. simpl in Hu. destruct (decide (u = t)) as [->|]; [right|left; by rewrite lookup_insert_ne in Hu].
      split; [simpl; rewrite lookup_insert_eq; eauto|apply Hlg].
  - by apply (names_same k).
Qed.

Lemma call_static cur c : Forall (λ i, ¬ dynamic i) (call_code cur c).
Proof. destruct c; repeat constructor; by intros []. Qed.

Lemma call_names k c kx : inv k → legal k c → prepared k c kx → Forall (instr_ok kx) (call_code (running k) c).
Proof.
  intros Hinv Hlg Hp. pose proof (prepared_grows k c kx Hlg Hp) as Hg. pose proof Hinv as [Hk Hn _].
  destruct c; simpl in Hlg |- *; try by repeat constructor.
  1-3: by repeat constructor; apply (gr_sema _ _ Hg).
  1-3: by repeat constructor; apply (gr_lock _ _ Hg).
  - destruct Hlg as (Hl & Hc & Hq1 & Hq2). repeat constructor; try by apply (gr_lock _ _ Hg).
    + inversion Hp; subst; [|done]. simpl. rewrite lookup_insert_eq. eauto.
    + inversion Hp; subst; done.
  - destruct Hlg. repeat constructor; try by apply (gr_lock _ _ Hg). by apply (gr_conds _ _ Hg).
  - destruct Hlg. repeat constructor; try by apply (gr_lock _ _ Hg). by apply (gr_conds _ _ Hg).
  - assert (is_Some (threads kx !! t)) as Ht.
    { inversion Hp; subst; [|done]. simpl. rewrite lookup_insert_eq. eauto. }
    assert (client_sema kx (child_list_sema (running k))) as Hcs by (apply (gr_sema _ _ Hg), Hn, Hn).
    pose proof (gr_lock _ _ Hg _ (no_tid _ Hn)) as Htid. pose proof (gr_threads _ _ Hg _ (no_run _ Hn)) as Hr.
    unfold create_rest, allocate_tid.
    simpl. repeat (apply Forall_cons_2; [done|]). by apply Forall_nil.
Qed.

Lemma call_unblocks k c kx t : inv k → legal k c → prepared k c kx → t ∈ unblocks (call_code (running k) c) →
  st kx t = Some THREAD_BLOCKED ∧ cd kx t = Some [ISetLevel INTR_ON] ∧ t ≠ idle_thread kx ∧
  ∀ p c', cd kx p = Some c' → t ∉ unblocks c'.
Proof.
  intros [Hk Hn _] Hlg Hp Ht. destruct c as [| | | | | | | | | | | |t' prio fpage| | |]; simpl in Ht; try by apply elem_of_nil in Ht.
  apply list_elem_of_singleton in Ht as ->. inversion Hp; subst; [|done]. destruct Hlg as [Hfr _].
  change (st (created k t' prio fpage) t') with (st (add_thread k t' (new_thread t' prio fpage)) t').
  assert (cd (created k t' prio fpage) = cd (add_thread k t' (new_thread t' prio fpage))) as E by done.
  rewrite E, st_add, cd_add, decide_True by done. split; [done|]. split; [by rewrite decide_True|]. split.
  - intros Ei. destruct (lo_idle _ _ Hk) as (c & Hc & _). unfold cd in Hc. simpl in Ei. rewrite <- Ei, Hfr in Hc. done.
  - intros p c'. rewrite cd_add. case_decide; [intros [= <-] Hin; by apply elem_of_nil in Hin|]. intros Hc Hin.
    destruct (lo_unblock _ _ Hk p c' t' Hc Hin) as (Hst & _). unfold st in Hst. by rewrite Hfr in Hst.
Qed.

Lemma call_unblocks_nodup cur c : NoDup (unblocks (call_code cur c)).
Proof. destruct c; simpl; try constructor; [set_solver|constructor]. Qed.

Lemma call_inv k c kx : inv k → legal k c → running k ≠ idle_thread k → cd k (running k) = Some [] →
  prepared k c kx → inv (put_code kx (running k) (call_code (running k) c)).
Proof.
  intros Hinv Hlg Hni Hcd Hp. pose proof (prepared_same_run k c kx Hp) as [Er Ei].
  pose proof (prepared_lists k c kx Hinv Hlg Hp) as Hk. pose proof (prepared_names k c kx Hinv Hlg Hp) as Hn.
  assert (cd kx (running k) = Some []) as Hcx.
  { rewrite (prepared_code k c kx); [done|done|done|done|apply Hinv]. }
  pose proof (call_static (running k) c) as Hst. rewrite <- Er in *.
  set (k' := put_code kx (running kx) (call_code (running kx) c)).
  assert (keeps kx k') as Hkp by apply keeps_code. split.
  - change (running k') with (running kx). unfold k'. apply start_lists; try done.
    + intros s. by apply static_not_loop.
    + apply call_unblocks_nodup.
    + by rewrite Ei.
    + intros t. rewrite Er. by apply (call_unblocks k c kx).
  - assert (grows kx k') as Hg by (by apply keeps_grows, conds_le_eq). apply (names_step kx); eauto.
    + apply (kp_threads _ _ Hkp), Hn.
    + intros t c'. unfold k'. rewrite cd_put_code by apply Hn. case_decide; [|by left]. intros [= <-] _. right.
      apply (code_ok_grows kx); [done|]. split; [rewrite Er; by apply (call_names k)|by apply static_shape].
    + intros t Ht. left. by apply (kp_threads _ _ Hkp).
  - intros s. change (running k') with (running kx). unfold k'. rewrite cd_put_code, decide_True by (done || apply Hn).
    intros Hl. by apply static_not_loop in Hl.
Qed.

(** ** Steps *)

Inductive step (k k' : kernel) : Prop :=
| StepExec : exec k = Ret ((), k') → step k k'
| StepCall c : cd k (running k) = Some [] → running k ≠ idle_thread k → legal k c →
    start_call c k = Ret ((), k') → step k k'
| StepTick : level k = INTR_ON → timer_tick k = Ret ((), k') → step k k'.

Lemma exec_code k k' : inv k → exec k = Ret ((), k') → ∃ i rest, cd k (running k) = Some (i :: rest).
Proof.
  intros Hinv He. destruct (inv_code k Hinv) as ([|i rest] & Hc & _); [|eauto].
  unfold exec in He. rewrite (cstep _ _ _ (running k) k) in He by done.
  unfold cd in Hc. destruct (threads k !! running k) as [th|] eqn:Hth; [|done].
  rewrite (cstep _ _ _ th k) in He by (unfold get_thread; by rewrite Hth). injection Hc as Hc. by rewrite Hc in He.
Qed.

(** What a step does to a state that satisfies the invariant. *)
Inductive stepped (k k' : kernel) : Prop :=
| SpExec i rest : cd k (running k) = Some (i :: rest) → result k i rest k' → stepped k k'
| SpCall c kx : cd k (running k) = Some [] → running k ≠ idle_thread k → legal k c → prepared k c kx →
    k' = put_code kx (running k) (call_code (running k) c) → stepped k k'
| SpTick : level k = INTR_ON → ticked k k' → stepped k k'.

Lemma step_stepped k k' : inv k → step k k' → stepped k k'.
Proof.
  intros Hinv [He|c Hcd Hni Hlg He|Hl He].
  - destruct (exec_code k k' Hinv He) as (i & rest & Hc). destruct Hinv as [Hk Hn Hlv].
    destruct (exec_ok k i rest Hk Hc Hn Hlv) as [(k1 & Hk1 & Hr)|[_ Hf]]; [|congruence].
    apply (SpExec _ _ i rest Hc). congruence.
  - destruct (start_call_inv c k () k' (lists_cur _ (in_lists _ Hinv)) Hlg He) as (kx & Hp & ->).
    by apply (SpCall _ _ c kx).
  - destruct (timer_tick_ok k Hinv Hl) as (k1 & Hk1 & Ht). apply SpTick; [done|]. congruence.
Qed.

Lemma stepped_inv k k' : inv k → stepped k k' → inv k'.
Proof.
  intros Hinv [i rest Hc Hr|c kx Hcd Hni Hlg Hp ->|Hl Ht].
  - by apply (result_inv k i rest).
  - by apply call_inv.
  - by apply (ticked_inv k).
Qed.

(** ** No lost wake-ups

    The threads that are about to try [s] again: in the loop of [sema_down]
    and running or ready. *)
Definition waiting (k : kernel) (s t : Z) : Z := if decide (at_loop (cd k t) s) then 1 else 0.
Fixpoint total (f : Z → Z) (l : list Z) : Z := match l with [] => 0 | t :: l => f t + total f l end.
Definition loopers (k : kernel) (s : Z) : Z := total (waiting k s) (running k :: ready_list k).

(** A semaphore that threads wait for has no more units than threads are
    about to take. *)
Definition wakeups (k : kernel) : Prop := ∀ s x, semas k !! s = Some x →
  0 ≤ value x < 2 ^ 32 ∧ (waiters x ≠ [] → value x ≤ loopers k s).

Lemma total_app f l1 l2 : total f (l1 ++ l2) = total f l1 + total f l2.
Proof. induction l1; simpl; lia. Qed.
Lemma total_ext f g l : (∀ t, t ∈ l → f t = g t) → total f l = total g l.
Proof.
  induction l as [|t l IH]; [done|]. intros H. simpl. rewrite (H t), IH; [done| |set_solver]. intros u Hu. set_solver.
Qed.
Lemma waiting_bounds k s t : 0 ≤ waiting k s t ≤ 1.
Proof. unfold waiting. case_decide; lia. Qed.
Lemma total_nonneg k s l : 0 ≤ total (waiting k s) l.
Proof. induction l as [|t l IH]; simpl; [lia|]. pose proof (waiting_bounds k s t). lia. Qed.
Lemma waiting_cd k k' s t : cd k' t = cd k t → waiting k' s t = waiting k s t.
Proof. unfold waiting. by intros ->. Qed.
Lemma waiting_no k s t : ¬ at_loop (cd k t) s → waiting k s t = 0.
Proof. unfold waiting. intros ?. by rewrite decide_False. Qed.

Lemma loopers_same k k' s : same_view k k' → loopers k' s = loopers k s.
Proof.
  intros Hsv. unfold loopers. rewrite (sv_running _ _ Hsv), (sv_ready _ _ Hsv). apply total_ext.
  intros t _. apply waiting_cd, Hsv.
Qed.
Lemma wakeups_same k k' : same_view k k' → wakeups k → wakeups k'.
Proof. intros Hsv Hw s x. rewrite (sv_semas _ _ Hsv), (loopers_same k k') by done. apply Hw. Qed.

Lemma ready_not_running k t : lists_ok (Some (running k)) k → t ∈ ready_list k → t ≠ running k.
Proof.
  intros Hk Ht ->. apply (lo_ready _ _ Hk) in Ht as [Ht _].
  pose proof (proj2 (lo_running _ _ Hk _) eq_refl). congruence.
Qed.

Lemma ready_total k k' s : lists_ok (Some (running k)) k → keeps k k' →
  total (waiting k' s) (ready_list k) = total (waiting k s) (ready_list k).
Proof.
  intros Hk Hkp. apply total_ext. intros t Ht. apply waiting_cd, (kp_cd _ _ Hkp). by apply ready_not_running.
Qed.

Lemma switch_loopers kx n l s : lists_ok None kx → chosen kx n l →
  loopers (switch_to kx n l) s = total (waiting kx s) (ready_list kx).
Proof.
  intros Hk Hch. change (loopers (switch_to kx n l) s) with (total (waiting (switch_to kx n l) s) (n :: l)).
  rewrite (total_ext _ (waiting kx s)) by (intros; apply waiting_cd, cd_switch).
  destruct Hch as [-> | (-> & -> & ->)]; [done|]. simpl. rewrite waiting_no; [lia|].
  destruct (lo_idle _ _ Hk) as (c & -> & Hi & _). by apply idle_not_loop.
Qed.

(** How the semaphores change along a step. *)
Lemma wakeups_step k k' : wakeups k →
  (∀ s x', semas k' !! s = Some x' → 0 ≤ value x' < 2 ^ 32 ∧
     (waiters x' = [] ∨ value x' = 0 ∨
      ∃ x, semas k !! s = Some x ∧ waiters x ≠ [] ∧ value x' - value x ≤ loopers k' s - loopers k s)) →
  wakeups k'.
Proof.
  intros Hw Hs s x' Hx'. destruct (Hs s x' Hx') as [Hb Hc]. split; [done|]. intros Hne.
  destruct Hc as [?|[->|(x & Hx & Hnx & Hle)]]; [done|apply total_nonneg|].
  destruct (Hw s x Hx) as [_ Hv]. specialize (Hv Hnx). lia.
Qed.

(** The semaphores that are not touched. *)
Lemma wakeups_others k k' : wakeups k → (∀ s, loopers k s ≤ loopers k' s) → semas k' = semas k → wakeups k'.
Proof.
  intros Hw Hl Hs. apply (wakeups_step k); [done|]. intros s x'. rewrite Hs. intros Hx.
  destruct (Hw s x' Hx) as [Hb _]. split; [done|]. destruct (waiters x') eqn:E; [by left|]. right. right.
  exists x'. rewrite E. split; [done|]. split; [done|]. specialize (Hl s). lia.
Qed.

Lemma wakeups_one k k' s x x' : wakeups k → semas k !! s = Some x → semas k' = <[s := x']> (semas k) →
  (∀ s', s' ≠ s → loopers k s' ≤ loopers k' s') → 0 ≤ value x' < 2 ^ 32 →
  (waiters x' = [] ∨ value x' = 0 ∨ waiters x ≠ [] ∧ value x' - value x ≤ loopers k' s - loopers k s) → wakeups k'.
Proof.
  intros Hw Hx Hs Hl Hb Hc. apply (wakeups_step k); [done|]. intros s' y. rewrite Hs.
  intros [[<- <-]|[Hne Hy]]%lookup_insert_Some; [split; [done|]; naive_solver|].
  destruct (Hw s' y Hy) as [Hby _]. split; [done|]. destruct (waiters y) eqn:E; [by left|]. right. right.
  exists y. rewrite E. split; [done|]. split; [done|]. specialize (Hl s' (not_eq_sym Hne)). lia.
Qed.

Section Wakeups.
Context (k : kernel) (i : instr) (rest : list instr).
Hypothesis Hinv : inv k.
Hypothesis Hw : wakeups k.

Lemma stay_loopers k' ws s : keeps k k' → running k' = running k → ready_list k' = ready_list k ++ ws →
  loopers k' s = loopers k s - waiting k s (running k) + waiting k' s (running k) + total (waiting k' s) ws.
Proof.
  intros Hkp Er Erd. unfold loopers. rewrite Er, Erd. simpl. rewrite total_app, (ready_total k k'); [lia|apply Hinv|done].
Qed.

Lemma away_loopers kx n l ws s : keeps k kx → lists_ok None kx → chosen kx n l → ready_list kx = ready_list k ++ ws →
  loopers (switch_to kx n l) s = loopers k s - waiting k s (running k) + total (waiting kx s) ws.
Proof.
  intros Hkp Hx Hch Erd. rewrite switch_loopers by done. rewrite Erd, total_app, (ready_total k kx); [|apply Hinv|done].
  unfold loopers. simpl. lia.
Qed.

Hypothesis Hc : cd k (running k) = Some (i :: rest).

Lemma run_waiting s : match i with IDownLoop s' _ _ => s' ≠ s | _ => True end → waiting k s (running k) = 0.
Proof. intros Hi. apply waiting_no. rewrite Hc. destruct i; simpl; auto. Qed.

Lemma downs_waiting s s' lk : downs i s lk → s' ≠ s → waiting k s' (running k) = 0.
Proof. intros Hd Hne. apply run_waiting. destruct Hd; congruence || done. Qed.


Lemma stay_le k' ws s : keeps k k' → running k' = running k → ready_list k' = ready_list k ++ ws →
  loopers k s - waiting k s (running k) + total (waiting k' s) ws ≤ loopers k' s.
Proof.
  intros Hkp Er Erd. rewrite (stay_loopers k' ws s Hkp Er Erd). pose proof (waiting_bounds k' s (running k)). lia.
Qed.

Lemma stay_others k' ws : keeps k k' → running k' = running k → ready_list k' = ready_list k ++ ws →
  (∀ s old lk, i ≠ IDownLoop s old lk) → semas k' = semas k → wakeups k'.
Proof.
  intros Hkp Er Erd Hi. apply (wakeups_others k); [done|]. intros s. pose proof (stay_le k' ws s Hkp Er Erd) as Hl.
  rewrite run_waiting in Hl by (destruct i; naive_solver). pose proof (total_nonneg k' s ws). lia.
Qed.

Lemma away_others kx n l ws : keeps k kx → lists_ok None kx → chosen kx n l → ready_list kx = ready_list k ++ ws →
  (∀ s old lk, i ≠ IDownLoop s old lk) → semas kx = semas k → wakeups (switch_to kx n l).
Proof.
  intros Hkp Hx Hch Erd Hi Hs. apply (wakeups_others k); [done| |done]. intros s.
  rewrite (away_loopers kx n l ws) by done. rewrite run_waiting by (destruct i; naive_solver).
  pose proof (total_nonneg kx s ws). lia.
Qed.

Lemma down_wakeups s x lk k' : downs i s lk → semas k !! s = Some x → value x ≠ 0 → keeps k k' →
  running k' = running k → ready_list k' = ready_list k →
  semas k' = <[s := Sema (value x - 1) (waiters x)]> (semas k) → wakeups k'.
Proof.
  intros Hd Hx Hv Hkp Er Erd Hs. rewrite <- (app_nil_r (ready_list k)) in Erd. destruct (Hw s x Hx) as [Hb _].
  apply (wakeups_one k _ s x _ Hw Hx Hs); simpl; [|lia|].
  - intros s' Hne. pose proof (stay_le k' [] s' Hkp Er Erd) as Hl. rewrite (downs_waiting s s' lk) in Hl by done.
    simpl in Hl. lia.
  - destruct (waiters x) eqn:E; [by left|]. right. right. split; [done|].
    pose proof (stay_le k' [] s Hkp Er Erd) as Hl. pose proof (waiting_bounds k s (running k)). simpl in Hl. lia.
Qed.

Lemma up_wakeups s x k' ws us : ups i s → semas k !! s = Some x → keeps k k' → running k' = running k →
  ready_list k' = ready_list k ++ us → semas k' = <[s := Sema (u32 (value x + 1)) ws]> (semas k) →
  (ws = [] ∨ waiters x ≠ [] ∧ 1 ≤ total (waiting k' s) us) → wakeups k'.
Proof.
  intros Hu Hx Hkp Er Erd Hs Hws. destruct (Hw s x Hx) as [Hb _].
  assert (∀ s', waiting k s' (running k) = 0) as H0 by (intros s'; apply run_waiting; by destruct Hu).
  assert (0 ≤ u32 (value x + 1) ≤ value x + 1 ∧ u32 (value x + 1) < 2 ^ 32) as [? ?].
  { unfold u32. pose proof (Z.mod_pos_bound (value x + 1) (2 ^ 32)). pose proof (Z.mod_le (value x + 1) (2 ^ 32)). lia. }
  apply (wakeups_one k _ s x _ Hw Hx Hs); simpl; [|lia|].
  - intros s' Hne. pose proof (stay_le k' us s' Hkp Er Erd) as Hl. pose proof (total_nonneg k' s' us).
    specialize (H0 s'). lia.
  - destruct Hws as [->|[Hne Ht]]; [by left|]. right. right. split; [done|].
    pose proof (stay_le k' us s Hkp Er Erd) as Hl. specialize (H0 s). lia.
Qed.

Lemma wait_wakeups s x lk kx n l ws : downs i s lk → semas k !! s = Some x → keeps k kx → lists_ok None kx →
  chosen kx n l → ready_list kx = ready_list k → semas kx = <[s := Sema 0 ws]> (semas k) → wakeups (switch_to kx n l).
Proof.
  intros Hd Hx Hkp Hkx Hch Erd Hs. rewrite <- (app_nil_r (ready_list k)) in Erd.
  apply (wakeups_one k _ s x (Sema 0 ws) Hw Hx); [done| |simpl; lia|by right; left].
  intros s' Hne. rewrite (away_loopers kx n l []) by done. rewrite (downs_waiting s s' lk) by done. simpl. lia.
Qed.
End Wakeups.

Lemma event_wakeups k i rest k' : inv k → wakeups k → cd k (running k) = Some (i :: rest) →
  event k i rest k' → keeps k k' → wakeups k'.
Proof.
  intros Hinv Hw Hc Hev Hkp. pose proof Hinv as [Hk Hn _]. pose proof (eq_sym (app_nil_r (ready_list k))) as Ern.
  assert (∀ s lk, downs i s lk → running k ≠ idle_thread k) as Hd.
  { intros s lk Hd E. destruct (inv_head k i rest Hinv Hc) as [[? _]|[_ Hi]]; [done|by destruct Hd]. }
  assert (i = IYield ∨ i = IExit ∨ (∃ w, i = IUnblock w) ∨ (∃ s, ups i s) → running k ≠ idle_thread k) as Hne.
  { intros Hi E. destruct (inv_head k i rest Hinv Hc) as [[? _]|[_ Hi']]; [done|].
    destruct Hi as [->|[->|[[w ->]|[s Hu]]]]; [done..|]. by destruct Hu. }
  destruct Hev as [js Hp Hjs Hij|s x lk Hdn Hx Hv|l ->|l -> Hh|s x Hup Hx Hwt|s x w ws Hup Hx Hwt|w ->
    |s x lk old n l Hdn Hx Hv Hch|old n l -> Hch|n l -> Hch|n l -> Hri Hrest Hch].
  - apply (stay_others k i rest Hinv Hw Hc _ []); try done. intros s old lk ->. done.
  - by apply (down_wakeups k i rest Hinv Hw Hc s x lk).
  - by apply (stay_others k _ rest Hinv Hw Hc _ []).
  - by apply (stay_others k _ rest Hinv Hw Hc _ []).
  - apply (up_wakeups k i rest Hinv Hw Hc s x _ [] []); try done. by left.
  - destruct (waiter_facts k s x w ws Hk Hx Hwt) as (Hst & Hl & _).
    apply (up_wakeups k i rest Hinv Hw Hc s x _ ws [w]); try done. right. split; [by rewrite Hwt|].
    simpl. unfold waiting. rewrite decide_True; [lia|]. rewrite (kp_cd _ _ Hkp); [done|].
    intros ->. pose proof (proj2 (lo_running _ _ Hk _) eq_refl). congruence.
  - by apply (stay_others k _ rest Hinv Hw Hc _ [w]).
  - apply (wait_wakeups k i rest Hinv Hw Hc s x lk _ n l (waiters x ++ [running k])); try done.
    + unfold waits. eauto 10 with keeps.
    + by apply (waits_lists k i rest Hk Hc), (Hd s lk).
  - apply (away_others k _ rest Hinv Hw Hc _ n l [running k]); try done.
    + unfold yields. eauto 10 with keeps.
    + apply (yields_lists k (IYield :: rest)); try done. intros E. by destruct Hne; auto.
    + simpl. rewrite decide_False; [done|]. by apply Hne; auto.
  - apply (away_others k _ rest Hinv Hw Hc _ n l []); try done.
    + unfold exits. eauto 10 with keeps.
    + apply (exits_lists k _ rest Hk Hc). by apply Hne; auto.
  - apply (away_others k _ rest Hinv Hw Hc _ n l []); try done.
    + unfold idles. eauto 10 with keeps.
    + by apply (idles_lists k IIdleBlock rest).
Qed.

Lemma ticked_wakeups k k' : inv k → wakeups k → level k = INTR_ON → ticked k k' → wakeups k'.
Proof.
  intros Hinv Hw Hon [Hsv _ _|c n l Hc Hch Hsv _ _]; [by apply (wakeups_same k)|].
  apply (wakeups_same _ _ Hsv). pose proof Hinv as [Hk Hn Hlv].
  apply (wakeups_others k); [done| |done]. intros s.
  rewrite (away_loopers k Hinv _ n l (if decide (running k = idle_thread k) then [] else [running k])); try done.
  - rewrite (waiting_no k s); [|intros Hl; by rewrite (Hlv s Hl) in Hon].
    pose proof (total_nonneg (yields k (ISetLevel INTR_ON :: c)) s (if decide (running k = idle_thread k) then [] else [running k])).
    lia.
  - unfold yields. eauto 10 with keeps.
  - destruct (inv_code k Hinv) as (c' & Hc' & Hi). by apply (yields_lists k c); replace c with c' by congruence.
  - simpl. case_decide; [by rewrite app_nil_r|done].
Qed.

Lemma call_wakeups k c kx : inv k → wakeups k → legal k c → cd k (running k) = Some [] → prepared k c kx →
  wakeups (put_code kx (running k) (call_code (running k) c)).
Proof.
  intros Hinv Hw Hlg Hcd Hp. pose proof Hinv as [Hk Hn _]. pose proof (prepared_same_run k c kx Hp) as [Er _].
  set (k' := put_code kx (running k) (call_code (running k) c)).
  assert (ready_list k' = ready_list k) as Erd by (destruct Hp as [| | | | |c kx Hsv]; try done; apply Hsv).
  assert (∀ s, loopers k' s = loopers k s) as Hl.
  { intros s. unfold loopers. change (running k') with (running kx). rewrite Er, Erd. apply total_ext.
    intros t Ht. assert (is_Some (threads kx !! running k)) as Hr by (rewrite <- Er; apply (prepared_names k c); done).
    destruct (decide (t = running k)) as [->|E].
    - rewrite (waiting_no k) by (rewrite Hcd; by intros []). apply waiting_no. unfold k'.
      rewrite cd_put_code, decide_True by done. apply static_not_loop, call_static.
    - apply waiting_cd. unfold k'. rewrite cd_put_code, decide_False by done.
      rewrite (prepared_code k c kx t Hinv Hlg Hp); [done|]. apply elem_of_cons in Ht as [?|Ht]; [done|].
      apply (lo_ready _ _ Hk) in Ht as [Ht _]. by eapply st_is_Some. }
  assert (∀ s x, semas k' !! s = Some x → semas k !! s = Some x ∨ waiters x = [] ∧ 0 ≤ value x < 2 ^ 32) as Hs.
  { intros s x. change (semas k') with (semas kx). clear k' Erd Hl. destruct Hp as [s' v|l|c|c l w ws Hws Hh|t prio fpage Ht0 Hpr|c kx Hsv]; simpl; auto.
    - intros [[_ <-]|[_ ?]]%lookup_insert_Some; [right; split; [done|apply Hlg]|by left].
    - intros [[_ <-]|[_ ?]]%lookup_insert_Some; [by right|by left].
    - intros [[_ <-]|[_ ?]]%lookup_insert_Some; [by right|by left].
    - intros [[_ <-]|[_ [[_ <-]|[_ [[_ <-]|[_ ?]]%lookup_insert_Some]]%lookup_insert_Some]]%lookup_insert_Some; auto.
      all: by right.
    - rewrite (sv_semas _ _ Hsv). by left. }
  intros s x Hx. rewrite Hl. destruct (Hs s x Hx) as [Hx'|[-> ?]]; [by apply Hw|done].
Qed.

Lemma stepped_wakeups k k' : inv k → wakeups k → stepped k k' → wakeups k'.
Proof.
  intros Hinv Hw [i rest Hc Hr|c kx Hcd Hni Hlg Hp ->|Hl Ht].
  - pose proof (result_keeps k i rest k' Hinv Hc Hr) as Hkp. destruct Hr as [(k0 & Hev & Hsv) _ _ _].
    apply (wakeups_same _ _ Hsv), (event_wakeups k i rest); try done.
    by apply (keeps_same k k' k0); [|symmetry].
  - by apply call_wakeups.
  - by apply (ticked_wakeups k).
Qed.

(** ** Locks

    A thread owns a lock from the moment it takes the semaphore until it
    gives it back: it is the holder, or it is about to become the holder, or
    it is no longer and has still to release the semaphore. *)
Definition pending (c : list instr) (l : Z) : Prop := ISetHolder l ∈ c ∨ ILockUp l ∈ c.
Definition pends (k : kernel) (t l : Z) : Prop := match cd k t with Some c => pending c l | None => False end.
Definition owns (k : kernel) (t l : Z) : Prop := t ≠ 0 ∧ holders k !! l = Some t ∨ pends k t l.

Record lock_ok (k : kernel) (l : Z) (x : semaphore) : Prop := {
  lk_owner : value x = 1 ∧ (∀ t, ¬ owns k t l) ∨ value x = 0 ∧ ∃ t, ∀ u, owns k u l ↔ u = t;
  lk_pends t : pends k t l → holders k !! l = Some 0;
  lk_holder t : holders k !! l = Some t → t = 0 ∨ is_Some (threads k !! t)
}.
Definition locks_ok (k : kernel) : Prop := ∀ l x, is_Some (holders k !! l) → semas k !! lock_sema l = Some x → lock_ok k l x.

Lemma lock_ext k k' l x x' : holders k' !! l = holders k !! l → (∀ t, pends k' t l ↔ pends k t l) →
  (∀ t, is_Some (threads k !! t) → is_Some (threads k' !! t)) → value x' = value x → lock_ok k l x → lock_ok k' l x'.
Proof.
  intros Hh Hp Ht Hv [Ho Hpn Hhd].
  assert (∀ t, owns k' t l ↔ owns k t l) as Hown by (intros t; unfold owns; by rewrite Hh, Hp).
  split.
  - rewrite Hv. destruct Ho as [[? Ho]|[? (t & Ho)]]; [left|right].
    + split; [done|]. intros t. by rewrite Hown.
    + split; [done|]. exists t. intros u. by rewrite Hown.
  - intros t. rewrite Hp, Hh. apply Hpn.
  - intros t. rewrite Hh. intros Hx. destruct (Hhd t Hx); auto.
Qed.

Lemma pending_cons j c l : pending (j :: c) l ↔ (j = ISetHolder l ∨ j = ILockUp l) ∨ pending c l.
Proof. unfold pending. rewrite !elem_of_cons. naive_solver. Qed.
Lemma pending_plain js c l : Forall plain js → pending (js ++ c) l ↔ pending c l.
Proof.
  induction 1 as [|j js Hj _ IH]; [done|]. simpl. rewrite pending_cons, IH.
  split; [|auto]. intros [[->| ->]|?]; done.
Qed.
Lemma pending_static c l : Forall (λ i, ¬ dynamic i) c → ¬ pending c l.
Proof. intros Hc [H|H]; rewrite Forall_forall in Hc; by apply (Hc _ H). Qed.
Lemma pending_idle c l : idle_code c → ¬ pending c l.
Proof.
  induction c as [|i c IH]; [done|]. intros Hi. rewrite pending_cons.
  destruct i; simpl in Hi; try done; [naive_solver|destruct c; [|done]..]; intros [[?|?]|[H|H]]; (done || by apply elem_of_nil in H).
Qed.

Lemma keeps_pends k k' t l : keeps k k' → t ≠ running k → pends k' t l ↔ pends k t l.
Proof. intros Hkp Ht. unfold pends. by rewrite (kp_cd _ _ Hkp). Qed.

Lemma client_not_lock k s l : client_sema k s → is_Some (holders k !! l) → lock_sema l ≠ s.
Proof. intros [_ Hn] [h Hl] <-. unfold lock_sema in Hn. replace (l + 4 - 4) with l in Hn by lia. congruence. Qed.

Section Locks.
Context (k : kernel) (i : instr) (rest : list instr) (k' : kernel) (c' : list instr).
Hypothesis Hinv : inv k.
Hypothesis Hlk : locks_ok k.
Hypothesis Hc : cd k (running k) = Some (i :: rest).
Hypothesis Hkp : keeps k k'.
Hypothesis Hc' : cd k' (running k) = Some c'.

Lemma run_nonzero : running k ≠ 0.
Proof. destruct (no_run _ (in_names _ Hinv)) as [th Hth]. apply (lo_magic _ _ (in_lists _ Hinv) _ th Hth). Qed.

Lemma pends_run l : pends k (running k) l ↔ pending (i :: rest) l.
Proof. unfold pends. by rewrite Hc. Qed.
Lemma pends_run' l : pends k' (running k) l ↔ pending c' l.
Proof. unfold pends. by rewrite Hc'. Qed.

(** The lock is not concerned. *)
Lemma lock_same l x x' : holders k' !! l = holders k !! l → (pending c' l ↔ pending (i :: rest) l) →
  value x' = value x → lock_ok k l x → lock_ok k' l x'.
Proof.
  intros Hh Hp. apply lock_ext; [done| |intros t; by rewrite (kp_threads _ _ Hkp)].
  intros t. destruct (decide (t = running k)) as [->|]; [by rewrite pends_run, pends_run'|by apply keeps_pends].
Qed.

(** No lock is concerned. *)
Lemma code_locks : holders k' = holders k → (∀ l, pending c' l ↔ pending (i :: rest) l) →
  (∀ s x', semas k' !! s = Some x' → ∃ x, semas k !! s = Some x ∧ (value x' = value x ∨ client_sema k s)) → locks_ok k'.
Proof.
  intros Hh Hp Hs l x' Hl Hx'. rewrite Hh in Hl. destruct (Hs _ _ Hx') as (x & Hx & Hv).
  apply (lock_same l x); [by rewrite Hh|done| |by apply Hlk].
  destruct Hv as [?|Hcl]; [done|]. by destruct (client_not_lock k (lock_sema l) l).
Qed.

(** One lock is: the running thread becomes or stays its owner, or gives it up. *)
Lemma one_lock l0 : (∀ l, l ≠ l0 → holders k' !! l = holders k !! l ∧ (pending c' l ↔ pending (i :: rest) l)) →
  (∀ l x', l ≠ l0 → is_Some (holders k !! l) → semas k' !! lock_sema l = Some x' →
     ∃ x, semas k !! lock_sema l = Some x ∧ value x' = value x) →
  (∀ x', semas k' !! lock_sema l0 = Some x' → lock_ok k' l0 x') → locks_ok k'.
Proof.
  intros Hoth Hs H0 l x' Hl Hx'. destruct (decide (l = l0)) as [->|Hne]; [by apply H0|].
  destruct (Hoth l Hne) as [Hh Hp]. rewrite Hh in Hl. destruct (Hs l x' Hne Hl Hx') as (x & Hx & Hv).
  apply (lock_same l x); [done|done|done|by apply Hlk].
Qed.

(** The owner is the running thread before the step. *)
Lemma owner_run l x : owns k (running k) l → is_Some (holders k !! l) → semas k !! lock_sema l = Some x →
  value x = 0 ∧ ∀ u, owns k u l ↔ u = running k.
Proof.
  intros Ho Hl Hx. destruct (lk_owner _ _ _ (Hlk l x Hl Hx)) as [[_ Hno]|[Hv (t & Ht)]]; [by destruct (Hno (running k))|].
  split; [done|]. by apply Ht in Ho as ->.
Qed.

Lemma becomes_owner l x' : (∀ u, owns k u l → u = running k) → value x' = 0 →
  (holders k' !! l = Some 0 ∧ pending c' l ∨ holders k' !! l = Some (running k) ∧ ¬ pending c' l) → lock_ok k' l x'.
Proof.
  intros Hu Hv Hh. assert (∀ t, pends k' t l → t = running k ∧ pending c' l) as Hp.
  { intros t Ht. destruct (decide (t = running k)) as [->|Hne]; [by rewrite pends_run' in Ht|].
    rewrite (keeps_pends k k') in Ht by done. destruct Hne. apply Hu. by right. }
  split.
  - right. split; [done|]. exists (running k). intros u. split.
    + intros [[Hu0 Hx]|Hx]; [|by apply Hp in Hx as [? _]]. destruct Hh as [[Hh _]|[Hh _]]; congruence.
    + intros ->. destruct Hh as [[_ Hpc]|[Hh _]]; [right; by apply pends_run'|left; split; [apply run_nonzero|done]].
  - intros t Ht. apply Hp in Ht as [_ Ht]. by destruct Hh as [[? _]|[_ ?]].
  - intros t Ht. destruct Hh as [[Hh _]|[Hh _]]; [left; congruence|right]. replace t with (running k) by congruence.
    apply (kp_threads _ _ Hkp), Hinv.
Qed.

Lemma gives_up l x' : (∀ u, owns k u l → u = running k) → value x' = 1 → holders k' !! l = Some 0 →
  ¬ pending c' l → lock_ok k' l x'.
Proof.
  intros Hu Hv Hh Hpc. assert (∀ t, ¬ pends k' t l) as Hp.
  { intros t Ht. destruct (decide (t = running k)) as [->|Hne]; [by rewrite pends_run' in Ht|].
    rewrite (keeps_pends k k') in Ht by done. destruct Hne. apply Hu. by right. }
  split.
  - left. split; [done|]. intros t [[Ht Hx]|Hx]; [congruence|by apply (Hp t)].
  - intros t Ht. by destruct (Hp t).
  - intros t Ht. left. congruence.
Qed.
End Locks.

Lemma downs_sema k i s lk : instr_ok k i → downs i s lk → sema_of k s lk.
Proof. by intros Hi; destruct 1. Qed.

Lemma lock_sema_inj l l' : lock_sema l = lock_sema l' → l = l'.
Proof. unfold lock_sema. lia. Qed.

Lemma pending_same i j rest l : plain i ∨ (∃ w, i = IUnblock w) ∨ (∃ s o lk, i = IDownLoop s o lk) →
  plain j ∨ (∃ s o lk, j = IDownLoop s o lk) → pending (j :: rest) l ↔ pending (i :: rest) l.
Proof.
  intros Hi Hj. rewrite !pending_cons. assert (¬ (i = ISetHolder l ∨ i = ILockUp l)) by (intros [->| ->]; naive_solver).
  assert (¬ (j = ISetHolder l ∨ j = ILockUp l)) by (intros [->| ->]; naive_solver). tauto.
Qed.

Section LockEvents.
Context (k : kernel) (i : instr) (rest : list instr) (k' : kernel).
Hypothesis Hinv : inv k.
Hypothesis Hlk : locks_ok k.
Hypothesis Hc : cd k (running k) = Some (i :: rest).
Hypothesis Hkp : keeps k k'.
Hypothesis Hok : code_ok k (i :: rest).

Lemma static_rest l : not_level i → ¬ pending rest l.
Proof. intros Hi. apply pending_static. apply (shape_static i); [apply Hok|done]. Qed.

Lemma down_locks s x lk : downs i s lk → semas k !! s = Some x → value x ≠ 0 →
  cd k' (running k) = Some (got lk rest) → holders k' = holders k →
  semas k' = <[s := Sema (value x - 1) (waiters x)]> (semas k) → locks_ok k'.
Proof.
  intros Hd Hx Hv Hc' Hh Hs. assert (not_level i) as Hi by (by eapply downs_not_level).
  assert (sema_of k s lk) as Hso by (eapply downs_sema; [|done]; apply (instr_head_ok _ _ _ Hok)).
  assert (∀ l, ¬ pending (i :: rest) l) as Hnp.
  { intros l. rewrite pending_cons. intros [[->| ->]|Hp]; [by inversion Hd..|by apply (static_rest l Hi)]. }
  destruct lk as [l0|]; simpl in Hso, Hc'.
  - destruct Hso as [-> [[h Hl0] _]]. apply (one_lock k i rest k' _ Hlk Hc Hkp Hc' l0).
    + intros l Hne. rewrite Hh, pending_cons. split; [done|]. split; [|by intros ?%Hnp].
      intros [[[= ->]|?]|Hp]; [done|done|by apply static_rest in Hp].
    + intros l x' Hne Hl. rewrite Hs, lookup_insert_ne by (intros ?%lock_sema_inj; done). eauto.
    + intros x'. rewrite Hs, lookup_insert_eq. intros [= <-].
      destruct (lk_owner _ _ _ (Hlk l0 x (mk_is_Some _ _ Hl0) Hx)) as [[Hv1 Hno]|[? _]]; [|done].
      apply (becomes_owner k k' (ISetHolder l0 :: rest) Hinv Hkp Hc').
      * intros u Hu. by destruct (Hno u).
      * simpl. lia.
      * left. rewrite Hh, Hl0. split; [|rewrite pending_cons; by auto].
        destruct (decide (h = 0)) as [->|Hh0]; [done|]. destruct (Hno h). by left.
  - apply (code_locks k i rest k' rest Hlk Hc Hkp Hc' Hh).
    + intros l. split; [by intros ?%(static_rest l Hi)|by intros ?%Hnp].
    + intros s' x'. rewrite Hs. intros [[<- <-]|[_ Hx']]%lookup_insert_Some; eauto.
Qed.

Lemma up_locks s x ws : ups i s → semas k !! s = Some x → cd k' (running k) = Some rest → holders k' = holders k →
  semas k' = <[s := Sema (u32 (value x + 1)) ws]> (semas k) → locks_ok k'.
Proof.
  intros Hu Hx Hc' Hh Hs. assert (not_level i) as Hi by (by destruct Hu).
  pose proof (instr_head_ok _ _ _ Hok) as Hio. pose proof (static_rest) as Hsr. destruct Hu as [s|l0]; simpl in Hio.
  - apply (code_locks k _ rest k' rest Hlk Hc Hkp Hc' Hh).
    + intros l. rewrite pending_cons. naive_solver.
    + intros s' x'. rewrite Hs. intros [[<- <-]|[_ Hx']]%lookup_insert_Some; eauto.
  - destruct Hio as [Hl0 _].
    assert (pends k (running k) l0) as Hp by (unfold pends; rewrite Hc, pending_cons; auto).
    destruct (owner_run k Hlk l0 x) as [Hv Ho]; [by right|done|done|].
    apply (one_lock k _ rest k' rest Hlk Hc Hkp Hc' l0).
    + intros l Hne. rewrite Hh, pending_cons. split; [done|]. naive_solver.
    + intros l x' Hne Hl. rewrite Hs, lookup_insert_ne by (intros ?%lock_sema_inj; done). eauto.
    + intros x'. rewrite Hs, lookup_insert_eq. intros [= <-].
      apply (gives_up k k' rest Hkp Hc').
      * intros u. apply Ho.
      * simpl. by rewrite Hv.
      * rewrite Hh. exact (lk_pends _ _ _ (Hlk l0 x Hl0 Hx) _ Hp).
      * by apply Hsr.
Qed.

Lemma hold_locks l0 : i = ISetHolder l0 → cd k' (running k) = Some rest →
  holders k' = <[l0 := running k]> (holders k) → semas k' = semas k → locks_ok k'.
Proof.
  intros E Hc' Hh Hs. pose proof (instr_head_ok _ _ _ Hok) as Hio. pose proof (static_rest) as Hsr.
  rewrite E in Hio, Hsr. destruct Hio as [Hl0 [x Hx]].
  assert (pends k (running k) l0) as Hp by (unfold pends; rewrite Hc, E, pending_cons; auto).
  destruct (owner_run k Hlk l0 x) as [Hv Ho]; [by right|done|done|].
  apply (one_lock k _ rest k' rest Hlk Hc Hkp Hc' l0).
  - intros l Hne. rewrite Hh, lookup_insert_ne, pending_cons, E by done. split; [done|]. naive_solver.
  - intros l x'. rewrite Hs. eauto.
  - intros x'. rewrite Hs. intros Hx'. apply (becomes_owner k k' rest Hinv Hkp Hc').
    + intros u. apply Ho.
    + congruence.
    + right. rewrite Hh, lookup_insert_eq. split; [done|]. by apply Hsr.
Qed.

Lemma release_locks l0 : i = IRelease l0 → holders k !! l0 = Some (running k) →
  cd k' (running k) = Some (ILockUp l0 :: rest) → holders k' = <[l0 := 0]> (holders k) → semas k' = semas k → locks_ok k'.
Proof.
  intros E Hl0 Hc' Hh Hs. pose proof (instr_head_ok _ _ _ Hok) as Hio. rewrite E in Hio. destruct Hio as [_ [x Hx]].
  destruct (owner_run k Hlk l0 x) as [Hv Ho]; [left; split; [by apply run_nonzero|done]|by eauto|done|].
  apply (one_lock k _ rest k' (ILockUp l0 :: rest) Hlk Hc Hkp Hc' l0).
  - intros l Hne. rewrite Hh, lookup_insert_ne, !pending_cons, E by done. split; [done|]. naive_solver.
  - intros l x'. rewrite Hs. eauto.
  - intros x'. rewrite Hs. intros Hx'. apply (becomes_owner k k' (ILockUp l0 :: rest) Hinv Hkp Hc').
    + intros u. apply Ho.
    + congruence.
    + left. rewrite Hh, lookup_insert_eq, pending_cons. auto.
Qed.
End LockEvents.

Lemma locks_same k k' : same_view k k' → locks_ok k → locks_ok k'.
Proof.
  intros Hsv Hlk l x. rewrite (sv_holders _ _ Hsv), (sv_semas _ _ Hsv). intros Hl Hx.
  apply (lock_ext k k' l x x); [by rewrite (sv_holders _ _ Hsv)| | |done|by apply Hlk].
  - intros t. unfold pends. by rewrite (sv_cd _ _ Hsv).
  - intros t. by apply sv_some.
Qed.

Lemma event_locks k i rest k' : inv k → locks_ok k → cd k (running k) = Some (i :: rest) →
  event k i rest k' → keeps k k' → locks_ok k'.
Proof.
  intros Hinv Hlk Hc Hev Hkp. pose proof Hinv as [Hk Hn _].
  assert ((∃ l, i = ISetHolder l ∨ i = IRelease l) ∨ (∃ s lk, downs i s lk) ∨ (∃ s, ups i s) → code_ok k (i :: rest)) as Hok.
  { intros Hi. destruct (inv_head k i rest Hinv Hc) as [[_ ?]|[_ Hi']]; [done|].
    destruct Hi as [(l & [->| ->])|[(s & lk & Hd)|(s & Hu)]]; [done|done|by destruct Hd|by destruct Hu]. }
  assert (is_Some (threads k !! running k)) as Hr by apply Hn.
  assert (∀ c, is_Some (threads (put_code k (running k) c) !! running k)) as Hrc by (intros c; by apply alter_is_Some).
  assert (∀ c, cd (put_code k (running k) c) (running k) = Some c) as Hput
    by (intros c; rewrite cd_put_code by done; by rewrite decide_True).
  assert (∀ c w x, cd (put_status (put_code k (running k) c) w x) (running k) = Some c) as Hput'
    by (intros c w x; by rewrite cd_put_status).
  destruct Hev as [js Hp Hjs Hij|s x lk Hdn Hx Hv|l ->|l -> Hh|s x Hup Hx Hwt|s x w ws Hup Hx Hwt|w ->
    |s x lk old n l Hdn Hx Hv Hch|old n l -> Hch|n l -> Hch|n l -> Hri Hrest Hch].
  - apply (code_locks k i rest _ (js ++ rest) Hlk Hc Hkp); [done|done| |eauto].
    intros l. by rewrite pending_plain, (pending_plain [i] rest) by (done || by repeat constructor).
  - apply (down_locks k i rest _ Hinv Hlk Hc Hkp (Hok ltac:(eauto)) s x lk); try done; apply Hput.
  - apply (hold_locks k _ rest _ Hinv Hlk Hc Hkp (Hok ltac:(eauto)) l); try done; apply Hput.
  - apply (release_locks k _ rest _ Hinv Hlk Hc Hkp (Hok ltac:(eauto)) l); try done; apply Hput.
  - apply (up_locks k i rest _ Hlk Hc Hkp (Hok ltac:(eauto)) s x []); try done; apply Hput.
  - apply (up_locks k i rest _ Hlk Hc Hkp (Hok ltac:(eauto)) s x ws); try done; apply Hput'.
  - apply (code_locks k _ rest _ rest Hlk Hc Hkp); [apply Hput'|done| |eauto].
    intros l. rewrite pending_cons. naive_solver.
  - apply (code_locks k i rest _ (IDownLoop s old lk :: rest) Hlk Hc Hkp); [|done| |].
    + rewrite cd_switch. apply Hput'.
    + intros l'. apply pending_same; [|eauto]. destruct Hdn; simpl; eauto 6.
    + intros s' x'. simpl. intros [[<- <-]|[_ Hx']]%lookup_insert_Some; eauto.
  - apply (code_locks k _ rest _ (ISetLevel old :: rest) Hlk Hc Hkp); [rewrite cd_switch; apply Hput'|done| |eauto].
    intros l'. apply pending_same; simpl; auto.
  - apply (code_locks k _ rest _ rest Hlk Hc Hkp); [rewrite cd_switch; apply Hput'|done| |eauto].
    intros l'. rewrite pending_cons. naive_solver.
  - apply (code_locks k _ rest _ [IHlt] Hlk Hc Hkp); [rewrite cd_switch; apply Hput'|done| |eauto].
    intros l'. rewrite Hrest. apply pending_same; simpl; auto.
Qed.

Lemma ticked_locks k k' : inv k → locks_ok k → ticked k k' → locks_ok k'.
Proof.
  intros Hinv Hlk Htk. pose proof (ticked_keeps k k' Hinv Htk) as Hkp.
  destruct Htk as [Hsv _ _|c n l Hc Hch Hsv _ _]; [by apply (locks_same k)|].
  intros l' x. rewrite (kp_holders _ _ Hkp), (sv_semas _ _ Hsv). intros Hl Hx.
  apply (lock_ext k k' l' x x); [by rewrite (sv_holders _ _ Hsv)| | |done|by apply Hlk].
  - intros t. destruct (decide (t = running k)) as [->|]; [|by apply keeps_pends].
    unfold pends. rewrite Hc, (sv_cd _ _ Hsv), cd_switch. unfold yields.
    change (cd (w_ready ?a ?b) (running k)) with (cd b (running k)).
    rewrite cd_put_status, cd_put_code, decide_True by (done || apply Hinv). rewrite pending_cons. naive_solver.
  - intros t. apply (kp_threads _ _ Hkp).
Qed.

(** No thread is about to hold a lock that does not exist. *)
Lemma pends_lock k t l : inv k → pends k t l → is_Some (holders k !! l).
Proof.
  intros [Hk Hn _] Hp. unfold pends in Hp. destruct (cd k t) as [c|] eqn:Hc; [|done].
  destruct (decide (t = idle_thread k)) as [->|Hne].
  - destruct (lo_idle _ _ Hk) as (c' & Hc' & Hi & _). replace c' with c in Hi by congruence. by apply pending_idle in Hp.
  - destruct (no_code _ Hn t c Hc Hne) as [Hf _]. rewrite Forall_forall in Hf. destruct Hp as [H|H]; apply Hf in H; apply H.
Qed.

Lemma call_pends k c kx t l : inv k → legal k c → cd k (running k) = Some [] → prepared k c kx →
  pends (put_code kx (running k) (call_code (running k) c)) t l ↔ pends k t l.
Proof.
  intros Hinv Hlg Hcd Hp. pose proof (prepared_same_run k c kx Hp) as [Er _].
  assert (is_Some (threads kx !! running k)) as Hr by (rewrite <- Er; apply (prepared_names k c); done).
  assert (¬ pending [] l) as Hnil by (intros [H|H]; by apply elem_of_nil in H).
  unfold pends. rewrite cd_put_code by done. case_decide as E.
  { subst t. rewrite Hcd. split; intros Hx; [|done]. by apply pending_static in Hx; [|apply call_static]. }
  destruct (threads k !! t) as [th|] eqn:Ht; [by rewrite (prepared_code k c kx t Hinv Hlg Hp)|].
  assert (cd k t = None) as Hn by (unfold cd; by rewrite Ht). rewrite Hn.
  destruct Hp as [| | | |t' prio fpage Ht0 Hpr|c kx Hsv]; try by (unfold cd; simpl; rewrite Ht).
  - change (cd (created k t' prio fpage) t) with (cd (add_thread k t' (new_thread t' prio fpage)) t).
    rewrite cd_add. case_decide as E'; [|by rewrite Hn]. simpl. rewrite pending_cons. naive_solver.
  - by rewrite (sv_cd _ _ Hsv), Hn.
Qed.

Lemma call_locks k c kx : inv k → locks_ok k → legal k c → cd k (running k) = Some [] → prepared k c kx →
  locks_ok (put_code kx (running k) (call_code (running k) c)).
Proof.
  intros Hinv Hlk Hlg Hcd Hp. pose proof Hinv as [Hk Hn _].
  pose proof (prepared_same_run k c kx Hp) as [Er _]. pose proof (prepared_grows k c kx Hlg Hp) as Hg.
  set (k' := put_code kx (running k) (call_code (running k) c)).
  assert (∀ t l, pends k' t l ↔ pends k t l) as Hpd by (intros t l; by apply call_pends).
  assert (∀ l x, is_Some (holders k !! l) → semas k' !! lock_sema l = Some x → holders k' !! l = holders k !! l →
    semas k !! lock_sema l = Some x → lock_ok k' l x) as Hsame.
  { intros l x Hl _ Hh Hx. apply (lock_ext k k' l x x); [done|by intros t|intros t Ht|done|by apply Hlk].
    apply alter_is_Some. by apply (gr_threads _ _ Hg). }
  assert (∀ s l, quiet k s → is_Some (holders k !! l) → s ≠ lock_sema l) as Hq.
  { intros s l [Hs _] [h Hh] ->. unfold lock_sema in Hs. replace (l + 4 - 4) with l in Hs by lia. congruence. }
  intros l x Hl Hx. change (holders k') with (holders kx) in Hl, Hsame. change (semas k') with (semas kx) in Hx, Hsame.
  destruct Hp as [s v|l0|c|c l0 w ws Hws Hh|t prio fpage Ht0 Hpr|c kx Hsv]; simpl in Hl, Hx, Hsame.
  - apply Hsame; try done. rewrite lookup_insert_ne in Hx; [done|]. apply Hq; [apply Hlg|done].
  - destruct (decide (l = l0)) as [->|Hne].
    + rewrite lookup_insert_eq in Hx. injection Hx as <-. destruct Hlg as [Hnl _].
      assert (∀ t, ¬ pends k' t l0) as Hnp by (intros t Ht; apply Hpd, (pends_lock k t l0 Hinv) in Ht as [? ?]; congruence).
      assert (holders k' !! l0 = Some 0) as Hh by (simpl; by rewrite lookup_insert_eq). split.
      * left. split; [done|]. intros t [[? ?]|Ht]; [congruence|by apply (Hnp t)].
      * intros t Ht. by destruct (Hnp t).
      * intros t. rewrite Hh. intros [= <-]. by left.
    + rewrite lookup_insert_ne in Hl by done. pose proof Hx as Hx0.
      rewrite lookup_insert_ne in Hx by (intros ?%lock_sema_inj; done). apply Hsame; try done. by rewrite lookup_insert_ne.
  - by apply Hsame.
  - apply Hsame; try done. rewrite lookup_insert_ne in Hx; [done|]. apply Hq; [apply Hlg|done].
  - destruct Hlg as (_ & Q1 & Q2 & Q3). apply Hsame; try done.
    rewrite !lookup_insert_ne in Hx by (by apply Hq). done.
  - rewrite (sv_holders _ _ Hsv) in Hl. apply Hsame; try done; [apply (f_equal (.!! l) (sv_holders _ _ Hsv))|].
    by rewrite (sv_semas _ _ Hsv) in Hx.
Qed.

Lemma stepped_locks k k' : inv k → locks_ok k → stepped k k' → locks_ok k'.
Proof.
  intros Hinv Hw [i rest Hc Hr|c kx Hcd Hni Hlg Hp ->|Hl Ht].
  - pose proof (result_keeps k i rest k' Hinv Hc Hr) as Hkp. destruct Hr as [(k0 & Hev & Hsv) _ _ _].
    apply (locks_same _ _ Hsv), (event_locks k i rest); try done.
    by apply (keeps_same k k' k0); [|symmetry].
  - by apply call_locks.
  - by apply (ticked_locks k).
Qed.

(** ** Reachable states *)

(** A state in which the scheduler has been started. *)
Definition started (k : kernel) : Prop := inv k ∧ wakeups k ∧ locks_ok k.

Lemma step_started k k' : started k → step k k' → started k'.
Proof.
  intros (Hinv & Hw & Hl) Hs. apply (step_stepped k k' Hinv) in Hs.
  split; [by apply (stepped_inv k)|]. split; [by apply (stepped_wakeups k)|by apply (stepped_locks k)].
Qed.

Lemma reach_started k0 k : started k0 → rtc step k0 k → started k.
Proof. intros H0. induction 1 as [k|k k1 k2 Hs _ IH]; [done|]. apply IH. by apply (step_started k). Qed.


(** C14. No wake-up is lost: in every reachable state, if threads wait for a
    semaphore, then its value is at most the number of running or ready
    threads that are in the loop of [sema_down] on it. *)
Theorem no_lost_wakeup k0 k s x : started k0 → rtc step k0 k → semas k !! s = Some x → waiters x ≠ [] →
  0 ≤ value x ≤ loopers k s.
Proof.
  intros H0 Hr Hx Hne. destruct (reach_started k0 k H0 Hr) as (_ & Hw & _). destruct (Hw s x Hx) as [? Hv].
  specialize (Hv Hne). lia.
Qed.

(** C13. Mutual exclusion: in every reachable state the semaphore of a lock is
    1 and no thread owns the lock, or it is 0 and exactly one thread owns it;
    to own is to be the holder or to be between the semaphore operation and
    the assignment of the holder. *)
Theorem lock_mutual_exclusion k0 k l x : started k0 → rtc step k0 k → is_Some (holders k !! l) →
  semas k !! lock_sema l = Some x →
  value x = 1 ∧ (∀ t, ¬ owns k t l) ∨ value x = 0 ∧ ∃ t, ∀ u, owns k u l ↔ u = t.
Proof. intros H0 Hr Hl Hx. destruct (reach_started k0 k H0 Hr) as (_ & _ & Hlk). apply (Hlk l x Hl Hx). Qed.

(** ** The booted kernel *)

Definition boot_main : Z := 0xc000e000.
Definition boot_idle : Z := 0xc0102000.
Definition boot_kernel : kernel :=
  match booted boot_main boot_idle 0xc000eff0 0xc0103000 with Ret (_, k) => k | Fail _ => reset_kernel end.

Definition boot_thread_main : thread :=
  Thread 1 THREAD_RUNNING (boot_main + PGSIZE) PRI_DEFAULT 0 0 [boot_idle] 0 THREAD_MAGIC false [].
Definition boot_thread_idle : thread :=
  Thread 2 THREAD_BLOCKED (boot_idle + PGSIZE - 44) PRI_MIN 0 boot_main [] 0xc0103000 THREAD_MAGIC false [IHlt].

Lemma boot_returns : booted boot_main boot_idle 0xc000eff0 0xc0103000 = Ret ((), boot_kernel).
Proof. vm_compute. reflexivity. Qed.

Lemma boot_threads : threads boot_kernel = <[boot_main := boot_thread_main]> {[boot_idle := boot_thread_idle]}.
Proof. vm_compute. reflexivity. Qed.
Lemma boot_lists : ready_list boot_kernel = [] ∧ all_list boot_kernel = [boot_main; boot_idle] ∧
  running boot_kernel = boot_main ∧ idle_thread boot_kernel = boot_idle ∧ level boot_kernel = INTR_ON ∧
  holders boot_kernel = {[tid_lock := 0]} ∧ conds boot_kernel = ∅.
Proof. vm_compute. repeat split. Qed.
Lemma boot_semas : map_Forall (λ s x, waiters x = [] ∧ 0 ≤ value x < 2 ^ 32) (semas boot_kernel).
Proof. refine (bool_decide_unpack _ _). vm_compute. exact I. Qed.
Lemma boot_clients : semas boot_kernel !! lock_sema tid_lock = Some (Sema 1 []) ∧
  is_Some (semas boot_kernel !! child_list_sema boot_main) ∧ is_Some (semas boot_kernel !! child_list_sema boot_idle).
Proof. vm_compute. eauto. Qed.

Lemma boot_thread t th : threads boot_kernel !! t = Some th →
  t = boot_main ∧ th = boot_thread_main ∨ t = boot_idle ∧ th = boot_thread_idle.
Proof. rewrite boot_threads. intros [[<- <-]|[_ [<- <-]%lookup_singleton_Some]]%lookup_insert_Some; auto. Qed.
Lemma boot_lookup : threads boot_kernel !! boot_main = Some boot_thread_main ∧
  threads boot_kernel !! boot_idle = Some boot_thread_idle.
Proof. vm_compute. eauto. Qed.

Lemma boot_distinct : boot_main ≠ boot_idle ∧ boot_main ≠ 0 ∧ boot_idle ≠ 0.
Proof. by vm_compute. Qed.
Lemma boot_not_lock : child_list_sema boot_main - 4 ≠ tid_lock ∧ child_list_sema boot_idle - 4 ≠ tid_lock.
Proof. by vm_compute. Qed.
#[local] Opaque boot_kernel boot_main boot_idle.

Lemma boot_st t x : st boot_kernel t = Some x ↔ t = boot_main ∧ x = THREAD_RUNNING ∨ t = boot_idle ∧ x = THREAD_BLOCKED.
Proof.
  destruct boot_lookup as [Hm Hi]. unfold st. split.
  - intros (th & Hth & ->)%fmap_Some. apply boot_thread in Hth as [[-> ->]|[-> ->]]; auto.
  - intros [[-> ->]|[-> ->]]; [by rewrite Hm|by rewrite Hi].
Qed.
Lemma boot_cd t c : cd boot_kernel t = Some c ↔ t = boot_main ∧ c = [] ∨ t = boot_idle ∧ c = [IHlt].
Proof.
  destruct boot_lookup as [Hm Hi]. unfold cd. split.
  - intros (th & Hth & ->)%fmap_Some. apply boot_thread in Hth as [[-> ->]|[-> ->]]; auto.
  - intros [[-> ->]|[-> ->]]; [by rewrite Hm|by rewrite Hi].
Qed.
Lemma boot_no_loop t s : ¬ at_loop (cd boot_kernel t) s.
Proof. destruct (cd boot_kernel t) as [c|] eqn:Hc; [|by intros []]. by apply boot_cd in Hc as [[_ ->]|[_ ->]]; intros []. Qed.

Lemma boot_lists_ok : lists_ok (Some (running boot_kernel)) boot_kernel.
Proof.
  destruct boot_lists as (Hr & Ha & Hrun & Hi & _), boot_distinct as (Hne & ? & ?). split; rewrite ?Hr, ?Ha, ?Hrun, ?Hi; clear Hr Ha Hrun Hi.
  - intros t. rewrite boot_st. naive_solver.
  - constructor.
  - intros t. rewrite elem_of_nil, boot_st. naive_solver.
  - intros s x Hx. apply boot_semas in Hx as [-> _]. split; [constructor|]. intros t. rewrite elem_of_nil.
    split; [done|]. intros [_ Hl]. by apply boot_no_loop in Hl.
  - apply NoDup_cons. split; [|apply NoDup_singleton]. by rewrite list_elem_of_singleton.
  - intros t. rewrite elem_of_cons, list_elem_of_singleton. setoid_rewrite boot_st. naive_solver.
  - exists [IHlt]. split; [apply boot_cd; auto|]. split; [done|]. rewrite boot_st. naive_solver.
  - intros t th Hth. by apply boot_thread in Hth as [[-> ->]|[-> ->]].
  - intros p c t Hc. apply boot_cd in Hc as [[_ ->]|[_ ->]]; intros Hin; exfalso; by apply elem_of_nil in Hin.
  - intros p c Hc. apply boot_cd in Hc as [[_ ->]|[_ ->]]; constructor.
  - intros p q c c' t Hc _. apply boot_cd in Hc as [[_ ->]|[_ ->]]; intros Hin; exfalso; by apply elem_of_nil in Hin.
Qed.

Lemma boot_names_ok : names_ok boot_kernel.
Proof.
  destruct boot_lists as (_ & _ & Hrun & Hi & _ & Hh & Hcd), boot_clients as (Ht & Hm & Hid), boot_lookup as [Hlm Hli].
  split; rewrite ?Hrun, ?Hi, ?Hcd; clear Hrun Hi Hcd.
  - rewrite Hlm. eauto.
  - intros t c Hc Hne. apply boot_cd in Hc as [[_ ->]|[E _]]; [|by destruct (Hne E)].
    split; [constructor|exact I].
  - intros t [th Hth]. unfold client_sema. rewrite Hh.
    apply boot_thread in Hth as [[-> _]|[-> _]]; (split; [assumption|]; apply lookup_singleton_ne, not_eq_sym, boot_not_lock).
  - intros c ws w Hc. rewrite lookup_empty in Hc; discriminate Hc.
  - intros l. rewrite Hh. intros [h [<- _]%lookup_singleton_Some]. rewrite Ht. eauto.
  - unfold is_lock. rewrite Hh, Ht, lookup_singleton_eq. eauto.
Qed.

Lemma boot_started : started boot_kernel.
Proof.
  destruct boot_lists as (_ & _ & _ & _ & _ & Hh & _), boot_clients as (Ht & _). split; [|split].
  - split; [apply boot_lists_ok|apply boot_names_ok|]. intros s Hl. destruct (boot_no_loop _ _ Hl).
  - intros s x Hx. apply boot_semas in Hx as [-> Hv]. split; [exact Hv|]. by intros [].
  - intros l x. rewrite Hh. intros [h [<- <-]%lookup_singleton_Some]. rewrite Ht. intros [= <-].
    assert (∀ t, ¬ pends boot_kernel t tid_lock) as Hp.
    { intros t Hp. unfold pends in Hp. destruct (cd boot_kernel t) as [c|] eqn:Hc; [|exact Hp].
      apply boot_cd in Hc as [[_ ->]|[_ ->]]; [destruct Hp as [H|H]; exact (proj1 (elem_of_nil _) H)|].
      exact (pending_idle [IHlt] tid_lock I Hp). }
    assert (holders boot_kernel !! tid_lock = Some 0) as Hl by (rewrite Hh; apply lookup_singleton_eq).
    split.
    + left. split; [reflexivity|]. intros t [[Ht0 Hx]|Hx]; [|exact (Hp t Hx)].
      rewrite Hl in Hx. injection Hx as <-. by apply Ht0.
    + intros t Hx. destruct (Hp t Hx).
    + intros t. rewrite Hl. intros [= <-]. by left.
Qed.

(** From there: the initial thread takes [tid_lock]; it waits for a semaphore. *)
Definition after (m : cmd kernel unit) (k : kernel) : kernel := match m k with Ret (_, k') => k' | Fail _ => k end.
Definition boot_locked : kernel := after (exec_n 2) (after (start_call (CLockAcquire tid_lock)) boot_kernel).
Definition boot_waiting : kernel :=
  after exec (after (start_call (CSemaDown 0xc000e800)) (after (start_call (CSemaInit 0xc000e800 0)) boot_kernel)).

Lemma boot_call c : legal boot_kernel c → start_call c boot_kernel = Ret ((), after (start_call c) boot_kernel) →
  step boot_kernel (after (start_call c) boot_kernel).
Proof.
  intros Hlg He. apply (StepCall _ _ c); [vm_compute; reflexivity|by vm_compute|exact Hlg|exact He].
Qed.

Lemma boot_locked_reach : rtc step boot_kernel boot_locked.
Proof.
  eapply rtc_l; [apply (boot_call (CLockAcquire tid_lock)); [|vm_compute; reflexivity]|].
  { apply (no_tid _ boot_names_ok). }
  eapply rtc_l; [apply StepExec; vm_compute; reflexivity|].
  eapply rtc_l; [apply StepExec; vm_compute; reflexivity|]. vm_compute. apply rtc_refl.
Qed.

Lemma boot_waiting_reach : rtc step boot_kernel boot_waiting.
Proof.
  eapply rtc_l; [apply (boot_call (CSemaInit 0xc000e800 0)); [|vm_compute; reflexivity]|].
  { split; [|lia]. split; [vm_compute; reflexivity|]. intros t. apply boot_no_loop. }
  eapply rtc_l; [apply (StepCall _ _ (CSemaDown 0xc000e800)); [vm_compute; reflexivity|by vm_compute| |vm_compute; reflexivity]|].
  { split; vm_compute; eauto. }
  eapply rtc_l; [apply StepExec; vm_compute; reflexivity|]. vm_compute. apply rtc_refl.
Qed.


Lemma no_lost_wakeup_witness : ∃ x, semas boot_waiting !! 0xc000e800 = Some x ∧ waiters x = [boot_main] ∧
  0 ≤ value x ≤ loopers boot_waiting 0xc000e800.
Proof.
  exists (Sema 0 [boot_main]). split; [vm_compute; reflexivity|]. split; [reflexivity|].
  apply (no_lost_wakeup boot_kernel boot_waiting 0xc000e800 (Sema 0 [boot_main]) boot_started boot_waiting_reach);
    [vm_compute; reflexivity|discriminate].
Defined.

Lemma lock_mutual_exclusion_witness : owns boot_locked boot_main tid_lock ∧ ∃ t, ∀ u, owns boot_locked u tid_lock ↔ u = t.
Proof.
  split; [left; split; [by vm_compute|vm_compute; reflexivity]|].
  destruct (lock_mutual_exclusion boot_kernel boot_locked tid_lock (Sema 0 []) boot_started boot_locked_reach)
    as [[Hv _]|[_ Ho]]; [vm_compute; eauto|vm_compute; reflexivity|discriminate Hv|exact Ho].
Defined.
