(* ===== verification/Fair.v ===== *)
(** * Time slices and round robin

    The timer ends the slice of a thread after TIME_SLICE ticks and the ready
    list is a queue, so that a ready thread runs after as many slices as
    threads are before it. *)

From S2P Require Import Prelude Vaddr Thread Sched Reach.

(** ** Turns

    An operation is steady when the thread keeps the processor: its slice goes
    on and threads are only added behind the ready list.  Other operations
    end with a turn of the first thread of the ready list. *)
Definition keeps_cpu (k k' : kernel) : Prop :=
  running k' = running k ∧ ∃ ws, ready_list k' = ready_list k ++ ws.
Definition steady {A} (m : cmd kernel A) : Prop := ∀ k a k', m k = Ret (a, k') →
  thread_ticks k' = thread_ticks k ∧ keeps_cpu k k'.
Definition turn (k k' : kernel) : Prop :=
  ∃ ws, match ready_list k ++ ws with n :: l => running k' = n ∧ ready_list k' = l | [] => True end.
Definition turns {A} (m : cmd kernel A) : Prop := ∀ k a k', m k = Ret (a, k') →
  thread_ticks k' = thread_ticks k ∧ keeps_cpu k k' ∨ thread_ticks k' = 0 ∧ turn k k'.

Lemma keeps_cpu_trans k1 k2 k3 : keeps_cpu k1 k2 → keeps_cpu k2 k3 → keeps_cpu k1 k3.
Proof.
  intros [E1 [ws1 R1]] [E2 [ws2 R2]]. split; [congruence|]. exists (ws1 ++ ws2). by rewrite R2, R1, app_assoc.
Qed.
Lemma keeps_cpu_same k k' : running k' = running k → ready_list k' = ready_list k → keeps_cpu k k'.
Proof. intros E R. split; [done|]. exists []. by rewrite app_nil_r. Qed.
Lemma keeps_turn k1 k2 k3 : keeps_cpu k1 k2 → turn k2 k3 → turn k1 k3.
Proof. intros [_ [ws1 R1]] [ws2 H]. exists (ws1 ++ ws2). by rewrite app_assoc, <- R1. Qed.

Lemma steady_bind {A B} (m : cmd kernel A) (f : A → cmd kernel B) : steady m → (∀ a, steady (f a)) → steady (mbind f m).
Proof.
  intros Hm Hf k b k' He. apply cmd_bind_Ret in He as (a & k1 & H1 & H2).
  apply Hm in H1 as [? ?]. apply Hf in H2 as [? ?]. split; [congruence|by eapply keeps_cpu_trans].
Qed.
Lemma turns_bind {A B} (m : cmd kernel A) (f : A → cmd kernel B) : steady m → (∀ a, turns (f a)) → turns (mbind f m).
Proof.
  intros Hm Hf k b k' He. apply cmd_bind_Ret in He as (a & k1 & H1 & H2).
  apply Hm in H1 as [? ?]. apply Hf in H2 as [[? ?]|[? ?]]; [left|right].
  - split; [congruence|by eapply keeps_cpu_trans].
  - split; [done|by eapply keeps_turn].
Qed.
Lemma steady_turns {A} (m : cmd kernel A) : steady m → turns m.
Proof. intros Hm k a k' He. left. by apply (Hm k a). Qed.

Lemma steady_same {A} (m : cmd kernel A) :
  (∀ k a k', m k = Ret (a, k') → thread_ticks k' = thread_ticks k ∧ running k' = running k ∧ ready_list k' = ready_list k) →
  steady m.
Proof. intros Hm k a k' He. destruct (Hm k a k' He) as (? & ? & ?). split; [done|by apply keeps_cpu_same]. Qed.

Lemma steady_ret {A} (a : A) : steady (mret a).
Proof. apply steady_same. by intros k x k' [= _ <-]. Qed.
Lemma steady_get : steady get.
Proof. apply steady_same. by intros k x k' [= _ <-]. Qed.
Lemma steady_lift {A} (o : outcome A) : steady (lift o).
Proof. apply steady_same. intros k x k'. unfold lift. destruct o; [by intros [= _ <-]|done]. Qed.
Lemma steady_assert b : steady (assert b).
Proof. apply steady_lift. Qed.
Lemma steady_modify f : (∀ k, thread_ticks (f k) = thread_ticks k ∧ running (f k) = running k ∧ ready_list (f k) = ready_list k) →
  steady (modify f).
Proof. intros Hf. apply steady_same. intros k x k' [= _ <-]. apply Hf. Qed.
Lemma steady_set_thread t g : steady (set_thread t g).
Proof. apply steady_same. intros k x k'. unfold set_thread. destruct (threads k !! t); [by intros [= _ <-]|done]. Qed.
Lemma steady_look {A} (f : kernel → option A) : steady (λ k, let* x := access (f k) in Ret (x, k)).
Proof. apply steady_same. intros k x k'. destruct (f k); simpl; [by intros [= _ <-]|done]. Qed.
Lemma steady_level : steady intr_get_level.
Proof. apply steady_same. by intros k x k' [= _ <-]. Qed.
Lemma steady_running : steady running_thread.
Proof. apply steady_same. by intros k x k' [= _ <-]. Qed.

(** To the back of the queue. *)
Lemma steady_push {A} t (c : kernel → bool) (f : kernel → cmd kernel A) : (∀ k, steady (f k)) →
  steady (let* k := get in let* _ := (if c k then set_ready (ready_list k ++ [t]) else mret ()) in f k).
Proof.
  intros Hf k a k' He. rewrite cget in He. destruct (c k).
  - rewrite (cstep _ _ _ () (w_ready (ready_list k ++ [t]) k)) in He by done. apply Hf in He as [? Hk].
    split; [done|]. eapply keeps_cpu_trans; [|exact Hk]. split; [done|]. by exists [t].
  - exact (Hf k k a k' He).
Qed.
Lemma turns_push {A} t (c : kernel → bool) (f : kernel → cmd kernel A) : (∀ k, turns (f k)) →
  turns (let* k := get in let* _ := (if c k then set_ready (ready_list k ++ [t]) else mret ()) in f k).
Proof.
  intros Hf k a k' He. rewrite cget in He. destruct (c k).
  - rewrite (cstep _ _ _ () (w_ready (ready_list k ++ [t]) k)) in He by done.
    assert (keeps_cpu k (w_ready (ready_list k ++ [t]) k)) as Hk by (split; [done|by exists [t]]).
    apply Hf in He as [[? Hk2]|[? Ht]]; [left|right].
    + split; [done|]. by eapply keeps_cpu_trans.
    + split; [done|]. by eapply keeps_turn.
  - exact (Hf k k a k' He).
Qed.

Create HintDb turns.
#[local] Hint Resolve steady_ret steady_get steady_lift steady_assert steady_set_thread steady_look steady_level
  steady_running : turns.
#[local] Hint Extern 1 (steady (modify _)) => apply steady_modify; by intros : turns.

Ltac turns :=
  unfold get_thread, get_sema, get_holder, get_cond, push_code, set_all, set_idle, set_next_tid, set_sema,
    set_holder, set_cond, intr_disable, intr_set_level;
  repeat first
    [ solve [auto with turns]
    | match goal with |- steady (mbind _ _) => apply steady_bind; [|intros] end
    | match goal with |- turns (mbind _ _) => apply turns_bind; [solve [turns]|intros] end
    | case_match
    | match goal with |- turns _ => apply steady_turns end ].

Lemma steady_is_thread t : steady (is_thread t).
Proof. unfold is_thread. turns. Qed.
#[local] Hint Resolve steady_is_thread : turns.
Lemma steady_current : steady thread_current.
Proof. unfold thread_current. turns. Qed.
#[local] Hint Resolve steady_current : turns.

Lemma tail_turn k a k' : thread_schedule_tail k = Ret (a, k') →
  thread_ticks k' = 0 ∧ running k' = running k ∧ ready_list k' = ready_list k.
Proof.
  unfold thread_schedule_tail. intros He. rewrite (cstep _ _ _ (running k) k), (cstep _ _ _ (level k) k) in He by done.
  apply cmd_bind_Ret in He as (? & k1 & Ha & He). apply assert_inv in Ha as [_ ->].
  apply cmd_bind_Ret in He as (? & k1 & Hs & He). unfold set_thread in Hs.
  destruct (threads k !! running k); [injection Hs as _ <-|done]. by injection He as _ <-.
Qed.

Lemma schedule_turn k a k' : schedule k = Ret (a, k') → thread_ticks k' = 0 ∧ turn k k'.
Proof.
  unfold schedule. intros He. rewrite (cstep _ _ _ (running k) k) in He by done.
  assert (∃ n l, next_thread_to_run k = Ret (n, w_ready l k) ∧
    (ready_list k = n :: l ∨ ready_list k = [] ∧ l = [])) as (n & l & Hn & Hl).
  { unfold next_thread_to_run. rewrite cget. destruct (ready_list k) as [|n l] eqn:E.
    - exists (idle_thread k), []. split; [|by right]. destruct k; simpl in *; by subst.
    - exists n, l. split; [done|by left]. }
  rewrite (cstep _ _ _ _ _ Hn) in He. rewrite (cstep _ _ _ (level k) (w_ready l k)) in He by done.
  apply cmd_bind_Ret in He as (? & k1 & Ha & He). apply assert_inv in Ha as [_ ->].
  apply cmd_bind_Ret in He as (th & k1 & Hg & He). unfold get_thread in Hg. simpl in Hg.
  destruct (threads k !! running k); [injection Hg as _ <-|done].
  apply cmd_bind_Ret in He as (? & k1 & Ha & He). apply assert_inv in Ha as [_ ->].
  apply cmd_bind_Ret in He as (b & k1 & Hb & He).
  assert (k1 = w_ready l k) as ->.
  { unfold is_thread in Hb. destruct (n =? 0); [by injection Hb as _ <-|].
    apply cmd_bind_Ret in Hb as (? & k2 & Hg & Hb). unfold get_thread in Hg.
    destruct (threads (w_ready l k) !! n); [injection Hg as _ <-|done]. by injection Hb as _ <-. }
  apply cmd_bind_Ret in He as (? & k1 & Ha & He). apply assert_inv in Ha as [_ ->].
  apply cmd_bind_Ret in He as (? & k1 & Hr & He). apply tail_turn in He as (Ht & Er & El).
  split; [done|]. assert (running k1 = n ∧ ready_list k1 = l) as [E1 E2].
  { destruct (Z.eqb_spec (running k) n); simpl in Hr; injection Hr as _ <-; done. }
  exists []. rewrite app_nil_r. destruct Hl as [->|[-> _]]; [|done]. split; congruence.
Qed.

Lemma turns_schedule : turns schedule.
Proof. intros k a k' He. right. by apply (schedule_turn k a). Qed.
#[local] Hint Resolve turns_schedule : turns.
Lemma turns_block : turns thread_block.
Proof. unfold thread_block. turns. Qed.
#[local] Hint Resolve turns_block : turns.
Lemma steady_unblock t : steady (thread_unblock t).
Proof.
  unfold thread_unblock. do 5 (apply steady_bind; [by turns|intros]).
  apply (steady_push t (λ _, true) (λ _, let* _ := set_thread t (with_status THREAD_READY) in intr_set_level _)).
  intros k. turns.
Qed.
#[local] Hint Resolve steady_unblock : turns.
Lemma turns_down s old lk : turns (down_loop s old lk).
Proof. unfold down_loop. turns. Qed.
#[local] Hint Resolve turns_down : turns.
Lemma steady_up s : steady (sema_up s).
Proof. unfold sema_up. turns. Qed.
Lemma steady_held l : steady (lock_held_by_current_thread l).
Proof. unfold lock_held_by_current_thread. turns. Qed.
Lemma steady_frame t n : steady (alloc_frame t n).
Proof. unfold alloc_frame. turns. Qed.
Lemma steady_try s : steady (sema_try_down s).
Proof. unfold sema_try_down. turns. Qed.
#[local] Hint Resolve steady_up steady_held steady_frame steady_try : turns.

(** [thread_yield] ends the slice. *)
Lemma yield_turn k a k' : thread_yield k = Ret (a, k') → thread_ticks k' = 0 ∧ turn k k'.
Proof.
  unfold thread_yield. intros He.
  apply cmd_bind_Ret in He as (cur & k1 & H1 & He). apply steady_current in H1 as [_ H1].
  apply cmd_bind_Ret in He as (old & k2 & H2 & He). injection H2 as _ <-. rewrite cget in He.
  apply cmd_bind_Ret in He as (? & k3 & H3 & He).
  apply cmd_bind_Ret in He as (? & k4 & H4 & He). apply steady_set_thread in H4 as [_ H4].
  apply cmd_bind_Ret in He as (? & k5 & H5 & He). apply steady_set_thread in H5 as [_ H5].
  apply schedule_turn in He as [? Ht]. split; [done|].
  eapply keeps_turn; [exact H1|]. eapply keeps_turn; [|eapply keeps_turn; [exact H4|eapply keeps_turn; [exact H5|exact Ht]]].
  destruct (negb _) in H3; injection H3 as _ <-; [split; [done|by eexists]|by apply keeps_cpu_same].
Qed.
Lemma turns_yield : turns thread_yield.
Proof. intros k a k' He. right. by apply (yield_turn k a). Qed.
#[local] Hint Resolve turns_yield : turns.

Lemma turns_exec : turns exec.
Proof.
  unfold exec. do 2 (apply turns_bind; [by turns|intros]). case_match; [by turns|].
  apply turns_bind; [by turns|intros]. unfold exec_instr, idle_start, idle_block, idle_wait, cond_signal, cond_broadcast, lock_acquire, lock_try_acquire, lock_release, sema_down, thread_exit. turns.
Qed.

Lemma steady_call c : steady (start_call c).
Proof.
  unfold start_call, init_thread, sema_init, lock_init, cond_init, cond_wait_enter, thread_set_priority, sema_init. turns.
Qed.

(** ** Slices *)

Definition slice_ok (k : kernel) : Prop := 0 ≤ thread_ticks k < TIME_SLICE.

(** A tick counts, or it ends the slice. *)
Lemma tick_slice k k' : slice_ok k → timer_tick k = Ret ((), k') →
  thread_ticks k' = thread_ticks k + 1 ∧ thread_ticks k' < TIME_SLICE ∧ keeps_cpu k k' ∨
  thread_ticks k = TIME_SLICE - 1 ∧ thread_ticks k' = 0 ∧ turn k k'.
Proof.
  unfold slice_ok, TIME_SLICE. intros Hs He. unfold timer_tick in He. apply cmd_bind_Ret in He as (y & k1 & Ht & He).
  unfold thread_tick in Ht.
  apply cmd_bind_Ret in Ht as (t & k2 & Hc & Ht). apply steady_current in Hc as [Htk Hcpu].
  apply cmd_bind_Ret in Ht as (th & k3 & Hg & Ht). apply (steady_look (λ k, threads k !! t)) in Hg as [Htk' Hcpu'].
  rewrite cget in Ht. apply cmd_bind_Ret in Ht as (? & k4 & Hset & Ht). injection Ht as <- <-.
  assert (thread_ticks k3 = thread_ticks k) as Hk3 by congruence.
  assert (u32 (thread_ticks k + 1) = thread_ticks k + 1) as Hu by (unfold u32; rewrite Z.mod_small; lia).
  cbv zeta in Hset, He. rewrite Hk3, Hu in Hset, He.
  assert (thread_ticks k4 = thread_ticks k + 1 ∧ keeps_cpu k k4) as [Hk4 Hcpu4].
  { assert (keeps_cpu k k3) as H3 by (by eapply keeps_cpu_trans).
    repeat case_match; injection Hset as _ <-; (split; [done|]; eapply keeps_cpu_trans; [exact H3|by apply keeps_cpu_same]). }
  destruct (TIME_SLICE <=? thread_ticks k + 1) eqn:E; unfold TIME_SLICE in E.
  - right. apply yield_turn in He as [? ?]. split; [bool_prop; lia|]. split; [done|]. by eapply keeps_turn.
  - left. injection He as <-. split; [done|]. split; [bool_prop; lia|done].
Qed.

Lemma step_turn k k' : slice_ok k → step k k' →
  slice_ok k' ∧ (thread_ticks k ≤ thread_ticks k' ∧ keeps_cpu k k' ∨ turn k k').
Proof.
  unfold slice_ok. intros Hs [He|c _ _ _ He|_ He].
  - apply turns_exec in He as [[-> ?]|[-> ?]]; (split; [unfold TIME_SLICE in *; lia|]); [left; split; [lia|done]|by right].
  - apply steady_call in He as [-> ?]. split; [done|]. left. split; [lia|done].
  - apply tick_slice in He as [(-> & ? & ?)|(_ & -> & ?)]; [| |done].
    + split; [lia|]. left. split; [lia|done].
    + split; [unfold TIME_SLICE; lia|by right].
Qed.

Lemma reach_slice k0 k : slice_ok k0 → rtc step k0 k → slice_ok k.
Proof. intros H0. induction 1 as [k|k k1 k2 Hs _ IH]; [done|]. apply IH. by apply (step_turn k k1 H0 Hs). Qed.

(** ** Traces

    A run with its number of ticks and the states it goes through. *)
Inductive trace : kernel → nat → list kernel → Prop :=
| TrEnd k : trace k 0 [k]
| TrStep k k' n tr : step k k' → trace k' n tr → trace k n (k :: tr)
| TrTick k k' n tr : level k = INTR_ON → timer_tick k = Ret ((), k') → trace k' n tr → trace k (S n) (k :: tr).

Lemma trace_head k n tr : trace k n tr → k ∈ tr.
Proof. destruct 1; set_solver. Qed.

(** A thread in the queue comes nearer with each turn. *)
Lemma turn_queue k k' t l1 l2 : turn k k' → ready_list k = l1 ++ t :: l2 →
  match l1 with [] => running k' = t | _ :: l1' => ∃ l3, ready_list k' = l1' ++ t :: l3 end.
Proof.
  intros [ws H] E. rewrite E in H. destruct l1 as [|u l1]; simpl in H; [apply H|]. destruct H as [_ ->].
  exists (l2 ++ ws). by rewrite <- app_assoc.
Qed.
Lemma stay_queue k k' t l1 l2 : keeps_cpu k k' → ready_list k = l1 ++ t :: l2 → ∃ l3, ready_list k' = l1 ++ t :: l3.
Proof. intros [_ [ws ->]] ->. exists (l2 ++ ws). by rewrite <- app_assoc. Qed.

Lemma queue_runs k n tr t l1 l2 : trace k n tr → slice_ok k → ready_list k = l1 ++ t :: l2 →
  TIME_SLICE * (Z.of_nat (length l1) + 1) ≤ Z.of_nat n + thread_ticks k → ∃ k1, k1 ∈ tr ∧ running k1 = t.
Proof.
  unfold slice_ok. intros Htr. revert l1 l2. induction Htr as [k|k k' n tr Hs Htr IH|k k' n tr Hl He Htr IH];
    intros l1 l2 Hsl Hq Hn; unfold TIME_SLICE in *.
  - lia.
  - destruct (step_turn k k' Hsl Hs) as [Hsl' [[Hle Hk]|Ht]]; unfold slice_ok, TIME_SLICE in Hsl'.
    + destruct (stay_queue k k' t l1 l2 Hk Hq) as [l3 Hq']. destruct (IH l1 l3 Hsl' Hq') as (k1 & ? & ?); [lia|]. set_solver.
    + pose proof (turn_queue k k' t l1 l2 Ht Hq) as Hq'. destruct l1 as [|u l1].
      * exists k'. split; [|done]. apply trace_head in Htr. set_solver.
      * destruct Hq' as [l3 Hq']. destruct (IH l1 l3 Hsl' Hq') as (k1 & ? & ?); [simpl in Hn; lia|]. set_solver.
  - destruct (tick_slice k k' Hsl He) as [(Htk & Hlt & Hk)|(Htk & Htk' & Ht)]; unfold TIME_SLICE in *.
    + destruct (stay_queue k k' t l1 l2 Hk Hq) as [l3 Hq']. destruct (IH l1 l3) as (k1 & ? & ?); [lia|done|lia|]. set_solver.
    + pose proof (turn_queue k k' t l1 l2 Ht Hq) as Hq'. destruct l1 as [|u l1].
      * exists k'. split; [|done]. apply trace_head in Htr. set_solver.
      * destruct Hq' as [l3 Hq']. destruct (IH l1 l3) as (k1 & ? & ?); [lia|done|simpl in Hn; lia|]. set_solver.
Qed.

(** C15. Every ready thread runs: in a run from a reachable state, once the
    timer has ticked TIME_SLICE times for the thread and for each thread that
    is before it in the ready list, the run has gone through a state in which
    the thread is running. *)
Theorem ready_thread_runs k0 k t l1 l2 n tr : slice_ok k0 → rtc step k0 k → ready_list k = l1 ++ t :: l2 →
  trace k n tr → TIME_SLICE * (Z.of_nat (length l1) + 1) ≤ Z.of_nat n → ∃ k1, k1 ∈ tr ∧ running k1 = t.
Proof.
  intros H0 Hr Hq Htr Hn. pose proof (reach_slice k0 k H0 Hr) as Hs.
  apply (queue_runs k n tr t l1 l2 Htr Hs Hq). unfold slice_ok in Hs. lia.
Qed.

(** The initial thread creates another one. *)
Definition boot_child : Z := 0xc0104000.
Definition boot_created : kernel := after (exec_n 11) (after (start_call (CCreate boot_child PRI_DEFAULT 0xc0105000)) boot_kernel).

Lemma exec_n_steps n k k' : exec_n n k = Ret ((), k') → rtc step k k'.
Proof.
  revert k. induction n as [|n IH]; intros k He; [injection He as <-; constructor|].
  simpl in He. apply cmd_bind_Ret in He as ([] & k1 & H1 & He). eapply rtc_l; [by apply StepExec|by apply IH].
Qed.

Lemma boot_created_reach : rtc step boot_kernel boot_created.
Proof.
  eapply rtc_l; [apply (boot_call (CCreate boot_child PRI_DEFAULT 0xc0105000)); [|vm_compute; reflexivity]|].
  { split; [vm_compute; reflexivity|].
    assert (∀ s, holders boot_kernel !! (s - 4) = None → quiet boot_kernel s) as Hq
      by (intros s Hs; split; [exact Hs|]; intros t; apply boot_no_loop).
    split; [|split]; apply Hq; vm_compute; reflexivity. }
  apply (exec_n_steps 11). vm_compute. reflexivity.
Qed.

Definition boot_tick (n : nat) : kernel := Nat.iter n (after timer_tick) boot_created.

Lemma ready_thread_runs_witness : ready_list boot_created = [boot_child] ∧
  ∃ k1, k1 ∈ [boot_created; boot_tick 1; boot_tick 2; boot_tick 3; boot_tick 4] ∧ running k1 = boot_child.
Proof.
  split; [vm_compute; reflexivity|].
  apply (ready_thread_runs boot_kernel boot_created boot_child [] [] 4).
  - vm_compute. split; [discriminate|reflexivity].
  - exact boot_created_reach.
  - vm_compute. reflexivity.
  - apply (TrTick _ (boot_tick 1)); [vm_compute; reflexivity..|].
    apply (TrTick _ (boot_tick 2)); [vm_compute; reflexivity..|].
    apply (TrTick _ (boot_tick 3)); [vm_compute; reflexivity..|].
    apply (TrTick _ (boot_tick 4)); [vm_compute; reflexivity..|]. apply TrEnd.
  - vm_compute. discriminate.
Defined.
