(* ===== verification/Fs.v ===== *)
(** * The file system (filesys/: inode.c, free-map.c, file.c, directory.c, filesys.c)

    The definitions; [Inode], [Extents], [Files], [Directory], [Filesys],
    [Calls] and [Format] hold the theorems.  The parts call each other in a circle (an inode is created with
    sectors of the free map, the free map is kept in a file, a file is an open
    inode), so that they share one state: the device, the free map, and the
    objects on the kernel heap by their addresses.

    [malloc] hands out a new address each time or fails; [mem n] says whether
    allocation number [n] succeeds.  That a block does not overlap another
    allocated one is the theorem of threads/malloc.c.  Memory is not reused
    here, so that [free] has no effect on this state. *)

From S2P Require Import Prelude Bitmap Block.

Definition INODE_MAGIC : Z := 0x494e4f44.
Definition FREE_MAP_SECTOR : Z := 0.
Definition ROOT_DIR_SECTOR : Z := 1.
Definition NAME_MAX : Z := 14.

Record inode_disk := InodeDisk {
  start : Z;                 (* First data sector. *)
  d_length : Z;              (* File size in bytes. *)
  d_magic : Z
}.

Record inode := Inode {
  i_sector : Z;              (* Sector number of disk location. *)
  open_cnt : Z;
  removed : bool;
  deny_write_cnt : Z;
  data : inode_disk
}.

Record file := File { f_inode : Z; f_pos : Z; deny_write : bool }.
Record dir := Dir { dir_inode : Z; dir_pos : Z }.

Record fs (D : Type) := Fs {
  device : block D;
  free_map : bitmap;
  free_map_file : Z;         (* 0 when the file is not open *)
  inodes : gmap Z inode;
  open_inodes : list Z;
  open_files : gmap Z file;
  dirs : gmap Z dir;
  brk : Z;                   (* number of the next allocation *)
  mem : Z → bool
}.
Global Arguments Fs {D}.
Global Arguments device {D}.
Global Arguments free_map {D}.
Global Arguments free_map_file {D}.
Global Arguments inodes {D}.
Global Arguments open_inodes {D}.
Global Arguments open_files {D}.
Global Arguments dirs {D}.
Global Arguments brk {D}.
Global Arguments mem {D}.

(** ** The format of a sector with an inode *)

Definition encode_inode (d : inode_disk) : list Z :=
  le4 (start d) ++ le4 (u32 (d_length d)) ++ le4 (d_magic d) ++ replicate 500 0.
Definition decode_inode (bytes : list Z) : outcome inode_disk :=
  let* s := le_word bytes 0 in
  let* l := le_word bytes 4 in
  let* m := le_word bytes 8 in
  Ret (InodeDisk s (s32 l) m).

(** [DIV_ROUND_UP (size, BLOCK_SECTOR_SIZE)] in the arithmetic of [off_t]. *)
Definition bytes_to_sectors (size : Z) : Z := u32 (Z.quot (s32 (size + BLOCK_SECTOR_SIZE - 1)) BLOCK_SECTOR_SIZE).

Section Fs.
Context {D : Type} (ops : block_operations D).

(** ** Access to the state *)

Definition w_device (b : block D) (f : fs D) : fs D :=
  Fs b (free_map f) (free_map_file f) (inodes f) (open_inodes f) (open_files f) (dirs f) (brk f) (mem f).
Definition w_free_map (b : bitmap) (f : fs D) : fs D :=
  Fs (device f) b (free_map_file f) (inodes f) (open_inodes f) (open_files f) (dirs f) (brk f) (mem f).
Definition w_free_map_file (p : Z) (f : fs D) : fs D :=
  Fs (device f) (free_map f) p (inodes f) (open_inodes f) (open_files f) (dirs f) (brk f) (mem f).
Definition w_inodes (m : gmap Z inode) (f : fs D) : fs D :=
  Fs (device f) (free_map f) (free_map_file f) m (open_inodes f) (open_files f) (dirs f) (brk f) (mem f).
Definition w_open_inodes (l : list Z) (f : fs D) : fs D :=
  Fs (device f) (free_map f) (free_map_file f) (inodes f) l (open_files f) (dirs f) (brk f) (mem f).
Definition w_files (m : gmap Z file) (f : fs D) : fs D :=
  Fs (device f) (free_map f) (free_map_file f) (inodes f) (open_inodes f) m (dirs f) (brk f) (mem f).
Definition w_dirs (m : gmap Z dir) (f : fs D) : fs D :=
  Fs (device f) (free_map f) (free_map_file f) (inodes f) (open_inodes f) (open_files f) m (brk f) (mem f).
Definition w_brk (n : Z) (f : fs D) : fs D :=
  Fs (device f) (free_map f) (free_map_file f) (inodes f) (open_inodes f) (open_files f) (dirs f) n (mem f).

(** A new block, or 0 for the null pointer. *)
Definition alloc : cmd (fs D) Z := λ f,
  Ret (if mem f (brk f) then brk f else 0, w_brk (brk f + 1) f).

Definition dev_read (sector : Z) : cmd (fs D) (list Z) := λ f,
  let* (bytes, b) := block_read ops (device f) sector in Ret (bytes, w_device b f).
Definition dev_write (sector : Z) (bytes : list Z) : cmd (fs D) unit := λ f,
  let* b := block_write ops (device f) sector bytes in Ret ((), w_device b f).
Definition map_op {A} (m : bitmap → outcome (A * bitmap)) : cmd (fs D) A := λ f,
  let* (a, b) := m (free_map f) in Ret (a, w_free_map b f).
Definition map_set (m : bitmap → outcome bitmap) : cmd (fs D) unit := λ f,
  let* b := m (free_map f) in Ret ((), w_free_map b f).

Definition get_inode (ip : Z) : cmd (fs D) inode := λ f, let* i := access (inodes f !! ip) in Ret (i, f).
Definition set_inode (ip : Z) (i : inode) : cmd (fs D) unit := modify (λ f, w_inodes (<[ip := i]> (inodes f)) f).
Definition get_file (p : Z) : cmd (fs D) file := λ f, let* x := access (open_files f !! p) in Ret (x, f).
Definition set_file (p : Z) (x : file) : cmd (fs D) unit := modify (λ f, w_files (<[p := x]> (open_files f)) f).
Definition get_dir (p : Z) : cmd (fs D) dir := λ f, let* x := access (dirs f !! p) in Ret (x, f).
Definition set_dir (p : Z) (x : dir) : cmd (fs D) unit := modify (λ f, w_dirs (<[p := x]> (dirs f)) f).

(** ** filesys/inode.c: reading and writing *)

Definition byte_to_sector (i : inode) (pos : Z) : Z :=
  if pos <? d_length (data i) then u32 (start (data i) + u32 (Z.quot pos BLOCK_SECTOR_SIZE)) else u32 (-1).

Definition inode_length (i : inode) : Z := d_length (data i).

(** What to transfer at [offset] with [size] bytes left: the sector, the
    offset in it, the bytes left in it and the number of bytes of the chunk. *)
Definition chunk_at (i : inode) (size offset : Z) : Z * Z * Z * Z :=
  let sector_idx := byte_to_sector i offset in
  let sector_ofs := Z.rem offset BLOCK_SECTOR_SIZE in
  let inode_left := s32 (inode_length i - offset) in
  let sector_left := BLOCK_SECTOR_SIZE - sector_ofs in
  let min_left := if inode_left <? sector_left then inode_left else sector_left in
  let chunk_size := if size <? min_left then size else min_left in
  (sector_idx, sector_ofs, sector_left, chunk_size).

(** A bounce buffer, if there is none yet: false when malloc fails. *)
Definition need_bounce (bounce : bool) : cmd (fs D) bool :=
  if bounce then mret true else let* p := alloc in mret (negb (p =? 0)).

(** The loop of [inode_read_at]; each iteration that goes on transfers a
    byte at least, so that [size + 1] iterations are enough. *)
Fixpoint read_loop (fuel : nat) (ip : Z) (buffer : list Z) (size offset bytes_read : Z) (bounce : bool)
    : cmd (fs D) (Z * list Z) :=
  match fuel with
  | O => lift (Fail OutOfFuel)
  | S fuel =>
      if 0 <? size then
        let* i := get_inode ip in
        let '(sector_idx, sector_ofs, sector_left, chunk_size) := chunk_at i size offset in
        if chunk_size <=? 0 then mret (bytes_read, buffer) else
        if (sector_ofs =? 0) && (chunk_size =? BLOCK_SECTOR_SIZE) then
          let* sector := dev_read sector_idx in
          let* buffer := lift (overwrite buffer bytes_read sector) in
          read_loop fuel ip buffer (size - chunk_size) (s32 (offset + chunk_size)) (bytes_read + chunk_size) bounce
        else
          let* ok := need_bounce bounce in
          if ok : bool then
            let* sector := dev_read sector_idx in
            let* chunk := lift (slice sector sector_ofs chunk_size) in
            let* buffer := lift (overwrite buffer bytes_read chunk) in
            read_loop fuel ip buffer (size - chunk_size) (s32 (offset + chunk_size)) (bytes_read + chunk_size) true
          else mret (bytes_read, buffer)
      else mret (bytes_read, buffer)
  end.

Definition inode_read_at (ip : Z) (buffer : list Z) (size offset : Z) : cmd (fs D) (Z * list Z) :=
  read_loop (S (Z.to_nat size)) ip buffer size offset 0 false.

Fixpoint write_loop (fuel : nat) (ip : Z) (buffer : list Z) (size offset bytes_written : Z) (bounce : bool)
    : cmd (fs D) Z :=
  match fuel with
  | O => lift (Fail OutOfFuel)
  | S fuel =>
      if 0 <? size then
        let* i := get_inode ip in
        let '(sector_idx, sector_ofs, sector_left, chunk_size) := chunk_at i size offset in
        if chunk_size <=? 0 then mret bytes_written else
        if (sector_ofs =? 0) && (chunk_size =? BLOCK_SECTOR_SIZE) then
          let* chunk := lift (slice buffer bytes_written BLOCK_SECTOR_SIZE) in
          let* _ := dev_write sector_idx chunk in
          write_loop fuel ip buffer (size - chunk_size) (s32 (offset + chunk_size)) (bytes_written + chunk_size) bounce
        else
          let* ok := need_bounce bounce in
          if ok : bool then
            let* sector := (if (0 <? sector_ofs) || (chunk_size <? sector_left) then dev_read sector_idx
                            else mret (replicate 512 0)) in
            let* chunk := lift (slice buffer bytes_written chunk_size) in
            let* sector := lift (overwrite sector sector_ofs chunk) in
            let* _ := dev_write sector_idx sector in
            write_loop fuel ip buffer (size - chunk_size) (s32 (offset + chunk_size)) (bytes_written + chunk_size) true
          else mret bytes_written
      else mret bytes_written
  end.

Definition inode_write_at (ip : Z) (buffer : list Z) (size offset : Z) : cmd (fs D) Z :=
  let* i := get_inode ip in
  if negb (deny_write_cnt i =? 0) then mret 0
  else write_loop (S (Z.to_nat size)) ip buffer size offset 0 false.

Definition inode_reopen (ip : Z) : cmd (fs D) Z :=
  if ip =? 0 then mret ip else
  let* i := get_inode ip in
  let* _ := set_inode ip (Inode (i_sector i) (open_cnt i + 1) (removed i) (deny_write_cnt i) (data i)) in
  mret ip.

Definition inode_get_inumber (ip : Z) : cmd (fs D) Z := let* i := get_inode ip in mret (i_sector i).

Definition inode_remove (ip : Z) : cmd (fs D) unit :=
  let* _ := assert (negb (ip =? 0)) in
  let* i := get_inode ip in
  set_inode ip (Inode (i_sector i) (open_cnt i) true (deny_write_cnt i) (data i)).

Definition inode_deny_write (ip : Z) : cmd (fs D) unit :=
  let* i := get_inode ip in
  let* _ := set_inode ip (Inode (i_sector i) (open_cnt i) (removed i) (deny_write_cnt i + 1) (data i)) in
  assert (deny_write_cnt i + 1 <=? open_cnt i).

Definition inode_allow_write (ip : Z) : cmd (fs D) unit :=
  let* i := get_inode ip in
  let* _ := assert (0 <? deny_write_cnt i) in
  let* _ := assert (deny_write_cnt i <=? open_cnt i) in
  set_inode ip (Inode (i_sector i) (open_cnt i) (removed i) (deny_write_cnt i - 1) (data i)).

(** ** filesys/file.c: access at an offset, and bitmaps in files (bitmap.c) *)

Definition file_read_at (p : Z) (buffer : list Z) (size file_ofs : Z) : cmd (fs D) (Z * list Z) :=
  let* x := get_file p in inode_read_at (f_inode x) buffer size file_ofs.
Definition file_write_at (p : Z) (buffer : list Z) (size file_ofs : Z) : cmd (fs D) Z :=
  let* x := get_file p in inode_write_at (f_inode x) buffer size file_ofs.

(** The elements of a bitmap as bytes. *)
Definition bits_bytes (b : bitmap) : list Z := concat (le4 <$> bits b).
Fixpoint words_of (bytes : list Z) : list Z :=
  match bytes with
  | x :: y :: z :: w :: bytes => x + 256 * y + 65536 * z + 16777216 * w :: words_of bytes
  | _ => []
  end.

Definition bitmap_write (b : bitmap) (p : Z) : cmd (fs D) bool :=
  let size := s32 (byte_cnt (bit_cnt b)) in
  let* n := file_write_at p (bits_bytes b) size 0 in mret (n =? size).

Definition bitmap_read (b : bitmap) (p : Z) : cmd (fs D) (bool * bitmap) :=
  if 0 <? bit_cnt b then
    let size := s32 (byte_cnt (bit_cnt b)) in
    let* (n, bytes) := file_read_at p (bits_bytes b) size 0 in
    let words := words_of bytes in
    let last := elem_cnt (bit_cnt b) - 1 in
    let* w := lift (access (zget words last)) in
    let* words := lift (access (zset words last (Z.land w (last_mask b)))) in
    mret (n =? size, Bitmap (bit_cnt b) words)
  else mret (true, b).

(** ** filesys/free-map.c: allocation *)

Definition free_map_allocate (cnt : Z) : cmd (fs D) (option Z) :=
  let* sector := map_op (λ b, bitmap_scan_and_flip b 0 cnt false) in
  if sector =? BITMAP_ERROR then mret None else
  let* f := get in
  if free_map_file f =? 0 then mret (Some sector) else
  let* ok := bitmap_write (free_map f) (free_map_file f) in
  if ok : bool then mret (Some sector) else
  let* _ := map_set (λ b, bitmap_set_multiple b sector cnt false) in
  mret None.

Definition free_map_release (sector cnt : Z) : cmd (fs D) unit :=
  let* f := get in
  let* all := lift (bitmap_all (free_map f) sector cnt) in
  let* _ := assert all in
  let* _ := map_set (λ b, bitmap_set_multiple b sector cnt false) in
  let* f := get in
  let* _ := bitmap_write (free_map f) (free_map_file f) in
  mret ().

(** ** filesys/inode.c: creating, opening and closing *)

(** [n] sectors of zeros from sector [s]. *)
Fixpoint zero_sectors (n : nat) (s : Z) : cmd (fs D) unit :=
  match n with
  | O => mret ()
  | S n => let* _ := dev_write (u32 s) (replicate 512 0) in zero_sectors n (s + 1)
  end.

Definition inode_create (sector length : Z) : cmd (fs D) bool :=
  let* _ := assert (0 <=? length) in
  let* p := alloc in
  if p =? 0 then mret false else
  let sectors := bytes_to_sectors length in
  let* a := free_map_allocate sectors in
  match a with
  | None => mret false
  | Some first =>
      let* _ := dev_write sector (encode_inode (InodeDisk first length INODE_MAGIC)) in
      let* _ := zero_sectors (Z.to_nat sectors) first in
      mret true
  end.

(** The open inode of a sector. *)
Fixpoint find_open (m : gmap Z inode) (l : list Z) (sector : Z) : outcome (option Z) :=
  match l with
  | [] => Ret None
  | ip :: l => let* i := access (m !! ip) in
               if i_sector i =? sector then Ret (Some ip) else find_open m l sector
  end.

Definition inode_open (sector : Z) : cmd (fs D) Z :=
  let* f := get in
  let* found := lift (find_open (inodes f) (open_inodes f) sector) in
  match found with
  | Some ip => inode_reopen ip
  | None =>
      let* ip := alloc in
      if ip =? 0 then mret 0 else
      let* _ := modify (λ f, w_open_inodes (ip :: open_inodes f) f) in
      let* bytes := dev_read sector in
      let* d := lift (decode_inode bytes) in
      let* _ := set_inode ip (Inode sector 1 false 0 d) in
      mret ip
  end.

Definition inode_close (ip : Z) : cmd (fs D) unit :=
  if ip =? 0 then mret () else
  let* i := get_inode ip in
  let* _ := set_inode ip (Inode (i_sector i) (open_cnt i - 1) (removed i) (deny_write_cnt i) (data i)) in
  if open_cnt i - 1 =? 0 then
    let* _ := modify (λ f, w_open_inodes (filter (.≠ ip) (open_inodes f)) f) in
    let* _ := (if removed i then
                 let* _ := free_map_release (i_sector i) 1 in
                 free_map_release (start (data i)) (bytes_to_sectors (d_length (data i)))
               else mret ()) in
    modify (λ f, w_inodes (delete ip (inodes f)) f)
  else mret ().

(** ** filesys/file.c *)

Definition file_open (ip : Z) : cmd (fs D) Z :=
  let* p := alloc in
  if negb (ip =? 0) && negb (p =? 0) then
    let* _ := set_file p (File ip 0 false) in mret p
  else
    let* _ := inode_close ip in mret 0.

Definition file_reopen (p : Z) : cmd (fs D) Z :=
  let* x := get_file p in
  let* ip := inode_reopen (f_inode x) in
  file_open ip.

Definition file_allow_write (p : Z) : cmd (fs D) unit :=
  let* _ := assert (negb (p =? 0)) in
  let* x := get_file p in
  if deny_write x then
    let* _ := set_file p (File (f_inode x) (f_pos x) false) in
    inode_allow_write (f_inode x)
  else mret ().

Definition file_deny_write (p : Z) : cmd (fs D) unit :=
  let* _ := assert (negb (p =? 0)) in
  let* x := get_file p in
  if deny_write x then mret () else
  let* _ := set_file p (File (f_inode x) (f_pos x) true) in
  inode_deny_write (f_inode x).

Definition file_close (p : Z) : cmd (fs D) unit :=
  if p =? 0 then mret () else
  let* _ := file_allow_write p in
  let* x := get_file p in
  let* _ := inode_close (f_inode x) in
  modify (λ f, w_files (delete p (open_files f)) f).

Definition file_get_inode (p : Z) : cmd (fs D) Z := let* x := get_file p in mret (f_inode x).

Definition file_read (p : Z) (buffer : list Z) (size : Z) : cmd (fs D) (Z * list Z) :=
  let* x := get_file p in
  let* (n, buffer) := inode_read_at (f_inode x) buffer size (f_pos x) in
  let* _ := set_file p (File (f_inode x) (s32 (f_pos x + n)) (deny_write x)) in
  mret (n, buffer).

Definition file_write (p : Z) (buffer : list Z) (size : Z) : cmd (fs D) Z :=
  let* x := get_file p in
  let* n := inode_write_at (f_inode x) buffer size (f_pos x) in
  let* _ := set_file p (File (f_inode x) (s32 (f_pos x + n)) (deny_write x)) in
  mret n.

Definition file_length (p : Z) : cmd (fs D) Z :=
  let* _ := assert (negb (p =? 0)) in
  let* x := get_file p in
  let* i := get_inode (f_inode x) in
  mret (inode_length i).

Definition file_seek (p new_pos : Z) : cmd (fs D) unit :=
  let* _ := assert (negb (p =? 0)) in
  let* _ := assert (0 <=? new_pos) in
  let* x := get_file p in
  set_file p (File (f_inode x) new_pos (deny_write x)).

Definition file_tell (p : Z) : cmd (fs D) Z :=
  let* _ := assert (negb (p =? 0)) in
  let* x := get_file p in mret (f_pos x).

(** ** filesys/free-map.c: the file *)

(** [words] are what malloc returned for the elements of the bitmap. *)
Definition free_map_init (words : option (list Z)) : cmd (fs D) unit := λ f,
  let* (p, f) := alloc f in
  let* b := bitmap_create (block_size (device f)) (negb (p =? 0)) words in
  match b with
  | None => Fail Panicked
  | Some b => let* b := bitmap_mark b FREE_MAP_SECTOR in
              let* b := bitmap_mark b ROOT_DIR_SECTOR in
              Ret ((), w_free_map b f)
  end.

Definition free_map_open : cmd (fs D) unit :=
  let* ip := inode_open FREE_MAP_SECTOR in
  let* p := file_open ip in
  let* _ := modify (w_free_map_file p) in
  if p =? 0 then lift (Fail Panicked) else
  let* f := get in
  let* (ok, b) := bitmap_read (free_map f) p in
  let* _ := modify (w_free_map b) in
  if ok : bool then mret () else lift (Fail Panicked).

(** The variable keeps the address of the closed file. *)
Definition free_map_close : cmd (fs D) unit := let* f := get in file_close (free_map_file f).

Definition free_map_create : cmd (fs D) unit :=
  let* f := get in
  let* ok := inode_create FREE_MAP_SECTOR (s32 (bitmap_file_size (free_map f))) in
  if negb ok then lift (Fail Panicked) else
  let* ip := inode_open FREE_MAP_SECTOR in
  let* p := file_open ip in
  let* _ := modify (w_free_map_file p) in
  if p =? 0 then lift (Fail Panicked) else
  let* f := get in
  let* ok := bitmap_write (free_map f) p in
  if ok : bool then mret () else lift (Fail Panicked).

(** ** filesys/directory.c

    An entry is 20 bytes: the sector, 15 bytes of name, and whether it is in
    use.  [junk] is what the stack holds where the function keeps its entry. *)
Definition ENTRY_SIZE : Z := 20.
Context (junk : list Z).

Definition entry_sector (e : list Z) : outcome Z := le_word e 0.
Definition entry_name (e : list Z) : list Z := take 15 (drop 4 e).
Definition entry_in_use (e : list Z) : outcome bool := let* x := access (zget e 19) in Ret (negb (x =? 0)).
Definition set_in_use (e : list Z) (b : bool) : outcome (list Z) := access (zset e 19 (if b then 1 else 0)).

(** [strcmp (s, name) == 0], for the characters [s] of a string and an array
    of bytes. *)
Fixpoint str_eq (s : list Z) (name : list Z) : outcome bool :=
  match name with
  | [] => Fail Fault
  | y :: name =>
      match s with
      | [] => Ret (y =? 0)
      | x :: s => if x =? y then str_eq s name else Ret false
      end
  end.

(** [strlcpy (name, s, sizeof name)]. *)
Definition str_copy (name s : list Z) : outcome (list Z) :=
  overwrite name 0 (take (Z.to_nat NAME_MAX) s ++ [0]).

Definition dir_create (sector entry_cnt : Z) : cmd (fs D) bool :=
  inode_create sector (s32 (entry_cnt * ENTRY_SIZE)).

Definition dir_open (ip : Z) : cmd (fs D) Z :=
  let* p := alloc in
  if negb (ip =? 0) && negb (p =? 0) then
    let* _ := set_dir p (Dir ip 0) in mret p
  else
    let* _ := inode_close ip in mret 0.

Definition dir_open_root : cmd (fs D) Z := let* ip := inode_open ROOT_DIR_SECTOR in dir_open ip.

Definition dir_reopen (p : Z) : cmd (fs D) Z :=
  let* x := get_dir p in
  let* ip := inode_reopen (dir_inode x) in
  dir_open ip.

Definition dir_close (p : Z) : cmd (fs D) unit :=
  if p =? 0 then mret () else
  let* x := get_dir p in
  let* _ := inode_close (dir_inode x) in
  modify (λ f, w_dirs (delete p (dirs f)) f).

Definition dir_get_inode (p : Z) : cmd (fs D) Z := let* x := get_dir p in mret (dir_inode x).

(** The loop over the entries of [lookup]: the entry and its offset.  A
    directory has at most [fuel] entries. *)
Fixpoint lookup_loop (fuel : nat) (ip : Z) (name : list Z) (e : list Z) (ofs : Z)
    : cmd (fs D) (option (list Z * Z)) :=
  match fuel with
  | O => lift (Fail OutOfFuel)
  | S fuel =>
      let* (n, e) := inode_read_at ip e ENTRY_SIZE ofs in
      if n =? ENTRY_SIZE then
        let* used := lift (entry_in_use e) in
        let* same := (if used : bool then lift (str_eq name (entry_name e)) else mret false) in
        if same : bool then mret (Some (e, ofs)) else lookup_loop fuel ip name e (ofs + ENTRY_SIZE)
      else mret None
  end.

(** The number of evaluations of the loop condition: one for each entry and
    one past the end. *)
Definition entry_fuel (i : inode) : nat := S (Z.to_nat (inode_length i / ENTRY_SIZE)).

Definition lookup_entry (p : Z) (name : list Z) : cmd (fs D) (option (list Z * Z)) :=
  let* _ := assert (negb (p =? 0)) in
  let* x := get_dir p in
  let* i := get_inode (dir_inode x) in
  lookup_loop (entry_fuel i) (dir_inode x) name junk 0.

Definition dir_lookup (p : Z) (name : list Z) : cmd (fs D) Z :=
  let* _ := assert (negb (p =? 0)) in
  let* r := lookup_entry p name in
  match r with
  | Some (e, _) => let* s := lift (entry_sector e) in inode_open s
  | None => mret 0
  end.

(** The loop of [dir_add]: the last entry read and the offset of a free slot
    or of the end of the directory. *)
Fixpoint slot_loop (fuel : nat) (ip : Z) (e : list Z) (ofs : Z) : cmd (fs D) (list Z * Z) :=
  match fuel with
  | O => lift (Fail OutOfFuel)
  | S fuel =>
      let* (n, e) := inode_read_at ip e ENTRY_SIZE ofs in
      if n =? ENTRY_SIZE then
        let* used := lift (entry_in_use e) in
        if used : bool then slot_loop fuel ip e (ofs + ENTRY_SIZE) else mret (e, ofs)
      else mret (e, ofs)
  end.

Definition dir_add (p : Z) (name : list Z) (inode_sector : Z) : cmd (fs D) bool :=
  let* _ := assert (negb (p =? 0)) in
  if (zlength name =? 0) || (NAME_MAX <? zlength name) then mret false else
  let* r := lookup_entry p name in
  match r with
  | Some _ => mret false
  | None =>
      let* x := get_dir p in
      let* i := get_inode (dir_inode x) in
      let* (e, ofs) := slot_loop (entry_fuel i) (dir_inode x) junk 0 in
      let* e := lift (set_in_use e true) in
      let* nm := lift (str_copy (entry_name e) name) in
      let* e := lift (overwrite e 4 nm) in
      let* e := lift (overwrite e 0 (le4 inode_sector)) in
      let* n := inode_write_at (dir_inode x) e ENTRY_SIZE ofs in
      mret (n =? ENTRY_SIZE)
  end.

Definition dir_remove (p : Z) (name : list Z) : cmd (fs D) bool :=
  let* _ := assert (negb (p =? 0)) in
  let* r := lookup_entry p name in
  match r with
  | None => let* _ := inode_close 0 in mret false
  | Some (e, ofs) =>
      let* s := lift (entry_sector e) in
      let* ip := inode_open s in
      let* success :=
        (if ip =? 0 then mret false else
         let* e := lift (set_in_use e false) in
         let* x := get_dir p in
         let* n := inode_write_at (dir_inode x) e ENTRY_SIZE ofs in
         if negb (n =? ENTRY_SIZE) then mret false else
         let* _ := inode_remove ip in mret true) in
      let* _ := inode_close ip in
      mret success
  end.

(** The loop of [dir_readdir]. *)
Fixpoint readdir_loop (fuel : nat) (p : Z) (e : list Z) : cmd (fs D) (option (list Z)) :=
  match fuel with
  | O => lift (Fail OutOfFuel)
  | S fuel =>
      let* x := get_dir p in
      let* (n, e) := inode_read_at (dir_inode x) e ENTRY_SIZE (dir_pos x) in
      if n =? ENTRY_SIZE then
        let* _ := set_dir p (Dir (dir_inode x) (s32 (dir_pos x + ENTRY_SIZE))) in
        let* used := lift (entry_in_use e) in
        if used : bool then mret (Some (entry_name e)) else readdir_loop fuel p e
      else mret None
  end.

(** The name that is stored, up to the terminator: [strlcpy] copies that much. *)
Definition dir_readdir (p : Z) : cmd (fs D) (option (list Z)) :=
  let* x := get_dir p in
  let* i := get_inode (dir_inode x) in
  readdir_loop (entry_fuel i) p junk.

(** ** filesys/filesys.c *)

Definition filesys_create (name : list Z) (initial_size : Z) : cmd (fs D) bool :=
  let* p := dir_open_root in
  let* (success, inode_sector) :=
    (if p =? 0 then mret (false, 0) else
     let* a := free_map_allocate 1 in
     match a with
     | None => mret (false, 0)
     | Some s =>
         let* ok := inode_create s initial_size in
         if ok : bool then let* added := dir_add p name s in mret (added, s) else mret (false, s)
     end) in
  let* _ := (if negb success && negb (inode_sector =? 0) then free_map_release inode_sector 1 else mret ()) in
  let* _ := dir_close p in
  mret success.

Definition filesys_open (name : list Z) : cmd (fs D) Z :=
  let* p := dir_open_root in
  let* _ := assert (negb (p =? 0)) in
  let* ip := dir_lookup p name in
  let* _ := dir_close p in
  file_open ip.

Definition filesys_remove (name : list Z) : cmd (fs D) bool :=
  let* p := dir_open_root in
  let* success := (if p =? 0 then mret false else dir_remove p name) in
  let* _ := dir_close p in
  mret success.

Definition do_format : cmd (fs D) unit :=
  let* _ := free_map_create in
  let* ok := dir_create ROOT_DIR_SECTOR 16 in
  if ok : bool then free_map_close else lift (Fail Panicked).

(** [inode_init]. *)
Definition inode_init : cmd (fs D) unit := modify (w_open_inodes []).

(** [dev] is the block device with the role of the file system. *)
Definition filesys_init (dev : option (block D)) (words : option (list Z)) (format : bool) : cmd (fs D) unit :=
  match dev with
  | None => lift (Fail Panicked)
  | Some b =>
  let* _ := modify (w_device b) in
  let* _ := inode_init in
  let* _ := free_map_init words in
  let* _ := (if format then do_format else mret ()) in
  free_map_open
  end.

Definition filesys_done : cmd (fs D) unit := free_map_close.
End Fs.

(** The state before [filesys_init]. *)
Definition no_fs {D} (b : block D) (m : Z → bool) : fs D := Fs b (Bitmap 0 []) 0 ∅ [] ∅ ∅ 1 m.
