(* ===== verification/Inode.v ===== *)
(** * Inodes: reading and writing (filesys/inode.c)

    A file is the bytes of its data sectors.  [inode_read_at] returns them and
    [inode_write_at] changes the bytes of the range and nothing else on the
    device, whatever the offset, the size and the failures of malloc are. *)

From S2P Require Import Prelude Bitmap Block Fs.

(** The number of sectors for [len] bytes. *)
Definition sectors (len : Z) : Z := (len + 511) / 512.

(** What is read from a file of [len] bytes. *)
Definition avail (len size offset : Z) : Z := Z.max 0 (Z.min size (len - offset)).

Lemma sectors_le len : 0 ≤ len → 512 * sectors len < len + 512 ∧ len ≤ 512 * sectors len.
Proof. unfold sectors. intros. div_lia. Qed.

Lemma bytes_to_sectors_eq len : 0 ≤ len < 2 ^ 31 - 512 → bytes_to_sectors len = sectors len.
Proof.
  intros Hl. unfold bytes_to_sectors, sectors, BLOCK_SECTOR_SIZE. rewrite s32_id by lia.
  rewrite Z.quot_div_nonneg by lia. rewrite u32_id; [f_equal; lia|]. div_lia.
Qed.

Section InodeOk.
Context {D : Type} (ops : block_operations D) (ok : D → Prop) (size : Z).
Context (content : D → Z → list Z) `{!DriverOk ops ok size content}.
Notation block_ok := (block_ok ok size).
Notation block_content := (block_content content).
Hypothesis Hsize : size < 2 ^ 32 - 1.

(** ** The bytes of a file *)

Definition fbyte (b : block D) (st j : Z) : Z :=
  default 0 (block_content b (st + j / 512) !! Z.to_nat (j mod 512)).
Definition fdata (b : block D) (st ofs n : Z) : list Z := fbyte b st <$> seqZ ofs n.

Lemma fdata_length b st ofs n : length (fdata b st ofs n) = Z.to_nat n.
Proof. unfold fdata. by rewrite length_fmap, length_seqZ. Qed.

Lemma fdata_lookup b st ofs n k : (k < Z.to_nat n)%nat → fdata b st ofs n !! k = Some (fbyte b st (ofs + Z.of_nat k)).
Proof. intros Hk. unfold fdata. rewrite list_lookup_fmap, lookup_seqZ_lt by lia. done. Qed.

Lemma fdata_app b st ofs n m : 0 ≤ n → 0 ≤ m → fdata b st ofs (n + m) = fdata b st ofs n ++ fdata b st (ofs + n) m.
Proof. intros. unfold fdata. rewrite seqZ_app by lia. apply fmap_app. Qed.

Lemma fdata_ext b b' st st' ofs n : (∀ j, ofs ≤ j < ofs + n → fbyte b' st' j = fbyte b st j) →
  fdata b' st' ofs n = fdata b st ofs n.
Proof.
  intros Hj. unfold fdata. apply list_fmap_ext. intros k x Hx. apply lookup_seqZ in Hx as [-> ?]. apply Hj. lia.
Qed.

Lemma fbyte_ext b b' st j : 0 ≤ j → block_content b' (st + j / 512) = block_content b (st + j / 512) →
  fbyte b' st j = fbyte b st j.
Proof. intros _ E. unfold fbyte. by rewrite E. Qed.

(** A chunk of a sector is a chunk of the file. *)
Lemma sector_chunk b st q o c : block_ok b → 0 ≤ st + q < size → 0 ≤ q → 0 ≤ o → 0 ≤ c → o + c ≤ 512 →
  take (Z.to_nat c) (drop (Z.to_nat o) (block_content b (st + q))) = fdata b st (512 * q + o) c.
Proof.
  intros Hb Hs Hq Ho Hc Hoc. pose proof (block_sector _ _ _ _ b (st + q) Hb Hs) as Hlen.
  apply list_eq. intros k. destruct (decide (k < Z.to_nat c)%nat) as [Hk|Hk].
  - rewrite fdata_lookup by done. rewrite lookup_take_lt, lookup_drop by done. unfold fbyte.
    replace ((512 * q + o + Z.of_nat k) / 512) with q by div_lia.
    replace ((512 * q + o + Z.of_nat k) mod 512) with (o + Z.of_nat k) by div_lia.
    replace (Z.to_nat (o + Z.of_nat k)) with (Z.to_nat o + k)%nat by lia.
    destruct (lookup_lt_is_Some_2 (block_content b (st + q)) (Z.to_nat o + k)) as [x Hx]; [lia|]. by rewrite Hx.
  - rewrite !lookup_ge_None_2; [done|rewrite fdata_length; lia|rewrite length_take; lia].
Qed.

(** ** Inodes and what an operation leaves alone *)

Record extent_ok (d : inode_disk) : Prop := {
  ex_length : 0 ≤ d_length d < 2 ^ 31 - 512;
  ex_start : 0 ≤ start d;
  ex_end : start d + sectors (d_length d) ≤ size
}.

(** Only sectors in [P] change, and memory is taken. *)
Record only_dev (P : Z → Prop) (f f' : fs D) : Prop := {
  od_block : block_ok (device f');
  od_content s : 0 ≤ s < size → ¬ P s → block_content (device f') s = block_content (device f) s;
  od_map : free_map f' = free_map f;
  od_map_file : free_map_file f' = free_map_file f;
  od_inodes : inodes f' = inodes f;
  od_open : open_inodes f' = open_inodes f;
  od_files : open_files f' = open_files f;
  od_dirs : dirs f' = dirs f;
  od_brk : brk f ≤ brk f';
  od_mem : mem f' = mem f
}.

Lemma dev_refl P f : block_ok (device f) → only_dev P f f.
Proof. intros. by split. Qed.
Lemma dev_trans P Q f1 f2 f3 : only_dev P f1 f2 → only_dev Q f2 f3 → only_dev (λ s, P s ∨ Q s) f1 f3.
Proof.
  intros [] []. split; try congruence; [|lia]. intros s Hs HPQ. rewrite od_content1 by tauto. apply od_content0; tauto.
Qed.
Lemma only_weaken (P Q : Z → Prop) f f' : (∀ s, P s → Q s) → only_dev P f f' → only_dev Q f f'.
Proof. intros HPQ []. split; try done. intros s Hs HQ. apply od_content0; naive_solver. Qed.
Lemma dev_mono P f1 f2 f3 : only_dev P f1 f2 → only_dev P f2 f3 → only_dev P f1 f3.
Proof. intros H1 H2. eapply only_weaken; [|by eapply dev_trans]. simpl. tauto. Qed.

Notation reads := (only_dev (λ _, False)).

Lemma only_fdata f f' P st ofs n : only_dev P f f' → 0 ≤ ofs →
  (∀ j, ofs ≤ j < ofs + n → 0 ≤ st + j / 512 < size ∧ ¬ P (st + j / 512)) →
  fdata (device f') st ofs n = fdata (device f) st ofs n.
Proof.
  intros Ho Hofs Hj. apply fdata_ext. intros j Hr. destruct (Hj j Hr). apply fbyte_ext; [lia|]. by apply (od_content _ _ _ Ho).
Qed.

(** Every allocation succeeds. *)
Definition plenty (f : fs D) : Prop := ∀ n, mem f n = true.

(** Steps of the device. *)
Lemma dev_read_ok f s : block_ok (device f) → 0 ≤ s < size →
  ∃ f', dev_read ops s f = Ret (block_content (device f) s, f') ∧ reads f f'.
Proof.
  intros Hb Hs. unfold dev_read. destruct (block_read_ok ops ok size content (device f) s Hb Hs) as (b' & -> & Hb' & Hc).
  simpl. eexists. split; [done|]. split; try done. intros t Ht _. by apply Hc.
Qed.

Lemma dev_write_ok f s bytes : block_ok (device f) → 0 ≤ s < size → length bytes = 512%nat →
  ∃ f', dev_write ops s bytes f = Ret ((), f') ∧ only_dev (.= s) f f' ∧ block_content (device f') s = bytes.
Proof.
  intros Hb Hs Hl. unfold dev_write.
  destruct (block_write_ok ops ok size content (device f) s bytes Hb Hs) as (b' & -> & Hb' & Hc).
  { unfold sector_data, BLOCK_SECTOR_SIZE. lia. }
  simpl. eexists. split; [done|]. split.
  - split; try done. intros t Ht Hne. etrans; [apply (Hc t Ht)|]. by rewrite decide_False.
  - etrans; [apply (Hc s Hs)|]. by rewrite decide_True.
Qed.

Lemma need_bounce_ok f bounce : block_ok (device f) →
  ∃ b f', need_bounce bounce f = Ret (b, f') ∧ reads f f' ∧ (plenty f → 0 < brk f → b = true) .
Proof.
  intros Hb. unfold need_bounce. destruct bounce.
  - exists true, f. split; [done|]. split; [by apply dev_refl|done].
  - eexists _, _. split; [done|]. split; [by split; try done; simpl; lia|]. intros Hp Hk. rewrite (Hp (brk f)).
    destruct (Z.eqb_spec (brk f) 0); [lia|done].
Qed.

(** ** Chunks *)

Lemma chunk_at_end i sz ofs : extent_ok (data i) → 0 < sz → 0 ≤ ofs < 2 ^ 31 → d_length (data i) ≤ ofs →
  ∃ x y z c, chunk_at i sz ofs = (x, y, z, c) ∧ c ≤ 0.
Proof.
  intros Hi Hsz Ho Hle. unfold chunk_at. repeat eexists. unfold inode_length, BLOCK_SECTOR_SIZE.
  destruct Hi as [? _ _]. rewrite s32_id by lia. pose proof (Z.rem_bound_pos ofs 512). repeat case_match; bool_prop; lia.
Qed.

Lemma chunk_at_ok i sz ofs : extent_ok (data i) → 0 < sz → 0 ≤ ofs < d_length (data i) →
  ∃ c, chunk_at i sz ofs = (start (data i) + ofs / 512, ofs mod 512, 512 - ofs mod 512, c) ∧
    0 < c ≤ sz ∧ ofs mod 512 + c ≤ 512 ∧ ofs + c ≤ d_length (data i) ∧
    0 ≤ start (data i) + ofs / 512 < start (data i) + sectors (d_length (data i)) ∧
    c = Z.min sz (Z.min (d_length (data i) - ofs) (512 - ofs mod 512)).
Proof.
  intros [Hl Hs He] Hsz Ho. unfold chunk_at, byte_to_sector, inode_length, BLOCK_SECTOR_SIZE.
  destruct (Z.ltb_spec ofs (d_length (data i))) as [_|?]; [|lia].
  rewrite Z.quot_div_nonneg, Z.rem_mod_nonneg, s32_id by lia.
  pose proof (sectors_le (d_length (data i))) as Hsec. pose proof (Z.mod_pos_bound ofs 512).
  pose proof (Z.div_mod ofs 512). assert (0 ≤ ofs / 512 < sectors (d_length (data i))) as Hq by div_lia.
  rewrite (u32_id (ofs / 512)), u32_id by lia. eexists. split; [done|].
  repeat case_match; bool_prop; lia.
Qed.

Lemma chunk_avail len sz ofs c : 0 ≤ c ≤ sz → ofs + c ≤ len → avail len sz ofs = c + avail len (sz - c) (ofs + c).
Proof. unfold avail. lia. Qed.

(** ** Reading *)

(** A buffer filled from [br] on, chunk by chunk. *)
Definition filled (buffer : list Z) (br : Z) (bytes : list Z) : list Z :=
  take (Z.to_nat br) buffer ++ bytes ++ drop (Z.to_nat br + length bytes) buffer.

Lemma filled_nil buffer br : filled buffer br [] = buffer.
Proof. unfold filled. simpl. rewrite Nat.add_0_r. apply take_drop. Qed.

Lemma filled_length buffer br bytes : 0 ≤ br → br + zlength bytes ≤ zlength buffer → length (filled buffer br bytes) = length buffer.
Proof. intros. apply length_overwritten. lia. Qed.

Lemma filled_app buffer br c1 c2 : 0 ≤ br → br + zlength c1 + zlength c2 ≤ zlength buffer →
  filled (filled buffer br c1) (br + zlength c1) c2 = filled buffer br (c1 ++ c2).
Proof.
  intros Hb Hl. unfold filled. replace (Z.to_nat (br + zlength c1)) with (Z.to_nat br + length c1)%nat by lia.
  assert (length (take (Z.to_nat br) buffer) = Z.to_nat br) as Hlt by (rewrite length_take; lia).
  rewrite !app_assoc. rewrite take_app_le, take_ge by (rewrite ?length_app, ?Hlt; lia).
  rewrite drop_app_ge by (rewrite length_app, Hlt; lia). rewrite drop_drop, length_app, !length_app, Hlt.
  rewrite <- !app_assoc. do 4 f_equal. lia.
Qed.

Section Loops.
Context (ip : Z) (i : inode).
Hypothesis Hi : extent_ok (data i).
Notation len := (d_length (data i)).
Notation st := (start (data i)).

Definition read_done (f : fs D) (buffer : list Z) (sz ofs br : Z) (r : outcome (Z * list Z * fs D)) : Prop :=
  ∃ n f', r = Ret (br + n, filled buffer br (fdata (device f) st ofs n), f') ∧ reads f f' ∧
    0 ≤ n ≤ avail len sz ofs ∧ (plenty f → 0 < brk f → n = avail len sz ofs).

Lemma read_stop f buffer sz ofs br : block_ok (device f) → (plenty f → 0 < brk f → avail len sz ofs = 0) →
  read_done f buffer sz ofs br (Ret (br, buffer, f)).
Proof.
  intros Hb Ha. exists 0, f. rewrite Z.add_0_r. split; [|split; [by apply dev_refl|split; [unfold avail; lia|]]].
  - unfold fdata. simpl. by rewrite filled_nil.
  - intros Hp Hk. by rewrite Ha.
Qed.

(** What is left to read after a chunk. *)
Lemma read_step f f1 buffer sz ofs br c r : reads f f1 → 0 ≤ br → br + sz ≤ zlength buffer → 0 ≤ ofs →
  0 < c ≤ sz → ofs + c ≤ len →
  read_done f1 (filled buffer br (fdata (device f) st ofs c)) (sz - c) (ofs + c) (br + c) r →
  read_done f buffer sz ofs br r.
Proof.
  intros Hr Hbr Hbuf Hofs Hc Hle (n & f' & -> & Hr' & Hn & Hpl).
  pose proof (chunk_avail len sz ofs c ltac:(lia) Hle) as Hav.
  assert (fdata (device f1) st (ofs + c) n = fdata (device f) st (ofs + c) n) as Hfd.
  { apply (only_fdata f f1 _ _ _ _ Hr); [lia|]. intros j Hj. destruct Hi as [Hl Hs He]. unfold avail in Hn.
    pose proof (sectors_le len). div_lia. }
  exists (c + n), f'. split; [|split; [by eapply dev_mono|split; [lia|]]].
  - rewrite Hfd. assert (br + c = br + zlength (fdata (device f) st ofs c)) as Hbc by (rewrite fdata_length; lia).
    rewrite Hbc. rewrite filled_app; [|lia|rewrite !fdata_length; unfold avail in Hn; lia].
    rewrite <- fdata_app by lia. rewrite fdata_length. do 3 f_equal. lia.
  - intros Hp Hk. rewrite Hav, <- Hpl; [done| |].
    + intros m. rewrite (od_mem _ _ _ Hr). apply Hp.
    + pose proof (od_brk _ _ _ Hr). lia.
Qed.

Lemma read_loop_ok fuel f buffer sz ofs br bounce : inodes f !! ip = Some i → block_ok (device f) →
  0 ≤ ofs < 2 ^ 31 → 0 ≤ br → br + sz ≤ zlength buffer → (Z.to_nat sz < fuel)%nat →
  read_done f buffer sz ofs br (read_loop ops fuel ip buffer sz ofs br bounce f).
Proof.
  revert f buffer sz ofs br bounce. induction fuel as [|fuel IH]; intros f buffer sz ofs br bounce Hip Hb Ho Hbr Hbuf Hfuel; [lia|].
  cbn [read_loop]. destruct (Z.ltb_spec 0 sz) as [Hsz|Hsz]; [|apply read_stop; [done|unfold avail; lia]].
  rewrite (cstep _ _ _ i f) by (unfold get_inode; by rewrite Hip).
  destruct (decide (ofs < len)) as [Hlt|Hge].
  2:{ destruct (chunk_at_end i sz ofs Hi Hsz Ho) as (x & y & z & c & -> & Hc); [lia|].
      destruct (Z.leb_spec c 0); [|lia]. apply read_stop; [done|unfold avail; lia]. }
  destruct (chunk_at_ok i sz ofs Hi Hsz) as (c & -> & Hc & Hoc & Hle & Hsec & _); [lia|].
  pose proof Hi as [Hl Hs He]. destruct (Z.leb_spec c 0); [lia|].
  pose proof (Z.mod_pos_bound ofs 512 eq_refl). pose proof (Z.div_mod ofs 512 ltac:(lia)) as Hdm.
  assert (0 ≤ st + ofs / 512 < size) as Hsr by lia. assert (0 ≤ ofs / 512) as Hq0 by (apply Z.div_pos; lia).
  assert (s32 (ofs + c) = ofs + c) as Hs32 by (apply s32_id; lia).
  assert (∀ f1, reads f f1 → ∀ b, read_done f buffer sz ofs br (read_loop ops fuel ip
    (filled buffer br (fdata (device f) st ofs c)) (sz - c) (ofs + c) (br + c) b f1)) as Hnext.
  { intros f1 Hr b. apply (read_step f f1 buffer sz ofs br c); try done; [lia..|]. apply IH; try lia.
    - by rewrite (od_inodes _ _ _ Hr).
    - apply Hr.
    - rewrite filled_length by (rewrite ?fdata_length; lia). lia. }
  assert (∀ f0, reads f f0 → ∃ f1, dev_read ops (st + ofs / 512) f0 = Ret (block_content (device f) (st + ofs / 512), f1) ∧ reads f f1)
    as Hread.
  { intros f0 Hr. destruct (dev_read_ok f0 (st + ofs / 512)) as (f1 & Hf1 & Hr1); [apply Hr|done|].
    rewrite (od_content _ _ _ Hr) in Hf1 by tauto. exists f1. split; [done|]. by eapply dev_mono. }
  assert (take (Z.to_nat c) (drop (Z.to_nat (ofs mod 512)) (block_content (device f) (st + ofs / 512))) = fdata (device f) st ofs c)
    as Hch by (rewrite sector_chunk by (done || lia); f_equal; lia).
  pose proof (block_sector ops ok size content (device f) (st + ofs / 512) Hb Hsr) as Hlen.
  assert (∀ chunk, chunk = fdata (device f) st ofs c → lift (S := fs D) (overwrite buffer br chunk) = mret (filled buffer br chunk))
    as Hover.
  { intros chunk ->. unfold lift. rewrite overwrite_ok by (rewrite ?fdata_length; lia). done. }
  rewrite Hs32. destruct ((ofs mod 512 =? 0) && (c =? BLOCK_SECTOR_SIZE)) eqn:Efull.
  - bool_prop. unfold BLOCK_SECTOR_SIZE in *. destruct (Hread f (dev_refl _ f Hb)) as (f1 & Hf1 & Hr1).
    rewrite (cstep _ _ _ _ _ Hf1).
    assert (block_content (device f) (st + ofs / 512) = fdata (device f) st ofs c) as Hbc.
    { rewrite <- Hch. replace (ofs mod 512) with 0 by lia. rewrite drop_0, take_ge; [done|]. lia. }
    rewrite Hover, Hbc by done. by apply Hnext.
  - destruct (need_bounce_ok f bounce Hb) as (b & f0 & Hf0 & Hr0 & Hpl). rewrite (cstep _ _ _ _ _ Hf0). destruct b.
    + destruct (Hread f0 Hr0) as (f1 & Hf1 & Hr1). rewrite (cstep _ _ _ _ _ Hf1).
      rewrite (cstep _ _ _ (fdata (device f) st ofs c) f1).
      2:{ unfold lift. rewrite slice_ok by lia. by rewrite Hch. }
      rewrite Hover by done. by apply Hnext.
    + exists 0, f0. rewrite Z.add_0_r. split; [|split; [done|split; [unfold avail; lia|]]].
      * unfold fdata. simpl. by rewrite filled_nil.
      * intros Hp Hk. by specialize (Hpl Hp Hk).
Qed.

(** The specification of [inode_read_at]. *)
Lemma inode_read_at_ok f buffer sz ofs : inodes f !! ip = Some i → block_ok (device f) →
  0 ≤ ofs < 2 ^ 31 → sz ≤ zlength buffer →
  ∃ n f', inode_read_at ops ip buffer sz ofs f = Ret (n, filled buffer 0 (fdata (device f) st ofs n), f') ∧ reads f f' ∧
    0 ≤ n ≤ avail len sz ofs ∧ (plenty f → 0 < brk f → n = avail len sz ofs).
Proof. intros Hip Hb Ho Hsz. apply (read_loop_ok _ f buffer sz ofs 0 false); try done; lia. Qed.

(** ** Writing *)

Notation in_extent s := (st ≤ s < st + sectors len).

(** [n] bytes of [bytes] are at [ofs] and the rest of the file is as before. *)
Definition written (f f' : fs D) (ofs n : Z) (bytes : Z → Z) : Prop :=
  only_dev (λ s, in_extent s) f f' ∧
  ∀ j, 0 ≤ j < 512 * sectors len →
    fbyte (device f') st j = if decide (ofs ≤ j < ofs + n) then bytes (j - ofs) else fbyte (device f) st j.

Lemma written_refl f ofs bytes : block_ok (device f) → written f f ofs 0 bytes.
Proof. intros Hb. split; [by apply dev_refl|]. intros j _. by rewrite decide_False by lia. Qed.

Lemma written_reads f f1 f2 ofs n bytes : reads f f1 → written f1 f2 ofs n bytes → written f f2 ofs n bytes.
Proof.
  intros Hr [Ho Hb]. split.
  - eapply dev_mono; [|exact Ho]. eapply only_weaken; [|exact Hr]. done.
  - intros j Hj. rewrite (Hb j Hj). case_decide; [done|]. apply fbyte_ext; [lia|]. destruct Hi as [Hl Hs He].
    apply (od_content _ _ _ Hr); [div_lia|tauto].
Qed.

Lemma written_step f f1 f' ofs c n bytes : 0 ≤ c → 0 ≤ n → written f f1 ofs c bytes →
  written f1 f' (ofs + c) n (λ x, bytes (c + x)) → written f f' ofs (c + n) bytes.
Proof.
  intros Hc Hn [Ho1 Hb1] [Ho2 Hb2]. split; [by eapply dev_mono|]. intros j Hj. rewrite (Hb2 j Hj), (Hb1 j Hj).
  repeat case_decide; try lia; try done. f_equal. lia.
Qed.

(** A chunk is put into its sector. *)
Lemma written_chunk f f1 q o c old bytes : block_ok (device f) → 0 ≤ q < sectors len → 0 ≤ o → 0 < c → o + c ≤ 512 →
  old = block_content (device f) (st + q) ∨ o = 0 ∧ c = 512 → length old = 512%nat →
  only_dev (.= st + q) f f1 →
  block_content (device f1) (st + q) = filled old o (bytes <$> seqZ 0 c) → written f f1 (512 * q + o) c bytes.
Proof.
  intros Hb Hq Ho Hc Hoc Hold Hlen Hod Hnew. destruct Hi as [Hl Hs He]. split.
  { eapply only_weaken; [|exact Hod]. intros s ->. lia. }
  assert (length (bytes <$> seqZ 0 c) = Z.to_nat c) as Hlc by (rewrite length_fmap, length_seqZ; lia).
  intros j Hj. destruct (decide (j / 512 = q)) as [Ej|Ej].
  - assert (j = 512 * q + j mod 512) as Hjm by div_lia. pose proof (Z.mod_pos_bound j 512 eq_refl) as Hm.
    unfold fbyte. rewrite Ej, Hnew. unfold filled. set (m := j mod 512) in *. clearbody m. subst j.
    assert (length (take (Z.to_nat o) old) = Z.to_nat o) as Hlo by (rewrite length_take; lia).
    destruct (decide (m < o)) as [H1|H1]; [|destruct (decide (m < o + c)) as [H2|H2]].
    + rewrite decide_False by lia. rewrite lookup_app_l, lookup_take_lt by lia. destruct Hold as [->|[? ?]]; [done|lia].
    + rewrite decide_True by lia. rewrite lookup_app_r, Hlo, lookup_app_l by lia.
      rewrite list_lookup_fmap, lookup_seqZ_lt by lia. simpl. f_equal. lia.
    + rewrite decide_False by lia. rewrite lookup_app_r, Hlo, lookup_app_r by lia. rewrite lookup_drop, Hlc.
      destruct Hold as [->|[? ?]]; [|lia]. do 2 f_equal. lia.
  - rewrite decide_False by div_lia. apply fbyte_ext; [lia|]. apply (od_content _ _ _ Hod); [div_lia|lia].
Qed.

(** The bytes of the caller's buffer from [bw] on. *)
Definition from_buffer (buffer : list Z) (bw x : Z) : Z := default 0 (buffer !! Z.to_nat (bw + x)).

Lemma slice_bytes buffer bw c : 0 ≤ bw → 0 ≤ c → bw + c ≤ zlength buffer →
  slice buffer bw c = Ret (from_buffer buffer bw <$> seqZ 0 c).
Proof.
  intros. rewrite slice_ok by lia. f_equal. apply list_eq. intros k. destruct (decide (k < Z.to_nat c)%nat) as [Hk|Hk].
  - rewrite lookup_take_lt, lookup_drop, list_lookup_fmap, lookup_seqZ_lt by lia. simpl. unfold from_buffer.
    replace (Z.to_nat (bw + (0 + Z.of_nat k))) with (Z.to_nat bw + k)%nat by lia.
    destruct (lookup_lt_is_Some_2 buffer (Z.to_nat bw + k)) as [x Hx]; [lia|]. by rewrite Hx.
  - rewrite !lookup_ge_None_2; [done|rewrite length_fmap, length_seqZ; lia|rewrite length_take; lia].
Qed.

Definition write_done (f : fs D) (buffer : list Z) (sz ofs bw : Z) (r : outcome (Z * fs D)) : Prop :=
  ∃ n f', r = Ret (bw + n, f') ∧ 0 ≤ n ≤ avail len sz ofs ∧ (plenty f → 0 < brk f → n = avail len sz ofs) ∧
    written f f' ofs n (from_buffer buffer bw).

Lemma write_stop f f' buffer sz ofs bw : reads f f' → (plenty f → 0 < brk f → avail len sz ofs = 0) →
  write_done f buffer sz ofs bw (Ret (bw, f')).
Proof.
  intros Hr Ha. exists 0, f'. rewrite Z.add_0_r. split; [done|]. split; [unfold avail; lia|]. split; [intros Hp Hk; by rewrite Ha|].
  eapply written_reads; [done|]. apply written_refl, Hr.
Qed.

Lemma write_step f f1 buffer sz ofs bw c r : 0 ≤ bw → 0 < c ≤ sz → ofs + c ≤ len →
  written f f1 ofs c (from_buffer buffer bw) →
  write_done f1 buffer (sz - c) (ofs + c) (bw + c) r → write_done f buffer sz ofs bw r.
Proof.
  intros Hbw Hc Hle Hw (n & f' & -> & Hn & Hpl & Hw').
  pose proof (chunk_avail len sz ofs c ltac:(lia) Hle) as Hav. exists (c + n), f'.
  split; [by rewrite Z.add_assoc|]. split; [lia|]. split.
  - intros Hp Hk. rewrite Hav, <- Hpl; [done| |].
    + intros m. rewrite (od_mem _ _ _ (proj1 Hw)). apply Hp.
    + pose proof (od_brk _ _ _ (proj1 Hw)). lia.
  - apply (written_step f f1); [lia|lia|done|]. destruct Hw' as [Ho Hb]. split; [done|]. intros j Hj.
    rewrite (Hb j Hj). case_decide; [|done]. unfold from_buffer. do 3 f_equal. lia.
Qed.

(** One chunk of the loop: the sector that is written, over what it held. *)
Lemma write_chunk f f0 buffer ofs bw c old : reads f f0 → block_ok (device f) → 0 ≤ bw → bw + c ≤ zlength buffer →
  0 ≤ ofs → 0 < c → ofs mod 512 + c ≤ 512 → ofs + c ≤ len →
  old = block_content (device f) (st + ofs / 512) ∨ ofs mod 512 = 0 ∧ c = 512 → length old = 512%nat →
  ∃ f1, dev_write ops (st + ofs / 512) (filled old (ofs mod 512) (from_buffer buffer bw <$> seqZ 0 c)) f0 = Ret ((), f1) ∧
    written f f1 ofs c (from_buffer buffer bw) ∧ inodes f1 = inodes f.
Proof.
  intros Hr Hb Hbw Hbuf Ho Hc Hoc Hle Hold Hlen. pose proof Hi as [Hl Hs He]. pose proof (sectors_le len ltac:(lia)).
  pose proof (Z.div_mod ofs 512 ltac:(lia)). pose proof (Z.mod_pos_bound ofs 512 eq_refl).
  assert (0 ≤ ofs / 512 < sectors len) as Hq by lia.
  assert (length (filled old (ofs mod 512) (from_buffer buffer bw <$> seqZ 0 c)) = 512%nat) as Hfl.
  { rewrite filled_length; rewrite ?length_fmap, ?length_seqZ; lia. }
  destruct (dev_write_ok f0 (st + ofs / 512) _ (od_block _ _ _ Hr) ltac:(lia) Hfl) as (f1 & Hf1 & Hod & Hnew).
  exists f1. split; [done|]. split; [|by rewrite (od_inodes _ _ _ Hod), (od_inodes _ _ _ Hr)].
  apply (written_reads f f0); [done|]. replace ofs with (512 * (ofs / 512) + ofs mod 512) at 1 by lia.
  apply (written_chunk f0 f1 (ofs / 512) (ofs mod 512) c old); try done; try lia.
  - apply Hr.
  - destruct Hold as [->|?]; [left|by right]. symmetry. apply (od_content _ _ _ Hr); [lia|tauto].
Qed.

Lemma write_loop_ok fuel f buffer sz ofs bw bounce : inodes f !! ip = Some i → block_ok (device f) →
  0 ≤ ofs < 2 ^ 31 → 0 ≤ bw → bw + sz ≤ zlength buffer → (Z.to_nat sz < fuel)%nat →
  write_done f buffer sz ofs bw (write_loop ops fuel ip buffer sz ofs bw bounce f).
Proof.
  revert f sz ofs bw bounce. induction fuel as [|fuel IH]; intros f sz ofs bw bounce Hip Hb Ho Hbw Hbuf Hfuel; [lia|].
  cbn [write_loop]. destruct (Z.ltb_spec 0 sz) as [Hsz|Hsz].
  2:{ apply write_stop; [by apply dev_refl|unfold avail; lia]. }
  rewrite (cstep _ _ _ i f) by (unfold get_inode; by rewrite Hip).
  destruct (decide (ofs < len)) as [Hlt|Hge].
  2:{ destruct (chunk_at_end i sz ofs Hi Hsz Ho) as (x & y & z & c & -> & Hc); [lia|].
      destruct (Z.leb_spec c 0); [|lia]. apply write_stop; [by apply dev_refl|unfold avail; lia]. }
  destruct (chunk_at_ok i sz ofs Hi Hsz) as (c & -> & Hc & Hoc & Hle & Hsec & _); [lia|].
  pose proof Hi as [Hl Hs He]. destruct (Z.leb_spec c 0); [lia|].
  pose proof (Z.mod_pos_bound ofs 512 eq_refl) as Hmod. assert (0 ≤ st + ofs / 512 < size) as Hsr by lia.
  assert (s32 (ofs + c) = ofs + c) as -> by (apply s32_id; lia).
  assert (∀ f1, written f f1 ofs c (from_buffer buffer bw) → inodes f1 = inodes f → ∀ b,
    write_done f buffer sz ofs bw (write_loop ops fuel ip buffer (sz - c) (ofs + c) (bw + c) b f1)) as Hnext.
  { intros f1 Hw Hin b. apply (write_step f f1 buffer sz ofs bw c); try done. apply IH; try lia; [by rewrite Hin|apply Hw]. }
  assert (slice buffer bw c = Ret (from_buffer buffer bw <$> seqZ 0 c)) as Hslice by (apply slice_bytes; lia).
  pose proof (block_sector ops ok size content (device f) (st + ofs / 512) Hb Hsr) as Hlen.
  destruct ((ofs mod 512 =? 0) && (c =? BLOCK_SECTOR_SIZE)) eqn:Efull.
  - bool_prop. unfold BLOCK_SECTOR_SIZE in *. assert (ofs mod 512 = 0) as Em by lia. assert (c = 512) as Ec by lia.
    rewrite (cstep _ _ _ (from_buffer buffer bw <$> seqZ 0 c) f) by (unfold lift; by rewrite <- Ec, Hslice).
    destruct (write_chunk f f buffer ofs bw c (replicate 512 0)) as (f1 & Hf1 & Hw & Hin);
      try done; try lia.
    assert (filled (replicate 512 0) (ofs mod 512) (from_buffer buffer bw <$> seqZ 0 c) = from_buffer buffer bw <$> seqZ 0 c) as Hfill.
    { unfold filled. rewrite Em. simpl take. rewrite drop_ge; [by rewrite app_nil_r|].
      rewrite length_replicate, length_fmap, length_seqZ. lia. }
    rewrite Hfill in Hf1. rewrite (cstep _ _ _ _ _ Hf1). by apply Hnext.
  - destruct (need_bounce_ok f bounce Hb) as (b & f0 & Hf0 & Hr0 & Hpl). rewrite (cstep _ _ _ _ _ Hf0). destruct b.
    2:{ apply write_stop; [done|]. intros Hp Hk. by specialize (Hpl Hp Hk). }
    assert ((0 <? ofs mod 512) || (c <? 512 - ofs mod 512) = true) as ->.
    { unfold BLOCK_SECTOR_SIZE in Efull. destruct (Z.eqb_spec (ofs mod 512) 0), (Z.eqb_spec c 512); try done;
        destruct (Z.ltb_spec 0 (ofs mod 512)), (Z.ltb_spec c (512 - ofs mod 512)); done || lia. }
    destruct (dev_read_ok f0 (st + ofs / 512) (od_block _ _ _ Hr0) Hsr) as (f2 & Hf2 & Hr2).
    rewrite (od_content _ _ _ Hr0) in Hf2 by tauto. rewrite (cstep _ _ _ _ _ Hf2).
    rewrite (cstep _ _ _ (from_buffer buffer bw <$> seqZ 0 c) f2) by (unfold lift; by rewrite Hslice).
    rewrite (cstep _ _ _ (filled (block_content (device f) (st + ofs / 512)) (ofs mod 512) (from_buffer buffer bw <$> seqZ 0 c)) f2).
    2:{ unfold lift. rewrite overwrite_ok by (rewrite ?length_fmap, ?length_seqZ; lia). done. }
    destruct (write_chunk f f2 buffer ofs bw c (block_content (device f) (st + ofs / 512))) as (f1 & Hf1 & Hw & Hin);
      try done; try lia; [by eapply dev_mono|by left|].
    rewrite (cstep _ _ _ _ _ Hf1). by apply Hnext.
Qed.

(** The specification of [inode_write_at]. *)
Lemma inode_write_at_ok f buffer sz ofs : inodes f !! ip = Some i → block_ok (device f) →
  0 ≤ ofs < 2 ^ 31 → sz ≤ zlength buffer → deny_write_cnt i = 0 →
  ∃ n f', inode_write_at ops ip buffer sz ofs f = Ret (n, f') ∧ 0 ≤ n ≤ avail len sz ofs ∧
    (plenty f → 0 < brk f → n = avail len sz ofs) ∧ written f f' ofs n (from_buffer buffer 0).
Proof.
  intros Hip Hb Ho Hsz Hdeny. unfold inode_write_at. rewrite (cstep _ _ _ i f) by (unfold get_inode; by rewrite Hip).
  rewrite Hdeny. apply (write_loop_ok _ f buffer sz ofs 0 false); try done; lia.
Qed.

Lemma inode_write_at_denied f buffer sz ofs : inodes f !! ip = Some i → deny_write_cnt i ≠ 0 →
  inode_write_at ops ip buffer sz ofs f = Ret (0, f).
Proof.
  intros Hip Hdeny. unfold inode_write_at. rewrite (cstep _ _ _ i f) by (unfold get_inode; by rewrite Hip).
  by destruct (Z.eqb_spec (deny_write_cnt i) 0).
Qed.

(** What is read back after a write. *)
Lemma written_fdata f f' ofs n bytes from m : written f f' ofs n bytes → 0 ≤ from → from + m ≤ len →
  fdata (device f') st from m =
  (λ j, if decide (ofs ≤ j < ofs + n) then bytes (j - ofs) else fbyte (device f) st j) <$> seqZ from m.
Proof.
  intros [_ Hw] Hf Hm. unfold fdata. apply list_fmap_ext. intros k x Hx. apply lookup_seqZ in Hx as [-> ?].
  destruct Hi as [Hl _ _]. pose proof (sectors_le len ltac:(lia)). apply Hw. lia.
Qed.
End Loops.
End InodeOk.

(** C23. What is written is what is read: with enough memory, a write to an
    inode whose writes are not denied stores the part of the buffer that is
    inside the file; a read afterwards returns, at every position inside the
    file, the byte that was written there or the byte that was there before;
    the rest of the caller's buffer and every sector outside the extent of the
    inode are unchanged. *)
Theorem inode_write_then_read {D} (ops : block_operations D) ok size content `{!DriverOk ops ok size content}
    (f : fs D) ip i buffer sz ofs out m from :
  size < 2 ^ 32 - 1 → extent_ok size (data i) → inodes f !! ip = Some i → block_ok ok size (device f) →
  plenty f → 0 < brk f → deny_write_cnt i = 0 →
  0 ≤ ofs < 2 ^ 31 → sz ≤ zlength buffer → 0 ≤ from < 2 ^ 31 → m ≤ zlength out →
  let len := d_length (data i) in
  ∃ f1 f2 out', inode_write_at ops ip buffer sz ofs f = Ret (avail len sz ofs, f1) ∧
    inode_read_at ops ip out m from f1 = Ret (avail len m from, out', f2) ∧
    (∀ x, 0 ≤ x < avail len m from → out' !! Z.to_nat x = Some
       (if decide (ofs ≤ from + x < ofs + avail len sz ofs) then default 0 (buffer !! Z.to_nat (from + x - ofs))
        else fbyte content (device f) (start (data i)) (from + x))) ∧
    drop (Z.to_nat (avail len m from)) out' = drop (Z.to_nat (avail len m from)) out ∧
    ∀ s, 0 ≤ s < size → ¬ (start (data i) ≤ s < start (data i) + sectors len) →
      block_content content (device f2) s = block_content content (device f) s.
Proof.
  intros Hsize Hi Hip Hb Hp Hk Hdeny Ho Hsz Hfrom Hm len.
  destruct (inode_write_at_ok ops ok size content Hsize ip i Hi f buffer sz ofs Hip Hb Ho Hsz Hdeny)
    as (n & f1 & Hw & Hn & Hpl & Hwr). pose proof Hwr as [Hod Hby].
  destruct (inode_read_at_ok ops ok size content Hsize ip i Hi f1 out m from) as (k & f2 & Hr & Hod2 & Hkk & Hpl2);
    [by rewrite (od_inodes _ _ _ _ _ _ Hod)|apply Hod|done|done|].
  assert (n = avail (d_length (data i)) sz ofs) as -> by (by apply Hpl).
  assert (k = avail (d_length (data i)) m from) as ->.
  { apply Hpl2; [intros x; rewrite (od_mem _ _ _ _ _ _ Hod); apply Hp|pose proof (od_brk _ _ _ _ _ _ Hod); lia]. }
  fold len in Hn, Hw, Hr, Hby, Hwr |- *. set (a := avail len m from) in *.
  assert (0 ≤ a) as Ha0 by (unfold a, avail; lia).
  exists f1, f2. eexists. split; [exact Hw|]. split; [exact Hr|].
  split; [|split].
  - intros x Hx. unfold filled. simpl. rewrite lookup_app_l by (rewrite fdata_length; lia).
    rewrite fdata_lookup by lia. f_equal. rewrite Hby; [|destruct Hi; pose proof (sectors_le len); unfold a, avail in Hx; lia].
    replace (from + Z.of_nat (Z.to_nat x)) with (from + x) by lia. case_decide; [|done].
    unfold from_buffer. by rewrite Z.add_0_l.
  - unfold filled. simpl. rewrite drop_app_ge by (rewrite fdata_length; lia). rewrite drop_drop. f_equal.
    rewrite fdata_length. lia.
  - intros s Hs Hne. rewrite (od_content _ _ _ _ _ _ Hod2), (od_content _ _ _ _ _ _ Hod) by tauto. done.
Qed.

Definition demo_inode : inode := Inode 1 1 false 0 (InodeDisk 2 700 INODE_MAGIC).
Definition demo_fs : fs (list (list Z)) :=
  Fs (block_register BLOCK_FILESYS 8 (replicate 8 (replicate 512 0))) (Bitmap 8 [0]) 0 {[5 := demo_inode]} [5] ∅ ∅ 10 (λ _, true).

Lemma inode_write_then_read_witness : ∃ f1 f2 out',
  inode_write_at ram_ops 5 (replicate 600 7) 600 200 demo_fs = Ret (500, f1) ∧
  inode_read_at ram_ops 5 (replicate 4 1) 4 199 f1 = Ret (4, out', f2) ∧ out' !! 1%nat = Some 7.
Proof.
  destruct (inode_write_then_read ram_ops (ram_ok 8) 8 ram_content demo_fs 5 demo_inode (replicate 600 7) 600 200
    (replicate 4 1) 4 199) as (f1 & f2 & out' & Hw & Hr & Hx & _); try done.
  - split; [|done]. split; [done|]. repeat constructor.
  - exists f1, f2, out'. split; [exact Hw|]. split; [exact Hr|]. apply (Hx 1). done.
Defined.
