(* ===== verification/Extents.v ===== *)
(** * Extents: the free map and the open inodes (filesys/free-map.c, filesys/inode.c, filesys/file.c)

    [G] gives the inodes on the disk by their sectors.  The invariant [fs_ok]
    says that their extents do not overlap and are marked in the free map,
    that an open inode is the inode of its sector, and that its opener count
    is the number of files and directories that use it, and of pointers [R]
    that a function still holds. *)

From S2P Require Import Prelude Bitmap Block Fs Inode.

(** The sectors of an inode. *)
Definition claims (s : Z) (d : inode_disk) (t : Z) : Prop :=
  t = s ∨ start d ≤ t < start d + sectors (d_length d).

Global Instance claims_dec s d t : Decision (claims s d t).
Proof. unfold claims. apply _. Defined.

(** Occurrences. *)
Definition occurs (m : gmap Z Z) (ip : Z) : Z := Z.of_nat (size (filter (λ '(_, v), v = ip) m)).
Definition occurs_in (l : list Z) (ip : Z) : Z := Z.of_nat (length (filter (.= ip) l)).
Definition refs {D} (R : list Z) (f : fs D) (ip : Z) : Z :=
  occurs (f_inode <$> open_files f) ip + occurs (dir_inode <$> dirs f) ip + occurs_in R ip.
(** The inodes of the files that deny writes. *)
Definition denied (F : gmap Z file) : gmap Z Z := omap (λ x, if deny_write x then Some (f_inode x) else None) F.
Definition denials {D} (f : fs D) (ip : Z) : Z := occurs (denied (open_files f)) ip.

Lemma occurs_insert m p v ip : m !! p = None → occurs (<[p := v]> m) ip = occurs m ip + if decide (v = ip) then 1 else 0.
Proof.
  intros Hp. unfold occurs. case_decide.
  - rewrite map_filter_insert_True by done. rewrite map_size_insert_None; [lia|]. apply map_lookup_filter_None. auto.
  - rewrite map_filter_insert_not' by (done || (intros y; rewrite Hp; done)). lia.
Qed.

Lemma occurs_delete m p v ip : m !! p = Some v → occurs (delete p m) ip = occurs m ip - if decide (v = ip) then 1 else 0.
Proof.
  intros Hp. pose proof (occurs_insert (delete p m) p v ip (lookup_delete_eq m p)) as H.
  rewrite insert_delete_eq, insert_id in H by done. lia.
Qed.

Lemma occurs_nonneg m ip : 0 ≤ occurs m ip.
Proof. unfold occurs. lia. Qed.

Lemma occurs_pos m p ip : m !! p = Some ip → 0 < occurs m ip.
Proof.
  intros Hp. pose proof (occurs_delete m p ip ip Hp) as H. rewrite decide_True in H by done.
  pose proof (occurs_nonneg (delete p m) ip). lia.
Qed.

Lemma occurs_in_cons x l ip : occurs_in (x :: l) ip = occurs_in l ip + if decide (x = ip) then 1 else 0.
Proof. unfold occurs_in. rewrite filter_cons. case_decide; simpl; lia. Qed.

Lemma denied_insert F p x ip : F !! p = None →
  occurs (denied (<[p := x]> F)) ip = occurs (denied F) ip + if decide (deny_write x = true ∧ f_inode x = ip) then 1 else 0.
Proof.
  intros Hp. unfold denied. assert (omap (λ x, if deny_write x then Some (f_inode x) else None) F !! p = None) as Hn.
  { by rewrite lookup_omap, Hp. }
  destruct (deny_write x) eqn:Hx.
  - rewrite (omap_insert_Some _ _ _ _ (f_inode x)) by (by rewrite Hx). rewrite occurs_insert by done.
    repeat case_decide; naive_solver.
  - rewrite omap_insert_None, delete_id by (done || by rewrite Hx). rewrite decide_False by naive_solver. lia.
Qed.

Lemma denied_delete F p x ip : F !! p = Some x →
  occurs (denied (delete p F)) ip = occurs (denied F) ip - if decide (deny_write x = true ∧ f_inode x = ip) then 1 else 0.
Proof.
  intros Hp. pose proof (denied_insert (delete p F) p x ip (lookup_delete_eq F p)) as H.
  rewrite insert_delete_eq, insert_id in H by done. lia.
Qed.

Lemma denied_le F ip : occurs (denied F) ip ≤ occurs (f_inode <$> F) ip.
Proof.
  induction F as [|p x F Hp IH] using map_ind; [done|].
  rewrite denied_insert, fmap_insert, occurs_insert by (done || by rewrite lookup_fmap, Hp).
  repeat case_decide; naive_solver lia.
Qed.

Lemma denials_le {D} R (f : fs D) q : 0 ≤ denials f q ≤ refs R f q.
Proof.
  unfold refs, denials. pose proof (denied_le (open_files f) q). pose proof (occurs_nonneg (denied (open_files f)) q).
  pose proof (occurs_nonneg (dir_inode <$> dirs f) q). assert (0 ≤ occurs_in R q) by (unfold occurs_in; lia). lia.
Qed.

(** ** Words as bytes *)

Lemma le4_length x : length (le4 x) = 4%nat.
Proof. done. Qed.
Lemma le4_value x : 0 ≤ x < 2 ^ 32 →
  x mod 256 + 256 * (x / 256 mod 256) + 65536 * (x / 65536 mod 256) + 16777216 * (x / 16777216 mod 256) = x.
Proof.
  intros Hx. rewrite (Z.mod_small (x / 16777216)) by div_lia.
  replace (x / 16777216) with (x / 256 / 256 / 256) by (rewrite !Z.div_div by lia; done).
  replace (x / 65536) with (x / 256 / 256) by (rewrite !Z.div_div by lia; done). div_lia.
Qed.
Lemma bits_bytes_length b : length (bits_bytes b) = (4 * length (bits b))%nat.
Proof.
  unfold bits_bytes. induction (bits b) as [|w ws IH]; [done|].
  rewrite fmap_cons. cbn [concat]. rewrite length_app, IH, le4_length. cbn [length]. lia.
Qed.
Lemma words_of_bytes b : Forall word (bits b) → words_of (bits_bytes b) = bits b.
Proof.
  unfold bits_bytes. induction 1 as [|w ws Hw _ IH]; [done|].
  rewrite fmap_cons. cbn [concat le4 app words_of]. rewrite IH. f_equal. by apply le4_value.
Qed.

Lemma decode_encode d : 0 ≤ start d < 2 ^ 32 → 0 ≤ d_length d < 2 ^ 31 → 0 ≤ d_magic d < 2 ^ 32 →
  decode_inode (encode_inode d) = Ret d.
Proof.
  intros Hs Hl Hm. unfold decode_inode, encode_inode. destruct d as [s l m]. cbn [start d_length d_magic] in *.
  rewrite (u32_id l) by lia.
  change (le_word (le4 s ++ le4 l ++ le4 m ++ replicate 500 0) 0) with
    (Ret (s mod 256 + 256 * (s / 256 mod 256) + 65536 * (s / 65536 mod 256) + 16777216 * (s / 16777216 mod 256))).
  change (le_word (le4 s ++ le4 l ++ le4 m ++ replicate 500 0) 4) with
    (Ret (l mod 256 + 256 * (l / 256 mod 256) + 65536 * (l / 65536 mod 256) + 16777216 * (l / 16777216 mod 256))).
  change (le_word (le4 s ++ le4 l ++ le4 m ++ replicate 500 0) 8) with
    (Ret (m mod 256 + 256 * (m / 256 mod 256) + 65536 * (m / 65536 mod 256) + 16777216 * (m / 16777216 mod 256))).
  rewrite !le4_value by lia. cbn [mbind outcome_bind]. by rewrite s32_id by lia.
Qed.
Lemma encode_length d : length (encode_inode d) = 512%nat.
Proof. unfold encode_inode. by rewrite !length_app, length_replicate. Qed.

Section ExtentsOk.
Context {D : Type} (ops : block_operations D) (ok : D → Prop) (size : Z).
Context (content : D → Z → list Z) `{!DriverOk ops ok size content}.
Notation block_ok := (block_ok ok size).
Notation block_content := (block_content content).
Notation extent_ok := (extent_ok size).
Notation only_dev := (only_dev ok size content).
Notation fdata := (fdata content).
Hypothesis Hsize : 2 < size < 2 ^ 32 - 32.

(** ** The invariant *)

Record disk_ok (G : gmap Z inode_disk) (b : block D) (used : Z → bool) : Prop := {
  dk_block : block_ok b;
  dk_range s d : G !! s = Some d → 0 ≤ s < size;
  dk_decode s d : G !! s = Some d → decode_inode (block_content b s) = Ret d;
  dk_extent s d : G !! s = Some d → extent_ok d;
  dk_used s d t : G !! s = Some d → claims s d t → used t = true;
  dk_self s d : G !! s = Some d → ¬ (start d ≤ s < start d + sectors (d_length d));
  dk_apart s d s' d' t : G !! s = Some d → G !! s' = Some d' → claims s d t → claims s' d' t → s = s'
}.

Record open_ok (G : gmap Z inode_disk) (R : list Z) (f : fs D) : Prop := {
  op_disk ip i : inodes f !! ip = Some i → G !! i_sector i = Some (data i);
  op_list ip : ip ∈ open_inodes f ↔ is_Some (inodes f !! ip);
  op_nodup : NoDup (open_inodes f);
  op_sector ip ip' i i' : inodes f !! ip = Some i → inodes f !! ip' = Some i' → i_sector i = i_sector i' → ip = ip';
  op_refs ip : refs R f ip = default 0 (open_cnt <$> inodes f !! ip);
  op_open ip i : inodes f !! ip = Some i → 0 < open_cnt i;
  op_deny ip i : inodes f !! ip = Some i → deny_write_cnt i = denials f ip;
  op_fresh p : brk f ≤ p → inodes f !! p = None ∧ open_files f !! p = None ∧ dirs f !! p = None;
  op_null : inodes f !! 0 = None ∧ dirs f !! 0 = None
}.

Record fs_base (G : gmap Z inode_disk) (f : fs D) : Prop := {
  fo_disk : disk_ok G (device f) (bm_test (free_map f));
  fo_map : bm_wf (free_map f);
  fo_cnt : bit_cnt (free_map f) = size;
  fo_words : zlength (bits (free_map f)) = elem_cnt size;
  fo_brk : 0 < brk f;
  fo_null : open_files f !! 0 = None
}.

Record fs_ok (G : gmap Z inode_disk) (R : list Z) (f : fs D) : Prop := {
  fo_base : fs_base G f;
  fo_open : open_ok G R f
}.

(** The file of the free map, when it is open. *)
Record map_file (G : gmap Z inode_disk) (f : fs D) (ip : Z) (i : inode) : Prop := {
  mf_disk : G !! FREE_MAP_SECTOR = Some (data i);
  mf_file : ∃ x, open_files f !! free_map_file f = Some x ∧ f_inode x = ip;
  mf_inode : inodes f !! ip = Some i;
  mf_sector : i_sector i = FREE_MAP_SECTOR;
  mf_length : d_length (data i) = byte_cnt size;
  mf_deny : deny_write_cnt i = 0;
  mf_removed : removed i = false
}.

(** ** Steps that leave the objects in memory alone *)

(** Sectors in [P] change and the free map becomes [g]. *)
Record alters (P : Z → Prop) (g : Z → bool) (f f' : fs D) : Prop := {
  al_block : block_ok (device f');
  al_content s : 0 ≤ s < size → ¬ P s → block_content (device f') s = block_content (device f) s;
  al_map : bm_becomes (free_map f) (free_map f') g;
  al_map_file : free_map_file f' = free_map_file f;
  al_inodes : inodes f' = inodes f;
  al_open : open_inodes f' = open_inodes f;
  al_files : open_files f' = open_files f;
  al_dirs : dirs f' = dirs f;
  al_brk : brk f ≤ brk f';
  al_mem : mem f' = mem f
}.

Lemma becomes_refl b : bm_wf b → bm_becomes b b (bm_test b).
Proof. intros. by split. Qed.
Lemma becomes_trans b1 b2 b3 g h : bm_becomes b1 b2 g → bm_becomes b2 b3 h → bm_becomes b1 b3 h.
Proof. intros [] []. split; try done; congruence. Qed.
Lemma becomes_ext b b' g h : (∀ j, 0 ≤ j → g j = h j) → bm_becomes b b' g → bm_becomes b b' h.
Proof. intros Hgh []. split; try done. intros j Hj. rewrite becomes_test by done. auto. Qed.

Lemma only_alters P f f' : bm_wf (free_map f) → only_dev P f f' → alters P (bm_test (free_map f)) f f'.
Proof. intros Hwf []. split; try done. rewrite od_map. by apply becomes_refl. Qed.
Lemma alters_trans P Q g h f1 f2 f3 : alters P g f1 f2 → alters Q h f2 f3 → alters (λ s, P s ∨ Q s) h f1 f3.
Proof.
  intros [] []. split; try congruence; [|by eapply becomes_trans|lia].
  intros s Hs HPQ. rewrite al_content1 by tauto. apply al_content0; tauto.
Qed.
Lemma alters_weaken (P Q : Z → Prop) g h f f' : (∀ s, P s → Q s) → (∀ j, 0 ≤ j → g j = h j) → alters P g f f' → alters Q h f f'.
Proof.
  intros HPQ Hgh []. split; try done; [|by eapply becomes_ext]. intros s Hs HQ. apply al_content0; naive_solver.
Qed.

Lemma open_same G R f f' : inodes f' = inodes f → open_inodes f' = open_inodes f → open_files f' = open_files f →
  dirs f' = dirs f → brk f ≤ brk f' → open_ok G R f → open_ok G R f'.
Proof.
  intros Ei Eo Ef Ed Eb [Hd Hl Hn Hs Hr Hop Hdn Hfr Hnl].
  split; rewrite ?Ei, ?Eo; try done.
  - intros ip. rewrite <- (Hr ip). unfold refs. by rewrite Ef, Ed.
  - intros ip i Hi. rewrite (Hdn ip i Hi). unfold denials. by rewrite Ef.
  - intros p Hp. rewrite Ef, Ed. apply Hfr. lia.
  - by rewrite Ed.
Qed.

Lemma disk_step G b b' used used' : disk_ok G b used → block_ok b' →
  (∀ s d, G !! s = Some d → block_content b' s = block_content b s) →
  (∀ s d t, G !! s = Some d → claims s d t → used' t = true) → disk_ok G b' used'.
Proof. intros [] Hb Hc Hu. split; try done. intros s d Hs. rewrite (Hc s d Hs). auto. Qed.

Lemma alters_base G P g f f' : fs_base G f → alters P g f f' → (∀ s d, G !! s = Some d → ¬ P s) →
  (∀ s d t, G !! s = Some d → claims s d t → g t = true) → fs_base G f'.
Proof.
  intros [Hd Hm Hc Hw Hb Hn] Ha HP Hg. split.
  - apply (disk_step G (device f) _ (bm_test (free_map f))); [done|apply Ha| |].
    + intros s d Hs. apply (al_content _ _ _ _ Ha); [by apply (dk_range _ _ _ Hd s d)|by apply (HP s d)].
    + intros s d t Hs Ht. rewrite (becomes_test _ _ _ (al_map _ _ _ _ Ha)); [by apply (Hg s d)|].
      pose proof (dk_range _ _ _ Hd s d Hs). pose proof (dk_extent _ _ _ Hd s d Hs) as [_ ? _]. unfold claims in Ht. lia.
  - apply (al_map _ _ _ _ Ha).
  - by rewrite (becomes_cnt _ _ _ (al_map _ _ _ _ Ha)).
  - by rewrite (becomes_len _ _ _ (al_map _ _ _ _ Ha)).
  - pose proof (al_brk _ _ _ _ Ha). lia.
  - by rewrite (al_files _ _ _ _ Ha).
Qed.

Lemma alters_open G R P g f f' : alters P g f f' → open_ok G R f → open_ok G R f'.
Proof. intros Ha. apply open_same; apply Ha. Qed.

(** Writes to the data of an inode are such steps. *)
Lemma data_apart G b used s d s' d' : disk_ok G b used → G !! s = Some d → G !! s' = Some d' →
  ¬ (start d ≤ s' < start d + sectors (d_length d)).
Proof.
  intros Hd Hs Hs' Hr. assert (s = s') as <-.
  { apply (dk_apart _ _ _ Hd s d s' d' s'); [done|done|by right|by left]. }
  by apply (dk_self _ _ _ Hd s d).
Qed.

Lemma data_write_base G f f' s d : fs_base G f → G !! s = Some d →
  only_dev (λ t, start d ≤ t < start d + sectors (d_length d)) f f' → fs_base G f'.
Proof.
  intros Hf Hs Ho. pose proof Hf as [Hd Hm _ _ _ _].
  apply (alters_base G _ _ f f' Hf (only_alters _ _ _ Hm Ho)).
  - intros s' d' Hs'. by apply (data_apart G _ _ s d s' d' Hd).
  - apply (dk_used _ _ _ Hd).
Qed.

Lemma reads_base G f f' : fs_base G f → only_dev (λ _, False) f f' → fs_base G f'.
Proof.
  intros Hf Ho. pose proof Hf as [Hd Hm _ _ _ _]. apply (alters_base G _ _ f f' Hf (only_alters _ _ _ Hm Ho)).
  - tauto.
  - apply (dk_used _ _ _ Hd).
Qed.

Lemma only_open G R P f f' : only_dev P f f' → open_ok G R f → open_ok G R f'.
Proof. intros Ha. apply open_same; apply Ha. Qed.

Lemma map_file_same G f f' ip i : open_files f' = open_files f → inodes f' = inodes f → free_map_file f' = free_map_file f →
  map_file G f ip i → map_file G f' ip i.
Proof. intros Ef Ei Em []. split; rewrite ?Ef, ?Ei, ?Em; done. Qed.

(** ** The free map on disk *)

Lemma byte_cnt_size : byte_cnt size = 4 * elem_cnt size ∧ 0 < byte_cnt size < 2 ^ 30 ∧ s32 (byte_cnt size) = byte_cnt size.
Proof.
  assert (elem_cnt size = (size + 31) / 32) as He by (unfold elem_cnt, ELEM_BITS; rewrite u32_id by lia; f_equal; lia).
  assert (0 < (size + 31) / 32 ≤ 2 ^ 27) as Hb by div_lia.
  unfold byte_cnt. rewrite He, u32_id by lia. split; [done|]. split; [lia|]. apply s32_id. lia.
Qed.

(** The file of the free map holds its bits; the bits past the end of the
    map in the last word are arbitrary. *)
Definition persisted (f : fs D) (d : inode_disk) : Prop :=
  ∃ m, bm_wf m ∧ bit_cnt m = size ∧ zlength (bits m) = elem_cnt size ∧
    fdata (device f) (start d) 0 (byte_cnt size) = bits_bytes m ∧
    ∀ j, 0 ≤ j < size → bm_test m j = bm_test (free_map f) j.

Lemma persisted_same f f' d : (∀ j, 0 ≤ j < size → bm_test (free_map f') j = bm_test (free_map f) j) →
  fdata (device f') (start d) 0 (byte_cnt size) = fdata (device f) (start d) 0 (byte_cnt size) → persisted f d → persisted f' d.
Proof.
  intros Hj Hf (m & Hwf & Hc & Hl & Hd & Ht). exists m. rewrite Hf. do 4 (split; [done|]). intros j Hr. by rewrite Hj, Ht.
Qed.

Lemma fdata_bytes b st (bytes : list Z) n : zlength bytes = n →
  (∀ j, 0 ≤ j < n → fbyte content b st j = default 0 (bytes !! Z.to_nat j)) → fdata b st 0 n = bytes.
Proof.
  intros Hl Hj. apply list_eq. intros k. destruct (decide (k < length bytes)%nat) as [Hk|Hk].
  - rewrite fdata_lookup by lia. rewrite Hj by lia. rewrite Z.add_0_l, Nat2Z.id.
    destruct (lookup_lt_is_Some_2 bytes k Hk) as [x ->]. done.
  - rewrite !lookup_ge_None_2; [done|lia|rewrite fdata_length; lia].
Qed.

Lemma bitmap_write_ok G f m ip i : fs_base G f → map_file G f ip i → bit_cnt m = size → zlength (bits m) = elem_cnt size →
  ∃ b f', bitmap_write ops m (free_map_file f) f = Ret (b, f') ∧
    only_dev (λ t, start (data i) ≤ t < start (data i) + sectors (d_length (data i))) f f' ∧
    (plenty f → b = true ∧ fdata (device f') (start (data i)) 0 (byte_cnt size) = bits_bytes m).
Proof.
  intros Hf [Hg (x & Hx & Hxi) Hi Hs Hl Hdn Hrm] Hcnt Hw. destruct byte_cnt_size as (Hbc & Hb & Hs32).
  pose proof (dk_extent _ _ _ (fo_disk _ _ Hf) _ _ Hg) as Hext.
  assert (zlength (bits_bytes m) = byte_cnt size) as Hlen by (rewrite bits_bytes_length; lia).
  unfold bitmap_write. rewrite Hcnt, Hs32. unfold file_write_at.
  destruct (inode_write_at_ok ops ok size content ltac:(lia) ip i Hext f (bits_bytes m) (byte_cnt size) 0)
    as (n & f' & Hwr & Hn & Hpl & Hod & Hby); [done|apply Hf|lia|lia|done|].
  rewrite (cstep _ _ _ n f').
  2:{ rewrite (cstep _ _ _ x f) by (unfold get_file; by rewrite Hx). by rewrite Hxi. }
  eexists _, f'. split; [done|]. split; [exact Hod|]. intros Hp.
  assert (n = byte_cnt size) as ->.
  { rewrite (Hpl Hp (fo_brk _ _ Hf)). unfold avail. lia. }
  split; [by rewrite Z.eqb_refl|]. apply fdata_bytes; [done|]. intros j Hj.
  pose proof (sectors_le (d_length (data i)) ltac:(lia)). rewrite Hby by lia. rewrite decide_True by lia.
  unfold from_buffer. do 3 f_equal. lia.
Qed.

(** ** Allocation *)

(** The sectors of the file of the free map: none when it is not open. *)
Definition map_ready (G : gmap Z inode_disk) (f : fs D) (E : Z → Prop) : Prop :=
  free_map_file f = 0 ∧ (∀ t, ¬ E t) ∨
  ∃ ip i, map_file G f ip i ∧ ∀ t, E t ↔ start (data i) ≤ t < start (data i) + sectors (d_length (data i)).

Lemma map_ready_same G f f' E : open_files f' = open_files f → inodes f' = inodes f → free_map_file f' = free_map_file f →
  map_ready G f E → map_ready G f' E.
Proof.
  intros Ef Ei Em [[? ?]|(ip & i & Hm & ?)]; [left; by rewrite Em|right]. exists ip, i. split; [|done].
  by apply (map_file_same G f).
Qed.

Definition set_bits (used : Z → bool) (s n : Z) (v : bool) (j : Z) : bool :=
  if decide (s ≤ j < s + n) then v else used j.

Lemma map_file_not_null G f ip i : fs_base G f → map_file G f ip i → free_map_file f ≠ 0.
Proof.
  intros Hf [_ (x & Hx & _) _ _ _ _ _] E. rewrite E in Hx. pose proof (fo_null _ _ Hf). congruence.
Qed.

(** A state whose free map is another one of the same size. *)
Lemma with_map_ok G f m g : fs_base G f → bm_becomes (free_map f) m g →
  (∀ s d t, G !! s = Some d → claims s d t → g t = true) → fs_base G (w_free_map m f).
Proof.
  intros Hf Hm Hg. pose proof Hf as [Hd _ _ _ _ _].
  apply (alters_base G (λ _, False) g f); [done| |tauto|done].
  split; try done. apply Hd.
Qed.

Lemma set_bits_used G b used s n : disk_ok G b used → ∀ s' d t, G !! s' = Some d → claims s' d t → set_bits used s n true t = true.
Proof. intros Hd s' d t Hs Ht. unfold set_bits. case_decide; [done|]. by apply (dk_used _ _ _ Hd s' d). Qed.

Lemma scan_flip_ok G f cnt : fs_base G f → 0 ≤ cnt →
  ∃ r m, bitmap_scan_and_flip (free_map f) 0 cnt false = Ret (r, m) ∧
    (r ≠ BITMAP_ERROR ∧ 0 ≤ r ∧ r + cnt ≤ size ∧ bm_run (free_map f) r cnt false ∧
      (∀ i, 0 ≤ i < r → ¬ bm_run (free_map f) i cnt false) ∧
      bm_becomes (free_map f) m (set_bits (bm_test (free_map f)) r cnt true) ∨
     r = BITMAP_ERROR ∧ m = free_map f ∧ ∀ i, 0 ≤ i → i + cnt ≤ size → ¬ bm_run (free_map f) i cnt false).
Proof.
  intros [Hd Hm Hc Hw Hbk Hnl] Hcnt. destruct (bitmap_scan_and_flip_spec (free_map f) 0 cnt false Hm) as (r & m & Hr & Hcase);
    [lia|lia|]. exists r, m. split; [done|]. rewrite <- Hc. destruct Hcase as [(? & ? & ? & ? & ? & Hb)|(? & ? & ?)]; [left|by right].
  auto 10.
Qed.

Lemma free_map_allocate_ok G f E cnt : fs_base G f → map_ready G f E → 0 ≤ cnt →
  ∃ r f', free_map_allocate ops cnt f = Ret (r, f') ∧
    match r with
    | Some s => 0 ≤ s ∧ s + cnt ≤ size ∧ bm_run (free_map f) s cnt false ∧ (∀ i, 0 ≤ i < s → ¬ bm_run (free_map f) i cnt false) ∧
                alters E (set_bits (bm_test (free_map f)) s cnt true) f f'
    | None => alters E (bm_test (free_map f)) f f' ∧
              (plenty f → ∀ i, 0 ≤ i → i + cnt ≤ size → ¬ bm_run (free_map f) i cnt false)
    end ∧
    (plenty f → ∀ ip i, map_file G f ip i → persisted f (data i) → persisted f' (data i)).
Proof.
  intros Hf HE Hcnt. pose proof Hf as [Hd Hm Hc Hw Hbk Hnl]. unfold free_map_allocate.
  destruct (scan_flip_ok G f cnt Hf Hcnt) as (s & m & Hs & Hcase).
  rewrite (cstep _ _ _ s (w_free_map m f)) by (unfold map_op; by rewrite Hs).
  destruct Hcase as [(Hne & Hs0 & Hs1 & Hrun & Hfirst & Hbec)|(-> & -> & Hno)].
  2:{ rewrite Z.eqb_refl. eexists None, _. split; [done|]. split; [|by intros _ ip i _].
      split; [|by intros _]. split; try done; apply Hd. }
  destruct (Z.eqb_spec s BITMAP_ERROR); [done|]. rewrite cget.
  assert (alters (λ _, False) (set_bits (bm_test (free_map f)) s cnt true) f (w_free_map m f)) as Hal
    by (split; try done; apply Hd).
  assert (fs_base G (w_free_map m f)) as Hf1.
  { apply (with_map_ok G f m _ Hf Hbec). by apply (set_bits_used G (device f)). }
  change (free_map_file (w_free_map m f)) with (free_map_file f). change (free_map (w_free_map m f)) with m.
  destruct HE as [[Hz HE]|(ip & i & Hmf & HE)].
  - rewrite Hz, Z.eqb_refl. eexists (Some s), _. split; [done|]. split.
    + do 4 (split; [done|]). eapply alters_weaken; [|done|exact Hal]. tauto.
    + intros _ ip i Hmf. by destruct (map_file_not_null G f ip i Hf Hmf).
  - pose proof (map_file_not_null G f ip i Hf Hmf) as Hnz. destruct (Z.eqb_spec (free_map_file f) 0); [done|].
    assert (map_file G (w_free_map m f) ip i) as Hmf1 by (by apply (map_file_same G f)).
    destruct (bitmap_write_ok G (w_free_map m f) m ip i Hf1 Hmf1) as (b & f' & Hwr & Hod & Hpl).
    { rewrite (becomes_cnt _ _ _ Hbec). done. }
    { rewrite (becomes_len _ _ _ Hbec). done. }
    change (free_map_file (w_free_map m f)) with (free_map_file f) in Hwr. rewrite (cstep _ _ _ _ _ Hwr).
    assert (alters E (set_bits (bm_test (free_map f)) s cnt true) f f') as Hal2.
    { pose proof (only_alters _ (w_free_map m f) f' (becomes_wf _ _ _ Hbec) Hod) as Ha2.
      eapply alters_weaken; [| |eapply alters_trans; [exact Hal|exact Ha2]].
      - intros t [[]|Ht]. by apply HE.
      - intros j Hj. by apply (becomes_test _ _ _ Hbec). }
    destruct b.
    + eexists (Some s), f'. split; [done|]. split; [by do 4 (split; [done|])|].
      intros Hp ip2 i2 Hmf2 _. replace i2 with i.
      * exists m. rewrite (od_map _ _ _ _ _ _ Hod). split; [apply Hbec|]. split; [by rewrite (becomes_cnt _ _ _ Hbec)|].
        split; [by rewrite (becomes_len _ _ _ Hbec)|]. split; [apply (Hpl Hp)|done].
      * destruct Hmf as [_ (x & Hx & <-) Hi _ _ _ _], Hmf2 as [_ (x2 & Hx2 & <-) Hi2 _ _ _ _]. congruence.
    + assert (free_map f' = m) as Em by apply Hod.
      destruct (bitmap_set_multiple_spec (free_map f') s cnt false) as (m2 & Hm2 & Hbec2);
        [rewrite Em; apply Hbec|done|done|rewrite Em, (becomes_cnt _ _ _ Hbec); lia|].
      rewrite (cstep _ _ _ () (w_free_map m2 f')) by (unfold map_set; by rewrite Hm2).
      eexists None, _. split; [done|]. split; [|intros Hp; discriminate (proj1 (Hpl Hp))]. split.
      * destruct Hal2. split; try done. eapply becomes_trans; [done|]. eapply becomes_ext; [|exact Hbec2].
        intros j Hj. simpl. rewrite Em, (becomes_test _ _ _ Hbec) by done. unfold set_bits. repeat case_decide; try done.
        symmetry. by apply Hrun.
      * intros Hp. discriminate (proj1 (Hpl Hp)).
Qed.

Lemma free_map_release_ok G f ip i s cnt : fs_base G f → map_file G f ip i → 0 ≤ s → 0 ≤ cnt → s + cnt ≤ size →
  bm_run (free_map f) s cnt true →
  (∀ s' d t, G !! s' = Some d → claims s' d t → ¬ (s ≤ t < s + cnt)) →
  ∃ f', free_map_release ops s cnt f = Ret ((), f') ∧
    alters (λ t, start (data i) ≤ t < start (data i) + sectors (d_length (data i)))
      (set_bits (bm_test (free_map f)) s cnt false) f f' ∧
    (plenty f → persisted f' (data i)).
Proof.
  intros Hf Hmf Hs Hcnt Hsc Hrun Hfree. pose proof Hf as [Hd Hm Hc Hw Hbk Hnl]. unfold free_map_release. rewrite cget.
  destruct (bitmap_all_spec (free_map f) s cnt) as (r & Hr & Hrr); [done|done|done|lia|].
  rewrite (cstep _ _ _ r f) by (unfold lift; by rewrite Hr). assert (r = true) as -> by (by apply Hrr).
  rewrite (cstep _ _ _ () f) by done.
  destruct (bitmap_set_multiple_spec (free_map f) s cnt false) as (m & Hm1 & Hbec); [done|done|done|lia|].
  rewrite (cstep _ _ _ () (w_free_map m f)) by (unfold map_set; by rewrite Hm1). rewrite cget.
  assert (fs_base G (w_free_map m f)) as Hf1.
  { apply (with_map_ok G f m _ Hf Hbec). intros s' d t Hs' Ht. case_decide; [by destruct (Hfree s' d t)|].
    by apply (dk_used _ _ _ Hd s' d). }
  destruct (bitmap_write_ok G (w_free_map m f) m ip i Hf1) as (b & f' & Hwr & Hod & Hpl).
  { by apply (map_file_same G f). }
  { rewrite (becomes_cnt _ _ _ Hbec). done. }
  { rewrite (becomes_len _ _ _ Hbec). done. }
  simpl in Hwr |- *. rewrite (cstep _ _ _ _ _ Hwr). eexists. split; [done|]. split.
  - pose proof (only_alters _ (w_free_map m f) f' (becomes_wf _ _ _ Hbec) Hod) as Ha2.
    assert (alters (λ _, False) (set_bits (bm_test (free_map f)) s cnt false) f (w_free_map m f)) as Hal
      by (split; try done; apply Hd).
    eapply alters_weaken; [| |eapply alters_trans; [exact Hal|exact Ha2]].
    + by intros t [[]|Ht].
    + intros j Hj. by apply (becomes_test _ _ _ Hbec).
  - intros Hp. exists m. rewrite (od_map _ _ _ _ _ _ Hod). split; [apply Hbec|]. split; [by rewrite (becomes_cnt _ _ _ Hbec)|].
    split; [by rewrite (becomes_len _ _ _ Hbec)|]. split; [apply (Hpl Hp)|done].
Qed.

(** ** Creating an inode *)

Lemma zero_sectors_ok n s f : block_ok (device f) → 0 ≤ s → s + Z.of_nat n ≤ size →
  ∃ f', zero_sectors ops n s f = Ret ((), f') ∧ only_dev (λ t, s ≤ t < s + Z.of_nat n) f f' ∧
    ∀ t, s ≤ t < s + Z.of_nat n → block_content (device f') t = replicate 512 0.
Proof.
  revert s f. induction n as [|n IH]; intros s f Hb Hs Hn.
  { exists f. split; [done|]. split; [by apply dev_refl|]. intros t Ht. lia. }
  cbn [zero_sectors]. rewrite u32_id by lia.
  destruct (dev_write_ok ops ok size content f s (replicate 512 0) Hb) as (f1 & Hf1 & Hod & Hc); [lia|done|].
  rewrite (cstep _ _ _ _ _ Hf1). destruct (IH (s + 1) f1) as (f2 & Hf2 & Hod2 & Hc2); [apply Hod|lia|lia|].
  exists f2. split; [done|]. split.
  - eapply only_weaken; [|by eapply dev_trans]. simpl. lia.
  - intros t Ht. destruct (decide (t = s)) as [->|]; [|apply Hc2; lia].
    rewrite (od_content _ _ _ _ _ _ Hod2), Hc by lia. done.
Qed.

Lemma zeros_fdata b st n : (∀ t, st ≤ t < st + sectors n → block_content b t = replicate 512 0) → 0 ≤ n →
  fdata b st 0 n = replicate (Z.to_nat n) 0.
Proof.
  intros Hz Hn. pose proof (sectors_le n Hn). apply fdata_bytes; [rewrite length_replicate; lia|].
  intros j Hj. unfold fbyte. rewrite Hz by div_lia. pose proof (Z.mod_pos_bound j 512 eq_refl).
  rewrite !lookup_replicate_2 by lia. done.
Qed.

(** The new inode joins the others. *)
Lemma disk_add G b b' used used' s d : disk_ok G b used → block_ok b' → 0 ≤ s < size → extent_ok d →
  decode_inode (block_content b' s) = Ret d →
  (∀ s' d', G !! s' = Some d' → block_content b' s' = block_content b s') →
  (∀ t, claims s d t → used' t = true) → (∀ s' d' t, G !! s' = Some d' → claims s' d' t → used' t = true) →
  ¬ (start d ≤ s < start d + sectors (d_length d)) →
  (∀ s' d' t, G !! s' = Some d' → claims s' d' t → ¬ claims s d t) →
  disk_ok (<[s := d]> G) b' used'.
Proof.
  intros [Hb Hr Hdc Hex Hu Hsf Hap] Hb' Hs Hd Hdec Hc Hu1 Hu2 Hself Hfree. split; try done.
  - intros s' d' [[<- <-]|[_ ?]]%lookup_insert_Some; [done|by apply (Hr s' d')].
  - intros s' d' [[<- <-]|[_ Hs']]%lookup_insert_Some; [done|]. rewrite (Hc s' d' Hs'). by apply Hdc.
  - intros s' d' [[<- <-]|[_ ?]]%lookup_insert_Some; [done|by apply (Hex s')].
  - intros s' d' t [[<- <-]|[_ ?]]%lookup_insert_Some; [apply Hu1|by apply (Hu2 s')].
  - intros s' d' [[<- <-]|[_ ?]]%lookup_insert_Some; [done|by apply Hsf].
  - intros s1 d1 s2 d2 t [[<- <-]|[_ H1]]%lookup_insert_Some [[<- <-]|[_ H2]]%lookup_insert_Some C1 C2; [done| | |].
    + by destruct (Hfree s2 d2 t).
    + by destruct (Hfree s1 d1 t).
    + by apply (Hap s1 d1 s2 d2 t).
Qed.

Lemma open_grow G G' R f : (∀ s d, G !! s = Some d → G' !! s = Some d) → open_ok G R f → open_ok G' R f.
Proof. intros HG Ho. destruct Ho as [Hd]. split; try done. intros ip i Hi. by apply HG, (Hd ip). Qed.

Lemma map_ready_in G f E t : fs_base G f → map_ready G f E → E t → ∃ s d, G !! s = Some d ∧ claims s d t ∧ t ≠ s ∧
  start d ≤ t < start d + sectors (d_length d).
Proof.
  intros Hf [[_ HE]|(ip & i & Hmf & HE)] Ht; [by destruct (HE t)|]. apply HE in Ht.
  pose proof (mf_disk _ _ _ _ Hmf) as Hs. exists FREE_MAP_SECTOR, (data i).
  split; [done|]. split; [by right|]. split; [|done]. intros ->. by apply (dk_self _ _ _ (fo_disk _ _ Hf) _ _ Hs).
Qed.

(** Writes outside the file of the free map leave it saved. *)
Lemma persisted_kept G f f' ip i P : fs_base G f → map_file G f ip i → only_dev P f f' →
  (∀ t, start (data i) ≤ t < start (data i) + sectors (d_length (data i)) → ¬ P t) → persisted f (data i) → persisted f' (data i).
Proof.
  intros Hf Hmf Hod HP. apply persisted_same; [intros k _; by rewrite (od_map _ _ _ _ _ _ Hod)|].
  pose proof (dk_extent _ _ _ (fo_disk _ _ Hf) _ _ (mf_disk _ _ _ _ Hmf)) as [? ? ?].
  pose proof (sectors_le (d_length (data i)) ltac:(lia)). pose proof (mf_length _ _ _ _ Hmf). destruct byte_cnt_size as (_ & ? & _).
  apply (only_fdata _ _ _ f f' _ _ _ _ Hod); [lia|]. intros j Hj.
  assert (start (data i) ≤ start (data i) + j / 512 < start (data i) + sectors (d_length (data i))) as Hin by div_lia.
  split; [lia|by apply HP].
Qed.

(** What [inode_create] writes. *)
Lemma create_write_ok G f s d : fs_base G f → 0 ≤ s < size → extent_ok d → d_magic d = INODE_MAGIC →
  (∀ t, claims s d t → bm_test (free_map f) t = true) → ¬ (start d ≤ s < start d + sectors (d_length d)) →
  (∀ s' d' t, G !! s' = Some d' → claims s' d' t → ¬ claims s d t) →
  ∃ f', (let* _ := dev_write ops s (encode_inode d) in zero_sectors ops (Z.to_nat (sectors (d_length d))) (start d)) f = Ret ((), f') ∧
    only_dev (claims s d) f f' ∧ fs_base (<[s := d]> G) f' ∧
    fdata (device f') (start d) 0 (d_length d) = replicate (Z.to_nat (d_length d)) 0.
Proof.
  intros Hf Hs Hd Hmg Hused Hself Hfree. pose proof Hf as [Hdk Hm Hc Hw Hbk Hnl]. pose proof Hd as [Hl Hst He].
  pose proof (sectors_le (d_length d) ltac:(lia)) as Hsl.
  destruct (dev_write_ok ops ok size content f s (encode_inode d)) as (f1 & Hf1 & Hod1 & Hc1); [apply Hdk|done|apply encode_length|].
  rewrite (cstep _ _ _ _ _ Hf1).
  destruct (zero_sectors_ok (Z.to_nat (sectors (d_length d))) (start d) f1) as (f2 & Hf2 & Hod2 & Hc2); [apply Hod1|done|lia|].
  rewrite Z2Nat.id in Hod2, Hc2 by lia.
  assert (only_dev (claims s d) f f2) as Hod by (eapply only_weaken; [|by eapply dev_trans]; done).
  exists f2. split; [done|]. split; [done|]. split; [|by apply zeros_fdata; [exact Hc2|lia]]. split.
  - rewrite (od_map _ _ _ _ _ _ Hod). apply (disk_add G (device f) _ (bm_test (free_map f))); try done.
    + apply Hod.
    + rewrite (od_content _ _ _ _ _ _ Hod2), Hc1 by done. apply decode_encode; [lia|lia|by rewrite Hmg].
    + intros s' d' Hs'. apply (od_content _ _ _ _ _ _ Hod); [by apply (dk_range _ _ _ Hdk s' d')|].
      apply (Hfree s' d' s' Hs'). by left.
    + apply (dk_used _ _ _ Hdk).
  - by rewrite (od_map _ _ _ _ _ _ Hod).
  - by rewrite (od_map _ _ _ _ _ _ Hod).
  - by rewrite (od_map _ _ _ _ _ _ Hod).
  - pose proof (od_brk _ _ _ _ _ _ Hod). lia.
  - by rewrite (od_files _ _ _ _ _ _ Hod).
Qed.

(** The result of [inode_create]. *)
Definition created_ok (G : gmap Z inode_disk) (E : Z → Prop) (s len : Z) (f : fs D) (b : bool) (f' : fs D) : Prop :=
  if b then ∃ first, let d := InodeDisk first len INODE_MAGIC in
    fs_base (<[s := d]> G) f' ∧
    alters (λ t, E t ∨ claims s d t) (set_bits (bm_test (free_map f)) first (sectors len) true) f f' ∧
    bm_run (free_map f) first (sectors len) false ∧
    fdata (device f') first 0 len = replicate (Z.to_nat len) 0
  else alters E (bm_test (free_map f)) f f' ∧
    (plenty f → ∀ i, 0 ≤ i → i + sectors len ≤ size → ¬ bm_run (free_map f) i (sectors len) false).

(** Neither an inode nor its data are in the sectors of the free map. *)
Lemma map_ready_apart G f E s d : fs_base G f → map_ready G f E → G !! s = Some d → ¬ E s.
Proof.
  intros Hf HE Hs Ht. destruct (map_ready_in G f E s Hf HE Ht) as (s2 & d2 & Hs2 & Hc2 & Hne & _).
  apply Hne. apply (dk_apart _ _ _ (fo_disk _ _ Hf) s d s2 d2 s); [done|done|by left|done].
Qed.

(** The part of [inode_create] after the allocation of [first]. *)
Lemma create_data_ok G f f1 E s first len : fs_base G f → map_ready G f E → 0 ≤ s < size → 0 ≤ len < 2 ^ 31 - 512 →
  bm_test (free_map f) s = true → (∀ s' d', G !! s' = Some d' → ¬ claims s' d' s) →
  0 ≤ first → first + sectors len ≤ size → bm_run (free_map f) first (sectors len) false →
  alters E (set_bits (bm_test (free_map f)) first (sectors len) true) f f1 →
  let d := InodeDisk first len INODE_MAGIC in
  ∃ f2, (let* _ := dev_write ops s (encode_inode d) in zero_sectors ops (Z.to_nat (sectors len)) first) f1 = Ret ((), f2) ∧
    created_ok G E s len f true f2 ∧ ∀ ip i, map_file G f ip i → persisted f1 (data i) → persisted f2 (data i).
Proof.
  intros Hf HE Hs Hlen Hused Hfree Hfst Hlst Hrun Hal d. pose proof (fo_disk _ _ Hf) as Hd.
  assert (fs_base G f1) as Hfs1.
  { apply (alters_base G _ _ f f1 Hf Hal); [by intros s' d'; apply (map_ready_apart G f)|]. by apply (set_bits_used G (device f)). }
  assert (∀ j, 0 ≤ j → bm_test (free_map f1) j = set_bits (bm_test (free_map f)) first (sectors len) true j) as Htest
    by apply (becomes_test _ _ _ (al_map _ _ _ _ Hal)).
  assert (∀ s' d' t, G !! s' = Some d' → claims s' d' t → ¬ claims s d t) as Hap.
  { intros s' d' t Hs' Ht [->|Ht2]; [by apply (Hfree s' d')|]. pose proof (dk_used _ _ _ Hd s' d' t Hs' Ht) as Hu.
    by rewrite (Hrun t Ht2) in Hu. }
  pose proof (sectors_le len ltac:(lia)) as Hsl.
  destruct (create_write_ok G f1 s d Hfs1 Hs) as (f2 & Hf2 & Hod2 & Hfs2 & Hz); [split; simpl; lia|done| | |done|].
  { intros t Ht. unfold claims in Ht. simpl in Ht. rewrite Htest by lia. unfold set_bits. case_decide; [done|].
    destruct Ht as [->|?]; [done|lia]. }
  { simpl. intros Hx. rewrite (Hrun s Hx) in Hused. done. }
  exists f2. split; [done|]. split.
  - exists first. split; [done|]. split; [|done]. eapply alters_weaken; [| |eapply alters_trans; [exact Hal|]].
    3:{ apply (only_alters (claims s d) f1 f2); [apply Hfs1|done]. }
    + done.
    + intros j Hj. by apply Htest.
  - intros ip i Hmf. apply (persisted_kept G f1 f2 ip i (claims s d)); [done|apply (map_file_same G f); [apply Hal..|done]|done|].
    intros t Ht. apply (Hap _ _ t (mf_disk _ _ _ _ Hmf)). by right.
Qed.

Lemma inode_create_ok G f E s len : fs_base G f → map_ready G f E → 0 ≤ s < size → 0 ≤ len < 2 ^ 31 - 512 →
  bm_test (free_map f) s = true → (∀ s' d', G !! s' = Some d' → ¬ claims s' d' s) →
  ∃ b f', inode_create ops s len f = Ret (b, f') ∧
    created_ok G E s len f b f' ∧
    (plenty f → ∀ ip i, map_file G f ip i → persisted f (data i) → persisted f' (data i)).
Proof.
  intros Hf HE Hs Hlen Hused Hfree. pose proof Hf as [Hd Hm Hc Hw Hbk Hnl]. unfold inode_create.
  rewrite (cstep _ _ _ () f) by (apply assert_ok; bool_prop; lia).
  rewrite (cstep _ _ _ (if mem f (brk f) then brk f else 0) (w_brk (brk f + 1) f)) by done.
  set (f0 := w_brk (brk f + 1) f).
  assert (only_dev (λ _, False) f f0) as Hod0 by (split; try done; [apply Hd|simpl; lia]).
  assert (fs_base G f0) as Hf0 by (by apply (reads_base G f)).
  destruct ((if mem f (brk f) then brk f else 0) =? 0) eqn:Ep.
  { exists false, f0. split; [done|]. split; [split|].
    - eapply alters_weaken; [| |apply (only_alters _ _ _ Hm Hod0)]; done.
    - intros Hp. exfalso. rewrite (Hp (brk f)) in Ep. bool_prop. lia.
    - intros _ ip i _. done. }
  rewrite bytes_to_sectors_eq by lia. pose proof (sectors_le len ltac:(lia)) as Hsl.
  destruct (free_map_allocate_ok G f0 E (sectors len) Hf0) as (r & f1 & Hr & Hcase & Hper);
    [by apply (map_ready_same G f)|lia|].
  rewrite (cstep _ _ _ _ _ Hr). change (free_map f0) with (free_map f) in Hcase.
  assert (∀ g, alters E g f0 f1 → alters E g f f1) as Hal0.
  { intros g Hg. eapply alters_weaken; [| |eapply alters_trans; [apply (only_alters _ _ _ Hm Hod0)|exact Hg]]; [by intros t [[]|?]|done]. }
  assert (plenty f → ∀ ip i, map_file G f ip i → persisted f (data i) → persisted f1 (data i)) as Hper1.
  { intros Hp ip i Hmf. apply (Hper Hp ip i). by apply (map_file_same G f). }
  destruct r as [first|]; [|exists false, f1; split; [done|]; split; [|done]; split; [by apply Hal0, Hcase|apply Hcase]].
  destruct Hcase as (Hfst & Hlst & Hrun & _ & Hal).
  destruct (create_data_ok G f f1 E s first len) as (f2 & Hf2 & Hok & Hper2); [done..|by apply Hal0|].
  exists true, f2. split; [|split; [done|]].
  - apply cmd_bind_Ret in Hf2 as ([] & f3 & Hf3 & Hf2). rewrite (cstep _ _ _ _ _ Hf3), (cstep _ _ _ _ _ Hf2). done.
  - intros Hp ip i Hmf Hpers. apply (Hper2 ip i Hmf). by apply (Hper1 Hp ip).
Qed.

(** ** Opening an inode *)

(** [i'] is [i] with another number of openers. *)
Definition with_cnt (i : inode) (n : Z) : inode := Inode (i_sector i) n (removed i) (deny_write_cnt i) (data i).

(** Steps that only take memory, read the disk and change the table of inodes. *)
Record reopens (f f' : fs D) : Prop := {
  ro_block : block_ok (device f');
  ro_content s : 0 ≤ s < size → block_content (device f') s = block_content (device f) s;
  ro_map : free_map f' = free_map f;
  ro_map_file : free_map_file f' = free_map_file f;
  ro_files : open_files f' = open_files f;
  ro_dirs : dirs f' = dirs f;
  ro_brk : brk f ≤ brk f';
  ro_mem : mem f' = mem f
}.

Lemma reopens_base G f f' : reopens f f' → fs_base G f → fs_base G f'.
Proof.
  intros Hr [Hd Hm Hc Hw Hb Hn]. split; rewrite ?(ro_map _ _ Hr); try done.
  - apply (disk_step G (device f) _ (bm_test (free_map f))); [done|apply Hr| |apply (dk_used _ _ _ Hd)].
    intros s d Hs. apply (ro_content _ _ Hr). by apply (dk_range _ _ _ Hd s d).
  - pose proof (ro_brk _ _ Hr). lia.
  - by rewrite (ro_files _ _ Hr).
Qed.

(** One more holder of an inode that is open. *)
Lemma open_more G R f f' ip i : open_ok G R f → reopens f f' → inodes f !! ip = Some i →
  inodes f' = <[ip := with_cnt i (open_cnt i + 1)]> (inodes f) → open_inodes f' = open_inodes f → open_ok G (ip :: R) f'.
Proof.
  intros [Hd Hl Hn Hs Hr Hop Hdn Hfr Hnl] Hro Hi Ei Eo.
  assert (∀ q j, inodes f' !! q = Some j → ∃ j0, inodes f !! q = Some j0 ∧ i_sector j = i_sector j0 ∧ data j = data j0 ∧
    deny_write_cnt j = deny_write_cnt j0 ∧ open_cnt j0 ≤ open_cnt j) as Hback.
  { intros q j. rewrite Ei. intros [[<- <-]|[_ Hq]]%lookup_insert_Some; [exists i|exists j]; simpl; auto with lia. }
  split; rewrite ?Eo; try done.
  - intros q j Hj. destruct (Hback q j Hj) as (j0 & Hq & -> & -> & _). by apply (Hd q).
  - intros q. rewrite Hl, Ei, lookup_insert_is_Some. destruct (decide (ip = q)) as [<-|]; [|naive_solver].
    split; [by left|]. intros _. by exists i.
  - intros q q' j j' Hj Hj'. destruct (Hback q j Hj) as (j0 & Hq & -> & _), (Hback q' j' Hj') as (j1 & Hq' & -> & _).
    by apply Hs.
  - intros q. unfold refs. rewrite (ro_files _ _ Hro), (ro_dirs _ _ Hro), occurs_in_cons. pose proof (Hr q) as Hq. unfold refs in Hq.
    rewrite Ei. case_decide as E; [subst q; rewrite lookup_insert_eq|rewrite lookup_insert_ne by done]; [|lia].
    rewrite Hi in Hq. simpl in *. lia.
  - intros q j Hj. destruct (Hback q j Hj) as (j0 & Hq & _ & _ & _ & ?). pose proof (Hop q j0 Hq). lia.
  - intros q j Hj. destruct (Hback q j Hj) as (j0 & Hq & _ & _ & -> & _). rewrite (Hdn q j0 Hq). unfold denials.
    by rewrite (ro_files _ _ Hro).
  - intros p Hp. rewrite (ro_files _ _ Hro), (ro_dirs _ _ Hro), Ei. pose proof (ro_brk _ _ Hro).
    destruct (Hfr p) as (H1 & H2 & H3); [lia|]. rewrite lookup_insert_ne by congruence. done.
  - rewrite (ro_dirs _ _ Hro), Ei. destruct Hnl. rewrite lookup_insert_ne by congruence. done.
Qed.

(** An inode that was not open. *)
Lemma open_new G R f f' s d : open_ok G R f → reopens f f' → G !! s = Some d →
  (∀ ip i, inodes f !! ip = Some i → i_sector i ≠ s) → 0 < brk f → brk f < brk f' →
  inodes f' = <[brk f := Inode s 1 false 0 d]> (inodes f) → open_inodes f' = brk f :: open_inodes f →
  open_ok G (brk f :: R) f'.
Proof.
  intros [Hd Hl Hn Hs Hr Hop Hdn Hfr Hnl] Hro Hg Hnew Hb Hb' Ei Eo. set (ip := brk f) in *.
  assert (inodes f !! ip = None) as Hip by (by apply Hfr).
  split; rewrite ?Eo, ?Ei.
  - intros q j [[<- <-]|[_ Hq]]%lookup_insert_Some; [done|by apply (Hd q)].
  - intros q. rewrite elem_of_cons, Hl, lookup_insert_is_Some'. naive_solver.
  - apply NoDup_cons. split; [|done]. rewrite Hl, Hip. by intros [].
  - intros q q' j j' [[<- <-]|[_ Hq]]%lookup_insert_Some [[<- <-]|[_ Hq']]%lookup_insert_Some; simpl; [done| | |by apply Hs].
    + intros E. by destruct (Hnew q' j' Hq').
    + intros E. by destruct (Hnew q j Hq).
  - intros q. unfold refs. rewrite (ro_files _ _ Hro), (ro_dirs _ _ Hro), occurs_in_cons. pose proof (Hr q) as Hq. unfold refs in Hq.
    case_decide as E; [subst q; rewrite lookup_insert_eq|rewrite lookup_insert_ne by done]; [|lia].
    rewrite Hip in Hq. simpl in *. lia.
  - intros q j [[<- <-]|[_ Hq]]%lookup_insert_Some; [done|by apply (Hop q)].
  - intros q j [[<- <-]|[_ Hq]]%lookup_insert_Some.
    + unfold denials. rewrite (ro_files _ _ Hro). simpl. pose proof (denials_le R f ip) as Hle.
      rewrite Hr, Hip in Hle. unfold denials in Hle. simpl in Hle. lia.
    + rewrite (Hdn q j Hq). unfold denials. by rewrite (ro_files _ _ Hro).
  - intros p Hp. rewrite (ro_files _ _ Hro), (ro_dirs _ _ Hro). destruct (Hfr p) as (H1 & H2 & H3); [lia|].
    rewrite lookup_insert_ne by lia. done.
  - rewrite (ro_dirs _ _ Hro). destruct Hnl. rewrite lookup_insert_ne by lia. done.
Qed.

Lemma find_open_ok m l s : (∀ ip, ip ∈ l → is_Some (m !! ip)) →
  ∃ r, find_open m l s = Ret r ∧
    match r with
    | Some ip => ip ∈ l ∧ ∃ i, m !! ip = Some i ∧ i_sector i = s
    | None => ∀ ip i, ip ∈ l → m !! ip = Some i → i_sector i ≠ s
    end.
Proof.
  induction l as [|ip l IH]; intros Hl; cbn [find_open].
  { exists None. split; [done|]. intros ip i H. by apply elem_of_nil in H. }
  destruct (Hl ip) as [i Hi]; [by left|]. rewrite Hi. cbn [access mbind outcome_bind].
  destruct (Z.eqb_spec (i_sector i) s) as [E|E].
  - exists (Some ip). split; [done|]. split; [by left|]. by exists i.
  - destruct IH as (r & Hr & Hcase); [intros q Hq; apply Hl; by right|]. exists r. split; [done|].
    destruct r as [q|]; [split; [right|]; apply Hcase|]. intros q j [->|Hq]%elem_of_cons Hj; [congruence|by apply (Hcase q j)].
Qed.

(** [ip] is opened: again, or as a new inode. *)
Definition opened (f f' : fs D) (ip : Z) (i : inode) : Prop :=
  inodes f' = <[ip := i]> (inodes f) ∧
  match inodes f !! ip with Some i0 => i = with_cnt i0 (open_cnt i0 + 1) | None => removed i = false end.

Lemma inode_reopen_ok G R f ip i : fs_ok G R f → inodes f !! ip = Some i →
  ∃ f', inode_reopen ip f = Ret (ip, f') ∧ fs_ok G (ip :: R) f' ∧ reopens f f' ∧
    inodes f' = <[ip := with_cnt i (open_cnt i + 1)]> (inodes f).
Proof.
  intros [Hb Ho] Hi. unfold inode_reopen. assert (ip ≠ 0) as Hnz by (intros ->; destruct (op_null _ _ _ Ho); congruence).
  destruct (Z.eqb_spec ip 0); [done|]. rewrite (cstep _ _ _ i f) by (unfold get_inode; by rewrite Hi).
  set (f1 := w_inodes (<[ip := with_cnt i (open_cnt i + 1)]> (inodes f)) f).
  rewrite (cstep _ _ _ () f1) by done. exists f1. split; [done|].
  assert (reopens f f1) as Hr by (split; try done; apply Hb).
  split; [|done]. split; [by apply (reopens_base G f)|]. by apply (open_more G R f f1 ip i).
Qed.

Lemma inode_open_ok G R f s d : fs_ok G R f → G !! s = Some d → plenty f →
  ∃ ip i f', inode_open ops s f = Ret (ip, f') ∧ fs_ok G (ip :: R) f' ∧ reopens f f' ∧ opened f f' ip i ∧
    i_sector i = s ∧ data i = d ∧ ip ≠ 0.
Proof.
  intros Hf Hs Hp. pose proof Hf as [Hb Ho]. pose proof (dk_range _ _ _ (fo_disk _ _ Hb) s d Hs) as Hr.
  unfold inode_open. rewrite cget.
  destruct (find_open_ok (inodes f) (open_inodes f) s) as (r & Hfind & Hcase); [intros q Hq; by apply (op_list _ _ _ Ho)|].
  rewrite (cstep _ _ _ r f) by (unfold lift; by rewrite Hfind). destruct r as [ip|].
  - destruct Hcase as (_ & i & Hi & Hsec). destruct (inode_reopen_ok G R f ip i Hf Hi) as (f' & Hre & Hf' & Hro & Ei).
    exists ip, (with_cnt i (open_cnt i + 1)), f'. split; [done|]. split; [done|]. split; [done|].
    split; [split; [done|by rewrite Hi]|]. split; [done|]. split.
    + pose proof (op_disk _ _ _ Ho ip i Hi) as Hd. rewrite Hsec in Hd. simpl. congruence.
    + intros ->. destruct (op_null _ _ _ Ho). congruence.
  - pose proof (fo_brk _ _ Hb) as Hbrk.
    rewrite (cstep _ _ _ (brk f) (w_brk (brk f + 1) f)) by (unfold alloc; by rewrite (Hp (brk f))).
    destruct (Z.eqb_spec (brk f) 0); [lia|]. rewrite cmodify. cbn [open_inodes w_brk].
    set (f1 := w_open_inodes (brk f :: open_inodes f) (w_brk (brk f + 1) f)).
    destruct (dev_read_ok ops ok size content f1 s) as (f2 & Hrd & Hod); [apply Hb|done|]. rewrite (cstep _ _ _ _ _ Hrd).
    rewrite (cstep _ _ _ d f2) by (unfold lift; simpl; by rewrite (dk_decode _ _ _ (fo_disk _ _ Hb) s d Hs)).
    set (f3 := w_inodes (<[brk f := Inode s 1 false 0 d]> (inodes f2)) f2). rewrite (cstep _ _ _ () f3) by done.
    destruct Hod as [Hbk Hc Hm Hmf Hin Hop Hfi Hdi Hbr Hme].
    assert (inodes f !! brk f = None) as Hnone by (by apply (op_fresh _ _ _ Ho)).
    assert (inodes f3 = <[brk f := Inode s 1 false 0 d]> (inodes f)) as Ei by (simpl; by rewrite Hin).
    assert (reopens f f3) as Hro.
    { split; try done; [intros t Ht; by apply Hc; [|tauto]|simpl in *; lia]. }
    exists (brk f), (Inode s 1 false 0 d), f3. split; [done|]. split.
    { split; [by apply (reopens_base G f)|]. apply (open_new G R f f3 s d); try done.
      - intros q j Hq. apply (Hcase q j); [|done]. apply (op_list _ _ _ Ho). by rewrite Hq.
      - simpl in *. lia. }
    split; [done|]. split; [split; [done|by rewrite Hnone]|]. done.
Qed.

(** ** Closing an inode *)

Definition closed_inodes (ip : Z) (i : inode) (m : gmap Z inode) : gmap Z inode :=
  if decide (open_cnt i = 1) then delete ip m else <[ip := with_cnt i (open_cnt i - 1)]> m.
Definition closed_list (ip : Z) (i : inode) (l : list Z) : list Z :=
  if decide (open_cnt i = 1) then filter (.≠ ip) l else l.
(** The last holder of a removed inode deletes it. *)
Definition dropped (i : inode) : bool := bool_decide (open_cnt i = 1) && removed i.
Definition closed_disk (i : inode) (G : gmap Z inode_disk) : gmap Z inode_disk :=
  if dropped i then delete (i_sector i) G else G.

Lemma closed_lookup ip i m q j : m !! ip = Some i → closed_inodes ip i m !! q = Some j →
  ∃ j0, m !! q = Some j0 ∧ j = with_cnt j0 (open_cnt j) ∧ (q = ip → open_cnt i ≠ 1 ∧ open_cnt j = open_cnt i - 1) ∧
    (q ≠ ip → j = j0).
Proof.
  intros Hi. unfold closed_inodes. case_decide as E.
  - intros [Hne Hj]%lookup_delete_Some. exists j. split; [done|]. by destruct j.
  - intros [[<- <-]|[Hne Hj]]%lookup_insert_Some; [exists i|exists j]; [done|]. split; [done|]. by destruct j.
Qed.

Lemma open_closed G G' R f f' ip i : open_ok G (ip :: R) f → inodes f !! ip = Some i →
  (∀ q j, inodes f' !! q = Some j → G' !! i_sector j = G !! i_sector j) →
  inodes f' = closed_inodes ip i (inodes f) → open_inodes f' = closed_list ip i (open_inodes f) →
  open_files f' = open_files f → dirs f' = dirs f → brk f ≤ brk f' → open_ok G' R f'.
Proof.
  intros [Hd Hl Hn Hs Hr Hop Hdn Hfr Hnl] Hi HG Ei Eo Ef Ed Eb.
  assert (∀ q j, inodes f' !! q = Some j → ∃ j0, inodes f !! q = Some j0 ∧ j = with_cnt j0 (open_cnt j) ∧
    (q = ip → open_cnt i ≠ 1 ∧ open_cnt j = open_cnt i - 1) ∧ (q ≠ ip → j = j0)) as Hback.
  { intros q j. rewrite Ei. by apply closed_lookup. }
  split.
  - intros q j Hj. rewrite (HG q j Hj). destruct (Hback q j Hj) as (j0 & Hq & -> & _). by apply (Hd q j0).
  - intros q. rewrite Ei, Eo. unfold closed_inodes, closed_list. case_decide.
    + rewrite list_elem_of_filter, lookup_delete_is_Some, Hl. naive_solver.
    + rewrite Hl, lookup_insert_is_Some'. split; [by right|]. intros [<-|?]; [by rewrite Hi|done].
  - rewrite Eo. unfold closed_list. case_decide; [by apply NoDup_filter|done].
  - intros q q' j j' Hj Hj'. destruct (Hback q j Hj) as (j0 & Hq & -> & _), (Hback q' j' Hj') as (j1 & Hq' & -> & _).
    by apply (Hs q q' j0 j1).
  - intros q. pose proof (Hr q) as Hq. unfold refs in *. rewrite Ef, Ed. rewrite occurs_in_cons in Hq. rewrite Ei. unfold closed_inodes.
    destruct (decide (ip = q)) as [<-|Hne].
    + rewrite Hi in Hq. simpl in Hq. case_decide; [rewrite lookup_delete_eq|rewrite lookup_insert_eq]; simpl; lia.
    + case_decide; [rewrite lookup_delete_ne by done|rewrite lookup_insert_ne by done]; lia.
  - intros q j Hj. destruct (Hback q j Hj) as (j0 & Hq & _ & H1 & H2). pose proof (Hop q j0 Hq). pose proof (Hop ip i Hi).
    destruct (decide (q = ip)) as [E|Hne]; [destruct (H1 E); lia|rewrite (H2 Hne); lia].
  - intros q j Hj. destruct (Hback q j Hj) as (j0 & Hq & -> & _). simpl. rewrite (Hdn q j0 Hq). unfold denials. by rewrite Ef.
  - intros p Hp. rewrite Ef, Ed, Ei. destruct (Hfr p) as (H1 & H2 & H3); [lia|]. split; [|done]. unfold closed_inodes.
    case_decide; [by rewrite lookup_delete_None; right|]. rewrite lookup_insert_ne by congruence. done.
  - rewrite Ed, Ei. destruct Hnl as [H1 H2]. split; [|done]. unfold closed_inodes.
    case_decide; [by rewrite lookup_delete_None; right|]. rewrite lookup_insert_ne by congruence. done.
Qed.

Lemma closed_disk_other G R f ip i q j : open_ok G R f → inodes f !! ip = Some i →
  closed_inodes ip i (inodes f) !! q = Some j → closed_disk i G !! i_sector j = G !! i_sector j.
Proof.
  intros Ho Hi Hj. destruct (closed_lookup _ _ _ _ _ Hi Hj) as (j0 & Hq & Ej & H1 & _). unfold closed_disk, dropped.
  case_bool_decide as Ec; [|done]. destruct (removed i); [|done]. simpl. rewrite lookup_delete_ne; [done|]. rewrite Ej. simpl.
  intros Hs. destruct (H1 (op_sector _ _ _ Ho q ip j0 i Hq Hi (eq_sym Hs))). done.
Qed.

(** What closing leaves; the file of the free map is in the sectors [E]. *)
Record closes (E : Z → Prop) (ip : Z) (i : inode) (f f' : fs D) : Prop := {
  cl_block : block_ok (device f');
  cl_content s : 0 ≤ s < size → (¬ E s ∨ dropped i = false) → block_content (device f') s = block_content (device f) s;
  cl_map j : 0 ≤ j → bm_test (free_map f') j =
    bm_test (free_map f) j && negb (dropped i && bool_decide (claims (i_sector i) (data i) j));
  cl_map_file : free_map_file f' = free_map_file f;
  cl_inodes : inodes f' = closed_inodes ip i (inodes f);
  cl_open : open_inodes f' = closed_list ip i (open_inodes f);
  cl_files : open_files f' = open_files f;
  cl_dirs : dirs f' = dirs f;
  cl_brk : brk f ≤ brk f';
  cl_mem : mem f' = mem f
}.

Lemma disk_delete G b used s : disk_ok G b used → disk_ok (delete s G) b used.
Proof.
  intros [Hb Hr Hdc Hex Hu Hsf Hap].
  split; try done; intros s' d'; intros; repeat match goal with H : delete _ _ !! _ = Some _ |- _ => apply lookup_delete_Some in H as [_ H] end; eauto.
Qed.

Lemma base_delete G f s : fs_base G f → fs_base (delete s G) f.
Proof. intros []. split; try done. by apply disk_delete. Qed.

Lemma inode_close_kept E f ip i : block_ok (device f) → inodes f !! ip = Some i → ip ≠ 0 → dropped i = false →
  ∃ f', inode_close ops ip f = Ret ((), f') ∧ closes E ip i f f' ∧ free_map f' = free_map f.
Proof.
  intros Hb Hi Hnz Hd. unfold inode_close. destruct (Z.eqb_spec ip 0); [done|].
  rewrite (cstep _ _ _ i f) by (unfold get_inode; by rewrite Hi).
  rewrite (cstep _ _ _ () (w_inodes (<[ip := with_cnt i (open_cnt i - 1)]> (inodes f)) f)) by done.
  unfold dropped in Hd. destruct (Z.eqb_spec (open_cnt i - 1) 0) as [E1|E1].
  - rewrite bool_decide_true in Hd by lia. simpl in Hd. rewrite Hd, cmodify.
    rewrite (cstep _ _ _ () (w_open_inodes (filter (.≠ ip) (open_inodes f)) (w_inodes (<[ip := with_cnt i (open_cnt i - 1)]> (inodes f)) f))) by done.
    eexists. split; [done|]. split; [|done]. split; try done; simpl.
    + intros j _. unfold dropped. by rewrite Hd, andb_false_r, andb_true_r.
    + unfold closed_inodes. rewrite decide_True by lia. by rewrite delete_insert_eq.
    + unfold closed_list. rewrite decide_True by lia. done.
  - eexists. split; [done|]. split; [|done]. split; try done; simpl.
    + intros j _. unfold dropped. rewrite bool_decide_false by lia. by rewrite andb_true_r.
    + unfold closed_inodes. by rewrite decide_False by lia.
    + unfold closed_list. by rewrite decide_False by lia.
Qed.

Lemma map_file_delete G f ip0 i0 s : s ≠ FREE_MAP_SECTOR → map_file G f ip0 i0 → map_file (delete s G) f ip0 i0.
Proof. intros Hs []. split; try done. by rewrite lookup_delete_ne. Qed.

(** Both releases of the last close of a removed inode. *)
Lemma release_extent G f ip0 i0 s d : fs_base G f → map_file G f ip0 i0 → G !! s = Some d → s ≠ FREE_MAP_SECTOR →
  ∃ f', (let* _ := free_map_release ops s 1 in free_map_release ops (start d) (bytes_to_sectors (d_length d))) f = Ret ((), f') ∧
    fs_base (delete s G) f' ∧ (plenty f → persisted f' (data i0)) ∧
    alters (λ t, start (data i0) ≤ t < start (data i0) + sectors (d_length (data i0)))
      (λ t, bm_test (free_map f) t && negb (bool_decide (claims s d t))) f f'.
Proof.
  intros Hf Hmf Hs Hns. pose proof (fo_disk _ _ Hf) as Hdk. pose proof (dk_extent _ _ _ Hdk s d Hs) as [Hl Hst He].
  pose proof (dk_range _ _ _ Hdk s d Hs) as Hr. rewrite bytes_to_sectors_eq by lia. pose proof (sectors_le (d_length d) ltac:(lia)).
  assert (∀ s' d' t, delete s G !! s' = Some d' → claims s' d' t → ¬ claims s d t) as Hap.
  { intros s' d' t [Hne Hs']%lookup_delete_Some Ht Ht2. by destruct Hne, (dk_apart _ _ _ Hdk s d s' d' t). }
  set (E := λ t, start (data i0) ≤ t < start (data i0) + sectors (d_length (data i0))).
  assert (∀ s' d', G !! s' = Some d' → ¬ E s') as HE.
  { intros s' d' Hs'. by apply (data_apart G _ _ FREE_MAP_SECTOR (data i0) s' d' Hdk (mf_disk _ _ _ _ Hmf)). }
  destruct (free_map_release_ok (delete s G) f ip0 i0 s 1) as (f1 & Hf1 & Hal1 & _);
    [by apply base_delete|by apply map_file_delete|lia|lia|lia| | |].
  { intros j Hj. apply (dk_used _ _ _ Hdk s d); [done|]. left. lia. }
  { intros s' d' t Hs' Ht Hst'. apply (Hap s' d' t Hs' Ht). left. lia. }
  rewrite (cstep _ _ _ _ _ Hf1).
  assert (fs_base (delete s G) f1) as Hb1.
  { apply (alters_base _ _ _ f f1 (base_delete G f s Hf) Hal1).
    - intros s' d' [_ Hs']%lookup_delete_Some. by apply (HE s' d').
    - intros s' d' t Hs' Ht. unfold set_bits. case_decide; [destruct (Hap s' d' t Hs' Ht); left; lia|].
      by apply (dk_used _ _ _ (disk_delete _ _ _ s Hdk) s' d'). }
  assert (∀ t, 0 ≤ t → bm_test (free_map f1) t = set_bits (bm_test (free_map f)) s 1 false t) as Ht1 by apply (al_map _ _ _ _ Hal1).
  destruct (free_map_release_ok (delete s G) f1 ip0 i0 (start d) (sectors (d_length d))) as (f2 & Hf2 & Hal2 & Hper);
    [done| |lia|lia|lia| | |].
  { apply (map_file_same _ f); [apply Hal1..|]. by apply map_file_delete. }
  { intros j Hj. rewrite Ht1 by lia. unfold set_bits. case_decide.
    - destruct (dk_self _ _ _ Hdk s d Hs). lia.
    - apply (dk_used _ _ _ Hdk s d); [done|]. by right. }
  { intros s' d' t Hs' Ht Hst'. apply (Hap s' d' t Hs' Ht). by right. }
  assert (∀ t, 0 ≤ t → set_bits (bm_test (free_map f1)) (start d) (sectors (d_length d)) false t =
    bm_test (free_map f) t && negb (bool_decide (claims s d t))) as Hfin.
  { intros t Ht. unfold set_bits at 1. rewrite Ht1 by done. unfold set_bits, claims. repeat case_decide; case_bool_decide; simpl;
      rewrite ?andb_true_r, ?andb_false_r; done || lia. }
  exists f2. split; [done|]. split; [|split].
  - apply (alters_base _ _ _ f1 f2 Hb1 Hal2).
    + intros s' d' [_ Hs']%lookup_delete_Some. by apply (HE s' d').
    + intros s' d' t Hs' Ht. unfold set_bits. case_decide; [destruct (Hap s' d' t Hs' Ht); by right|].
      by apply (dk_used _ _ _ (fo_disk _ _ Hb1) s' d').
  - intros Hp. apply Hper. intros n. rewrite (al_mem _ _ _ _ Hal1). apply Hp.
  - eapply alters_weaken; [| |eapply alters_trans; [exact Hal1|exact Hal2]]; [by intros t [?|?]|done].
Qed.

(** The sectors [E] hold the free map, which the last close of [i] updates. *)
Definition close_ready (G : gmap Z inode_disk) (E : Z → Prop) (f : fs D) (i : inode) : Prop :=
  dropped i = true → i_sector i ≠ FREE_MAP_SECTOR ∧
  ∃ ip0 i0, map_file G f ip0 i0 ∧ ∀ t, E t ↔ start (data i0) ≤ t < start (data i0) + sectors (d_length (data i0)).

Lemma map_file_unique G f ip0 i0 ip1 i1 : map_file G f ip0 i0 → map_file G f ip1 i1 → ip0 = ip1 ∧ i0 = i1.
Proof. intros [_ (x & Hx & <-) Hi _ _ _ _] [_ (y & Hy & <-) Hj _ _ _ _]. assert (x = y) as -> by congruence. split; congruence. Qed.

Lemma inode_close_dropped G E f ip i : fs_base G f → inodes f !! ip = Some i → G !! i_sector i = Some (data i) → ip ≠ 0 →
  dropped i = true → close_ready G E f i →
  ∃ f', inode_close ops ip f = Ret ((), f') ∧ closes E ip i f f' ∧ fs_base (closed_disk i G) f' ∧
    (plenty f → ∀ ip0 i0, map_file G f ip0 i0 → persisted f' (data i0)).
Proof.
  intros Hb Hi Hg Hnz Hd HE. unfold inode_close. destruct (Z.eqb_spec ip 0); [done|].
  rewrite (cstep _ _ _ i f) by (unfold get_inode; by rewrite Hi).
  rewrite (cstep _ _ _ () (w_inodes (<[ip := with_cnt i (open_cnt i - 1)]> (inodes f)) f)) by done.
  destruct (HE Hd) as (Hns & ip0 & i0 & Hmf & HEE). pose proof Hd as Hd'.
  apply andb_true_iff in Hd' as [E1%bool_decide_eq_true Hrm].
  destruct (Z.eqb_spec (open_cnt i - 1) 0) as [_|?]; [|lia]. rewrite Hrm, cmodify.
  set (f1 := w_open_inodes (filter (.≠ ip) (open_inodes f)) (w_inodes (<[ip := with_cnt i (open_cnt i - 1)]> (inodes f)) f)).
  assert (fs_base G f1) as Hb1 by (apply (reopens_base G f); [split; try done; apply Hb|done]).
  assert (map_file G f1 ip0 i0) as Hmf1.
  { destruct Hmf as [? ? Hi0 Hs0]. split; try done. simpl. rewrite lookup_insert_ne; [done|]. intros ->. congruence. }
  destruct (release_extent G f1 ip0 i0 (i_sector i) (data i) Hb1 Hmf1 Hg Hns) as (f2 & Hf2 & Hb2 & Hper & Hal).
  change (w_open_inodes _ _) with f1.
  rewrite (cstep _ _ _ _ _ Hf2). exists (w_inodes (delete ip (inodes f2)) f2). split; [done|]. split; [|split].
  - destruct Hal. split; try done.
    + intros s Hs [HnE|?]; [|congruence]. apply al_content0; [done|]. by rewrite <- HEE.
    + intros j Hj. rewrite Hd. by apply (becomes_test _ _ _ al_map0).
    + simpl. rewrite al_inodes0. unfold closed_inodes. rewrite decide_True by done. simpl. apply delete_insert_eq.
    + simpl. rewrite al_open0. unfold closed_list. by rewrite decide_True by done.
  - unfold closed_disk. rewrite Hd. apply (reopens_base _ f2); [|done]. split; try done. apply Hb2.
  - intros Hp ip1 i1 Hmf'. destruct (map_file_unique _ _ _ _ _ _ Hmf Hmf') as [_ <-]. apply Hper. done.
Qed.

Lemma inode_close_ok G E f ip i : fs_base G f → inodes f !! ip = Some i → G !! i_sector i = Some (data i) → ip ≠ 0 →
  close_ready G E f i →
  ∃ f', inode_close ops ip f = Ret ((), f') ∧ closes E ip i f f' ∧ fs_base (closed_disk i G) f' ∧
    (plenty f → ∀ ip0 i0, map_file G f ip0 i0 → persisted f (data i0) → persisted f' (data i0)).
Proof.
  intros Hb Hi Hg Hnz HE. destruct (dropped i) eqn:Hd.
  - destruct (inode_close_dropped G E f ip i Hb Hi Hg Hnz Hd HE) as (f' & ? & ? & ? & Hper). exists f'. eauto 10.
  - destruct (inode_close_kept E f ip i) as (f' & Hc & Hcl & Hm); [apply Hb|done..|].
    assert (∀ s, 0 ≤ s < size → block_content (device f') s = block_content (device f) s) as Hct.
    { intros s Hs. apply (cl_content _ _ _ _ _ Hcl); [done|by right]. }
    assert (reopens f f') as Hro by (destruct Hcl; by split).
    exists f'. split; [done|]. split; [done|]. split.
    + unfold closed_disk. rewrite Hd. by apply (reopens_base G f).
    + intros _ ip0 i0 Hmf. apply persisted_same; [intros k _; by rewrite Hm|].
      pose proof (dk_extent _ _ _ (fo_disk _ _ Hb) _ _ (mf_disk _ _ _ _ Hmf)) as [Hl Hs He].
      pose proof (sectors_le (d_length (data i0)) ltac:(lia)). pose proof (mf_length _ _ _ _ Hmf).
      apply fdata_ext. intros j Hj. apply fbyte_ext; [lia|]. apply Hct. div_lia.
Qed.

(** Closing an inode that [R] holds. *)
Lemma inode_close_holder G E R f ip i : fs_ok G (ip :: R) f → inodes f !! ip = Some i → close_ready G E f i →
  ∃ f', inode_close ops ip f = Ret ((), f') ∧ closes E ip i f f' ∧ fs_ok (closed_disk i G) R f' ∧
    (plenty f → ∀ ip0 i0, map_file G f ip0 i0 → persisted f (data i0) → persisted f' (data i0)).
Proof.
  intros [Hb Ho] Hi HE. pose proof (op_disk _ _ _ Ho ip i Hi) as Hg.
  destruct (inode_close_ok G E f ip i Hb Hi Hg) as (f' & Hc & Hcl & Hb' & Hper); [|done|].
  { intros ->. destruct (op_null _ _ _ Ho). congruence. }
  exists f'. split; [done|]. split; [done|]. split; [|done]. split; [done|].
  apply (open_closed G _ R f f' ip i Ho Hi); try apply Hcl. intros q j. rewrite (cl_inodes _ _ _ _ _ Hcl). by apply (closed_disk_other G (ip :: R) f).
Qed.
End ExtentsOk.
