(* ===== verification/Files.v ===== *)
(** * Files and directories as holders of inodes (filesys/file.c, filesys/directory.c)

    Opening, closing and reading files, and opening and closing directories,
    keep the invariant [fs_ok] of [Extents]: the opener count of an inode is
    the number of its holders, and its count of denied writes is the number
    of its files that deny them. *)

From S2P Require Import Prelude Bitmap Block Fs Inode Extents.

Section FilesOk.
Context {D : Type} (ops : block_operations D) (ok : D → Prop) (size : Z).
Context (content : D → Z → list Z) `{!DriverOk ops ok size content}.
Notation block_ok := (block_ok ok size).
Notation block_content := (block_content content).
Notation extent_ok := (extent_ok size).
Notation only_dev := (only_dev ok size content).
Notation fdata := (fdata content).
Notation fs_ok := (fs_ok ok size content).
Notation fs_base := (fs_base ok size content).
Notation map_file := (map_file size).
Notation persisted := (persisted size content).
Notation reopens := (reopens ok size content).
Notation closes := (closes ok size content).
Notation close_ready := (close_ready size).

(** ** Changes of the tables *)

(** The same inode with other flags. *)
Definition flagged (i j : inode) : Prop := i_sector j = i_sector i ∧ data j = data i ∧ open_cnt j = open_cnt i.

Lemma flagged_back (m m' : gmap Z inode) q j : (∀ q, option_Forall2 flagged (m !! q) (m' !! q)) → m' !! q = Some j →
  ∃ i, m !! q = Some i ∧ flagged i j.
Proof. intros Hm Hj. specialize (Hm q). rewrite Hj in Hm. inversion Hm; eauto. Qed.

Lemma flagged_refl (m : gmap Z inode) q : option_Forall2 flagged (m !! q) (m !! q).
Proof. destruct (m !! q); by constructor. Qed.

Lemma flagged_insert (m : gmap Z inode) ip i j q : m !! ip = Some i → flagged i j →
  option_Forall2 flagged (m !! q) (<[ip := j]> m !! q).
Proof.
  intros Hi Hf. destruct (decide (ip = q)) as [<-|]; [rewrite lookup_insert_eq, Hi; by constructor|].
  rewrite lookup_insert_ne by done. apply flagged_refl.
Qed.

Lemma open_update G R R' (f f' : fs D) : open_ok G R f → (∀ q, option_Forall2 flagged (inodes f !! q) (inodes f' !! q)) →
  open_inodes f' = open_inodes f → (∀ q, refs R' f' q = refs R f q) →
  (∀ q j, inodes f' !! q = Some j → deny_write_cnt j = denials f' q) →
  brk f ≤ brk f' → (∀ p, brk f' ≤ p → open_files f' !! p = None ∧ dirs f' !! p = None) → dirs f' !! 0 = None →
  open_ok G R' f'.
Proof.
  intros [Hd Hl Hn Hs Hr Hop Hdn Hfr Hnl] Hfl Eo Er Hde Hb Hf H0.
  assert (∀ q, inodes f !! q = None → inodes f' !! q = None) as Hnone.
  { intros q Hq. specialize (Hfl q). rewrite Hq in Hfl. by inversion Hfl. }
  split; rewrite ?Eo; try done.
  - intros q j Hj. destruct (flagged_back _ _ q j Hfl Hj) as (i & Hi & -> & -> & _). by apply (Hd q).
  - intros q. rewrite Hl. specialize (Hfl q). inversion Hfl; split; intros []; done.
  - intros q q' j j' Hj Hj'. destruct (flagged_back _ _ q j Hfl Hj) as (i & Hi & -> & _),
      (flagged_back _ _ q' j' Hfl Hj') as (i' & Hi' & -> & _). by apply Hs.
  - intros q. rewrite Er, Hr. specialize (Hfl q). inversion Hfl as [i j (_ & _ & Ec)|]; simpl; congruence.
  - intros q j Hj. destruct (flagged_back _ _ q j Hfl Hj) as (i & Hi & _ & _ & ->). by apply (Hop q).
  - intros p Hp. split; [|by apply Hf]. apply Hnone, Hfr. lia.
  - split; [|done]. apply Hnone, Hnl.
Qed.

(** Only the objects in memory change. *)
Record objects (f f' : fs D) : Prop := {
  ob_device : device f' = device f;
  ob_map : free_map f' = free_map f;
  ob_map_file : free_map_file f' = free_map_file f;
  ob_brk : brk f ≤ brk f';
  ob_mem : mem f' = mem f
}.

Lemma objects_base G f f' : objects f f' → open_files f' !! 0 = None → fs_base G f → fs_base G f'.
Proof. intros [Ed Em _ Eb _] H0 []. split; rewrite ?Ed, ?Em; try done. lia. Qed.

(** A file for an inode that is held becomes its holder. *)
Lemma file_open_ok G R f ip : fs_ok G (ip :: R) f → is_Some (inodes f !! ip) → plenty f →
  ∃ f', file_open ops ip f = Ret (brk f, f') ∧ fs_ok G R f' ∧ objects f f' ∧ inodes f' = inodes f ∧ dirs f' = dirs f ∧
    open_files f' = <[brk f := File ip 0 false]> (open_files f).
Proof.
  intros [Hb Ho] [i Hi] Hp. pose proof (fo_brk _ _ _ _ _ Hb) as Hbrk. pose proof (op_fresh _ _ _ Ho (brk f) ltac:(lia)) as (_ & Hnf & _).
  unfold file_open. rewrite (cstep _ _ _ (brk f) (w_brk (brk f + 1) f)) by (unfold alloc; by rewrite (Hp (brk f))).
  assert (ip ≠ 0) as Hnz by (intros ->; destruct (op_null _ _ _ Ho); congruence).
  destruct (Z.eqb_spec ip 0), (Z.eqb_spec (brk f) 0); try lia. cbn [negb andb].
  set (f1 := w_files (<[brk f := File ip 0 false]> (open_files f)) (w_brk (brk f + 1) f)).
  rewrite (cstep _ _ _ () f1) by done. exists f1. split; [done|].
  assert (objects f f1) as Hob by (split; try done; simpl; lia). split; [|done]. split.
  - apply (objects_base G f); [done| |done]. simpl. rewrite lookup_insert_ne by done. apply Hb.
  - apply (open_update G (ip :: R) R f f1); try done.
    + intros q. apply flagged_refl.
    + intros q. unfold refs. simpl. rewrite fmap_insert, occurs_insert, occurs_in_cons by (by rewrite lookup_fmap, Hnf). simpl. lia.
    + intros q j Hj. unfold denials. simpl. rewrite denied_insert by done. rewrite decide_False by naive_solver.
      rewrite (op_deny _ _ _ Ho q j Hj). unfold denials. lia.
    + simpl. lia.
    + intros p Hle. simpl in *. rewrite lookup_insert_ne by lia. split; apply (op_fresh _ _ _ Ho p); lia.
    + apply (op_null _ _ _ Ho).
Qed.

Lemma dir_open_ok G R f ip : fs_ok G (ip :: R) f → is_Some (inodes f !! ip) → plenty f →
  ∃ f', dir_open ops ip f = Ret (brk f, f') ∧ fs_ok G R f' ∧ objects f f' ∧ inodes f' = inodes f ∧
    open_files f' = open_files f ∧ dirs f' = <[brk f := Dir ip 0]> (dirs f).
Proof.
  intros [Hb Ho] [i Hi] Hp. pose proof (fo_brk _ _ _ _ _ Hb) as Hbrk. pose proof (op_fresh _ _ _ Ho (brk f) ltac:(lia)) as (_ & _ & Hnd).
  unfold dir_open. rewrite (cstep _ _ _ (brk f) (w_brk (brk f + 1) f)) by (unfold alloc; by rewrite (Hp (brk f))).
  assert (ip ≠ 0) as Hnz by (intros ->; destruct (op_null _ _ _ Ho); congruence).
  destruct (Z.eqb_spec ip 0), (Z.eqb_spec (brk f) 0); try lia. cbn [negb andb].
  set (f1 := w_dirs (<[brk f := Dir ip 0]> (dirs f)) (w_brk (brk f + 1) f)).
  rewrite (cstep _ _ _ () f1) by done. exists f1. split; [done|].
  assert (objects f f1) as Hob by (split; try done; simpl; lia). split; [|done]. split.
  - apply (objects_base G f); [done|apply Hb|done].
  - apply (open_update G (ip :: R) R f f1); try done.
    + intros q. apply flagged_refl.
    + intros q. unfold refs. simpl. rewrite fmap_insert, occurs_insert, occurs_in_cons by (by rewrite lookup_fmap, Hnd). simpl. lia.
    + intros q j Hj. by rewrite (op_deny _ _ _ Ho q j Hj).
    + simpl. lia.
    + intros p Hle. simpl in *. rewrite lookup_insert_ne by lia. split; apply (op_fresh _ _ _ Ho p); lia.
    + simpl. rewrite lookup_insert_ne by done. apply (op_null _ _ _ Ho).
Qed.

(** ** What operations have in common *)

(** Only sectors in [P] change. *)
Record touches (P : Z → Prop) (f f' : fs D) : Prop := {
  to_content s : 0 ≤ s < size → ¬ P s → block_content (device f') s = block_content (device f) s;
  to_map_file : free_map_file f' = free_map_file f;
  to_brk : brk f ≤ brk f';
  to_mem : mem f' = mem f
}.

Lemma touches_trans P Q f1 f2 f3 : touches P f1 f2 → touches Q f2 f3 → touches (λ s, P s ∨ Q s) f1 f3.
Proof.
  intros [] []. split; try congruence; [|lia]. intros s Hs HPQ. rewrite to_content1 by tauto. apply to_content0; tauto.
Qed.
Lemma touches_weaken (P Q : Z → Prop) f f' : (∀ s, P s → Q s) → touches P f f' → touches Q f f'.
Proof. intros HPQ []. split; try done. intros s Hs HQ. apply to_content0; [done|auto]. Qed.
Lemma touches_mono P f1 f2 f3 : touches P f1 f2 → touches P f2 f3 → touches P f1 f3.
Proof. intros H1 H2. eapply touches_weaken; [|by eapply touches_trans]. simpl. tauto. Qed.
Lemma only_touches P f f' : only_dev P f f' → touches P f f'.
Proof. intros []. by split. Qed.
Lemma reopens_touches f f' : reopens f f' → touches (λ _, False) f f'.
Proof. intros []. split; auto. Qed.
Lemma objects_touches f f' : objects f f' → touches (λ _, False) f f'.
Proof. intros []. split; try done. intros s _ _. by rewrite ob_device0. Qed.
Lemma closes_touches E ip i f f' : closes E ip i f f' → touches (λ s, dropped i = true ∧ E s) f f'.
Proof.
  intros []. split; try done. intros s Hs Hn. apply cl_content; [done|]. destruct (dropped i); [left|by right]. tauto.
Qed.

(** The same inode with other counts. *)
Definition akin (i j : inode) : Prop := i_sector j = i_sector i ∧ data j = data i ∧ removed j = removed i.
Definition akin_back (f f' : fs D) : Prop := ∀ q j, inodes f' !! q = Some j → ∃ i, inodes f !! q = Some i ∧ akin i j.

Lemma akin_same f f' : inodes f' = inodes f → akin_back f f'.
Proof. intros E q j Hj. rewrite E in Hj. by exists j. Qed.
Lemma akin_trans f1 f2 f3 : akin_back f1 f2 → akin_back f2 f3 → akin_back f1 f3.
Proof.
  intros H1 H2 q j Hj. destruct (H2 q j Hj) as (i & Hi & ? & ? & ?), (H1 q i Hi) as (k & Hk & ? & ? & ?).
  exists k. split; [done|]. unfold akin. split_and!; congruence.
Qed.
Lemma akin_closes E ip i f f' : closes E ip i f f' → inodes f !! ip = Some i → akin_back f f'.
Proof.
  intros Hcl Hi q j. rewrite (cl_inodes _ _ _ _ _ _ _ _ Hcl). intros Hj. destruct (closed_lookup _ _ _ _ _ Hi Hj) as (j0 & Hq & -> & _).
  by exists j0.
Qed.
Lemma akin_insert f f' ip i j : inodes f !! ip = Some i → akin i j → inodes f' = <[ip := j]> (inodes f) → akin_back f f'.
Proof.
  intros Hi Hij E q k. rewrite E. intros [[<- <-]|[_ Hq]]%lookup_insert_Some; [by exists i|by exists k].
Qed.

(** An inode with a holder is open. *)
Lemma held_open G R (f : fs D) q : open_ok G R f → 0 < refs R f q → is_Some (inodes f !! q).
Proof. intros Ho Hq. rewrite (op_refs _ _ _ Ho) in Hq. destruct (inodes f !! q); [done|simpl in Hq; lia]. Qed.
Lemma file_held G R (f : fs D) p x : open_ok G R f → open_files f !! p = Some x → is_Some (inodes f !! f_inode x).
Proof.
  intros Ho Hx. apply (held_open G R); [done|]. unfold refs. pose proof (occurs_nonneg (dir_inode <$> dirs f) (f_inode x)).
  assert (0 ≤ occurs_in R (f_inode x)) by (unfold occurs_in; lia).
  pose proof (occurs_pos (f_inode <$> open_files f) p (f_inode x)) as Hc. rewrite lookup_fmap, Hx in Hc. specialize (Hc eq_refl). lia.
Qed.
Lemma dir_held G R (f : fs D) p x : open_ok G R f → dirs f !! p = Some x → is_Some (inodes f !! dir_inode x).
Proof.
  intros Ho Hx. apply (held_open G R); [done|]. unfold refs. pose proof (occurs_nonneg (f_inode <$> open_files f) (dir_inode x)).
  assert (0 ≤ occurs_in R (dir_inode x)) by (unfold occurs_in; lia).
  pose proof (occurs_pos (dir_inode <$> dirs f) p (dir_inode x)) as Hc. rewrite lookup_fmap, Hx in Hc. specialize (Hc eq_refl). lia.
Qed.

(** ** Denying writes *)

Definition with_deny (i : inode) (n : Z) : inode := Inode (i_sector i) (open_cnt i) (removed i) n (data i).

Lemma refs_replace R (f f' : fs D) p x y q : open_files f !! p = Some x → f_inode y = f_inode x →
  open_files f' = <[p := y]> (open_files f) → dirs f' = dirs f → refs R f' q = refs R f q.
Proof.
  intros Hx Hy Ef Ed. unfold refs. rewrite Ef, Ed. replace (f_inode <$> <[p := y]> (open_files f)) with (f_inode <$> open_files f); [done|].
  rewrite fmap_insert, insert_id; [done|]. by rewrite lookup_fmap, Hx, Hy.
Qed.

Lemma denials_replace (f f' : fs D) p x y q : open_files f !! p = Some x → open_files f' = <[p := y]> (open_files f) →
  denials f' q = denials f q - (if decide (deny_write x = true ∧ f_inode x = q) then 1 else 0)
                             + (if decide (deny_write y = true ∧ f_inode y = q) then 1 else 0).
Proof.
  intros Hx Ef. unfold denials. rewrite Ef, <- insert_delete_eq, denied_insert, (denied_delete _ p x) by (done || apply lookup_delete_eq). lia.
Qed.

(** The file [p] becomes [y], of the same inode, and the inode counts it. *)
Lemma deny_step G R f p x y i : fs_ok G R f → open_files f !! p = Some x → inodes f !! f_inode x = Some i → f_inode y = f_inode x →
  let n := deny_write_cnt i - (if deny_write x then 1 else 0) + (if deny_write y then 1 else 0) in
  let f' := w_inodes (<[f_inode x := with_deny i n]> (inodes f)) (w_files (<[p := y]> (open_files f)) f) in
  fs_ok G R f' ∧ objects f f' ∧ akin_back f f'.
Proof.
  intros [Hb Ho] Hx Hi Hy n f'. assert (objects f f') as Hob by (split; done || simpl; lia).
  assert (p ≠ 0) as Hnz by (intros ->; pose proof (fo_null _ _ _ _ _ Hb); congruence).
  split; [|split; [done|]].
  2:{ by apply (akin_insert f f' (f_inode x) i (with_deny i n)). }
  split; [apply (objects_base G f); [done| |done]; simpl; rewrite lookup_insert_ne by done; apply Hb|].
  apply (open_update G R R f f'); try done.
  - intros q. by apply flagged_insert with i.
  - intros q. by apply (refs_replace R f f' p x y).
  - intros q j Hj. rewrite (denials_replace f f' p x y q Hx eq_refl). simpl in Hj.
    apply lookup_insert_Some in Hj as [[<- <-]|[Hne Hq]].
    + simpl. unfold n. rewrite (op_deny _ _ _ Ho _ i Hi). rewrite Hy. destruct (deny_write x), (deny_write y); repeat case_decide; naive_solver.
    + rewrite (op_deny _ _ _ Ho q j Hq). rewrite !decide_False by naive_solver. lia.
  - intros q Hq. simpl in *. rewrite lookup_insert_ne; [by split; apply (op_fresh _ _ _ Ho q)|].
    intros ->. destruct (op_fresh _ _ _ Ho q Hq) as (_ & ? & _). congruence.
  - apply (op_null _ _ _ Ho).
Qed.

Lemma deny_le G R (f : fs D) q i : open_ok G R f → inodes f !! q = Some i → 0 ≤ deny_write_cnt i ≤ open_cnt i.
Proof.
  intros Ho Hi. rewrite (op_deny _ _ _ Ho q i Hi). pose proof (denials_le R f q) as Hle. rewrite (op_refs _ _ _ Ho), Hi in Hle. done.
Qed.

(** Writes are denied or allowed through [p] from now on: [b]. *)
Definition denied_as (b : bool) (G : gmap Z inode_disk) (R : list Z) (p : Z) (x : file) (f f' : fs D) : Prop :=
  fs_ok G R f' ∧ objects f f' ∧ akin_back f f' ∧ dirs f' = dirs f ∧
  open_files f' = <[p := File (f_inode x) (f_pos x) b]> (open_files f) ∧
  (∀ i, inodes f !! f_inode x = Some i → ∃ n, inodes f' !! f_inode x = Some (with_deny i n)) ∧
  (∀ q, q ≠ f_inode x → inodes f' !! q = inodes f !! q).

Lemma denied_as_same G R p x f : fs_ok G R f → open_files f !! p = Some x → denied_as (deny_write x) G R p x f f.
Proof.
  intros Hf Hx. split; [done|]. split; [by split|]. split; [by apply akin_same|]. split; [done|]. split.
  - rewrite insert_id; [done|]. by destruct x.
  - split; [|done]. intros i Hi. exists (deny_write_cnt i). by destruct i.
Qed.

Lemma denied_as_step b G R p x f i : fs_ok G R f → open_files f !! p = Some x → inodes f !! f_inode x = Some i →
  denied_as b G R p x f
    (w_inodes (<[f_inode x := with_deny i (deny_write_cnt i - (if deny_write x then 1 else 0) + (if b then 1 else 0))]> (inodes f))
      (w_files (<[p := File (f_inode x) (f_pos x) b]> (open_files f)) f)).
Proof.
  intros Hf Hx Hi. destruct (deny_step G R f p x (File (f_inode x) (f_pos x) b) i Hf Hx Hi eq_refl) as (H1 & H2 & H3).
  split; [done|]. split; [done|]. split; [done|]. split; [done|]. split; [done|]. split.
  - intros i' Hi'. simpl. rewrite lookup_insert_eq. assert (i = i') as <- by congruence. by eexists.
  - intros q Hq. simpl. by rewrite lookup_insert_ne.
Qed.

Lemma file_allow_write_ok G R f p x : fs_ok G R f → open_files f !! p = Some x →
  ∃ f', file_allow_write p f = Ret ((), f') ∧ denied_as false G R p x f f'.
Proof.
  intros Hf Hx. pose proof Hf as [Hb Ho]. destruct (file_held G R f p x Ho Hx) as [i Hi].
  unfold file_allow_write. assert (p ≠ 0) as Hnz by (intros ->; pose proof (fo_null _ _ _ _ _ Hb); congruence).
  rewrite (cstep _ _ _ () f) by (apply assert_ok; by destruct (Z.eqb_spec p 0)).
  rewrite (cstep _ _ _ x f) by (unfold get_file; by rewrite Hx).
  pose proof (denied_as_same G R p x f Hf Hx) as Hsame. pose proof (denied_as_step false G R p x f i Hf Hx Hi) as Hstep.
  destruct (deny_write x) eqn:Hd; [|by exists f].
  rewrite (cstep _ _ _ () (w_files (<[p := File (f_inode x) (f_pos x) false]> (open_files f)) f)) by done.
  unfold inode_allow_write. rewrite (cstep _ _ _ i (w_files (<[p := File (f_inode x) (f_pos x) false]> (open_files f)) f))
    by (unfold get_inode; simpl; by rewrite Hi).
  assert (0 < deny_write_cnt i ≤ open_cnt i) as Hc.
  { split; [|by apply (deny_le G R f (f_inode x))]. rewrite (op_deny _ _ _ Ho _ i Hi). apply (occurs_pos _ p). unfold denied. by rewrite lookup_omap, Hx; simpl; rewrite Hd. }
  rewrite (cstep _ _ _ () (w_files (<[p := File (f_inode x) (f_pos x) false]> (open_files f)) f)) by (apply assert_ok; bool_prop; lia).
  rewrite (cstep _ _ _ () (w_files (<[p := File (f_inode x) (f_pos x) false]> (open_files f)) f)) by (apply assert_ok; bool_prop; lia).
  eexists. split; [done|]. rewrite Z.add_0_r in Hstep. exact Hstep.
Qed.

Lemma file_deny_write_ok G R f p x : fs_ok G R f → open_files f !! p = Some x →
  ∃ f', file_deny_write p f = Ret ((), f') ∧ denied_as true G R p x f f'.
Proof.
  intros Hf Hx. pose proof Hf as [Hb Ho]. destruct (file_held G R f p x Ho Hx) as [i Hi].
  unfold file_deny_write. assert (p ≠ 0) as Hnz by (intros ->; pose proof (fo_null _ _ _ _ _ Hb); congruence).
  rewrite (cstep _ _ _ () f) by (apply assert_ok; by destruct (Z.eqb_spec p 0)).
  rewrite (cstep _ _ _ x f) by (unfold get_file; by rewrite Hx).
  pose proof (denied_as_same G R p x f Hf Hx) as Hsame. pose proof (denied_as_step true G R p x f i Hf Hx Hi) as Hstep.
  destruct (deny_write x) eqn:Hd; [by exists f|].
  set (f1 := w_files (<[p := File (f_inode x) (f_pos x) true]> (open_files f)) f).
  rewrite (cstep _ _ _ () f1) by done.
  unfold inode_deny_write. rewrite (cstep _ _ _ i f1) by (unfold get_inode; simpl; by rewrite Hi).
  rewrite (cstep _ _ _ () (w_inodes (<[f_inode x := with_deny i (deny_write_cnt i + 1)]> (inodes f1)) f1)) by done.
  rewrite Z.sub_0_r in Hstep. eexists. split; [|exact Hstep]. apply assert_ok, Z.leb_le.
  destruct Hstep as ([_ Ho'] & _). 
  by apply (deny_le _ _ _ (f_inode x) (with_deny i (deny_write_cnt i + 1)) Ho' (lookup_insert_eq _ _ _)).
Qed.

(** ** Closing *)

Hypothesis Hsize : 2 < size < 2 ^ 32 - 32.

(** The file stops being a holder of its inode, which the closing function
    then holds. *)
Lemma drop_file G R (f : fs D) p x i : open_ok G R f → open_files f !! p = Some x → inodes f !! f_inode x = Some i → deny_write x = false →
  open_ok G (f_inode x :: R) (w_files (delete p (open_files f)) f).
Proof.
  intros Ho Hx Hi Hd. apply (open_update G R _ f); try done.
  - intros q. apply flagged_refl.
  - intros q. unfold refs. simpl. rewrite fmap_delete, (occurs_delete _ p (f_inode x)), occurs_in_cons by (by rewrite lookup_fmap, Hx). lia.
  - intros q j Hj. unfold denials. simpl. rewrite (denied_delete _ p x) by done. rewrite decide_False by (rewrite Hd; naive_solver).
    rewrite (op_deny _ _ _ Ho q j Hj). unfold denials. lia.
  - intros q Hq. simpl in *. destruct (op_fresh _ _ _ Ho q Hq) as (_ & ? & ?). rewrite lookup_delete_None. auto.
  - apply (op_null _ _ _ Ho).
Qed.

Lemma drop_dir G R (f : fs D) p x i : open_ok G R f → dirs f !! p = Some x → inodes f !! dir_inode x = Some i →
  open_ok G (dir_inode x :: R) (w_dirs (delete p (dirs f)) f).
Proof.
  intros Ho Hx Hi. apply (open_update G R _ f); try done.
  - intros q. apply flagged_refl.
  - intros q. unfold refs. simpl. rewrite fmap_delete, (occurs_delete _ p (dir_inode x)), occurs_in_cons by (by rewrite lookup_fmap, Hx). lia.
  - intros q j Hj. by rewrite (op_deny _ _ _ Ho q j Hj).
  - intros q Hq. simpl in *. destruct (op_fresh _ _ _ Ho q Hq) as (_ & ? & ?). rewrite lookup_delete_None. auto.
  - simpl. rewrite lookup_delete_None. right. apply (op_null _ _ _ Ho).
Qed.

Lemma closed_other ip i (m : gmap Z inode) q : q ≠ ip → closed_inodes ip i m !! q = m !! q.
Proof. intros Hq. unfold closed_inodes. case_decide; [by rewrite lookup_delete_ne|by rewrite lookup_insert_ne]. Qed.
Lemma closed_last ip i (m : gmap Z inode) : is_Some (closed_inodes ip i m !! ip) ↔ open_cnt i ≠ 1.
Proof.
  unfold closed_inodes. case_decide; [rewrite lookup_delete_eq|rewrite lookup_insert_eq]; split; try done; by intros [].
Qed.

(** The result of closing a holder of [i]. *)
Record closed (G : gmap Z inode_disk) (R : list Z) (E : Z → Prop) (ip : Z) (i : inode) (f f' : fs D) : Prop := {
  cd_ok : fs_ok (closed_disk i G) R f';
  cd_touches : touches (λ s, dropped i = true ∧ E s) f f';
  cd_akin : akin_back f f';
  cd_other q : q ≠ ip → inodes f' !! q = inodes f !! q;
  cd_last : is_Some (inodes f' !! ip) ↔ open_cnt i ≠ 1;
  cd_map : plenty f → ∀ ip0 i0, map_file G f ip0 i0 → persisted f (data i0) → persisted f' (data i0)
}.

Lemma inode_close_held G E R f ip i : fs_ok G (ip :: R) f → inodes f !! ip = Some i → close_ready G E f i →
  ∃ f', inode_close ops ip f = Ret ((), f') ∧ closed G R E ip i f f' ∧ open_files f' = open_files f ∧ dirs f' = dirs f.
Proof.
  intros Hf Hi HE. destruct (inode_close_holder ops ok size content Hsize G E R f ip i Hf Hi HE) as (f' & Hc & Hcl & Hf' & Hper).
  exists f'. split; [done|]. split; [|split; apply Hcl]. split; try done.
  - by apply (closes_touches _ ip).
  - by apply (akin_closes E ip i f f').
  - intros q Hq. rewrite (cl_inodes _ _ _ _ _ _ _ _ Hcl). by apply closed_other.
  - rewrite (cl_inodes _ _ _ _ _ _ _ _ Hcl). apply closed_last.
Qed.

Lemma dir_close_ok G E R f p x i : fs_ok G R f → dirs f !! p = Some x → inodes f !! dir_inode x = Some i → close_ready G E f i →
  ∃ f', dir_close ops p f = Ret ((), f') ∧ closed G R E (dir_inode x) i f f' ∧ open_files f' = open_files f ∧ dirs f' = delete p (dirs f).
Proof.
  intros [Hb Ho] Hx Hi HE. unfold dir_close. destruct (op_null _ _ _ Ho) as [Hi0 Hd0].
  destruct (Z.eqb_spec p 0) as [->|Hnz]; [congruence|]. rewrite (cstep _ _ _ x f) by (unfold get_dir; by rewrite Hx).
  pose proof (op_disk _ _ _ Ho _ i Hi) as Hg.
  destruct (inode_close_ok ops ok size content Hsize G E f (dir_inode x) i Hb Hi Hg) as (f1 & Hc & Hcl & Hb' & Hper); [congruence|done|].
  rewrite (cstep _ _ _ _ _ Hc). exists (w_dirs (delete p (dirs f1)) f1). split; [done|].
  split; [|split; [apply Hcl|simpl; by rewrite (cl_dirs _ _ _ _ _ _ _ _ Hcl)]].
  assert (objects f1 (w_dirs (delete p (dirs f1)) f1)) as Hob by by split. split.
  - split; [apply (objects_base _ f1); [done|apply Hb'|done]|].
    apply (open_closed size Hsize G _ R (w_dirs (delete p (dirs f)) f) _ (dir_inode x) i); try apply Hcl; try done.
    + by apply (drop_dir G R f p x i).
    + intros q j. simpl. rewrite (cl_inodes _ _ _ _ _ _ _ _ Hcl). by apply (closed_disk_other G R f).
    + simpl. by rewrite (cl_dirs _ _ _ _ _ _ _ _ Hcl).
  - eapply touches_mono; [by apply (closes_touches _ (dir_inode x))|]. eapply touches_weaken; [|by apply objects_touches]. done.
  - by apply (akin_closes E (dir_inode x) i f f1).
  - intros q Hq. simpl. rewrite (cl_inodes _ _ _ _ _ _ _ _ Hcl). by apply closed_other.
  - simpl. rewrite (cl_inodes _ _ _ _ _ _ _ _ Hcl). apply closed_last.
  - done.
Qed.

Lemma map_file_allowed G R p x f f' ip0 i0 : denied_as false G R p x f f' → open_files f !! p = Some x → open_ok G R f →
  map_file G f ip0 i0 → ∃ n, map_file G f' ip0 (with_deny i0 n).
Proof.
  intros ([_ Ho'] & Hob & _ & _ & Ef & Hin & Hot) Hx Ho [H1 (y & Hy & <-) H3 H4 H5 H6 H7].
  assert (∃ n, inodes f' !! f_inode y = Some (with_deny i0 n)) as [n Hn].
  { destruct (decide (f_inode y = f_inode x)) as [E|E]; [rewrite E in *; by apply Hin|].
    exists (deny_write_cnt i0). rewrite Hot, H3 by done. by destruct i0. }
  exists n. split; try done.
  - rewrite Ef, (ob_map_file _ _ Hob). destruct (decide (p = free_map_file f)) as [->|Hne].
    + rewrite lookup_insert_eq. eexists. split; [done|]. simpl. congruence.
    + rewrite lookup_insert_ne by done. by exists y.
  - simpl. pose proof (op_deny _ _ _ Ho' _ _ Hn) as Hd. simpl in Hd. rewrite Hd, (denials_replace f f' p x _ _ Hx Ef).
    simpl. rewrite (op_deny _ _ _ Ho _ _ H3) in H6. pose proof (denials_le R f' (f_inode y)) as [Hle _].
    rewrite (denials_replace f f' p x _ _ Hx Ef) in Hle. simpl in Hle. repeat case_decide; naive_solver lia.
Qed.

Lemma allowed_ready G R E p x f f' i n : denied_as false G R p x f f' → open_files f !! p = Some x → open_ok G R f →
  close_ready G E f i → close_ready G E f' (with_deny i n).
Proof.
  intros Hda Hx Ho HE Hd. destruct (HE Hd) as (Hs & ip0 & i0 & Hmf & HEE). split; [done|].
  destruct (map_file_allowed G R p x f f' ip0 i0 Hda Hx Ho Hmf) as [n0 Hmf']. by eexists _, _.
Qed.

Lemma file_close_ok G E R f p x i : fs_ok G R f → open_files f !! p = Some x → inodes f !! f_inode x = Some i → close_ready G E f i →
  ∃ f', file_close ops p f = Ret ((), f') ∧ closed G R E (f_inode x) i f f' ∧ open_files f' = delete p (open_files f) ∧ dirs f' = dirs f.
Proof.
  intros Hf Hx Hi HE. pose proof Hf as [Hb Ho]. unfold file_close.
  assert (p ≠ 0) as Hnz by (intros ->; pose proof (fo_null _ _ _ _ _ Hb); congruence). destruct (Z.eqb_spec p 0) as [?|_]; [done|].
  destruct (file_allow_write_ok G R f p x Hf Hx) as (f1 & Hal & Hda). rewrite (cstep _ _ _ _ _ Hal).
  pose proof Hda as ([Hb1 Ho1] & Hob & Hak & Ed1 & Ef1 & Hin & Hoth). destruct (Hin i Hi) as [n Hi1].
  rewrite (cstep _ _ _ (File (f_inode x) (f_pos x) false) f1) by (unfold get_file; by rewrite Ef1, lookup_insert_eq).
  cbn [f_inode]. pose proof (op_disk _ _ _ Ho1 _ _ Hi1) as Hg.
  destruct (inode_close_ok ops ok size content Hsize G E f1 (f_inode x) (with_deny i n) Hb1 Hi1 Hg) as (f2 & Hc & Hcl & Hb2 & Hper).
  { destruct (op_null _ _ _ Ho1). congruence. }
  { by apply (allowed_ready G R E p x f). }
  rewrite (cstep _ _ _ _ _ Hc). exists (w_files (delete p (open_files f2)) f2). split; [done|].
  assert (objects f2 (w_files (delete p (open_files f2)) f2)) as Hob2 by by split. destruct Hcl as [] eqn:Ecl. clear Ecl.
  split; [|split; [simpl; by rewrite cl_files, Ef1, delete_insert_eq|simpl; congruence]]. split.
  - split; [apply (objects_base _ f2); [done|simpl; rewrite lookup_delete_ne by done; apply Hb2|done]|].
    apply (open_closed size Hsize G _ R (w_files (delete p (open_files f1)) f1) _ (f_inode x) (with_deny i n)); try done.
    + apply (drop_file G R f1 p (File (f_inode x) (f_pos x) false) (with_deny i n)); try done. by rewrite Ef1, lookup_insert_eq.
    + intros q j. simpl. rewrite cl_inodes. by apply (closed_disk_other G R f1 (f_inode x) (with_deny i n)).
    + simpl. by rewrite cl_files.
  - eapply touches_mono; [|eapply touches_mono; [exact (closes_touches E (f_inode x) (with_deny i n) f1 f2 Hcl)|]];
      (eapply touches_weaken; [|by apply objects_touches]); done.
  - eapply akin_trans; [exact Hak|]. by apply (akin_closes E (f_inode x) (with_deny i n) f1 f2).
  - intros q Hq. simpl. rewrite cl_inodes, closed_other by done. by apply Hoth.
  - simpl. rewrite cl_inodes. apply (closed_last _ (with_deny i n)).
  - intros Hp ip0 i0 Hmf Hpe. destruct (map_file_allowed G R p x f f1 ip0 i0 Hda Hx Ho Hmf) as [n0 Hmf'].
    refine (Hper _ ip0 (with_deny i0 n0) Hmf' _).
    + intros k. rewrite (ob_mem _ _ Hob). apply Hp.
    + unfold Extents.persisted in *. by rewrite (ob_device _ _ Hob), (ob_map _ _ Hob).
Qed.

(** ** Removing, reading and writing *)

Definition with_removed (i : inode) : inode := Inode (i_sector i) (open_cnt i) true (deny_write_cnt i) (data i).

Lemma inode_remove_ok G R f ip i : fs_ok G R f → inodes f !! ip = Some i →
  ∃ f', inode_remove ip f = Ret ((), f') ∧ fs_ok G R f' ∧ objects f f' ∧ open_files f' = open_files f ∧ dirs f' = dirs f ∧
    inodes f' = <[ip := with_removed i]> (inodes f).
Proof.
  intros [Hb Ho] Hi. unfold inode_remove. assert (ip ≠ 0) as Hnz by (intros ->; destruct (op_null _ _ _ Ho); congruence).
  rewrite (cstep _ _ _ () f) by (apply assert_ok; by destruct (Z.eqb_spec ip 0)).
  rewrite (cstep _ _ _ i f) by (unfold get_inode; by rewrite Hi). eexists. split; [done|]. split; [|by repeat split].
  split; [apply (objects_base G f); [by split|apply Hb|done]|]. apply (open_update G R R f); try done.
  - intros q. by apply flagged_insert with i.
  - intros q j Hj. simpl in Hj. apply lookup_insert_Some in Hj as [[<- <-]|[_ Hq]]; [by apply (op_deny _ _ _ Ho ip i)|].
    by apply (op_deny _ _ _ Ho).
  - intros q Hq. split; by apply (op_fresh _ _ _ Ho q).
  - apply (op_null _ _ _ Ho).
Qed.

(** The position of a file. *)
Lemma file_pos_ok G R f p x pos : fs_ok G R f → open_files f !! p = Some x →
  let f' := w_files (<[p := File (f_inode x) pos (deny_write x)]> (open_files f)) f in
  fs_ok G R f' ∧ objects f f'.
Proof.
  intros [Hb Ho] Hx f'. assert (objects f f') as Hob by by split.
  assert (p ≠ 0) as Hnz by (intros ->; pose proof (fo_null _ _ _ _ _ Hb); congruence). split; [|done].
  split; [apply (objects_base G f); [done|simpl; rewrite lookup_insert_ne by done; apply Hb|done]|].
  apply (open_update G R R f f'); try done.
  - intros q. apply flagged_refl.
  - intros q. by apply (refs_replace R f f' p x (File (f_inode x) pos (deny_write x))).
  - intros q j Hj. rewrite (denials_replace f f' p x _ q Hx eq_refl), (op_deny _ _ _ Ho q j Hj). simpl. lia.
  - intros q Hq. simpl in *. rewrite lookup_insert_ne; [by split; apply (op_fresh _ _ _ Ho q)|].
    intros ->. destruct (op_fresh _ _ _ Ho q Hq) as (_ & ? & _). congruence.
  - apply (op_null _ _ _ Ho).
Qed.

(** What reading or writing [n] bytes through [p] leaves. *)
Record moved (G : gmap Z inode_disk) (R : list Z) (p : Z) (x : file) (n : Z) (f f' : fs D) : Prop := {
  mv_ok : fs_ok G R f';
  mv_inodes : inodes f' = inodes f;
  mv_files : open_files f' = <[p := File (f_inode x) (f_pos x + n) (deny_write x)]> (open_files f);
  mv_dirs : dirs f' = dirs f;
  mv_map : free_map f' = free_map f
}.

Lemma moved_after G R p x n P f f1 : fs_ok G R f1 → only_dev P f f1 → open_files f !! p = Some x →
  let f' := w_files (<[p := File (f_inode x) (f_pos x + n) (deny_write x)]> (open_files f1)) f1 in
  moved G R p x n f f' ∧ touches P f f'.
Proof.
  intros Hf1 Hod Hx f'. rewrite <- (od_files _ _ _ _ _ _ Hod) in Hx.
  destruct (file_pos_ok G R f1 p x (f_pos x + n) Hf1 Hx) as [Hf' Hob]. split.
  - destruct Hod. split; try done. simpl. congruence.
  - eapply touches_mono; [by apply only_touches|]. eapply touches_weaken; [|by apply objects_touches]. done.
Qed.

Lemma file_read_ok G R f p x i buffer sz : fs_ok G R f → open_files f !! p = Some x → inodes f !! f_inode x = Some i →
  0 ≤ f_pos x < 2 ^ 31 → sz ≤ zlength buffer →
  ∃ n f', file_read ops p buffer sz f = Ret ((n, filled buffer 0 (fdata (device f) (start (data i)) (f_pos x) n)), f') ∧
    0 ≤ n ≤ avail (d_length (data i)) sz (f_pos x) ∧ (plenty f → n = avail (d_length (data i)) sz (f_pos x)) ∧
    moved G R p x n f f' ∧ touches (λ _, False) f f'.
Proof.
  intros [Hb Ho] Hx Hi Hpos Hsz. pose proof (dk_extent _ _ _ _ _ _ (fo_disk _ _ _ _ _ Hb) _ _ (op_disk _ _ _ Ho _ i Hi)) as Hext.
  destruct (inode_read_at_ok ops ok size content ltac:(lia) (f_inode x) i Hext f buffer sz (f_pos x)) as (n & f1 & Hr & Hod & Hn & Hp);
    [done|apply Hb|done|done|].
  unfold file_read. rewrite (cstep _ _ _ x f) by (unfold get_file; by rewrite Hx). rewrite (cstep _ _ _ _ _ Hr).
  assert (s32 (f_pos x + n) = f_pos x + n) as -> by (destruct Hext; unfold avail in Hn; apply s32_id; lia).
  destruct (moved_after G R p x n (λ _, False) f f1) as [Hm Ht]; [|done|done|].
  { split; [by apply (reads_base ok size content Hsize G f)|by apply (only_open ok size content G R _ f f1 Hod)]. }
  eexists n, _. split; [done|]. split; [done|]. split; [|done]. intros Hpl. apply Hp; [done|apply Hb].
Qed.

Lemma file_write_ok G R f p x i buffer sz : fs_ok G R f → open_files f !! p = Some x → inodes f !! f_inode x = Some i →
  0 ≤ f_pos x < 2 ^ 31 → sz ≤ zlength buffer → deny_write_cnt i = 0 →
  ∃ n f', file_write ops p buffer sz f = Ret (n, f') ∧
    0 ≤ n ≤ avail (d_length (data i)) sz (f_pos x) ∧ (plenty f → n = avail (d_length (data i)) sz (f_pos x)) ∧
    moved G R p x n f f' ∧ touches (λ t, start (data i) ≤ t < start (data i) + sectors (d_length (data i))) f f' ∧
    ∀ j, 0 ≤ j < 512 * sectors (d_length (data i)) → fbyte content (device f') (start (data i)) j =
      if decide (f_pos x ≤ j < f_pos x + n) then from_buffer buffer 0 (j - f_pos x) else fbyte content (device f) (start (data i)) j.
Proof.
  intros [Hb Ho] Hx Hi Hpos Hsz Hdn. pose proof (op_disk _ _ _ Ho _ i Hi) as Hg.
  pose proof (dk_extent _ _ _ _ _ _ (fo_disk _ _ _ _ _ Hb) _ _ Hg) as Hext.
  destruct (inode_write_at_ok ops ok size content ltac:(lia) (f_inode x) i Hext f buffer sz (f_pos x)) as (n & f1 & Hr & Hn & Hp & Hod & Hby);
    [done|apply Hb|done|done|done|].
  unfold file_write. rewrite (cstep _ _ _ x f) by (unfold get_file; by rewrite Hx). rewrite (cstep _ _ _ _ _ Hr).
  assert (s32 (f_pos x + n) = f_pos x + n) as -> by (destruct Hext; unfold avail in Hn; apply s32_id; lia).
  destruct (moved_after G R p x n (λ t, start (data i) ≤ t < start (data i) + sectors (d_length (data i))) f f1) as [Hm Ht]; [|done|done|].
  { split; [by apply (data_write_base ok size content G f f1 (i_sector i) (data i))|by apply (only_open ok size content G R _ f f1 Hod)]. }
  eexists n, _. split; [done|]. split; [done|]. split; [intros Hpl; apply Hp; [done|apply Hb]|]. split; [done|]. split; [done|].
  exact Hby.
Qed.

Lemma file_write_denied G R f p x i buffer sz : fs_ok G R f → open_files f !! p = Some x → inodes f !! f_inode x = Some i →
  0 ≤ f_pos x < 2 ^ 31 → deny_write_cnt i ≠ 0 →
  ∃ f', file_write ops p buffer sz f = Ret (0, f') ∧ moved G R p x 0 f f' ∧ touches (λ _, False) f f'.
Proof.
  intros Hf Hx Hi Hpos Hdn. unfold file_write. rewrite (cstep _ _ _ x f) by (unfold get_file; by rewrite Hx).
  rewrite (cstep _ _ _ 0 f) by (by apply (inode_write_at_denied ops (f_inode x) i)).
  rewrite s32_id by lia. destruct (moved_after G R p x 0 (λ _, False) f f) as [Hm Ht]; [done|apply dev_refl, Hf|done|].
  by eexists.
Qed.
End FilesOk.
