(* ===== verification/Directory.v ===== *)
(** * Directories (filesys/directory.c)

    The data of a directory is an array of entries; a slot is free or gives a
    name its sector.  [lookup_entry], [dir_add], [dir_remove] and
    [dir_readdir] implement the operations on the list of slots.  They are
    shown to do so when memory does not run out: an entry that cannot be read
    for want of a buffer ends the search like the end of the directory. *)

From S2P Require Import Prelude Bitmap Block Fs Inode Extents Files.

(** ** Entries *)

(** The characters of a string in an array. *)
Fixpoint cname (l : list Z) : list Z :=
  match l with
  | [] => []
  | x :: l => if x =? 0 then [] else x :: cname l
  end.

Definition slot (e : list Z) : option (list Z * Z) :=
  match entry_in_use e, entry_sector e with
  | Ret true, Ret s => Some (cname (entry_name e), s)
  | _, _ => None
  end.

(** 20 bytes with a name that is terminated. *)
Record entry_ok (e : list Z) : Prop := {
  en_length : length e = 20%nat;
  en_name nm s : slot e = Some (nm, s) → 0 ∈ entry_name e ∧ 0 ≤ s < 2 ^ 32
}.

Lemma entry_split (e : list Z) : length e = 20%nat → ∃ w n u, e = w ++ n ++ [u] ∧ length w = 4%nat ∧ length n = 15%nat.
Proof.
  intros Hl. exists (take 4 e), (take 15 (drop 4 e)).
  assert (length (drop 19 e) = 1%nat) as Hu by (rewrite length_drop; lia).
  destruct (drop 19 e) as [|u [|]] eqn:Eu; try done. exists u. split; [|rewrite !length_take, ?length_drop; lia].
  rewrite <- Eu. change 19%nat with (4 + 15)%nat. rewrite <- drop_drop, take_drop, take_drop. done.
Qed.

Section Parts.
Context (w n : list Z) (u : Z) (Hw : length w = 4%nat) (Hn : length n = 15%nat).

Lemma name_parts : entry_name (w ++ n ++ [u]) = n.
Proof. unfold entry_name. rewrite drop_app_length' by done. by rewrite take_app_length' by done. Qed.

Lemma used_parts : entry_in_use (w ++ n ++ [u]) = Ret (negb (u =? 0)).
Proof.
  unfold entry_in_use, zget. simpl. rewrite app_assoc, lookup_app_r by (rewrite length_app; lia).
  by rewrite length_app, Hw, Hn.
Qed.

Lemma set_used_parts b : set_in_use (w ++ n ++ [u]) b = Ret (w ++ n ++ [if b : bool then 1 else 0]).
Proof.
  unfold set_in_use, zset. rewrite !length_app, Hw, Hn. simpl. do 2 f_equal.
  rewrite insert_app_r_alt by lia. rewrite insert_app_r_alt by lia. by rewrite Hw, Hn.
Qed.

Lemma overwrite_parts w' n' : length w' = 4%nat → length n' = 15%nat →
  overwrite (w ++ n ++ [u]) 4 n' = Ret (w ++ n' ++ [u]) ∧ overwrite (w ++ n ++ [u]) 0 w' = Ret (w' ++ n ++ [u]).
Proof.
  intros Hw' Hn'. split; rewrite overwrite_ok; rewrite ?length_app; simpl; rewrite ?Hw, ?Hn, ?Hw', ?Hn'; try lia; f_equal.
  - rewrite take_app_length' by done. do 2 f_equal. rewrite app_assoc. apply drop_app_length'. rewrite length_app. simpl. lia.
  - f_equal. by apply drop_app_length'.
Qed.
End Parts.

Lemma sector_parts s n u : 0 ≤ s < 2 ^ 32 → entry_sector (le4 s ++ n ++ [u]) = Ret s.
Proof.
  intros Hs. unfold entry_sector, le4, le_word, zget. simpl. f_equal. by apply le4_value.
Qed.

Lemma sector_total e : length e = 20%nat → ∃ s, entry_sector e = Ret s.
Proof.
  intros Hl. unfold entry_sector, le_word. destruct e as [|a [|b [|c [|d e]]]]; try discriminate. by eexists.
Qed.

Lemma used_total e : length e = 20%nat → ∃ b, entry_in_use e = Ret b.
Proof. intros (w & n & u & -> & Hw & Hn)%entry_split. eexists. by apply used_parts. Qed.

(** ** Names *)

Lemma str_eq_ok s nm : 0 ∈ nm → 0 ∉ s → str_eq s nm = Ret (bool_decide (s = cname nm)).
Proof.
  revert s. induction nm as [|y nm IH]; intros s Hin Hs; [by apply elem_of_nil in Hin|]. cbn [str_eq cname].
  destruct s as [|x s].
  - simpl. by destruct (Z.eqb_spec y 0).
  - apply not_elem_of_cons in Hs as [Hx Hs]. cbn [str_eq]. destruct (Z.eqb_spec x y) as [<-|Hne].
    + destruct (Z.eqb_spec x 0); [done|]. apply elem_of_cons in Hin as [?|Hin]; [done|]. rewrite IH by done. f_equal.
      apply bool_decide_ext. split; [by intros ->|by intros [= ->]].
    + destruct (Z.eqb_spec y 0); case_bool_decide; naive_solver.
Qed.

Lemma cname_copy s rest : 0 ∉ s → cname (s ++ 0 :: rest) = s.
Proof.
  induction s as [|x s IH]; intros Hs; [done|]. apply not_elem_of_cons in Hs as [Hx Hs]. cbn [app cname].
  destruct (Z.eqb_spec x 0); [done|]. by rewrite IH.
Qed.

(** A name that fits in an entry. *)
Definition name_ok (name : list Z) : Prop := 0 ∉ name ∧ 0 < zlength name ≤ NAME_MAX.

Lemma str_copy_ok nm name : length nm = 15%nat → name_ok name →
  ∃ nm', str_copy nm name = Ret nm' ∧ length nm' = 15%nat ∧ cname nm' = name ∧ 0 ∈ nm'.
Proof.
  intros Hl [Hz Hn]. unfold NAME_MAX in Hn. unfold str_copy, NAME_MAX. rewrite take_ge by lia.
  rewrite overwrite_ok by (rewrite ?length_app; simpl; lia). eexists. split; [done|].
  split; [rewrite length_overwritten; [done|rewrite length_app; simpl; lia]|]. simpl. rewrite <- app_assoc. simpl.
  split; [by apply cname_copy|]. apply elem_of_app. right. by left.
Qed.

(** The entry that [dir_add] writes. *)
Lemma new_entry_ok e name s : length e = 20%nat → name_ok name → 0 ≤ s < 2 ^ 32 →
  ∃ e1 nm e2 e3, set_in_use e true = Ret e1 ∧ str_copy (entry_name e1) name = Ret nm ∧ overwrite e1 4 nm = Ret e2 ∧
    overwrite e2 0 (le4 s) = Ret e3 ∧ entry_ok e3 ∧ slot e3 = Some (name, s).
Proof.
  intros (w & n & u & -> & Hw & Hn)%entry_split Hname Hs. rewrite set_used_parts by done.
  eexists. destruct (str_copy_ok n name Hn Hname) as (nm & Hnm & Hlen & Hc & Hin).
  exists nm. destruct (overwrite_parts w n 1 Hw Hn (le4 s) nm) as [E1 _]; [done|done|].
  destruct (overwrite_parts w nm 1 Hw Hlen (le4 s) nm) as [_ E2]; [done|done|].
  exists (w ++ nm ++ [1]), (le4 s ++ nm ++ [1]). rewrite name_parts by done. split; [done|]. split; [done|]. split; [done|]. split; [done|].
  assert (slot (le4 s ++ nm ++ [1]) = Some (name, s)) as Hslot.
  { unfold slot. rewrite used_parts, sector_parts, name_parts by done. simpl. by rewrite Hc. }
  split; [|done]. split; [by rewrite !length_app, le4_length, Hlen|]. intros nm' s'. rewrite Hslot. intros [= <- <-].
  by rewrite name_parts.
Qed.

(** The entry that [dir_remove] writes. *)
Lemma free_entry_ok e : length e = 20%nat → ∃ e', set_in_use e false = Ret e' ∧ entry_ok e' ∧ slot e' = None.
Proof.
  intros (w & n & u & -> & Hw & Hn)%entry_split. rewrite set_used_parts by done. eexists. split; [done|].
  assert (slot (w ++ n ++ [0]) = None) as Hslot by (unfold slot; by rewrite used_parts).
  split; [|done]. split; [by rewrite !length_app, Hw, Hn|]. intros nm s. by rewrite Hslot.
Qed.

Lemma filled_all buffer bytes : length bytes = length buffer → filled buffer 0 bytes = bytes.
Proof. intros Hl. unfold filled. simpl. rewrite drop_ge by lia. apply app_nil_r. Qed.

Section DirectoryOk.
Context {D : Type} (ops : block_operations D) (ok : D → Prop) (size : Z).
Context (content : D → Z → list Z) `{!DriverOk ops ok size content}.
Notation block_ok := (block_ok ok size).
Notation block_content := (block_content content).
Notation extent_ok := (extent_ok size).
Notation only_dev := (only_dev ok size content).
Notation fdata := (fdata content).
Notation fbyte := (fbyte content).
Notation reads := (only_dev (λ _, False)).
Hypothesis Hsize : 2 < size < 2 ^ 32 - 32.

(** ** The slots of a directory *)

Definition entry (b : block D) (d : inode_disk) (k : Z) : list Z := fdata b (start d) (20 * k) 20.
Definition slots (d : inode_disk) : Z := d_length d / 20.

Record dir_ok (b : block D) (d : inode_disk) : Prop := {
  di_length : d_length d = 20 * slots d;
  di_entry k : 0 ≤ k < slots d → entry_ok (entry b d k);
  di_name k1 k2 nm s1 s2 : 0 ≤ k1 < slots d → 0 ≤ k2 < slots d →
    slot (entry b d k1) = Some (nm, s1) → slot (entry b d k2) = Some (nm, s2) → k1 = k2
}.

(** What the directory says of a name. *)
Definition names (b : block D) (d : inode_disk) (nm : list Z) (s : Z) : Prop :=
  ∃ k, 0 ≤ k < slots d ∧ slot (entry b d k) = Some (nm, s).

Section Loops.
Context (ip : Z) (i : inode) (Hi : extent_ok (data i)) (Hlen : d_length (data i) = 20 * slots (data i)).

Lemma entry_same f f' P k : only_dev P f f' → 0 ≤ k < slots (data i) →
  (∀ t, start (data i) ≤ t < start (data i) + sectors (d_length (data i)) → ¬ P t) →
  entry (device f') (data i) k = entry (device f) (data i) k.
Proof.
  intros Ho Hk HP. destruct Hi as [Hl Hs He]. pose proof (sectors_le (d_length (data i)) ltac:(lia)).
  apply (only_fdata ok size content f f' P); [done|lia|]. intros j Hj.
  assert (start (data i) ≤ start (data i) + j / 512 < start (data i) + sectors (d_length (data i))) as Hin by div_lia.
  split; [lia|]. by apply HP.
Qed.

(** A state in which the entries can be read. *)
Record ready (f : fs D) : Prop := {
  rd_plenty : plenty f;
  rd_brk : 0 < brk f;
  rd_block : block_ok (device f);
  rd_inode : inodes f !! ip = Some i;
  rd_entry k : 0 ≤ k < slots (data i) → entry_ok (entry (device f) (data i) k)
}.

Lemma ready_reads f f' : reads f f' → ready f → ready f'.
Proof.
  intros Hod [Hp Hb Hok Hip Hent]. split.
  - intros x. rewrite (od_mem _ _ _ _ _ _ Hod). apply Hp.
  - pose proof (od_brk _ _ _ _ _ _ Hod). lia.
  - apply Hod.
  - by rewrite (od_inodes _ _ _ _ _ _ Hod).
  - intros k Hk. rewrite (entry_same f f' (λ _, False)); [by apply Hent|done|done|tauto].
Qed.

Lemma entry_read f e k : ready f → length e = 20%nat → 0 ≤ k < slots (data i) →
  ∃ f', inode_read_at ops ip e ENTRY_SIZE (20 * k) f = Ret (ENTRY_SIZE, entry (device f) (data i) k, f') ∧ reads f f'.
Proof.
  intros [Hp Hb Hok Hip _] He Hk. pose proof Hi as [Hl Hs _]. unfold ENTRY_SIZE.
  destruct (inode_read_at_ok ops ok size content ltac:(lia) ip i Hi f e 20 (20 * k)) as (n & f' & Hr & Hod & Hn & Hpl);
    [done|done|lia|lia|]. assert (n = 20) as -> by (rewrite Hpl by done; unfold avail; lia).
  exists f'. split; [|done]. rewrite Hr. by rewrite filled_all by (rewrite fdata_length; lia).
Qed.

Lemma entry_end f e : ready f → length e = 20%nat →
  ∃ f', inode_read_at ops ip e ENTRY_SIZE (20 * slots (data i)) f = Ret (0, e, f') ∧ reads f f'.
Proof.
  intros [Hp Hb Hok Hip _] He. pose proof Hi as [Hl Hs _]. unfold ENTRY_SIZE.
  destruct (inode_read_at_ok ops ok size content ltac:(lia) ip i Hi f e 20 (20 * slots (data i))) as (n & f' & Hr & Hod & Hn & Hpl);
    [done|done|lia|lia|]. assert (n = 0) as -> by (unfold avail in Hn; lia).
  exists f'. split; [|done]. rewrite Hr. by rewrite filled_nil.
Qed.

(** The entry of a name, from slot [k] on. *)
Definition found (f : fs D) (name : list Z) (k : Z) (r : option (list Z * Z)) : Prop :=
  match r with
  | Some (e, ofs) => ∃ k', k ≤ k' < slots (data i) ∧ ofs = 20 * k' ∧ e = entry (device f) (data i) k' ∧
                     ∃ s, slot e = Some (name, s)
  | None => ∀ k', k ≤ k' < slots (data i) → ∀ s, slot (entry (device f) (data i) k') ≠ Some (name, s)
  end.

Lemma found_reads f f' name k r : reads f f' → 0 ≤ k → found f' name k r → found f name k r.
Proof.
  intros Hr Hk. assert (∀ k', k ≤ k' < slots (data i) → entry (device f') (data i) k' = entry (device f) (data i) k') as He.
  { intros k' Hk'. apply (entry_same f f' (λ _, False)); [done|lia|tauto]. }
  destruct r as [[e ofs]|]; simpl.
  - intros (k' & Hk' & -> & -> & Hs). exists k'. by rewrite He in * by done.
  - intros Hn k' Hk' s. rewrite <- He by done. by apply Hn.
Qed.

(** Whether a slot has the name. *)
Lemma slot_test e name : entry_ok e → 0 ∉ name → ∃ used same, entry_in_use e = Ret used ∧
  (if used then str_eq name (entry_name e) else Ret false) = Ret same ∧
  (same = true ↔ ∃ s, slot e = Some (name, s)).
Proof.
  intros [Hl Hn] Hz. destruct (used_total e Hl) as [used Hu], (sector_total e Hl) as [s Hs]. exists used.
  unfold slot in *. rewrite Hu, Hs in *. destruct used.
  - exists (bool_decide (name = cname (entry_name e))). split; [done|].
    split; [by apply str_eq_ok; [apply (Hn _ _ eq_refl)|]|]. rewrite bool_decide_eq_true. split; [intros <-; by eexists|by intros [? [= <- _]]].
  - exists false. split; [done|]. split; [done|]. split; [done|by intros [? ?]].
Qed.

Lemma lookup_loop_ok fuel f name e k : ready f → length e = 20%nat → 0 ∉ name →
  0 ≤ k ≤ slots (data i) → (Z.to_nat (slots (data i) - k) < fuel)%nat →
  ∃ r f', lookup_loop ops fuel ip name e (20 * k) f = Ret (r, f') ∧ reads f f' ∧ found f name k r.
Proof.
  revert f e k. induction fuel as [|fuel IH]; intros f e k Hrd He Hz Hk Hfuel; [lia|]. cbn [lookup_loop].
  destruct (decide (k = slots (data i))) as [->|Hne].
  - destruct (entry_end f e) as (f1 & Hr & Hod); [done..|]. rewrite (cstep _ _ _ _ _ Hr).
    exists None, f1. split; [done|]. split; [done|]. intros k' Hk'. lia.
  - destruct (entry_read f e k) as (f1 & Hr & Hod); [done..|lia|]. rewrite (cstep _ _ _ _ _ Hr). cbn iota beta.
    rewrite Z.eqb_refl. pose proof (rd_entry _ Hrd k ltac:(lia)) as Hek. destruct (slot_test _ name Hek Hz) as (used & same & Hu & Hsm & Hiff).
    rewrite (cstep _ _ _ used f1) by (unfold lift; by rewrite Hu).
    rewrite (cstep _ _ _ same f1) by (destruct used; unfold lift; [by rewrite Hsm|by injection Hsm as <-]).
    destruct same.
    + exists (Some (entry (device f) (data i) k, 20 * k)), f1. split; [done|]. split; [done|].
      exists k. split; [lia|]. split; [done|]. split; [done|]. by apply Hiff.
    + replace (20 * k + ENTRY_SIZE) with (20 * (k + 1)) by (unfold ENTRY_SIZE; lia).
      destruct (IH f1 (entry (device f) (data i) k) (k + 1)) as (r & f2 & Hl & Hod2 & Hf);
        [by apply (ready_reads f)|apply Hek|done|lia|lia|].
      exists r, f2. split; [done|]. split; [by eapply dev_mono|]. apply (found_reads f f1) in Hf; [|done|lia].
      destruct r as [[e' ofs]|]; simpl in *.
      * destruct Hf as (k' & ? & ?). exists k'. split; [lia|done].
      * intros k' Hk' s. destruct (decide (k' = k)) as [->|]; [|apply Hf; lia].
        intros Hs. assert (false = true); [|done]. apply Hiff. by exists s.
Qed.

Lemma slot_used e : length e = 20%nat → entry_in_use e = Ret (bool_decide (is_Some (slot e))).
Proof.
  intros Hl. destruct (used_total e Hl) as [used Hu], (sector_total e Hl) as [s Hs]. unfold slot. rewrite Hu, Hs.
  by destruct used.
Qed.

(** The first free slot from [k] on, or the end. *)
Definition free_slot (f : fs D) (k k' : Z) : Prop :=
  k ≤ k' ≤ slots (data i) ∧ (k' < slots (data i) → slot (entry (device f) (data i) k') = None) ∧
  ∀ j, k ≤ j < k' → is_Some (slot (entry (device f) (data i) j)).

Lemma slot_loop_ok fuel f e k : ready f → length e = 20%nat → 0 ≤ k ≤ slots (data i) → (Z.to_nat (slots (data i) - k) < fuel)%nat →
  ∃ e' k' f', slot_loop ops fuel ip e (20 * k) f = Ret (e', 20 * k', f') ∧ reads f f' ∧ length e' = 20%nat ∧ free_slot f k k'.
Proof.
  revert f e k. induction fuel as [|fuel IH]; intros f e k Hrd He Hk Hfuel; [lia|]. cbn [slot_loop].
  destruct (decide (k = slots (data i))) as [->|Hne].
  - destruct (entry_end f e) as (f1 & Hr & Hod); [done..|]. rewrite (cstep _ _ _ _ _ Hr).
    exists e, (slots (data i)), f1. split; [done|]. split; [done|]. split; [done|]. split; [lia|]. split; [lia|]. intros j Hj. lia.
  - destruct (entry_read f e k) as (f1 & Hr & Hod); [done..|lia|]. rewrite (cstep _ _ _ _ _ Hr). cbn iota beta.
    rewrite Z.eqb_refl. pose proof (rd_entry _ Hrd k ltac:(lia)) as [Hl _].
    rewrite (cstep _ _ _ (bool_decide (is_Some (slot (entry (device f) (data i) k)))) f1) by (unfold lift; by rewrite slot_used).
    case_bool_decide as Hs.
    + replace (20 * k + ENTRY_SIZE) with (20 * (k + 1)) by (unfold ENTRY_SIZE; lia).
      destruct (IH f1 (entry (device f) (data i) k) (k + 1)) as (e' & k' & f2 & Hl2 & Hod2 & He' & Hf1 & Hf2 & Hf3);
        [by apply (ready_reads f)|done|lia|lia|].
      assert (∀ j, 0 ≤ j < slots (data i) → entry (device f1) (data i) j = entry (device f) (data i) j) as Hee.
      { intros j Hj. apply (entry_same f f1 (λ _, False)); [done|lia|tauto]. }
      exists e', k', f2. split; [done|]. split; [by eapply dev_mono|]. split; [done|]. split; [lia|]. split.
      * intros Hk'. rewrite <- Hee by lia. by apply Hf2.
      * intros j Hj. destruct (decide (j = k)) as [->|]; [done|]. rewrite <- Hee by lia. apply Hf3. lia.
    + exists (entry (device f) (data i) k), k, f1. split; [done|]. split; [done|]. split; [done|]. split; [lia|].
      split; [|intros j Hj; lia]. intros _. by apply eq_None_not_Some.
Qed.

(** ** Writing an entry *)

Lemma entry_write f e k : ready f → deny_write_cnt i = 0 → entry_ok e → 0 ≤ k < slots (data i) →
  ∃ f', inode_write_at ops ip e ENTRY_SIZE (20 * k) f = Ret (ENTRY_SIZE, f') ∧
    only_dev (λ t, start (data i) ≤ t < start (data i) + sectors (d_length (data i))) f f' ∧
    (∀ j, 0 ≤ j < slots (data i) → entry (device f') (data i) j = if decide (j = k) then e else entry (device f) (data i) j) ∧ ready f'.
Proof.
  intros Hrd Hdn [He Hnm] Hk. pose proof Hrd as [Hp Hb Hok Hip Hent]. pose proof Hi as [Hl Hs _]. unfold ENTRY_SIZE.
  destruct (inode_write_at_ok ops ok size content ltac:(lia) ip i Hi f e 20 (20 * k)) as (n & f' & Hw & Hn & Hpl & Hod & Hby);
    [done|done|lia|lia|done|]. assert (n = 20) as -> by (rewrite Hpl by done; unfold avail; lia).
  pose proof (sectors_le (d_length (data i)) ltac:(lia)).
  assert (∀ j, 0 ≤ j < slots (data i) → entry (device f') (data i) j = if decide (j = k) then e else entry (device f) (data i) j) as Hen.
  { intros j Hj. case_decide as E.
    - subst j. apply list_eq. intros x. unfold entry. destruct (decide (x < 20)%nat) as [Hx|Hx].
      + rewrite fdata_lookup by lia. rewrite Hby by lia. rewrite decide_True by lia. unfold from_buffer.
        replace (Z.to_nat (0 + (20 * k + Z.of_nat x - 20 * k))) with x by lia. destruct (lookup_lt_is_Some_2 e x) as [y ->]; [lia|done].
      + rewrite !lookup_ge_None_2; [done|lia|rewrite fdata_length; lia].
    - apply fdata_ext. intros x Hx. rewrite Hby by lia. by rewrite decide_False by lia. }
  exists f'. split; [done|]. split; [done|]. split; [done|]. split.
  - intros x. rewrite (od_mem _ _ _ _ _ _ Hod). apply Hp.
  - pose proof (od_brk _ _ _ _ _ _ Hod). lia.
  - apply Hod.
  - by rewrite (od_inodes _ _ _ _ _ _ Hod).
  - intros j Hj. rewrite Hen by done. case_decide; [done|by apply Hent].
Qed.

Lemma entry_write_end f e : ready f → deny_write_cnt i = 0 → length e = 20%nat →
  ∃ f', inode_write_at ops ip e ENTRY_SIZE (20 * slots (data i)) f = Ret (0, f') ∧ reads f f'.
Proof.
  intros [Hp Hb Hok Hip Hent] Hdn He. pose proof Hi as [Hl Hs Hend]. unfold ENTRY_SIZE.
  unfold inode_write_at. rewrite (cstep _ _ _ i f) by (unfold get_inode; by rewrite Hip). rewrite Hdn.
  cbn [Z.eqb negb Z.to_nat Pos.to_nat Pos.iter_op write_loop Z.ltb Z.compare].
  rewrite (cstep _ _ _ i f) by (unfold get_inode; by rewrite Hip).
  destruct (chunk_at_end size i 20 (20 * slots (data i)) Hi) as (x & y & z & c & -> & Hc); [lia|lia|lia|].
  destruct (Z.leb_spec c 0); [|lia]. exists f. split; [done|]. by apply dev_refl.
Qed.

(** ** The operations *)

Context (junk : list Z) (Hjunk : length junk = 20%nat).
Context (p : Z) (x : dir) (Hp : p ≠ 0) (Hx : dir_inode x = ip).

Lemma lookup_entry_ok f name : ready f → dirs f !! p = Some x → 0 ∉ name →
  ∃ r f', lookup_entry ops junk p name f = Ret (r, f') ∧ reads f f' ∧ found f name 0 r.
Proof.
  intros Hrd Hd Hz. unfold lookup_entry. rewrite (cstep _ _ _ () f) by (apply assert_ok; by destruct (Z.eqb_spec p 0)).
  rewrite (cstep _ _ _ x f) by (unfold get_dir; by rewrite Hd). rewrite Hx.
  rewrite (cstep _ _ _ i f) by (unfold get_inode; by rewrite (rd_inode _ Hrd)). destruct Hi as [Hl _ _].
  apply (lookup_loop_ok (entry_fuel i) f name junk 0); [done..|lia|]. unfold entry_fuel, inode_length, ENTRY_SIZE, slots. lia.
Qed.

Notation in_dir := (λ t, start (data i) ≤ t < start (data i) + sectors (d_length (data i))).

(** The name is new and the slot [k] receives it. *)
Definition added (f f' : fs D) (name : list Z) (s : Z) : Prop :=
  name_ok name ∧ (∀ j s', 0 ≤ j < slots (data i) → slot (entry (device f) (data i) j) ≠ Some (name, s')) ∧
  ∃ k e, 0 ≤ k < slots (data i) ∧ slot (entry (device f) (data i) k) = None ∧ slot e = Some (name, s) ∧ entry_ok e ∧
    ∀ j, 0 ≤ j < slots (data i) → entry (device f') (data i) j = if decide (j = k) then e else entry (device f) (data i) j.

(** The name is not possible or taken, or the directory is full. *)
Definition rejected (f : fs D) (name : list Z) : Prop :=
  ¬ name_ok name ∨ (∃ j s', 0 ≤ j < slots (data i) ∧ slot (entry (device f) (data i) j) = Some (name, s')) ∨
  ∀ j, 0 ≤ j < slots (data i) → is_Some (slot (entry (device f) (data i) j)).

Lemma dir_add_ok f name s : ready f → dirs f !! p = Some x → deny_write_cnt i = 0 → 0 ∉ name → 0 ≤ s < 2 ^ 32 →
  ∃ b f', dir_add ops junk p name s f = Ret (b, f') ∧ only_dev in_dir f f' ∧ ready f' ∧
    if b : bool then added f f' name s else rejected f name ∧ reads f f'.
Proof.
  intros Hrd Hd Hdn Hz Hs. unfold dir_add. rewrite (cstep _ _ _ () f) by (apply assert_ok; by destruct (Z.eqb_spec p 0)).
  assert (∀ f', reads f f' → only_dev in_dir f f') as Hro by (intros f' Hr; by eapply only_weaken; [|exact Hr]).
  destruct ((zlength name =? 0) || (NAME_MAX <? zlength name)) eqn:En.
  { exists false, f. split; [done|]. assert (reads f f) by (apply dev_refl, Hrd). split; [by apply Hro|]. split; [done|].
    split; [|done]. left. intros [_ ?]. bool_prop. lia. }
  assert (name_ok name) as Hname by (split; [done|]; bool_prop; lia).
  destruct (lookup_entry_ok f name Hrd Hd Hz) as (r & f1 & Hl & Hod1 & Hf). rewrite (cstep _ _ _ _ _ Hl).
  destruct r as [[e ofs]|].
  { exists false, f1. split; [done|]. split; [by apply Hro|]. split; [by apply (ready_reads f)|]. split; [|done]. right; left.
    destruct Hf as (k & Hk & -> & -> & s' & Hs'). by exists k, s'. }
  assert (ready f1) as Hrd1 by (by apply (ready_reads f)).
  rewrite (cstep _ _ _ x f1) by (unfold get_dir; by rewrite (od_dirs _ _ _ _ _ _ Hod1), Hd). rewrite Hx.
  rewrite (cstep _ _ _ i f1) by (unfold get_inode; by rewrite (rd_inode _ Hrd1)). destruct Hi as [Hlen0 _ _].
  destruct (slot_loop_ok (entry_fuel i) f1 junk 0) as (e & k & f2 & Hsl & Hod2 & He & Hk & Hfree & Hused);
    [done|done|lia|unfold entry_fuel, inode_length, ENTRY_SIZE, slots; lia|].
  rewrite Z.mul_0_r in Hsl. rewrite (cstep _ _ _ _ _ Hsl). cbn iota beta.
  assert (ready f2) as Hrd2 by (by apply (ready_reads f1)). assert (reads f f2) as Hod by (by eapply dev_mono).
  destruct (new_entry_ok e name s He Hname Hs) as (e1 & nm & e2 & e3 & E1 & E2 & E3 & E4 & He3 & Hslot).
  rewrite (cstep _ _ _ e1 f2) by (unfold lift; by rewrite E1). rewrite (cstep _ _ _ nm f2) by (unfold lift; by rewrite E2).
  rewrite (cstep _ _ _ e2 f2) by (unfold lift; by rewrite E3). rewrite (cstep _ _ _ e3 f2) by (unfold lift; by rewrite E4).
  assert (∀ j, 0 ≤ j < slots (data i) → entry (device f1) (data i) j = entry (device f) (data i) j) as Ef1
    by (intros j Hj; apply (entry_same f f1 (λ _, False)); [done|done|tauto]).
  assert (∀ j, 0 ≤ j < slots (data i) → entry (device f2) (data i) j = entry (device f) (data i) j) as Ef2
    by (intros j Hj; apply (entry_same f f2 (λ _, False)); [done|done|tauto]).
  destruct (decide (k = slots (data i))) as [->|Hne].
  - destruct (entry_write_end f2 e3 Hrd2 Hdn) as (f3 & Hw & Hod3); [apply He3|]. rewrite (cstep _ _ _ _ _ Hw).
    exists false, f3. assert (reads f f3) by (by eapply dev_mono). split; [done|]. split; [by apply Hro|].
    split; [by apply (ready_reads f2)|]. split; [|done]. right; right. intros j Hj. rewrite <- Ef1 by done. by apply Hused.
  - destruct (entry_write f2 e3 k Hrd2 Hdn He3) as (f3 & Hw & Hod3 & Hen & Hrd3); [lia|]. rewrite (cstep _ _ _ _ _ Hw).
    exists true, f3. split; [done|]. split; [eapply dev_mono; [by apply Hro|done]|]. split; [done|]. split; [done|]. split.
    + intros j s' Hj. by apply Hf.
    + exists k, e3. split; [lia|]. split; [rewrite <- Ef1 by lia; apply Hfree; lia|]. split; [done|]. split; [done|].
      intros j Hj. rewrite Hen by done. case_decide; [done|by apply Ef2].
Qed.

(** ** Listing *)

(** The disk is read and the position becomes [pos]. *)
Definition walked (pos : Z) (f f' : fs D) : Prop :=
  reads f (w_dirs (dirs f) f') ∧ dirs f' = <[p := Dir ip pos]> (dirs f).

Lemma walked_trans pos pos' f f1 f2 : walked pos f f1 → walked pos' f1 f2 → walked pos' f f2.
Proof.
  intros [[] E1] [[] E2]. split; [split; simpl in *; try congruence; [|lia]|by rewrite E2, E1, insert_insert_eq].
  intros s Hs _. rewrite od_content0 by tauto. apply od_content; tauto.
Qed.

Lemma walked_entry pos f f' k : walked pos f f' → 0 ≤ k < slots (data i) → entry (device f') (data i) k = entry (device f) (data i) k.
Proof. intros [Hod _] Hk. apply (entry_same f (w_dirs (dirs f) f') (λ _, False)); [done|done|tauto]. Qed.

Lemma walked_ready pos f f' : walked pos f f' → ready f → ready f'.
Proof. intros [Hod _] Hrd. destruct (ready_reads _ _ Hod Hrd). by split. Qed.

Lemma readdir_loop_ok fuel f e k : ready f → dirs f !! p = Some (Dir ip (20 * k)) → length e = 20%nat → 0 ≤ k ≤ slots (data i) →
  (Z.to_nat (slots (data i) - k) < fuel)%nat →
  ∃ r f', readdir_loop ops fuel p e f = Ret (r, f') ∧
    match r with
    | Some nm => ∃ k' s, k ≤ k' < slots (data i) ∧ slot (entry (device f) (data i) k') = Some (cname nm, s) ∧
        (∀ j, k ≤ j < k' → slot (entry (device f) (data i) j) = None) ∧ walked (20 * (k' + 1)) f f'
    | None => (∀ j, k ≤ j < slots (data i) → slot (entry (device f) (data i) j) = None) ∧ walked (20 * slots (data i)) f f'
    end.
Proof.
  revert f e k. induction fuel as [|fuel IH]; intros f e k Hrd Hd He Hk Hfuel; [lia|]. cbn [readdir_loop].
  rewrite (cstep _ _ _ _ f) by (unfold get_dir; by rewrite Hd). cbn [dir_inode dir_pos]. pose proof Hi as [Hl0 _ _].
  destruct (decide (k = slots (data i))) as [->|Hne].
  - destruct (entry_end f e) as (f1 & Hr & Hod); [done..|]. rewrite (cstep _ _ _ _ _ Hr).
    exists None, f1. split; [done|]. split; [intros j Hj; lia|]. pose proof (od_dirs _ _ _ _ _ _ Hod) as Ed.
    split; [|by rewrite Ed, insert_id]. rewrite <- Ed. by destruct f1.
  - destruct (entry_read f e k) as (f1 & Hr & Hod); [done..|lia|]. rewrite (cstep _ _ _ _ _ Hr). cbn iota beta.
    rewrite Z.eqb_refl. unfold ENTRY_SIZE. rewrite s32_id by lia. pose proof (od_dirs _ _ _ _ _ _ Hod) as Ed.
    set (f2 := w_dirs (<[p := Dir ip (20 * k + 20)]> (dirs f1)) f1). rewrite (cstep _ _ _ () f2) by done.
    assert (walked (20 * (k + 1)) f f2) as Hw.
    { replace (20 * (k + 1)) with (20 * k + 20) by lia. split; [|simpl; by rewrite Ed]. destruct Hod. by split. }
    pose proof (rd_entry _ Hrd k ltac:(lia)) as [Hl Hnm].
    rewrite (cstep _ _ _ (bool_decide (is_Some (slot (entry (device f) (data i) k)))) f2) by (unfold lift; by rewrite slot_used).
    case_bool_decide as Hs.
    + eexists (Some _), f2. split; [done|]. destruct Hs as [[nm s] Hs]. exists k, s. split; [lia|]. split; [|split; [intros j Hj; lia|done]].
      unfold slot in Hs |- *. repeat case_match; congruence.
    + destruct (IH f2 (entry (device f) (data i) k) (k + 1)) as (r & f3 & Hl3 & Hcase); [by apply (walked_ready (20 * (k + 1)) f)| |done|lia|lia|].
      { simpl. rewrite lookup_insert_eq. do 2 f_equal. lia. }
      exists r, f3. split; [done|]. apply eq_None_not_Some in Hs.
      assert (∀ j, k + 1 ≤ j < slots (data i) → entry (device f2) (data i) j = entry (device f) (data i) j) as Hee
        by (intros j Hj; apply (walked_entry _ _ _ _ Hw); lia).
      assert (∀ n, (∀ j, k + 1 ≤ j < n → slot (entry (device f2) (data i) j) = None) → n ≤ slots (data i) →
        ∀ j, k ≤ j < n → slot (entry (device f) (data i) j) = None) as Hnone.
      { intros n Hn Hle j Hj. destruct (decide (j = k)) as [->|]; [done|]. rewrite <- Hee by lia. apply Hn. lia. }
      destruct r as [nm|].
      * destruct Hcase as (k' & s & Hk' & Hsl & Hn & Hw3). exists k', s. rewrite <- Hee by lia.
        split; [lia|]. split; [done|]. split; [apply Hnone; [done|lia]|by eapply walked_trans].
      * destruct Hcase as [Hn Hw3]. split; [apply Hnone; [done|lia]|by eapply walked_trans].
Qed.
End Loops.
End DirectoryOk.
