(* ===== verification/Filesys.v ===== *)
(** * The file system as a whole (filesys/filesys.c)

    A volume [N], [G] has the files named by [N], a map from names to
    sectors, and the inodes [G] on the disk.  [volume] relates it to a state
    of the file system: the root directory holds the entries of [N], the
    files do not overlap, the free map is open and saved on the disk, and an
    inode whose name is gone is kept exactly as long as it is open.
    [filesys_create], [filesys_open], [filesys_remove] and the operations on
    files keep this relation and act on the map as their names say. *)

From S2P Require Import Prelude Bitmap Block Fs Inode Extents Files Directory.

(** Sectors of files, as opposed to those of the free map and the root
    directory. *)
Definition user (s : Z) : Prop := s ≠ FREE_MAP_SECTOR ∧ s ≠ ROOT_DIR_SECTOR.
Definition named (N : gmap (list Z) Z) (s : Z) : Prop := ∃ nm, N !! nm = Some s.

Lemma named_dec N s : named N s ∨ ¬ named N s.
Proof.
  destruct (decide (map_Exists (λ _ v, v = s) N)) as [(nm & v & Hv & ->)|Hn]; [left; by exists nm|right].
  intros [nm Hnm]. apply Hn. by exists nm, s.
Qed.

(** The data of an inode. *)
Definition area (G : gmap Z inode_disk) (s t : Z) : Prop :=
  ∃ d, G !! s = Some d ∧ start d ≤ t < start d + sectors (d_length d).

Lemma denials_none {D} (f : fs D) q : (∀ p x, open_files f !! p = Some x → f_inode x = q → deny_write x = false) → denials f q = 0.
Proof.
  intros Hx. unfold denials, occurs. rewrite map_empty_filter_2; [done|].
  intros p v Hv E. simpl in E. subst v. unfold denied in Hv. rewrite lookup_omap in Hv.
  destruct (open_files f !! p) as [y|] eqn:Hy; [|done]. simpl in Hv. destruct (deny_write y) eqn:Hdy; [|done]. injection Hv as Ey.
  by rewrite (Hx p y Hy Ey) in Hdy.
Qed.

Section FilesysOk.
Context {D : Type} (ops : block_operations D) (ok : D → Prop) (size : Z).
Context (content : D → Z → list Z) `{!DriverOk ops ok size content}.
Notation block_ok := (block_ok ok size).
Notation block_content := (block_content content).
Notation extent_ok := (extent_ok size).
Notation only_dev := (only_dev ok size content).
Notation reads := (only_dev (λ _, False)).
Notation fdata := (fdata content).
Notation fs_ok := (fs_ok ok size content).
Notation fs_base := (fs_base ok size content).
Notation map_file := (map_file size).
Notation persisted := (persisted size content).
Notation reopens := (reopens ok size content).
Notation touches := (touches size content).
Notation dir_ok := (dir_ok content).
Notation names := (names content).
Hypothesis Hsize : 2 < size < 2 ^ 32 - 32.

(** ** The relation *)

Record on_disk (N : gmap (list Z) Z) (G : gmap Z inode_disk) (b : block D) : Prop := {
  nd_map : ∃ d0, G !! FREE_MAP_SECTOR = Some d0 ∧ d_length d0 = byte_cnt size;
  nd_root : ∃ d1, G !! ROOT_DIR_SECTOR = Some d1 ∧ dir_ok b d1 ∧ ∀ nm s, N !! nm = Some s ↔ names b d1 nm s;
  nd_file nm s : N !! nm = Some s → user s ∧ is_Some (G !! s);
  nd_inj nm nm' s : N !! nm = Some s → N !! nm' = Some s → nm = nm'
}.

Record in_memory (N : gmap (list Z) Z) (f : fs D) : Prop := {
  me_plenty : plenty f;
  me_map : ∃ x, open_files f !! free_map_file f = Some x ∧ deny_write x = false ∧
    ∀ i, inodes f !! f_inode x = Some i → i_sector i = FREE_MAP_SECTOR;
  me_file p x i : p ≠ free_map_file f → open_files f !! p = Some x → inodes f !! f_inode x = Some i → user (i_sector i);
  me_removed ip i : inodes f !! ip = Some i → (removed i = true ↔ user (i_sector i) ∧ ¬ named N (i_sector i))
}.

Record volume (R : list Z) (N : gmap (list Z) Z) (G : gmap Z inode_disk) (f : fs D) : Prop := {
  vl_ok : fs_ok G R f;
  vl_disk : on_disk N G (device f);
  vl_memory : in_memory N f;
  vl_live s : is_Some (G !! s) → user s → named N s ∨ ∃ ip i, inodes f !! ip = Some i ∧ i_sector i = s;
  vl_saved d0 : G !! FREE_MAP_SECTOR = Some d0 → persisted f d0
}.

(** The free map can be written. *)
Lemma volume_map_file R N G f : volume R N G f → ∃ ip0 i0, map_file G f ip0 i0 ∧ persisted f (data i0) ∧
  ∀ t, area G FREE_MAP_SECTOR t ↔ start (data i0) ≤ t < start (data i0) + sectors (d_length (data i0)).
Proof.
  intros [[Hb Ho] Hd Hm Hl Hsv]. destruct (me_map _ _ Hm) as (x & Hx & Hdn & Hs).
  destruct (file_held G R f _ x Ho Hx) as [i0 Hi]. pose proof (Hs i0 Hi) as Hs0.
  pose proof (op_disk _ _ _ Ho _ _ Hi) as Hg. rewrite Hs0 in Hg.
  exists (f_inode x), i0. split; [|split; [by apply Hsv|]].
  - split; try done.
    + by exists x.
    + destruct (nd_map _ _ _ Hd) as (d0 & Hd0 & Hlen). congruence.
    + rewrite (op_deny _ _ _ Ho _ _ Hi). apply denials_none. intros p y Hy Ey.
      destruct (decide (p = free_map_file f)) as [->|Hne]; [congruence|].
      destruct (me_file _ _ Hm p y i0 Hne Hy) as [Hu _]; [by rewrite Ey|done].
    + destruct (removed i0) eqn:Er; [|done]. apply (me_removed _ _ Hm _ _ Hi) in Er as [[Hu _] _]. done.
  - intros t. split; [intros (d & Hd' & ?); congruence|]. intros Ht. by exists (data i0).
Qed.

(** ** Steps *)

Lemma on_disk_same N G b b' : on_disk N G b →
  (∀ d1, G !! ROOT_DIR_SECTOR = Some d1 → ∀ k, 0 ≤ k < slots d1 → entry content b' d1 k = entry content b d1 k) → on_disk N G b'.
Proof.
  intros [Hm (d1 & Hd1 & [Hl He Hn] & HN) Hf Hi] Hsame. specialize (Hsame d1 Hd1). split; try done. exists d1. split; [done|]. split.
  - split; [done|intros k Hk; rewrite Hsame by done; auto|]. intros k1 k2 nm s1 s2 H1 H2. rewrite !Hsame by done. by apply Hn.
  - intros nm s. rewrite HN. unfold Directory.names. split; intros (k & Hk & Hs); exists k; (split; [done|]); by rewrite ?Hsame in * by done.
Qed.

(** The inodes come from those of [f] or are new and have a name. *)
Definition inodes_from (N : gmap (list Z) Z) (f f' : fs D) : Prop :=
  ∀ q j, inodes f' !! q = Some j → (∃ i, inodes f !! q = Some i ∧ akin i j) ∨
    inodes f !! q = None ∧ removed j = false ∧ (¬ user (i_sector j) ∨ named N (i_sector j)).

Lemma akin_from N f f' : akin_back f f' → inodes_from N f f'.
Proof. intros H q j Hj. left. by apply H. Qed.

Lemma opened_from N f f' ip i : opened f f' ip i → ¬ user (i_sector i) ∨ named N (i_sector i) → inodes_from N f f'.
Proof.
  intros [E Hi] Hs q j Hj. rewrite E in Hj. apply lookup_insert_Some in Hj as [[<- <-]|[_ Hq]]; [|left; by exists j].
  destruct (inodes f !! ip) as [i0|]; [left; exists i0; by rewrite Hi|by right].
Qed.

(** The files are those of [f], apart from new ones for files on the disk. *)
Definition files_from (f f' : fs D) : Prop :=
  open_files f' !! free_map_file f = open_files f !! free_map_file f ∧
  ∀ p x, p ≠ free_map_file f → open_files f' !! p = Some x →
    (∃ x0, open_files f !! p = Some x0 ∧ f_inode x0 = f_inode x) ∨ ∃ i, inodes f' !! f_inode x = Some i ∧ user (i_sector i).

Lemma files_same f f' : open_files f' = open_files f → files_from f f'.
Proof. intros E. split; [by rewrite E|]. intros p x _ Hx. left. exists x. by rewrite <- E. Qed.

Lemma memory_step N G R f f' : in_memory N f → open_ok G R f → inodes_from N f f' → files_from f f' →
  free_map_file f' = free_map_file f → mem f' = mem f → in_memory N f'.
Proof.
  intros [Hp (x & Hx & Hdn & Hs) Hf Hr] Ho Hin [Hmf Hfi] Ef Em.
  assert (∀ q y p j, open_files f !! p = Some y → f_inode y = q → inodes f' !! q = Some j → ∃ i, inodes f !! q = Some i ∧ akin i j) as Hak.
  { intros q y p j Hy <- Hj. destruct (file_held G R f p y Ho Hy) as [i Hi]. destruct (Hin _ _ Hj) as [?|[? _]]; [done|congruence]. }
  split.
  - intros n. rewrite Em. apply Hp.
  - exists x. rewrite Ef, Hmf. split; [done|]. split; [done|]. intros j Hj.
    destruct (Hak _ x _ j Hx eq_refl Hj) as (i & Hi & -> & _). by apply Hs.
  - rewrite Ef. intros p y j Hne Hy Hj. destruct (Hfi p y Hne Hy) as [(x0 & Hx0 & E0)|(i & Hi & Hu)]; [|congruence].
    destruct (Hak _ x0 p j Hx0 E0 Hj) as (i & Hi & -> & _). apply (Hf p x0); [done|done|by rewrite E0].
  - intros q j Hj. destruct (Hin q j Hj) as [(i & Hi & -> & _ & ->)|(_ & -> & Hc)]; [by apply (Hr q)|]. split; [done|]. tauto.
Qed.

(** Data outside the sectors that change. *)
Lemma touches_fdata G R f f' P s d ofs n : touches P f f' → fs_ok G R f → G !! s = Some d → (∀ t, area G s t → ¬ P t) →
  0 ≤ ofs → ofs + n ≤ d_length d → fdata (device f') (start d) ofs n = fdata (device f) (start d) ofs n.
Proof.
  intros Ht [Hb _] Hs HP Hofs Hn. pose proof (dk_extent _ _ _ _ _ _ (fo_disk _ _ _ _ _ Hb) s d Hs) as [Hl Hst He].
  pose proof (sectors_le (d_length d) ltac:(lia)). apply fdata_ext. intros j Hj.
  assert (start d ≤ start d + j / 512 < start d + sectors (d_length d)) as Hin by div_lia.
  apply fbyte_ext; [lia|]. apply (to_content _ _ _ _ _ Ht); [lia|]. apply HP. by exists d.
Qed.

Lemma touches_entry G R f f' P s d k : touches P f f' → fs_ok G R f → G !! s = Some d → (∀ t, area G s t → ¬ P t) →
  0 ≤ k < slots d → entry content (device f') d k = entry content (device f) d k.
Proof.
  intros Ht Hf Hs HP Hk. apply (touches_fdata G R f f' P s d); [done..|lia|]. unfold slots in Hk. div_lia.
Qed.

Lemma on_disk_touches N G R f f' P : on_disk N G (device f) → fs_ok G R f → touches P f f' →
  (∀ t, area G ROOT_DIR_SECTOR t → ¬ P t) → on_disk N G (device f').
Proof.
  intros Hd Hf Ht HP. apply (on_disk_same N G (device f)); [done|]. intros d1 Hd1 k Hk.
  by apply (touches_entry G R f f' P ROOT_DIR_SECTOR d1).
Qed.

Lemma persisted_touches G R f f' P d0 : fs_ok G R f → touches P f f' → free_map f' = free_map f → G !! FREE_MAP_SECTOR = Some d0 →
  d_length d0 = byte_cnt size → (∀ t, area G FREE_MAP_SECTOR t → ¬ P t) → persisted f d0 → persisted f' d0.
Proof.
  intros Hf Ht Em Hd0 Hlen HP. apply persisted_same; [intros k _; by rewrite Em|].
  apply (touches_fdata G R f f' P FREE_MAP_SECTOR d0); [done..|lia].
Qed.

(** The open inodes stay open. *)
Definition keeps_sectors (f f' : fs D) : Prop :=
  ∀ ip i, inodes f !! ip = Some i → ∃ j, inodes f' !! ip = Some j ∧ i_sector j = i_sector i.

Lemma sectors_same f f' : inodes f' = inodes f → keeps_sectors f f'.
Proof. intros E ip i Hi. exists i. by rewrite E. Qed.
Lemma sectors_trans f1 f2 f3 : keeps_sectors f1 f2 → keeps_sectors f2 f3 → keeps_sectors f1 f3.
Proof.
  intros H1 H2 ip i Hi. destruct (H1 ip i Hi) as (j & Hj & <-). apply (H2 ip j Hj).
Qed.
Lemma opened_sectors f f' ip i : opened f f' ip i → keeps_sectors f f'.
Proof.
  intros [E Hi] q j Hj. rewrite E. destruct (decide (ip = q)) as [<-|Hne].
  - rewrite lookup_insert_eq. rewrite Hj in Hi. exists i. by rewrite Hi.
  - rewrite lookup_insert_ne by done. by exists j.
Qed.

(** The files stay files of the same inodes. *)
Definition file_sectors (f f' : fs D) : Prop :=
  ∀ p x i, open_files f !! p = Some x → inodes f !! f_inode x = Some i → ∃ j, inodes f' !! f_inode x = Some j ∧ i_sector j = i_sector i.

Lemma file_sectors_trans f1 f2 f3 : file_sectors f1 f2 → open_files f2 = open_files f1 → file_sectors f2 f3 → file_sectors f1 f3.
Proof.
  intros H1 E H2 p x i Hx Hi. destruct (H1 p x i Hx Hi) as (j & Hj & <-). apply (H2 p x j); [by rewrite E|done].
Qed.
Lemma keeps_file_sectors f f' : keeps_sectors f f' → file_sectors f f'.
Proof. intros H p x i _ Hi. by apply H. Qed.
Lemma akin_file_sectors G R f f' : akin_back f f' → open_ok G R f' → open_files f' = open_files f → file_sectors f f'.
Proof.
  intros Hak Ho E p x i Hx Hi. rewrite <- E in Hx. destruct (file_held G R f' p x Ho Hx) as [j Hj].
  destruct (Hak _ j Hj) as (i' & Hi' & Hs & _). exists j. split; [done|]. congruence.
Qed.

(** Steps that leave the directory alone. *)
Lemma volume_step R R' N G f f' P : volume R N G f → fs_ok G R' f' → touches P f f' →
  (∀ t, area G ROOT_DIR_SECTOR t → ¬ P t) → inodes_from N f f' → files_from f f' →
  (∀ ip i, inodes f !! ip = Some i → user (i_sector i) → ∃ j, inodes f' !! ip = Some j ∧ i_sector j = i_sector i) →
  (∀ d0, G !! FREE_MAP_SECTOR = Some d0 → persisted f' d0) → volume R' N G f'.
Proof.
  intros [Hf Hd Hm Hl Hsv] Hf' Ht HP Hin Hfi Hfw Hper. split; [done| | | |done].
  - by apply (on_disk_touches N G R f f' P).
  - apply (memory_step N G R f); [done|apply Hf|done|done|apply Ht|apply Ht].
  - intros s Hs Hu. destruct (Hl s Hs Hu) as [?|(ip & i & Hi & <-)]; [by left|right].
    destruct (Hfw ip i Hi Hu) as (j & Hj & Hjs). by exists ip, j.
Qed.

(** Steps that read and change the objects in memory. *)
Lemma volume_reads_step R R' N G f f' : volume R N G f → fs_ok G R' f' → touches (λ _, False) f f' → free_map f' = free_map f →
  inodes_from N f f' → files_from f f' →
  keeps_sectors f f' → volume R' N G f'.
Proof.
  intros Hv Hf' Ht Em Hin Hfi Hfw. apply (volume_step R R' N G f f' (λ _, False) Hv Hf' Ht); [tauto|done|done|auto|].
  intros d0 Hd0. destruct (nd_map _ _ _ (vl_disk _ _ _ _ Hv)) as (d0' & Hd0' & Hlen). assert (d0' = d0) as -> by congruence.
  apply (persisted_touches G R f f' (λ _, False) d0); [apply Hv|done..|tauto|by apply Hv].
Qed.

Lemma volume_reads R N G f f' : volume R N G f → reads f f' → volume R N G f'.
Proof.
  intros Hv Hr. pose proof (vl_ok _ _ _ _ Hv) as [Hb Ho]. apply (volume_reads_step R R N G f f' Hv).
  - split; [by apply (reads_base ok size content Hsize G f)|by apply (only_open ok size content G R _ f f' Hr)].
  - by apply only_touches with ok.
  - apply Hr.
  - apply akin_from, akin_same, Hr.
  - apply files_same, Hr.
  - apply sectors_same, Hr.
Qed.

(** Opening the inode of the root directory or of a named file. *)
Lemma volume_open R N G f s d : volume R N G f → G !! s = Some d → ¬ user s ∨ named N s →
  ∃ ip i f', inode_open ops s f = Ret (ip, f') ∧ volume (ip :: R) N G f' ∧ reopens f f' ∧ keeps_sectors f f' ∧
    inodes f' !! ip = Some i ∧ i_sector i = s ∧ data i = d ∧ ip ≠ 0.
Proof.
  intros Hv Hs Hu. destruct (inode_open_ok ops ok size content Hsize G R f s d) as (ip & i & f' & Ho & Hf' & Hro & Hop & Hsec & Hd & Hnz);
    [apply Hv|done|apply Hv|].
  exists ip, i, f'. split; [done|]. split; [|split; [done|split; [by apply (opened_sectors f f' ip i)|split; [by rewrite (proj1 Hop), lookup_insert_eq|done]]]].
  apply (volume_reads_step R (ip :: R) N G f f' Hv Hf').
  - by apply reopens_touches with ok.
  - apply Hro.
  - apply (opened_from N f f' ip i Hop). by rewrite Hsec.
  - apply files_same, Hro.
  - by apply (opened_sectors f f' ip i).
Qed.

(** ** The root directory *)

Lemma volume_objects R R' N G f f' : volume R N G f → fs_ok G R' f' → objects f f' → inodes f' = inodes f → files_from f f' → volume R' N G f'.
Proof.
  intros Hv Hf' Hob Ei Hfi. apply (volume_reads_step R R' N G f f' Hv Hf').
  - by apply objects_touches.
  - apply Hob.
  - by apply akin_from, akin_same.
  - done.
  - by apply sectors_same.
Qed.

Lemma dir_open_root_ok R N G f : volume R N G f →
  ∃ p ip i f', dir_open_root ops f = Ret (p, f') ∧ volume R N G f' ∧ touches (λ _, False) f f' ∧ free_map f' = free_map f ∧
    dirs f' = <[p := Dir ip 0]> (dirs f) ∧ dirs f !! p = None ∧ open_files f' = open_files f ∧ p ≠ 0 ∧
    keeps_sectors f f' ∧ inodes f' !! ip = Some i ∧ i_sector i = ROOT_DIR_SECTOR.
Proof.
  intros Hv. destruct (nd_root _ _ _ (vl_disk _ _ _ _ Hv)) as (d1 & Hd1 & _). unfold dir_open_root.
  destruct (volume_open R N G f ROOT_DIR_SECTOR d1 Hv Hd1) as (ip & i & f1 & Ho & Hv1 & Hro & Hks & Hi & Hs & Hd & Hnz).
  { left. by intros [_ ?]. }
  rewrite (cstep _ _ _ _ _ Ho).
  destruct (dir_open_ok ops ok size content G R f1 ip) as (f2 & Hdo & Hf2 & Hob & Ei2 & Ef2 & Ed2);
    [apply Hv1|by eexists|apply Hv1|].
  exists (brk f1), ip, i, f2. split; [done|]. split; [apply (volume_objects (ip :: R) R N G f1); try done; by apply files_same|].
  pose proof (fo_brk _ _ _ _ _ (fo_base _ _ _ _ _ _ (vl_ok _ _ _ _ Hv1))) as Hbrk. pose proof (ro_brk _ _ _ _ _ Hro) as Hle.
  split; [eapply touches_mono; [by apply reopens_touches with ok|by apply objects_touches]|].
  split; [rewrite (ob_map _ _ Hob); apply Hro|]. split; [by rewrite Ed2, (ro_dirs _ _ _ _ _ Hro)|].
  split; [|split; [rewrite Ef2; apply Hro|split; [lia|split; [eapply sectors_trans; [done|by apply sectors_same]|by rewrite Ei2]]]].
  destruct (op_fresh _ _ _ (fo_open _ _ _ _ _ _ (vl_ok _ _ _ _ Hv)) (brk f1)) as (_ & _ & ?); done.
Qed.

(** What the operations on the root directory need. *)
Lemma volume_root R N G f ip i : volume R N G f → inodes f !! ip = Some i → i_sector i = ROOT_DIR_SECTOR →
  G !! ROOT_DIR_SECTOR = Some (data i) ∧ extent_ok (data i) ∧ dir_ok (device f) (data i) ∧
  (∀ nm s, N !! nm = Some s ↔ names (device f) (data i) nm s) ∧
  ready ok size content ip i f ∧ deny_write_cnt i = 0.
Proof.
  intros [[Hb Ho] Hd Hm Hl Hsv] Hi Hs. pose proof (op_disk _ _ _ Ho ip i Hi) as Hg. rewrite Hs in Hg.
  destruct (nd_root _ _ _ Hd) as (d1 & Hd1 & Hdir & HN). assert (d1 = data i) as -> by congruence.
  split; [done|]. split; [by apply (dk_extent _ _ _ _ _ _ (fo_disk _ _ _ _ _ Hb) ROOT_DIR_SECTOR)|].
  split; [done|]. split; [done|]. split.
  - split; [apply Hm|apply Hb|apply Hb|done|apply Hdir].
  - rewrite (op_deny _ _ _ Ho ip i Hi). apply denials_none. intros p x Hx Ex.
    destruct (decide (p = free_map_file f)) as [->|Hne].
    + destruct (me_map _ _ Hm) as (y & Hy & Hdn & _). congruence.
    + subst ip. destruct (me_file _ _ Hm p x i Hne Hx Hi) as [_ ?]. done.
Qed.

(** ** Closing *)

Lemma volume_dropped R N G f ip i : volume R N G f → inodes f !! ip = Some i → dropped i = true → user (i_sector i) ∧ ¬ named N (i_sector i).
Proof.
  intros Hv Hi Hd. apply (me_removed _ _ (vl_memory _ _ _ _ Hv) ip i Hi). unfold dropped in Hd. by apply andb_true_iff in Hd as [_ Hd].
Qed.

Lemma volume_close_ready R N G f ip i : volume R N G f → inodes f !! ip = Some i → close_ready size G (area G FREE_MAP_SECTOR) f i.
Proof.
  intros Hv Hi Hd. destruct (volume_dropped R N G f ip i Hv Hi Hd) as [[Hu _] _]. split; [done|].
  destruct (volume_map_file R N G f Hv) as (ip0 & i0 & Hmf & _ & Ha). by exists ip0, i0.
Qed.

Lemma area_apart R N G f s s' t : volume R N G f → area G s t → area G s' t → s = s'.
Proof.
  intros Hv (d & Hd & Ht) (d' & Hd' & Ht'). pose proof (fo_disk _ _ _ _ _ (fo_base _ _ _ _ _ _ (vl_ok _ _ _ _ Hv))) as Hdk.
  apply (dk_apart _ _ _ _ _ _ Hdk s d s' d' t); [done|done|by right|by right].
Qed.

Lemma closed_disk_keeps R N G f ip i s : volume R N G f → inodes f !! ip = Some i → ¬ user s ∨ named N s → closed_disk i G !! s = G !! s.
Proof.
  intros Hv Hi Hs. unfold closed_disk. destruct (dropped i) eqn:Hd; [|done]. destruct (volume_dropped R N G f ip i Hv Hi Hd) as [Hu Hn].
  rewrite lookup_delete_ne; [done|]. intros <-. tauto.
Qed.

Lemma on_disk_closed R N G f ip i b : volume R N G f → inodes f !! ip = Some i → on_disk N G b → on_disk N (closed_disk i G) b.
Proof.
  intros Hv Hi [(d0 & Hd0 & Hl0) (d1 & Hd1 & Hdir & HN) Hf Hinj].
  pose proof (closed_disk_keeps R N G f ip i) as Hk. split; [| | |done].
  - exists d0. rewrite Hk; [done|done|done|left; by intros []].
  - exists d1. rewrite Hk; [done|done|done|left; by intros []].
  - intros nm s Hs. rewrite Hk; [by apply (Hf nm)|done|done|right; by exists nm].
Qed.

Lemma volume_closed R R' N G f f' ip i : volume R N G f → inodes f !! ip = Some i →
  closed ok size content G R' (area G FREE_MAP_SECTOR) ip i f f' → files_from f f' → volume R' N (closed_disk i G) f'.
Proof.
  intros Hv Hi [Hf' Ht Hak Hoth Hlast Hper] Hfi. pose proof Hv as [Hf Hd Hm Hl Hsv]. split; [done| | | |].
  - apply (on_disk_closed R N G f ip i); [done..|]. apply (on_disk_touches N G R f f' _ Hd Hf Ht).
    intros t Ha [_ Ha0]. pose proof (area_apart R N G f _ _ t Hv Ha Ha0). done.
  - apply (memory_step N G R f); [done|apply Hf|by apply akin_from|done|apply Ht|apply Ht].
  - intros s Hs Hu. destruct (named_dec N s) as [Hn|Hn]; [by left|right].
    assert (is_Some (G !! s)) as HGs.
    { unfold closed_disk in Hs. destruct (dropped i); [|done]. destruct Hs as [d Hs]. apply lookup_delete_Some in Hs as [_ ?]. by exists d. }
    destruct (Hl s HGs Hu) as [?|(q & j & Hj & <-)]; [done|]. destruct (decide (q = ip)) as [->|Hne].
    2:{ exists q, j. by rewrite Hoth. }
    assert (j = i) as -> by congruence. assert (removed i = true) as Hrm by (by apply (me_removed _ _ Hm ip i Hi)).
    destruct (decide (open_cnt i = 1)) as [Ec|Ec].
    + unfold closed_disk, dropped in Hs. rewrite bool_decide_true, Hrm in Hs by done. simpl in Hs. rewrite lookup_delete_eq in Hs. by destruct Hs.
    + apply Hlast in Ec as [j Hj']. exists ip, j. split; [done|]. destruct (Hak ip j Hj') as (k & Hk & -> & _). congruence.
  - intros d0 Hd0. rewrite (closed_disk_keeps R N G f ip i) in Hd0; [|done|done|left; by intros []].
    destruct (volume_map_file R N G f Hv) as (ip0 & i0 & Hmf & Hp0 & _). assert (data i0 = d0) as <-.
    { pose proof (mf_disk _ _ _ _ _ Hmf). congruence. }
    apply (Hper (me_plenty _ _ Hm) ip0 i0 Hmf Hp0).
Qed.

(** An inode with a name, or of the root directory, is not deleted. *)
Lemma volume_not_dropped R N G f ip i : volume R N G f → inodes f !! ip = Some i → ¬ user (i_sector i) ∨ named N (i_sector i) → dropped i = false.
Proof.
  intros Hv Hi Hs. destruct (dropped i) eqn:Hd; [|done]. destruct (volume_dropped R N G f ip i Hv Hi Hd). tauto.
Qed.

Lemma volume_dir_close R N G f p x i : volume R N G f → dirs f !! p = Some x → inodes f !! dir_inode x = Some i → i_sector i = ROOT_DIR_SECTOR →
  ∃ f', dir_close ops p f = Ret ((), f') ∧ volume R N G f' ∧ touches (λ _, False) f f' ∧ akin_back f f' ∧
    (∀ q, q ≠ dir_inode x → inodes f' !! q = inodes f !! q) ∧ open_files f' = open_files f ∧ dirs f' = delete p (dirs f).
Proof.
  intros Hv Hx Hi Hs. destruct (dir_close_ok ops ok size content Hsize G (area G FREE_MAP_SECTOR) R f p x i) as (f' & Hc & Hcl & Ef & Ed);
    [apply Hv|done|done|by apply (volume_close_ready R N G f (dir_inode x))|].
  assert (dropped i = false) as Hnd by (apply (volume_not_dropped R N G f (dir_inode x)); [done|done|left; rewrite Hs; by intros []]).
  exists f'. split; [done|]. split; [|split; [|split; [apply Hcl|split; [apply Hcl|done]]]].
  - pose proof (volume_closed R R N G f f' (dir_inode x) i Hv Hi Hcl (files_same _ _ Ef)) as Hv'. unfold closed_disk in Hv'.
    by rewrite Hnd in Hv'.
  - eapply touches_weaken; [|apply (cd_touches _ _ _ _ _ _ _ _ _ _ Hcl)]. intros s [? _]. congruence.
Qed.

Lemma volume_used R N G f s d t : volume R N G f → G !! s = Some d → claims s d t → bm_test (free_map f) t = true.
Proof. intros Hv. apply (dk_used _ _ _ _ _ _ (fo_disk _ _ _ _ _ (fo_base _ _ _ _ _ _ (vl_ok _ _ _ _ Hv)))). Qed.

(** The data of the files on the disk. *)
Definition data_kept (G : gmap Z inode_disk) (f f' : fs D) : Prop :=
  ∀ s d, G !! s = Some d → user s → fdata (device f') (start d) 0 (d_length d) = fdata (device f) (start d) 0 (d_length d).

Lemma touches_kept R N G f f' P : volume R N G f → touches P f f' → (∀ t, P t → area G ROOT_DIR_SECTOR t ∨ area G FREE_MAP_SECTOR t ∨ bm_test (free_map f) t = false) →
  data_kept G f f'.
Proof.
  intros Hv Ht HP s d Hs [Hu0 Hu1]. apply (touches_fdata G R f f' P s d); [done|apply Hv|done| |lia|lia]. intros t Ha Hpt.
  destruct (HP t Hpt) as [H1|[H0|Hf]].
  - pose proof (area_apart R N G f _ _ t Hv Ha H1). congruence.
  - pose proof (area_apart R N G f _ _ t Hv Ha H0). congruence.
  - destruct Ha as (d' & Hd' & Ha). pose proof (volume_used R N G f s d' t Hv Hd' (or_intror Ha)). congruence.
Qed.

(** ** Opening files *)

Context (junk : list Z) (Hjunk : length junk = 20%nat).

Lemma slot_sector e nm s : slot e = Some (nm, s) → entry_sector e = Ret s.
Proof. unfold slot. intros H. repeat case_match; congruence. Qed.

Section Root.
Context (R : list Z) (N : gmap (list Z) Z) (G : gmap Z inode_disk) (p : Z) (x : dir) (i : inode).
Context (Hp : p ≠ 0) (Hs : i_sector i = ROOT_DIR_SECTOR).

Lemma root_lookup f name : volume R N G f → dirs f !! p = Some x → inodes f !! dir_inode x = Some i → 0 ∉ name →
  ∃ r f', lookup_entry ops junk p name f = Ret (r, f') ∧ reads f f' ∧
    match r with
    | Some (e, ofs) => ∃ k s, 0 ≤ k < slots (data i) ∧ ofs = 20 * k ∧ e = entry content (device f) (data i) k ∧
                       slot e = Some (name, s) ∧ N !! name = Some s
    | None => N !! name = None
    end.
Proof.
  intros Hv Hd Hi Hz. destruct (volume_root R N G f (dir_inode x) i Hv Hi Hs) as (HG & Hext & Hdir & HN & Hrd & Hdn).
  destruct (lookup_entry_ok ops ok size content Hsize (dir_inode x) i Hext (di_length _ _ _ Hdir) junk Hjunk p x Hp eq_refl f name)
    as (r & f' & Hl & Hod & Hf); [done..|].
  exists r, f'. split; [done|]. split; [done|]. destruct r as [[e ofs]|]; simpl in Hf.
  - destruct Hf as (k & Hk & -> & -> & s & Hsl). exists k, s. split; [done|]. split; [done|]. split; [done|]. split; [done|].
    apply HN. by exists k.
  - apply eq_None_not_Some. intros [s (k & Hk & Hsl)%HN]. by apply (Hf k Hk s).
Qed.

Lemma dir_lookup_ok f name : volume R N G f → dirs f !! p = Some x → inodes f !! dir_inode x = Some i → 0 ∉ name →
  ∃ ip f', dir_lookup ops junk p name f = Ret (ip, f') ∧ touches (λ _, False) f f' ∧ open_files f' = open_files f ∧ dirs f' = dirs f ∧
    keeps_sectors f f' ∧
    match N !! name with
    | Some s => volume (ip :: R) N G f' ∧ ∃ j, inodes f' !! ip = Some j ∧ i_sector j = s
    | None => ip = 0 ∧ volume R N G f'
    end.
Proof.
  intros Hv Hd Hi Hz. unfold dir_lookup. rewrite (cstep _ _ _ () f) by (apply assert_ok; by destruct (Z.eqb_spec p 0)).
  destruct (root_lookup f name Hv Hd Hi Hz) as (r & f1 & Hl & Hod & Hr). rewrite (cstep _ _ _ _ _ Hl).
  pose proof (volume_reads R N G f f1 Hv Hod) as Hv1. destruct r as [[e ofs]|].
  2:{ rewrite Hr. exists 0, f1. split; [done|]. split; [by apply only_touches with ok|]. split; [apply Hod|]. split; [apply Hod|].
      split; [apply sectors_same, Hod|done]. }
  destruct Hr as (k & s & Hk & -> & -> & Hsl & HNs). rewrite HNs.
  rewrite (cstep _ _ _ s f1) by (unfold lift; by rewrite (slot_sector _ name s)).
  destruct (nd_file _ _ _ (vl_disk _ _ _ _ Hv1) name s HNs) as [Hu [d Hg]].
  assert (named N s) as Hnm by (by exists name).
  destruct (volume_open R N G f1 s d Hv1 Hg (or_intror Hnm)) as (ip & j & f2 & Ho & Hv2 & Hro & Hks & Hj & Hsec & Hdj & Hnz).
  exists ip, f2. split; [done|]. split; [|split; [|split; [|split]]].
  - eapply touches_mono; [by apply only_touches with ok|by apply reopens_touches with ok].
  - rewrite (ro_files _ _ _ _ _ Hro). apply Hod.
  - rewrite (ro_dirs _ _ _ _ _ Hro). apply Hod.
  - eapply sectors_trans; [apply sectors_same, Hod|done].
  - split; [done|]. by exists j.
Qed.
End Root.

(** A file for an inode that was found. *)
Lemma volume_file_open R N G f ip j : volume (ip :: R) N G f → inodes f !! ip = Some j → user (i_sector j) →
  ∃ p f', file_open ops ip f = Ret (p, f') ∧ volume R N G f' ∧ touches (λ _, False) f f' ∧ inodes f' = inodes f ∧ dirs f' = dirs f ∧
    open_files f' = <[p := File ip 0 false]> (open_files f) ∧ open_files f !! p = None ∧ p ≠ 0.
Proof.
  intros Hv Hj Hu. pose proof (vl_ok _ _ _ _ Hv) as Hf. pose proof Hf as [Hb Ho].
  destruct (file_open_ok ops ok size content G R f ip) as (f' & Hfo & Hf' & Hob & Ei & Ed & Ef); [done|by eexists|apply Hv|].
  destruct (op_fresh _ _ _ Ho (brk f)) as (_ & Hn & _); [done|]. pose proof (fo_brk _ _ _ _ _ Hb).
  exists (brk f), f'. split; [done|]. split; [|split; [by apply objects_touches|split_and!; try done; lia]].
  apply (volume_objects (ip :: R) R N G f f' Hv Hf' Hob Ei).
  destruct (me_map _ _ (vl_memory _ _ _ _ Hv)) as (x & Hx & _). split.
  - rewrite Ef, lookup_insert_ne; [done|]. congruence.
  - intros p y Hne. rewrite Ef. intros [[<- <-]|[_ Hy]]%lookup_insert_Some; [right; exists j; by rewrite Ei|left; by exists y].
Qed.

Lemma filesys_open_ok N G f name : volume [] N G f → 0 ∉ name →
  ∃ p f', filesys_open ops junk name f = Ret (p, f') ∧ volume [] N G f' ∧ touches (λ _, False) f f' ∧ dirs f' = dirs f ∧ file_sectors f f' ∧
    match N !! name with
    | Some s => p ≠ 0 ∧ open_files f !! p = None ∧ ∃ ip j, open_files f' = <[p := File ip 0 false]> (open_files f) ∧
                inodes f' !! ip = Some j ∧ i_sector j = s
    | None => p = 0 ∧ open_files f' = open_files f
    end.
Proof.
  intros Hv Hz. unfold filesys_open.
  destruct (dir_open_root_ok [] N G f Hv) as (p & rip & ri & f1 & Hdo & Hv1 & Ht1 & _ & Ed1 & Hdn & Ef1 & Hp & Hk1 & Hri & Hrs).
  rewrite (cstep _ _ _ _ _ Hdo). rewrite (cstep _ _ _ () f1) by (apply assert_ok; by destruct (Z.eqb_spec p 0)).
  destruct (dir_lookup_ok [] N G p (Dir rip 0) ri Hp Hrs f1 name Hv1) as (ip & f2 & Hl & Ht2 & Ef2 & Ed2 & Hk2 & Hcase);
    [by rewrite Ed1, lookup_insert_eq|done|done|].
  rewrite (cstep _ _ _ _ _ Hl). destruct (Hk2 rip ri Hri) as (ri2 & Hri2 & Hrs2). rewrite Hrs in Hrs2.
  assert (dirs f2 !! p = Some (Dir rip 0)) as Hd2 by (by rewrite Ed2, Ed1, lookup_insert_eq).
  assert (delete p (dirs f2) = dirs f) as Edel by (by rewrite Ed2, Ed1, delete_insert_id).
  destruct (N !! name) as [s|] eqn:HN.
  - destruct Hcase as (Hv2 & j & Hj & Hs). destruct (nd_file _ _ _ (vl_disk _ _ _ _ Hv2) name s HN) as [Hu _].
    destruct (volume_dir_close (ip :: []) N G f2 p (Dir rip 0) ri2 Hv2 Hd2 Hri2 Hrs2) as (f3 & Hc & Hv3 & Ht3 & Hak & Hoth & Ef3 & Ed3).
    rewrite (cstep _ _ _ _ _ Hc). assert (ip ≠ rip) as Hne by (intros ->; destruct Hu; congruence).
    destruct (volume_file_open [] N G f3 ip j Hv3) as (q & f4 & Hfo & Hv4 & Ht4 & Ei4 & Ed4 & Ef4 & Hqn & Hq);
      [by rewrite Hoth|by rewrite Hs|].
    exists q, f4. split; [done|]. split; [done|]. split; [by repeat (eapply touches_mono; [eassumption|])|].
    split; [by rewrite Ed4, Ed3|]. split; [|split; [done|]; split; [by rewrite <- Ef1, <- Ef2, <- Ef3|]].
    { apply (file_sectors_trans _ f2); [by apply keeps_file_sectors; eapply sectors_trans|congruence|].
      apply (file_sectors_trans _ f3); [|congruence|by apply keeps_file_sectors, sectors_same].
      apply (akin_file_sectors G (ip :: [])); [done|apply Hv3|done]. }
    exists ip, j. split; [by rewrite Ef4, Ef3, Ef2, Ef1|]. split; [|done]. by rewrite Ei4, Hoth.
  - destruct Hcase as (-> & Hv2).
    destruct (volume_dir_close [] N G f2 p (Dir rip 0) ri2 Hv2 Hd2 Hri2 Hrs2) as (f3 & Hc & Hv3 & Ht3 & Hak & Hoth & Ef3 & Ed3).
    rewrite (cstep _ _ _ _ _ Hc). unfold file_open. set (f4 := w_brk (brk f3 + 1) f3).
    assert (reads f3 f4) as Hod by (split; try done; [apply Hv3|simpl; lia]).
    rewrite (cstep _ _ _ (if mem f3 (brk f3) then brk f3 else 0) f4) by done. cbn [Z.eqb negb andb].
    rewrite (cstep _ _ _ () f4) by done. exists 0, f4. split; [done|]. split; [by apply (volume_reads _ _ _ f3)|].
    split; [by repeat (eapply touches_mono; [eassumption|]); apply only_touches with ok|].
    split; [simpl; by rewrite Ed3|]. split; [|split; [done|]; simpl; by rewrite Ef3, Ef2, Ef1].
    apply (file_sectors_trans _ f2); [by apply keeps_file_sectors; eapply sectors_trans|congruence|].
    refine (akin_file_sectors G [] f2 f3 Hak _ Ef3). apply Hv3.
Qed.

(** ** Removing files *)

(** A slot of the directory becomes [e]. *)
Definition slot_set (b b' : block D) (d : inode_disk) (k : Z) (e : list Z) : Prop :=
  ∀ j, 0 ≤ j < slots d → entry content b' d j = if decide (j = k) then e else entry content b d j.

(** The directory after a name is taken out. *)
Lemma on_disk_unlink N G b b' d1 k e name s : on_disk N G b → G !! ROOT_DIR_SECTOR = Some d1 → slot_set b b' d1 k e → 0 ≤ k < slots d1 →
  slot (entry content b d1 k) = Some (name, s) → slot e = None → entry_ok e → on_disk (delete name N) G b'.
Proof.
  intros [Hm (d1' & Hd1' & [Hl He Hn] & HN) Hf Hi] Hd1 Hset Hk Hsl Hsn Hok. assert (d1' = d1) as -> by congruence. split; [done| | |].
  - exists d1. split; [done|]. split; [split; [done| |]|].
    + intros j Hj. rewrite Hset by done. case_decide; [done|by apply He].
    + intros k1 k2 nm s1 s2 H1 H2. rewrite !Hset by done. repeat case_decide; try congruence. by apply Hn.
    + intros nm s'. rewrite lookup_delete_Some, HN. split.
      * intros (Hne & j & Hj & Hs'). exists j. split; [done|]. rewrite Hset by done. case_decide as E; [|done]. subst j. congruence.
      * intros (j & Hj & Hs'). rewrite Hset in Hs' by done. case_decide as E; [congruence|]. split; [|by exists j].
        intros <-. destruct E. by apply (Hn j k name s' s).
  - intros nm s' [_ Hs']%lookup_delete_Some. by apply (Hf nm).
  - intros nm nm' s' [_ H1]%lookup_delete_Some [_ H2]%lookup_delete_Some. by apply (Hi nm nm' s').
Qed.

Lemma named_delete N name s s' : N !! name = Some s → (∀ nm, N !! nm = Some s → nm = name) → named (delete name N) s' ↔ s' ≠ s ∧ named N s'.
Proof.
  intros Hs Hinj. split.
  - intros [nm [Hne Hnm]%lookup_delete_Some]. split; [|by exists nm]. intros ->. by destruct Hne, (Hinj nm Hnm).
  - intros [Hne [nm Hnm]]. exists nm. apply lookup_delete_Some. split; [congruence|done].
Qed.

(** Its inode, marked as removed. *)
Lemma memory_unlink N G R f f' ip j name : in_memory N f → open_ok G R f → inodes f !! ip = Some j → N !! name = Some (i_sector j) →
  (∀ nm, N !! nm = Some (i_sector j) → nm = name) → user (i_sector j) →
  inodes f' = <[ip := with_removed j]> (inodes f) → open_files f' = open_files f → free_map_file f' = free_map_file f → mem f' = mem f →
  in_memory (delete name N) f'.
Proof.
  intros [Hp (x & Hx & Hdn & Hs) Hf Hr] Ho Hj HN Hinj Hu Ei Ef Em Emm.
  assert (∀ q i', inodes f' !! q = Some i' → ∃ i, inodes f !! q = Some i ∧ i_sector i' = i_sector i) as Hback.
  { intros q i'. rewrite Ei. intros [[<- <-]|[_ Hq]]%lookup_insert_Some; eauto. }
  split.
  - intros n. rewrite Emm. apply Hp.
  - exists x. rewrite Ef, Em. split; [done|]. split; [done|]. intros i' (i & Hi & ->)%Hback. by apply Hs.
  - rewrite Ef, Em. intros p y i' Hne Hy (i & Hi & ->)%Hback. by apply (Hf p y).
  - intros q i'. rewrite Ei, (named_delete N name (i_sector j)) by done. intros [[<- <-]|[Hne Hq]]%lookup_insert_Some.
    + simpl. split; [|done]. intros _. split; [done|]. by intros [? _].
    + rewrite (Hr q i' Hq). assert (i_sector i' ≠ i_sector j); [|tauto]. intros E. by apply Hne, (op_sector _ _ _ Ho ip q j i').
Qed.

Lemma root_write_ok R N G f f' d1 : volume R N G f → G !! ROOT_DIR_SECTOR = Some d1 →
  only_dev (λ t, start d1 ≤ t < start d1 + sectors (d_length d1)) f f' →
  fs_ok G R f' ∧ touches (area G ROOT_DIR_SECTOR) f f' ∧ (∀ d0, G !! FREE_MAP_SECTOR = Some d0 → persisted f' d0).
Proof.
  intros Hv Hd1 Hod. pose proof (vl_ok _ _ _ _ Hv) as [Hb Ho].
  assert (touches (area G ROOT_DIR_SECTOR) f f') as Ht.
  { eapply touches_weaken; [|by apply only_touches with ok]. intros t Ht. by exists d1. }
  split; [split; [by apply (data_write_base ok size content G f f' ROOT_DIR_SECTOR d1)|by apply (only_open ok size content G R _ f f' Hod)]|].
  split; [done|]. intros d0 Hd0. destruct (nd_map _ _ _ (vl_disk _ _ _ _ Hv)) as (d0' & Hd0' & Hlen). assert (d0' = d0) as -> by congruence.
  apply (persisted_touches G R f f' (area G ROOT_DIR_SECTOR) d0); [apply Hv|done|apply Hod|done..| |by apply Hv].
  intros t H0 H1. pose proof (area_apart R N G f _ _ t Hv H0 H1). done.
Qed.

(** The entry is taken out and the inode marked. *)
Lemma volume_unlink R N G f f1 f2 d1 k e name ip j : volume R N G f → G !! ROOT_DIR_SECTOR = Some d1 →
  only_dev (λ t, start d1 ≤ t < start d1 + sectors (d_length d1)) f f1 → slot_set (device f) (device f1) d1 k e → 0 ≤ k < slots d1 →
  slot (entry content (device f) d1 k) = Some (name, i_sector j) → slot e = None → entry_ok e → N !! name = Some (i_sector j) →
  inodes f !! ip = Some j → fs_ok G R f2 → objects f1 f2 → open_files f2 = open_files f1 → inodes f2 = <[ip := with_removed j]> (inodes f1) →
  volume R (delete name N) G f2.
Proof.
  intros Hv Hd1 Hod Hset Hk Hsl Hse He HN Hj Hf2 Hob Ef Ei. destruct (root_write_ok R N G f f1 d1 Hv Hd1 Hod) as (Hf1 & Ht & Hper).
  pose proof Hv as [Hf Hd Hm Hl Hsv]. destruct (nd_file _ _ _ Hd name _ HN) as [Hu _].
  assert (∀ nm, N !! nm = Some (i_sector j) → nm = name) as Hinj by (intros nm Hnm; by apply (nd_inj _ _ _ Hd nm name (i_sector j))).
  rewrite (od_inodes _ _ _ _ _ _ Hod) in Ei. split; [done| | | |].
  - rewrite (ob_device _ _ Hob). by apply (on_disk_unlink N G (device f) _ d1 k e name (i_sector j)).
  - apply (memory_unlink N G R f f2 ip j name); try done; [apply Hf| | |].
    + rewrite Ef. apply Hod.
    + rewrite (ob_map_file _ _ Hob). apply Hod.
    + rewrite (ob_mem _ _ Hob). apply Hod.
  - intros s Hs Hus. rewrite (named_delete N name (i_sector j)) by done. destruct (decide (s = i_sector j)) as [->|Hne].
    + right. exists ip, (with_removed j). by rewrite Ei, lookup_insert_eq.
    + destruct (Hl s Hs Hus) as [?|(q & i & Hi & <-)]; [by left|right]. exists q, i. rewrite Ei, lookup_insert_ne; [done|]. congruence.
  - intros d0 Hd0. unfold Extents.persisted. rewrite (ob_device _ _ Hob), (ob_map _ _ Hob). by apply Hper.
Qed.

(** What removing writes. *)
Notation system G := (λ t, area G ROOT_DIR_SECTOR t ∨ area G FREE_MAP_SECTOR t).

(** The last part of [dir_remove], from the moment the inode is open. *)
Lemma remove_entry_ok R N G f p x ri ip j name k : volume (ip :: R) N G f → p ≠ 0 → dirs f !! p = Some x →
  inodes f !! dir_inode x = Some ri → i_sector ri = ROOT_DIR_SECTOR → inodes f !! ip = Some j → N !! name = Some (i_sector j) →
  0 ≤ k < slots (data ri) → slot (entry content (device f) (data ri) k) = Some (name, i_sector j) →
  ∃ e f1 f2 f3, set_in_use (entry content (device f) (data ri) k) false = Ret e ∧
    inode_write_at ops (dir_inode x) e ENTRY_SIZE (20 * k) f = Ret (ENTRY_SIZE, f1) ∧ dirs f1 = dirs f ∧
    inode_remove ip f1 = Ret ((), f2) ∧ inode_close ops ip f2 = Ret ((), f3) ∧
    volume R (delete name N) (closed_disk (with_removed j) G) f3 ∧ touches (system G) f f3 ∧
    open_files f3 = open_files f ∧ dirs f3 = dirs f ∧ file_sectors f f3 ∧
    (∃ ri', inodes f3 !! dir_inode x = Some ri' ∧ i_sector ri' = ROOT_DIR_SECTOR).
Proof.
  intros Hv Hp Hd Hri Hrs Hj HN Hk Hsl. destruct (volume_root _ N G f (dir_inode x) ri Hv Hri Hrs) as (HG & Hext & Hdir & HNn & Hrd & Hdn).
  destruct (free_entry_ok (entry content (device f) (data ri) k)) as (e & He & Heok & Hse); [apply (rd_entry _ _ _ _ _ _ Hrd k Hk)|].
  destruct (entry_write ops ok size content Hsize (dir_inode x) ri Hext (di_length _ _ _ Hdir) f e k Hrd Hdn Heok Hk) as (f1 & Hw & Hod & Hset & _).
  destruct (root_write_ok _ N G f f1 (data ri) Hv HG Hod) as (Hf1 & Ht1 & _).
  assert (inodes f1 !! ip = Some j) as Hj1 by (by rewrite (od_inodes _ _ _ _ _ _ Hod)).
  destruct (inode_remove_ok ok size content G _ f1 ip j Hf1 Hj1) as (f2 & Hrm & Hf2 & Hob & Ef2 & Ed2 & Ei2).
  assert (volume (ip :: R) (delete name N) G f2) as Hv2 by (by apply (volume_unlink _ N G f f1 f2 (data ri) k e name ip j)).
  assert (inodes f2 !! ip = Some (with_removed j)) as Hj2 by (by rewrite Ei2, lookup_insert_eq).
  destruct (inode_close_held ops ok size content Hsize G (area G FREE_MAP_SECTOR) R f2 ip (with_removed j)) as (f3 & Hc & Hcl & Ef3 & Ed3);
    [apply Hv2|done|by apply (volume_close_ready _ _ G f2 ip _ Hv2)|].
  pose proof (volume_closed _ R _ G f2 f3 ip (with_removed j) Hv2 Hj2 Hcl (files_same _ _ Ef3)) as Hv3.
  assert (keeps_sectors f f2) as Hks.
  { intros q i Hi. rewrite Ei2, (od_inodes _ _ _ _ _ _ Hod). destruct (decide (ip = q)) as [<-|Hne].
    - rewrite lookup_insert_eq. exists (with_removed j). split; [done|]. simpl. congruence.
    - rewrite lookup_insert_ne by done. by exists i. }
  assert (open_files f2 = open_files f) as Ef20 by (rewrite Ef2; apply Hod).
  exists e, f1, f2, f3. split; [done|]. split; [done|]. split; [apply Hod|]. split; [done|]. split; [done|]. split; [done|].
  split; [|split; [congruence|split; [rewrite Ed3, Ed2; apply Hod|split]]].
  - eapply touches_mono; [eapply touches_weaken; [|exact Ht1]; tauto|].
    eapply touches_mono; [eapply touches_weaken; [|by apply objects_touches]; tauto|].
    eapply touches_weaken; [|apply (cd_touches _ _ _ _ _ _ _ _ _ _ Hcl)]. intros t [_ ?]. by right.
  - apply (file_sectors_trans f f2 f3); [by apply keeps_file_sectors|done|].
    apply (akin_file_sectors (closed_disk (with_removed j) G) R); [apply Hcl|apply Hv3|done].
  - assert (dir_inode x ≠ ip) as Hne.
    { intros E. destruct (nd_file _ _ _ (vl_disk _ _ _ _ Hv) name _ HN) as [[_ Hu] _]. rewrite E in Hri. congruence. }
    exists ri. rewrite (cd_other _ _ _ _ _ _ _ _ _ _ Hcl) by done. rewrite Ei2, lookup_insert_ne by done.
    by rewrite (od_inodes _ _ _ _ _ _ Hod).
Qed.

Lemma dir_remove_ok R N G p x i f name : p ≠ 0 → i_sector i = ROOT_DIR_SECTOR → volume R N G f → dirs f !! p = Some x →
  inodes f !! dir_inode x = Some i → 0 ∉ name →
  ∃ b f', dir_remove ops junk p name f = Ret (b, f') ∧ touches (system G) f f' ∧ open_files f' = open_files f ∧ dirs f' = dirs f ∧
    file_sectors f f' ∧ (∃ i', inodes f' !! dir_inode x = Some i' ∧ i_sector i' = ROOT_DIR_SECTOR) ∧
    match N !! name with
    | Some s => b = true ∧ ∃ G', volume R (delete name N) G' f' ∧ (G' = G ∨ G' = delete s G)
    | None => b = false ∧ volume R N G f'
    end.
Proof.
  intros Hp Hs Hv Hd Hi Hz. unfold dir_remove. rewrite (cstep _ _ _ () f) by (apply assert_ok; by destruct (Z.eqb_spec p 0)).
  destruct (root_lookup R N G p x i Hp Hs f name Hv Hd Hi Hz) as (r & f1 & Hl & Hod & Hr). rewrite (cstep _ _ _ _ _ Hl).
  pose proof (volume_reads R N G f f1 Hv Hod) as Hv1.
  assert (touches (λ _, False) f f1) as Ht1 by (by apply only_touches with ok).
  destruct r as [[e ofs]|].
  2:{ rewrite Hr. rewrite (cstep _ _ _ () f1) by done. exists false, f1. split; [done|].
      split; [by eapply touches_weaken; [|exact Ht1]|]. split; [apply Hod|]. split; [apply Hod|].
      split; [apply keeps_file_sectors, sectors_same, Hod|]. split; [exists i; by rewrite (od_inodes _ _ _ _ _ _ Hod)|done]. }
  destruct Hr as (k & s & Hk & -> & -> & Hsl & HNs). rewrite HNs.
  rewrite (cstep _ _ _ s f1) by (unfold lift; by rewrite (slot_sector _ name s)).
  destruct (nd_file _ _ _ (vl_disk _ _ _ _ Hv1) name s HNs) as [Hu [d Hg]].
  assert (named N s) as Hnm by (by exists name).
  destruct (volume_open R N G f1 s d Hv1 Hg (or_intror Hnm)) as (ip & j & f2 & Ho & Hv2 & Hro & Hks & Hj & <- & Hdj & Hnz).
  rewrite (cstep _ _ _ _ _ Ho).
  assert (touches (λ _, False) f f2) as Ht2 by (eapply touches_mono; [done|by apply reopens_touches with ok]).
  destruct (Hks (dir_inode x) i) as (ri & Hri & Hrs); [by rewrite (od_inodes _ _ _ _ _ _ Hod)|]. rewrite Hs in Hrs.
  destruct (volume_root R N G f _ i Hv Hi Hs) as (HG & _ & _).
  destruct (volume_root _ N G f2 _ ri Hv2 Hri Hrs) as (HG2 & _ & _). assert (data ri = data i) as Edd by congruence.
  assert (entry content (device f2) (data ri) k = entry content (device f) (data i) k) as Eent.
  { rewrite Edd. apply (touches_entry G R f f2 (λ _, False) ROOT_DIR_SECTOR (data i) k Ht2); [apply Hv|done|tauto|done]. }
  assert (dirs f2 = dirs f) as Ed by (rewrite (ro_dirs _ _ _ _ _ Hro); apply Hod).
  assert (open_files f2 = open_files f) as Ef by (rewrite (ro_files _ _ _ _ _ Hro); apply Hod).
  destruct (remove_entry_ok R N G f2 p x ri ip j name k) as (e & f3 & f4 & f5 & He & Hw & Ed3 & Hrm & Hc & Hv5 & Ht5 & Ef5 & Ed5 & Hfs & Hri5);
    [done|done|by rewrite Ed|done|done|done|done|by rewrite Edd|by rewrite Eent|].
  rewrite Eent in He. exists true, f5. split; [|split; [|split; [congruence|split; [congruence|split; [|split; [done|]]]]]].
  - rewrite (cstep _ _ _ true f4); [by rewrite (cstep _ _ _ _ _ Hc)|]. destruct (Z.eqb_spec ip 0); [done|].
    rewrite (cstep _ _ _ e f2) by (unfold lift; by rewrite He).
    rewrite (cstep _ _ _ x f2) by (unfold get_dir; by rewrite Ed, Hd). rewrite (cstep _ _ _ _ _ Hw), Z.eqb_refl. cbn [negb].
    by rewrite (cstep _ _ _ _ _ Hrm).
  - eapply touches_mono; [|exact Ht5]. by eapply touches_weaken; [|exact Ht2].
  - apply (file_sectors_trans f f2 f5); [|done|done]. apply keeps_file_sectors. eapply sectors_trans; [apply sectors_same, Hod|done].
  - split; [done|]. eexists. split; [exact Hv5|]. unfold closed_disk. destruct (dropped _); [by right|by left].
Qed.

Lemma filesys_remove_ok N G f name : volume [] N G f → 0 ∉ name →
  ∃ b f', filesys_remove ops junk name f = Ret (b, f') ∧ touches (system G) f f' ∧ open_files f' = open_files f ∧ dirs f' = dirs f ∧
    file_sectors f f' ∧
    match N !! name with
    | Some s => b = true ∧ ∃ G', volume [] (delete name N) G' f' ∧ (G' = G ∨ G' = delete s G)
    | None => b = false ∧ volume [] N G f'
    end.
Proof.
  intros Hv Hz. unfold filesys_remove.
  destruct (dir_open_root_ok [] N G f Hv) as (p & rip & ri & f1 & Hdo & Hv1 & Ht1 & _ & Ed1 & Hdn & Ef1 & Hp & Hk1 & Hri & Hrs).
  rewrite (cstep _ _ _ _ _ Hdo).
  destruct (dir_remove_ok [] N G p (Dir rip 0) ri f1 name Hp Hrs Hv1) as (b & f2 & Hrm & Ht2 & Ef2 & Ed2 & Hfs & (ri2 & Hri2 & Hrs2) & Hcase);
    [by rewrite Ed1, lookup_insert_eq|done|done|].
  rewrite (cstep _ _ _ b f2) by (destruct (Z.eqb_spec p 0); done).
  assert (dirs f2 !! p = Some (Dir rip 0)) as Hd2 by (by rewrite Ed2, Ed1, lookup_insert_eq).
  assert (∃ N' G', volume [] N' G' f2 ∧ match N !! name with
    | Some s => b = true ∧ N' = delete name N ∧ (G' = G ∨ G' = delete s G) | None => b = false ∧ N' = N ∧ G' = G end) as (N' & G' & Hv2 & Hres).
  { destruct (N !! name) as [s|]; [destruct Hcase as (? & G' & ? & ?)|destruct Hcase]; by eexists _, _. }
  destruct (volume_dir_close [] N' G' f2 p (Dir rip 0) ri2 Hv2 Hd2 Hri2 Hrs2) as (f3 & Hc & Hv3 & Ht3 & Hak & Hoth & Ef3 & Ed3).
  rewrite (cstep _ _ _ _ _ Hc). exists b, f3. split; [done|].
  split; [|split; [congruence|split; [by rewrite Ed3, Ed2, Ed1, delete_insert_id|split]]].
  - eapply touches_mono; [by eapply touches_weaken; [|exact Ht1]|]. eapply touches_mono; [exact Ht2|].
    by eapply touches_weaken; [|exact Ht3].
  - apply (file_sectors_trans _ f1); [by apply keeps_file_sectors|done|]. apply (file_sectors_trans _ f2); [done..|].
    apply (akin_file_sectors G' []); [done|apply Hv3|done].
  - destruct (N !! name); [destruct Hres as (? & -> & ?)|destruct Hres as (? & -> & ->)]; by eauto.
Qed.

(** ** Creating files *)

(** The free map changes, and sectors outside the directory. *)
Lemma volume_alters R N G f f' P g : volume R N G f → fs_base G f' → alters ok size content P g f f' →
  (∀ t, area G ROOT_DIR_SECTOR t → ¬ P t) → (∀ d0, G !! FREE_MAP_SECTOR = Some d0 → persisted f' d0) → volume R N G f'.
Proof.
  intros Hv Hb Hal HP Hper. pose proof (vl_ok _ _ _ _ Hv) as [_ Ho].
  apply (volume_step R R N G f f' P Hv); try done.
  - split; [done|]. by apply (alters_open ok size content G R P g f f' Hal).
  - destruct Hal. by split.
  - apply akin_from, akin_same, Hal.
  - apply files_same, Hal.
  - intros ip i Hi _. by apply (sectors_same _ _ (al_inodes _ _ _ _ _ _ _ Hal)).
Qed.

Lemma volume_map_ready R N G f : volume R N G f → map_ready size G f (area G FREE_MAP_SECTOR).
Proof.
  intros Hv. destruct (volume_map_file R N G f Hv) as (ip0 & i0 & Hmf & _ & Ha). right. by exists ip0, i0.
Qed.

(** What preserves the file of the free map preserves [vl_saved]. *)
Lemma volume_saved R N G f f' : volume R N G f →
  (plenty f → ∀ ip0 i0, map_file G f ip0 i0 → persisted f (data i0) → persisted f' (data i0)) →
  ∀ d0, G !! FREE_MAP_SECTOR = Some d0 → persisted f' d0.
Proof.
  intros Hv Hper d0 Hd0. destruct (volume_map_file R N G f Hv) as (ip0 & i0 & Hmf & Hp & _).
  pose proof (mf_disk _ _ _ _ _ Hmf). assert (d0 = data i0) as -> by congruence. apply (Hper (me_plenty _ _ (vl_memory _ _ _ _ Hv)) ip0 i0 Hmf Hp).
Qed.

Lemma root_apart R N G f t : volume R N G f → area G ROOT_DIR_SECTOR t → ¬ area G FREE_MAP_SECTOR t.
Proof. intros Hv H1 H0. pose proof (area_apart R N G f _ _ t Hv H0 H1). done. Qed.

Lemma volume_allocate R N G f cnt : volume R N G f → 0 ≤ cnt →
  ∃ r f', free_map_allocate ops cnt f = Ret (r, f') ∧ volume R N G f' ∧
    match r with
    | Some s => 0 ≤ s ∧ s + cnt ≤ size ∧ bm_run (free_map f) s cnt false ∧ (∀ i, 0 ≤ i < s → ¬ bm_run (free_map f) i cnt false) ∧
                alters ok size content (area G FREE_MAP_SECTOR) (set_bits (bm_test (free_map f)) s cnt true) f f'
    | None => alters ok size content (area G FREE_MAP_SECTOR) (bm_test (free_map f)) f f' ∧
              ∀ i, 0 ≤ i → i + cnt ≤ size → ¬ bm_run (free_map f) i cnt false
    end.
Proof.
  intros Hv Hcnt. pose proof (vl_ok _ _ _ _ Hv) as [Hb _]. pose proof (volume_map_ready R N G f Hv) as HE.
  destruct (free_map_allocate_ok ops ok size content Hsize G f (area G FREE_MAP_SECTOR) cnt Hb HE Hcnt) as (r & f' & Hr & Hcase & Hper).
  assert (∃ g, alters ok size content (area G FREE_MAP_SECTOR) g f f' ∧ ∀ s' d t, G !! s' = Some d → claims s' d t → g t = true) as (g & Hal & Hg).
  { destruct r as [s|]; [destruct Hcase as (_ & _ & _ & _ & Hal)|destruct Hcase as [Hal _]]; eexists; (split; [exact Hal|]).
    - by apply (set_bits_used ok size content G (device f)), Hb.
    - intros s' d t. by apply (volume_used R N G f). }
  exists r, f'. split; [done|]. split.
  - apply (volume_alters R N G f f' (area G FREE_MAP_SECTOR) g Hv); [|done|by intros t; apply (root_apart R N G f)|by apply (volume_saved R N G f)].
    apply (alters_base ok size content G _ g f f' Hb Hal); [|done]. intros s' d Hs'. by apply (map_ready_apart ok size content G f _ s' d Hb HE).
  - destruct r as [s|]; [done|]. destruct Hcase as [Ha Hno]. split; [done|]. apply Hno, Hv.
Qed.

Lemma volume_release R N G f s : volume R N G f → 0 ≤ s < size → bm_test (free_map f) s = true →
  (∀ s' d, G !! s' = Some d → ¬ claims s' d s) →
  ∃ f', free_map_release ops s 1 f = Ret ((), f') ∧ volume R N G f' ∧
    alters ok size content (area G FREE_MAP_SECTOR) (set_bits (bm_test (free_map f)) s 1 false) f f'.
Proof.
  intros Hv Hs Hu Hfree. pose proof (vl_ok _ _ _ _ Hv) as [Hb _]. pose proof (volume_map_ready R N G f Hv) as HE.
  destruct (volume_map_file R N G f Hv) as (ip0 & i0 & Hmf & Hper & Ha).
  destruct (free_map_release_ok ops ok size content Hsize G f ip0 i0 s 1 Hb Hmf) as (f' & Hr & Hal & Hp); [lia|lia|lia| | |].
  { intros j Hj. by replace j with s by lia. }
  { intros s' d t Hs' Ht Hr. apply (Hfree s' d Hs'). by replace s with t by lia. }
  assert (alters ok size content (area G FREE_MAP_SECTOR) (set_bits (bm_test (free_map f)) s 1 false) f f') as Hal'.
  { eapply alters_weaken; [done| |done|exact Hal]. intros t Ht. by apply Ha. }
  exists f'. split; [done|]. split; [|done]. apply (volume_alters R N G f f' (area G FREE_MAP_SECTOR) (set_bits (bm_test (free_map f)) s 1 false) Hv); [|done| |].
  - apply (alters_base ok size content G _ _ f f' Hb Hal').
    + intros s' d Hs'. by apply (map_ready_apart ok size content G f _ s' d Hb HE).
    + intros s' d t Hs' Ht. unfold set_bits. case_decide as E; [|by apply (volume_used R N G f s' d)].
      destruct (Hfree s' d Hs'). by replace s with t by lia.
  - intros t. by apply (root_apart R N G f).
  - apply (volume_saved R N G f); [done|]. intros Hpl ip1 i1 Hmf1 _.
    destruct (map_file_unique _ _ _ _ _ _ _ Hmf Hmf1) as [_ <-]. by apply Hp.
Qed.

(** The sectors of a new inode are in no area. *)
Lemma new_apart R N G f s d s' t : volume R N G f → (∀ s' d', G !! s' = Some d' → ¬ claims s' d' s) →
  bm_run (free_map f) (start d) (sectors (d_length d)) false → area G s' t → ¬ claims s d t.
Proof.
  intros Hv Hfree Hrun (d' & Hd' & Ht) [->|Ht2].
  - apply (Hfree s' d' Hd'). by right.
  - pose proof (volume_used R N G f s' d' t Hv Hd' (or_intror Ht)) as Hu. by rewrite (Hrun t Ht2) in Hu.
Qed.

Lemma volume_create R N G f s len : volume R N G f → 0 ≤ s < size → 0 ≤ len < 2 ^ 31 - 512 → bm_test (free_map f) s = true →
  (∀ s' d, G !! s' = Some d → ¬ claims s' d s) →
  ∃ b f', inode_create ops s len f = Ret (b, f') ∧ volume R N G f' ∧ created_ok ok size content G (area G FREE_MAP_SECTOR) s len f b f'.
Proof.
  intros Hv Hs Hlen Hu Hfree. pose proof (vl_ok _ _ _ _ Hv) as [Hb _]. pose proof (volume_map_ready R N G f Hv) as HE.
  destruct (inode_create_ok ops ok size content Hsize G f (area G FREE_MAP_SECTOR) s len Hb HE Hs Hlen Hu Hfree) as (b & f' & Hc & Hok & Hper).
  exists b, f'. split; [done|]. split; [|done]. pose proof (volume_saved R N G f f' Hv Hper) as Hsv. destruct b; simpl in Hok.
  - destruct Hok as (first & Hb' & Hal & Hrun & Hz). set (d := InodeDisk first len INODE_MAGIC) in *.
    assert (G !! s = None) as HGs by (apply eq_None_not_Some; intros [d' Hd']; apply (Hfree s d' Hd'); by left).
    eapply (volume_alters R N G f f' _ _ Hv); [|exact Hal| |done].
    + rewrite <- (delete_insert_id G s d) by done. by apply base_delete.
    + intros t Ht [H0|H0]; [by apply (root_apart R N G f t Hv Ht)|]. by apply (new_apart R N G f s d ROOT_DIR_SECTOR t Hv Hfree).
  - destruct Hok as [Hal _]. eapply (volume_alters R N G f f' _ _ Hv); [|exact Hal| |done].
    + apply (alters_base ok size content G _ _ f f' Hb Hal).
      * intros s' d' Hs'. by apply (map_ready_apart ok size content G f _ s' d' Hb HE).
      * intros s' d' t. by apply (volume_used R N G f).
    + intros t. by apply (root_apart R N G f).
Qed.

(** The directory after a name is added. *)
Lemma on_disk_link N G b b' d1 k e name s d : on_disk N G b → G !! ROOT_DIR_SECTOR = Some d1 → slot_set b b' d1 k e → 0 ≤ k < slots d1 →
  slot (entry content b d1 k) = None → slot e = Some (name, s) → entry_ok e → N !! name = None → G !! s = None →
  on_disk (<[name := s]> N) (<[s := d]> G) b'.
Proof.
  intros [(d0 & Hd0 & Hl0) (d1' & Hd1' & [Hl He Hn] & HN) Hf Hi] Hd1 Hset Hk Hsl Hse Hok HNn HGs. assert (d1' = d1) as -> by congruence.
  assert (∀ nm s', N !! nm = Some s' → s' ≠ s) as Hne by (intros nm s' Hs' ->; destruct (Hf nm s Hs') as [_ []]; congruence).
  split.
  - exists d0. rewrite lookup_insert_ne by congruence. done.
  - exists d1. split; [by rewrite lookup_insert_ne by congruence|]. split; [split; [done| |]|].
    + intros j Hj. rewrite Hset by done. case_decide; [done|by apply He].
    + intros k1 k2 nm s1 s2 H1 H2. rewrite !Hset by done. repeat case_decide; subst; try done; [| |by apply Hn].
      * rewrite Hse. intros [= <- <-] HH. exfalso. assert (N !! name = Some s2) by (apply HN; by exists k2). congruence.
      * rewrite Hse. intros HH [= <- <-]. exfalso. assert (N !! name = Some s1) by (apply HN; by exists k1). congruence.
    + intros nm s'. split.
      * intros [[<- <-]|[Hnm Hs']]%lookup_insert_Some.
        -- exists k. split; [done|]. by rewrite Hset, decide_True by done.
        -- apply HN in Hs' as (j & Hj & Hsj). exists j. split; [done|]. rewrite Hset by done. rewrite decide_False; [done|]. congruence.
      * intros (j & Hj & Hsj). rewrite Hset in Hsj by done. case_decide as E.
        -- rewrite Hse in Hsj. injection Hsj as <- <-. apply lookup_insert_eq.
        -- assert (N !! nm = Some s') as Hs' by (apply HN; by exists j). rewrite lookup_insert_ne by congruence. done.
  - intros nm s' [[<- <-]|[_ Hs']]%lookup_insert_Some.
    + rewrite lookup_insert_eq. split; [split; congruence|by eexists].
    + destruct (Hf nm s' Hs') as [? [d' Hd']]. split; [done|]. rewrite lookup_insert_ne; [by exists d'|]. apply not_eq_sym. by apply (Hne nm).
  - intros nm nm' s' [[<- <-]|[_ H1]]%lookup_insert_Some [[<- E]|[_ H2]]%lookup_insert_Some; subst; try done.
    + by destruct (Hne nm' s H2).
    + by destruct (Hne nm s' H1).
    + by apply (Hi nm nm' s').
Qed.

Lemma named_insert N name s s' : N !! name = None → named (<[name := s]> N) s' ↔ s' = s ∨ named N s'.
Proof.
  intros Hn. split.
  - intros [nm [[<- <-]|[_ Hnm]]%lookup_insert_Some]; [by left|right; by exists nm].
  - intros [->|[nm Hnm]]; [exists name; apply lookup_insert_eq|]. exists nm. rewrite lookup_insert_ne by congruence. done.
Qed.

Lemma volume_link R N G f f' d1 k e name s d : volume R N G f → G !! ROOT_DIR_SECTOR = Some d1 → fs_base (<[s := d]> G) f →
  only_dev (λ t, start d1 ≤ t < start d1 + sectors (d_length d1)) f f' → slot_set (device f) (device f') d1 k e → 0 ≤ k < slots d1 →
  slot (entry content (device f) d1 k) = None → slot e = Some (name, s) → entry_ok e → N !! name = None → G !! s = None →
  volume R (<[name := s]> N) (<[s := d]> G) f'.
Proof.
  intros Hv Hd1 Hb1 Hod Hset Hk Hsl Hse He HNn HGs. destruct (root_write_ok R N G f f' d1 Hv Hd1 Hod) as (Hf' & Ht & Hper).
  pose proof Hv as [Hf Hd Hm Hl Hsv]. destruct (nd_map _ _ _ Hd) as (d0 & Hd0 & _). split.
  - split.
    + apply (data_write_base ok size content (<[s := d]> G) f f' ROOT_DIR_SECTOR d1); [done|by rewrite lookup_insert_ne by congruence|done].
    + apply (open_grow G); [|apply Hf']. intros s' d' Hs'. rewrite lookup_insert_ne by congruence. done.
  - by apply (on_disk_link N G (device f) _ d1 k e name s d).
  - pose proof (memory_step N G R f f' Hm (fo_open _ _ _ _ _ _ Hf) (akin_from N f f' (akin_same _ _ (od_inodes _ _ _ _ _ _ Hod)))
      (files_same _ _ (od_files _ _ _ _ _ _ Hod)) (od_map_file _ _ _ _ _ _ Hod) (od_mem _ _ _ _ _ _ Hod)) as [Hp Hx Hfi Hr].
    split; try done. intros ip i Hi. rewrite (Hr ip i Hi), named_insert by done.
    pose proof (op_disk _ _ _ (fo_open _ _ _ _ _ _ Hf') ip i Hi). assert (i_sector i ≠ s) by congruence. tauto.
  - intros s' Hs' Hu. rewrite named_insert by done. rewrite lookup_insert_is_Some' in Hs'. destruct Hs' as [<-|Hs']; [by left; left|].
    destruct (Hl s' Hs' Hu) as [?|?]; [by left; right|right]. by rewrite (od_inodes _ _ _ _ _ _ Hod).
  - intros d0'. rewrite lookup_insert_ne by congruence. apply Hper.
Qed.

(** Creating writes the directory, the free map and sectors that were free. *)
Notation new_or_system G f := (λ t, area G ROOT_DIR_SECTOR t ∨ area G FREE_MAP_SECTOR t ∨ bm_test (free_map f) t = false).

(** What stays the same while a file is created. *)
Record quiet (P : Z → Prop) (f f' : fs D) : Prop := {
  qu_touches : touches P f f';
  qu_inodes : inodes f' = inodes f;
  qu_files : open_files f' = open_files f;
  qu_dirs : dirs f' = dirs f
}.

Lemma quiet_trans P f1 f2 f3 : quiet P f1 f2 → quiet P f2 f3 → quiet P f1 f3.
Proof. intros [] []. split; try congruence. by eapply touches_mono. Qed.
Lemma quiet_weaken (P Q : Z → Prop) f f' : (∀ t, P t → Q t) → quiet P f f' → quiet Q f f'.
Proof. intros HPQ []. split; try done. by eapply touches_weaken. Qed.
Lemma alters_quiet P g f f' : alters ok size content P g f f' → quiet P f f'.
Proof. intros []. by split. Qed.
Lemma only_quiet P f f' : only_dev P f f' → quiet P f f'.
Proof. intros Hod. split; [by apply only_touches with ok|apply Hod..]. Qed.

(** Room for a file: a free slot in the directory and sectors in a row for
    the inode and the data. *)
Definition room (d1 : inode_disk) (f : fs D) (len : Z) : Prop :=
  (∃ k, 0 ≤ k < slots d1 ∧ slot (entry content (device f) d1 k) = None) ∧
  ∃ a, 0 ≤ a ∧ a + 1 + sectors len ≤ size ∧ bm_run (free_map f) a (1 + sectors len) false.

(** The calls of [filesys_create] up to the first that fails. *)
Definition create_body (p : Z) (name : list Z) (len : Z) : cmd (fs D) (bool * Z) :=
  if p =? 0 then mret (false, 0) else
  let* a := free_map_allocate ops 1 in
  match a with
  | None => mret (false, 0)
  | Some s =>
      let* ok := inode_create ops s len in
      if ok : bool then let* added := dir_add ops junk p name s in mret (added, s) else mret (false, s)
  end.

(** Its result; a sector that was allocated in vain is in use but no inode's. *)
Definition body_result (R : list Z) (N : gmap (list Z) Z) (G : gmap Z inode_disk) (name : list Z) (len : Z) (b : bool) (s : Z) (f' : fs D) : Prop :=
  if b then ∃ d, name_ok name ∧ N !! name = None ∧ G !! s = None ∧ d_length d = len ∧ volume R (<[name := s]> N) (<[s := d]> G) f' ∧
                 fdata (device f') (start d) 0 len = replicate (Z.to_nat len) 0
  else volume R N G f' ∧
       (s = 0 ∨ 0 < s < size ∧ bm_test (free_map f') s = true ∧ ∀ s' d, G !! s' = Some d → ¬ claims s' d s).

Section Create.
Context (R : list Z) (N : gmap (list Z) Z) (G : gmap Z inode_disk) (p : Z) (x : dir) (i : inode) (name : list Z) (len : Z).
Context (Hp : p ≠ 0) (Hrs : i_sector i = ROOT_DIR_SECTOR) (Hz : 0 ∉ name) (Hlen : 0 ≤ len < 2 ^ 31 - 512).

(** [dir_add] for the new inode in [s]. *)
Lemma add_new_ok f s d : volume R N G f → dirs f !! p = Some x → inodes f !! dir_inode x = Some i → fs_base (<[s := d]> G) f →
  0 < s < size → bm_test (free_map f) s = true → (∀ s' d', G !! s' = Some d' → ¬ claims s' d' s) →
  d_length d = len → fdata (device f) (start d) 0 len = replicate (Z.to_nat len) 0 →
  ∃ b f', dir_add ops junk p name s f = Ret (b, f') ∧ body_result R N G name len b s f' ∧
    quiet (area G ROOT_DIR_SECTOR) f f' ∧ free_map f' = free_map f ∧
    (name_ok name → N !! name = None → (∃ k, 0 ≤ k < slots (data i) ∧ slot (entry content (device f) (data i) k) = None) → b = true).
Proof.
  intros Hv Hd Hi Hb1 Hs Hu Hfree Hdl Hzero. destruct (volume_root R N G f (dir_inode x) i Hv Hi Hrs) as (HG & Hext & Hdir & HN & Hrd & Hdn).
  destruct (dir_add_ok ops ok size content Hsize (dir_inode x) i Hext (di_length _ _ _ Hdir) junk Hjunk p x Hp eq_refl f name s)
    as (b & f' & Ha & Hod & _ & Hcase); [done..|lia|].
  assert (G !! s = None) as HGs by (apply eq_None_not_Some; intros [d' Hd']; apply (Hfree s d' Hd'); by left).
  exists b, f'. split; [done|]. split; [|split; [|split; [apply Hod|]]].
  - destruct b; simpl in Hcase |- *.
    + destruct Hcase as (Hnm & Hno & k & e & Hk & Hsl & Hse & He & Hset). exists d. split; [done|].
      assert (N !! name = None) as HNn by (apply eq_None_not_Some; intros [s' (j & Hj & Hsj)%HN]; by apply (Hno j s')).
      split; [done|]. split; [done|]. split; [done|]. split; [by apply (volume_link R N G f f' (data i) k e name s d)|].
      rewrite <- Hzero, <- Hdl. assert (fs_ok (<[s := d]> G) R f) as Hf1.
      { split; [done|]. apply (open_grow G); [|apply Hv]. intros s' d' Hs'. rewrite lookup_insert_ne by congruence. done. }
      apply (touches_fdata (<[s := d]> G) R f f' _ s d) with (1 := only_touches _ _ _ _ _ _ Hod); [done|apply lookup_insert_eq| |lia|lia].
      intros t (d' & Hd' & Ht) Ht'. rewrite lookup_insert_eq in Hd'. injection Hd' as <-.
      assert (s = ROOT_DIR_SECTOR); [|congruence]. apply (dk_apart _ _ _ _ _ _ (fo_disk _ _ _ _ _ Hb1) s d ROOT_DIR_SECTOR (data i) t);
        [apply lookup_insert_eq|rewrite lookup_insert_ne; congruence|by right|by right].
    + destruct Hcase as [_ Hr]. split; [by apply (volume_reads R N G f)|]. right. rewrite (od_map _ _ _ _ _ _ Hod). auto.
  - apply only_quiet in Hod. eapply quiet_weaken; [|exact Hod]. intros t Ht. by exists (data i).
  - intros Hnm HNn (k & Hk & Hfreek). destruct b; [done|]. destruct Hcase as [[?|[(j & s' & Hj & Hsj)|Hfull]] _]; [done| |].
    + assert (N !! name = Some s') by (apply HN; by exists j). congruence.
    + destruct (Hfull k Hk). congruence.
Qed.

(** The first sector that is free is before any run of free sectors. *)
Lemma run_after f f1 P s a n : alters ok size content P (set_bits (bm_test (free_map f)) s 1 true) f f1 → 0 ≤ s → 0 ≤ a → 0 ≤ n →
  (∀ j, 0 ≤ j < s → ¬ bm_run (free_map f) j 1 false) → bm_run (free_map f) a (1 + n) false → bm_run (free_map f1) (a + 1) n false.
Proof.
  intros Hal Hs Ha Hn Hfirst Hrun k Hk. assert (s ≤ a) as Hle.
  { destruct (decide (s ≤ a)); [done|]. destruct (Hfirst a); [lia|]. intros j Hj. apply Hrun. lia. }
  rewrite (becomes_test _ _ _ (al_map _ _ _ _ _ _ _ Hal)) by lia. unfold set_bits. rewrite decide_False by lia. apply Hrun. lia.
Qed.

Lemma create_body_ok f : volume R N G f → dirs f !! p = Some x → inodes f !! dir_inode x = Some i →
  ∃ b s f', create_body p name len f = Ret ((b, s), f') ∧ body_result R N G name len b s f' ∧ quiet (new_or_system G f) f f' ∧
    (name_ok name → N !! name = None → room (data i) f len → b = true).
Proof.
  intros Hv Hd Hi. unfold create_body. destruct (Z.eqb_spec p 0) as [?|_]; [done|]. pose proof (sectors_le len ltac:(lia)) as Hsl.
  destruct (volume_allocate R N G f 1 Hv) as (r & f1 & Hr & Hv1 & Hcase); [lia|]. rewrite (cstep _ _ _ _ _ Hr). destruct r as [s|].
  2:{ destruct Hcase as [Hal Hno]. exists false, 0, f1. split; [done|]. split; [split; [done|by left]|]. split.
      - eapply quiet_weaken; [|by eapply alters_quiet]. tauto.
      - intros _ _ [_ (a & Ha & Hle & Hrun)]. destruct (Hno a); [lia|lia|]. intros k Hk. apply Hrun. lia. }
  destruct Hcase as (Hs0 & Hs1 & Hrun1 & Hfirst & Hal1). pose proof (Hrun1 s ltac:(lia)) as Hfs.
  assert (∀ s' d', G !! s' = Some d' → ¬ claims s' d' s) as Hfree.
  { intros s' d' Hs' Hc. pose proof (volume_used R N G f s' d' s Hv Hs' Hc). congruence. }
  assert (s ≠ 0) as Hsnz.
  { intros ->. destruct (nd_map _ _ _ (vl_disk _ _ _ _ Hv)) as (d0 & Hd0 & _). apply (Hfree _ _ Hd0). by left. }
  assert (∀ j, 0 ≤ j → bm_test (free_map f1) j = set_bits (bm_test (free_map f)) s 1 true j) as Ht1 by apply (al_map _ _ _ _ _ _ _ Hal1).
  assert (bm_test (free_map f1) s = true) as Hu1 by (rewrite Ht1 by lia; unfold set_bits; by rewrite decide_True by lia).
  set (P := λ t, area G FREE_MAP_SECTOR t ∨ bm_test (free_map f) t = false).
  assert (quiet P f f1) as Hq1 by (eapply quiet_weaken; [|by eapply alters_quiet]; by left).
  destruct (volume_create R N G f1 s len Hv1) as (b1 & f2 & Hc & Hv2 & Hok); [lia|done..|]. rewrite (cstep _ _ _ _ _ Hc). destruct b1; simpl in Hok.
  2:{ destruct Hok as [Hal2 Hno]. exists false, s, f2. split; [done|]. split; [|split].
      - split; [done|]. right. split; [lia|]. split; [|done]. by rewrite (becomes_test _ _ _ (al_map _ _ _ _ _ _ _ Hal2)) by lia.
      - eapply quiet_trans; [eapply quiet_weaken; [|exact Hq1]; by right|]. eapply quiet_weaken; [|by eapply alters_quiet]. tauto.
      - intros _ _ [_ (a & Ha & Hle & Hrun)]. destruct (Hno (me_plenty _ _ (vl_memory _ _ _ _ Hv1)) (a + 1)); [lia|lia|].
        apply (run_after f f1 _ s a (sectors len) Hal1); try done; lia. }
  destruct Hok as (first & Hb2 & Hal2 & Hrun2 & Hzero). set (d := InodeDisk first len INODE_MAGIC) in *.
  assert (quiet P f f2) as Hq2.
  { eapply quiet_trans; [done|]. eapply quiet_weaken; [|by eapply alters_quiet]. intros t [?|[->|Ht]]; [by left|by right|].
    right. pose proof (Hrun2 t Ht) as Hft. pose proof (ex_start _ _ (dk_extent _ _ _ _ _ _ (fo_disk _ _ _ _ _ Hb2) s d (lookup_insert_eq _ _ _))) as Hst.
    rewrite Ht1 in Hft by (simpl in *; lia). unfold set_bits in Hft. by case_decide. }
  destruct (add_new_ok f2 s d Hv2) as (b & f3 & Ha & Hres & Hq3 & Em3 & Hsucc);
    [by rewrite (qu_dirs _ _ _ Hq2)|by rewrite (qu_inodes _ _ _ Hq2)|done|lia| |done|done|done|].
  { rewrite (becomes_test _ _ _ (al_map _ _ _ _ _ _ _ Hal2)) by lia. unfold set_bits. by case_decide. }
  rewrite (cstep _ _ _ _ _ Ha). exists b, s, f3. split; [done|]. split; [done|]. split.
  - eapply quiet_trans; [eapply quiet_weaken; [|exact Hq2]; by right|]. eapply quiet_weaken; [|done]. tauto.
  - intros Hnm HNn [(k & Hk & Hsk) _]. apply Hsucc; [done|done|]. exists k. split; [done|].
    destruct (volume_root R N G f (dir_inode x) i Hv Hi Hrs) as (HG & _).
    rewrite (touches_entry G R f f2 _ ROOT_DIR_SECTOR (data i) k (qu_touches _ _ _ Hq2)); [done|apply Hv|done| |done].
    intros t Ht [H0|H0]; [by apply (root_apart R N G f t Hv Ht)|]. destruct Ht as (d' & Hd' & Ht).
    pose proof (volume_used R N G f ROOT_DIR_SECTOR d' t Hv Hd' (or_intror Ht)). congruence.
Qed.
End Create.

(** The release of a sector that was allocated in vain. *)
Lemma release_step_ok N G name len b s f : body_result [] N G name len b s f →
  ∃ f', (if negb b && negb (s =? 0) then free_map_release ops s 1 else mret ()) f = Ret ((), f') ∧
    (if b then body_result [] N G name len b s f' else volume [] N G f') ∧ quiet (area G FREE_MAP_SECTOR) f f'.
Proof.
  destruct b; simpl; [intros Hres; exists f; by split_and!|]. intros [Hv Hs]. destruct (Z.eqb_spec s 0) as [->|Hne]; [by exists f|].
  destruct Hs as [?|(Hs & Hu & Hfree)]; [done|].
  destruct (volume_release [] N G f s Hv) as (f' & Hr & Hv' & Hal); [lia|done|done|]. exists f'. split; [done|]. split; [done|].
  by eapply alters_quiet.
Qed.

(** The close of the directory after it. *)
Lemma create_close_ok N G f p x i name len b s : (if b : bool then body_result [] N G name len b s f else volume [] N G f) →
  dirs f !! p = Some x → inodes f !! dir_inode x = Some i → i_sector i = ROOT_DIR_SECTOR →
  ∃ f', dir_close ops p f = Ret ((), f') ∧ (if b then body_result [] N G name len b s f' else volume [] N G f') ∧ touches (λ _, False) f f' ∧
    akin_back f f' ∧ open_files f' = open_files f ∧ dirs f' = delete p (dirs f).
Proof.
  intros Hres Hd Hi Hs. destruct b.
  - destruct Hres as (d & Hnm & HN & HG & Hl & Hv & Hz).
    destruct (volume_dir_close [] _ _ f p x i Hv Hd Hi Hs) as (f' & Hc & Hv' & Ht & Hak & _ & Ef & Ed).
    exists f'. split; [done|]. split; [|done]. exists d. do 5 (split; [done|]). rewrite <- Hz, <- Hl.
    apply (touches_fdata (<[s := d]> G) [] f f' (λ _, False) s d); [done|apply Hv|apply lookup_insert_eq|tauto|lia|lia].
  - destruct (volume_dir_close [] N G f p x i Hres Hd Hi Hs) as (f' & Hc & Hv' & Ht & Hak & _ & Ef & Ed). by exists f'.
Qed.

Lemma filesys_create_ok N G f name len d1 : volume [] N G f → 0 ∉ name → 0 ≤ len < 2 ^ 31 - 512 → G !! ROOT_DIR_SECTOR = Some d1 →
  ∃ b f', filesys_create ops junk name len f = Ret (b, f') ∧ open_files f' = open_files f ∧ dirs f' = dirs f ∧ file_sectors f f' ∧ touches (new_or_system G f) f f' ∧
    (if b then ∃ s d, name_ok name ∧ N !! name = None ∧ G !! s = None ∧ d_length d = len ∧ volume [] (<[name := s]> N) (<[s := d]> G) f' ∧
                 fdata (device f') (start d) 0 len = replicate (Z.to_nat len) 0
     else volume [] N G f') ∧
    (name_ok name → N !! name = None → room d1 f len → b = true).
Proof.
  intros Hv Hz Hlen Hd1. unfold filesys_create.
  destruct (dir_open_root_ok [] N G f Hv) as (p & rip & ri & f1 & Hdo & Hv1 & Ht1 & Em1 & Ed1 & Hdn & Ef1 & Hp & Hk1 & Hri & Hrs).
  rewrite (cstep _ _ _ _ _ Hdo).
  destruct (create_body_ok [] N G p (Dir rip 0) ri name len Hp Hrs Hz Hlen f1 Hv1) as (b & s & f2 & Hcb & Hres & Hq & Hsucc);
    [by rewrite Ed1, lookup_insert_eq|done|].
  rewrite (cstep _ _ _ _ _ Hcb). cbn iota beta.
  destruct (release_step_ok N G name len b s f2 Hres) as (f3 & Hrel & Hres3 & Hq3). rewrite (cstep _ _ _ _ _ Hrel).
  assert (quiet (new_or_system G f1) f1 f3) as Hq13.
  { eapply quiet_trans; [done|]. eapply quiet_weaken; [|done]. tauto. }
  destruct (create_close_ok N G f3 p (Dir rip 0) ri name len b s Hres3) as (f4 & Hc & Hres4 & Ht4 & Hak & Ef4 & Ed4).
  { by rewrite (qu_dirs _ _ _ Hq13), Ed1, lookup_insert_eq. }
  { by rewrite (qu_inodes _ _ _ Hq13). }
  { done. }
  rewrite (cstep _ _ _ _ _ Hc). exists b, f4. split; [done|].
  split; [by rewrite Ef4, (qu_files _ _ _ Hq13)|]. split; [by rewrite Ed4, (qu_dirs _ _ _ Hq13), Ed1, delete_insert_id|].
  split; [|split; [|split; [destruct b; [by exists s|apply Hres4]|]]].
  - apply (file_sectors_trans _ f1); [by apply keeps_file_sectors|done|].
    apply (file_sectors_trans _ f3); [apply keeps_file_sectors, sectors_same, Hq13|apply Hq13|].
    destruct b; [destruct Hres4 as (d & _ & _ & _ & _ & Hv4 & _)|destruct Hres4 as [Hv4 _]];
      (eapply akin_file_sectors; [done|apply Hv4|done]).
  - eapply touches_mono; [by eapply touches_weaken; [|exact Ht1]|].
    eapply touches_mono; [|by eapply touches_weaken; [|exact Ht4]]. rewrite <- Em1. apply Hq13.
  - intros Hnm HNn [(k & Hk & Hsl) Hrun]. apply Hsucc; [done|done|].
    destruct (volume_root [] N G f1 rip ri Hv1 Hri Hrs) as (HG & _). assert (data ri = d1) as -> by congruence.
    split; [|by rewrite Em1]. exists k. split; [done|].
    by rewrite (touches_entry G [] f f1 _ ROOT_DIR_SECTOR d1 k Ht1); [|apply Hv|done|tauto|].
Qed.
End FilesysOk.
