(* ===== verification/Calls.v ===== *)
(** * The file system against a specification (filesys/filesys.c, filesys/file.c)

    A [world] is what a program sees of the file system: names, the contents
    of files, and open files with their positions.  [spec_step] says what each
    call does to it.  The theorem of this file is that the calls of the file
    system, run on a state that represents a world, return, return a value
    the specification allows, and leave a state that represents the world the
    specification prescribes. *)

From S2P Require Import Prelude Bitmap Block Fs Inode Extents Files Directory Filesys.

(** ** The specification *)

Record handle := Handle { h_sector : Z; h_pos : Z; h_deny : bool }.

(** Files are identified by the sectors of their inodes. *)
Record world := World {
  w_names : gmap (list Z) Z;
  w_data : gmap Z (list Z);
  w_handles : gmap Z handle
}.

Inductive call :=
  | CCreate (name : list Z) (len : Z)
  | COpen (name : list Z)
  | CRemove (name : list Z)
  | CRead (p : Z) (buffer : list Z) (size : Z)
  | CWrite (p : Z) (buffer : list Z) (size : Z)
  | CSeek (p pos : Z)
  | CTell (p : Z)
  | CLength (p : Z)
  | CDeny (p : Z)
  | CAllow (p : Z)
  | CClose (p : Z).

Inductive value := VBool (b : bool) | VInt (z : Z) | VBytes (n : Z) (buffer : list Z) | VUnit.

Lemma world_eta w : World (w_names w) (w_data w) (w_handles w) = w.
Proof. by destruct w. Qed.

(** Whether someone has the file open, and whether someone denies writes. *)
Definition held (w : world) (s : Z) : Prop := map_Exists (λ _ h, h_sector h = s) (w_handles w).
Definition refused (w : world) (s : Z) : Prop := map_Exists (λ _ h, h_sector h = s ∧ h_deny h = true) (w_handles w).
Definition has_name (w : world) (s : Z) : Prop := map_Exists (λ _ v, v = s) (w_names w).

(** A file that is neither named nor open is deleted. *)
Definition reclaim (s : Z) (w : world) : world :=
  if decide (has_name w s ∨ held w s) then w else World (w_names w) (delete s (w_data w)) (w_handles w).

Definition splice (bytes : list Z) (pos : Z) (new : list Z) : list Z :=
  take (Z.to_nat pos) bytes ++ new ++ drop (Z.to_nat pos + length new) bytes.

Inductive spec_step (w : world) : call → value → world → Prop :=
  | spec_create_fails name len : spec_step w (CCreate name len) (VBool false) w
  | spec_create name len s : name_ok name → w_names w !! name = None → w_data w !! s = None → user s →
      spec_step w (CCreate name len) (VBool true)
        (World (<[name := s]> (w_names w)) (<[s := replicate (Z.to_nat len) 0]> (w_data w)) (w_handles w))
  | spec_open_missing name : w_names w !! name = None → spec_step w (COpen name) (VInt 0) w
  | spec_open name s p : w_names w !! name = Some s → p ≠ 0 → w_handles w !! p = None →
      spec_step w (COpen name) (VInt p) (World (w_names w) (w_data w) (<[p := Handle s 0 false]> (w_handles w)))
  | spec_remove_missing name : w_names w !! name = None → spec_step w (CRemove name) (VBool false) w
  | spec_remove name s : w_names w !! name = Some s →
      spec_step w (CRemove name) (VBool true) (reclaim s (World (delete name (w_names w)) (w_data w) (w_handles w)))
  | spec_read p buffer size s pos dn bytes : w_handles w !! p = Some (Handle s pos dn) → w_data w !! s = Some bytes →
      let n := avail (zlength bytes) size pos in
      spec_step w (CRead p buffer size) (VBytes n (take (Z.to_nat n) (drop (Z.to_nat pos) bytes) ++ drop (Z.to_nat n) buffer))
        (World (w_names w) (w_data w) (<[p := Handle s (pos + n) dn]> (w_handles w)))
  | spec_write_refused p buffer size s pos dn : w_handles w !! p = Some (Handle s pos dn) → refused w s →
      spec_step w (CWrite p buffer size) (VInt 0) w
  | spec_write p buffer size s pos dn bytes : w_handles w !! p = Some (Handle s pos dn) → ¬ refused w s → w_data w !! s = Some bytes →
      let n := avail (zlength bytes) size pos in
      spec_step w (CWrite p buffer size) (VInt n)
        (World (w_names w) (<[s := splice bytes pos (take (Z.to_nat n) buffer)]> (w_data w)) (<[p := Handle s (pos + n) dn]> (w_handles w)))
  | spec_seek p new s pos dn : w_handles w !! p = Some (Handle s pos dn) →
      spec_step w (CSeek p new) VUnit (World (w_names w) (w_data w) (<[p := Handle s new dn]> (w_handles w)))
  | spec_tell p s pos dn : w_handles w !! p = Some (Handle s pos dn) → spec_step w (CTell p) (VInt pos) w
  | spec_length p s pos dn bytes : w_handles w !! p = Some (Handle s pos dn) → w_data w !! s = Some bytes →
      spec_step w (CLength p) (VInt (zlength bytes)) w
  | spec_deny p s pos dn : w_handles w !! p = Some (Handle s pos dn) →
      spec_step w (CDeny p) VUnit (World (w_names w) (w_data w) (<[p := Handle s pos true]> (w_handles w)))
  | spec_allow p s pos dn : w_handles w !! p = Some (Handle s pos dn) →
      spec_step w (CAllow p) VUnit (World (w_names w) (w_data w) (<[p := Handle s pos false]> (w_handles w)))
  | spec_close p s pos dn : w_handles w !! p = Some (Handle s pos dn) →
      spec_step w (CClose p) VUnit (reclaim s (World (w_names w) (w_data w) (delete p (w_handles w)))).

(** Calls a program may make: names are C strings, files are open, buffers
    are large enough and sizes are below 2 GB. *)
Definition valid (w : world) (c : call) : Prop :=
  match c with
  | CCreate name len => 0 ∉ name ∧ 0 ≤ len < 2 ^ 31 - 512
  | COpen name | CRemove name => 0 ∉ name
  | CRead p buffer size | CWrite p buffer size => is_Some (w_handles w !! p) ∧ size ≤ zlength buffer
  | CSeek p pos => is_Some (w_handles w !! p) ∧ 0 ≤ pos < 2 ^ 31
  | CTell p | CLength p | CDeny p | CAllow p | CClose p => is_Some (w_handles w !! p)
  end.

(** ** The implementation *)

Definition exec {D} (ops : block_operations D) (junk : list Z) (c : call) : cmd (fs D) value :=
  match c with
  | CCreate name len => let* b := filesys_create ops junk name len in mret (VBool b)
  | COpen name => let* p := filesys_open ops junk name in mret (VInt p)
  | CRemove name => let* b := filesys_remove ops junk name in mret (VBool b)
  | CRead p buffer size => let* (n, buffer) := file_read ops p buffer size in mret (VBytes n buffer)
  | CWrite p buffer size => let* n := file_write ops p buffer size in mret (VInt n)
  | CSeek p pos => let* _ := file_seek p pos in mret VUnit
  | CTell p => let* n := file_tell p in mret (VInt n)
  | CLength p => let* n := file_length p in mret (VInt n)
  | CDeny p => let* _ := file_deny_write p in mret VUnit
  | CAllow p => let* _ := file_allow_write p in mret VUnit
  | CClose p => let* _ := file_close ops p in mret VUnit
  end.

Lemma occurs_pos_inv (m : gmap Z Z) q : 0 < occurs m q → ∃ p, m !! p = Some q.
Proof.
  unfold occurs. intros H. destruct (map_choose (filter (λ '(_, v), v = q) m)) as (p & v & Hp).
  - intros E. rewrite E, map_size_empty in H. lia.
  - apply map_lookup_filter_Some in Hp as [Hp ->]. by exists p.
Qed.

Lemma splice_nil bytes pos : splice bytes pos [] = bytes.
Proof. apply filled_nil. Qed.

Lemma splice_length bytes pos new : 0 ≤ pos → pos + zlength new ≤ zlength bytes → length (splice bytes pos new) = length bytes.
Proof. apply filled_length. Qed.

Lemma splice_lookup bytes pos new j : 0 ≤ pos → pos + zlength new ≤ zlength bytes → 0 ≤ j →
  splice bytes pos new !! Z.to_nat j =
  if decide (pos ≤ j < pos + zlength new) then new !! Z.to_nat (j - pos) else bytes !! Z.to_nat j.
Proof.
  intros Hp Hl Hj. unfold splice. assert (length (take (Z.to_nat pos) bytes) = Z.to_nat pos) as Ht by (rewrite length_take; lia).
  case_decide as H1; [|destruct (decide (j < pos)) as [H2|H2]].
  - rewrite lookup_app_r, Ht, lookup_app_l by lia. f_equal. lia.
  - rewrite lookup_app_l, lookup_take_lt by lia. done.
  - rewrite lookup_app_r, Ht, lookup_app_r, lookup_drop by lia. f_equal. lia.
Qed.

(** ** Programs

    A program calls the file system, and chooses the next call by the value
    that the last one returned. *)
Inductive program :=
  | PDone
  | PCall (c : call) (k : value → program).

Fixpoint run {D} (ops : block_operations D) (junk : list Z) (p : program) : cmd (fs D) (list value) :=
  match p with
  | PDone => mret []
  | PCall c k => let* v := exec ops junk c in let* vs := run ops junk (k v) in mret (v :: vs)
  end.

(** The values that the specification allows. *)
Inductive spec_run : world → program → list value → world → Prop :=
  | spec_done w : spec_run w PDone [] w
  | spec_call w c k v w1 vs w2 : spec_step w c v w1 → spec_run w1 (k v) vs w2 → spec_run w (PCall c k) (v :: vs) w2.

(** Whatever the calls return, the next one is valid. *)
Fixpoint careful (w : world) (p : program) : Prop :=
  match p with
  | PDone => True
  | PCall c k => valid w c ∧ ∀ v w', spec_step w c v w' → careful w' (k v)
  end.

Section CallsOk.
Context {D : Type} (ops : block_operations D) (ok : D → Prop) (size : Z).
Context (content : D → Z → list Z) `{!DriverOk ops ok size content}.
Notation fdata := (fdata content).
Notation touches := (touches size content).
Notation volume := (volume ok size content).
Hypothesis Hsize : 2 < size < 2 ^ 32 - 32.
Context (junk : list Z) (Hjunk : length junk = 20%nat).

(** ** The representation *)

Definition view (f : fs D) (p : Z) : option handle :=
  open_files f !! p ≫= λ x, (λ i, Handle (i_sector i) (f_pos x) (deny_write x)) <$> inodes f !! f_inode x.

Record represents (G : gmap Z inode_disk) (w : world) (f : fs D) : Prop := {
  re_volume : volume [] (w_names w) G f;
  re_data s : user s → w_data w !! s = (λ d, fdata (device f) (start d) 0 (d_length d)) <$> G !! s;
  re_system s : ¬ user s → w_data w !! s = None;
  re_handles p : w_handles w !! p = if decide (p = free_map_file f) then None else view f p;
  re_dirs : dirs f = ∅;
  re_pos p h : w_handles w !! p = Some h → 0 ≤ h_pos h < 2 ^ 31
}.

(** The file behind a handle. *)
Lemma handle_file G w f p h : represents G w f → w_handles w !! p = Some h →
  ∃ x i bytes, p ≠ free_map_file f ∧ open_files f !! p = Some x ∧ inodes f !! f_inode x = Some i ∧ h = Handle (i_sector i) (f_pos x) (deny_write x) ∧
    user (i_sector i) ∧ G !! i_sector i = Some (data i) ∧ w_data w !! i_sector i = Some bytes ∧
    bytes = fdata (device f) (start (data i)) 0 (d_length (data i)) ∧ zlength bytes = d_length (data i).
Proof.
  intros Hre Hh. rewrite (re_handles _ _ _ Hre) in Hh. case_decide as E; [done|]. unfold view in Hh.
  destruct (open_files f !! p) as [x|] eqn:Hx; [|done]. simpl in Hh. destruct (inodes f !! f_inode x) as [i|] eqn:Hi; [|done].
  injection Hh as <-. pose proof (re_volume _ _ _ Hre) as Hv. pose proof (me_file _ _ (vl_memory _ _ _ _ _ _ _ Hv) p x i E Hx Hi) as Hu.
  pose proof (vl_ok _ _ _ _ _ _ _ Hv) as [Hb Ho]. pose proof (op_disk _ _ _ Ho _ i Hi) as Hg.
  pose proof (dk_extent _ _ _ _ _ _ (fo_disk _ _ _ _ _ Hb) _ _ Hg) as [Hl _ _].
  eexists x, i, _. split; [done|]. split; [done|]. split; [done|]. split; [done|]. split; [done|]. split; [done|].
  split; [by rewrite (re_data _ _ _ Hre), Hg by done|]. split; [done|]. rewrite fdata_length. lia.
Qed.

(** Views of files that are not concerned. *)
Lemma view_same G f f' p : open_ok G [] f → file_sectors f f' → open_files f' !! p = open_files f !! p → view f' p = view f p.
Proof.
  intros Ho Hfs E. unfold view. rewrite E. destruct (open_files f !! p) as [x|] eqn:Hx; [|done]. simpl.
  destruct (file_held G [] f p x Ho Hx) as [i Hi]. destruct (Hfs p x i Hx Hi) as (j & -> & Hs). rewrite Hi. simpl. by rewrite Hs.
Qed.

(** Calls that change handles only. *)
Lemma represents_handles G w f f' H : represents G w f → volume [] (w_names w) G f' → data_kept content G f f' → dirs f' = ∅ →
  (∀ p, H !! p = if decide (p = free_map_file f') then None else view f' p) → (∀ p h, H !! p = Some h → 0 ≤ h_pos h < 2 ^ 31) →
  represents G (World (w_names w) (w_data w) H) f'.
Proof.
  intros Hre Hv Hk Hd HH Hp. split; try done; [|apply Hre]. intros s Hu. simpl. rewrite (re_data _ _ _ Hre s Hu).
  destruct (G !! s) as [d|] eqn:Hs; [|done]. simpl. f_equal. symmetry. by apply (Hk s d).
Qed.

(** The handle [p] becomes [h]. *)
Lemma view_insert G w f f' p x i y : represents G w f → p ≠ free_map_file f → open_files f !! p = Some x → inodes f !! f_inode x = Some i →
  file_sectors f f' → free_map_file f' = free_map_file f → open_files f' = <[p := y]> (open_files f) → f_inode y = f_inode x →
  ∀ q, <[p := Handle (i_sector i) (f_pos y) (deny_write y)]> (w_handles w) !! q = if decide (q = free_map_file f') then None else view f' q.
Proof.
  intros Hre Hne Hx Hi Hfs Em Ef Ey q. rewrite Em. destruct (decide (p = q)) as [<-|Hpq].
  - rewrite lookup_insert_eq, decide_False by done. unfold view. rewrite Ef, lookup_insert_eq. simpl. rewrite Ey.
    destruct (Hfs p x i Hx Hi) as (j & -> & <-). done.
  - rewrite lookup_insert_ne by done. rewrite (re_handles _ _ _ Hre). case_decide; [done|]. symmetry.
    apply (view_same G); [apply (re_volume _ _ _ Hre)|done|]. by rewrite Ef, lookup_insert_ne.
Qed.

Lemma pos_insert w p h q h' : (∀ p h, w_handles w !! p = Some h → 0 ≤ h_pos h < 2 ^ 31) → 0 ≤ h_pos h < 2 ^ 31 →
  <[p := h]> (w_handles w) !! q = Some h' → 0 ≤ h_pos h' < 2 ^ 31.
Proof. intros Hp Hh [[<- <-]|[_ Hq]]%lookup_insert_Some; [done|by apply (Hp q)]. Qed.

(** A file is replaced by one of the same inode. *)
Lemma files_from_replace (f f' : fs D) p x y : p ≠ free_map_file f → open_files f !! p = Some x → f_inode y = f_inode x →
  open_files f' = <[p := y]> (open_files f) → files_from f f'.
Proof.
  intros Hne Hx Ey Ef. split; [by rewrite Ef, lookup_insert_ne|]. intros q z _. rewrite Ef.
  intros [[<- <-]|[_ Hq]]%lookup_insert_Some; left; [by exists x|by exists z].
Qed.

Lemma avail_le len sz pos : 0 ≤ pos → 0 ≤ avail len sz pos ∧ (avail len sz pos = 0 ∨ pos + avail len sz pos ≤ len).
Proof. unfold avail. lia. Qed.

(** Reading [n] bytes of the contents. *)
Lemma fdata_sub b st len pos n : 0 ≤ pos → 0 ≤ n → n = 0 ∨ pos + n ≤ len →
  fdata b st pos n = take (Z.to_nat n) (drop (Z.to_nat pos) (fdata b st 0 len)).
Proof.
  intros Hp Hn Hle. destruct (decide (n = 0)) as [->|Hnz]; [done|].
  replace len with (pos + (n + (len - pos - n))) by lia. rewrite !fdata_app by lia. rewrite Z.add_0_l.
  rewrite drop_app_length' by (rewrite fdata_length; lia). by rewrite take_app_length' by (rewrite fdata_length; lia).
Qed.

(** A file is on the disk as long as it has a name or is open. *)
Lemma live_iff N G f (H : gmap Z handle) s : volume [] N G f → dirs f = ∅ → (∀ p, H !! p = if decide (p = free_map_file f) then None else view f p) → user s →
  is_Some (G !! s) ↔ map_Exists (λ _ v, v = s) N ∨ map_Exists (λ _ h, h_sector h = s) H.
Proof.
  intros Hv Hd HH Hu. pose proof (vl_ok _ _ _ _ _ _ _ Hv) as [_ Ho]. split.
  - intros Hs. destruct (vl_live _ _ _ _ _ _ _ Hv s Hs Hu) as [[nm Hnm]|(ip & i & Hi & <-)]; [left; by exists nm, s|right].
    pose proof (op_refs _ _ _ Ho ip) as Hr. pose proof (op_open _ _ _ Ho ip i Hi) as Hc. rewrite Hi in Hr. unfold refs in Hr. rewrite Hd in Hr.
    unfold occurs_in in Hr. simpl in Hr. unfold occurs at 2 in Hr. rewrite fmap_empty, map_filter_empty, map_size_empty in Hr.
    destruct (occurs_pos_inv (f_inode <$> open_files f) ip) as [p Hp]; [lia|]. rewrite lookup_fmap in Hp.
    destruct (open_files f !! p) as [x|] eqn:Hx; [|done]. injection Hp as Ex.
    exists p, (Handle (i_sector i) (f_pos x) (deny_write x)). split; [|done]. rewrite HH, decide_False.
    + unfold view. rewrite Hx. simpl. by rewrite Ex, Hi.
    + intros ->. destruct (me_map _ _ (vl_memory _ _ _ _ _ _ _ Hv)) as (y & Hy & _ & Hsec). destruct Hu as [Hu _]. apply Hu.
      apply Hsec. assert (y = x) as -> by congruence. by rewrite Ex.
  - intros [(nm & v & Hnm & ->)|(p & h & Hp & <-)]; [by apply (nd_file _ _ _ _ _ (vl_disk _ _ _ _ _ _ _ Hv) nm)|].
    rewrite HH in Hp. case_decide; [done|]. unfold view in Hp. destruct (open_files f !! p) as [x|]; [|done]. simpl in Hp.
    destruct (inodes f !! f_inode x) as [i|] eqn:Hi; [|done]. injection Hp as <-. simpl. rewrite (op_disk _ _ _ Ho _ i Hi). by eexists.
Qed.

(** The file [s] is deleted if nothing refers to it. *)
Lemma reclaim_represents N G f (H : gmap Z handle) B s : volume [] N G f → dirs f = ∅ → (∀ p, H !! p = if decide (p = free_map_file f) then None else view f p) →
  (∀ p h, H !! p = Some h → 0 ≤ h_pos h < 2 ^ 31) → user s → (∀ t, ¬ user t → B !! t = None) →
  (∀ t, user t → t ≠ s ∨ is_Some (G !! s) → B !! t = (λ d, fdata (device f) (start d) 0 (d_length d)) <$> G !! t) →
  represents G (reclaim s (World N B H)) f.
Proof.
  intros Hv Hd HH Hpos Hu HBn HB. pose proof (live_iff N G f H s Hv Hd HH Hu) as Hlive. unfold reclaim. case_decide as Hc.
  - split; try done. intros t Ht. apply HB; [done|right]. by apply Hlive.
  - assert (G !! s = None) as HGs by (apply eq_None_not_Some; by rewrite Hlive).
    split; try done; simpl.
    + intros t Ht. destruct (decide (t = s)) as [->|Hne]; [by rewrite lookup_delete_eq, HGs|]. rewrite lookup_delete_ne by done. apply HB; auto.
    + intros t Ht. apply lookup_delete_None. right. by apply HBn.
Qed.

Section Step.
Context (G : gmap Z inode_disk) (w : world) (f : fs D) (Hre : represents G w f).

(** [c] runs as specified. *)
Definition refined (c : call) : Prop :=
  ∃ v f' G' w', exec ops junk c f = Ret (v, f') ∧ spec_step w c v w' ∧ represents G' w' f'.
(** And no file moves on the disk. *)
Definition refined_same (c : call) : Prop :=
  ∃ v f' w', exec ops junk c f = Ret (v, f') ∧ spec_step w c v w' ∧ represents G w' f'.
Lemma refined_weaken c : refined_same c → refined c.
Proof. intros (v & f' & w' & H). by exists v, f', G, w'. Qed.

Lemma contents_same P f' : touches P f f' →
  (∀ t, P t → area G ROOT_DIR_SECTOR t ∨ area G FREE_MAP_SECTOR t ∨ bm_test (free_map f) t = false) →
  ∀ s, user s → w_data w !! s = (λ d, fdata (device f') (start d) 0 (d_length d)) <$> G !! s.
Proof.
  intros Ht HP s Hus. rewrite (re_data _ _ _ Hre s Hus). destruct (G !! s) as [d|] eqn:Hs; [|done]. simpl. f_equal. symmetry.
  exact (touches_kept ok size content [] (w_names w) G f f' P (re_volume _ _ _ Hre) Ht HP s d Hs Hus).
Qed.

Lemma moved_volume p x n f' : moved ok size content G [] p x n f f' → touches (λ _, False) f f' → p ≠ free_map_file f →
  open_files f !! p = Some x → volume [] (w_names w) G f'.
Proof.
  intros Hmv Ht Hne Hx. pose proof (re_volume _ _ _ Hre) as Hv.
  apply (volume_reads_step ok size content Hsize [] [] _ G f f' Hv); [apply Hmv|done|apply Hmv| | |].
  - apply akin_from, akin_same, Hmv.
  - by apply (files_from_replace f f' p x (File (f_inode x) (f_pos x + n) (deny_write x))); [| | |apply Hmv].
  - apply sectors_same, Hmv.
Qed.

Lemma moved_represents p x i n P f' B : moved ok size content G [] p x n f f' → touches P f f' → p ≠ free_map_file f →
  open_files f !! p = Some x → inodes f !! f_inode x = Some i → 0 ≤ f_pos x < 2 ^ 31 → 0 ≤ n → (n = 0 ∨ f_pos x + n ≤ d_length (data i)) →
  volume [] (w_names w) G f' → (∀ s, user s → B !! s = (λ d, fdata (device f') (start d) 0 (d_length d)) <$> G !! s) →
  (∀ s, ¬ user s → B !! s = None) →
  represents G (World (w_names w) B (<[p := Handle (i_sector i) (f_pos x + n) (deny_write x)]> (w_handles w))) f'.
Proof.
  intros Hmv Ht Hne Hx Hi Hpos Hn Hnl Hv' HB HBn. pose proof (re_volume _ _ _ Hre) as Hv. split; [done|done|done| | |].
  - apply (view_insert G w f f' p x i (File (f_inode x) (f_pos x + n) (deny_write x)) Hre); try done;
      [apply keeps_file_sectors, sectors_same, Hmv|apply Ht|apply Hmv].
  - rewrite (mv_dirs _ _ _ _ _ _ _ _ _ _ Hmv). apply Hre.
  - intros q h'. apply pos_insert; [apply Hre|]. simpl. pose proof (vl_ok _ _ _ _ _ _ _ Hv) as [Hb Ho].
    pose proof (dk_extent _ _ _ _ _ _ (fo_disk _ _ _ _ _ Hb) _ _ (op_disk _ _ _ Ho _ i Hi)) as [? _ _]. lia.
Qed.

Lemma read_refined p buffer sz : is_Some (w_handles w !! p) → sz ≤ zlength buffer → refined_same (CRead p buffer sz).
Proof.
  intros [h Hh] Hsz. pose proof (re_pos _ _ _ Hre p h Hh) as Hpos. pose proof (re_volume _ _ _ Hre) as Hv.
  destruct (handle_file G w f p h Hre Hh) as (x & i & bytes & Hne & Hx & Hi & -> & Hu & Hg & Hdata & Hbytes & Hlen). simpl in Hpos.
  destruct (file_read_ok ops ok size content Hsize G [] f p x i buffer sz) as (n & f' & Hr & Hn & Hpl & Hmv & Ht); [apply Hv|done..|].
  specialize (Hpl (me_plenty _ _ (vl_memory _ _ _ _ _ _ _ Hv))). rewrite <- Hlen in Hpl.
  destruct (avail_le (zlength bytes) sz (f_pos x) ltac:(lia)) as [Hn0 Hnl]. rewrite <- Hpl in Hn0, Hnl.
  assert (volume [] (w_names w) G f') as Hv' by (by apply (moved_volume p x n f')).
  eexists _, f', _. split; [|split].
  - unfold exec. by rewrite (cstep _ _ _ _ _ Hr).
  - replace (filled buffer 0 (fdata (device f) (start (data i)) (f_pos x) n)) with
      (take (Z.to_nat n) (drop (Z.to_nat (f_pos x)) bytes) ++ drop (Z.to_nat n) buffer).
    + rewrite Hpl. by eapply spec_read.
    + unfold filled. simpl. rewrite fdata_length. f_equal. rewrite Hbytes. symmetry. apply fdata_sub; lia.
  - rewrite <- Hpl. apply (moved_represents p x i n (λ _, False) f'); [done..|by rewrite <- Hlen|done| |apply Hre].
    by apply (contents_same (λ _, False)).
Qed.

(** A count of denied writes that is not 0 means a handle that denies. *)
Lemma refused_iff ip i : inodes f !! ip = Some i → user (i_sector i) → deny_write_cnt i ≠ 0 ↔ refused w (i_sector i).
Proof.
  intros Hi Hu. pose proof (re_volume _ _ _ Hre) as Hv. pose proof (vl_ok _ _ _ _ _ _ _ Hv) as [Hb Ho].
  rewrite (op_deny _ _ _ Ho ip i Hi). unfold denials. pose proof (occurs_nonneg (denied (open_files f)) ip). split.
  - intros Hd. destruct (occurs_pos_inv (denied (open_files f)) ip) as [p Hp]; [lia|]. unfold denied in Hp. rewrite lookup_omap in Hp.
    destruct (open_files f !! p) as [y|] eqn:Hy; [|done]. simpl in Hp. destruct (deny_write y) eqn:Hdy; [|done]. injection Hp as Ey.
    exists p, (Handle (i_sector i) (f_pos y) true). split; [|done]. rewrite (re_handles _ _ _ Hre). rewrite decide_False.
    + unfold view. rewrite Hy. simpl. rewrite Ey, Hi. simpl. by rewrite Hdy.
    + intros ->. destruct (me_map _ _ (vl_memory _ _ _ _ _ _ _ Hv)) as (z & Hz & Hdz & _). congruence.
  - intros (p & h & Hh & Hs & Hd). destruct (handle_file G w f p h Hre Hh) as (y & j & _ & _ & Hy & Hj & -> & _). simpl in *.
    assert (f_inode y = ip) as Ey by (by apply (op_sector _ _ _ Ho _ _ j i)). pose proof (occurs_pos (denied (open_files f)) p ip) as Hpos.
    unfold denied in Hpos at 1. rewrite lookup_omap, Hy in Hpos. simpl in Hpos. rewrite Hd, Ey in Hpos. specialize (Hpos eq_refl). lia.
Qed.

(** What a write leaves of the contents. *)
Lemma written_splice b b' st len pos n buffer : 0 ≤ pos → 0 ≤ n → (n = 0 ∨ pos + n ≤ len) → n ≤ zlength buffer → 0 ≤ len →
  (∀ j, 0 ≤ j < len → fbyte content b' st j = if decide (pos ≤ j < pos + n) then from_buffer buffer 0 (j - pos) else fbyte content b st j) →
  fdata b' st 0 len = splice (fdata b st 0 len) pos (take (Z.to_nat n) buffer).
Proof.
  intros Hp Hn Hnl Hb Hlen Hby. destruct (decide (n = 0)) as [->|Hnz].
  { rewrite take_0, splice_nil. apply fdata_ext. intros j Hj. rewrite Hby by lia. by rewrite decide_False by lia. }
  assert (zlength (take (Z.to_nat n) buffer) = n) as Hl by (rewrite length_take; lia).
  apply fdata_bytes; [rewrite splice_length; rewrite ?fdata_length; lia|]. intros j Hj.
  rewrite Hby, splice_lookup by (rewrite ?fdata_length; lia). rewrite Hl. case_decide as E.
  - unfold from_buffer. rewrite lookup_take_lt by lia. done.
  - rewrite fdata_lookup by lia. simpl. f_equal. lia.
Qed.

(** Contents after a change of the data of [s]. *)
Lemma contents_after s d f' bytes : G !! s = Some d → user s → touches (area G s) f f' →
  fdata (device f') (start d) 0 (d_length d) = bytes →
  ∀ t, user t → <[s := bytes]> (w_data w) !! t = (λ d, fdata (device f') (start d) 0 (d_length d)) <$> G !! t.
Proof.
  intros Hs Hu Ht Hb t Hut. destruct (decide (s = t)) as [<-|Hne]; [rewrite lookup_insert_eq, Hs; simpl; by rewrite Hb|].
  rewrite lookup_insert_ne by done. rewrite (re_data _ _ _ Hre t Hut). destruct (G !! t) as [d'|] eqn:Hd'; [|done]. simpl. f_equal. symmetry.
  apply (touches_fdata ok size content G [] f f' _ t d' 0 (d_length d') Ht); [apply (re_volume _ _ _ Hre)|done| |lia|lia].
  intros k H1 H2. apply Hne. by apply (area_apart ok size content [] (w_names w) G f s t k (re_volume _ _ _ Hre)).
Qed.

Lemma write_volume p x i n f' : moved ok size content G [] p x n f f' → touches (area G (i_sector i)) f f' → p ≠ free_map_file f →
  open_files f !! p = Some x → user (i_sector i) → volume [] (w_names w) G f'.
Proof.
  intros Hmv Ht Hne Hx [Hu0 Hu1]. pose proof (re_volume _ _ _ Hre) as Hv.
  pose proof (area_apart ok size content [] (w_names w) G f) as Hap.
  apply (volume_step ok size content Hsize [] [] _ G f f' (area G (i_sector i)) Hv); [apply Hmv|done| | | | |].
  - intros t H1 H2. apply Hu1. by apply (Hap _ _ t Hv H2).
  - apply akin_from, akin_same, Hmv.
  - by apply (files_from_replace f f' p x (File (f_inode x) (f_pos x + n) (deny_write x))); [| | |apply Hmv].
  - intros ip j Hj _. by apply (sectors_same _ _ (mv_inodes _ _ _ _ _ _ _ _ _ _ Hmv)).
  - intros d0 Hd0. destruct (nd_map _ _ _ _ _ (vl_disk _ _ _ _ _ _ _ Hv)) as (d0' & Hd0' & Hlen). assert (d0' = d0) as -> by congruence.
    apply (persisted_touches ok size content G [] f f' (area G (i_sector i)) d0); [apply Hv|done|apply Hmv|done..| |by apply Hv].
    intros t H1 H2. apply Hu0. by apply (Hap _ _ t Hv H2).
Qed.

Lemma write_refined p buffer sz : is_Some (w_handles w !! p) → sz ≤ zlength buffer → refined (CWrite p buffer sz).
Proof.
  intros [h Hh] Hsz. pose proof (re_pos _ _ _ Hre p h Hh) as Hpos. pose proof (re_volume _ _ _ Hre) as Hv.
  destruct (handle_file G w f p h Hre Hh) as (x & i & bytes & Hne & Hx & Hi & -> & Hu & Hg & Hdata & Hbytes & Hlen). simpl in Hpos.
  pose proof (refused_iff (f_inode x) i Hi Hu) as Hrf. destruct (decide (deny_write_cnt i = 0)) as [Hdn|Hdn].
  2:{ destruct (file_write_denied ops ok size content G [] f p x i buffer sz) as (f' & Hw & Hmv & Ht); [apply Hv|done..|].
      eexists _, f', G, w. split; [unfold exec; by rewrite (cstep _ _ _ _ _ Hw)|]. split; [eapply spec_write_refused; [done|by apply Hrf]|].
      pose proof (moved_represents p x i 0 _ f' (w_data w) Hmv Ht Hne Hx Hi Hpos) as Hre'. rewrite Z.add_0_r in Hre'.
      rewrite insert_id, world_eta in Hre' by done. apply Hre'; [lia|by left|by apply (moved_volume p x 0)| |apply Hre].
      by apply (contents_same (λ _, False)). }
  destruct (file_write_ok ops ok size content Hsize G [] f p x i buffer sz) as (n & f' & Hw & Hn & Hpl & Hmv & Ht & Hby); [apply Hv|done..|].
  specialize (Hpl (me_plenty _ _ (vl_memory _ _ _ _ _ _ _ Hv))). rewrite <- Hlen in Hpl.
  destruct (avail_le (zlength bytes) sz (f_pos x) ltac:(lia)) as [Hn0 Hnl]. rewrite <- Hpl in Hn0, Hnl.
  assert (touches (area G (i_sector i)) f f') as Hta by (eapply touches_weaken; [|exact Ht]; intros t Hin; by exists (data i)).
  pose proof (vl_ok _ _ _ _ _ _ _ Hv) as [Hb _]. pose proof (dk_extent _ _ _ _ _ _ (fo_disk _ _ _ _ _ Hb) _ _ Hg) as [Hl31 _ _].
  pose proof (sectors_le (d_length (data i)) ltac:(lia)) as Hsec.
  eexists _, f', G, _. split; [unfold exec; by rewrite (cstep _ _ _ _ _ Hw)|]. split; [rewrite Hpl; eapply spec_write; [done|tauto|done]|].
  rewrite <- Hpl. apply (moved_represents p x i n _ f' _ Hmv Hta); [done..|by rewrite <- Hlen|by apply (write_volume p x i n f')| |].
  - apply (contents_after (i_sector i) (data i)); [done..|]. rewrite Hbytes.
    apply (written_splice (device f)); [lia|lia|by rewrite <- Hlen|unfold avail in Hpl; lia|lia|]. intros j Hj. apply Hby. lia.
  - intros s Hs. rewrite lookup_insert_ne by congruence. by apply Hre.
Qed.

(** A handle becomes another one of the same file. *)
Lemma replaced_represents p x i y f' : p ≠ free_map_file f → open_files f !! p = Some x → inodes f !! f_inode x = Some i →
  fs_ok ok size content G [] f' → objects f f' → dirs f' = dirs f → akin_back f f' → keeps_sectors f f' →
  open_files f' = <[p := y]> (open_files f) → f_inode y = f_inode x → 0 ≤ f_pos y < 2 ^ 31 →
  represents G (World (w_names w) (w_data w) (<[p := Handle (i_sector i) (f_pos y) (deny_write y)]> (w_handles w))) f'.
Proof.
  intros Hne Hx Hi Hf' Hob Ed Hak Hks Ef Ey Hpos. pose proof (re_volume _ _ _ Hre) as Hv.
  assert (touches (λ _, False) f f') as Ht by (by apply objects_touches). split; try done.
  - apply (volume_reads_step ok size content Hsize [] [] _ G f f' Hv); [done|done|apply Hob|by apply akin_from| |done].
    by apply (files_from_replace f f' p x y).
  - by apply (contents_same (λ _, False)).
  - apply Hre.
  - apply (view_insert G w f f' p x i y Hre); try done; [by apply keeps_file_sectors|apply Hob].
  - rewrite Ed. apply Hre.
  - intros q h'. apply pos_insert; [apply Hre|done].
Qed.

Lemma seek_refined p pos : is_Some (w_handles w !! p) → 0 ≤ pos < 2 ^ 31 → refined_same (CSeek p pos).
Proof.
  intros [h Hh] Hpos. pose proof (re_volume _ _ _ Hre) as Hv. pose proof (vl_ok _ _ _ _ _ _ _ Hv) as Hf.
  destruct (handle_file G w f p h Hre Hh) as (x & i & bytes & Hne & Hx & Hi & -> & Hu & _).
  destruct (file_pos_ok ok size content G [] f p x pos Hf Hx) as [Hf' Hob].
  eexists VUnit, _, _. split; [|split; [by eapply spec_seek|]].
  2:{ apply (replaced_represents p x i (File (f_inode x) pos (deny_write x)) _ Hne Hx Hi Hf' Hob); try done; [by apply akin_same|by apply sectors_same]. }
  unfold exec, file_seek. assert (p ≠ 0) as Hnz by (intros ->; pose proof (fo_null _ _ _ _ _ (fo_base _ _ _ _ _ _ Hf)); congruence).
  rewrite (cstep _ _ _ () (w_files (<[p := File (f_inode x) pos (deny_write x)]> (open_files f)) f)); [done|].
  rewrite (cstep _ _ _ () f) by (apply assert_ok; by destruct (Z.eqb_spec p 0)).
  rewrite (cstep _ _ _ () f) by (apply assert_ok, Z.leb_le; lia).
  by rewrite (cstep _ _ _ x f) by (unfold get_file; by rewrite Hx).
Qed.

Lemma denied_refined b p x i f' : p ≠ free_map_file f → open_files f !! p = Some x → inodes f !! f_inode x = Some i → 0 ≤ f_pos x < 2 ^ 31 →
  denied_as ok size content b G [] p x f f' →
  represents G (World (w_names w) (w_data w) (<[p := Handle (i_sector i) (f_pos x) b]> (w_handles w))) f'.
Proof.
  intros Hne Hx Hi Hpos (Hf' & Hob & Hak & Ed & Ef & Hin & Hot).
  apply (replaced_represents p x i (File (f_inode x) (f_pos x) b)); try done.
  intros q j Hj. destruct (decide (q = f_inode x)) as [->|Hq]; [|exists j; by rewrite Hot].
  destruct (Hin j Hj) as [n Hn]. by eexists.
Qed.

Lemma deny_refined p : is_Some (w_handles w !! p) → refined (CDeny p) ∧ refined (CAllow p).
Proof.
  intros [h Hh]. pose proof (re_volume _ _ _ Hre) as Hv. pose proof (vl_ok _ _ _ _ _ _ _ Hv) as Hf.
  pose proof (re_pos _ _ _ Hre p h Hh) as Hpos. destruct (handle_file G w f p h Hre Hh) as (x & i & bytes & Hne & Hx & Hi & -> & Hu & _).
  split; [destruct (file_deny_write_ok ok size content G [] f p x Hf Hx) as (f' & Hd & Hda)
         |destruct (file_allow_write_ok ok size content G [] f p x Hf Hx) as (f' & Hd & Hda)];
    eexists VUnit, f', G, _; (split; [unfold exec; by rewrite (cstep _ _ _ _ _ Hd)|]); 
    (split; [first [by eapply spec_deny|by eapply spec_allow]|by eapply denied_refined]).
Qed.

Lemma tell_refined p : is_Some (w_handles w !! p) → refined_same (CTell p) ∧ refined_same (CLength p).
Proof.
  intros [h Hh]. pose proof (re_volume _ _ _ Hre) as Hv. pose proof (vl_ok _ _ _ _ _ _ _ Hv) as Hf.
  destruct (handle_file G w f p h Hre Hh) as (x & i & bytes & Hne & Hx & Hi & -> & Hu & Hg & Hdata & Hbytes & Hlen).
  assert (p ≠ 0) as Hnz by (intros ->; pose proof (fo_null _ _ _ _ _ (fo_base _ _ _ _ _ _ Hf)); congruence).
  split; [exists (VInt (f_pos x)), f, w|exists (VInt (zlength bytes)), f, w]; (split; [unfold exec|split; [|done]]).
  - unfold file_tell. rewrite (cstep _ _ _ (f_pos x) f); [done|].
    rewrite (cstep _ _ _ () f) by (apply assert_ok; by destruct (Z.eqb_spec p 0)).
    by rewrite (cstep _ _ _ x f) by (unfold get_file; by rewrite Hx).
  - by eapply spec_tell.
  - unfold file_length. rewrite (cstep _ _ _ (zlength bytes) f); [done|].
    rewrite (cstep _ _ _ () f) by (apply assert_ok; by destruct (Z.eqb_spec p 0)).
    rewrite (cstep _ _ _ x f) by (unfold get_file; by rewrite Hx).
    rewrite (cstep _ _ _ i f) by (unfold get_inode; by rewrite Hi). unfold inode_length. by rewrite Hlen.
  - by eapply spec_length.
Qed.

Lemma close_run p h : w_handles w !! p = Some h →
  ∃ f' G', exec ops junk (CClose p) f = Ret (VUnit, f') ∧ (G' = G ∨ G' = delete (h_sector h) G) ∧
    represents G' (reclaim (h_sector h) (World (w_names w) (w_data w) (delete p (w_handles w)))) f'.
Proof.
  intros Hh. pose proof (re_volume _ _ _ Hre) as Hv. pose proof (vl_ok _ _ _ _ _ _ _ Hv) as Hf. pose proof Hf as [_ Ho].
  destruct (handle_file G w f p h Hre Hh) as (x & i & bytes & Hne & Hx & Hi & -> & Hu & Hg & _).
  destruct (file_close_ok ops ok size content Hsize G (area G FREE_MAP_SECTOR) [] f p x i Hf Hx Hi) as (f' & Hc & Hcl & Ef & Ed).
  { by apply (volume_close_ready ok size content [] (w_names w) G f (f_inode x)). }
  assert (files_from f f') as Hff.
  { split; [by rewrite Ef, lookup_delete_ne|]. intros q y _. rewrite Ef. intros [_ Hy]%lookup_delete_Some. left. by exists y. }
  pose proof (volume_closed ok size content Hsize [] [] (w_names w) G f f' (f_inode x) i Hv Hi Hcl Hff) as Hv'.
  pose proof (cd_touches _ _ _ _ _ _ _ _ _ _ Hcl) as Ht. pose proof (vl_ok _ _ _ _ _ _ _ Hv') as [_ Ho'].
  exists f', (closed_disk i G). split; [unfold exec; by rewrite (cstep _ _ _ _ _ Hc)|].
  split; [unfold closed_disk; destruct (dropped i); [by right|by left]|].
  apply reclaim_represents; try done.
  - rewrite Ed. apply Hre.
  - intros q. rewrite (to_map_file _ _ _ _ _ Ht). destruct (decide (p = q)) as [<-|Hpq].
    + rewrite lookup_delete_eq, decide_False by done. unfold view. by rewrite Ef, lookup_delete_eq.
    + rewrite lookup_delete_ne by done. rewrite (re_handles _ _ _ Hre). case_decide; [done|]. unfold view.
      rewrite Ef, lookup_delete_ne by done. destruct (open_files f !! q) as [y|] eqn:Hy; [|done]. simpl.
      destruct (file_held G [] f q y Ho Hy) as [j Hj]. destruct (file_held _ [] f' q y Ho') as [j' Hj']; [by rewrite Ef, lookup_delete_ne|].
      destruct (cd_akin _ _ _ _ _ _ _ _ _ _ Hcl _ j' Hj') as (j0 & Hj0 & Hs & _). rewrite Hj, Hj'. simpl. congruence.
  - intros q h [_ Hq]%lookup_delete_Some. by apply (re_pos _ _ _ Hre q).
  - apply Hre.
  - intros t Hut Hts. rewrite (contents_same _ f' Ht) by (done || intros k [_ ?]; by right; left). simpl in Hts.
    unfold closed_disk in *. destruct (dropped i); [|done]. rewrite lookup_delete_eq in Hts. rewrite lookup_delete_ne; [done|].
    destruct Hts as [?|[]]; done.
Qed.
Lemma close_refined p : is_Some (w_handles w !! p) → refined (CClose p).
Proof.
  intros [[s pos dn] Hh]. destruct (close_run p _ Hh) as (f' & G' & He & _ & Hr). eexists VUnit, f', G', _. split; [done|]. split; [by eapply spec_close|done].
Qed.

Lemma open_refined name : 0 ∉ name → refined_same (COpen name).
Proof.
  intros Hz. pose proof (re_volume _ _ _ Hre) as Hv. pose proof (vl_ok _ _ _ _ _ _ _ Hv) as [_ Ho].
  destruct (filesys_open_ok ops ok size content Hsize junk Hjunk (w_names w) G f name Hv Hz) as (p & f' & Hop & Hv' & Ht & Ed & Hfs & Hcase).
  assert (dirs f' = ∅) as Hd by (rewrite Ed; apply Hre).
  assert (∀ s, user s → w_data w !! s = (λ d, fdata (device f') (start d) 0 (d_length d)) <$> G !! s) as Hdata by (by apply (contents_same (λ _, False))).
  destruct (w_names w !! name) as [s|] eqn:HN.
  - destruct Hcase as (Hp & Hpn & ip & j & Ef & Hj & Hs). eexists _, f', _. split; [unfold exec; by rewrite (cstep _ _ _ _ _ Hop)|].
    assert (p ≠ free_map_file f) as Hpm.
    { intros ->. destruct (me_map _ _ (vl_memory _ _ _ _ _ _ _ Hv)) as (y & Hy & _). congruence. }
    split; [apply (spec_open w name s p); [done|done|]|].
    { rewrite (re_handles _ _ _ Hre), decide_False by done. unfold view. by rewrite Hpn. }
    split; try done; [apply Hre| |].
    + intros q. simpl. rewrite (to_map_file _ _ _ _ _ Ht). destruct (decide (p = q)) as [<-|Hpq].
      * rewrite lookup_insert_eq, decide_False by done. unfold view. rewrite Ef, lookup_insert_eq. simpl. by rewrite Hj, <- Hs.
      * rewrite lookup_insert_ne by done. rewrite (re_handles _ _ _ Hre). case_decide; [done|]. symmetry.
        apply (view_same G); [done|done|]. by rewrite Ef, lookup_insert_ne.
    + intros q h. simpl. apply pos_insert; [apply Hre|done].
  - destruct Hcase as [-> Ef]. exists (VInt 0), f', w. split; [unfold exec; by rewrite (cstep _ _ _ _ _ Hop)|]. split; [by apply spec_open_missing|].
    split; try done; [apply Hre| |apply Hre]. intros q. rewrite (to_map_file _ _ _ _ _ Ht), (re_handles _ _ _ Hre). case_decide; [done|]. symmetry.
    apply (view_same G); [done|done|]. by rewrite Ef.
Qed.

(** Handles when the files in memory stay the same. *)
Lemma handles_same f' : open_files f' = open_files f → free_map_file f' = free_map_file f → file_sectors f f' →
  ∀ p, w_handles w !! p = if decide (p = free_map_file f') then None else view f' p.
Proof.
  intros Ef Em Hfs p. rewrite Em, (re_handles _ _ _ Hre). case_decide; [done|]. symmetry.
  apply (view_same G); [apply (re_volume _ _ _ Hre)|done|by rewrite Ef].
Qed.

Lemma remove_refined name : 0 ∉ name → refined (CRemove name).
Proof.
  intros Hz. pose proof (re_volume _ _ _ Hre) as Hv.
  destruct (filesys_remove_ok ops ok size content Hsize junk Hjunk (w_names w) G f name Hv Hz) as (b & f' & Hrm & Ht & Ef & Ed & Hfs & Hcase).
  assert (dirs f' = ∅) as Hd by (rewrite Ed; apply Hre). pose proof (handles_same f' Ef (to_map_file _ _ _ _ _ Ht) Hfs) as Hh.
  assert (∀ s, user s → w_data w !! s = (λ d, fdata (device f') (start d) 0 (d_length d)) <$> G !! s) as Hdata by (apply (contents_same _ f' Ht); tauto).
  destruct (w_names w !! name) as [s|] eqn:HN.
  - destruct Hcase as (-> & G' & Hv' & HG'). exists (VBool true), f', G'. eexists. split; [unfold exec; by rewrite (cstep _ _ _ _ _ Hrm)|].
    split; [by eapply spec_remove|]. destruct (nd_file _ _ _ _ _ (vl_disk _ _ _ _ _ _ _ Hv) name s HN) as [Hu _].
    apply reclaim_represents; try done; [apply Hre|apply Hre|]. intros t Ht' Hts. rewrite Hdata by done.
    destruct HG' as [->| ->]; [done|]. rewrite lookup_delete_eq in Hts. rewrite lookup_delete_ne; [done|]. destruct Hts as [?|[]]; done.
  - destruct Hcase as [-> Hv']. exists (VBool false), f', G, w. split; [unfold exec; by rewrite (cstep _ _ _ _ _ Hrm)|].
    split; [by apply spec_remove_missing|]. split; try done; apply Hre.
Qed.

Lemma create_refined name len : 0 ∉ name → 0 ≤ len < 2 ^ 31 - 512 → refined (CCreate name len).
Proof.
  intros Hz Hlen. pose proof (re_volume _ _ _ Hre) as Hv. destruct (nd_root _ _ _ _ _ (vl_disk _ _ _ _ _ _ _ Hv)) as (d1 & Hd1 & _).
  destruct (filesys_create_ok ops ok size content Hsize junk Hjunk (w_names w) G f name len d1 Hv Hz Hlen Hd1)
    as (b & f' & Hc & Ef & Ed & Hfs & Ht & Hcase & _).
  assert (dirs f' = ∅) as Hd by (rewrite Ed; apply Hre). pose proof (handles_same f' Ef (to_map_file _ _ _ _ _ Ht) Hfs) as Hh.
  assert (∀ s, user s → w_data w !! s = (λ d, fdata (device f') (start d) 0 (d_length d)) <$> G !! s) as Hdata by (apply (contents_same _ f' Ht); tauto).
  destruct b.
  - destruct Hcase as (s & d & Hnm & HNn & HGs & Hdl & Hv' & Hzero). eexists (VBool true), f', _, _.
    destruct (nd_file _ _ _ _ _ (vl_disk _ _ _ _ _ _ _ Hv') name s (lookup_insert_eq _ _ _)) as [Hu _].
    split; [unfold exec; by rewrite (cstep _ _ _ _ _ Hc)|]. split.
    + apply (spec_create w name len s); [done|done| |done]. by rewrite (re_data _ _ _ Hre s Hu), HGs.
    + split; [exact Hv'| | |done|done|apply Hre]; simpl.
      * intros t Hut. destruct (decide (s = t)) as [<-|Hne]; [rewrite !lookup_insert_eq; simpl; by rewrite Hdl, Hzero|].
        rewrite !lookup_insert_ne by done. by apply Hdata.
      * intros t Hnt. rewrite lookup_insert_ne by congruence. by apply Hre.
  - exists (VBool false), f', G, w. split; [unfold exec; by rewrite (cstep _ _ _ _ _ Hc)|]. split; [by apply spec_create_fails|].
    split; try done; apply Hre.
Qed.

Lemma call_refined c : valid w c → refined c.
Proof.
  destruct c; simpl.
  - intros [? ?]. by apply create_refined.
  - intros ?. by apply refined_weaken, open_refined.
  - apply remove_refined.
  - intros [? ?]. by apply refined_weaken, read_refined.
  - intros [? ?]. by apply write_refined.
  - intros [? ?]. by apply refined_weaken, seek_refined.
  - intros ?. by apply refined_weaken, tell_refined.
  - intros ?. by apply refined_weaken, tell_refined.
  - apply deny_refined.
  - apply deny_refined.
  - apply close_refined.
Qed.
End Step.

Lemma program_refined p : ∀ G w f, represents G w f → careful w p →
  ∃ vs f' G' w', run ops junk p f = Ret (vs, f') ∧ spec_run w p vs w' ∧ represents G' w' f'.
Proof.
  induction p as [|c k IH]; intros G w f Hre Hc; [exists [], f, G, w; split; [done|]; split; [constructor|done]|].
  destruct Hc as [Hv Hk]. destruct (call_refined G w f Hre c Hv) as (v & f1 & G1 & w1 & He & Hs & Hre1).
  destruct (IH v G1 w1 f1 Hre1 (Hk v w1 Hs)) as (vs & f2 & G2 & w2 & Hr & Hsr & Hre2).
  exists (v :: vs), f2, G2, w2. split; [|split; [by econstructor|done]]. cbn [run].
  by rewrite (cstep _ _ _ _ _ He), (cstep _ _ _ _ _ Hr).
Qed.
End CallsOk.

(** ** Properties *)


(** C22. Creation succeeds when it can: a call of [filesys_create] with a name
    of 1 to 14 characters that is not in use, with a free slot in the root
    directory and enough free sectors in a row, returns true, and the new
    file has the given length and holds zeros. *)
Theorem create_succeeds {D} (ops : block_operations D) ok size content `{!DriverOk ops ok size content} junk G w (f : fs D) d1 name len :
  2 < size < 2 ^ 32 - 32 → length junk = 20%nat → represents ok size content G w f → G !! ROOT_DIR_SECTOR = Some d1 →
  name_ok name → w_names w !! name = None → 0 ≤ len < 2 ^ 31 - 512 → room size content d1 f len →
  ∃ s d f', filesys_create ops junk name len f = Ret (true, f') ∧ G !! s = None ∧ d_length d = len ∧
    volume ok size content [] (<[name := s]> (w_names w)) (<[s := d]> G) f' ∧
    fdata content (device f') (start d) 0 len = replicate (Z.to_nat len) 0.
Proof.
  intros Hs Hj Hre Hd1 Hn Hnew Hlen Hroom.
  destruct (filesys_create_ok ops ok size content Hs junk Hj (w_names w) G f name len d1 (re_volume _ _ _ _ _ _ Hre)) as (b & f' & Hc & _ & _ & _ & _ & Hcase & Hb);
    [apply Hn|done|done|]. rewrite (Hb Hn Hnew Hroom) in *. destruct Hcase as (s & d & _ & _ & HG & Hl & Hv & Hz). by exists s, d, f'.
Qed.
