(* ===== verification/Format.v ===== *)
(** * Formatting and mounting (filesys/filesys.c, filesys/free-map.c, lib/kernel/bitmap.c)

    [filesys_init] with [format] leaves the empty file system; without it, on
    a disk that [filesys_done] left, it finds the files that were there.  The
    free map makes the round trip through its file ([bitmap_write] and
    [bitmap_read]). *)

From S2P Require Import Prelude Bitmap Block Fs Inode Extents Files Directory Filesys Calls.

(** ** The mask of [bitmap_read] *)

Lemma last_mask_word b : 0 ≤ bit_cnt b → word (last_mask b).
Proof.
  intros Hb. unfold last_mask, ELEM_BITS. pose proof (Z.mod_pos_bound (bit_cnt b) 32 eq_refl).
  destruct (Z.eqb_spec (bit_cnt b mod 32) 0); [apply word_u32|]. rewrite Z.shiftl_1_l. split.
  - pose proof (Z.pow_pos_nonneg 2 (bit_cnt b mod 32)). lia.
  - pose proof (Z.pow_lt_mono_r 2 (bit_cnt b mod 32) 32). lia.
Qed.

Lemma last_mask_bit b k : 0 ≤ k < 32 → bit_cnt b mod 32 = 0 ∨ k < bit_cnt b mod 32 → Z.testbit (last_mask b) k = true.
Proof.
  intros Hk Hc. unfold last_mask, ELEM_BITS. destruct (Z.eqb_spec (bit_cnt b mod 32) 0) as [E|E].
  - change (u32 (-1)) with (Z.ones 32). by apply Z.ones_spec_low.
  - rewrite Z.shiftl_1_l, Z.sub_1_r, <- Z.ones_equiv. apply Z.ones_spec_low. lia.
Qed.

Section FormatOk.
Context {D : Type} (ops : block_operations D) (ok : D → Prop) (size : Z).
Context (content : D → Z → list Z) `{!DriverOk ops ok size content}.
Notation block_ok := (block_ok ok size).
Notation block_content := (block_content content).
Notation extent_ok := (extent_ok size).
Notation only_dev := (only_dev ok size content).
Notation reads := (only_dev (λ _, False)).
Notation fdata := (fdata content).
Notation fs_ok := (fs_ok ok size content).
Notation fs_base := (fs_base ok size content).
Notation map_file := (map_file size).
Notation persisted := (persisted size content).
Notation touches := (touches size content).
Notation volume := (volume ok size content).
Hypothesis Hsize : 2 < size < 2 ^ 32 - 32.

(** A bitmap of the size of the device. *)
Definition map_of_size (m : bitmap) : Prop := bm_wf m ∧ bit_cnt m = size ∧ zlength (bits m) = elem_cnt size.

Lemma masked_ok m b : map_of_size m → bit_cnt b = size →
  ∃ w ws, zget (bits m) (elem_cnt size - 1) = Some w ∧ zset (bits m) (elem_cnt size - 1) (Z.land w (last_mask b)) = Some ws ∧
    map_of_size (Bitmap size ws) ∧ ∀ j, 0 ≤ j < size → bm_test (Bitmap size ws) j = bm_test m j.
Proof.
  intros (Hwf & Hc & Hl) Hb. assert (elem_cnt size = (size + 31) / 32) as He by (unfold elem_cnt, ELEM_BITS; rewrite u32_id by lia; f_equal; lia).
  assert (0 < elem_cnt size) as Hpos by (rewrite He; div_lia).
  destruct (zget_is_Some (bits m) (elem_cnt size - 1)) as [w Hw]; [lia|].
  eexists w, _. split; [done|]. split; [by apply zset_Some; lia|].
  assert (word w) as Hww. { apply zget_Some in Hw as [_ Hw]. apply (Forall_lookup_1 _ _ _ _ (wf_words m Hwf) Hw). }
  split.
  - split; [|split; [done|simpl; by rewrite length_insert]]. split; simpl; rewrite ?length_insert.
    + rewrite <- Hc. apply Hwf.
    + rewrite <- Hc at 1. apply Hwf.
    + apply Forall_insert; [apply Hwf|]. apply word_land; [done|]. apply last_mask_word. lia.
  - intros j Hj. unfold bm_test, ELEM_BITS. cbn [bits].
    rewrite (zget_zset _ _ _ (j / 32) _ (zset_Some (bits m) (elem_cnt size - 1) (Z.land w (last_mask b)) ltac:(lia))).
    case_decide as E; [|done]. rewrite E in Hw. rewrite Hw, Z.land_spec, last_mask_bit, andb_true_r; [done|div_lia|]. rewrite Hb. rewrite He in E. div_lia.
Qed.

(** ** Reading the free map *)

Lemma bitmap_read_ok f p x i m : bit_cnt (free_map f) = size → zlength (bits (free_map f)) = elem_cnt size →
  open_files f !! p = Some x → inodes f !! f_inode x = Some i → extent_ok (data i) → d_length (data i) = byte_cnt size →
  block_ok (device f) → plenty f → 0 < brk f → map_of_size m → fdata (device f) (start (data i)) 0 (byte_cnt size) = bits_bytes m →
  ∃ b' f', bitmap_read ops (free_map f) p f = Ret ((true, b'), f') ∧ reads f f' ∧ map_of_size b' ∧ ∀ j, 0 ≤ j < size → bm_test b' j = bm_test m j.
Proof.
  intros Hc Hl Hx Hi Hext Hlen Hb Hp Hbrk Hm Hd. destruct (byte_cnt_size size Hsize) as (Hbc & Hbr & Hs32).
  destruct (masked_ok m (free_map f) Hm Hc) as (w & ws & Hw & Hws & Hmws & Hj).
  destruct (inode_read_at_ok ops ok size content ltac:(lia) (f_inode x) i Hext f (bits_bytes (free_map f)) (byte_cnt size) 0)
    as (n & f' & Hr & Hod & Hn & Hpl); [done|done|lia|rewrite bits_bytes_length; lia|].
  assert (n = byte_cnt size) as -> by (rewrite Hpl by done; unfold avail; lia).
  assert (filled (bits_bytes (free_map f)) 0 (fdata (device f) (start (data i)) 0 (byte_cnt size)) = bits_bytes m) as Ef.
  { rewrite Hd. apply filled_all. rewrite !bits_bytes_length. destruct Hm as (_ & _ & Hlm). lia. }
  exists (Bitmap size ws), f'. split; [|done]. unfold bitmap_read. rewrite Hc. destruct (Z.ltb_spec 0 size); [|lia]. rewrite Hs32.
  rewrite (cstep _ _ _ (byte_cnt size, bits_bytes m) f').
  2:{ unfold file_read_at. rewrite (cstep _ _ _ x f) by (unfold get_file; by rewrite Hx). by rewrite Hr, Ef. }
  cbn iota beta. rewrite words_of_bytes by apply Hm.
  rewrite (cstep _ _ _ w f') by (unfold lift; by rewrite Hw).
  rewrite (cstep _ _ _ ws f') by (unfold lift; by rewrite Hws). by rewrite Z.eqb_refl.
Qed.

(** ** Opening the free map when nothing is open *)

Definition idle (f : fs D) : Prop := inodes f = ∅ ∧ open_inodes f = [] ∧ open_files f = ∅ ∧ dirs f = ∅.

Lemma idle_open G f : idle f → 0 < brk f → open_ok G [] f.
Proof.
  intros (Ei & El & Ef & Ed) Hb. split; rewrite ?Ei, ?El, ?Ef, ?Ed; try done.
  - intros ip. split; [by intros ?%elem_of_nil|by intros []].
  - constructor.
  - intros ip. unfold refs. by rewrite Ef, Ed, !fmap_empty.
Qed.

(** [a] is the only inode, and [p] the only file. *)
Record attached (d0 : inode_disk) (a p : Z) (f f' : fs D) : Prop := {
  at_touches s : 0 ≤ s < size → block_content (device f') s = block_content (device f) s;
  at_block : block_ok (device f');
  at_map_file : free_map_file f' = p;
  at_inodes : inodes f' = {[a := Inode FREE_MAP_SECTOR 1 false 0 d0]};
  at_list : open_inodes f' = [a];
  at_files : open_files f' = {[p := File a 0 false]};
  at_dirs : dirs f' = ∅;
  at_order : 0 < a < p ∧ p < brk f';
  at_mem : mem f' = mem f
}.

Lemma attach_ok f d0 : idle f → plenty f → 0 < brk f → block_ok (device f) → decode_inode (block_content (device f) FREE_MAP_SECTOR) = Ret d0 →
  ∃ a p f1 f2, inode_open ops FREE_MAP_SECTOR f = Ret (a, f1) ∧ file_open ops a f1 = Ret (p, f2) ∧
    attached d0 a p f (w_free_map_file p f2) ∧ free_map f2 = free_map f.
Proof.
  intros (Ei & El & Ef & Ed) Hp Hbrk Hb Hd. unfold inode_open. rewrite cget, El. cbn [find_open].
  rewrite (cstep _ _ _ None f) by done.
  rewrite (cstep _ _ _ (brk f) (w_brk (brk f + 1) f)) by (unfold alloc; by rewrite (Hp (brk f))).
  destruct (Z.eqb_spec (brk f) 0); [lia|]. rewrite cmodify.
  set (f1 := w_open_inodes _ _).
  destruct (dev_read_ok ops ok size content f1 FREE_MAP_SECTOR) as (f2 & Hrd & Hod); [done|unfold FREE_MAP_SECTOR; lia|].
  rewrite (cstep _ _ _ _ _ Hrd), (cstep _ _ _ d0 f2) by (unfold lift; simpl; by rewrite Hd).
  set (f3 := w_inodes (<[brk f := Inode FREE_MAP_SECTOR 1 false 0 d0]> (inodes f2)) f2).
  destruct Hod as [Hbk Hc Hm Hmf Hin Hop Hfi Hdi Hbr Hme]. simpl in Hbr.
  exists (brk f), (brk f3), f3, (w_files (<[brk f3 := File (brk f) 0 false]> (open_files f3)) (w_brk (brk f3 + 1) f3)).
  split; [done|]. split.
  { unfold file_open. rewrite (cstep _ _ _ (brk f3) (w_brk (brk f3 + 1) f3)).
    2:{ unfold alloc. simpl. rewrite Hme. change (mem f1) with (mem f). by rewrite (Hp (brk f2)). }
    destruct (Z.eqb_spec (brk f) 0); [lia|]. simpl. destruct (Z.eqb_spec (brk f2) 0); [lia|]. done. }
  split; [|done]. split; simpl; try done.
  - intros s Hs. apply Hc; [done|tauto].
  - by rewrite Hin; simpl; rewrite Ei.
  - by rewrite Hop; simpl; rewrite El.
  - by rewrite Hfi; simpl; rewrite Ef.
  - by rewrite Hdi.
  - lia.
Qed.

Lemma occurs_singleton p (v q : Z) : occurs {[p := v]} q = if decide (v = q) then 1 else 0.
Proof. rewrite <- insert_empty, occurs_insert by apply lookup_empty. done. Qed.

Lemma attached_open G d0 a p f f' : attached d0 a p f f' → G !! FREE_MAP_SECTOR = Some d0 → open_ok G [] f'.
Proof.
  intros [_ _ Em Ei El Ef Ed Hap _] Hg.
  split; rewrite ?Ei, ?El, ?Ef, ?Ed.
  - by intros ip i [<- <-]%lookup_singleton_Some.
  - intros ip. rewrite list_elem_of_singleton. split; [intros ->; by rewrite lookup_singleton_eq|].
    by intros [i [<- _]%lookup_singleton_Some].
  - apply NoDup_singleton.
  - by intros ip ip' i i' [<- _]%lookup_singleton_Some [<- _]%lookup_singleton_Some.
  - intros ip. unfold refs. rewrite Ef, Ed, fmap_empty, map_fmap_singleton, occurs_singleton. simpl.
    case_decide as E; [subst; by rewrite lookup_singleton_eq|by rewrite lookup_singleton_ne].
  - by intros ip i [_ <-]%lookup_singleton_Some.
  - intros ip i [<- <-]%lookup_singleton_Some. symmetry. apply denials_none. rewrite Ef. by intros q x [<- <-]%lookup_singleton_Some.
  - intros q Hq. rewrite !lookup_singleton_ne by lia. by rewrite lookup_empty.
  - rewrite lookup_singleton_ne by lia. by rewrite lookup_empty.
Qed.

Lemma attached_map G d0 a p f f' : attached d0 a p f f' → G !! FREE_MAP_SECTOR = Some d0 → d_length d0 = byte_cnt size →
  map_file G f' a (Inode FREE_MAP_SECTOR 1 false 0 d0).
Proof.
  intros [_ _ Em Ei _ Ef _ _ _] Hg Hl. split; try done.
  - exists (File a 0 false). by rewrite Em, Ef, lookup_singleton_eq.
  - by rewrite Ei, lookup_singleton_eq.
Qed.

(** ** Mounting *)

(** What a device holds: the inodes [G], the files named by [N], and the bits
    [m] in the file of the free map.  Every file has a name. *)
Record image (N : gmap (list Z) Z) (G : gmap Z inode_disk) (m : bitmap) (b : block D) : Prop := {
  im_disk : disk_ok ok size content G b (bm_test m);
  im_names : on_disk size content N G b;
  im_map : map_of_size m;
  im_saved d0 : G !! FREE_MAP_SECTOR = Some d0 → fdata b (start d0) 0 (byte_cnt size) = bits_bytes m;
  im_live s : is_Some (G !! s) → user s → named N s
}.

Lemma disk_ok_same G b b' used used' : disk_ok ok size content G b used → block_ok b' →
  (∀ s, 0 ≤ s < size → block_content b' s = block_content b s) → (∀ j, 0 ≤ j < size → used' j = used j) →
  disk_ok ok size content G b' used'.
Proof.
  intros Hd Hb Hc Hu. apply (disk_step ok size content G b b' used); [done|done| |].
  - intros s d Hs. apply Hc. by apply (dk_range _ _ _ _ _ _ Hd s d).
  - intros s d t Hs Ht. pose proof (dk_range _ _ _ _ _ _ Hd s d Hs). pose proof (dk_extent _ _ _ _ _ _ Hd s d Hs) as [Hl Hst He].
    rewrite Hu; [by apply (dk_used _ _ _ _ _ _ Hd s d)|]. unfold claims in Ht. lia.
Qed.

Lemma fdata_same b b' d ofs n : extent_ok d → (∀ s, 0 ≤ s < size → block_content b' s = block_content b s) → 0 ≤ ofs → ofs + n ≤ d_length d →
  fdata b' (start d) ofs n = fdata b (start d) ofs n.
Proof.
  intros [Hl Hst He] Hc Hofs Hn. pose proof (sectors_le (d_length d) ltac:(lia)). apply fdata_ext. intros j Hj.
  apply fbyte_ext; [lia|]. apply Hc. div_lia.
Qed.

Lemma on_disk_moved N G b b' used : on_disk size content N G b → disk_ok ok size content G b used →
  (∀ s, 0 ≤ s < size → block_content b' s = block_content b s) → on_disk size content N G b'.
Proof.
  intros Hn Hd Hc. apply (on_disk_same size content N G b); [done|]. intros d1 Hd1 k Hk.
  pose proof (dk_extent _ _ _ _ _ _ Hd _ d1 Hd1) as Hext. apply (fdata_same b b' d1); [done|done|lia|]. unfold slots in Hk. div_lia.
Qed.

Lemma attached_volume N G m d0 a p f f' : image N G m (device f) → attached d0 a p f f' → G !! FREE_MAP_SECTOR = Some d0 →
  d_length d0 = byte_cnt size → plenty f → map_of_size (free_map f') → (∀ j, 0 ≤ j < size → bm_test (free_map f') j = bm_test m j) →
  volume [] N G f'.
Proof.
  intros [Hd Hn Hm Hs Hlv] Hat Hg0 Hl0 Hp Hb Ht. pose proof (dk_extent _ _ _ _ _ _ Hd _ d0 Hg0) as Hext. split.
  - split; [|by apply (attached_open G d0 a p f)]. pose proof (at_order _ _ _ _ _ Hat). split; [|apply Hb..|lia|].
    + apply (disk_ok_same G (device f) _ (bm_test m)); [done|apply Hat|apply Hat|done].
    + rewrite (at_files _ _ _ _ _ Hat), lookup_singleton_ne by lia. done.
  - apply (on_disk_moved N G (device f) _ (bm_test m)); [done|done|apply Hat].
  - destruct Hat as [_ _ Em Ei _ Ef _ _ Eme]. split.
    + intros k. rewrite Eme. apply Hp.
    + exists (File a 0 false). rewrite Em, Ef, lookup_singleton_eq. split; [done|]. split; [done|]. simpl. rewrite Ei.
      by intros i [_ <-]%lookup_singleton_Some.
    + rewrite Em, Ef. intros q x i Hne Hx. rewrite lookup_singleton_ne in Hx; done.
    + rewrite Ei. intros ip i [_ <-]%lookup_singleton_Some. simpl. split; [done|]. by intros [[]].
  - intros s Hsm Hu. left. by apply Hlv.
  - intros d Hd0. assert (d = d0) as -> by congruence. destruct Hm as (Hm1 & Hm2 & Hm3). exists m. do 3 (split; [done|]).
    split; [|intros j Hj; symmetry; by apply Ht]. rewrite <- (Hs d0 Hg0). apply fdata_same; [done|apply Hat|lia|lia].
Qed.

(** The free map of the image is read, and nothing else is open. *)
Lemma free_map_open_ok N G m f : image N G m (device f) → map_of_size (free_map f) → idle f → plenty f → 0 < brk f →
  ∃ f', free_map_open ops f = Ret ((), f') ∧ volume [] N G f' ∧ dirs f' = ∅ ∧
    (∀ q, q ≠ free_map_file f' → open_files f' !! q = None) ∧
    ∀ s, 0 ≤ s < size → block_content (device f') s = block_content (device f) s.
Proof.
  intros [Hd Hn Hm Hs Hlv] Hfm Hid Hp Hbrk. destruct (nd_map _ _ _ _ _ Hn) as (d0 & Hg0 & Hl0).
  destruct (attach_ok f d0 Hid Hp Hbrk (dk_block _ _ _ _ _ _ Hd) (dk_decode _ _ _ _ _ _ Hd _ d0 Hg0)) as (a & p & f1 & f2 & H1 & H2 & Hat & Em).
  unfold free_map_open. rewrite (cstep _ _ _ _ _ H1), (cstep _ _ _ _ _ H2), cmodify.
  pose proof (at_order _ _ _ _ _ Hat) as Hord. destruct (Z.eqb_spec p 0); [lia|]. rewrite cget.
  set (f3 := w_free_map_file p f2) in *. pose proof (dk_extent _ _ _ _ _ _ Hd _ d0 Hg0) as Hext.
  assert (free_map f3 = free_map f) as Em3 by done.
  destruct (bitmap_read_ok f3 p (File a 0 false) (Inode FREE_MAP_SECTOR 1 false 0 d0) m) as (b & f4 & Hr & Hod & Hb & Ht); try done.
  { rewrite Em3. apply Hfm. }
  { rewrite Em3. apply Hfm. }
  { by rewrite (at_files _ _ _ _ _ Hat), lookup_singleton_eq. }
  { by rewrite (at_inodes _ _ _ _ _ Hat), lookup_singleton_eq. }
  { apply Hat. }
  { intros k. rewrite (at_mem _ _ _ _ _ Hat). apply Hp. }
  { lia. }
  { rewrite <- (Hs d0 Hg0). apply fdata_same; [done|apply Hat|lia|]. simpl. lia. }
  rewrite (cstep _ _ _ _ _ Hr), cmodify. set (f' := w_free_map b f4). exists f'. split; [done|].
  assert (∀ s, 0 ≤ s < size → block_content (device f') s = block_content (device f) s) as Hc.
  { intros s Hsr. rewrite <- (at_touches _ _ _ _ _ Hat s Hsr). apply (od_content _ _ _ _ _ _ Hod); [done|tauto]. }
  assert (attached d0 a p f f') as Hat'.
  { destruct Hat, Hod. split; simpl; try congruence; try done. lia. }
  split; [by apply (attached_volume N G m d0 a p f)|]. split; [apply Hat'|]. split; [|done].
  intros q Hq. rewrite (at_map_file _ _ _ _ _ Hat') in Hq. by rewrite (at_files _ _ _ _ _ Hat'), lookup_singleton_ne.
Qed.

(** ** A new bitmap *)

(** The memory when the kernel starts. *)
Definition fresh (f : fs D) : Prop :=
  inodes f = ∅ ∧ open_files f = ∅ ∧ dirs f = ∅ ∧ free_map_file f = 0 ∧ 0 < brk f ∧ plenty f.

(** What malloc returned for the elements of the free map. *)
Definition storage (words : list Z) : Prop := zlength words = elem_cnt size ∧ Forall word words.

Definition started (b : block D) (f : fs D) : Prop :=
  device f = b ∧ idle f ∧ free_map_file f = 0 ∧ 0 < brk f ∧ plenty f ∧ map_of_size (free_map f) ∧
  ∀ j, 0 ≤ j < size → bm_test (free_map f) j = bool_decide (j < 2).

Lemma free_map_init_ok b words f : block_ok b → storage words → fresh f →
  ∃ f', (let* _ := modify (w_device b) in let* _ := inode_init in free_map_init (Some words)) f = Ret ((), f') ∧ started b f'.
Proof.
  intros Hb [Hl Hw] (Ei & Ef & Ed & Em & Hbrk & Hp). unfold inode_init. rewrite !cmodify. unfold free_map_init, alloc. cbn [brk mem w_open_inodes w_device].
  rewrite (Hp (brk f)). cbn [mbind outcome_bind]. destruct (Z.eqb_spec (brk f) 0); [lia|]. cbn [negb device w_brk w_open_inodes w_device].
  unfold block_size. replace (b_size b) with size by (symmetry; apply Hb).
  assert (bm_wf (Bitmap size words)) as Hwf.
  { split; simpl; [unfold SIZE_MAX; lia| |done]. rewrite Hl. apply elem_cnt_room. lia. }
  destruct (bitmap_set_all_spec (Bitmap size words) false Hwf) as (b0 & H0 & B0). unfold bitmap_create. rewrite H0. cbn [mbind outcome_bind].
  destruct (bitmap_mark_spec b0 FREE_MAP_SECTOR) as (b1 & H1 & B1); [apply B0|rewrite (becomes_cnt _ _ _ B0); simpl; unfold FREE_MAP_SECTOR; lia|].
  destruct (bitmap_mark_spec b1 ROOT_DIR_SECTOR) as (b2 & H2 & B2); [apply B1|rewrite (becomes_cnt _ _ _ B1), (becomes_cnt _ _ _ B0); simpl; unfold ROOT_DIR_SECTOR; lia|].
  rewrite H1. cbn [mbind outcome_bind]. rewrite H2. cbn [mbind outcome_bind]. eexists. split; [done|].
  split; [done|]. split; [done|]. split; [done|]. split; [simpl; lia|]. split; [done|]. split.
  - split; [apply B2|]. split; simpl; [by rewrite (becomes_cnt _ _ _ B2), (becomes_cnt _ _ _ B1), (becomes_cnt _ _ _ B0)|].
    by rewrite (becomes_len _ _ _ B2), (becomes_len _ _ _ B1), (becomes_len _ _ _ B0).
  - intros j Hj. cbn [free_map w_free_map].
    rewrite (becomes_test _ _ _ B2), (becomes_test _ _ _ B1), (becomes_test _ _ _ B0) by lia.
    unfold FREE_MAP_SECTOR, ROOT_DIR_SECTOR. simpl. do 2 (case_decide; [case_bool_decide; [done|lia]|]).
    rewrite decide_True by lia. case_bool_decide; [lia|done].
Qed.

(** ** Remounting *)

Lemma mounted_represents w G f b0 : volume [] (w_names w) G f → dirs f = ∅ → (∀ q, q ≠ free_map_file f → open_files f !! q = None) →
  (∀ s, 0 ≤ s < size → block_content (device f) s = block_content b0 s) →
  (∀ s, user s → w_data w !! s = (λ d, fdata b0 (start d) 0 (d_length d)) <$> G !! s) → (∀ s, ¬ user s → w_data w !! s = None) →
  w_handles w = ∅ → represents ok size content G w f.
Proof.
  intros Hv Hd Hq Hc Hda Hsy Hh. split; try done.
  - intros s Hu. rewrite Hda by done. destruct (G !! s) as [d|] eqn:Hs; [|done]. simpl. f_equal. symmetry.
    pose proof (vl_ok _ _ _ _ _ _ _ Hv) as [Hb _]. pose proof (dk_extent _ _ _ _ _ _ (fo_disk _ _ _ _ _ Hb) s d Hs) as Hext.
    apply fdata_same; [done|done|lia|lia].
  - intros p. rewrite Hh, lookup_empty. case_decide; [done|]. unfold view. by rewrite Hq.
  - intros p h. by rewrite Hh, lookup_empty.
Qed.

(** Mounting an image shows the files it holds. *)
Lemma mount_ok w G m b words f : image (w_names w) G m b → storage words → fresh f →
  (∀ s, user s → w_data w !! s = (λ d, fdata b (start d) 0 (d_length d)) <$> G !! s) → (∀ s, ¬ user s → w_data w !! s = None) →
  w_handles w = ∅ →
  ∃ f', filesys_init ops (Some b) (Some words) false f = Ret ((), f') ∧ represents ok size content G w f'.
Proof.
  intros Hi Hw Hf Hda Hsy Hh. destruct (free_map_init_ok b words f (dk_block _ _ _ _ _ _ (im_disk _ _ _ _ Hi)) Hw Hf) as (f1 & H1 & E1 & Hid & _ & Hbrk & Hp & Hm & _).
  rewrite <- E1 in Hi. destruct (free_map_open_ok _ G m f1 Hi Hm Hid Hp Hbrk) as (f2 & H2 & Hv & Hd & Hq & Hc).
  exists f2. split.
  - unfold filesys_init. apply cmd_bind_Ret in H1 as ([] & g1 & G1 & H1). rewrite (cstep _ _ _ _ _ G1).
    apply cmd_bind_Ret in H1 as ([] & g2 & G2 & H1). rewrite (cstep _ _ _ _ _ G2), (cstep _ _ _ _ _ H1). by rewrite (cstep _ _ _ () f1) by done.
  - apply (mounted_represents w G f2 b); try done. intros s Hs. by rewrite Hc, E1.
Qed.

(** Closing the free map, the last file. *)
Lemma free_map_close_ok G f ip i : fs_ok G [] f → map_file G f ip i → persisted f (data i) → plenty f → dirs f = ∅ →
  (∀ q, q ≠ free_map_file f → open_files f !! q = None) →
  ∃ f', free_map_close ops f = Ret ((), f') ∧ fs_ok G [] f' ∧ idle f' ∧ persisted f' (data i) ∧
    plenty f' ∧ 0 < brk f' ∧
    ∀ s, 0 ≤ s < size → block_content (device f') s = block_content (device f) s.
Proof.
  intros Hf Hmf Hper Hp Hd Hq. pose proof (mf_file _ _ _ _ _ Hmf) as (x & Hx & Hxi). pose proof (mf_inode _ _ _ _ _ Hmf) as Hi. rewrite <- Hxi in Hi.
  pose proof (mf_removed _ _ _ _ _ Hmf) as Hrm. assert (dropped i = false) as Hdr by (unfold dropped; rewrite Hrm; apply andb_false_r).
  destruct (file_close_ok ops ok size content Hsize G (λ _, False) [] f (free_map_file f) x i Hf Hx Hi) as (f' & Hc & Hcl & Ef & Ed).
  { intros Hdd. congruence. }
  unfold free_map_close. rewrite cget. exists f'. split; [done|].
  pose proof (cd_ok _ _ _ _ _ _ _ _ _ _ Hcl) as Hok. unfold closed_disk in Hok. rewrite Hdr in Hok. pose proof Hok as [Hb' Ho'].
  assert (open_files f' = ∅) as Ef'.
  { apply map_empty. intros q. rewrite Ef. destruct (decide (q = free_map_file f)) as [->|Hne]; [apply lookup_delete_eq|].
    rewrite lookup_delete_ne by done. by apply Hq. }
  assert (inodes f' = ∅) as Ei'.
  { apply map_empty. intros q. destruct (inodes f' !! q) as [j|] eqn:Hj; [|done]. pose proof (op_open _ _ _ Ho' q j Hj) as Hpos.
    pose proof (op_refs _ _ _ Ho' q) as Hr. rewrite Hj in Hr. simpl in Hr. unfold refs in Hr. rewrite Ef', Ed, Hd, !fmap_empty in Hr.
    change (0 = open_cnt j) in Hr. lia. }
  pose proof (cd_touches _ _ _ _ _ _ _ _ _ _ Hcl) as Ht. split; [done|]. split.
  { split; [done|]. split; [|by rewrite Ed]. destruct (open_inodes f') as [|q l] eqn:El; [done|].
    assert (q ∈ open_inodes f') as Hin by (rewrite El; by left). apply (op_list _ _ _ Ho') in Hin as [j Hj]. by rewrite Ei' in Hj. }
  split; [by apply (cd_map _ _ _ _ _ _ _ _ _ _ Hcl Hp ip i)|]. split; [|split; [apply Hb'|]].
  - intros k. rewrite (to_mem _ _ _ _ _ Ht). apply Hp.
  - intros s Hs. apply (to_content _ _ _ _ _ Ht); [done|]. tauto.
Qed.

(** What the device holds when the file system is shut down. *)
Lemma closed_image N G f d0 : fs_ok G [] f → persisted f d0 → G !! FREE_MAP_SECTOR = Some d0 → on_disk size content N G (device f) →
  (∀ s, is_Some (G !! s) → user s → named N s) → ∃ m, image N G m (device f).
Proof.
  intros [Hb _] (m & Hm1 & Hm2 & Hm3 & Hd & Ht) Hg Hn Hl. exists m. split; try done.
  - apply (disk_ok_same G (device f) _ (bm_test (free_map f))); try done; apply Hb.
  - intros d Hd0. by assert (d = d0) as -> by congruence.
Qed.

(** Files all of whose handles are closed are those with a name. *)
Lemma closed_live G w f s : represents ok size content G w f → w_handles w = ∅ → is_Some (G !! s) → user s → named (w_names w) s.
Proof.
  intros Hre Hh Hs Hu. pose proof (re_volume _ _ _ _ _ _ Hre) as Hv. destruct (vl_live _ _ _ _ _ _ _ Hv s Hs Hu) as [?|(ip & i & Hi & Es)]; [done|].
  pose proof (vl_ok _ _ _ _ _ _ _ Hv) as [_ Ho]. pose proof (op_open _ _ _ Ho ip i Hi) as Hpos. pose proof (op_refs _ _ _ Ho ip) as Hr. rewrite Hi in Hr.
  simpl in Hr. unfold refs in Hr. rewrite (re_dirs _ _ _ _ _ _ Hre), fmap_empty in Hr. change (occurs ∅ ip) with 0 in Hr. change (occurs_in [] ip) with 0 in Hr.
  destruct (occurs_pos_inv (f_inode <$> open_files f) ip) as [p Hp]; [lia|]. rewrite lookup_fmap in Hp.
  destruct (open_files f !! p) as [x|] eqn:Hx; [|done]. injection Hp as Ex. pose proof (re_handles _ _ _ _ _ _ Hre p) as Hhp. rewrite Hh, lookup_empty in Hhp.
  case_decide as E.
  - subst p. destruct (me_map _ _ (vl_memory _ _ _ _ _ _ _ Hv)) as (y & Hy & _ & Hys). assert (y = x) as -> by congruence. rewrite Ex in Hys.
    rewrite (Hys i Hi) in Es. subst s. by destruct Hu.
  - unfold view in Hhp. rewrite Hx in Hhp. simpl in Hhp. by rewrite Ex, Hi in Hhp.
Qed.

Lemma unmount_ok G w f : represents ok size content G w f → w_handles w = ∅ →
  ∃ f1 m, filesys_done ops f = Ret ((), f1) ∧ image (w_names w) G m (device f1) ∧
    ∀ s, 0 ≤ s < size → block_content (device f1) s = block_content (device f) s.
Proof.
  intros Hre Hh. pose proof (re_volume _ _ _ _ _ _ Hre) as Hv. destruct (volume_map_file ok size content _ _ _ _ Hv) as (ip & i & Hmf & Hper & _).
  assert (∀ q, q ≠ free_map_file f → open_files f !! q = None) as Hq.
  { intros q Hne. pose proof (re_handles _ _ _ _ _ _ Hre q) as Hhq. rewrite Hh, lookup_empty, decide_False in Hhq by done. unfold view in Hhq.
    destruct (open_files f !! q) as [x|] eqn:Hx; [|done]. simpl in Hhq.
    destruct (file_held G [] f q x (fo_open _ _ _ _ _ _ (vl_ok _ _ _ _ _ _ _ Hv)) Hx) as [j Hj]. by rewrite Hj in Hhq. }
  destruct (free_map_close_ok G f ip i (vl_ok _ _ _ _ _ _ _ Hv) Hmf Hper) as (f1 & H1 & Hok & Hid & Hper1 & Hp1 & Hb1 & Hc); [apply Hv|apply Hre|done|].
  destruct (closed_image (w_names w) G f1 (data i) Hok Hper1 (mf_disk _ _ _ _ _ Hmf)) as [m Hm].
  - apply (on_disk_moved _ G (device f) _ (bm_test (free_map f))); [apply Hv|apply Hv|done].
  - intros s. by apply (closed_live G w f).
  - by exists f1, m.
Qed.

(** ** Formatting *)

(** The used sectors after [free_map_create]: the two inodes and [n] sectors
    of data from [first]. *)
Definition reserved (first n j : Z) : bool := bool_decide (j < 2 ∨ first ≤ j < first + n).

Lemma started_base b f : block_ok b → started b f → fs_base ∅ f.
Proof.
  intros Hb (Ed & (_ & _ & Ef & _) & _ & Hbrk & _ & (H1 & H2 & H3) & _). split; try done; [|by rewrite Ef].
  rewrite Ed. by split.
Qed.

Lemma map_room : 4 ≤ size → 0 < sectors (byte_cnt size) ∧ 3 + sectors (byte_cnt size) ≤ size.
Proof.
  intros H4. destruct (byte_cnt_size size Hsize) as (-> & Hb & _). assert (elem_cnt size = (size + 31) / 32) as He.
  { unfold elem_cnt, ELEM_BITS. rewrite u32_id by lia. f_equal. lia. }
  rewrite He. unfold sectors. div_lia.
Qed.

(** The inode of the free map. *)
Lemma create_map_ok b f : block_ok b → started b f → 4 ≤ size →
  ∃ d0 f', inode_create ops FREE_MAP_SECTOR (s32 (byte_cnt size)) f = Ret (true, f') ∧ fs_base {[FREE_MAP_SECTOR := d0]} f' ∧
    d_length d0 = byte_cnt size ∧ idle f' ∧ plenty f' ∧
    2 ≤ start d0 ∧ ∀ j, 0 ≤ j < size → bm_test (free_map f') j = reserved (start d0) (sectors (byte_cnt size)) j.
Proof.
  intros Hb Hst H4. pose proof (started_base b f Hb Hst) as Hf. destruct Hst as (Ed & Hid & Emf & Hbrk & Hp & Hm & Ht).
  destruct (byte_cnt_size size Hsize) as (Hbc & Hbr & ->). destruct (map_room H4) as [Hn Hroom].
  destruct (inode_create_ok ops ok size content Hsize ∅ f (λ _, False) FREE_MAP_SECTOR (byte_cnt size)) as (r & f' & Hr & Hc & _);
    [done|left; tauto|unfold FREE_MAP_SECTOR; lia|lia|by rewrite Ht by (unfold FREE_MAP_SECTOR; lia)|done|].
  destruct r.
  2:{ destruct Hc as [_ Hno]. exfalso. apply (Hno Hp 2 ltac:(lia) ltac:(lia)). intros k Hk. rewrite Ht by lia. by apply bool_decide_false; lia. }
  destruct Hc as (first & Hf' & Hal & Hrun & _). eexists _, f'. split; [done|]. split; [exact Hf'|]. split; [done|]. split.
  { destruct Hid as (? & ? & ? & ?), Hal. split_and!; congruence. }
  split; [intros k; rewrite (al_mem _ _ _ _ _ _ _ Hal); apply Hp|].
  pose proof (dk_extent _ _ _ _ _ _ (fo_disk _ _ _ _ _ Hf') FREE_MAP_SECTOR _ (lookup_singleton_eq _ _)) as [_ Hst Hend]. simpl in *.
  assert (¬ first < 2) as H2.
  { intros Hlt. specialize (Hrun first ltac:(lia)). rewrite Ht in Hrun by lia. rewrite bool_decide_true in Hrun by lia. done. }
  split; [lia|]. intros j Hj. rewrite (becomes_test _ _ _ (al_map _ _ _ _ _ _ _ Hal)) by lia. unfold set_bits, reserved.
  case_decide; [by rewrite bool_decide_true by lia|]. rewrite Ht by lia. apply bool_decide_ext. lia.
Qed.

(** The free map is created, open and saved. *)
Lemma free_map_create_ok b f : block_ok b → started b f → 4 ≤ size →
  ∃ a i f', free_map_create ops f = Ret ((), f') ∧ fs_ok {[FREE_MAP_SECTOR := data i]} [] f' ∧ map_file {[FREE_MAP_SECTOR := data i]} f' a i ∧
    persisted f' (data i) ∧ plenty f' ∧ dirs f' = ∅ ∧ (∀ q, q ≠ free_map_file f' → open_files f' !! q = None) ∧
    2 ≤ start (data i) ∧ ∀ j, 0 ≤ j < size → bm_test (free_map f') j = reserved (start (data i)) (sectors (byte_cnt size)) j.
Proof.
  intros Hb Hst H4. destruct (create_map_ok b f Hb Hst H4) as (d0 & f1 & H1 & Hf1 & Hl0 & Hid & Hp & H2 & Ht).
  set (G := {[FREE_MAP_SECTOR := d0]} : gmap Z inode_disk) in *. assert (G !! FREE_MAP_SECTOR = Some d0) as Hg by apply lookup_singleton_eq.
  pose proof (fo_disk _ _ _ _ _ Hf1) as Hd1.
  destruct (attach_ok f1 d0 Hid Hp (fo_brk _ _ _ _ _ Hf1) (dk_block _ _ _ _ _ _ Hd1) (dk_decode _ _ _ _ _ _ Hd1 _ d0 Hg)) as (a & p & f2 & f3 & E2 & E3 & Hat & Em).
  set (f4 := w_free_map_file p f3) in *. pose proof (at_order _ _ _ _ _ Hat) as Hord. assert (free_map f4 = free_map f1) as Em4 by done.
  assert (fs_base G f4) as Hf4.
  { destruct Hf1. split; rewrite ?Em4; try done; [|lia|rewrite (at_files _ _ _ _ _ Hat), lookup_singleton_ne by lia; done].
    apply (disk_ok_same G (device f1) _ (bm_test (free_map f1))); [done|apply Hat|apply Hat|done]. }
  pose proof (attached_map G d0 a p f1 f4 Hat Hg Hl0) as Hmf.
  destruct (bitmap_write_ok ops ok size content Hsize G f4 (free_map f4) a _ Hf4 Hmf) as (r & f5 & E5 & Hod & Hpl); [apply Hf4|apply Hf4|].
  assert (plenty f4) as Hp4 by (intros k; rewrite (at_mem _ _ _ _ _ Hat); apply Hp). destruct (Hpl Hp4) as [-> Hfd].
  exists a, (Inode FREE_MAP_SECTOR 1 false 0 d0), f5. split.
  { unfold free_map_create. rewrite cget. unfold bitmap_file_size. replace (bit_cnt (free_map f)) with size by (symmetry; apply Hst).
    rewrite (cstep _ _ _ _ _ H1). cbn [negb]. rewrite (cstep _ _ _ _ _ E2), (cstep _ _ _ _ _ E3), cmodify.
    destruct (Z.eqb_spec p 0); [lia|]. rewrite cget. fold f4. replace (free_map_file f4) with p in E5 by done. by rewrite (cstep _ _ _ _ _ E5). }
  split. { split; [by apply (data_write_base ok size content G f4 f5 FREE_MAP_SECTOR d0)|]. eapply only_open; [exact Hod|]. by apply (attached_open G d0 a p f1). }
  destruct Hod as [Hbk Hc Hm Hmff Hin Hop Hfi Hdi Hbr Hme].
  split; [by apply (map_file_same size G f4)|]. split.
  { exists (free_map f4). destruct Hf4. rewrite Hm. done. }
  split; [intros k; rewrite Hme; apply Hp4|]. split; [rewrite Hdi; apply Hat|]. split.
  { intros q Hq. rewrite Hmff, (at_map_file _ _ _ _ _ Hat) in Hq. by rewrite Hfi, (at_files _ _ _ _ _ Hat), lookup_singleton_ne. }
  split; [done|]. intros j Hj. by rewrite Hm, Em4, Ht.
Qed.

Lemma zero_entry b st len k : 0 ≤ k → 20 * k + 20 ≤ len → fdata b st 0 len = replicate (Z.to_nat len) 0 → fdata b st (20 * k) 20 = replicate 20 0.
Proof.
  intros Hk Hl Hz. apply list_eq. intros j. destruct (decide (j < 20)%nat) as [Hj|Hj].
  - rewrite fdata_lookup, lookup_replicate_2 by lia. apply (f_equal (lookup (Z.to_nat (20 * k + Z.of_nat j)))) in Hz.
    rewrite fdata_lookup, lookup_replicate_2 in Hz by lia. rewrite <- Hz. do 2 f_equal. lia.
  - rewrite !lookup_ge_None_2; [done|rewrite length_replicate; lia|rewrite fdata_length; lia].
Qed.

(** A directory of zeros is empty. *)
Lemma zero_on_disk G d0 d1 b : G !! FREE_MAP_SECTOR = Some d0 → d_length d0 = byte_cnt size → G !! ROOT_DIR_SECTOR = Some d1 → d_length d1 = 320 →
  fdata b (start d1) 0 320 = replicate 320 0 → on_disk size content ∅ G b.
Proof.
  intros Hg0 Hl0 Hg1 Hl1 Hz. assert (slots d1 = 16) as Hsl by (unfold slots; by rewrite Hl1).
  assert (∀ k, 0 ≤ k < slots d1 → entry content b d1 k = replicate 20 0) as He.
  { intros k Hk. apply (zero_entry b (start d1) 320); [lia|lia|done]. }
  split; try done; [by exists d0|]. exists d1. split; [done|]. split.
  - split; [lia| |].
    + intros k Hk. rewrite He by done. by split.
    + intros k1 k2 nm s1 s2 Hk1 _. by rewrite He.
  - intros nm s. rewrite lookup_empty. split; [done|]. intros (k & Hk & Hs). by rewrite He in Hs.
Qed.

(** The root directory. *)
Lemma create_root_ok d0 a i f : data i = d0 → fs_ok {[FREE_MAP_SECTOR := d0]} [] f → map_file {[FREE_MAP_SECTOR := d0]} f a i →
  persisted f d0 → plenty f → 4 ≤ size → 2 ≤ start d0 →
  (∀ j, 0 ≤ j < size → bm_test (free_map f) j = reserved (start d0) (sectors (byte_cnt size)) j) →
  ∃ d1 f', let G := <[ROOT_DIR_SECTOR := d1]> {[FREE_MAP_SECTOR := d0]} in
    dir_create ops ROOT_DIR_SECTOR 16 f = Ret (true, f') ∧ fs_ok G [] f' ∧ map_file G f' a i ∧ persisted f' d0 ∧ plenty f' ∧
    dirs f' = dirs f ∧ open_files f' = open_files f ∧ free_map_file f' = free_map_file f ∧ on_disk size content ∅ G (device f').
Proof.
  intros Ei [Hf Ho] Hmf Hper Hp H4 H2 Ht. destruct (map_room H4) as [Hn Hroom]. pose proof (mf_length _ _ _ _ _ Hmf) as Hl. rewrite Ei in Hl.
  destruct (inode_create_ok ops ok size content Hsize {[FREE_MAP_SECTOR := d0]} f (λ t, start (data i) ≤ t < start (data i) + sectors (d_length (data i)))
    ROOT_DIR_SECTOR 320) as (r & f' & Hr & Hc & Hpe); [done|right; by exists a, i|unfold ROOT_DIR_SECTOR; lia|lia| | |].
  { rewrite Ht by (unfold ROOT_DIR_SECTOR; lia). apply bool_decide_true. unfold ROOT_DIR_SECTOR. lia. }
  { intros s' d' [<- <-]%lookup_singleton_Some [?|?]; [done|]. unfold ROOT_DIR_SECTOR in *. lia. }
  specialize (Hpe Hp a i Hmf). rewrite Ei in Hpe. destruct r.
  2:{ destruct Hc as [_ Hno]. exfalso. specialize (Hno Hp). change (sectors 320) with 1 in Hno.
      destruct (decide (start d0 = 2)) as [E|E].
      - apply (Hno (2 + sectors (byte_cnt size)) ltac:(lia) ltac:(lia)). intros k Hk. rewrite Ht by lia. apply bool_decide_false. lia.
      - apply (Hno 2 ltac:(lia) ltac:(lia)). intros k Hk. rewrite Ht by lia. apply bool_decide_false. lia. }
  destruct Hc as (first & Hf' & Hal & _ & Hz). exists (InodeDisk first 320 INODE_MAGIC), f'. cbv zeta.
  assert ((<[ROOT_DIR_SECTOR := InodeDisk first 320 INODE_MAGIC]> {[FREE_MAP_SECTOR := d0]} : gmap Z inode_disk) !! FREE_MAP_SECTOR = Some d0) as Hg0
    by (rewrite lookup_insert_ne by done; apply lookup_singleton_eq).
  split; [done|]. split; [split; [done|]|].
  { eapply open_grow; [|eapply alters_open; [exact Hal|exact Ho]]. by intros s d [<- <-]%lookup_singleton_Some. }
  split.
  { apply (map_file_same size _ f); [apply Hal..|]. destruct Hmf. split; try done; by rewrite Ei. }
  split; [by apply Hpe|]. split; [intros k; rewrite (al_mem _ _ _ _ _ _ _ Hal); apply Hp|].
  split; [apply Hal|]. split; [apply Hal|]. split; [apply Hal|].
  apply (zero_on_disk _ d0 (InodeDisk first 320 INODE_MAGIC)); [done|done|apply lookup_insert_eq|done|done].
Qed.

Lemma do_format_ok b f : block_ok b → started b f → 4 ≤ size →
  ∃ G m f', do_format ops f = Ret ((), f') ∧ image ∅ G m (device f') ∧ map_of_size (free_map f') ∧ idle f' ∧ plenty f' ∧ 0 < brk f' ∧
    (∀ s, user s → G !! s = None).
Proof.
  intros Hb Hst H4. destruct (free_map_create_ok b f Hb Hst H4) as (a & i & f1 & E1 & Hf1 & Hmf & Hper & Hp & Hd & Hq & H2 & Ht).
  destruct (create_root_ok (data i) a i f1 eq_refl Hf1 Hmf Hper Hp H4 H2 Ht) as (d1 & f2 & E2 & Hf2 & Hmf2 & Hper2 & Hp2 & Ed & Ef & Em & Hon).
  set (G := <[ROOT_DIR_SECTOR := d1]> {[FREE_MAP_SECTOR := data i]} : gmap Z inode_disk) in *.
  destruct (free_map_close_ok G f2 a i Hf2 Hmf2 Hper2 Hp2) as (f3 & E3 & Hf3 & Hid & Hper3 & Hp3 & Hb3 & Hc); [congruence|by rewrite Ef, Em|].
  assert (∀ s, user s → G !! s = None) as HG. { intros s [? ?]. unfold G. by rewrite lookup_insert_ne, lookup_singleton_ne. }
  destruct (closed_image ∅ G f3 (data i) Hf3 Hper3 (mf_disk _ _ _ _ _ Hmf2)) as [m Hm].
  { apply (on_disk_moved ∅ G (device f2) _ (bm_test (free_map f2))); [done|apply Hf2|done]. }
  { intros s Hs Hu. rewrite HG in Hs by done. by destruct Hs. }
  exists G, m, f3. split.
  { unfold do_format. rewrite (cstep _ _ _ _ _ E1), (cstep _ _ _ _ _ E2). done. }
  split; [done|]. split; [|done]. destruct Hf3 as [[] _]. done.
Qed.

Lemma format_ok b words f : block_ok b → storage words → fresh f → 4 ≤ size →
  ∃ G f', filesys_init ops (Some b) (Some words) true f = Ret ((), f') ∧ represents ok size content G (World ∅ ∅ ∅) f'.
Proof.
  intros Hb Hw Hf H4. destruct (free_map_init_ok b words f Hb Hw Hf) as (f1 & H1 & Hst).
  destruct (do_format_ok b f1 Hb Hst H4) as (G & m & f2 & E2 & Him & Hm & Hid & Hp & Hbrk & HG).
  destruct (free_map_open_ok ∅ G m f2 Him Hm Hid Hp Hbrk) as (f3 & E3 & Hv & Hd & Hq & Hc).
  exists G, f3. split.
  - unfold filesys_init. apply cmd_bind_Ret in H1 as ([] & g1 & G1 & H1). rewrite (cstep _ _ _ _ _ G1).
    apply cmd_bind_Ret in H1 as ([] & g2 & G2 & H1). rewrite (cstep _ _ _ _ _ G2), (cstep _ _ _ _ _ H1). by rewrite (cstep _ _ _ () f2) by done.
  - apply (mounted_represents (World ∅ ∅ ∅) G f3 (device f2)); try done. intros s Hu. by rewrite HG.
Qed.
End FormatOk.

(** ** Properties *)

(** A disk of 64 sectors, full of rubbish. *)
Definition blank_disk : block (list (list Z)) := block_register BLOCK_FILESYS 64 (replicate 64 (replicate 512 0xcc)).
Definition stack_junk : list Z := replicate 20 0xcc.

Lemma blank_disk_ok : block_ok (ram_ok 64) 64 blank_disk.
Proof. split; [|done]. split; [done|]. apply Forall_replicate. done. Qed.

Lemma blank_storage : storage 64 [0xdead; 0xbeef].
Proof. split; [done|]. by repeat constructor. Qed.

Lemma no_fs_fresh {D} (b : block D) : fresh (no_fs b (λ _, true)).
Proof. by repeat split. Qed.

(** C21. Formatting: [filesys_init] with [format], on a device of at least four
    sectors with any contents and with a free map whose memory holds anything,
    returns, and leaves a file system without files that is ready for use. *)
Theorem format_empty {D} (ops : block_operations D) ok size content `{!DriverOk ops ok size content} b words (f : fs D) :
  4 ≤ size < 2 ^ 32 - 32 → block_ok ok size b → storage size words → fresh f →
  ∃ G f', filesys_init ops (Some b) (Some words) true f = Ret ((), f') ∧ represents ok size content G (World ∅ ∅ ∅) f'.
Proof. intros Hs Hb Hw Hf. apply (format_ok ops ok size content ltac:(lia) b words f Hb Hw Hf). lia. Qed.

Lemma format_empty_witness : ∃ G f', filesys_init ram_ops (Some blank_disk) (Some [0xdead; 0xbeef]) true (no_fs blank_disk (λ _, true)) = Ret ((), f') ∧
  represents (ram_ok 64) 64 ram_content G (World ∅ ∅ ∅) f'.
Proof.
  apply (format_empty ram_ops (ram_ok 64) 64 ram_content); [lia|apply blank_disk_ok|apply blank_storage|apply no_fs_fresh].
Defined.

(** C2. Shutting down and starting again: when no file is open, [filesys_done]
    followed by [filesys_init] without [format], on the same device and on
    fresh memory, returns and finds the same names and the same contents. *)
Theorem remount_roundtrip {D} (ops : block_operations D) ok size content `{!DriverOk ops ok size content} G w (f f0 : fs D) words :
  2 < size < 2 ^ 32 - 32 → represents ok size content G w f → w_handles w = ∅ → storage size words → fresh f0 →
  ∃ f1 f2, filesys_done ops f = Ret ((), f1) ∧ filesys_init ops (Some (device f1)) (Some words) false f0 = Ret ((), f2) ∧
    represents ok size content G w f2.
Proof.
  intros Hs Hre Hh Hw Hf0. destruct (unmount_ok ops ok size content Hs G w f Hre Hh) as (f1 & m & H1 & Him & Hc).
  pose proof (re_volume _ _ _ _ _ _ Hre) as Hv. pose proof (vl_ok _ _ _ _ _ _ _ Hv) as [Hb _].
  destruct (mount_ok ops ok size content Hs w G m (device f1) words f0 Him Hw Hf0) as (f2 & H2 & Hre2); [|apply Hre|done|by exists f1, f2].
  intros s Hu. rewrite (re_data _ _ _ _ _ _ Hre s Hu). destruct (G !! s) as [d|] eqn:Hd; [|done]. simpl. f_equal. symmetry.
  apply (fdata_same size content); [by apply (dk_extent _ _ _ _ _ _ (fo_disk _ _ _ _ _ Hb) s)|done|lia|lia].
Qed.

Lemma remount_roundtrip_witness : ∃ f f1 f2,
  filesys_init ram_ops (Some blank_disk) (Some [0xdead; 0xbeef]) true (no_fs blank_disk (λ _, true)) = Ret ((), f) ∧
  filesys_done ram_ops f = Ret ((), f1) ∧
  filesys_init ram_ops (Some (device f1)) (Some [0; 0]) false (no_fs (device f1) (λ _, true)) = Ret ((), f2).
Proof.
  destruct (format_ok ram_ops (ram_ok 64) 64 ram_content ltac:(lia) blank_disk [0xdead; 0xbeef] (no_fs blank_disk (λ _, true)))
    as (G & f & Hf & Hre); [apply blank_disk_ok|apply blank_storage|apply no_fs_fresh|lia|].
  destruct (remount_roundtrip ram_ops (ram_ok 64) 64 ram_content G (World ∅ ∅ ∅) f (no_fs blank_disk (λ _, true)) [0; 0])
    as (f1 & f2 & H1 & H2 & _); [lia|exact Hre|done|by repeat constructor|apply no_fs_fresh|].
  exists f, f1, f2. split; [exact Hf|]. split; [exact H1|exact H2].
Defined.


(** Creates a file, writes to it, and removes it while it is open. *)
Definition demo_program : program :=
  PCall (CCreate [97] 600) (λ _, PCall (COpen [97]) (λ v,
    match v with
    | VInt p => if p =? 0 then PDone else
        PCall (CWrite p [1; 2; 3] 3) (λ _, PCall (CRemove [97]) (λ _, PCall (CClose p) (λ _, PDone)))
    | _ => PDone
    end)).

Lemma reclaim_handles s w : w_handles (reclaim s w) = w_handles w.
Proof. unfold reclaim. by case_decide. Qed.

Lemma demo_careful w : careful w demo_program.
Proof.
  cbn [careful demo_program]. split; [split; [by intros [=]%list_elem_of_singleton|lia]|]. intros _ w1 _.
  split; [by intros [=]%list_elem_of_singleton|]. intros v w2 Ho. inversion Ho as [| | |nm s p Hn Hp Hh| | | | | | | | | | |]; subst; [done|].
  cbn [careful]. destruct (Z.eqb_spec p 0); [done|]. cbn [careful valid w_handles]. rewrite lookup_insert_eq. split; [done|].
  intros v w3 Hw. assert (is_Some (w_handles w3 !! p)) as H3.
  { inversion Hw; subst; simpl; rewrite ?lookup_insert_eq; done. }
  split; [by intros [=]%list_elem_of_singleton|]. intros v' w4 Hr. split; [|done].
  inversion Hr; subst; [done|]. by rewrite reclaim_handles.
Qed.


(** The state after formatting, by evaluation: the root directory has a free
    slot, and the sectors from 10 to 19 are free. *)
Definition has_room (f : fs (list (list Z))) : bool :=
  match decode_inode (block_content ram_content (device f) ROOT_DIR_SECTOR) with
  | Ret d1 => (1 <=? slots d1) && bool_decide (slot (entry ram_content (device f) d1 0) = None)
  | Fail _ => false
  end && forallb (λ a, negb (bm_test (free_map f) a)) (seqZ 10 10).

Lemma blank_has_room :
  match filesys_init ram_ops (Some blank_disk) (Some [0xdead; 0xbeef]) true (no_fs blank_disk (λ _, true)) with
  | Ret (_, f) => has_room f | Fail _ => false end = true.
Proof. vm_compute. reflexivity. Qed.

Lemma has_room_ok (f : fs (list (list Z))) d1 len : has_room f = true → decode_inode (block_content ram_content (device f) ROOT_DIR_SECTOR) = Ret d1 →
  0 ≤ len ≤ 9 * 512 → room 64 ram_content d1 f len.
Proof.
  unfold has_room. intros [Hs Hb]%andb_prop Hd Hl. rewrite Hd in Hs. apply andb_prop in Hs as [H1 H2]. split.
  - exists 0. split; [bool_prop; lia|]. by apply bool_decide_eq_true in H2.
  - exists 10. split; [lia|]. assert (sectors len ≤ 9) by (unfold sectors; div_lia). split; [lia|]. intros k Hk.
    rewrite forallb_forall in Hb. specialize (Hb k). rewrite <- list_elem_of_In, elem_of_seqZ in Hb. apply negb_true_iff, Hb. lia.
Qed.

Lemma demo_name : name_ok [97].
Proof. split; [by intros [=]%list_elem_of_singleton|done]. Qed.

Lemma create_succeeds_witness : ∃ f s f',
  filesys_init ram_ops (Some blank_disk) (Some [0xdead; 0xbeef]) true (no_fs blank_disk (λ _, true)) = Ret ((), f) ∧
  filesys_create ram_ops stack_junk [97] 600 f = Ret (true, f') ∧ user s.
Proof.
  destruct (format_ok ram_ops (ram_ok 64) 64 ram_content ltac:(lia) blank_disk [0xdead; 0xbeef] (no_fs blank_disk (λ _, true)))
    as (G & f & Hf & Hre); [apply blank_disk_ok|apply blank_storage|apply no_fs_fresh|lia|].
  pose proof blank_has_room as Hroom. rewrite Hf in Hroom. pose proof (re_volume _ _ _ _ _ _ Hre) as Hv.
  destruct (nd_root _ _ _ _ _ (vl_disk _ _ _ _ _ _ _ Hv)) as (d1 & Hd1 & _).
  pose proof (dk_decode _ _ _ _ _ _ (fo_disk _ _ _ _ _ (fo_base _ _ _ _ _ _ (vl_ok _ _ _ _ _ _ _ Hv))) _ d1 Hd1) as Hdec.
  destruct (create_succeeds ram_ops (ram_ok 64) 64 ram_content stack_junk G (World ∅ ∅ ∅) f d1 [97] 600)
    as (s & d & f' & Hc & _ & _ & Hv' & _); [lia|reflexivity|exact Hre|exact Hd1|apply demo_name|reflexivity|lia|apply (has_room_ok f d1 600 Hroom Hdec); lia|].
  exists f, s, f'. split; [exact Hf|]. split; [exact Hc|].
  apply (nd_file _ _ _ _ _ (vl_disk _ _ _ _ _ _ _ Hv') [97] s). apply lookup_insert_eq.
Defined.

(** Creating a file under a name that is in use fails after the sectors for
    its data were allocated: the sector for the inode is released and those
    for the data are not.  Here [filesys_create] fails and ten sectors are
    lost. *)
Example create_leaks :
  match (let* _ := filesys_init ram_ops (Some blank_disk) (Some [0xdead; 0xbeef]) true in
         let* a := filesys_create ram_ops stack_junk [97] 0 in
         let* f1 := get in
         let* b := filesys_create ram_ops stack_junk [97] 5120 in
         let* f2 := get in
         mret (a, b, length (filter (λ j, bm_test (free_map f1) j = true) (seqZ 0 64)),
               length (filter (λ j, bm_test (free_map f2) j = true) (seqZ 0 64)))) (no_fs blank_disk (λ _, true)) with
  | Ret (r, _) => r = (true, false, 5, 15)%nat
  | Fail _ => False
  end.
Proof. vm_compute. reflexivity. Qed.
