(* ===== verification/Loader.v ===== *)
(** * Loading executables (userprog/process.c)

    [load] opens the file that the first word of the command line names, checks
    its ELF header, enters the pages of its segments into the supplemental page
    table and sets up the stack.  Pages are read later, by page faults.

    The state is that of the file system and that of virtual memory, which
    share the device, and the kernel's memory with its strings.  What the
    allocators return is an argument.  [file_sema] is its value. *)

From S2P Require Import Prelude Cstring Vaddr Stack Bitmap Hash Block Swap Page Pagedir Frame Fs Inode Extents Files Directory Filesys Calls Format.

(** ** ELF headers *)

Record Elf32_Ehdr := Ehdr {
  e_ident : list Z; e_type : Z; e_machine : Z; e_version : Z; e_entry : Z; e_phoff : Z; e_shoff : Z; e_flags : Z;
  e_ehsize : Z; e_phentsize : Z; e_phnum : Z; e_shentsize : Z; e_shnum : Z; e_shstrndx : Z
}.
Record Elf32_Phdr := Phdr {
  p_type : Z; p_offset : Z; p_vaddr : Z; p_paddr : Z; p_filesz : Z; p_memsz : Z; p_flags : Z; p_align : Z
}.
Definition sizeof_ehdr : Z := 52.
Definition sizeof_phdr : Z := 32.

Definition PT_NULL : Z := 0.
Definition PT_LOAD : Z := 1.
Definition PT_DYNAMIC : Z := 2.
Definition PT_INTERP : Z := 3.
Definition PT_NOTE : Z := 4.
Definition PT_SHLIB : Z := 5.
Definition PT_PHDR : Z := 6.
Definition PT_STACK : Z := 0x6474e551.
Definition PF_W : Z := 2.

(** The layout of the structures: little-endian halves and words. *)
Definition le_half (data : list Z) (ofs : Z) : outcome Z :=
  let* a := access (zget data ofs) in let* b := access (zget data (ofs + 1)) in Ret (a + 256 * b).
Definition decode_ehdr (b : list Z) : outcome Elf32_Ehdr :=
  let* ty := le_half b 16 in let* mc := le_half b 18 in let* ve := le_word b 20 in let* en := le_word b 24 in
  let* po := le_word b 28 in let* so := le_word b 32 in let* fl := le_word b 36 in let* es := le_half b 40 in
  let* ps := le_half b 42 in let* pn := le_half b 44 in let* ss := le_half b 46 in let* sn := le_half b 48 in
  let* sx := le_half b 50 in
  Ret (Ehdr (take 16 b) ty mc ve en po so fl es ps pn ss sn sx).
Definition decode_phdr (b : list Z) : outcome Elf32_Phdr :=
  let* ty := le_word b 0 in let* po := le_word b 4 in let* va := le_word b 8 in let* pa := le_word b 12 in
  let* fs := le_word b 16 in let* ms := le_word b 20 in let* fl := le_word b 24 in let* al := le_word b 28 in
  Ret (Phdr ty po va pa fs ms fl al).

(** The test of [load]; 127 69 76 70 is 0x7f ELF. *)
Definition ehdr_ok (h : Elf32_Ehdr) : bool :=
  bool_decide (take 7 (e_ident h) = [127; 69; 76; 70; 1; 1; 1]) && (e_type h =? 2) && (e_machine h =? 3) && (e_version h =? 1) &&
  (e_phentsize h =? sizeof_phdr) && (e_phnum h <=? 1024).

(** [validate_segment] with the length of the file. *)
Definition segment_valid (ph : Elf32_Phdr) (file_length : Z) : bool :=
  if negb (Z.land (p_offset ph) PGMASK =? Z.land (p_vaddr ph) PGMASK) then false
  else if u32 file_length <? p_offset ph then false
  else if p_memsz ph <? p_filesz ph then false
  else if p_memsz ph =? 0 then false
  else if negb (is_user_vaddr (p_vaddr ph)) then false
  else if negb (is_user_vaddr (u32 (p_vaddr ph + p_memsz ph))) then false
  else if u32 (p_vaddr ph + p_memsz ph) <? p_vaddr ph then false
  else if p_vaddr ph <? PGSIZE then false
  else true.

(** What [load] passes to [load_segment]. *)
Record segment := Segment { s_file : Z; s_mem : Z; s_read : Z; s_zero : Z; s_writable : bool }.
Definition ROUND_UP (x step : Z) : Z := u32 (x + step - 1) / step * step.
Definition segment_of (ph : Elf32_Phdr) : segment :=
  let writable := negb (Z.land (p_flags ph) PF_W =? 0) in
  let file_page := Z.land (p_offset ph) (u32 (Z.lnot PGMASK)) in
  let mem_page := Z.land (p_vaddr ph) (u32 (Z.lnot PGMASK)) in
  let page_offset := Z.land (p_vaddr ph) PGMASK in
  if 0 <? p_filesz ph then
    let read_bytes := u32 (page_offset + p_filesz ph) in
    Segment file_page mem_page read_bytes (u32 (ROUND_UP (page_offset + p_memsz ph) PGSIZE - read_bytes)) writable
  else Segment file_page mem_page 0 (ROUND_UP (page_offset + p_memsz ph) PGSIZE) writable.

(** ** The code *)

Record kernel (D : Type) := Kernel { k_fs : fs D; k_vm : vm D; k_mem : gmap Z Z; file_sema : Z }.
Global Arguments Kernel {D} _ _ _ _.
Global Arguments k_fs {D} _.
Global Arguments k_vm {D} _.
Global Arguments k_mem {D} _.
Global Arguments file_sema {D} _.

(** What the allocators return during one call. *)
Record load_allocs := LoadAllocs {
  l_copy : option Z;                     (* palloc_get_page for cmdline_copy *)
  l_pd : option Z;                       (* palloc_get_page in pagedir_create *)
  l_supdir : bool;                       (* malloc in supdir_create *)
  l_entry : gmap Z spte → option Z;      (* malloc in supdir_set_page *)
  l_rehash : bool;                       (* malloc in rehash *)
  l_stack : allocs;                      (* the frame of the stack *)
  l_page : option Z                      (* palloc_get_page in parse_push *)
}.

Section Load.
Context {D : Type} (ops : block_operations D) (junk : list Z).
Context (init_page_dir init_ram_pages : Z) (probe cur : Z).
(** The address of the string that holds a space. *)
Context (delimiters : Z).
Context (la : load_allocs).
Notation kernel := (kernel D).

(** The device is that of both parts. *)
Definition on_fs {A} (c : cmd (fs D) A) : cmd kernel A :=
  zoom k_fs (λ k f, Kernel f (set_devices (k_vm k) (device f) (swap_area (k_vm k))) (k_mem k) (file_sema k)) c.
Definition on_vm {A} (c : cmd (vm D) A) : cmd kernel A :=
  zoom k_vm (λ k v, Kernel (w_device (fs_device v) (k_fs k)) v (k_mem k) (file_sema k)) c.
Definition on_mem {A} (c : cmd (gmap Z Z) A) : cmd kernel A :=
  zoom k_mem (λ k m, Kernel (k_fs k) (k_vm k) m (file_sema k)) c.

Definition file_sema_down : cmd kernel unit := λ k,
  if 0 <? file_sema k then Ret ((), Kernel (k_fs k) (k_vm k) (k_mem k) (file_sema k - 1)) else Fail Blocked.
Definition file_sema_up : cmd kernel unit := modify (λ k, Kernel (k_fs k) (k_vm k) (k_mem k) (file_sema k + 1)).

(** [supdir_set_page] on the table of the running thread. *)
Definition set_page (va sec rb loc : Z) (w : bool) : cmd kernel bool :=
  on_vm (let* (sd, _) := thread_of cur in
         let* (b, sd) := lift (supdir_set_page probe sd va sec rb loc w (l_entry la (sptes sd)) (l_rehash la)) in
         let* _ := modify (λ s, set_supdir s cur sd) in
         mret b).

Definition validate_segment (ph : Elf32_Phdr) (file : Z) : cmd kernel bool :=
  let* n := on_fs (file_length file) in mret (segment_valid ph n).

Fixpoint segment_loop (fuel : nat) (file ofs upage read_bytes zero_bytes : Z) (writable : bool) : cmd kernel unit :=
  match fuel with
  | O => lift (Fail OutOfFuel)
  | S fuel =>
      if (0 <? read_bytes) || (0 <? zero_bytes) then
        let page_read_bytes := if read_bytes <? PGSIZE then read_bytes else PGSIZE in
        let page_zero_bytes := PGSIZE - page_read_bytes in
        let* _ := (if 0 <? page_read_bytes then
            let* inode := on_fs (file_get_inode file) in
            let* _ := assert (negb (inode =? 0)) in
            let* i := on_fs (get_inode inode) in
            set_page upage (byte_to_sector i ofs) page_read_bytes FILE_SYS writable
          else set_page upage 0 0 ZERO_SYS writable) in
        segment_loop fuel file (s32 (ofs + PGSIZE)) (u32 (upage + PGSIZE)) (u32 (read_bytes - page_read_bytes))
          (u32 (zero_bytes - page_zero_bytes)) writable
      else mret ()
  end.

Definition load_segment (file ofs upage read_bytes zero_bytes : Z) (writable : bool) : cmd kernel bool :=
  let* _ := assert (u32 (read_bytes + zero_bytes) mod PGSIZE =? 0) in
  let* _ := assert (pg_ofs upage =? 0) in
  let* _ := assert (Z.rem ofs PGSIZE =? 0) in
  let* _ := on_fs (file_seek file ofs) in
  let* _ := segment_loop (S (Z.to_nat (u32 (read_bytes + zero_bytes) / PGSIZE))) file ofs upage read_bytes zero_bytes writable in
  mret true.

(** The loop over the program headers. *)
Fixpoint load_headers (n : nat) (file file_ofs : Z) : cmd kernel bool :=
  match n with
  | O => mret true
  | S n =>
      let* len := on_fs (file_length file) in
      if (file_ofs <? 0) || (len <? file_ofs) then mret false else
      let* _ := on_fs (file_seek file file_ofs) in
      let* (r, bytes) := on_fs (file_read ops file (replicate 32 0) sizeof_phdr) in
      if negb (r =? sizeof_phdr) then mret false else
      let* phdr := lift (decode_phdr bytes) in
      let file_ofs := s32 (file_ofs + sizeof_phdr) in
      if (p_type phdr =? PT_DYNAMIC) || (p_type phdr =? PT_INTERP) || (p_type phdr =? PT_SHLIB) then mret false
      else if p_type phdr =? PT_LOAD then
        let* ok := validate_segment phdr file in
        if ok : bool then
          let s := segment_of phdr in
          let* ok := load_segment file (s32 (s_file s)) (s_mem s) (s_read s) (s_zero s) (s_writable s) in
          if ok : bool then load_headers n file file_ofs else mret false
        else mret false
      else load_headers n file file_ofs
  end.

(** [parse_push] on the stack page, which is in the frame. *)
Definition on_stack {A} (frame : Z) (c : cmd (gmap Z Z) A) : cmd kernel A := λ k,
  let* page := access (frames (k_vm k) !! frame) in
  let base := PHYS_BASE - PGSIZE in
  let* (a, m) := c (write (k_mem k) base page) in
  let page := (λ i, default 0 (m !! (base + i))) <$> seqZ 0 PGSIZE in
  Ret (a, Kernel (k_fs k) (set_frames (k_vm k) (<[frame := page]> (frames (k_vm k))))
            (filter (λ '(p, _), ¬ (base ≤ p < PHYS_BASE)) m) (file_sema k)).

(** The stack pointer, when successful. *)
Definition setup_stack (cmdline : Z) : cmd kernel (option Z) :=
  let stack_addr := PHYS_BASE - PGSIZE in
  let* ok := set_page stack_addr 0 0 ZERO_SYS true in
  if ok : bool then
    let* frame := on_vm (get_user_page cur stack_addr (l_stack la)) in
    let* frame := (match frame with Some f => mret (Some f)
                   | None => on_vm (evict_page ops init_page_dir probe cur stack_addr (l_stack la)) end) in
    let* frame := lift (match frame with Some f => Ret f | None => Fail AssertFailed end) in
    let* success := on_vm (load_page ops init_page_dir init_ram_pages probe cur stack_addr frame (l_stack la)) in
    if success : bool then
      let* (_, esp) := on_stack frame (parse_push (l_page la) delimiters cmdline PHYS_BASE) in mret (Some esp)
    else mret None
  else mret None.

(** From the header to the stack: the entry point and the stack pointer. *)
Definition load_image (file cmdline : Z) : cmd kernel (option (Z * Z)) :=
  let* (r, bytes) := on_fs (file_read ops file (replicate 52 0) sizeof_ehdr) in
  if negb (r =? sizeof_ehdr) then mret None else
  let* ehdr := lift (decode_ehdr bytes) in
  if negb (ehdr_ok ehdr) then mret None else
  let* ok := load_headers (Z.to_nat (e_phnum ehdr)) file (s32 (e_phoff ehdr)) in
  if ok : bool then
    let* esp := setup_stack cmdline in
    mret ((λ esp, (e_entry ehdr, esp)) <$> esp)
  else mret None.

(** The C string at [p]. *)
Fixpoint c_string (fuel : nat) (p : Z) : cmd (gmap Z Z) (list Z) :=
  match fuel with
  | O => lift (Fail OutOfFuel)
  | S fuel => let* x := Cstring.load p in if x =? 0 then mret [] else let* s := c_string fuel (p + 1) in mret (x :: s)
  end.

Definition process_activate : cmd kernel unit :=
  on_vm (let* (_, pd) := thread_of cur in on_mach (pagedir_activate init_page_dir pd)).

(** [load]: the entry point and the stack pointer.  A null [supdir] is
    dereferenced later by the source, and here at once. *)
Definition load (cmdline : Z) : cmd kernel (option (Z * Z)) :=
  let cmdline_copy := default 0 (l_copy la) in
  let* n := on_mem (strnlen cmdline MAX_CMD_LEN) in
  let* _ := on_mem (strlcpy cmdline_copy cmdline (n + 1)) in
  let* (file_name, _) := on_mem (strtok_r cmdline_copy delimiters 0) in
  let* cmd_len := on_mem (strnlen cmdline (MAX_CMD_LEN + 1)) in
  let* (file, result) :=
    (if cmd_len =? MAX_CMD_LEN + 1 then mret (0, None) else
     let* pd := on_vm (on_mach (pagedir_create init_page_dir (l_pd la))) in
     let* sd := lift (access (supdir_create (l_supdir la))) in
     let* _ := on_vm (modify (λ s, Vm (<[cur := (sd, default 0 pd)]> (threads s)) (mach s) (frames s) (fs_device s) (swap_area s) (ft s) (fts s))) in
     match pd with
     | None => mret (0, None)
     | Some _ =>
         let* _ := process_activate in
         let* _ := file_sema_down in
         let* name := on_mem (let* m := get in c_string (bytes_of m) file_name) in
         let* file := on_fs (filesys_open ops junk name) in
         if file =? 0 then mret (0, None) else
         let* result := load_image file cmdline in
         mret (file, result)
     end) in
  let* _ := on_fs (file_close ops file) in
  let* _ := on_mem (modify (λ m, write m cmdline_copy (replicate (Z.to_nat PGSIZE) 0xcc))) in
  let* _ := file_sema_up in
  mret result.
End Load.

(** ** Segments *)

(** The fields of a header are words. *)
Definition phdr_words (ph : Elf32_Phdr) : Prop :=
  0 ≤ p_offset ph < 2 ^ 32 ∧ 0 ≤ p_vaddr ph < 2 ^ 32 ∧ 0 ≤ p_filesz ph < 2 ^ 32 ∧ 0 ≤ p_memsz ph < 2 ^ 32.

(** Whole pages of user memory above page 0, from whole pages of the file. *)
Record segment_ok (s : segment) (len : Z) : Prop := {
  so_file : s_file s mod 4096 = 0;
  so_inside : 0 ≤ s_file s ≤ len;
  so_mem : s_mem s mod 4096 = 0;
  so_read : 0 ≤ s_read s;
  so_zero : 0 ≤ s_zero s;
  so_pages : (s_read s + s_zero s) mod 4096 = 0;
  so_nonempty : 0 < s_read s + s_zero s;
  so_page0 : 4096 ≤ s_mem s;
  so_user : s_mem s + s_read s + s_zero s ≤ PHYS_BASE
}.

Lemma land_PGMASK a : Z.land a PGMASK = a mod 4096.
Proof. apply (pg_ofs_mod a). Qed.

Lemma segment_valid_ok ph len : phdr_words ph → 0 ≤ len < 2 ^ 31 → segment_valid ph len = true → segment_ok (segment_of ph) len.
Proof.
  intros (Ho & Hv & Hf & Hm) Hlen Hval. unfold segment_valid in Hval. rewrite !land_PGMASK, (u32_id len) in Hval by lia. unfold is_user_vaddr in Hval.
  destruct (Z.eqb_spec (p_offset ph mod 4096) (p_vaddr ph mod 4096)) as [Eo|]; [|done]. cbn [negb] in Hval.
  destruct (Z.ltb_spec len (p_offset ph)); [done|]. destruct (Z.ltb_spec (p_memsz ph) (p_filesz ph)); [done|].
  destruct (Z.eqb_spec (p_memsz ph) 0); [done|]. destruct (Z.ltb_spec (p_vaddr ph) PHYS_BASE) as [Hu|]; [|done]. cbn [negb] in Hval.
  destruct (Z.ltb_spec (u32 (p_vaddr ph + p_memsz ph)) PHYS_BASE) as [Hu2|]; [|done]. cbn [negb] in Hval.
  destruct (Z.ltb_spec (u32 (p_vaddr ph + p_memsz ph)) (p_vaddr ph)) as [|Hw]; [done|]. destruct (Z.ltb_spec (p_vaddr ph) PGSIZE) as [|Hp]; [done|].
  assert (p_vaddr ph + p_memsz ph < PHYS_BASE) as Hend.
  { destruct (decide (p_vaddr ph + p_memsz ph < 2 ^ 32)); [by rewrite u32_id in Hu2 by lia|].
    unfold u32 in Hw. replace (p_vaddr ph + p_memsz ph) with (p_vaddr ph + p_memsz ph - 2 ^ 32 + 1 * 2 ^ 32) in Hw by lia.
    rewrite Z.mod_add, Z.mod_small in Hw by lia. lia. }
  clear Hu2 Hw Hval. unfold PHYS_BASE in *. change PGSIZE with 4096 in *.
  unfold segment_of, ROUND_UP. rewrite !land_PGMASK. change (u32 (Z.lnot PGMASK)) with 0xfffff000. rewrite !land_page by lia. change PGSIZE with 4096.
  set (o := p_vaddr ph mod 4096) in *. assert (0 ≤ o < 4096) as Hob by (apply Z.mod_pos_bound; lia).
  assert (p_vaddr ph = 4096 * (p_vaddr ph / 4096) + o) as Ev by (apply Z.div_mod; lia).
  assert (p_offset ph = 4096 * (p_offset ph / 4096) + o) as Eo' by (rewrite <- Eo; apply Z.div_mod; lia).
  rewrite (u32_id (o + p_memsz ph + 4096 - 1)) by lia. set (r := (o + p_memsz ph + 4096 - 1) / 4096).
  assert (o + p_memsz ph ≤ 4096 * r < o + p_memsz ph + 4096) as Hr by (unfold r; div_lia).
  assert (4096 * (p_vaddr ph / 4096) + 4096 * r ≤ 0xc0000000) as Hfit by lia.
  assert (∀ n, (n * 4096) mod 4096 = 0) as Hmul by (intros; by apply Z.mod_mul).
  destruct (Z.ltb_spec 0 (p_filesz ph)).
  - rewrite (u32_id (o + p_filesz ph)) by lia. rewrite u32_id by lia. split; simpl; try first [apply Hmul|unfold PHYS_BASE; lia].
    replace (o + p_filesz ph + (r * 4096 - (o + p_filesz ph))) with (r * 4096) by lia. apply Hmul.
  - split; simpl; try first [apply Hmul|unfold PHYS_BASE; lia].
Qed.

(** [byte_to_sector] of an inode with the data [d]. *)
Definition sector_of (d : inode_disk) (pos : Z) : Z :=
  if pos <? d_length d then u32 (start d + u32 (Z.quot pos BLOCK_SECTOR_SIZE)) else u32 (-1).

(** The entry of the page [j] of a segment. *)
Definition page_entry (d : inode_disk) (ofs upage rd : Z) (w : bool) (j : Z) : spte :=
  let r := Z.min 4096 (rd - 4096 * j) in
  if 0 <? r then Spte w FILE_SYS (sector_of d (s32 (ofs + 4096 * j))) r (upage + 4096 * j) else Spte w ZERO_SYS 0 0 (upage + 4096 * j).
Definition enter (m : gmap Z spte) (e : spte) : gmap Z spte := <[vaddr e := e]> m.
Definition enter_segment (d : inode_disk) (s : segment) (m : gmap Z spte) : gmap Z spte :=
  foldl enter m (page_entry d (s_file s) (s_mem s) (s_read s) (s_writable s) <$> seqZ 0 ((s_read s + s_zero s) / 4096)).

Lemma enter_size m e : (size (enter m e) ≤ S (size m))%nat.
Proof. unfold enter. rewrite map_size_insert. destruct (m !! vaddr e); simpl; lia. Qed.

Lemma s32_add a b : s32 (s32 a + b) = s32 (a + b).
Proof.
  unfold s32. f_equal. replace ((a + 2 ^ 31) mod 2 ^ 32 - 2 ^ 31 + b + 2 ^ 31) with ((a + 2 ^ 31) mod 2 ^ 32 + b) by lia.
  rewrite Zplus_mod_idemp_l. f_equal. lia.
Qed.

Lemma page_entry_next d ofs upage rd w j : 0 ≤ j → page_entry d ofs upage rd w (j + 1) =
  page_entry d (s32 (ofs + 4096)) (upage + 4096) (rd - Z.min 4096 rd) w j.
Proof.
  intros Hj. unfold page_entry. cbv zeta. rewrite s32_add. replace (ofs + 4096 * (j + 1)) with (ofs + 4096 + 4096 * j) by lia.
  replace (upage + 4096 * (j + 1)) with (upage + 4096 + 4096 * j) by lia. destruct (decide (rd ≤ 4096)).
  - destruct (Z.ltb_spec 0 (Z.min 4096 (rd - 4096 * (j + 1)))); [lia|]. by destruct (Z.ltb_spec 0 (Z.min 4096 (rd - Z.min 4096 rd - 4096 * j))); [lia|].
  - by replace (rd - 4096 * (j + 1)) with (rd - Z.min 4096 rd - 4096 * j) by lia.
Qed.

Lemma w_device_id {D} (f : fs D) : w_device (device f) f = f.
Proof. by destruct f. Qed.
Lemma set_devices_id {D} (v : vm D) : set_devices v (fs_device v) (swap_area v) = v.
Proof. by destruct v. Qed.

(** What the program headers in the file ask for; [None] when [load] rejects
    one of them. *)
Fixpoint plan (bytes : list Z) (n : nat) (ofs : Z) : option (list segment) :=
  match n with
  | O => Some []
  | S n =>
      if (ofs <? 0) || (zlength bytes <? ofs + sizeof_phdr) then None else
      match decode_phdr (take 32 (drop (Z.to_nat ofs) bytes)) with
      | Fail _ => None
      | Ret ph =>
          if (p_type ph =? PT_DYNAMIC) || (p_type ph =? PT_INTERP) || (p_type ph =? PT_SHLIB) then None
          else if p_type ph =? PT_LOAD then
            if segment_valid ph (zlength bytes) then cons (segment_of ph) <$> plan bytes n (ofs + sizeof_phdr) else None
          else plan bytes n (ofs + sizeof_phdr)
      end
  end.

(** The executable: its entry point and its segments, if [load] accepts it. *)
Definition elf_plan (bytes : list Z) : option (Z * list segment) :=
  if zlength bytes <? sizeof_ehdr then None else
  match decode_ehdr (take 52 bytes) with
  | Fail _ => None
  | Ret h => if ehdr_ok h then (λ sgs, (e_entry h, sgs)) <$> plan bytes (Z.to_nat (e_phnum h)) (s32 (e_phoff h)) else None
  end.

Definition enter_segments (d : inode_disk) (sgs : list segment) (m : gmap Z spte) : gmap Z spte := foldl (λ m sg, enter_segment d sg m) m sgs.

Lemma foldl_enter_size es : ∀ m, (size (foldl enter m es) ≤ size m + length es)%nat.
Proof. induction es as [|e es IH]; intros m; simpl; [lia|]. pose proof (IH (enter m e)). pose proof (enter_size m e). lia. Qed.

Lemma le_half_ok b o : 0 ≤ o → o + 1 < zlength b → ∃ v, le_half b o = Ret v.
Proof.
  intros H1 H2. unfold le_half. destruct (zget_is_Some b o ltac:(lia)) as [x ->], (zget_is_Some b (o + 1) ltac:(lia)) as [y E]. simpl. rewrite E. by eexists.
Qed.
Lemma decode_ehdr_ok b : bytes b → length b = 52%nat → ∃ h, decode_ehdr b = Ret h.
Proof.
  intros Hb Hl. unfold decode_ehdr. assert (∀ o, 0 ≤ o → o + 3 < 52 → ∃ v, le_word b o = Ret v) as Hw by (intros o H1 H2; destruct (le_word_ok b o) as (v & ? & _); (done || lia || by exists v)).
  assert (∀ o, 0 ≤ o → o + 1 < 52 → ∃ v, le_half b o = Ret v) as Hh by (intros o H1 H2; apply le_half_ok; lia).
  destruct (Hh 16) as (? & E1), (Hh 18) as (? & E2), (Hw 20) as (? & E3), (Hw 24) as (? & E4), (Hw 28) as (? & E5), (Hw 32) as (? & E6), (Hw 36) as (? & E7); try lia.
  destruct (Hh 40) as (? & F1), (Hh 42) as (? & F2), (Hh 44) as (? & F3), (Hh 46) as (? & F4), (Hh 48) as (? & F5), (Hh 50) as (? & F6); try lia.
  rewrite E1; cbn [mbind outcome_bind]. rewrite E2; cbn [mbind outcome_bind]. rewrite E3; cbn [mbind outcome_bind]. rewrite E4; cbn [mbind outcome_bind].
  rewrite E5; cbn [mbind outcome_bind]. rewrite E6; cbn [mbind outcome_bind]. rewrite E7; cbn [mbind outcome_bind]. rewrite F1; cbn [mbind outcome_bind].
  rewrite F2; cbn [mbind outcome_bind]. rewrite F3; cbn [mbind outcome_bind]. rewrite F4; cbn [mbind outcome_bind]. rewrite F5; cbn [mbind outcome_bind].
  rewrite F6; cbn [mbind outcome_bind]. by eexists.
Qed.
Lemma decode_phdr_ok b : bytes b → length b = 32%nat → ∃ ph, decode_phdr b = Ret ph ∧ phdr_words ph.
Proof.
  intros Hb Hl. unfold decode_phdr. assert (∀ o, 0 ≤ o → o + 3 < 32 → ∃ v, le_word b o = Ret v ∧ 0 ≤ v < 2 ^ 32) as Hw by (intros o H1 H2; apply le_word_ok; (done || lia)).
  destruct (Hw 0) as (? & E0 & ?), (Hw 4) as (? & E1 & ?), (Hw 8) as (? & E2 & ?), (Hw 12) as (? & E3 & ?); try lia.
  destruct (Hw 16) as (? & E4 & ?), (Hw 20) as (? & E5 & ?), (Hw 24) as (? & E6 & ?), (Hw 28) as (? & E7 & ?); try lia.
  rewrite E0; cbn [mbind outcome_bind]. rewrite E1; cbn [mbind outcome_bind]. rewrite E2; cbn [mbind outcome_bind]. rewrite E3; cbn [mbind outcome_bind].
  rewrite E4; cbn [mbind outcome_bind]. rewrite E5; cbn [mbind outcome_bind]. rewrite E6; cbn [mbind outcome_bind]. rewrite E7; cbn [mbind outcome_bind].
  eexists. split; [done|]. unfold phdr_words. cbn [p_offset p_vaddr p_filesz p_memsz]. lia.
Qed.

(** The table after the entries of a segment. *)
Lemma lookup_entered (g : Z → spte) base m : (∀ j, vaddr (g j) = base + 4096 * j) → ∀ n : nat,
  let m' := foldl enter m (g <$> seqZ 0 (Z.of_nat n)) in
  (∀ j, 0 ≤ j < Z.of_nat n → m' !! (base + 4096 * j) = Some (g j)) ∧
  (∀ va, (∀ j, 0 ≤ j < Z.of_nat n → va ≠ base + 4096 * j) → m' !! va = m !! va).
Proof.
  intros Hg. induction n as [|n [IH1 IH2]]; [split; [lia|done]|].
  replace (Z.of_nat (S n)) with (Z.of_nat n + 1) by lia. rewrite seqZ_app, fmap_app, foldl_app by lia. simpl. unfold enter at 1 3. rewrite Hg. split.
  - intros j Hj. destruct (decide (j = Z.of_nat n)) as [->|]; [by rewrite lookup_insert_eq|]. rewrite lookup_insert_ne by lia. apply IH1. lia.
  - intros va Hva. rewrite lookup_insert_ne; [apply IH2; intros j Hj; apply Hva; lia|]. intros E. apply (Hva (Z.of_nat n)); lia.
Qed.

(** The memory that a segment asks for. *)
Definition image (sg : segment) (bytes : list Z) : list Z :=
  take (Z.to_nat (s_read sg)) (drop (Z.to_nat (s_file sg)) bytes) ++ replicate (Z.to_nat (s_zero sg)) 0.

Section LoadOk.
Context {D : Type} (ops : block_operations D) (ok : D → Prop) (size : Z).
Context (content : D → Z → list Z) `{!DriverOk ops ok size content}.
Hypothesis Hsize : 2 < size < 2 ^ 32 - 32.
Context (junk : list Z) (Hjunk : length junk = 20%nat).
Context (init_page_dir init_ram_pages : Z) (probe cur delimiters : Z) (la : load_allocs).
(** The heap is not exhausted. *)
Hypothesis Hmalloc : ∀ heap, ∃ e, l_entry la heap = Some e ∧ heap !! e = None ∧ e ≠ probe.

(** The table [sd] of the running thread holds the entries [m]. *)
Definition with_table (k : kernel D) (sd : supdir) : kernel D := Kernel (k_fs k) (set_supdir (k_vm k) cur sd) (k_mem k) (file_sema k).
Record table_ok (k : kernel D) (m : gmap Z spte) : Prop := {
  to_table : ∃ sd pd, threads (k_vm k) !! cur = Some (sd, pd) ∧ supdir_repr sd m ∧ sptes sd !! probe = None;
  to_device : fs_device (k_vm k) = device (k_fs k)
}.

(** The part of the state that filling the table does not touch. *)
Definition same_rest (k k' : kernel D) : Prop :=
  ∃ sd, k' = with_table k sd.

Lemma enter_page_ok k m va sec rb loc w : table_ok k m → Z.of_nat (base.size m) < 2 ^ 32 - 1 →
  ∃ sd, set_page probe cur la va sec rb loc w k = Ret (true, with_table k sd) ∧ table_ok (with_table k sd) (<[va := Spte w loc sec rb va]> m).
Proof.
  intros [(sd & pd & Hth & (pm & Hpm & Hm) & Hpr) Hdev] Hsz. destruct (Hmalloc (sptes sd)) as (e & He & Hfr & Hne).
  destruct (set_page_repr probe va sd pm m Hpm Hm Hpr Hsz sec rb loc w (Some e) (l_rehash la)) as (sd' & Hset & Hre & Hkeep);
    [by intros ? [= <-]|by eexists|].
  exists sd'. assert (k_vm (with_table k sd') = set_supdir (k_vm k) cur sd') as Ev by done. split.
  - unfold set_page, on_vm. rewrite (zoom_ok _ _ _ _ true (set_supdir (k_vm k) cur sd')).
    + unfold with_table. simpl. by rewrite Hdev, w_device_id.
    + rewrite (cstep _ _ _ (sd, pd) (k_vm k)) by (unfold thread_of, mbind, cmd_bind, get; by rewrite Hth). rewrite He.
      rewrite (cstep _ _ _ (true, sd') (k_vm k)) by (unfold lift; by rewrite Hset). by rewrite cmodify.
  - split; [|done]. exists sd', pd. split; [simpl; by rewrite lookup_alter_eq, Hth|]. split; [done|]. apply Hkeep; [done|congruence].
Qed.

Lemma with_table_twice k sd sd' : with_table (with_table k sd) sd' = with_table k sd'.
Proof.
  unfold with_table, set_supdir. simpl. do 2 f_equal. apply map_eq. intros t.
  destruct (decide (t = cur)) as [->|Ht]; [rewrite !lookup_alter_eq; by destruct (threads (k_vm k) !! cur)|by rewrite !lookup_alter_ne].
Qed.

Lemma same_rest_refl k m : table_ok k m → same_rest k k.
Proof.
  intros [(sd & pd & Hth & _) _]. exists sd. destruct k as [f [] ? ?]. unfold with_table, set_supdir. simpl in *. do 2 f_equal. symmetry. apply map_eq. intros t.
  destruct (decide (t = cur)) as [->|Ht]; [by rewrite lookup_alter_eq, Hth|by rewrite lookup_alter_ne].
Qed.
Lemma same_rest_trans k k' k'' : same_rest k k' → same_rest k' k'' → same_rest k k''.
Proof. intros [sd ->] [sd' ->]. exists sd'. apply with_table_twice. Qed.

Lemma on_fs_same {A} (c : cmd (fs D) A) k a : fs_device (k_vm k) = device (k_fs k) → c (k_fs k) = Ret (a, k_fs k) → on_fs c k = Ret (a, k).
Proof.
  intros Hd Hc. unfold on_fs. rewrite (zoom_ok _ _ _ _ _ _ Hc). rewrite <- Hd, set_devices_id. by destruct k.
Qed.

(** ** The pages of a segment *)

Section Segment.
Context (p : Z) (x : file) (i : inode).
Definition at_file (k : kernel D) : Prop := open_files (k_fs k) !! p = Some x ∧ inodes (k_fs k) !! f_inode x = Some i ∧ f_inode x ≠ 0.

(** One page. *)
Lemma page_step k m ofs upage rd w : table_ok k m → at_file k → Z.of_nat (base.size m) < 2 ^ 32 - 1 → 0 ≤ rd → s32 ofs = ofs →
  let prb := if rd <? PGSIZE then rd else PGSIZE in
  ∃ k', (if 0 <? prb then
      let* inode := on_fs (file_get_inode p) in
      let* _ := assert (negb (inode =? 0)) in
      let* i := on_fs (get_inode inode) in
      set_page probe cur la upage (byte_to_sector i ofs) prb FILE_SYS w
    else set_page probe cur la upage 0 0 ZERO_SYS w) k = Ret (true, k') ∧ same_rest k k' ∧
    table_ok k' (enter m (page_entry (data i) ofs upage rd w 0)).
Proof.
  intros Hk (Hx & Hi & Hnz) Hsz Hrd Eo prb.
  unfold enter, page_entry. rewrite Z.mul_0_r, !Z.add_0_r, Z.sub_0_r, Eo.
  assert (prb = Z.min 4096 rd) as Ep. { unfold prb. change PGSIZE with 4096. destruct (Z.ltb_spec rd 4096); lia. }
  clearbody prb. subst prb. cbv zeta. destruct (Z.ltb_spec 0 (Z.min 4096 rd)) as [Hr|Hr]; simpl vaddr.
  - destruct (enter_page_ok k m upage (byte_to_sector i ofs) (Z.min 4096 rd) FILE_SYS w Hk Hsz) as (sd & Hs & Ht).
    exists (with_table k sd). split; [|split; [by exists sd|done]]. destruct Hk as [_ Hd].
    rewrite (cstep _ _ _ (f_inode x) k) by (apply on_fs_same; [done|]; unfold file_get_inode; by rewrite (cstep _ _ _ x (k_fs k)) by (unfold get_file; by rewrite Hx)).
    rewrite (cstep _ _ _ () k) by (apply assert_ok; by destruct (Z.eqb_spec (f_inode x) 0)).
    by rewrite (cstep _ _ _ i k) by (apply on_fs_same; [done|]; unfold get_inode; by rewrite Hi).
  - destruct (enter_page_ok k m upage 0 0 ZERO_SYS w Hk Hsz) as (sd & Hs & Ht). exists (with_table k sd). split; [done|]. split; [by exists sd|done].
Qed.

Lemma segment_loop_ok n : ∀ fuel k m ofs upage rd zr w, table_ok k m → at_file k → Z.of_nat (base.size m) + Z.of_nat n < 2 ^ 32 - 1 →
  0 ≤ rd → 0 ≤ zr → rd + zr = 4096 * Z.of_nat n → (n < fuel)%nat → s32 ofs = ofs → 0 ≤ upage → upage + 4096 * Z.of_nat n ≤ PHYS_BASE →
  ∃ k', segment_loop probe cur la fuel p ofs upage rd zr w k = Ret ((), k') ∧ same_rest k k' ∧
    table_ok k' (foldl enter m (page_entry (data i) ofs upage rd w <$> seqZ 0 (Z.of_nat n))).
Proof.
  induction n as [|n IH]; intros fuel k m ofs upage rd zr w Hk Hf Hsz Hrd Hzr Htot Hfu Eo Hu Hend; (destruct fuel as [|fuel]; [lia|]); cbn [segment_loop].
  { assert (rd = 0) as -> by lia. assert (zr = 0) as -> by lia. exists k. split; [done|]. split; [by eapply same_rest_refl|done]. }
  assert ((0 <? rd) || (0 <? zr) = true) as -> by (destruct (Z.ltb_spec 0 rd), (Z.ltb_spec 0 zr); (done || lia)).
  destruct (page_step k m ofs upage rd w Hk Hf ltac:(lia) Hrd Eo) as (k1 & H1 & Hr1 & Hk1). rewrite (cstep _ _ _ true k1) by exact H1.
  assert ((if rd <? PGSIZE then rd else PGSIZE) = Z.min 4096 rd) as -> by (change PGSIZE with 4096; destruct (Z.ltb_spec rd 4096); lia).
  change PGSIZE with 4096. unfold PHYS_BASE in Hend. rewrite (u32_id (upage + 4096)), (u32_id (rd - _)), (u32_id (zr - _)) by lia.
  destruct (IH fuel k1 (enter m (page_entry (data i) ofs upage rd w 0)) (s32 (ofs + 4096)) (upage + 4096) (rd - Z.min 4096 rd) (zr - (4096 - Z.min 4096 rd)) w)
    as (k2 & H2 & Hr2 & Hk2); try (done || lia).
  - destruct Hr1 as [sd ->]. exact Hf.
  - pose proof (enter_size m (page_entry (data i) ofs upage rd w 0)). lia.
  - rewrite <- (Z.add_0_r (s32 (ofs + 4096))) at 1. rewrite s32_add. f_equal. lia.
  - unfold PHYS_BASE. lia.
  - exists k2. split; [done|]. split; [by eapply same_rest_trans|]. replace (Z.of_nat (S n)) with (1 + Z.of_nat n) by lia.
    rewrite seqZ_app, fmap_app by lia. cbn [foldl fmap list_fmap seqZ Z.to_nat]. rewrite foldl_app. simpl foldl.
    replace (page_entry (data i) ofs upage rd w <$> seqZ (0 + 1) (Z.of_nat n)) with (page_entry (data i) (s32 (ofs + 4096)) (upage + 4096) (rd - Z.min 4096 rd) w <$> seqZ 0 (Z.of_nat n)); [done|].
    rewrite <- (fmap_add_seqZ 1 0), <- list_fmap_compose. apply list_fmap_ext. intros q j Hj. apply lookup_seqZ in Hj as [-> ?]. simpl.
    rewrite (Z.add_comm 1). symmetry. apply page_entry_next. lia.
Qed.
End Segment.

(** ** Reading the file *)

(** The file [p] with the contents [bytes], at the sector [s], in a world
    that is [w] but for the position of [p]. *)
Context (G : gmap Z inode_disk) (w : world) (p s : Z) (dn : bool) (bytes : list Z) (d : inode_disk).
Context (Hbytes : w_data w !! s = Some bytes) (Hd : G !! s = Some d).
Definition at_pos (pos : Z) : world := World (w_names w) (w_data w) (<[p := Handle s pos dn]> (w_handles w)).
Record reading (pos : Z) (m : gmap Z spte) (k : kernel D) : Prop := {
  rd_table : table_ok k m;
  rd_world : represents ok size content G (at_pos pos) (k_fs k)
}.
(** Nothing but the table and the position changes. *)
Definition same_vm (k k' : kernel D) : Prop :=
  (∀ t, t ≠ cur → threads (k_vm k') !! t = threads (k_vm k) !! t) ∧ snd <$> threads (k_vm k') !! cur = snd <$> threads (k_vm k) !! cur ∧
  mach (k_vm k') = mach (k_vm k) ∧ frames (k_vm k') = frames (k_vm k) ∧ swap_area (k_vm k') = swap_area (k_vm k) ∧
  ft (k_vm k') = ft (k_vm k) ∧ fts (k_vm k') = fts (k_vm k) ∧ k_mem k' = k_mem k ∧ file_sema k' = file_sema k.

Lemma same_rest_vm k k' : same_rest k k' → same_vm k k'.
Proof.
  intros [sd ->]. split; [intros t Ht; simpl; by rewrite lookup_alter_ne|]. split; [|done]. simpl. rewrite lookup_alter_eq. by destruct (threads (k_vm k) !! cur).
Qed.
Lemma same_vm_trans k k' k'' : same_vm k k' → same_vm k' k'' → same_vm k k''.
Proof.
  intros (H1 & H2 & H3 & H4 & H5 & H6 & H7 & H8 & H9) (I1 & I2 & I3 & I4 & I5 & I6 & I7 & I8 & I9).
  split; [intros t Ht; by rewrite I1, H1|]. by rewrite I2, I3, I4, I5, I6, I7, I8, I9.
Qed.

(** A call on the file. *)
Lemma fs_step {A} (c : cmd (fs D) A) a f' pos pos' m k : reading pos m k → c (k_fs k) = Ret (a, f') → represents ok size content G (at_pos pos') f' →
  ∃ k', on_fs c k = Ret (a, k') ∧ reading pos' m k' ∧ same_vm k k' ∧ k_fs k' = f'.
Proof.
  intros [[(sd & pd & Hth & Ht) Hdev] Hre] Hc Hre'. eexists. split; [unfold on_fs; by rewrite (zoom_ok _ _ _ _ _ _ Hc)|].
  split; [|by split]. split; [|done]. split; [|done]. by exists sd, pd.
Qed.

Lemma at_pos_handle pos : w_handles (at_pos pos) !! p = Some (Handle s pos dn).
Proof. apply lookup_insert_eq. Qed.
Lemma at_pos_again pos pos' : World (w_names (at_pos pos)) (w_data (at_pos pos)) (<[p := Handle s pos' dn]> (w_handles (at_pos pos))) = at_pos pos'.
Proof. unfold at_pos. simpl. by rewrite insert_insert_eq. Qed.

#[local] Ltac same_handle :=
  match goal with H : w_handles (at_pos ?q) !! p = Some (Handle ?a ?b ?c) |- _ =>
    assert (a = s ∧ b = q ∧ c = dn) as (-> & -> & ->) by (rewrite at_pos_handle in H; by injection H as <- <- <-); clear H end.
#[local] Ltac same_bytes :=
  match goal with H : w_data (at_pos _) !! _ = Some ?b |- _ => assert (b = bytes) as -> by (simpl in H; congruence); clear H end.

Lemma length_step pos m k : reading pos m k → ∃ k', on_fs (file_length p) k = Ret (zlength bytes, k') ∧ reading pos m k' ∧ same_vm k k'.
Proof.
  intros Hr. pose proof (rd_world _ _ _ Hr) as Hre.
  destruct (tell_refined ops ok size content junk Hjunk G (at_pos pos) (k_fs k) Hre p) as [_ (v & f' & w' & He & Hs & Hre')]; [by rewrite at_pos_handle|].
  inversion Hs; subst. same_handle.
  same_bytes.
  unfold exec in He. apply cmd_bind_Ret in He as (n & f1 & Hl & He). injection He as -> ->.
  destruct (fs_step _ _ _ pos pos m k Hr Hl Hre') as (k' & ? & ? & ? & _). by exists k'.
Qed.

Lemma seek_step pos new m k : reading pos m k → 0 ≤ new < 2 ^ 31 → ∃ k', on_fs (file_seek p new) k = Ret ((), k') ∧ reading new m k' ∧ same_vm k k'.
Proof.
  intros Hr Hn. pose proof (rd_world _ _ _ Hr) as Hre.
  destruct (seek_refined ops ok size content Hsize junk Hjunk G (at_pos pos) (k_fs k) Hre p new) as (v & f' & w' & He & Hs & Hre'); [by rewrite at_pos_handle|done|].
  inversion Hs; subst. same_handle.
  rewrite at_pos_again in Hre'. unfold exec in He. apply cmd_bind_Ret in He as ([] & f1 & Hl & He). injection He as ->.
  destruct (fs_step _ _ _ pos new m k Hr Hl Hre') as (k' & ? & ? & ? & _). by exists k'.
Qed.

Lemma file_read_step pos sz buffer m k : reading pos m k → sz ≤ zlength buffer →
  let n := avail (zlength bytes) sz pos in
  ∃ k', on_fs (file_read ops p buffer sz) k = Ret ((n, take (Z.to_nat n) (drop (Z.to_nat pos) bytes) ++ drop (Z.to_nat n) buffer), k') ∧
    reading (pos + n) m k' ∧ same_vm k k'.
Proof.
  intros Hr Hb n. pose proof (rd_world _ _ _ Hr) as Hre.
  destruct (read_refined ops ok size content Hsize junk Hjunk G (at_pos pos) (k_fs k) Hre p buffer sz) as (v & f' & w' & He & Hs & Hre'); [by rewrite at_pos_handle|done|].
  inversion Hs; subst. same_handle.
  same_bytes.
  rewrite at_pos_again in Hre'. unfold exec in He. apply cmd_bind_Ret in He as ([n' b'] & f1 & Hl & He). injection He as -> -> ->.
  destruct (fs_step _ _ _ pos _ m k Hr Hl Hre') as (k' & ? & ? & ? & _). by exists k'.
Qed.

(** The inode of the file in memory. *)
Lemma reading_inode pos m k : reading pos m k → ∃ x i, at_file p x i k ∧ data i = d.
Proof.
  intros Hr. pose proof (rd_world _ _ _ Hr) as Hre. pose proof (vl_ok _ _ _ _ _ _ _ (re_volume _ _ _ _ _ _ Hre)) as Hf.
  destruct (handle_file ok size content junk Hjunk G (at_pos pos) (k_fs k) p _ Hre (at_pos_handle pos)) as (x & i & b & Hne & Hx & Hi & E & Hu & Hg & _).
  exists x, i. injection E as Es _ _. rewrite <- Es, Hd in Hg. injection Hg as ->. split; [|done]. split; [done|]. split; [done|].
  destruct Hf as [_ Ho]. intros E. destruct (op_null _ _ _ Ho). congruence.
Qed.

Lemma file_small pos m k : reading pos m k → zlength bytes < 2 ^ 31.
Proof.
  intros Hr. pose proof (rd_world _ _ _ Hr) as Hre. pose proof (vl_ok _ _ _ _ _ _ _ (re_volume _ _ _ _ _ _ Hre)) as [Hb _].
  pose proof (dk_extent _ _ _ _ _ _ (fo_disk _ _ _ _ _ Hb) _ _ Hd) as [Hl _ _].
  destruct (handle_file ok size content junk Hjunk G (at_pos pos) (k_fs k) p _ Hre (at_pos_handle pos)) as (x & i & b & _ & _ & _ & E & _ & Hg & Hdat & _ & Hlen).
  injection E as Es _ _. rewrite <- Es in *. simpl in Hdat. assert (b = bytes) as -> by congruence. assert (data i = d) as E by congruence. rewrite E in Hlen. lia.
Qed.

(** ** A segment *)

Definition pages_of (sg : segment) : Z := (s_read sg + s_zero sg) / 4096.

Lemma load_segment_ok sg pos m k : segment_ok sg (zlength bytes) → reading pos m k → Z.of_nat (base.size m) + pages_of sg < 2 ^ 32 - 1 →
  ∃ k', load_segment probe cur la p (s32 (s_file sg)) (s_mem sg) (s_read sg) (s_zero sg) (s_writable sg) k = Ret (true, k') ∧
    reading (s_file sg) (enter_segment d sg m) k' ∧ same_vm k k'.
Proof.
  intros [Hf Hin Hm Hr Hz Hp Hne H0 Hu] Hk Hsz. pose proof (file_small pos m k Hk) as Hsm. unfold PHYS_BASE in Hu. unfold load_segment.
  rewrite (s32_id (s_file sg)) by lia. rewrite (u32_id (s_read sg + s_zero sg)) by lia. change PGSIZE with 4096.
  rewrite (cstep _ _ _ () k) by (apply assert_ok; by rewrite Hp). rewrite (cstep _ _ _ () k) by (apply assert_ok; by rewrite pg_ofs_mod, Hm).
  rewrite (cstep _ _ _ () k) by (apply assert_ok; by rewrite Z.rem_mod_nonneg, Hf by lia).
  destruct (seek_step pos (s_file sg) m k Hk ltac:(lia)) as (k1 & E1 & Hk1 & Hv1). rewrite (cstep _ _ _ _ _ E1).
  destruct (reading_inode _ _ _ Hk1) as (x & i & Hfile & Ei). pose proof (rd_table _ _ _ Hk1) as Ht1.
  assert (s_read sg + s_zero sg = 4096 * Z.of_nat (Z.to_nat (pages_of sg))) as En by (unfold pages_of; div_lia).
  destruct (segment_loop_ok p x i (Z.to_nat (pages_of sg)) (S (Z.to_nat (pages_of sg))) k1 m (s_file sg) (s_mem sg) (s_read sg) (s_zero sg) (s_writable sg))
    as (k2 & E2 & Hr2 & Ht2); try (done || unfold PHYS_BASE; lia); [apply s32_id; lia|].
  unfold pages_of in E2. rewrite (cstep _ _ _ _ _ E2). exists k2. split; [done|]. split; [|eapply same_vm_trans; [done|by apply same_rest_vm]].
  assert (k_fs k2 = k_fs k1) as Ef by (by destruct Hr2 as [sd ->]). split; [|by rewrite Ef; apply Hk1].
  rewrite Ei in Ht2. unfold enter_segment. fold (pages_of sg). by rewrite Z2Nat.id in Ht2 by lia.
Qed.

(** ** The contents of the pages *)

Lemma stored_fdata b st q n : block_ok ok size b → 0 ≤ st → 0 ≤ q → st + q + Z.of_nat n ≤ size →
  stored content b (st + q) n = fdata content b st (512 * q) (512 * Z.of_nat n).
Proof.
  intros Hb Hst Hq. induction n as [|n IH]; intros Hn; [done|]. cbn [stored]. rewrite IH by lia.
  replace (512 * Z.of_nat (S n)) with (512 * Z.of_nat n + 512) by lia. rewrite fdata_app by lia. f_equal.
  pose proof (sector_chunk ops ok size content b st (q + Z.of_nat n) 0 512 Hb ltac:(lia) ltac:(lia) ltac:(lia) ltac:(lia) ltac:(lia)) as E.
  rewrite take_ge in E by (rewrite length_drop, (block_sector ops ok size content) by (done || lia); lia).
  replace (st + (q + Z.of_nat n)) with (st + q + Z.of_nat n) in E by lia. replace (512 * (q + Z.of_nat n) + 0) with (512 * q + 512 * Z.of_nat n) in E by lia. done.
Qed.

(** A page of the file: where it is, and what is there. *)
Lemma file_page_contents pos m k o r wr va sw : reading pos m k → 0 ≤ o → o mod 4096 = 0 → 0 < r ≤ 4096 → o + r ≤ zlength bytes →
  let e := Spte wr FILE_SYS (sector_of d o) r va in
  spte_ok size e ∧ page_contents content e (device (k_fs k)) sw = take (Z.to_nat r) (drop (Z.to_nat o) bytes) ++ replicate (Z.to_nat (4096 - r)) 0.
Proof.
  intros Hr Ho Hmod Hr4 Hend e. pose proof (rd_world _ _ _ Hr) as Hre. pose proof (vl_ok _ _ _ _ _ _ _ (re_volume _ _ _ _ _ _ Hre)) as [Hb _].
  pose proof (dk_extent _ _ _ _ _ _ (fo_disk _ _ _ _ _ Hb) _ _ Hd) as [Hl Hst Hex]. pose proof (dk_block _ _ _ _ _ _ (fo_disk _ _ _ _ _ Hb)) as Hblk.
  assert (user s) as Hu. { destruct (decide (user s)) as [|Hn]; [done|]. pose proof (re_system _ _ _ _ _ _ Hre s Hn) as E. simpl in E. congruence. }
  pose proof (re_data _ _ _ _ _ _ Hre s Hu) as Edat. simpl in Edat. rewrite Hbytes, Hd in Edat. simpl in Edat. injection Edat as Edat.
  assert (zlength bytes = d_length d) as Hlen by (rewrite Edat, fdata_length; lia). pose proof (sectors_le (d_length d) ltac:(lia)) as Hsec.
  assert (o / 512 + Page.file_sectors r ≤ sectors (d_length d)) as Hfit by (unfold Page.file_sectors, sectors in *; div_lia).
  assert (0 ≤ Page.file_sectors r) as Hf0 by (unfold Page.file_sectors; div_lia).
  assert (0 ≤ o / 512) as Hq0 by (apply Z.div_pos; lia).
  assert (sector_of d o = start d + o / 512) as Es.
  { unfold sector_of. destruct (Z.ltb_spec o (d_length d)); [|lia]. unfold BLOCK_SECTOR_SIZE. rewrite Z.quot_div_nonneg by lia. rewrite (u32_id (o / 512)) by lia. apply u32_id. lia. }
  split.
  - split; simpl; [rewrite Es; lia|]. left. rewrite Es. split; [done|]. lia.
  - unfold page_contents. simpl. rewrite Es. f_equal. rewrite (stored_fdata (device (k_fs k)) (start d) (o / 512)) by (done || lia).
    replace (512 * (o / 512)) with o by div_lia. rewrite Edat. rewrite <- (fdata_sub content junk Hjunk (device (k_fs k)) (start d) (d_length d) o r) by lia.
    replace (512 * Z.of_nat (Z.to_nat (Page.file_sectors r))) with (r + (512 * Page.file_sectors r - r)) by lia.
    rewrite fdata_app by (unfold Page.file_sectors in *; div_lia). by rewrite take_app_length' by (rewrite fdata_length; lia).
Qed.

(** ** The program headers *)

Hypothesis Hby : Block.bytes bytes.

Lemma segment_size sg m : segment_ok sg (zlength bytes) → pages_of sg < 786432 ∧ Z.of_nat (base.size (enter_segment d sg m)) ≤ Z.of_nat (base.size m) + pages_of sg.
Proof.
  intros [_ _ _ Hr Hz _ _ H0 Hu]. unfold PHYS_BASE in Hu. unfold pages_of. split; [div_lia|]. unfold enter_segment.
  pose proof (foldl_enter_size (page_entry d (s_file sg) (s_mem sg) (s_read sg) (s_writable sg) <$> seqZ 0 ((s_read sg + s_zero sg) / 4096)) m) as H.
  rewrite length_fmap, length_seqZ in H. pose proof (Z.div_pos (s_read sg + s_zero sg) 4096). lia.
Qed.

Lemma load_headers_ok n : ∀ ofs pos m k, reading pos m k → s32 ofs = ofs → Z.of_nat (base.size m) + 786432 * Z.of_nat n < 2 ^ 32 - 1 →
  ∃ pos' m' k', load_headers ops probe cur la n p ofs k = Ret (bool_decide (is_Some (plan bytes n ofs)), k') ∧ reading pos' m' k' ∧ same_vm k k' ∧
    Z.of_nat (base.size m') ≤ Z.of_nat (base.size m) + 786432 * Z.of_nat n ∧ ∀ sgs, plan bytes n ofs = Some sgs → m' = enter_segments d sgs m.
Proof.
  induction n as [|n IH]; intros ofs pos m k Hk Eo Hsz; cbn [load_headers plan].
  { exists pos, m, k. split; [done|]. split; [done|]. split; [by split|]. split; [lia|]. by intros sgs [= <-]. }
  pose proof (file_small pos m k Hk) as Hsm. destruct (length_step pos m k Hk) as (k1 & E1 & Hk1 & Hv1). rewrite (cstep _ _ _ _ _ E1).
  unfold sizeof_phdr. destruct (Z.ltb_spec ofs 0) as [Hneg|Hneg]; cbn [orb].
  { exists pos, m, k1. split; [done|]. split; [done|]. split; [done|]. split; [lia|done]. }
  destruct (Z.ltb_spec (zlength bytes) ofs) as [Hbig|Hbig].
  { destruct (Z.ltb_spec (zlength bytes) (ofs + 32)); [|lia]. exists pos, m, k1. split; [done|]. split; [done|]. split; [done|]. split; [lia|done]. }
  destruct (seek_step pos ofs m k1 Hk1 ltac:(lia)) as (k2 & E2 & Hk2 & Hv2). rewrite (cstep _ _ _ _ _ E2).
  destruct (file_read_step ofs 32 (replicate 32 0) m k2 Hk2 ltac:(done)) as (k3 & E3 & Hk3 & Hv3). rewrite (cstep _ _ _ _ _ E3). cbn iota beta.
  assert (same_vm k k3) as Hv by (do 2 (eapply same_vm_trans; [done|]); done).
  destruct (Z.ltb_spec (zlength bytes) (ofs + 32)) as [Hsh|Hsh].
  { destruct (Z.eqb_spec (avail (zlength bytes) 32 ofs) 32) as [Ea|_]; [unfold avail in Ea; lia|]. cbn [negb].
    eexists _, m, k3. split; [done|]. split; [done|]. split; [done|]. split; [lia|done]. }
  assert (avail (zlength bytes) 32 ofs = 32) as Ea by (unfold avail; lia). rewrite Ea in *. cbn [Z.eqb Pos.eqb negb].
  change (drop (Z.to_nat 32) (replicate 32 0)) with (@nil Z). rewrite app_nil_r. change (Z.to_nat 32) with 32%nat.
  set (b := take 32 (drop (Z.to_nat ofs) bytes)). destruct (decode_phdr_ok b) as (ph & Hph & Hw).
  { apply Forall_take, Forall_drop, Hby. }
  { unfold b. rewrite length_take, length_drop. lia. }
  rewrite Hph. rewrite (cstep _ _ _ ph k3) by done. rewrite s32_id by lia.
  destruct ((p_type ph =? PT_DYNAMIC) || (p_type ph =? PT_INTERP) || (p_type ph =? PT_SHLIB)).
  { eexists _, m, k3. split; [done|]. split; [done|]. split; [done|]. split; [lia|done]. }
  assert (s32 (ofs + 32) = ofs + 32) as Eo' by (apply s32_id; lia).
  destruct (p_type ph =? PT_LOAD).
  2:{ destruct (IH (ofs + 32) _ m k3 Hk3 Eo' ltac:(lia)) as (pos' & m' & k' & E4 & Hk4 & Hv4 & Hs4 & Hp4).
      exists pos', m', k'. split; [done|]. split; [done|]. split; [by eapply same_vm_trans|]. split; [lia|done]. }
  destruct (length_step _ m k3 Hk3) as (k4 & E4 & Hk4 & Hv4). unfold validate_segment.
  rewrite (cstep _ _ _ (segment_valid ph (zlength bytes)) k4) by (by rewrite (cstep _ _ _ _ _ E4)).
  destruct (segment_valid ph (zlength bytes)) eqn:Hval.
  2:{ eexists _, m, k4. split; [done|]. split; [done|]. split; [by eapply same_vm_trans|]. split; [lia|done]. }
  pose proof (segment_valid_ok ph (zlength bytes) Hw ltac:(lia) Hval) as Hsg. destruct (segment_size _ m Hsg) as [Hpg Hsz'].
  destruct (load_segment_ok (segment_of ph) _ m k4 Hsg Hk4 ltac:(lia)) as (k5 & E5 & Hk5 & Hv5). rewrite (cstep _ _ _ _ _ E5).
  destruct (IH (ofs + 32) _ _ k5 Hk5 Eo' ltac:(lia)) as (pos' & m' & k' & E6 & Hk6 & Hv6 & Hs6 & Hp6).
  exists pos', m', k'. rewrite E6. split; [by destruct (plan bytes n (ofs + 32))|]. split; [done|].
  split; [do 2 (eapply same_vm_trans; [done|]); by eapply same_vm_trans|]. split; [lia|].
  intros sgs Hsgs. destruct (plan bytes n (ofs + 32)) as [l|] eqn:Hl; [|done]. injection Hsgs as <-. by rewrite (Hp6 l eq_refl).
Qed.

(** ** The stack *)

Notation base := (PHYS_BASE - PGSIZE).

(** What the stack page takes: a frame, an entry of the frame table and a page
    table; [pd] is the directory of the process. *)
Record stack_frame (v : vm D) (pd fr en : Z) : Prop := {
  sf_page : a_page (l_stack la) = Some fr;
  sf_entry : a_entry (l_stack la) = Some en;
  sf_fresh : fts v !! en = None;
  sf_ft : ft_ok (fts v) (ft v);
  sf_count : elem_cnt (ft v) < 2 ^ 32 - 2;
  sf_swap : swap_ok ok size (swap_area v);
  sf_pd : pd_wf (pages (mach v)) pd;
  sf_init : pd ≠ init_page_dir;
  sf_frame : kernel_page fr;
  sf_ram : (fr - PHYS_BASE) / 4096 < init_ram_pages;
  sf_absent : has (pte_of (pages (mach v)) pd base) PTE_P = false;
  sf_table : ∃ t, a_table (l_stack la) = Some t ∧ fresh_page (pages (mach v)) pd t
}.

Definition stack_entry : spte := Spte true ZERO_SYS 0 0 base.

Lemma zero_contents fs sw (frame : list Z) : length frame = 4096%nat → load_contents ops stack_entry fs sw frame = Ret (replicate 4096 0, fs, sw).
Proof.
  intros Hl. unfold load_contents. change (location stack_entry) with 0. cbn [FILE_SYS SWAP_SYS Z.eqb]. cbn [mbind outcome_bind].
  pose proof (zero_fill frame 0 Hl ltac:(lia)) as E. change (read_bytes stack_entry) with 0. rewrite E. done.
Qed.

(** The frame of the stack, mapped and zero. *)
Lemma stack_page_ok pos m k pd fr en : reading pos m k → Z.of_nat (base.size m) < 2 ^ 32 - 1 → snd <$> threads (k_vm k) !! cur = Some pd → stack_frame (k_vm k) pd fr en →
  ∃ k1 k2 k', set_page probe cur la base 0 0 ZERO_SYS true k = Ret (true, k1) ∧ on_vm (get_user_page cur base (l_stack la)) k1 = Ret (Some fr, k2) ∧
    on_vm (load_page ops init_page_dir init_ram_pages probe cur base fr (l_stack la)) k2 = Ret (true, k') ∧
    reading pos (<[base := stack_entry]> m) k' ∧ frames (k_vm k') !! fr = Some (replicate 4096 0) ∧ k_mem k' = k_mem k ∧ file_sema k' = file_sema k ∧
    snd <$> threads (k_vm k') !! cur = Some pd ∧
    entry_becomes (mach (k_vm k)) pd (pages (mach (k_vm k'))) base (Z.lor (fr - PHYS_BASE) (user_flags true)).
Proof.
  intros Hk Hsz Hpd Hsf. destruct (enter_page_ok k m base 0 0 ZERO_SYS true (rd_table _ _ _ Hk) Hsz) as (sd & E1 & Ht1). set (k1 := with_table k sd) in *.
  destruct Ht1 as [(sd1 & pd1 & Hth1 & Hrepr & Hpr) Hdev1].
  assert (pd1 = pd ∧ sd1 = sd) as [-> ->].
  { unfold k1 in Hth1. simpl in Hth1. rewrite lookup_alter_eq in Hth1. destruct (threads (k_vm k) !! cur) as [[]|]; simpl in *; [|done]. by simplify_eq. }
  destruct (get_user_page_ok cur base (l_stack la) fr en (k_vm k1)) as (h & E2 & Hft2); try apply Hsf.
  set (v2 := set_ft (set_frames (k_vm k1) (<[fr := replicate 4096 0]> (frames (k_vm k1)))) h (<[en := Ft cur base 1]> (fts (k_vm k1)))) in *.
  pose proof (rd_world _ _ _ Hk) as Hre. pose proof (vl_ok _ _ _ _ _ _ _ (re_volume _ _ _ _ _ _ Hre)) as [Hb _].
  assert (pageable init_page_dir init_ram_pages probe cur ok size v2 sd pd base stack_entry fr (l_stack la)) as Hpg.
  { destruct Hrepr as (pm & Hpm & Hm). split; [exact Hth1| | | | |apply Hsf|apply Hsf|apply Hsf|done|done|apply Hsf|apply Hsf|apply Hsf|apply Hsf].
    - exists (default 0 (pm !! base)). rewrite (lookup_sup_page_ok probe sd pm Hpm Hpr). pose proof (Hm base) as E. rewrite lookup_insert_eq in E.
      destruct (pm !! base) as [q|]; [|done]. simpl in *. done.
    - split; simpl; [lia|]. right; right. done.
    - unfold SIZE_MAX. lia.
    - change (fs_device v2) with (fs_device (k_vm k1)). rewrite Hdev1. apply (dk_block _ _ _ _ _ _ (fo_disk _ _ _ _ _ Hb)). }
  destruct (load_page_step ops init_page_dir init_ram_pages probe cur ok size v2 sd pd base stack_entry fr (l_stack la) (replicate 4096 0)
    (replicate 4096 0) (fs_device v2) (swap_area v2) Hpg) as (m' & E3 & Hbec); [apply lookup_insert_eq|by apply zero_contents|].
  assert (on_vm (get_user_page cur base (l_stack la)) k1 = Ret (Some fr, Kernel (k_fs k1) v2 (k_mem k1) (file_sema k1))) as E2'.
  { unfold on_vm. rewrite (zoom_ok _ _ _ _ _ _ E2). change (fs_device v2) with (fs_device (k_vm k1)). by rewrite Hdev1, w_device_id. }
  set (k2 := Kernel (k_fs k1) v2 (k_mem k1) (file_sema k1)) in *. set (v3 := Vm _ _ _ _ _ _ _) in E3.
  assert (on_vm (load_page ops init_page_dir init_ram_pages probe cur base fr (l_stack la)) k2 = Ret (true, Kernel (k_fs k1) v3 (k_mem k1) (file_sema k1))) as E3'.
  { unfold on_vm. rewrite (zoom_ok k_vm _ _ k2 true v3 E3). change (fs_device v3) with (fs_device (k_vm k1)). cbn [k_fs k2]. by rewrite Hdev1, w_device_id. }
  exists k1, k2, (Kernel (k_fs k1) v3 (k_mem k1) (file_sema k1)). split; [done|]. split; [done|]. split; [done|].
  split; [split; [split; [by exists sd, pd|done]|done]|]. split; [apply lookup_insert_eq|]. split; [done|]. split; [done|]. split; [|exact Hbec].
  change (snd <$> threads (k_vm k1) !! cur = Some pd). by rewrite Hth1.
Qed.

Lemma setup_stack_ok pos m k pd fr en pg c text : reading pos m k → Z.of_nat (base.size m) < 2 ^ 32 - 1 → snd <$> threads (k_vm k) !! cur = Some pd →
  stack_frame (k_vm k) pd fr en → l_page la = Some pg → stack_ready (write (k_mem k) base (replicate 4096 0)) pg delimiters c text →
  ∃ esp page k', setup_stack ops init_page_dir init_ram_pages probe cur delimiters la c k = Ret (Some esp, k') ∧
    reading pos (<[base := stack_entry]> m) k' ∧ snd <$> threads (k_vm k') !! cur = Some pd ∧
    frames (k_vm k') !! fr = Some page ∧ length page = 4096%nat ∧ stack_layout (write (k_mem k') base page) esp (arguments text) ∧
    entry_becomes (mach (k_vm k)) pd (pages (mach (k_vm k'))) base (Z.lor (fr - PHYS_BASE) (user_flags true)) ∧
    file_sema k' = file_sema k ∧ ∀ a, ¬ (pg ≤ a < pg + PGSIZE) → ¬ (base ≤ a < PHYS_BASE) → k_mem k' !! a = k_mem k !! a.
Proof.
  intros Hk Hsz Hpd Hsf Hpg Hsr. destruct (stack_page_ok pos m k pd fr en Hk Hsz Hpd Hsf) as (ka & kb & k1 & Ea & Eb & Ec & Hk1 & Hfr & Em & Es & Hpd1 & Hbec).
  destruct (parse_push_ok _ pg delimiters c text Hsr) as (fn & esp & m' & E2 & Hlay & Hout). rewrite <- Em in E2, Hout.
  set (page := (λ i, default 0 (m' !! (base + i))) <$> seqZ 0 PGSIZE).
  set (m2 := filter (λ '(q, _), ¬ (base ≤ q < PHYS_BASE)) m').
  set (k2 := Kernel (k_fs k1) (set_frames (k_vm k1) (<[fr := page]> (frames (k_vm k1)))) m2 (file_sema k1)).
  assert (on_stack fr (parse_push (l_page la) delimiters c PHYS_BASE) k1 = Ret ((fn, esp), k2)) as E3.
  { unfold on_stack. rewrite Hfr. cbn [access mbind outcome_bind]. rewrite Hpg, E2. done. }
  assert (length page = 4096%nat) as Hpl by (unfold page; by rewrite length_fmap, length_seqZ).
  exists esp, page, k2. split.
  { unfold setup_stack. cbv zeta. rewrite (cstep _ _ _ _ _ Ea), (cstep _ _ _ _ _ Eb). rewrite (cstep _ _ _ (Some fr) kb) by done.
    rewrite (cstep _ _ _ fr kb) by done. by rewrite (cstep _ _ _ _ _ Ec), (cstep _ _ _ _ _ E3). }
  split; [split; [split; apply Hk1|apply Hk1]|]. split; [exact Hpd1|]. split; [apply lookup_insert_eq|]. split; [exact Hpl|]. split; [|split; [exact Hbec|split; [done|]]].
  - apply (layout_agree m'); [done|]. intros a b Ha Hab. rewrite write_lookup, Hpl, decide_True by (change PGSIZE with 4096 in *; lia).
    unfold page. rewrite list_lookup_fmap, lookup_seqZ_lt by (change PGSIZE with 4096 in *; lia). simpl. replace (base + (0 + Z.of_nat (Z.to_nat (a - base)))) with a by lia. by rewrite Hab.
  - intros a H1 H2. simpl. unfold m2. rewrite map_lookup_filter. rewrite Hout by done. rewrite write_other by (rewrite length_replicate; change PGSIZE with 4096 in *; lia).
    rewrite Em. destruct (k_mem k !! a); simpl; [|done]. by rewrite option_guard_True.
Qed.

(** ** The image *)

(** What [load_image] leaves behind when it succeeds. *)
Record loaded (k k' : kernel D) (pd fr pg : Z) (m : gmap Z spte) (esp : Z) (args : list (list Z)) : Prop := {
  ld_reading : ∃ pos, reading pos m k';
  ld_pd : snd <$> threads (k_vm k') !! cur = Some pd;
  ld_stack : ∃ page, frames (k_vm k') !! fr = Some page ∧ length page = 4096%nat ∧ stack_layout (write (k_mem k') base page) esp args;
  ld_mapped : entry_becomes (mach (k_vm k)) pd (pages (mach (k_vm k'))) base (Z.lor (fr - PHYS_BASE) (user_flags true));
  ld_sema : file_sema k' = file_sema k;
  ld_mem a : ¬ (pg ≤ a < pg + PGSIZE) → ¬ (base ≤ a < PHYS_BASE) → k_mem k' !! a = k_mem k !! a
}.

Lemma load_image_ok k pd fr en pg c text : reading 0 ∅ k → snd <$> threads (k_vm k) !! cur = Some pd → stack_frame (k_vm k) pd fr en → l_page la = Some pg →
  stack_ready (write (k_mem k) base (replicate 4096 0)) pg delimiters c text →
  match elf_plan bytes with
  | None => ∃ pos m k', load_image ops init_page_dir init_ram_pages probe cur delimiters la p c k = Ret (None, k') ∧ reading pos m k' ∧ same_vm k k'
  | Some (entry, sgs) => ∃ esp k', load_image ops init_page_dir init_ram_pages probe cur delimiters la p c k = Ret (Some (entry, esp), k') ∧
      loaded k k' pd fr pg (<[base := stack_entry]> (enter_segments d sgs ∅)) esp (arguments text)
  end.
Proof.
  intros Hk Hpd Hsf Hpg Hsr. unfold load_image, elf_plan, sizeof_ehdr.
  destruct (file_read_step 0 52 (replicate 52 0) ∅ k Hk ltac:(done)) as (k1 & E1 & Hk1 & Hv1). rewrite (cstep _ _ _ _ _ E1). cbn iota beta.
  destruct (Z.ltb_spec (zlength bytes) 52) as [Hsh|Hlen].
  { destruct (Z.eqb_spec (avail (zlength bytes) 52 0) 52) as [Ea|_]; [unfold avail in Ea; lia|]. eexists _, ∅, k1. done. }
  assert (avail (zlength bytes) 52 0 = 52) as Ea by (unfold avail; lia). rewrite Ea in *. cbn [Z.eqb Pos.eqb negb].
  change (drop (Z.to_nat 52) (replicate 52 0)) with (@nil Z). rewrite app_nil_r. change (Z.to_nat 0) with 0%nat. rewrite drop_0. change (Z.to_nat 52) with 52%nat.
  destruct (decode_ehdr_ok (take 52 bytes)) as (h & Hh); [apply Forall_take, Hby|rewrite length_take; lia|]. rewrite Hh. rewrite (cstep _ _ _ h k1) by done.
  destruct (ehdr_ok h) eqn:Hok; cbn [negb]; [|by eexists _, ∅, k1].
  assert (e_phnum h ≤ 1024) as Hn. { unfold ehdr_ok in Hok. bool_prop. lia. }
  destruct (load_headers_ok (Z.to_nat (e_phnum h)) (s32 (e_phoff h)) _ ∅ k1 Hk1) as (pos & m & k2 & E2 & Hk2 & Hv2 & Hs2 & Hp2).
  { rewrite <- (Z.add_0_r (s32 (e_phoff h))) at 1. rewrite s32_add. f_equal. lia. }
  { rewrite map_size_empty. lia. }
  rewrite (cstep _ _ _ _ _ E2). assert (same_vm k k2) as Hv by by eapply same_vm_trans. rewrite map_size_empty in Hs2.
  destruct (plan bytes (Z.to_nat (e_phnum h)) (s32 (e_phoff h))) as [sgs|]; simpl; [|by eexists pos, m, k2].
  destruct Hv as (_ & V2 & V3 & _ & V5 & V6 & V7 & V8 & V9). rewrite (Hp2 sgs eq_refl) in *.
  destruct (setup_stack_ok pos (enter_segments d sgs ∅) k2 pd fr en pg c text) as (esp & page & k3 & E3 & Hk3 & Hpd3 & Hfr & Hpl & Hlay & Hbec & Hsem & Hmem).
  { exact Hk2. }
  { lia. }
  { by rewrite V2. }
  { destruct Hsf. split; rewrite ?V3, ?V5, ?V6, ?V7; assumption. }
  { exact Hpg. }
  { rewrite V8. exact Hsr. }
  rewrite (cstep _ _ _ _ _ E3). exists esp, k3. split; [done|]. split; [by exists pos|done|by exists page|by rewrite <- V3|by rewrite Hsem|].
  intros a Ha Ha'. by rewrite Hmem, V8.
Qed.
End LoadOk.

(** ** The whole of load *)

Lemma c_string_ok m s : ∀ p fuel, string_at m p s → (length s < fuel)%nat → c_string fuel p m = Ret (s, m).
Proof.
  induction s as [|x s IH]; intros p [|fuel] Hs Hf; simpl in Hf; try lia; cbn [c_string].
  - apply string_at_nil in Hs as [H0 _]. by rewrite (cstep _ _ _ 0 m) by by apply Cstring.load_ok.
  - apply string_at_cons in Hs as (Hx & Hr & Hp & Hs). rewrite (cstep _ _ _ x m) by by apply Cstring.load_ok. destruct (Z.eqb_spec x 0); [lia|].
    rewrite (cstep _ _ _ s m) by (apply IH; [done|lia]). done.
Qed.

(** A directory that has just been created maps no user page. *)
Lemma created_pd (m : gmap Z (list Z)) pd ws : kernel_page pd → length ws = 1024%nat → Forall (λ w, 0 ≤ w < 2 ^ 32) ws → (∀ i, 0 ≤ i < 768 → zget ws i = Some 0) →
  pd_wf (<[pd := ws]> m) pd ∧ (∀ v, 0 ≤ v < PHYS_BASE → pte_of (<[pd := ws]> m) pd v = 0) ∧ ∀ t, kernel_page t → t ≠ pd → fresh_page (<[pd := ws]> m) pd t.
Proof.
  intros Hk Hl Hw Hz. assert (∀ i, 0 ≤ i < 768 → Pagedir.slot (<[pd := ws]> m) pd i = Some 0) as Hs.
  { intros i Hi. unfold Pagedir.slot. rewrite lookup_insert_eq. simpl. by apply Hz. }
  assert (∀ i, 0 ≤ i < 768 → Pagedir.table (<[pd := ws]> m) pd i = None) as Ht.
  { intros i Hi. unfold Pagedir.table. by rewrite Hs. }
  split; [|split].
  - split; [split; [done|]; exists ws; by rewrite lookup_insert_eq|intros i w Hi; rewrite Hs by done; by intros [= <-]|].
    intros i j pt Hi Hj. by rewrite Ht.
  - intros v Hv. unfold pte_of. by rewrite Ht by by apply pd_no_range.
  - intros t Hkt Hne. split; [done|]. split; [done|]. intros i Hi. by rewrite Ht.
Qed.

Section LoadTop.
Context {D : Type} (ops : block_operations D) (ok : D → Prop) (size : Z).
Context (content : D → Z → list Z) `{!DriverOk ops ok size content}.
Hypothesis Hsize : 2 < size < 2 ^ 32 - 32.
Context (junk : list Z) (Hjunk : length junk = 20%nat).
Context (init_page_dir init_ram_pages : Z) (probe cur delimiters : Z) (la : load_allocs).
Hypothesis Hmalloc : ∀ heap, ∃ e, l_entry la heap = Some e ∧ heap !! e = None ∧ e ≠ probe.
Notation base := (PHYS_BASE - PGSIZE).

(** The command line [text] at [c] in the memory [m], apart from the pages [cp]
    and [pg]. *)
Record line_ready (m : gmap Z Z) (cp pg c : Z) (text : list Z) : Prop := {
  ln_text : string_at m c text;
  ln_space : string_at m delimiters [32];
  ln_kernel : PHYS_BASE ≤ cp ∧ PHYS_BASE ≤ pg ∧ PHYS_BASE ≤ delimiters ∧ PHYS_BASE ≤ c;
  ln_apart q : q = cp ∨ q = pg → (c + zlength text < q ∨ q + PGSIZE ≤ c) ∧ (delimiters + 1 < q ∨ q + PGSIZE ≤ delimiters)
}.

Lemma line_agree m m' cp pg c text : line_ready m cp pg c text → (∀ a, ¬ (cp ≤ a < cp + PGSIZE) → m' !! a = m !! a) → line_ready m' cp pg c text.
Proof.
  intros [Ht Hs Hk Ha] Hm. destruct (Ha cp (or_introl eq_refl)) as [H1 H2]. change PGSIZE with 4096 in *.
  split; try done; [apply (string_at_agree m); [done|]..]; intros a Ha'; apply Hm; simpl in *; lia.
Qed.

Lemma line_stack m cp pg c text : line_ready m cp pg c text → stack_ready (write m base (replicate 4096 0)) pg delimiters c text.
Proof.
  intros [Ht Hs (Hk1 & Hk2 & Hk3 & Hk4) Ha]. destruct (Ha pg (or_intror eq_refl)) as [H1 H2].
  assert (∀ a, PHYS_BASE ≤ a → write m base (replicate 4096 0) !! a = m !! a) as Hm.
  { intros a H. apply write_other. rewrite length_replicate. change PGSIZE with 4096. lia. }
  split; try done.
  - apply (string_at_agree m); [done|]. intros a Ha'. apply Hm. lia.
  - apply (string_at_agree m); [done|]. intros a Ha'. apply Hm. simpl in Ha'. lia.
  - intros a Ha'. rewrite write_lookup, length_replicate, decide_True by (change PGSIZE with 4096 in *; lia). apply lookup_replicate. change PGSIZE with 4096 in *. split; [done|lia].
Qed.

(** The name of the file. *)
Lemma name_ok m cp pg c text name rest : line_ready m cp pg c text → mapped m cp PGSIZE → zlength text ≤ MAX_CMD_LEN → arguments text = name :: rest →
  ∃ m' t saved, strnlen c MAX_CMD_LEN m = Ret (zlength text, m) ∧ strlcpy cp c (zlength text + 1) m = Ret (zlength text, write m cp (text ++ [0])) ∧
    strtok_r cp delimiters 0 (write m cp (text ++ [0])) = Ret ((t, saved), m') ∧
    strnlen c (MAX_CMD_LEN + 1) m' = Ret (zlength text, m') ∧ c_string (bytes_of m') t m' = Ret (name, m') ∧ line_ready m' cp pg c text.
Proof.
  intros Hr Hc Hl Hargs. pose proof Hr as [Ht Hs (Hk1 & Hk2 & Hk3 & Hk4) Ha]. destruct (Ha cp (or_introl eq_refl)) as [H1 H2].
  unfold MAX_CMD_LEN, PHYS_BASE in *. change PGSIZE with 4096 in *.
  set (m1 := write m cp (text ++ [0])). assert (∀ a, ¬ (cp ≤ a < cp + zlength text + 1) → m1 !! a = m !! a) as Hm1.
  { intros a H. apply write_other. rewrite length_app. simpl. lia. }
  assert (string_at m1 delimiters [32]) as Hs1 by (apply (string_at_agree m); [done|]; intros a H; apply Hm1; simpl in *; lia).
  assert (string_at m1 cp text) as Ht1 by (apply string_written; [lia|]; apply (st_chars _ _ _ Ht)).
  destruct (strtok_step delimiters [32] m1 cp text cp 0 Hs1 Ht1) as [[_ Hw]|(t & sv & m2 & nm & rs & E2 & Hnz & Htok)].
  { destruct (Z.eqb_spec cp 0); [lia|done]. }
  { unfold arguments in Hargs. rewrite take_ge in Hargs by (unfold MAX_CMD_LEN; lia). congruence. }
  destruct Htok as (Hw & _ & Hrs & Hwords & Hpt & Htw & Hsv & Hlen & Hout & _). unfold arguments in Hargs.
  rewrite take_ge, Hwords in Hargs by (unfold MAX_CMD_LEN; lia). injection Hargs as -> _.
  assert (line_ready m2 cp pg c text) as Hr2.
  { apply (line_agree m); [done|]. change PGSIZE with 4096. intros a Ha'. rewrite Hout, Hm1 by lia. done. }
  exists m2, t, sv. split; [rewrite (strnlen_ok m c text) by (done || lia); do 2 f_equal; lia|].
  split; [rewrite (strlcpy_ok m cp c text (zlength text + 1)); [by rewrite take_ge by lia|done|lia|lia|intros a Ha'; apply Hc; lia|lia]|].
  split; [done|]. split; [rewrite (strnlen_ok m2 c text) by (apply Hr2 || lia); do 2 f_equal; lia|].
  split; [by apply c_string_ok; [done|apply (string_fuel m2 t)]|done].
Qed.

(** What the new address space takes. *)
Record space_ready (k : kernel D) (pd fr en : Z) : Prop := {
  sp_device : fs_device (k_vm k) = device (k_fs k);
  sp_init : ∃ ws, pages (mach (k_vm k)) !! init_page_dir = Some ws ∧ length ws = 1024%nat ∧ Forall (λ w, 0 ≤ w < 2 ^ 32) ws ∧ ∀ i, 0 ≤ i < 768 → zget ws i = Some 0;
  sp_pd : l_pd la = Some pd ∧ kernel_page pd ∧ pd ≠ init_page_dir;
  sp_supdir : l_supdir la = true;
  sp_page : a_page (l_stack la) = Some fr;
  sp_frame : kernel_page fr ∧ (fr - PHYS_BASE) / 4096 < init_ram_pages;
  sp_entry : a_entry (l_stack la) = Some en ∧ fts (k_vm k) !! en = None;
  sp_ft : ft_ok (fts (k_vm k)) (ft (k_vm k)) ∧ elem_cnt (ft (k_vm k)) < 2 ^ 32 - 2;
  sp_swap : swap_ok ok size (swap_area (k_vm k));
  sp_table : ∃ t, a_table (l_stack la) = Some t ∧ kernel_page t ∧ t ≠ pd
}.

Lemma space_ok k pd fr en : space_ready k pd fr en →
  ∃ sd k1 k2 k3, supdir_create (l_supdir la) = Some sd ∧ on_vm (on_mach (pagedir_create init_page_dir (l_pd la))) k = Ret (Some pd, k1) ∧
    on_vm (modify (λ s, Vm (<[cur := (sd, pd)]> (threads s)) (mach s) (frames s) (fs_device s) (swap_area s) (ft s) (fts s))) k1 = Ret ((), k2) ∧
    process_activate init_page_dir cur k2 = Ret ((), k3) ∧ table_ok probe cur k3 ∅ ∧ snd <$> threads (k_vm k3) !! cur = Some pd ∧
    stack_frame ok size init_page_dir init_ram_pages la (k_vm k3) pd fr en ∧ k_fs k3 = k_fs k ∧ k_mem k3 = k_mem k ∧ file_sema k3 = file_sema k.
Proof.
  intros [Hdev (ws & Hws & Hl & Hww & Hz) (Epd & Hkpd & Hne) Esd Epg (Hfr & Hram) (Een & Hen) (Hft & Hcnt) Hsw (t & Et & Hkt & Htpd)].
  destruct (created_pd (pages (mach (k_vm k))) pd ws Hkpd Hl Hww Hz) as (Hwf & Hpte & Hfresh).
  set (mp := <[pd := ws]> (pages (mach (k_vm k)))) in *. rewrite Epd, Esd.
  destruct (hash_init_ok (spte_vaddr ∅) (page_hash ∅)) as (h & Hh & Hhr). set (sd := Supdir h ∅). exists sd. set (v := k_vm k) in *. set (v1 := set_mach v (with_pages (mach v) mp)).
  set (v2 := Vm (<[cur := (sd, pd)]> (threads v1)) (mach v1) (frames v1) (fs_device v1) (swap_area v1) (ft v1) (fts v1)).
  set (v3 := set_mach v2 (Machine mp (pd - PHYS_BASE) (reloads (mach v) + 1))).
  exists (Kernel (k_fs k) v1 (k_mem k) (file_sema k)), (Kernel (k_fs k) v2 (k_mem k) (file_sema k)), (Kernel (k_fs k) v3 (k_mem k) (file_sema k)).
  split; [unfold supdir_create; by rewrite Hh|]. split.
  { unfold on_vm. rewrite (zoom_ok k_vm _ _ k (Some pd) v1); [change (fs_device v1) with (fs_device v); by rewrite Hdev, w_device_id|].
    apply (zoom_ok mach set_mach _ v (Some pd)). unfold pagedir_create. rewrite cget, Hws. by rewrite (cstep _ _ _ ws (mach v)). }
  split.
  { unfold on_vm. rewrite (zoom_ok k_vm _ _ _ () v2) by done. cbn [k_fs k_mem file_sema]. change (fs_device v2) with (fs_device v). by rewrite Hdev, w_device_id. }
  split.
  { unfold process_activate, on_vm. rewrite (zoom_ok k_vm _ _ _ () v3); [cbn [k_fs k_mem file_sema]; change (fs_device v3) with (fs_device v); by rewrite Hdev, w_device_id|].
    cbn [k_vm]. assert (threads v2 !! cur = Some (sd, pd)) as Hth by apply lookup_insert_eq.
    rewrite (cstep _ _ _ (sd, pd) v2) by (unfold thread_of, mbind, cmd_bind, get; by rewrite Hth).
    apply (zoom_ok mach set_mach _ v2 ()). unfold pagedir_activate. destruct Hkpd as [Hkpd _]. unfold PHYS_BASE in *. destruct (Z.eqb_spec pd 0); [lia|].
    unfold vtop, is_kernel_vaddr, PHYS_BASE. destruct (Z.leb_spec 0xc0000000 pd); [|lia]. done. }
  split; [|split; [simpl; by rewrite lookup_insert_eq|split; [|done]]].
  - split; [|exact Hdev]. exists sd, pd. split; [apply lookup_insert_eq|]. split; [|apply lookup_empty].
    exists ∅. split; [|done]. split; [exact Hhr|]. intros v' q. by rewrite lookup_empty.
  - split; try done; [|exists t; split; [done|by apply Hfresh]]. simpl. by rewrite Hpte.
Qed.

(** Closing the executable, which still has its name. *)
Lemma close_step G w p s dn bytes pos m k : w_data w !! s = Some bytes → has_name w s → w_handles w !! p = None →
  reading ok size content probe cur G w p s dn pos m k →
  ∃ k', on_fs (file_close ops p) k = Ret ((), k') ∧ represents ok size content G w (k_fs k') ∧ table_ok probe cur k' m ∧ same_vm cur k k'.
Proof.
  intros Hb Hn Hh Hr. pose proof (rd_world _ _ _ _ _ _ _ _ _ _ _ _ _ Hr) as Hre.
  destruct (close_run ops ok size content Hsize junk Hjunk G (at_pos w p s dn pos) (k_fs k) Hre p _ (at_pos_handle w p s dn pos)) as (f' & G' & He & HG & Hre'). cbn [h_sector] in HG, Hre'.
  assert (reclaim s (World (w_names (at_pos w p s dn pos)) (w_data (at_pos w p s dn pos)) (delete p (w_handles (at_pos w p s dn pos)))) = w) as Ew.
  { simpl. rewrite delete_insert_id by done. rewrite world_eta. unfold reclaim. rewrite decide_True by by left. done. }
  rewrite Ew in Hre'. assert (G' = G) as ->.
  { destruct HG as [->| ->]; [done|]. assert (user s) as Hu by (destruct (decide (user s)) as [|Hnu]; [done|]; pose proof (re_system _ _ _ _ _ _ Hre' s Hnu); congruence).
    pose proof (re_data _ _ _ _ _ _ Hre' s Hu) as E. rewrite lookup_delete_eq in E. simpl in E. congruence. }
  unfold exec in He. apply cmd_bind_Ret in He as ([] & f1 & Hl & He). injection He as ->.
  eexists. split; [unfold on_fs; by rewrite (zoom_ok _ _ _ _ _ _ Hl)|]. split; [done|].
  destruct (rd_table _ _ _ _ _ _ _ _ _ _ _ _ _ Hr) as [(sd & pd & Hth & Ht) _]. split; [|by split]. split; [|done]. by exists sd, pd.
Qed.

Lemma on_mem_run {A} (c : cmd (gmap Z Z) A) (k : kernel D) a m : c (k_mem k) = Ret (a, m) → on_mem c k = Ret (a, Kernel (k_fs k) (k_vm k) m (file_sema k)).
Proof. intros H. unfold on_mem. by rewrite (zoom_ok k_mem _ _ k a m H). Qed.

(** Opening the executable. *)
Lemma open_step G w name k m : 0 ∉ name → represents ok size content G w (k_fs k) → table_ok probe cur k m →
  ∃ p k', on_fs (filesys_open ops junk name) k = Ret (p, k') ∧ same_vm cur k k' ∧ table_ok probe cur k' m ∧
    match w_names w !! name with
    | None => p = 0 ∧ represents ok size content G w (k_fs k')
    | Some s => p ≠ 0 ∧ w_handles w !! p = None ∧ reading ok size content probe cur G w p s false 0 m k' ∧ ∃ bytes d, w_data w !! s = Some bytes ∧ G !! s = Some d
    end.
Proof.
  intros Hz Hre [(sd & pd & Hth & Ht) Hdev]. destruct (open_refined ops ok size content Hsize junk Hjunk G w (k_fs k) Hre name Hz) as (v & f' & w' & He & Hs & Hre').
  unfold exec in He. apply cmd_bind_Ret in He as (p & f1 & Hl & He). injection He as <- ->.
  exists p. eexists. split; [unfold on_fs; by rewrite (zoom_ok _ _ _ _ _ _ Hl)|]. split; [by split|]. split; [split; [by exists sd, pd|done]|]. inversion Hs as [| |? Hnone|? s ? Hsome Hp Hfree| | | | | | | | | | |]; subst.
  - rewrite Hnone. done.
  - rewrite Hsome. split; [done|]. split; [done|]. split; [split; [split; [by exists sd, pd|done]|done]|].
    destruct (handle_file ok size content junk Hjunk G _ f' p _ Hre' (lookup_insert_eq _ _ _)) as (x & i & bytes & _ & _ & _ & E & _ & Hg & Hdat & _).
    injection E as -> _ _. by exists bytes, (data i).
Qed.

(** What [load] leaves behind, for the file with the contents [bytes] at [s]. *)
Definition load_post (G : gmap Z inode_disk) (s : Z) (bytes : list Z) (pd fr : Z) (args : list (list Z)) (r : option (Z * Z)) (k' : kernel D) : Prop :=
  match elf_plan bytes with
  | None => r = None
  | Some (entry, sgs) => ∃ esp d sd page, r = Some (entry, esp) ∧ G !! s = Some d ∧ threads (k_vm k') !! cur = Some (sd, pd) ∧
      supdir_repr sd (<[base := stack_entry]> (enter_segments d sgs ∅)) ∧ frames (k_vm k') !! fr = Some page ∧ stack_layout (write ∅ base page) esp args
  end.

(** From the open file to the end. *)
Lemma image_step G w p s bytes d k pd fr en pg c text cp : reading ok size content probe cur G w p s false 0 ∅ k → w_data w !! s = Some bytes → G !! s = Some d → Block.bytes bytes →
  has_name w s → w_handles w !! p = None → snd <$> threads (k_vm k) !! cur = Some pd → stack_frame ok size init_page_dir init_ram_pages la (k_vm k) pd fr en → l_page la = Some pg →
  line_ready (k_mem k) cp pg c text →
  ∃ r k1 k', load_image ops init_page_dir init_ram_pages probe cur delimiters la p c k = Ret (r, k1) ∧ on_fs (file_close ops p) k1 = Ret ((), k') ∧
    represents ok size content G w (k_fs k') ∧ file_sema k' = file_sema k ∧ load_post G s bytes pd fr (arguments text) r k'.
Proof.
  intros Hk Hb Hd Hby Hn Hh Hpd Hsf Epg Hln. pose proof (line_stack _ _ _ _ _ Hln) as Hsr.
  pose proof (load_image_ok ops ok size content Hsize junk Hjunk init_page_dir init_ram_pages probe cur delimiters la Hmalloc G w p s false bytes d Hb Hd Hby k pd fr en pg c text
    Hk Hpd Hsf Epg Hsr) as H. unfold load_post. destruct (elf_plan bytes) as [[entry sgs]|].
  - destruct H as (esp & k1 & El & [(pos & Hk1) Hpd1 (page & Hfr & Hpl & Hlay) Hbec Hsem Hmem]). destruct (close_step G w p s false bytes pos _ k1 Hb Hn Hh Hk1) as (k' & Ec & Hre & [(sd & pd' & Hth & Hrp & _) _] & Hv).
    destruct Hv as (_ & V2 & _ & V4 & _ & _ & _ & _ & V9). exists (Some (entry, esp)), k1, k'. split; [done|]. split; [done|]. split; [done|]. split; [congruence|].
    exists esp, d, sd, page. split; [done|]. split; [done|]. split; [|split; [done|split; [by rewrite V4|]]].
    + rewrite Hth in V2. rewrite Hpd1 in V2. simpl in V2. rewrite Hth. congruence.
    + apply (layout_agree (write (k_mem k1) base page)); [done|]. intros a b Ha. rewrite !write_lookup, Hpl. change PGSIZE with 4096 in *. case_decide; [done|lia].
  - destruct H as (pos & m & k1 & El & Hk1 & Hv1). destruct (close_step G w p s false bytes pos m k1 Hb Hn Hh Hk1) as (k' & Ec & Hre & _ & Hv).
    exists None, k1, k'. split; [done|]. split; [done|]. split; [done|]. split; [|done]. destruct Hv as (_ & _ & _ & _ & _ & _ & _ & _ & V9), Hv1 as (_ & _ & _ & _ & _ & _ & _ & _ & V9'). congruence.
Qed.

Lemma load_runs G w k pd fr en cp pg c text name rest : represents ok size content G w (k_fs k) → space_ready k pd fr en → 0 < file_sema k →
  l_copy la = Some cp → l_page la = Some pg → line_ready (k_mem k) cp pg c text → mapped (k_mem k) cp PGSIZE →
  zlength text ≤ MAX_CMD_LEN → arguments text = name :: rest → (∀ s bytes, w_data w !! s = Some bytes → Block.bytes bytes) →
  ∃ r k', load ops junk init_page_dir init_ram_pages probe cur delimiters la c k = Ret (r, k') ∧ represents ok size content G w (k_fs k') ∧ file_sema k' = file_sema k ∧
    match w_names w !! name with
    | None => r = None
    | Some s => ∃ bytes, w_data w !! s = Some bytes ∧ load_post G s bytes pd fr (arguments text) r k'
    end.
Proof.
  intros Hre Hsp Hsem Ecp Epg Hln Hmap Hlen Hargs Hby.
  destruct (name_ok (k_mem k) cp pg c text name rest Hln Hmap Hlen Hargs) as (m2 & t & sv & E1 & E2 & E3 & E4 & E5 & Hln2).
  set (km := Kernel (k_fs k) (k_vm k) m2 (file_sema k)).
  assert (space_ready km pd fr en) as Hsp' by (destruct Hsp; by split).
  destruct (space_ok km pd fr en Hsp') as (sd & k1 & k2 & k3 & F0 & F1 & F2 & F3 & Ht3 & Hpd3 & Hsf3 & Efs & Emem & Esem). cbn [k_fs k_mem file_sema km] in Efs, Emem, Esem.
  set (k4 := Kernel (k_fs k3) (k_vm k3) (k_mem k3) (file_sema k3 - 1)).
  assert (0 ∉ name) as Hz.
  { intros Hin. pose proof (arguments_wordy _ _ _ _ _ (line_stack _ _ _ _ _ Hln)) as Hw. rewrite Hargs in Hw. apply Forall_cons in Hw as [[_ Hw] _]. specialize (Hw 0 Hin). lia. }
  destruct (open_step G w name k4 ∅ Hz) as (p & k5 & E6 & Hv5 & Ht5 & Hcase); [cbn [k_fs k4]; by rewrite Efs|destruct Ht3; by split|].
  assert (on_mem (let* m := get in c_string (bytes_of m) t) k4 = Ret (name, k4)) as E5'.
  { rewrite (on_mem_run _ k4 name m2); [unfold k4; cbn; by rewrite Emem|]. cbn [k_mem k4]. by rewrite Emem, cget. }
  assert (∀ r (k6 : kernel D), file_sema k6 = file_sema k - 1 → ∃ k7 : kernel D, (let* _ := on_mem (modify (λ m, write m cp (replicate (Z.to_nat PGSIZE) 0xcc))) in
    let* _ := file_sema_up in mret r) k6 = Ret (r : option (Z * Z), k7) ∧ k_fs k7 = k_fs k6 ∧ k_vm k7 = k_vm k6 ∧ file_sema k7 = file_sema k) as Hend.
  { intros r k6 H6. eexists. split; [done|]. cbn. split; [done|]. split; [done|]. lia. }
  set (ka := Kernel (k_fs k) (k_vm k) (write (k_mem k) cp (text ++ [0])) (file_sema k)).
  assert (on_mem (strnlen c MAX_CMD_LEN) k = Ret (zlength text, k)) as M1 by (rewrite (on_mem_run _ k _ _ E1); by destruct k).
  assert (on_mem (strlcpy cp c (zlength text + 1)) k = Ret (zlength text, ka)) as M2 by exact (on_mem_run _ k _ _ E2).
  assert (on_mem (strtok_r cp delimiters 0) ka = Ret ((t, sv), km)) as M3 by exact (on_mem_run _ ka _ _ E3).
  assert (on_mem (strnlen c (MAX_CMD_LEN + 1)) km = Ret (zlength text, km)) as M4 by exact (on_mem_run _ km _ _ E4).
  unfold load. rewrite Ecp. cbn [default]. rewrite (cstep _ _ _ _ _ M1), (cstep _ _ _ _ _ M2), (cstep _ _ _ _ _ M3). cbn iota beta. rewrite (cstep _ _ _ _ _ M4).
  destruct (Z.eqb_spec (zlength text) (MAX_CMD_LEN + 1)); [lia|].
  assert (file_sema_down k3 = Ret ((), k4)) as M5 by (unfold file_sema_down; by destruct (Z.ltb_spec 0 (file_sema k3)); [|lia]).
  destruct (w_names w !! name) as [s|] eqn:Hname.
  - destruct Hcase as (Hp & Hfree & Hrd & bytes & d & Hb & Hd).
    destruct Hv5 as (_ & V2 & V3 & _ & V5 & V6 & V7 & V8 & V9).
    destruct (image_step G w p s bytes d k5 pd fr en pg c text cp Hrd Hb Hd (Hby s bytes Hb)) as (r & k6 & k7 & El & Ec & Hre7 & Hs7 & Hpost); [exists name, s; done|done|by rewrite V2| |done|by rewrite V8; cbn; rewrite Emem|].
    { destruct Hsf3. split; rewrite ?V3, ?V5, ?V6, ?V7; assumption. }
    destruct (Hend r k7) as (k8 & Ee & Ef8 & Ev8 & Es8); [rewrite Hs7, V9; cbn; by rewrite Esem|].
    exists r, k8. split; [|split; [by rewrite Ef8|split; [done|]]].
    + rewrite (cstep _ _ _ (p, r) k6).
      { by rewrite (cstep _ _ _ _ _ Ec). }
      rewrite (cstep _ _ _ _ _ F1). rewrite (cstep _ _ _ sd k1) by (by rewrite F0). cbn [default]. rewrite (cstep _ _ _ _ _ F2), (cstep _ _ _ _ _ F3), (cstep _ _ _ _ _ M5), (cstep _ _ _ _ _ E5'), (cstep _ _ _ _ _ E6).
      destruct (Z.eqb_spec p 0); [done|]. by rewrite (cstep _ _ _ _ _ El).
    + exists bytes. split; [done|]. unfold load_post in *. rewrite Ev8. done.
  - destruct Hcase as (-> & Hre5). destruct (Hend None k5) as (k8 & Ee & Ef8 & Ev8 & Es8); [destruct Hv5 as (_ & _ & _ & _ & _ & _ & _ & _ & V9); rewrite V9; cbn; by rewrite Esem|].
    exists None, k8. split; [|split; [by rewrite Ef8|done]].
    rewrite (cstep _ _ _ (0, None) k5).
    { rewrite (cstep _ _ _ () k5); [done|]. by apply on_fs_same; [apply Ht5|]. }
    rewrite (cstep _ _ _ _ _ F1). rewrite (cstep _ _ _ sd k1) by (by rewrite F0). cbn [default]. by rewrite (cstep _ _ _ _ _ F2), (cstep _ _ _ _ _ F3), (cstep _ _ _ _ _ M5), (cstep _ _ _ _ _ E5'), (cstep _ _ _ _ _ E6).
Qed.
End LoadTop.

Lemma image_page sg bytes j : segment_ok sg (zlength bytes) → s_file sg + s_read sg ≤ zlength bytes → 0 ≤ j < pages_of sg →
  let r := Z.max 0 (Z.min 4096 (s_read sg - 4096 * j)) in
  take 4096 (drop (Z.to_nat (4096 * j)) (image sg bytes)) =
  take (Z.to_nat r) (drop (Z.to_nat (s_file sg + 4096 * j)) bytes) ++ replicate (Z.to_nat (4096 - r)) 0.
Proof.
  intros [_ Hin _ Hr Hz Hp _ _ _] Hfit Hj r. unfold pages_of in Hj. assert (4096 * j + 4096 ≤ s_read sg + s_zero sg) as Hend by div_lia. unfold image.
  assert (length (take (Z.to_nat (s_read sg)) (drop (Z.to_nat (s_file sg)) bytes)) = Z.to_nat (s_read sg)) as Hl by (rewrite length_take, length_drop; lia).
  rewrite drop_app, Hl, drop_replicate, take_app, take_replicate.
  assert (length (drop (Z.to_nat (4096 * j)) (take (Z.to_nat (s_read sg)) (drop (Z.to_nat (s_file sg)) bytes))) = Z.to_nat (Z.max 0 (s_read sg - 4096 * j))) as Hl2 by (rewrite length_drop, Hl; lia).
  f_equal.
  - rewrite skipn_firstn_comm, drop_drop, take_take. unfold r. f_equal; [lia|]. f_equal. lia.
  - f_equal. rewrite Hl2. unfold r. lia.
Qed.

(** ** Theorems *)

(** A command line of more than 128 characters is refused before the file
    system is locked, yet the exit path raises [file_sema]: every such load
    leaves the semaphore one higher than it was, and the lock on the file
    system admits one more thread. *)
Theorem load_too_long {D} (ops : block_operations D) junk init_page_dir init_ram_pages probe cur delimiters la (k : kernel D) cp pg c text :
  fs_device (k_vm k) = device (k_fs k) → l_copy la = Some cp → line_ready delimiters (k_mem k) cp pg c text → mapped (k_mem k) cp PGSIZE → MAX_CMD_LEN < zlength text →
  ∃ k', load ops junk init_page_dir init_ram_pages probe cur delimiters la c k = Ret (None, k') ∧
    file_sema k' = file_sema k + 1 ∧ k_fs k' = k_fs k ∧ k_vm k' = k_vm k.
Proof.
  intros Hdev Ecp [Ht Hs (Hk1 & Hk2 & Hk3 & Hk4) Ha] Hc Hlong. destruct (Ha cp (or_introl eq_refl)) as [H1 H2].
  unfold MAX_CMD_LEN, PHYS_BASE in *. change PGSIZE with 4096 in *. destruct k as [f v m n]. cbn [k_mem k_fs k_vm file_sema] in *.
  set (cut := take (Z.to_nat 128) text). assert (length cut = 128%nat) as Hcut by (unfold cut; rewrite length_take; lia).
  set (m1 := write m cp (cut ++ [0])). assert (∀ a, ¬ (cp ≤ a < cp + 129) → m1 !! a = m !! a) as Hm1.
  { intros a H. apply write_other. rewrite length_app, Hcut. simpl. lia. }
  assert (string_at m1 delimiters [32]) as Hs1 by (apply (string_at_agree m); [done|]; intros a H; apply Hm1; simpl in *; lia).
  assert (string_at m1 cp cut) as Ht1.
  { apply string_written; [lia|]. intros x Hx. apply (st_chars _ _ _ Ht). rewrite <- (take_drop (Z.to_nat 128) text). apply elem_of_app. by left. }
  assert (∃ t sv m2, strtok_r cp delimiters 0 m1 = Ret ((t, sv), m2) ∧ ∀ a, ¬ (cp ≤ a < cp + 129) → m2 !! a = m1 !! a) as (t & sv & m2 & E3 & Hm2).
  { destruct (strtok_step delimiters [32] m1 cp cut cp 0 Hs1 Ht1) as [[E _]|(t & sv & m2 & nm & rs & E & _ & Htok)].
    - destruct (Z.eqb_spec cp 0); [lia|done].
    - by eexists _, _, m1.
    - exists t, sv, m2. split; [done|]. destruct Htok as (_ & _ & _ & _ & _ & _ & _ & _ & Hout & _). intros a Ha'. apply Hout. lia. }
  assert (string_at m2 c text) as Ht2 by (apply (string_at_agree m); [done|]; intros a H; rewrite Hm2, Hm1 by lia; done).
  exists (Kernel f v (write m2 cp (replicate (Z.to_nat PGSIZE) 0xcc)) (n + 1)). split; [|done].
  assert (∀ A (e : cmd (gmap Z Z) A) (a : A) x y, e x = Ret (a, y) → on_mem e (Kernel f v x n) = Ret (a, Kernel f v y n)) as Hon.
  { intros A e a x y H. unfold on_mem. by rewrite (zoom_ok k_mem _ _ (Kernel f v x n) a y H). }
  unfold load. rewrite Ecp. change (default 0 (Some cp)) with cp. cbv zeta.
  rewrite (cstep _ _ _ 128 (Kernel f v m n)) by (apply Hon; rewrite (strnlen_ok m c text) by (done || unfold MAX_CMD_LEN; lia); unfold MAX_CMD_LEN; do 2 f_equal; lia).
  rewrite (cstep _ _ _ (zlength text) (Kernel f v m1 n)) by (apply Hon; change (128 + 1) with 129; rewrite (strlcpy_ok m cp c text 129); [done|done|lia|lia|intros a Ha'; apply Hc; lia|lia]).
  rewrite (cstep _ _ _ _ _ (Hon _ _ _ _ _ E3)). cbn iota beta.
  rewrite (cstep _ _ _ 129 (Kernel f v m2 n)) by (apply Hon; rewrite (strnlen_ok m2 c text) by (done || unfold MAX_CMD_LEN; lia); unfold MAX_CMD_LEN; do 2 f_equal; lia).
  cbn iota beta. rewrite (cstep _ _ _ (0, None) (Kernel f v m2 n)) by reflexivity.
  rewrite (cstep _ _ _ () (Kernel f v m2 n)) by (by apply on_fs_same). reflexivity.
Qed.



(** ** A disk with an executable *)

(** One segment of 84 bytes of the file, which is all of it, in 5000 bytes of
    memory. *)
Definition demo_elf : list Z :=
  [127; 69; 76; 70; 1; 1; 1] ++ replicate 9 0 ++ [2; 0; 3; 0] ++ le4 1 ++ le4 0x8048054 ++ le4 52 ++ le4 0 ++ le4 0 ++ [52; 0; 32; 0; 1; 0; 0; 0; 0; 0; 0; 0] ++
  le4 1 ++ le4 0 ++ le4 0x8048000 ++ le4 0x8048000 ++ le4 84 ++ le4 5000 ++ le4 5 ++ le4 4096.
Definition demo_segment : segment := Segment 0 0x8048000 84 8108 false.

Example demo_plan : elf_plan demo_elf = Some (0x8048054, [demo_segment]).
Proof. vm_compute. reflexivity. Qed.

Definition install : program :=
  PCall (CCreate [97] 84) (λ _, PCall (COpen [97]) (λ v,
    match v with
    | VInt p => if p =? 0 then PDone else PCall (CWrite p demo_elf 84) (λ _, PCall (CClose p) (λ _, PDone))
    | _ => PDone
    end)).

Lemma install_careful w : careful w install.
Proof.
  cbn [careful install]. split; [split; [by intros [=]%list_elem_of_singleton|lia]|]. intros _ w1 _.
  split; [by intros [=]%list_elem_of_singleton|]. intros v w2 Ho. inversion Ho as [| | |nm s p Hn Hp Hh| | | | | | | | | | |]; subst; [done|].
  cbn [careful]. destruct (Z.eqb_spec p 0); [done|]. cbn [careful valid w_handles]. rewrite lookup_insert_eq. split; [done|].
  intros v w3 Hw. split; [|done]. inversion Hw; subst; simpl; rewrite ?lookup_insert_eq; done.
Qed.

Lemma install_values : match filesys_init ram_ops (Some blank_disk) (Some [0xdead; 0xbeef]) true (no_fs blank_disk (λ _, true)) with
  | Ret (_, f) => match run ram_ops stack_junk install f with Ret (vs, _) => vs = [VBool true; VInt 38; VInt 84; VUnit] | Fail _ => False end
  | Fail _ => False end.
Proof. vm_compute. reflexivity. Qed.

Definition demo_world (s : Z) : world := World {[[97] := s]} {[s := demo_elf]} ∅.

Lemma installed : ∃ G f s, represents (ram_ok 64) 64 ram_content G (demo_world s) f.
Proof.
  destruct (format_ok ram_ops (ram_ok 64) 64 ram_content ltac:(lia) blank_disk [0xdead; 0xbeef] (no_fs blank_disk (λ _, true)))
    as (G & f & Hf & Hre); [apply blank_disk_ok|apply blank_storage|apply no_fs_fresh|lia|].
  destruct (program_refined ram_ops (ram_ok 64) 64 ram_content ltac:(lia) stack_junk eq_refl install G (World ∅ ∅ ∅) f Hre (install_careful _))
    as (vs & f' & G' & w' & Hr & Hs & Hre').
  pose proof install_values as Hv. rewrite Hf, Hr in Hv. subst vs. exists G', f'. clear Hf Hr Hre.
  inversion Hs as [|? ? ? ? w1 ? ? H1 Hs1]; subst. inversion H1 as [|? ? s _ _ _ Hu| | | | | | | | | | | | |]; subst. exists s.
  inversion Hs1 as [|? ? ? ? w2 ? ? H2 Hs2]; subst. inversion H2 as [| | |? s2 p Hn _ _| | | | | | | | | | |]; subst. simpl in Hn. rewrite lookup_insert_eq in Hn. injection Hn as <-.
  cbn [Z.eqb] in Hs2. inversion Hs2 as [|? ? ? ? w3 ? ? H3 Hs3]; subst. simpl in H3.
  inversion H3 as [| | | | | | | |? ? ? s3 ? ? by3 Hh _ Hd| | | | | |]; subst. simpl in Hh, Hd. rewrite lookup_insert_eq in Hh. injection Hh as <- <- <-.
  rewrite lookup_insert_eq in Hd. injection Hd as <-.
  inversion Hs3 as [|? ? ? ? w4 ? ? H4 Hs4]; subst. inversion Hs4; subst.
  inversion H4 as [| | | | | | | | | | | | | |? s4 ? ? Hh]; subst. simpl in Hh. rewrite lookup_insert_eq in Hh. injection Hh as <- <- <-.
  replace (demo_world s) with (reclaim s (demo_world s)) by (unfold reclaim; rewrite decide_True; [done|left; exists [97], s; split; [apply lookup_singleton_eq|done]]).
  refine (eq_ind _ (λ x, represents _ _ _ G' x f') Hre' _ _). f_equal. unfold demo_world. cbn [w_names w_data w_handles]. f_equal.
  rewrite insert_insert_eq, <- insert_empty. apply (f_equal (λ b, <[s := b]> ∅)). vm_compute. reflexivity.
Qed.

(** ** A kernel to run it *)

(** The command line "a 1" at 0xc0002000, and room for its copies. *)
Definition a_line : list Z := [97; 32; 49].
Definition line_mem (line : list Z) : gmap Z Z :=
  write (write (write ∅ 0xc0001000 [32; 0]) 0xc0002000 (line ++ [0])) 0xc0003000 (replicate 4096 0).
Definition a_supdir : supdir := Supdir (Hash 0 4 [[]; []; []; []]) ∅.
Definition a_allocs : load_allocs :=
  LoadAllocs (Some 0xc0003000) (Some 0xc0005000) true (λ heap, Some (base.fresh (dom heap ∪ {[1]} : gset Z))) true
    (Allocs (Some 0xc0006000) (Some 61) (Some 0xc0007000) true) (Some 0xc0004000).
Definition a_swap : swap (list (list Z)) := Swap (Bitmap 64 [0; 0]) (Block BLOCK_SWAP 64 (replicate 64 (replicate 512 0)) 0 0).
Definition a_kernel (f : fs (list (list Z))) : kernel (list (list Z)) :=
  Kernel f (Vm {[7 := (a_supdir, 0xc0005000)]} (Machine {[0xc0000000 := replicate 1024 0]} 0 0) ∅ (device f) a_swap empty_ft ∅) (line_mem a_line) 1.

Lemma a_malloc heap : ∃ e, l_entry a_allocs heap = Some e ∧ heap !! e = None ∧ e ≠ 1.
Proof.
  eexists. split; [reflexivity|]. pose proof (is_fresh (dom heap ∪ {[1]} : gset Z)) as H.
  split; [apply not_elem_of_dom|]; set_solver.
Qed.

Lemma a_swap_ok : swap_ok (ram_ok 64) 64 a_swap.
Proof.
  split; [|done| |done].
  - split; [done|done|by repeat constructor].
  - split; [|done]. split; [done|]. by repeat constructor.
Qed.

Lemma a_space f : space_ready (ram_ok 64) 64 0xc0000000 4096 a_allocs (a_kernel f) 0xc0005000 0xc0006000 61.
Proof.
  split; try done.
  - exists (replicate 1024 0). split; [apply lookup_singleton_eq|]. split; [done|]. split; [apply Forall_replicate; lia|].
    intros i Hi. apply zget_Some. split; [lia|]. apply lookup_replicate. lia.
  - split; [exact empty_ft_ok|done].
  - exact a_swap_ok.
  - by exists 0xc0007000.
Qed.

Lemma line_mem_ready line : (∀ x, x ∈ line → 0 < x < 256) → zlength line < 4096 →
  line_ready 0xc0001000 (line_mem line) 0xc0003000 0xc0004000 0xc0002000 line.
Proof.
  intros Hch Hlen.
  assert (∀ a, a < 0xc0003000 → line_mem line !! a = write (write ∅ 0xc0001000 [32; 0]) 0xc0002000 (line ++ [0]) !! a) as Hk.
  { intros a Ha. unfold line_mem. rewrite write_other; [done|]. rewrite length_replicate. lia. }
  split.
  - apply (string_at_agree (write (write ∅ 0xc0001000 [32; 0]) 0xc0002000 (line ++ [0]))).
    + apply string_written; [lia|done].
    + intros a Ha. apply Hk. lia.
  - apply (string_at_agree (write ∅ 0xc0001000 ([32] ++ [0]))).
    + apply string_written; [lia|]. intros x ->%list_elem_of_singleton. lia.
    + intros a Ha. simpl in Ha. rewrite Hk by lia. apply write_other. simpl. lia.
  - unfold PHYS_BASE. lia.
  - change PGSIZE with 4096. intros q [-> | ->]; lia.
Qed.

Lemma line_mem_mapped line : mapped (line_mem line) 0xc0003000 PGSIZE.
Proof.
  intros a Ha. change PGSIZE with 4096 in Ha. unfold line_mem. rewrite write_lookup, length_replicate, decide_True by lia.
  eexists. apply lookup_replicate. split; [reflexivity|lia].
Qed.



Lemma load_too_long_witness : ∃ k', load ram_ops stack_junk 0xc0000000 4096 1 7 0xc0001000 a_allocs 0xc0002000
  (Kernel (no_fs blank_disk (λ _, true)) (k_vm (a_kernel (no_fs blank_disk (λ _, true)))) (line_mem (replicate 129 97)) 1) = Ret (None, k') ∧ file_sema k' = 2.
Proof.
  destruct (load_too_long ram_ops stack_junk 0xc0000000 4096 1 7 0xc0001000 a_allocs
    (Kernel (no_fs blank_disk (λ _, true)) (k_vm (a_kernel (no_fs blank_disk (λ _, true)))) (line_mem (replicate 129 97)) 1)
    0xc0003000 0xc0004000 0xc0002000 (replicate 129 97)) as (k' & Hl & Hs & _).
  - reflexivity.
  - reflexivity.
  - apply line_mem_ready; [|by vm_compute]. intros x [-> _]%elem_of_replicate. lia.
  - apply line_mem_mapped.
  - by vm_compute.
  - exists k'. split; [exact Hl|exact Hs].
Defined.

(** A segment of which only the first 84 of 5000 bytes are in the file is
    accepted, and the sector of its second page is -1. *)
Example segment_past_end : let ph := Phdr PT_LOAD 0 0x8048000 0x8048000 5000 5000 5 4096 in
  segment_valid ph 84 = true ∧ segment_of ph = Segment 0 0x8048000 5000 3192 false ∧
  sector_of (InodeDisk 3 84 0) 4096 = u32 (-1).
Proof. vm_compute. done. Qed.
