(* ===== verification/Process.v ===== *)
(** * The tree of processes (userprog/process.c and syscall.c)

    Creating, waiting for and ending processes, as far as these act on the
    thread structures: who is whose parent, the lists of children and the
    semaphores between a parent and a child.  A structure is a page, and an
    access to one that has been freed is a [Fault]: the page allocator fills
    free pages with 0xcc, and the pointers in it lead nowhere.

    Each function is the code between two points where the thread may be
    suspended; a [sema_down] of a semaphore that is 0 is [Blocked].  The machine
    at the end of the file interleaves them.  The semaphore [child_list_sema]
    only makes the changes of a list one step and is left out. *)

From S2P Require Import Prelude.

Record proc := Proc {
  tid : Z;
  parent : Z;                (* 0 is the null pointer *)
  children : list Z;
  child_sema : Z;
  load_sema : Z;
  return_status : Z;
  success : bool;
  files : list Z             (* the page of file pointers *)
}.
Definition TID_ERROR : Z := -1.

Definition with_parent (x : Z) (p : proc) : proc := Proc (tid p) x (children p) (child_sema p) (load_sema p) (return_status p) (success p) (files p).
Definition with_children (l : list Z) (p : proc) : proc := Proc (tid p) (parent p) l (child_sema p) (load_sema p) (return_status p) (success p) (files p).
Definition with_child_sema (n : Z) (p : proc) : proc := Proc (tid p) (parent p) (children p) n (load_sema p) (return_status p) (success p) (files p).
Definition with_load_sema (n : Z) (p : proc) : proc := Proc (tid p) (parent p) (children p) (child_sema p) n (return_status p) (success p) (files p).
Definition with_status (n : Z) (p : proc) : proc := Proc (tid p) (parent p) (children p) (child_sema p) (load_sema p) n (success p) (files p).
Definition with_success (b : bool) (p : proc) : proc := Proc (tid p) (parent p) (children p) (child_sema p) (load_sema p) (return_status p) b (files p).
Definition with_files (l : list Z) (p : proc) : proc := Proc (tid p) (parent p) (children p) (child_sema p) (load_sema p) (return_status p) (success p) l.

(** The structures that have not been freed. *)
Notation tree := (gmap Z proc).

Definition get_proc (t : Z) : cmd tree proc := λ s, match s !! t with Some p => Ret (p, s) | None => Fail Fault end.
Definition set_proc (t : Z) (g : proc → proc) : cmd tree unit := λ s,
  match s !! t with Some p => Ret ((), <[t := g p]> s) | None => Fail Fault end.
(** [palloc_free_page]. *)
Definition free_proc (t : Z) : cmd tree unit := λ s,
  match s !! t with Some _ => Ret ((), delete t s) | None => Fail Fault end.

Section Ops.
Context (cur : Z).

(** The part of [thread_create] and [init_thread] that makes the new thread a
    child: [page] and [fpage] are what [palloc_get_page] returned. *)
Definition create_child (page : option Z) (fpage : bool) (new_tid : Z) : cmd tree Z :=
  match page with
  | None => mret TID_ERROR
  | Some t =>
      let* _ := modify (<[t := Proc new_tid cur [] 0 0 0 false (if fpage then replicate 1024 0 else [])]>) in
      let* p := get_proc cur in
      let* _ := set_proc cur (with_children (children p ++ [t])) in
      mret new_tid
  end.

Fixpoint childelem_from_tid (tid_ : Z) (list : list Z) : cmd tree (option Z) :=
  match list with
  | [] => mret None
  | e :: list => let* child := get_proc e in if tid child =? tid_ then mret (Some e) else childelem_from_tid tid_ list
  end.

(** The loop of [process_wait]. *)
Fixpoint wait_loop (child_tid : Z) (list : list Z) : cmd tree Z :=
  match list with
  | [] => mret (-1)
  | e :: list =>
      let* child := get_proc e in
      if tid child =? child_tid then
        if 0 <? child_sema child then
          let* _ := set_proc e (with_child_sema (child_sema child - 1)) in mret (return_status child)
        else lift (Fail Blocked)
      else wait_loop child_tid list
  end.

Definition process_wait (child_tid : Z) : cmd tree Z :=
  let* t := get_proc cur in
  let* return_status := wait_loop child_tid (children t) in
  let* t := get_proc cur in
  let* child_elem := childelem_from_tid child_tid (children t) in
  match child_elem with
  | Some e =>
      let* _ := set_proc cur (with_children (filter (.≠ e) (children t))) in
      let* _ := free_proc e in
      mret return_status
  | None => mret return_status
  end.

(** The loop of [self_destruct]. *)
Fixpoint orphan_loop (list : list Z) : cmd tree unit :=
  match list with
  | [] => mret ()
  | e :: list => let* _ := set_proc e (with_parent 0) in orphan_loop list
  end.

(** The loop of [process_exit]: [list_next] reads the element after the page
    that holds it may have been freed. *)
Fixpoint free_loop (list : list Z) : cmd tree unit :=
  match list with
  | [] => mret ()
  | e :: list =>
      let* child := get_proc e in
      let* _ := (if 0 <? child_sema child then
                   let* _ := set_proc e (with_child_sema (child_sema child - 1)) in free_proc e
                 else mret ()) in
      let* _ := get_proc e in
      free_loop list
  end.

(** [self_destruct] up to the call of [thread_exit]. *)
Definition destruct_links (status : Z) : cmd tree unit :=
  let* _ := set_proc cur (with_status status) in
  let* t := get_proc cur in
  orphan_loop (children t).

(** The rest of [process_exit] after [close_all_files]. *)
Definition exit_children : cmd tree unit :=
  let* t := get_proc cur in free_loop (children t).
Definition exit_self : cmd tree unit :=
  let* t := get_proc cur in
  if negb (parent t =? 0) then set_proc cur (with_child_sema (child_sema t + 1)) else free_proc cur.

(** [start_process] after [load]. *)
Definition report_load (ok : bool) : cmd tree unit :=
  let* t := get_proc cur in
  let* _ := set_proc (parent t) (with_success ok) in
  let* p := get_proc (parent t) in
  set_proc (parent t) (with_load_sema (load_sema p + 1)).
Definition fail_load : cmd tree unit :=
  let* t := get_proc cur in set_proc cur (with_child_sema (child_sema t + 1)).

(** [sys_exec] after [process_execute]: the value of EAX. *)
Definition exec_result (pid : Z) : cmd tree Z :=
  if pid =? TID_ERROR then mret (-1) else
  let* p := get_proc cur in
  if 0 <? load_sema p then
    let* _ := set_proc cur (with_load_sema (load_sema p - 1)) in
    if success p then mret pid else
    let* e := childelem_from_tid pid (children p) in
    match e with
    | None => lift (Fail AssertFailed)
    | Some e => let* _ := set_proc cur (with_children (filter (.≠ e) (children p))) in mret (-1)
    end
  else lift (Fail Blocked).
End Ops.

(** ** Interleaving *)

Inductive pc := Loading | Running | InExec (pid : Z) | LoadFailed | Failing | Exiting | Dead.
Inductive event := ELoad (pid : Z) (ok : bool) | EExit (pid status : Z).
Record machine := Machine { procs : tree; pcs : gmap Z pc; next_tid : Z; log : list event }.

(** A thread structure goes on a page that no thread uses. *)
Definition page_free (m : machine) (n : Z) : Prop :=
  n ≠ 0 ∧ procs m !! n = None ∧ (pcs m !! n = None ∨ pcs m !! n = Some Dead).

Definition exit_step (t status : Z) : cmd tree unit :=
  let* _ := destruct_links t status in
  let* _ := exit_children t in
  exit_self t.

Inductive step (m : machine) : machine → Prop :=
  | step_exec t n fpage s pid : pcs m !! t = Some Running → page_free m n →
      create_child t (Some n) fpage (next_tid m) (procs m) = Ret (pid, s) →
      step m (Machine s (<[n := Loading]> (<[t := InExec pid]> (pcs m))) (next_tid m + 1) (log m))
  | step_loaded t p ok s : pcs m !! t = Some Loading → procs m !! t = Some p → report_load t ok (procs m) = Ret ((), s) →
      step m (Machine s (<[t := if ok : bool then Running else LoadFailed]> (pcs m)) (next_tid m) (ELoad (tid p) ok :: log m))
  | step_failing t s : pcs m !! t = Some LoadFailed → fail_load t (procs m) = Ret ((), s) →
      step m (Machine s (<[t := Failing]> (pcs m)) (next_tid m) (log m))
  | step_exec_done t pid r s : pcs m !! t = Some (InExec pid) → exec_result t pid (procs m) = Ret (r, s) →
      step m (Machine s (<[t := Running]> (pcs m)) (next_tid m) (log m))
  | step_wait t pid r s : pcs m !! t = Some Running → process_wait t pid (procs m) = Ret (r, s) →
      step m (Machine s (pcs m) (next_tid m) (log m))
  | step_exit t p status s : pcs m !! t = Some Running ∨ (pcs m !! t = Some Failing ∧ status = -1) → procs m !! t = Some p →
      exit_step t status (procs m) = Ret ((), s) →
      step m (Machine s (<[t := Exiting]> (pcs m)) (next_tid m) (EExit (tid p) status :: log m))
  (** The rest of [thread_exit] uses the structure of the thread. *)
  | step_finish t p : pcs m !! t = Some Exiting → procs m !! t = Some p →
      step m (Machine (procs m) (<[t := Dead]> (pcs m)) (next_tid m) (log m)).

(** The first process, with the main thread as its parent. *)
Definition boot (main first : Z) : machine :=
  Machine {[main := Proc 1 0 [first] 0 0 0 true []; first := Proc 2 main [] 0 0 0 false (replicate 1024 0)]}
    {[main := Running; first := Running]} 3 [].

(** ** What the operations do *)

Lemma get_proc_ok t p s : s !! t = Some p → get_proc t s = Ret (p, s).
Proof. intros H. unfold get_proc. by rewrite H. Qed.
Lemma set_proc_ok t p g (s : tree) : s !! t = Some p → set_proc t g s = Ret ((), <[t := g p]> s).
Proof. intros H. unfold set_proc. by rewrite H. Qed.
Lemma free_proc_ok t p (s : tree) : s !! t = Some p → free_proc t s = Ret ((), delete t s).
Proof. intros H. unfold free_proc. by rewrite H. Qed.

Lemma create_child_ok t n fp i s p : s !! t = Some p → t ≠ n →
  ∃ fl, create_child t (Some n) fp i s = Ret (i, <[t := with_children (children p ++ [n]) p]> (<[n := Proc i t [] 0 0 0 false fl]> s)) ∧
    fl = if fp : bool then replicate 1024 0 else [].
Proof.
  intros Hp Hn. eexists. split; [|reflexivity]. unfold create_child. rewrite cmodify. rewrite (cstep _ _ _ p _) by (apply get_proc_ok; by rewrite lookup_insert_ne).
  by rewrite (cstep _ _ _ _ _ (set_proc_ok _ p _ _ ltac:(by rewrite lookup_insert_ne))).
Qed.

(** The first child with a tid. *)
Definition named (s : tree) (i e : Z) : Prop := tid <$> s !! e = Some i.
#[local] Instance named_dec s i e : Decision (named s i e).
Proof. unfold named. apply _. Defined.

Lemma childelem_ok i l s : (∀ e, e ∈ l → is_Some (s !! e)) → childelem_from_tid i l s = Ret (snd <$> list_find (named s i) l, s).
Proof.
  induction l as [|e l IH]; intros Hl; [done|]. destruct (Hl e) as [p Hp]; [by left|]. cbn [childelem_from_tid]. rewrite (cstep _ _ _ _ _ (get_proc_ok _ _ _ Hp)).
  simpl. destruct (Z.eqb_spec (tid p) i) as [E|E]; [rewrite decide_True by (unfold named; rewrite Hp; simpl; by rewrite E); done|].
  rewrite decide_False by (unfold named; rewrite Hp; simpl; congruence). rewrite IH by (intros; apply Hl; by right). by destruct (list_find _ l) as [[]|].
Qed.

Lemma wait_loop_ok i l s : (∀ e, e ∈ l → is_Some (s !! e)) →
  match snd <$> list_find (named s i) l with
  | None => wait_loop i l s = Ret (-1, s)
  | Some e => ∃ p, s !! e = Some p ∧ tid p = i ∧
      wait_loop i l s = if 0 <? child_sema p then Ret (return_status p, <[e := with_child_sema (child_sema p - 1) p]> s) else Fail Blocked
  end.
Proof.
  induction l as [|e l IH]; intros Hl; [done|]. destruct (Hl e) as [p Hp]; [by left|]. simpl. case_decide as Hn; unfold named in Hn; rewrite Hp in Hn; simpl in Hn.
  - simpl. injection Hn as Hn. exists p. split; [done|]. split; [done|]. rewrite (cstep _ _ _ _ _ (get_proc_ok _ _ _ Hp)), Hn, Z.eqb_refl.
    destruct (0 <? child_sema p); [|done]. by rewrite (cstep _ _ _ _ _ (set_proc_ok _ p _ _ Hp)).
  - specialize (IH ltac:(intros; apply Hl; by right)). assert (wait_loop i (e :: l) s = wait_loop i l s) as E.
    { cbn [wait_loop]. rewrite (cstep _ _ _ _ _ (get_proc_ok _ _ _ Hp)). by destruct (Z.eqb_spec (tid p) i); [congruence|]. }
    change (wait_loop i (e :: l) s) with (wait_loop i (e :: l) s) in E. by destruct (list_find _ l) as [[]|]; simpl in *; setoid_rewrite E.
Qed.

Lemma find_unique (P : Z → Prop) `{!∀ x, Decision (P x)} l c : c ∈ l → P c → (∀ e, e ∈ l → P e → e = c) → snd <$> list_find P l = Some c.
Proof.
  intros Hc HP Hu. destruct (list_find P l) as [[j e]|] eqn:E.
  - apply list_find_Some in E as (Hj & HPe & _). simpl. f_equal. apply Hu; [by eapply list_elem_of_lookup_2|done].
  - apply list_find_None in E. rewrite Forall_forall in E. by apply E in Hc.
Qed.

(** [process_wait] of a process whose children are live and not itself. *)
Lemma process_wait_ok t i s p : s !! t = Some p → (∀ e, e ∈ children p → e ≠ t ∧ is_Some (s !! e)) →
  match snd <$> list_find (named s i) (children p) with
  | None => process_wait t i s = Ret (-1, s)
  | Some e => ∃ q, s !! e = Some q ∧ tid q = i ∧ e ∈ children p ∧
      process_wait t i s = if 0 <? child_sema q then Ret (return_status q, delete e (<[t := with_children (filter (.≠ e) (children p)) p]> s)) else Fail Blocked
  end.
Proof.
  intros Hp Hl. pose proof (wait_loop_ok i (children p) s) as Hw. unfold process_wait. rewrite (cstep _ _ _ _ _ (get_proc_ok _ _ _ Hp)).
  destruct (list_find (named s i) (children p)) as [[j e]|] eqn:Ef; simpl in *.
  - destruct Hw as (q & Hq & Hi & Hw); [by apply Hl|]. pose proof (proj1 (list_find_Some _ _ _ _) Ef) as (Hj & Hn & Hbefore).
    assert (e ∈ children p) as Hin by by eapply list_elem_of_lookup_2. exists q. split; [done|]. split; [done|]. split; [done|].
    destruct (Hl e Hin) as [Het _]. destruct (0 <? child_sema q); [|unfold mbind, cmd_bind; by rewrite Hw].
    rewrite (cstep _ _ _ _ _ Hw). set (s1 := <[e := _]> s). assert (s1 !! t = Some p) as Hp1 by (unfold s1; by rewrite lookup_insert_ne).
    rewrite (cstep _ _ _ _ _ (get_proc_ok _ _ _ Hp1)).
    assert (∀ x, named s1 i x ↔ named s i x) as Hsame.
    { intros x. unfold named, s1. destruct (decide (x = e)) as [->|]; [rewrite lookup_insert_eq, Hq; done|by rewrite lookup_insert_ne]. }
    rewrite (cstep _ _ _ (Some e) s1).
    2:{ rewrite childelem_ok by (intros x Hx; apply lookup_insert_is_Some'; right; by apply Hl).
        assert (list_find (named s1 i) (children p) = Some (j, e)) as ->; [|done]. apply list_find_Some. split; [done|]. split; [by apply Hsame|].
        intros k y Hk Hlt Hy. eapply Hbefore; [done|done|by apply Hsame]. }
    rewrite (cstep _ _ _ _ _ (set_proc_ok _ _ _ _ Hp1)).
    assert (∃ z, <[t:=with_children (filter (.≠ e) (children p)) p]> s1 !! e = Some z) as [z Hz] by (unfold s1; rewrite lookup_insert_ne, lookup_insert_eq by done; eauto).
    rewrite (cstep _ _ _ _ _ (free_proc_ok _ _ _ Hz)). unfold mret, cmd_ret. do 2 f_equal. unfold s1. rewrite insert_insert_ne, delete_insert_eq by done. done.
  - rewrite (cstep _ _ _ _ _ (Hw ltac:(by apply Hl))), (cstep _ _ _ _ _ (get_proc_ok _ _ _ Hp)).
    rewrite (cstep _ _ _ None s) by (rewrite childelem_ok by (by apply Hl); by rewrite Ef). done.
Qed.

Lemma orphan_loop_ok l : ∀ s, (∀ e, e ∈ l → is_Some (s !! e)) → ∃ s', orphan_loop l s = Ret ((), s') ∧
  ∀ x, s' !! x = (if decide (x ∈ l) then with_parent 0 else id) <$> s !! x.
Proof.
  induction l as [|e l IH]; intros s Hl; [exists s; split; [done|]; intros x; by destruct (s !! x)|].
  destruct (Hl e) as [p Hp]; [by left|]. cbn [orphan_loop]. rewrite (cstep _ _ _ _ _ (set_proc_ok _ p _ _ Hp)).
  destruct (IH (<[e := with_parent 0 p]> s)) as (s' & Hs & Hx); [intros x Hx; apply lookup_insert_is_Some'; right; apply Hl; by right|].
  exists s'. split; [done|]. intros x. rewrite Hx. destruct (decide (x = e)) as [->|Hne].
  - rewrite lookup_insert_eq, Hp. simpl. rewrite (decide_True (P := e ∈ e :: l)) by by left. by case_decide.
  - rewrite lookup_insert_ne by done. f_equal. erewrite decide_ext; [done|]. rewrite elem_of_cons. naive_solver.
Qed.

(** Freeing the children: nothing is freed, or the walk reads a freed page. *)
Lemma free_loop_none l s : (∀ e, e ∈ l → ∃ p, s !! e = Some p ∧ child_sema p ≤ 0) → free_loop l s = Ret ((), s).
Proof.
  induction l as [|e l IH]; intros Hl; [done|]. destruct (Hl e) as (p & Hp & Hs); [by left|]. cbn [free_loop].
  rewrite (cstep _ _ _ _ _ (get_proc_ok _ _ _ Hp)). destruct (Z.ltb_spec 0 (child_sema p)); [lia|]. rewrite (cstep _ _ _ () s) by done.
  rewrite (cstep _ _ _ _ _ (get_proc_ok _ _ _ Hp)). apply IH. intros x Hx. apply Hl. by right.
Qed.
Lemma free_loop_faults l s : (∀ e, e ∈ l → is_Some (s !! e)) → (∃ e p, e ∈ l ∧ s !! e = Some p ∧ 0 < child_sema p) → free_loop l s = Fail Fault.
Proof.
  induction l as [|e l IH]; intros Hl (x & q & Hx & Hq & Hs); [by apply elem_of_nil in Hx|]. destruct (Hl e) as [p Hp]; [by left|]. cbn [free_loop].
  rewrite (cstep _ _ _ _ _ (get_proc_ok _ _ _ Hp)). destruct (Z.ltb_spec 0 (child_sema p)).
  - rewrite (cstep _ _ _ () (delete e (<[e := with_child_sema (child_sema p - 1) p]> s))).
    + unfold mbind, cmd_bind, get_proc. by rewrite lookup_delete_eq.
    + rewrite (cstep _ _ _ _ _ (set_proc_ok _ p _ _ Hp)). eapply free_proc_ok. apply lookup_insert_eq.
  - rewrite (cstep _ _ _ () s) by done. rewrite (cstep _ _ _ _ _ (get_proc_ok _ _ _ Hp)). apply IH; [intros y Hy; apply Hl; by right|].
    exists x, q. split; [|done]. apply elem_of_cons in Hx as [->|Hx]; [|done]. rewrite Hp in Hq. injection Hq as ->. lia.
Qed.

(** ** The invariant *)

Definition is_done (x : pc) : bool := match x with Exiting | Dead => true | _ => false end.
Definition is_active (x : pc) : bool := match x with Running | InExec _ => true | _ => false end.
Definition is_calm (x : pc) : bool := is_done x || is_active x.
Definition calm (m : machine) (c : Z) : Prop := ∃ y, pcs m !! c = Some y ∧ is_calm y = true.

Record inv (m : machine) : Prop := {
  inv_live t x : pcs m !! t = Some x → is_done x = false → is_Some (procs m !! t);
  inv_pc t p : procs m !! t = Some p → t ≠ 0 ∧ 0 < tid p < next_tid m ∧ is_Some (pcs m !! t) ∧ NoDup (children p);
  inv_inj a b p q : procs m !! a = Some p → procs m !! b = Some q → tid p = tid q → a = b;
  inv_child t p x c : procs m !! t = Some p → pcs m !! t = Some x → is_active x = true → c ∈ children p → c ≠ t ∧ ∃ q, procs m !! c = Some q ∧ parent q = t;
  inv_leaf t p x : procs m !! t = Some p → pcs m !! t = Some x → is_calm x = false → children p = [];
  inv_done t p x : procs m !! t = Some p → pcs m !! t = Some x → is_done x = true → 0 < child_sema p ∧ EExit (tid p) (return_status p) ∈ log m;
  inv_sema t p x : procs m !! t = Some p → pcs m !! t = Some x → is_done x = false →
    child_sema p = match x with Failing => 1 | _ => 0 end ∧ ∀ st, EExit (tid p) st ∉ log m;
  inv_exits i a b : EExit i a ∈ log m → i < next_tid m ∧ (EExit i b ∈ log m → a = b);
  inv_loads i a b : ELoad i a ∈ log m → i < next_tid m ∧ (ELoad i b ∈ log m → a = b);
  inv_loading t p : procs m !! t = Some p → pcs m !! t = Some Loading → load_sema p = 0 ∧ (∀ b, ELoad (tid p) b ∉ log m) ∧
    ∃ q, procs m !! parent p = Some q ∧ pcs m !! parent p = Some (InExec (tid p)) ∧ t ∈ children q;
  inv_run t p : procs m !! t = Some p → pcs m !! t = Some Running → load_sema p = 0 ∧ ∀ c, c ∈ children p → calm m c;
  inv_exec t p pid : procs m !! t = Some p → pcs m !! t = Some (InExec pid) →
    ∃ c q y, c ∈ children p ∧ procs m !! c = Some q ∧ tid q = pid ∧ pcs m !! c = Some y ∧ (∀ c', c' ∈ children p → c' ≠ c → calm m c') ∧
      (y = Loading ∧ load_sema p = 0 ∨ y ≠ Loading ∧ load_sema p = 1 ∧ ELoad pid (success p) ∈ log m ∧ (success p = true → is_calm y = true))
}.

(** Case analysis on updated maps. *)
Ltac look := repeat match goal with
  | H : <[_ := _]> _ !! _ = Some _ |- _ => apply lookup_insert_Some in H as [[? ?]|[? ?]]
  | H : delete _ _ !! _ = Some _ |- _ => apply lookup_delete_Some in H as [? ?]
  end; simplify_eq; simpl in *.

Lemma boot_inv main first : main ≠ 0 → first ≠ 0 → main ≠ first → inv (boot main first).
Proof.
  intros Hm Hf Hmf. assert (∀ t p, procs (boot main first) !! t = Some p → t = main ∧ p = Proc 1 0 [first] 0 0 0 true [] ∨ t = first ∧ p = Proc 2 main [] 0 0 0 false (replicate 1024 0)) as Hp.
  { intros t p H. cbn [procs boot] in H. rewrite <- insert_empty in H. look; [by left|by right]. }
  assert (∀ t x, pcs (boot main first) !! t = Some x → x = Running ∧ (t = main ∨ t = first)) as Hx.
  { intros t x H. cbn [pcs boot] in H. rewrite <- insert_empty in H. look; by auto. }
  assert (procs (boot main first) !! main = Some (Proc 1 0 [first] 0 0 0 true [])) as E1 by apply lookup_insert_eq.
  assert (procs (boot main first) !! first = Some (Proc 2 main [] 0 0 0 false (replicate 1024 0))) as E2 by (cbn [procs boot]; rewrite lookup_insert_ne by done; apply lookup_singleton_eq).
  assert (pcs (boot main first) !! main = Some Running) as F1 by apply lookup_insert_eq.
  assert (pcs (boot main first) !! first = Some Running) as F2 by (cbn [pcs boot]; rewrite lookup_insert_ne by done; apply lookup_singleton_eq).
  split.
  - intros t x H _. apply Hx in H as [_ [-> | ->]]; [by rewrite E1|by rewrite E2].
  - intros t p H. apply Hp in H as [[-> ->]|[-> ->]]; (split; [done|]; split; [done|]; split; [by eexists|]; simpl; repeat constructor; set_solver).
  - intros a b p q Ha Hb. apply Hp in Ha as [[-> ->]|[-> ->]], Hb as [[-> ->]|[-> ->]]; done.
  - intros t p x c H _ _ Hc. apply Hp in H as [[-> ->]|[-> ->]]; simpl in Hc; [|by apply elem_of_nil in Hc]. apply list_elem_of_singleton in Hc as ->.
    split; [done|]. by eexists.
  - intros t p x _ H Hc. apply Hx in H as [-> _]. done.
  - intros t p x _ H Hc. apply Hx in H as [-> _]. done.
  - intros t p x H1 H _. apply Hx in H as [-> _]. apply Hp in H1 as [[-> ->]|[-> ->]]; (split; [done|]; intros st Hst; by apply elem_of_nil in Hst).
  - intros i a b H. by apply elem_of_nil in H.
  - intros i a b H. by apply elem_of_nil in H.
  - intros t p _ H. by apply Hx in H as [? _].
  - intros t p H _. apply Hp in H as [[-> ->]|[-> ->]]; (split; [done|]); intros c Hc; simpl in Hc; [|by apply elem_of_nil in Hc].
    apply list_elem_of_singleton in Hc as ->. by eexists.
  - intros t p pid _ H. by apply Hx in H as [? _].
Qed.

Section Preserved.
Context (m : machine) (Hi : inv m).

Lemma active_live t x : pcs m !! t = Some x → is_done x = false → ∃ p, procs m !! t = Some p.
Proof. intros Hx Hd. destruct (inv_live m Hi t x Hx Hd) as [p Hp]. by exists p. Qed.

Lemma exec_inv t n fpage s pid : pcs m !! t = Some Running → page_free m n →
  create_child t (Some n) fpage (next_tid m) (procs m) = Ret (pid, s) →
  inv (Machine s (<[n := Loading]> (<[t := InExec pid]> (pcs m))) (next_tid m + 1) (log m)).
Proof.
  intros Ht (Hn0 & Hn & Hnx) Hc. destruct (active_live t Running Ht eq_refl) as [p Hp]. assert (t ≠ n) as Htn by congruence.
  destruct (create_child_ok t n fpage (next_tid m) (procs m) p Hp Htn) as (fl & E & _). rewrite E in Hc. injection Hc as <- <-. clear E.
  assert (∀ c, c ∈ children p → c ≠ t ∧ c ≠ n ∧ calm m c ∧ ∃ q, procs m !! c = Some q ∧ parent q = t) as Hch.
  { intros c Hc. destruct (inv_child m Hi t p Running c Hp Ht eq_refl Hc) as (Hct & q & Hq & Hpar). split; [done|]. split; [congruence|]. split; [by apply (inv_run m Hi t p Hp Ht)|by exists q]. }
  assert (∀ c, calm m c → c ≠ n → calm (Machine (<[t := with_children (children p ++ [n]) p]> (<[n := Proc (next_tid m) t [] 0 0 0 false fl]> (procs m)))
    (<[n := Loading]> (<[t := InExec (next_tid m)]> (pcs m))) (next_tid m + 1) (log m)) c) as Hcalm.
  { intros c (y & Hy & Hc) H1. unfold calm. cbn [pcs]. rewrite lookup_insert_ne by done. destruct (decide (c = t)) as [->|]; simplify_map_eq; by eexists. }
  split; cbn [procs pcs next_tid log].
  - intros t' x H1 H2. destruct (decide (t' = t)) as [->|]; [|destruct (decide (t' = n)) as [->|]]; simplify_map_eq; try by eexists. by eapply inv_live.
  - intros t' p' H. destruct (decide (t' = t)) as [->|]; [|destruct (decide (t' = n)) as [->|]]; simplify_map_eq.
    + destruct (inv_pc m Hi t p Hp) as (H1 & H2 & H3 & H4). split; [done|]. split; [lia|]. split; [by eexists|].
      apply NoDup_app. split; [done|]. split; [|apply NoDup_singleton]. intros c Hc1 ->%list_elem_of_singleton. by destruct (Hch n Hc1) as (_ & ? & _).
    + destruct (inv_pc m Hi t p Hp) as (_ & H2 & _). split; [done|]. split; [lia|]. split; [by eexists|constructor].
    + destruct (inv_pc m Hi t' p' H) as (H3 & H4 & H5 & H6). split; [done|]. split; [lia|]. done.
  - assert (∀ a pa, <[t := with_children (children p ++ [n]) p]> (<[n := Proc (next_tid m) t [] 0 0 0 false fl]> (procs m)) !! a = Some pa →
      a = n ∧ tid pa = next_tid m ∨ ∃ q, procs m !! a = Some q ∧ tid q = tid pa) as Hid.
    { intros a pa Ha. destruct (decide (a = t)) as [->|]; [|destruct (decide (a = n)) as [->|]]; simplify_map_eq; eauto. }
    intros a b pa pb [[-> Ea]|(q & Hq & Ea)]%Hid [[-> Eb]|(q' & Hq' & Eb)]%Hid E; [done| | |].
    + destruct (inv_pc m Hi b q' Hq') as (_ & ? & _). lia.
    + destruct (inv_pc m Hi a q Hq) as (_ & ? & _). lia.
    + eapply inv_inj; [done..|congruence].
  - intros t' p' x c H1 H2 H3 Hc. destruct (decide (t' = t)) as [->|]; [|destruct (decide (t' = n)) as [->|]]; simplify_map_eq.
    + apply elem_of_app in Hc as [Hc| ->%list_elem_of_singleton]; [|split; [done|]; simplify_map_eq; by eexists].
      destruct (Hch c Hc) as (? & ? & _ & q & Hq & Hpar). split; [done|]. exists q. by simplify_map_eq.
    + destruct (inv_child m Hi t' p' x c) as (Hne & q & Hq & Hpar); [done..|]. split; [done|].
      destruct (decide (c = t)) as [->|]; [|assert (c ≠ n) by congruence]; simplify_map_eq; by eexists.
  - intros t' p' x H1 H2 H3. destruct (decide (t' = t)) as [->|]; [|destruct (decide (t' = n)) as [->|]]; simplify_map_eq; [done|]. by eapply inv_leaf.
  - intros t' p' x H1 H2 H3. destruct (decide (t' = t)) as [->|]; [|destruct (decide (t' = n)) as [->|]]; simplify_map_eq. by eapply inv_done.
  - intros t' p' x H1 H2 H3. destruct (decide (t' = t)) as [->|]; [|destruct (decide (t' = n)) as [->|]]; simplify_map_eq.
    + by apply (inv_sema m Hi t p Running).
    + split; [done|]. intros st Hst. apply (inv_exits m Hi _ _ st) in Hst. lia.
    + by eapply inv_sema.
  - intros i a b H. destruct (inv_exits m Hi i a b H). split; [lia|done].
  - intros i a b H. destruct (inv_loads m Hi i a b H). split; [lia|done].
  - intros t' p' H1 H2. destruct (decide (t' = t)) as [->|]; [|destruct (decide (t' = n)) as [->|]]; simplify_map_eq.
    + split; [done|]. split; [intros b Hb; apply (inv_loads m Hi _ _ b) in Hb; lia|]. eexists. split; [done|]. split; [done|]. simpl. apply elem_of_app. right. by left.
    + destruct (inv_loading m Hi t' p' H1 H2) as (Hz & Hl & q & Hq & Hqx & Hin). split; [done|]. split; [done|]. assert (parent p' ≠ t) by congruence. assert (parent p' ≠ n) by congruence.
      exists q. by simplify_map_eq.
  - intros t' p' H1 H2. destruct (decide (t' = t)) as [->|]; [|destruct (decide (t' = n)) as [->|]]; simplify_map_eq.
    destruct (inv_run m Hi t' p' H1 H2) as [Hl Hc]. split; [done|]. intros c Hin. destruct (inv_child m Hi t' p' Running c) as (_ & q & Hq & Hpar); [done..|].
    apply Hcalm; [by apply Hc|congruence].
  - intros t' p' pid H1 H2. destruct (decide (t' = t)) as [->|]; [|destruct (decide (t' = n)) as [->|]]; simplify_map_eq.
    + eexists n, _, Loading. split; [simpl; apply elem_of_app; right; by left|]. simplify_map_eq. split; [done|]. split; [done|]. split; [done|]. split.
      * intros c Hc Hcn. simpl in Hc. apply elem_of_app in Hc as [Hc| ->%list_elem_of_singleton]; [|done]. apply Hcalm; [by apply Hch|done].
      * left. split; [done|]. simpl. apply (inv_run m Hi t p Hp Ht).
    + destruct (inv_exec m Hi t' p' pid H1 H2) as (c & q & y & Hc & Hq & Hpid & Hy & Hoth & Hcase). assert (c ≠ n) by congruence.
      assert (∀ c', c' ∈ children p' → c' ≠ n) as Hnn.
      { intros c' Hc'. destruct (inv_child m Hi t' p' (InExec pid) c') as (_ & q' & Hq' & _); [done..|]. congruence. }
      destruct (decide (c = t)) as [->|].
      * eexists t, _, _. simplify_map_eq. split; [done|]. split; [done|]. split; [done|]. split; [done|]. split; [intros c' Hc' Hne; apply Hcalm; [by apply Hoth|by apply Hnn]|].
        right. destruct Hcase as [[? _]|(_ & ? & ? & _)]; [done|]. done.
      * exists c, q, y. simplify_map_eq. split; [done|]. split; [done|]. split; [done|]. split; [done|]. split; [intros c' Hc' Hne; apply Hcalm; [by apply Hoth|by apply Hnn]|done].
Qed.

(** Steps that keep the links: each structure keeps its tid, parent and
    children. *)
Definition links (p : proc) : Z * Z * list Z := (tid p, parent p, children p).
Record same_links (m' : machine) : Prop := {
  sl_links t : links <$> procs m' !! t = links <$> procs m !! t;
  sl_tid : next_tid m' = next_tid m;
  sl_pcs t x' : pcs m' !! t = Some x' → ∃ x, pcs m !! t = Some x ∧ (is_done x' = false → is_done x = false) ∧ (is_active x' = true → is_active x = true ∨ is_calm x = false) ∧
    (is_calm x' = false → is_calm x = false);
  sl_pcs' t : is_Some (pcs m !! t) → is_Some (pcs m' !! t)
}.

Lemma links_back m' t p' : same_links m' → procs m' !! t = Some p' → ∃ p, procs m !! t = Some p ∧ tid p = tid p' ∧ parent p = parent p' ∧ children p = children p'.
Proof.
  intros [Hl _ _ _] Hp. specialize (Hl t). rewrite Hp in Hl. symmetry in Hl. apply fmap_Some in Hl as (p & Hp0 & E). injection E as ? ? ?. by exists p.
Qed.
Lemma links_forth m' t p : same_links m' → procs m !! t = Some p → ∃ p', procs m' !! t = Some p' ∧ tid p = tid p' ∧ parent p = parent p' ∧ children p = children p'.
Proof.
  intros [Hl _ _ _] Hp. specialize (Hl t). rewrite Hp in Hl. apply fmap_Some in Hl as (p' & Hp0 & E). injection E as ? ? ?. by exists p'.
Qed.

(** What remains to be shown of such a step. *)
Record rest_ok (m' : machine) : Prop := {
  ro_done t p x : procs m' !! t = Some p → pcs m' !! t = Some x → is_done x = true → 0 < child_sema p ∧ EExit (tid p) (return_status p) ∈ log m';
  ro_sema t p x : procs m' !! t = Some p → pcs m' !! t = Some x → is_done x = false →
    child_sema p = match x with Failing => 1 | _ => 0 end ∧ ∀ st, EExit (tid p) st ∉ log m';
  ro_exits i a b : EExit i a ∈ log m' → i < next_tid m' ∧ (EExit i b ∈ log m' → a = b);
  ro_loads i a b : ELoad i a ∈ log m' → i < next_tid m' ∧ (ELoad i b ∈ log m' → a = b);
  ro_loading t p : procs m' !! t = Some p → pcs m' !! t = Some Loading → load_sema p = 0 ∧ (∀ b, ELoad (tid p) b ∉ log m') ∧
    ∃ q, procs m' !! parent p = Some q ∧ pcs m' !! parent p = Some (InExec (tid p)) ∧ t ∈ children q;
  ro_run t p : procs m' !! t = Some p → pcs m' !! t = Some Running → load_sema p = 0 ∧ ∀ c, c ∈ children p → calm m' c;
  ro_exec t p pid : procs m' !! t = Some p → pcs m' !! t = Some (InExec pid) →
    ∃ c q y, c ∈ children p ∧ procs m' !! c = Some q ∧ tid q = pid ∧ pcs m' !! c = Some y ∧ (∀ c', c' ∈ children p → c' ≠ c → calm m' c') ∧
      (y = Loading ∧ load_sema p = 0 ∨ y ≠ Loading ∧ load_sema p = 1 ∧ ELoad pid (success p) ∈ log m' ∧ (success p = true → is_calm y = true))
}.

Lemma same_links_inv m' : same_links m' → rest_ok m' → inv m'.
Proof.
  intros Hs [? ? ? ? ? ? ?]. split; try assumption.
  - intros t x' Hx' Hd. destruct (sl_pcs m' Hs t x' Hx') as (x & Hx & H1 & _). destruct (active_live t x Hx (H1 Hd)) as [p Hp].
    destruct (links_forth m' t p Hs Hp) as (p' & Hp' & _). by exists p'.
  - intros t p' Hp'. destruct (links_back m' t p' Hs Hp') as (p & Hp & <- & _ & <-). destruct (inv_pc m Hi t p Hp) as (H1 & H2 & H3 & H4).
    split; [done|]. split; [by rewrite (sl_tid m' Hs)|]. split; [by apply (sl_pcs' m' Hs)|done].
  - intros a b p' q' (p & Hp & <- & _)%(links_back m' _ _ Hs) (q & Hq & <- & _)%(links_back m' _ _ Hs) E. by eapply inv_inj.
  - intros t p' x' c (p & Hp & _ & _ & <-)%(links_back m' _ _ Hs) Hx' Ha Hc. destruct (sl_pcs m' Hs t x' Hx') as (x & Hx & _ & H2 & _).
    destruct (H2 Ha) as [Hax|Hcx]; [|rewrite (inv_leaf m Hi t p x Hp Hx Hcx) in Hc; by apply elem_of_nil in Hc].
    destruct (inv_child m Hi t p x c Hp Hx Hax Hc) as (Hne & q & Hq & <-). split; [done|]. destruct (links_forth m' c q Hs Hq) as (q' & Hq' & _ & ? & _). by exists q'.
  - intros t p' x' (p & Hp & _ & _ & <-)%(links_back m' _ _ Hs) Hx' Hc. destruct (sl_pcs m' Hs t x' Hx') as (x & Hx & _ & _ & H3).
    by apply (inv_leaf m Hi t p x Hp Hx), H3.
Qed.

Lemma update_links a p p' t x x' l : procs m !! a = Some p → links p' = links p → pcs m !! t = Some x →
  (is_done x' = false → is_done x = false) → (is_active x' = true → is_active x = true ∨ is_calm x = false) → (is_calm x' = false → is_calm x = false) →
  same_links (Machine (<[a := p']> (procs m)) (<[t := x']> (pcs m)) (next_tid m) l).
Proof.
  intros Hp Hl Hx H1 H2 H3. split; cbn [procs pcs next_tid].
  - intros b. destruct (decide (b = a)) as [->|]; simplify_map_eq; [unfold links; congruence|done].
  - done.
  - intros b y Hy. destruct (decide (b = t)) as [->|]; simplify_map_eq; [by exists x|]. exists y. by split; [|split; [|split; [left|]]].
  - intros b Hb. destruct (decide (b = t)) as [->|]; simplify_map_eq; [by eexists|done].
Qed.

(** A thread that becomes calm, or stays so. *)
Lemma calm_update s t x' n l c : calm m c → is_calm x' = true → calm (Machine s (<[t := x']> (pcs m)) n l) c.
Proof.
  intros (y & Hy & Hc) Hx. unfold calm. cbn [pcs]. destruct (decide (c = t)) as [->|]; simplify_map_eq; by eexists.
Qed.
Lemma calm_other s t x' n l c : calm m c → c ≠ t → calm (Machine s (<[t := x']> (pcs m)) n l) c.
Proof. intros (y & Hy & Hc) Hx. unfold calm. cbn [pcs]. simplify_map_eq. by eexists. Qed.

Lemma loaded_inv t p ok s : pcs m !! t = Some Loading → procs m !! t = Some p → report_load t ok (procs m) = Ret ((), s) →
  inv (Machine s (<[t := if ok : bool then Running else LoadFailed]> (pcs m)) (next_tid m) (ELoad (tid p) ok :: log m)).
Proof.
  intros Ht Hp Hr. destruct (inv_loading m Hi t p Hp Ht) as (Hls & Hnl & q & Hq & Hqx & Hin). assert (t ≠ parent p) as Htp by congruence.
  unfold report_load in Hr. rewrite (cstep _ _ _ _ _ (get_proc_ok _ _ _ Hp)), (cstep _ _ _ _ _ (set_proc_ok _ _ _ _ Hq)) in Hr.
  rewrite (cstep _ _ _ (with_success ok q) _) in Hr by (apply get_proc_ok, lookup_insert_eq). rewrite (set_proc_ok _ (with_success ok q)) in Hr by apply lookup_insert_eq.
  injection Hr as <-. rewrite insert_insert_eq. set (q' := with_load_sema _ _).
  destruct (inv_exec m Hi (parent p) q (tid p) Hq Hqx) as (c & r & y & Hc & Hr & Hrt & Hy & Hoth & Hcase).
  assert (c = t) as -> by (eapply (inv_inj m Hi); eauto). assert (y = Loading) as -> by congruence. destruct Hcase as [[_ Hl0]|[? _]]; [|done].
  assert (∀ c, c ∈ children q → c ≠ t → calm (Machine (<[parent p := q']> (procs m)) (<[t := if ok then Running else LoadFailed]> (pcs m)) (next_tid m) (ELoad (tid p) ok :: log m)) c) as Hcalm.
  { intros c' Hc' Hne. apply calm_other; [by apply Hoth|done]. }
  assert (same_links (Machine (<[parent p := q']> (procs m)) (<[t := if ok then Running else LoadFailed]> (pcs m)) (next_tid m) (ELoad (tid p) ok :: log m))) as Hs.
  { eapply update_links; [done|done|done|..]; destruct ok; try done; by right. }
  apply same_links_inv; [done|]. split; cbn [procs pcs next_tid log].
  - intros t' p' x H1 H2 H3. destruct (decide (t' = t)) as [->|]; simplify_map_eq; [by destruct ok|]. destruct (decide (t' = parent p)) as [->|]; simplify_map_eq.
    destruct (inv_done m Hi t' p' x) as [H4 H5]; [done..|]. split; [done|by right].
  - intros t' p' x H1 H2 H3. assert (∃ p0, procs m !! t' = Some p0 ∧ child_sema p0 = child_sema p' ∧ tid p0 = tid p') as (p0 & Hp0 & <- & <-).
    { destruct (decide (t' = parent p)) as [->|]; simplify_map_eq; by eexists. }
    assert (∃ x0, pcs m !! t' = Some x0 ∧ is_done x0 = false ∧ match x0 with Failing => 1 | _ => 0 end = match x with Failing => 1 | _ => 0 end) as (x0 & Hx0 & Hd0 & <-).
    { destruct (decide (t' = t)) as [->|]; simplify_map_eq; [|by eexists]. exists Loading. by destruct ok. }
    destruct (inv_sema m Hi t' p0 x0 Hp0 Hx0 Hd0) as [H4 H5]. split; [done|]. intros st [[=]|Hst]%elem_of_cons. by eapply H5.
  - intros i a b [[=]|H]%elem_of_cons. destruct (inv_exits m Hi i a b H) as [H1 H2]. split; [done|]. by intros [[=]|Hb]%elem_of_cons; auto.
  - intros i a b [[= -> ->]|H]%elem_of_cons.
    + split; [by eapply inv_pc|]. intros [[= ->]|Hb]%elem_of_cons; [done|]. by apply Hnl in Hb.
    + destruct (inv_loads m Hi i a b H) as [H1 H2]. split; [done|]. intros [[= -> ->]|Hb]%elem_of_cons; [by apply Hnl in H|by auto].
  - intros t' p' H1 H2. destruct (decide (t' = t)) as [->|]; simplify_map_eq; [by destruct ok|]. destruct (decide (t' = parent p)) as [->|]; simplify_map_eq.
    destruct (inv_loading m Hi t' p' H1 H2) as (Hls' & Hl & z & Hz & Hzx & Hzi). assert (tid p' ≠ tid p) as Hne. { intros E. by apply (inv_inj m Hi t' t p' p) in E. }
    assert (parent p' ≠ parent p) by (intros E; rewrite E, Hqx in Hzx; congruence). assert (parent p' ≠ t) by congruence.
    split; [done|]. split; [intros b [[= ? ?]|Hb]%elem_of_cons; [done|by eapply Hl]|]. exists z. by simplify_map_eq.
  - intros t' p' H1 H2. destruct (decide (t' = parent p)) as [->|]; simplify_map_eq. destruct (decide (t' = t)) as [->|]; simplify_map_eq.
    + split; [done|]. rewrite (inv_leaf m Hi t p Loading Hp Ht eq_refl). intros c Hc'. by apply elem_of_nil in Hc'.
    + destruct (inv_run m Hi t' p' H1 H2) as [H3 H4]. split; [done|]. intros c Hc'. apply calm_other; [by apply H4|]. intros ->. destruct (H4 t Hc') as (y & Hy' & Hcy). by simplify_map_eq.
  - intros t' p' pid H1 H2. destruct (decide (t' = t)) as [->|]; simplify_map_eq; [by destruct ok|]. destruct (decide (t' = parent p)) as [->|]; simplify_map_eq.
    + exists t, p. eexists. simplify_map_eq. split; [done|]. split; [done|]. split; [done|]. split; [done|]. split; [done|]. right. split; [by destruct ok|].
      split; [cbn; lia|]. split; [by left|]. cbn. by intros ->.
    + destruct (inv_exec m Hi t' p' pid H1 H2) as (c & r' & y & Hc' & Hr' & Hrt' & Hy' & Hoth' & Hcase).
      assert (c ≠ t). { intros ->. destruct (inv_child m Hi t' p' (InExec pid) t) as (_ & z & Hz & Hzp); [done..|]. simplify_map_eq. }
      assert (∀ c', c' ∈ children p' → c' ≠ t) as Hnt.
      { intros c' Hcc ->. destruct (inv_child m Hi t' p' (InExec pid) t) as (_ & z & Hz & Hzp); [done..|]. simplify_map_eq. }
      destruct (decide (c = parent p)) as [->|].
      * eexists (parent p), _, _. simplify_map_eq. split; [done|]. split; [done|]. split; [done|]. split; [done|].
        split; [intros c' Hcc Hne; apply calm_other; [by apply Hoth'|by apply Hnt]|]. destruct Hcase as [[? _]|(H3 & H4 & H5 & H6)]; [done|]. right. by split; [|split; [|split; [right|]]].
      * exists c, r', y. simplify_map_eq. split; [done|]. split; [done|]. split; [done|]. split; [done|].
        split; [intros c' Hcc Hne; apply calm_other; [by apply Hoth'|by apply Hnt]|]. destruct Hcase as [?|(H3 & H4 & H5 & H6)]; [by left|]. right. by split; [|split; [|split; [right|]]].
Qed.

(** A step of a thread that is neither loading nor active changes nothing for
    the others. *)
Lemma local_inv t p x x' n : procs m !! t = Some p → pcs m !! t = Some x → is_active x = false → is_active x' = false → x ≠ Loading → x' ≠ Loading →
  is_done x' = is_done x → (is_done x = true → n = child_sema p) → (is_done x = false → n = match x' with Failing => 1 | _ => 0 end) →
  inv (Machine (<[t := with_child_sema n p]> (procs m)) (<[t := x']> (pcs m)) (next_tid m) (log m)).
Proof.
  intros Hp Hx Ha Ha' Hl Hl' Hd Hn1 Hn2. assert (is_calm x' = is_calm x) as Hc by (unfold is_calm; congruence).
  assert (∀ c, calm m c → calm (Machine (<[t := with_child_sema n p]> (procs m)) (<[t := x']> (pcs m)) (next_tid m) (log m)) c) as Hcalm.
  { intros c (y & Hy & Hyc). destruct (decide (c = t)) as [->|]; [|by apply calm_other; [eexists|]]. simplify_map_eq. exists x'. cbn. by rewrite lookup_insert_eq, Hc. }
  apply same_links_inv; [eapply update_links; try done; [by rewrite Hd|by rewrite Ha'|by rewrite Hc]|]. split; cbn [procs pcs next_tid log].
  - intros t' p' y H1 H2 H3. destruct (decide (t' = t)) as [->|]; simplify_map_eq; [|by eapply inv_done]. rewrite Hn1 by congruence. apply (inv_done m Hi t p x); congruence.
  - intros t' p' y H1 H2 H3. destruct (decide (t' = t)) as [->|]; simplify_map_eq; [|by eapply inv_sema]. split; [apply Hn2; congruence|]. apply (inv_sema m Hi t p x); congruence.
  - apply (inv_exits m Hi).
  - apply (inv_loads m Hi).
  - intros t' p' H1 H2. destruct (decide (t' = t)) as [->|]; simplify_map_eq. destruct (inv_loading m Hi t' p' H1 H2) as (Hz & Hb & q & Hq & Hqx & Hin).
    split; [done|]. split; [done|]. assert (parent p' ≠ t) by (intros E; rewrite E, Hx in Hqx; injection Hqx as ->; done). exists q. by simplify_map_eq.
  - intros t' p' H1 H2. destruct (decide (t' = t)) as [->|]; simplify_map_eq. destruct (inv_run m Hi t' p' H1 H2) as [H3 H4]. split; [done|]. intros c Hcc. by apply Hcalm, H4.
  - intros t' p' pid H1 H2. destruct (decide (t' = t)) as [->|]; simplify_map_eq. destruct (inv_exec m Hi t' p' pid H1 H2) as (c & q & y & Hcc & Hq & Hpid & Hy & Hoth & Hcase).
    destruct (decide (c = t)) as [->|]; simplify_map_eq.
    + eexists t, _, x'. simplify_map_eq. split; [done|]. split; [done|]. split; [done|]. split; [done|]. split; [intros; by apply Hcalm, Hoth|].
      right. destruct Hcase as [[-> _]|(H3 & H4 & H5 & H6)]; [done|]. rewrite Hc. done.
    + exists c, q, y. simplify_map_eq. split; [done|]. split; [done|]. split; [done|]. split; [done|]. split; [intros; by apply Hcalm, Hoth|done].
Qed.

Lemma failing_inv t s : pcs m !! t = Some LoadFailed → fail_load t (procs m) = Ret ((), s) → inv (Machine s (<[t := Failing]> (pcs m)) (next_tid m) (log m)).
Proof.
  intros Ht Hf. destruct (active_live t _ Ht eq_refl) as [p Hp]. unfold fail_load in Hf. rewrite (cstep _ _ _ _ _ (get_proc_ok _ _ _ Hp)), (set_proc_ok _ p) in Hf by done.
  injection Hf as <-. destruct (inv_sema m Hi t p _ Hp Ht eq_refl) as [E _]. apply (local_inv t p LoadFailed); try done. intros _. lia.
Qed.
Lemma finish_inv t p : pcs m !! t = Some Exiting → procs m !! t = Some p → inv (Machine (procs m) (<[t := Dead]> (pcs m)) (next_tid m) (log m)).
Proof.
  intros Ht Hp. replace (procs m) with (<[t := with_child_sema (child_sema p) p]> (procs m)); [by apply (local_inv t p Exiting)|]. apply insert_id. rewrite Hp. by destruct p.
Qed.

(** A thread that goes on running after it has dropped some of its children,
    which may have been freed. *)
Lemma prune_inv t p p' x s : procs m !! t = Some p → pcs m !! t = Some x → is_active x = true →
  tid p' = tid p → parent p' = parent p → child_sema p' = child_sema p → load_sema p' = 0 →
  NoDup (children p') → (∀ c, c ∈ children p' → c ∈ children p ∧ calm m c) →
  (∀ a q, procs m !! a = Some q → pcs m !! a = Some Loading → parent q ≠ t) →
  s !! t = Some p' → (∀ a q, a ≠ t → s !! a = Some q → procs m !! a = Some q) →
  (∀ a q, a ≠ t → procs m !! a = Some q → s !! a = Some q ∨ a ∉ children p' ∧ parent q = t ∧ ∃ y, pcs m !! a = Some y ∧ is_done y = true) →
  inv (Machine s (<[t := Running]> (pcs m)) (next_tid m) (log m)).
Proof.
  intros Hp Hx Ha Et Ep Ec El Hnd Hch Hnl Hst Hback Hforth.
  assert (∀ c, calm m c → calm (Machine s (<[t := Running]> (pcs m)) (next_tid m) (log m)) c) as Hcalm by (intros c Hc; by apply calm_update).
  assert (is_done x = false) as Hd by by destruct x. assert (x ≠ Failing) as Hxf by by intros ->.
  assert (∀ t' p' x' c, t' ≠ t → procs m !! t' = Some p' → pcs m !! t' = Some x' → is_active x' = true → c ∈ children p' → c ≠ t' ∧ ∃ q, procs m !! c = Some q ∧ parent q = t' ∧ (c = t ∨ s !! c = Some q)) as Hother.
  { intros t' q x' c Hne Hq Hqx Hqa Hc. destruct (inv_child m Hi t' q x' c Hq Hqx Hqa Hc) as (H1 & r & Hr & Hrp). split; [done|]. exists r. split; [done|]. split; [done|].
    destruct (decide (c = t)) as [->|Hct]; [by left|right]. destruct (Hforth c r Hct Hr) as [|(_ & ? & _)]; [done|congruence]. }
  split; cbn [procs pcs next_tid log].
  - intros t' y Hy Hyd. destruct (decide (t' = t)) as [->|]; [by eexists|]. simplify_map_eq. destruct (active_live t' y Hy Hyd) as [q Hq].
    destruct (Hforth t' q ltac:(done) Hq) as [?|(_ & _ & z & Hz & Hzd)]; [by eexists|congruence].
  - intros t' q Hq. destruct (decide (t' = t)) as [->|]; simplify_map_eq.
    + destruct (inv_pc m Hi t p Hp) as (H1 & H2 & H3 & H4). split; [done|]. rewrite Et. split; [done|]. split; [by eexists|done].
    + apply (inv_pc m Hi t' q). by apply Hback.
  - intros a b q r Hq Hr E. assert (∀ a q, s !! a = Some q → ∃ q0, procs m !! a = Some q0 ∧ tid q0 = tid q) as Hid.
    { intros a' q' Hq'. destruct (decide (a' = t)) as [->|Hat]; [rewrite Hst in Hq'; injection Hq' as <-; by exists p|]. exists q'. split; [exact (Hback a' q' Hat Hq')|done]. }
    destruct (Hid a q Hq) as (q0 & Hq0 & Eq), (Hid b r Hr) as (r0 & Hr0 & Er). eapply inv_inj; [done..|congruence].
  - intros t' q y c Hq Hy Hya Hc. destruct (decide (t' = t)) as [->|]; simplify_map_eq.
    + destruct (Hch c Hc) as [Hc0 _]. destruct (inv_child m Hi t p x c Hp Hx Ha Hc0) as (H1 & r & Hr & Hrp). split; [done|].
      destruct (Hforth c r H1 Hr) as [?|(? & _)]; [by exists r|done].
    + destruct (Hother t' q y c) as (H1 & r & Hr & Hrp & [->|Hrs]); [done|by apply Hback|done..| |]; (split; [done|]); [|by exists r]. exists p'. split; [done|congruence].
  - intros t' q y Hq Hy Hyc. destruct (decide (t' = t)) as [->|]; simplify_map_eq. eapply (inv_leaf m Hi t' q); [by apply Hback|done..].
  - intros t' q y Hq Hy Hyd. destruct (decide (t' = t)) as [->|]; simplify_map_eq. eapply (inv_done m Hi t' q); [by apply Hback|done..].
  - intros t' q y Hq Hy Hyd. destruct (decide (t' = t)) as [->|]; simplify_map_eq.
    + destruct (inv_sema m Hi t p x Hp Hx Hd) as [H1 H2]. rewrite Ec, Et. split; [|done]. by destruct x.
    + eapply (inv_sema m Hi t' q); [by apply Hback|done..].
  - apply (inv_exits m Hi).
  - apply (inv_loads m Hi).
  - intros t' q Hq Hy. destruct (decide (t' = t)) as [->|]; simplify_map_eq. pose proof (Hback t' q ltac:(done) Hq) as Hq0.
    destruct (inv_loading m Hi t' q Hq0 Hy) as (H1 & H2 & r & Hr & Hrx & Hin). split; [done|]. split; [done|]. pose proof (Hnl t' q Hq0 Hy) as Hpar. exists r. simplify_map_eq.
    split; [|done]. destruct (Hforth (parent q) r Hpar Hr) as [|(_ & _ & z & Hz & Hzd)]; [done|]. by simplify_map_eq.
  - intros t' q Hq Hy. destruct (decide (t' = t)) as [->|]; simplify_map_eq; [split; [done|]; intros c Hc; by apply Hcalm, Hch|].
    destruct (inv_run m Hi t' q) as [H1 H2]; [by apply Hback|done|]. split; [done|]. intros c Hc. by apply Hcalm, H2.
  - intros t' q pid Hq Hy. destruct (decide (t' = t)) as [->|]; simplify_map_eq. pose proof (Hback t' q ltac:(done) Hq) as Hq0.
    destruct (inv_exec m Hi t' q pid Hq0 Hy) as (c & r & y & Hc & Hr & Hpid & Hcy & Hoth & Hcase).
    destruct (Hother t' q (InExec pid) c) as (_ & r' & Hr' & _ & [->|Hrs]); [done..| |]; simplify_map_eq.
    + exists t, p', Running. simplify_map_eq. split; [done|]. split; [done|]. split; [done|]. split; [done|]. split; [intros; by apply Hcalm, Hoth|].
      right. split; [done|]. destruct Hcase as [[-> _]|(_ & H4 & H5 & H6)]; [done|]. rewrite ?Et. done.
    + destruct (decide (c = t)) as [->|].
      * exists t, r, Running. simplify_map_eq. split; [done|]. split; [done|]. split; [done|]. split; [done|]. split; [intros; by apply Hcalm, Hoth|].
        right. split; [done|]. destruct Hcase as [[-> _]|(_ & H4 & H5 & H6)]; [done|]. done.
      * exists c, r, y. simplify_map_eq. split; [done|]. split; [done|]. split; [done|]. split; [done|]. split; [intros; by apply Hcalm, Hoth|done].
Qed.

Lemma find_child t p x c q s : procs m !! t = Some p → pcs m !! t = Some x → is_active x = true → c ∈ children p → procs m !! c = Some q →
  (∀ e, tid <$> s !! e = tid <$> procs m !! e) → snd <$> list_find (named s (tid q)) (children p) = Some c.
Proof.
  intros Hp Hx Ha Hc Hq Hs. apply find_unique; [done|unfold named; by rewrite Hs, Hq|]. intros e He Hn. unfold named in Hn. rewrite Hs in Hn.
  apply fmap_Some in Hn as (r & Hr & E). by eapply inv_inj.
Qed.

(** The value that [sys_exec] returns, once the child has reported. *)
Lemma exec_result_cases t p pid : procs m !! t = Some p → pcs m !! t = Some (InExec pid) →
  ∃ c q, c ∈ children p ∧ procs m !! c = Some q ∧ tid q = pid ∧ (∀ c', c' ∈ children p → c' ≠ c → calm m c') ∧
    (pcs m !! c = Some Loading ∧ exec_result t pid (procs m) = Fail Blocked ∨
     pcs m !! c ≠ Some Loading ∧ ELoad pid (success p) ∈ log m ∧
     if success p then calm m c ∧ exec_result t pid (procs m) = Ret (pid, <[t := with_load_sema 0 p]> (procs m))
     else exec_result t pid (procs m) = Ret (-1, <[t := with_children (filter (.≠ c) (children p)) (with_load_sema 0 p)]> (procs m))).
Proof.
  intros Hp Hx. destruct (inv_exec m Hi t p pid Hp Hx) as (c & q & y & Hc & Hq & Hpid & Hy & Hoth & Hcase). exists c, q. split; [done|]. split; [done|]. split; [done|]. split; [done|].
  destruct (inv_pc m Hi c q Hq) as (_ & Hpos & _). unfold exec_result. destruct (Z.eqb_spec pid TID_ERROR); [unfold TID_ERROR in *; lia|].
  rewrite (cstep _ _ _ _ _ (get_proc_ok _ _ _ Hp)). destruct Hcase as [[-> Hl]|(Hyl & Hl & Hev & Hs)]; rewrite Hl; [by left|right].
  split; [congruence|]. split; [done|]. cbn [Z.ltb Z.compare]. rewrite (cstep _ _ _ _ _ (set_proc_ok _ p _ _ Hp)). change (1 - 1) with 0.
  destruct (success p); [split; [by exists y; split; [|apply Hs]|done]|].
  rewrite (cstep _ _ _ (Some c) (<[t := with_load_sema 0 p]> (procs m))).
  - rewrite (cstep _ _ _ _ _ (set_proc_ok _ _ _ _ (lookup_insert_eq _ _ _))), insert_insert_eq. done.
  - rewrite childelem_ok; [|intros e He; apply lookup_insert_is_Some'; right; destruct (inv_child m Hi t p _ e Hp Hx eq_refl He) as (_ & z & Hz & _); by exists z].
    subst pid. by rewrite (find_child t p (InExec (tid q)) c q); [|done..|intros e; destruct (decide (e = t)) as [->|]; simplify_map_eq].
Qed.

Lemma exec_done_inv t pid r s : pcs m !! t = Some (InExec pid) → exec_result t pid (procs m) = Ret (r, s) →
  inv (Machine s (<[t := Running]> (pcs m)) (next_tid m) (log m)).
Proof.
  intros Hx Hr. destruct (active_live t _ Hx eq_refl) as [p Hp]. destruct (inv_pc m Hi t p Hp) as (_ & _ & _ & Hnd).
  destruct (exec_result_cases t p pid Hp Hx) as (c & q & Hc & Hq & Hpid & Hoth & [[_ E]|(Hy & _ & E)]); [congruence|].
  assert (∀ a z, procs m !! a = Some z → pcs m !! a = Some Loading → parent z ≠ t) as Hnl.
  { intros a z Ha Hax Hpar. destruct (inv_loading m Hi a z Ha Hax) as (_ & _ & w & _ & Hwx & _). rewrite Hpar, Hx in Hwx. injection Hwx as Hwx.
    apply Hy. replace c with a; [done|]. eapply inv_inj; [done..|congruence]. }
  destruct (success p); [destruct E as [Hcc E]|]; rewrite E in Hr; injection Hr as <- <-.
  - eapply (prune_inv t p (with_load_sema 0 p)); try done.
    + intros c' Hc'. split; [done|]. destruct (decide (c' = c)) as [->|]; [done|by apply Hoth].
    + apply lookup_insert_eq.
    + intros a z Ha Hz. by simplify_map_eq.
    + intros a z Ha Hz. left. by simplify_map_eq.
  - eapply (prune_inv t p (with_children (filter (.≠ c) (children p)) (with_load_sema 0 p))); try done.
    + by apply NoDup_filter.
    + intros c' [Hne Hc']%list_elem_of_filter. split; [done|by apply Hoth].
    + apply lookup_insert_eq.
    + intros a z Ha Hz. by simplify_map_eq.
    + intros a z Ha Hz. left. by simplify_map_eq.
Qed.

(** [process_wait]: there is no such child, or it has not exited, or its
    status is returned and it is freed. *)
Lemma wait_cases t p i : procs m !! t = Some p → pcs m !! t = Some Running →
  (process_wait t i (procs m) = Ret (-1, procs m) ∧ ∀ c q, c ∈ children p → procs m !! c = Some q → tid q ≠ i) ∨
  ∃ c q y, c ∈ children p ∧ procs m !! c = Some q ∧ tid q = i ∧ parent q = t ∧ c ≠ t ∧ pcs m !! c = Some y ∧
    if is_done y then process_wait t i (procs m) = Ret (return_status q, delete c (<[t := with_children (filter (.≠ c) (children p)) p]> (procs m))) ∧
      EExit i (return_status q) ∈ log m
    else process_wait t i (procs m) = Fail Blocked.
Proof.
  intros Hp Hx. assert (∀ e, e ∈ children p → e ≠ t ∧ is_Some (procs m !! e)) as Hl.
  { intros e He. destruct (inv_child m Hi t p _ e Hp Hx eq_refl He) as (H1 & q & Hq & _). split; [done|by exists q]. }
  pose proof (process_wait_ok t i (procs m) p Hp Hl) as Hw. destruct (list_find (named (procs m) i) (children p)) as [[j c]|] eqn:Ef; simpl in Hw.
  - right. destruct Hw as (q & Hq & Hqi & Hin & Hw). destruct (inv_child m Hi t p _ c Hp Hx eq_refl Hin) as (Hct & q' & Hq' & Hpar). simplify_map_eq.
    destruct (proj2 (inv_run m Hi _ p Hp Hx) c Hin) as (y & Hy & Hyc). exists c, q, y. do 6 (split; [done|]). destruct (is_done y) eqn:Hd.
    + destruct (inv_done m Hi c q y Hq Hy Hd) as [H1 H2]. split; [|done]. rewrite Hw. by destruct (Z.ltb_spec 0 (child_sema q)); [|lia].
    + destruct (inv_sema m Hi c q y Hq Hy Hd) as [H1 _]. rewrite Hw, H1. by destruct y.
  - left. split; [done|]. intros c q Hc Hq Ei. apply list_find_None in Ef. rewrite Forall_forall in Ef. apply (Ef c Hc). unfold named. rewrite Hq. simpl. by rewrite Ei.
Qed.

Lemma wait_inv t i r s : pcs m !! t = Some Running → process_wait t i (procs m) = Ret (r, s) → inv (Machine s (pcs m) (next_tid m) (log m)).
Proof.
  intros Hx Hr. destruct (active_live t _ Hx eq_refl) as [p Hp]. destruct (inv_pc m Hi t p Hp) as (_ & _ & _ & Hnd). destruct (inv_run m Hi t p Hp Hx) as [Hl Hcalm].
  destruct (wait_cases t p i Hp Hx) as [[E _]|(c & q & y & Hc & Hq & Hqi & Hpar & Hct & Hy & E)]; [rewrite E in Hr; injection Hr as <- <-; by destruct m|].
  destruct (is_done y) eqn:Hd; [|congruence]. destruct E as [E _]. rewrite E in Hr. injection Hr as <- <-.
  replace (pcs m) with (<[t := Running]> (pcs m)) by by apply insert_id.
  eapply (prune_inv t p (with_children (filter (.≠ c) (children p)) p)); try done.
  - by apply NoDup_filter.
  - intros c' [Hne Hc']%list_elem_of_filter. split; [done|by apply Hcalm].
  - intros a z Ha Hax Hpz. destruct (inv_loading m Hi a z Ha Hax) as (_ & _ & w & _ & Hwx & _). rewrite Hpz, Hx in Hwx. done.
  - by simplify_map_eq.
  - intros a z Ha Hz. apply lookup_delete_Some in Hz as [_ Hz]. by simplify_map_eq.
  - intros a z Ha Hz. destruct (decide (a = c)) as [->|]; [right|left; by simplify_map_eq]. simplify_map_eq. split; [|by split; [|exists y]].
    intros [Hne _]%list_elem_of_filter. done.
Qed.

(** Leaving: with a child that has exited the walk of the children faults;
    otherwise the children become orphans, and the thread itself tells its
    parent or frees its own page. *)
Definition exit_effect (t : Z) (p : proc) (status : Z) (s : tree) : Prop :=
  s !! t = (if parent p =? 0 then None else Some (with_child_sema (child_sema p + 1) (with_status status p))) ∧
  ∀ a, a ≠ t → s !! a = (if decide (a ∈ children p) then with_parent 0 else id) <$> procs m !! a.

Definition may_exit (x : pc) : Prop := x = Running ∨ x = Failing.
Lemma exit_children_live t p x : procs m !! t = Some p → pcs m !! t = Some x → may_exit x →
  ∀ c, c ∈ children p → c ≠ t ∧ calm m c ∧ ∃ q, procs m !! c = Some q ∧ parent q = t.
Proof.
  intros Hp Hx [-> | ->] c Hc; [|rewrite (inv_leaf m Hi t p _ Hp Hx eq_refl) in Hc; by apply elem_of_nil in Hc].
  destruct (inv_child m Hi t p _ c Hp Hx eq_refl Hc) as (H1 & q & Hq & Hpar). split; [done|]. split; [by apply (inv_run m Hi t p Hp Hx)|by exists q].
Qed.

Lemma exit_cases t p x status : procs m !! t = Some p → pcs m !! t = Some x → may_exit x →
  (exit_step t status (procs m) = Fail Fault ∧ ∃ c y, c ∈ children p ∧ pcs m !! c = Some y ∧ is_done y = true) ∨
  (∃ s, exit_step t status (procs m) = Ret ((), s) ∧ exit_effect t p status s) ∧ ∀ c y, c ∈ children p → pcs m !! c = Some y → is_done y = false.
Proof.
  intros Hp Hx Hm. pose proof (exit_children_live t p x Hp Hx Hm) as Hch. set (p1 := with_status status p).
  destruct (orphan_loop_ok (children p) (<[t := p1]> (procs m))) as (s2 & Ho & Hs2).
  { intros e He. apply lookup_insert_is_Some'. right. destruct (Hch e He) as (_ & _ & q & Hq & _). by exists q. }
  assert (t ∉ children p) as Htn by (intros Hin; by destruct (Hch t Hin)).
  assert (s2 !! t = Some p1) as Ht2 by (by rewrite Hs2, lookup_insert_eq, decide_False).
  assert (∀ a, a ≠ t → s2 !! a = (if decide (a ∈ children p) then with_parent 0 else id) <$> procs m !! a) as Hs2' by (intros a Ha; by rewrite Hs2, lookup_insert_ne).
  assert (∀ c y, c ∈ children p → pcs m !! c = Some y → ∃ q, s2 !! c = Some q ∧ (is_done y = true ↔ 0 < child_sema q)) as Hsem.
  { intros c y Hc Hy. destruct (Hch c Hc) as (Hct & (y' & Hy' & Hcy) & q & Hq & _). simplify_map_eq. exists (with_parent 0 q). rewrite Hs2', Hq, decide_True by done. split; [done|]. cbn.
    destruct (is_done y) eqn:Hd; [by destruct (inv_done m Hi c q y Hq Hy Hd)|]. destruct (inv_sema m Hi c q y Hq Hy Hd) as [-> _]. by destruct y. }
  assert (exit_step t status (procs m) = (let* _ := exit_children t in exit_self t) s2) as E.
  { unfold exit_step. rewrite (cstep _ _ _ () s2); [done|]. unfold destruct_links. rewrite (cstep _ _ _ _ _ (set_proc_ok _ p _ _ Hp)).
    by rewrite (cstep _ _ _ p1 _) by (apply get_proc_ok, lookup_insert_eq). }
  assert (exit_children t s2 = free_loop (children p) s2) as Ec by (unfold exit_children; by rewrite (cstep _ _ _ _ _ (get_proc_ok _ _ _ Ht2))).
  destruct (decide (Exists (λ c, from_option is_done false (pcs m !! c) = true) (children p))) as [Hex|Hno].
  - left. apply Exists_exists in Hex as (c & Hc & Hd). destruct (pcs m !! c) as [y|] eqn:Hy; [|done]. simpl in Hd. split; [|by exists c, y]. rewrite E. unfold mbind, cmd_bind. rewrite Ec, free_loop_faults; [done| |].
    + intros e He. destruct (Hch e He) as (_ & (z & Hz & _) & _). destruct (Hsem e z He Hz) as (q & Hq & _). by exists q.
    + destruct (Hsem c y Hc Hy) as (q & Hq & Hqs). exists c, q. split; [done|]. split; [done|by apply Hqs].
  - right. assert (∀ c y, c ∈ children p → pcs m !! c = Some y → is_done y = false) as Hnd.
    { intros c y Hc Hy. apply not_true_is_false. intros Hd. apply Hno, Exists_exists. exists c. by rewrite Hy. }
    split; [|done]. rewrite (cstep _ _ _ () s2) in E.
    2:{ rewrite Ec. apply free_loop_none. intros e He. destruct (Hch e He) as (_ & (z & Hz & _) & _). destruct (Hsem e z He Hz) as (q & Hq & Hqs).
        exists q. split; [done|]. rewrite (Hnd e z He Hz) in Hqs. destruct (Z.le_gt_cases (child_sema q) 0); [done|]. assert (0 < child_sema q) as H0 by lia. by apply Hqs in H0. }
    rewrite E. unfold exit_self. rewrite (cstep _ _ _ _ _ (get_proc_ok _ _ _ Ht2)). cbn [parent p1 with_status]. destruct (Z.eqb_spec (parent p) 0) as [E0|E0]; cbn [negb].
    + eexists. split; [by eapply free_proc_ok|]. split; [rewrite E0; simpl; by simplify_map_eq|]. intros a Ha. rewrite lookup_delete_ne by done. by apply Hs2'.
    + eexists. split; [by eapply set_proc_ok|]. split; [rewrite lookup_insert_eq; by destruct (Z.eqb_spec (parent p) 0)|]. intros a Ha. rewrite lookup_insert_ne by done. by apply Hs2'.
Qed.

Lemma exit_inv t p x status s : procs m !! t = Some p → pcs m !! t = Some x → may_exit x → exit_effect t p status s →
  inv (Machine s (<[t := Exiting]> (pcs m)) (next_tid m) (EExit (tid p) status :: log m)).
Proof.
  intros Hp Hx Hm [Hst Hs]. pose proof (exit_children_live t p x Hp Hx Hm) as Hch.
  assert (is_done x = false) as Hd by by destruct Hm as [-> | ->]. destruct (inv_sema m Hi t p x Hp Hx Hd) as [Hsem Hnot].
  assert (0 ≤ child_sema p) as Hsem0 by (rewrite Hsem; by destruct x).
  assert (∀ q, s !! t = Some q → parent p ≠ 0 ∧ q = with_child_sema (child_sema p + 1) (with_status status p)) as Ht.
  { intros q Hq. rewrite Hst in Hq. destruct (Z.eqb_spec (parent p) 0); [done|]. by injection Hq as <-. }
  assert (∀ a q, a ≠ t → s !! a = Some q → ∃ q0, procs m !! a = Some q0 ∧ q = (if decide (a ∈ children p) then with_parent 0 q0 else q0)) as Hback.
  { intros a q Ha Hq. rewrite Hs in Hq by done. apply fmap_Some in Hq as (q0 & Hq0 & ->). exists q0. split; [done|]. by case_decide. }
  assert (∀ a q0, a ≠ t → procs m !! a = Some q0 → ∃ q, s !! a = Some q ∧ q = (if decide (a ∈ children p) then with_parent 0 q0 else q0)) as Hforth.
  { intros a q0 Ha Hq. rewrite Hs, Hq by done. eexists. split; [done|]. by case_decide. }
  assert (∀ a q, s !! a = Some q → ∃ q0, procs m !! a = Some q0 ∧ tid q0 = tid q ∧ children q0 = children q ∧ load_sema q0 = load_sema q ∧ success q0 = success q) as Hsame.
  { intros a q Hq. destruct (decide (a = t)) as [->|Ha]; [destruct (Ht q Hq) as [_ ->]; by exists p|]. destruct (Hback a q Ha Hq) as (q0 & Hq0 & ->). exists q0. split; [done|]. by case_decide. }
  assert (∀ c, calm m c → calm (Machine s (<[t := Exiting]> (pcs m)) (next_tid m) (EExit (tid p) status :: log m)) c) as Hcalm by (intros c Hc; by apply calm_update).
  (** A thread with an active parent other than [t] keeps it. *)
  assert (∀ t' q c r, t' ≠ t → t' ≠ 0 → procs m !! c = Some r → parent r = t' → c ∈ children q → ∃ r', s !! c = Some r' ∧ parent r' = t' ∧ tid r' = tid r) as Hkeep.
  { intros t' q c r Ht' H0 Hr Hpar Hc. destruct (decide (c = t)) as [->|Hct].
    - simplify_map_eq. rewrite Hst. destruct (Z.eqb_spec (parent p) 0); [done|]. by eexists.
    - destruct (Hforth c r Hct Hr) as (r' & Hr' & ->). case_decide as Hin; [|by eexists]. destruct (Hch c Hin) as (_ & _ & z & Hz & Hzp). congruence. }
  split; cbn [procs pcs next_tid log].
  - intros t' y Hy Hyd. destruct (decide (t' = t)) as [->|]; simplify_map_eq. destruct (active_live t' y Hy Hyd) as [q Hq]. destruct (Hforth t' q) as (q' & Hq' & _); [done..|by exists q'].
  - intros t' q Hq. destruct (Hsame t' q Hq) as (q0 & Hq0 & <- & <- & _). destruct (inv_pc m Hi t' q0 Hq0) as (H1 & H2 & H3 & H4). split; [done|]. split; [done|]. split; [|done].
    apply lookup_insert_is_Some'. by right.
  - intros a b q r (q0 & Hq0 & <- & _)%Hsame (r0 & Hr0 & <- & _)%Hsame E. by eapply inv_inj.
  - intros t' q y c Hq Hy Hya Hc. destruct (decide (t' = t)) as [->|]; simplify_map_eq. destruct (Hsame t' q Hq) as (q0 & Hq0 & _ & E & _). rewrite <- E in Hc.
    destruct (inv_child m Hi t' q0 y c Hq0 Hy Hya Hc) as (H1 & r & Hr & Hrp). split; [done|]. destruct (inv_pc m Hi t' q0 Hq0) as (H0 & _).
    destruct (Hkeep t' q0 c r) as (r' & Hr' & Hp' & _); [done..|by exists r'].
  - intros t' q y Hq Hy Hyc. destruct (decide (t' = t)) as [->|]; simplify_map_eq. destruct (Hsame t' q Hq) as (q0 & Hq0 & _ & <- & _). by eapply inv_leaf.
  - intros t' q y Hq Hy Hyd. destruct (decide (t' = t)) as [->|]; simplify_map_eq.
    + destruct (Ht q Hq) as [_ ->]. cbn. split; [lia|by left].
    + destruct (Hback t' q) as (q0 & Hq0 & ->); [done..|]. destruct (inv_done m Hi t' q0 y Hq0 Hy Hyd) as [H1 H2]. case_decide; (split; [done|by right]).
  - intros t' q y Hq Hy Hyd. destruct (decide (t' = t)) as [->|]; simplify_map_eq. destruct (Hback t' q) as (q0 & Hq0 & Eq); [done..|].
    destruct (inv_sema m Hi t' q0 y Hq0 Hy Hyd) as [H1 H2]. assert (child_sema q = child_sema q0 ∧ tid q = tid q0) as [-> ->] by (rewrite Eq; by case_decide).
    split; [done|]. intros st [[= E _]|Hin]%elem_of_cons; [|by eapply H2]. by apply (inv_inj m Hi t' t q0 p) in E.
  - intros i a b [[= -> ->]|H]%elem_of_cons.
    + split; [by eapply inv_pc|]. intros [[= ->]|Hb]%elem_of_cons; [done|]. by apply Hnot in Hb.
    + destruct (inv_exits m Hi i a b H) as [H1 H2]. split; [done|]. intros [[= -> ->]|Hb]%elem_of_cons; [by apply Hnot in H|by auto].
  - intros i a b [[=]|H]%elem_of_cons. destruct (inv_loads m Hi i a b H) as [H1 H2]. split; [done|]. intros [[=]|Hb]%elem_of_cons. by auto.
  - intros t' q Hq Hy. destruct (decide (t' = t)) as [->|]; simplify_map_eq. destruct (Hback t' q) as (q0 & Hq0 & Eq); [done..|].
    destruct (inv_loading m Hi t' q0 Hq0 Hy) as (H1 & H2 & r & Hr & Hrx & Hin). assert (parent q0 ≠ t) as Hpt by (intros Ep; rewrite Ep, Hx in Hrx; destruct Hm as [-> | ->]; done).
    assert (q = q0) as ->. { rewrite Eq. case_decide as Hc; [|done]. destruct (Hch t' Hc) as (_ & _ & z & Hz & Hzp). congruence. }
    split; [done|]. split; [intros b [[=]|Hb]%elem_of_cons; by eapply H2|]. destruct (Hforth (parent q0) r Hpt Hr) as (r' & Hr' & Er). exists r'. split; [done|]. simplify_map_eq.
    split; [done|]. by case_decide.
  - intros t' q Hq Hy. destruct (decide (t' = t)) as [->|]; simplify_map_eq. destruct (Hsame t' q Hq) as (q0 & Hq0 & _ & <- & <- & _).
    destruct (inv_run m Hi t' q0 Hq0 Hy) as [H1 H2]. split; [done|]. intros c Hc. by apply Hcalm, H2.
  - intros t' q pid Hq Hy. destruct (decide (t' = t)) as [->|]; simplify_map_eq. destruct (Hsame t' q Hq) as (q0 & Hq0 & _ & <- & <- & <-).
    destruct (inv_exec m Hi t' q0 pid Hq0 Hy) as (c & r & y & Hc & Hr & Hpid & Hcy & Hoth & Hcase). destruct (inv_pc m Hi t' q0 Hq0) as (H0 & _).
    destruct (inv_child m Hi t' q0 (InExec pid) c) as (_ & r0 & Hr0 & Hrp); [done..|]. simplify_map_eq. destruct (Hkeep (parent r) q0 c r) as (r' & Hr' & _ & Er); [done..|].
    exists c, r'. destruct (decide (c = t)) as [->|].
    + exists Exiting. rewrite lookup_insert_eq. split; [done|]. split; [done|]. split; [done|]. split; [done|]. split; [intros; by apply Hcalm, Hoth|]. right. split; [done|].
      destruct Hcase as [[-> _]|(_ & H4 & H5 & H6)]; [by destruct Hm as [? | ?]; simplify_map_eq|]. split; [done|]. split; [by right|done].
    + exists y. rewrite lookup_insert_ne by done. split; [done|]. split; [done|]. split; [done|]. split; [done|]. split; [intros; by apply Hcalm, Hoth|].
      destruct Hcase as [?|(H3 & H4 & H5 & H6)]; [by left|right]. split; [done|]. split; [done|]. split; [by right|done].
Qed.
End Preserved.

Inductive reach (m0 : machine) : machine → Prop :=
  | reach_refl : reach m0 m0
  | reach_step m m' : reach m0 m → step m m' → reach m0 m'.

Lemma tree_step_inv m m' : inv m → step m m' → inv m'.
Proof.
  intros Hi [t n fp s pid|t p ok s|t s|t pid r s|t pid r s|t p status s Hx Hp He|t p].
  - by eapply exec_inv.
  - by apply loaded_inv.
  - by apply failing_inv.
  - by eapply exec_done_inv.
  - by eapply wait_inv.
  - assert (∃ x, pcs m !! t = Some x ∧ may_exit x) as (x & Hx' & Hm) by (destruct Hx as [?|[? _]]; eexists; split; [done|by left|done|by right]).
    destruct (exit_cases m Hi t p x status Hp Hx' Hm) as [[E _]|[(s' & E & Heff) _]]; [congruence|]. rewrite E in He. injection He as <-. by eapply exit_inv.
  - by eapply finish_inv.
Qed.

Lemma reach_inv main first m : main ≠ 0 → first ≠ 0 → main ≠ first → reach (boot main first) m → inv m.
Proof. intros H1 H2 H3. induction 1; [by apply boot_inv|by eapply tree_step_inv]. Qed.

(** ** Properties *)

Lemma wait_again m t p i r s : inv m → procs m !! t = Some p → pcs m !! t = Some Running → process_wait t i (procs m) = Ret (r, s) →
  process_wait t i s = Ret (-1, s).
Proof.
  intros Hi Hp Hx Hw. pose proof (wait_inv m Hi t i r s Hx Hw) as Hi'.
  destruct (wait_cases m Hi t p i Hp Hx) as [[E _]|(c & q & y & Hc & Hq & Hqi & Hpar & Hct & Hy & E)]; [congruence|].
  destruct (is_done y); [|congruence]. destruct E as [E _]. rewrite E in Hw. injection Hw as <- <-.
  destruct (wait_cases _ Hi' t (with_children (filter (.≠ c) (children p)) p) i) as [[E' _]|(c' & q' & y' & Hc' & Hq' & Hqi' & _)]; cbn [procs pcs] in *; [by simplify_map_eq|done|done|].
  exfalso. cbn in Hc'. apply list_elem_of_filter in Hc' as [Hne' Hc']. apply lookup_delete_Some in Hq' as [_ Hq']. destruct (inv_child m Hi t p _ c' Hp Hx eq_refl Hc') as (Hct' & _).
  simplify_map_eq. by apply (inv_inj m Hi c' c q' q) in Hqi'.
Qed.


(** C8. Starting a child: the second half of [sys_exec] blocks until the child
    has reported.  Then it returns the pid of the child if this has loaded,
    and -1 if it has not, after which the pid is not that of a child. *)
Theorem exec_reports_load main first m t p pid : main ≠ 0 → first ≠ 0 → main ≠ first → reach (boot main first) m →
  procs m !! t = Some p → pcs m !! t = Some (InExec pid) →
  (exec_result t pid (procs m) = Fail Blocked ∧ ∀ ok, ELoad pid ok ∉ log m) ∨
  ∃ ok s p', exec_result t pid (procs m) = Ret (if ok : bool then pid else -1, s) ∧ ELoad pid ok ∈ log m ∧ s !! t = Some p' ∧
    (ok = true ↔ ∃ c q, c ∈ children p' ∧ procs m !! c = Some q ∧ tid q = pid).
Proof.
  intros H1 H2 H3 Hr Hp Hx. pose proof (reach_inv main first m H1 H2 H3 Hr) as Hi.
  destruct (exec_result_cases m Hi t p pid Hp Hx) as (c & q & Hc & Hq & Hpid & Hoth & [[Hl E]|(_ & Hev & E)]).
  - left. split; [done|]. subst pid. by apply (inv_loading m Hi c q).
  - right. exists (success p). destruct (success p); [destruct E as [_ E]|]; eexists _, _; (split; [exact E|]); (split; [done|]); (split; [apply lookup_insert_eq|]).
    + split; [|done]. intros _. by exists c, q.
    + split; [done|]. intros (c' & q' & Hc' & Hq' & Hpid'). cbn in Hc'. apply list_elem_of_filter in Hc' as [Hne Hc']. subst pid. by apply (inv_inj m Hi c' c q' q) in Hpid'.
Qed.

(** C34. Leaving: a process of which a child has exited without being waited
    for cannot leave: [process_exit] frees the page of the child and then reads
    the next element of the list from it.  A process whose parent has left
    frees its own page, with the stack it runs on, before [thread_exit] is done
    with it. *)
Theorem exit_reads_freed_pages main first m t p status : main ≠ 0 → first ≠ 0 → main ≠ first → reach (boot main first) m →
  procs m !! t = Some p → pcs m !! t = Some Running →
  ((∃ c q st, c ∈ children p ∧ procs m !! c = Some q ∧ EExit (tid q) st ∈ log m) → exit_step t status (procs m) = Fail Fault) ∧
  (parent p = 0 → ∀ s, exit_step t status (procs m) = Ret ((), s) → s !! t = None).
Proof.
  intros H1 H2 H3 Hr Hp Hx. pose proof (reach_inv main first m H1 H2 H3 Hr) as Hi.
  destruct (exit_cases m Hi t p Running status Hp Hx (or_introl eq_refl)) as [[E Hex]|[(s & E & Hst & _) Hno]]; split.
  - done.
  - intros _ s Hs. congruence.
  - intros (c & q & st & Hc & Hq & Hev). destruct (proj2 (inv_run m Hi t p Hp Hx) c Hc) as (y & Hy & _). destruct (inv_sema m Hi c q y Hq Hy (Hno c y Hc Hy)) as [_ Hn]. by apply Hn in Hev.
  - intros H0 s' Hs'. rewrite E in Hs'. injection Hs' as <-. by rewrite Hst, H0.
Qed.

(** The process 20 starts 30, which loads and exits with status 7. *)
Definition after {A} (o : outcome (A * tree)) : tree := match o with Ret (_, s) => s | Fail _ => ∅ end.
Definition run_exec : machine :=
  let m := boot 10 20 in Machine (after (create_child 20 (Some 30) true 3 (procs m))) (<[30 := Loading]> (<[20 := InExec 3]> (pcs m))) 4 [].
Definition run_load : machine :=
  let m := run_exec in Machine (after (report_load 30 true (procs m))) (<[30 := Running]> (pcs m)) 4 [ELoad 3 true].
Definition run_done : machine :=
  let m := run_load in Machine (after (exec_result 20 3 (procs m))) (<[20 := Running]> (pcs m)) 4 [ELoad 3 true].
Definition run_exit : machine :=
  let m := run_done in Machine (after (exit_step 30 7 (procs m))) (<[30 := Exiting]> (pcs m)) 4 [EExit 3 7; ELoad 3 true].
Definition run_wait : machine :=
  let m := run_exit in Machine (after (process_wait 20 3 (procs m))) (pcs m) 4 (log m).

Lemma reach_load : reach (boot 10 20) run_load.
Proof.
  apply (reach_step _ run_exec).
  - apply (reach_step _ (boot 10 20)); [constructor|]. apply (step_exec (boot 10 20) 20 30 true (procs run_exec) 3); [by vm_compute| |by vm_compute].
    split; [done|]. split; [by vm_compute|left; by vm_compute].
  - refine (step_loaded run_exec 30 (Proc 3 20 [] 0 0 0 false (replicate 1024 0)) true _ _ _ _); by vm_compute.
Qed.
Lemma reach_exit : reach (boot 10 20) run_exit.
Proof.
  apply (reach_step _ run_done).
  - apply (reach_step _ run_load); [apply reach_load|]. apply (step_exec_done run_load 20 3 3); by vm_compute.
  - refine (step_exit run_done 30 (Proc 3 20 [] 0 0 0 false (replicate 1024 0)) 7 _ _ _ _); [left| |]; by vm_compute.
Qed.


Lemma exec_reports_load_witness : ∃ s, exec_result 20 3 (procs run_load) = Ret (3, s).
Proof.
  destruct (exec_reports_load 10 20 run_load 20 (Proc 2 10 [30] 0 1 0 true (replicate 1024 0)) 3) as [[_ H]|(ok & s & p' & E & Hev & _)];
    [done|done|done|exact reach_load|by vm_compute|by vm_compute| |].
  - exfalso. apply (H true). by left.
  - exists s. destruct ok; [exact E|]. exfalso. apply elem_of_cons in Hev as [[=]|Hev]. by apply elem_of_nil in Hev.
Defined.

Lemma exit_reads_freed_pages_witness : exit_step 20 0 (procs run_exit) = Fail Fault.
Proof.
  destruct (exit_reads_freed_pages 10 20 run_exit 20 (Proc 2 10 [30] 0 0 0 true (replicate 1024 0)) 0) as [H _]; [done|done|done|exact reach_exit|by vm_compute|by vm_compute|].
  apply H. exists 30, (Proc 3 20 [] 1 0 7 false (replicate 1024 0)), 7. split; [by left|]. split; [by vm_compute|by left].
Defined.

(** The parent may free the page of a child between the [sema_up] of
    [process_exit] and the end of [thread_exit]: the child has not finished and
    its structure, with its stack, is gone. *)
Lemma freed_while_exiting : reach (boot 10 20) run_wait ∧ pcs run_wait !! 30 = Some Exiting ∧ procs run_wait !! 30 = None.
Proof.
  split; [|by vm_compute]. apply (reach_step _ run_exit); [apply reach_exit|]. apply (step_wait run_exit 20 3 7); by vm_compute.
Qed.
