(* ===== verification/Syscall.v ===== *)
(** * System calls (userprog/syscall.c, and process_execute, start_process and
    process_exit of userprog/process.c)

    A system call of the running thread [cur], from the interrupt to the value
    of EAX.  Its arguments are on the user stack, and strings and buffers in
    user memory, which the kernel reads through the page directory of the
    process.  A page of user memory that is not present when the kernel touches
    it is a page fault in kernel mode: [page_fault] calls [kill], which panics.

    A call may not return: [Exits] is the end of the process, and [PowersOff]
    that of the machine.  The semaphore [file_sema] is taken and released as in
    the source. *)

From Stdlib Require Import Strings.String.
From S2P Require Import Prelude Cstring Stdio Vaddr Stack Bitmap Hash Block Swap Page Pagedir Frame Fs Inode Extents Files Directory Filesys Calls Format Loader Process.

Inductive ended (A : Type) := Goes (a : A) | Exits (status : Z) | PowersOff.
Global Arguments Goes {A} _.
Global Arguments Exits {A} _.
Global Arguments PowersOff {A}.

(** The kernel, the thread structures, the saved EAX of the caller, what has
    been written to the console, and the keys that have been typed. *)
Record sys (D : Type) := Sys { core : kernel D; threads_of : tree; eax : Z; screen : list Z; keys : list Z }.
Global Arguments Sys {D} _ _ _ _ _.
Global Arguments core {D} _.
Global Arguments threads_of {D} _.
Global Arguments eax {D} _.
Global Arguments screen {D} _.
Global Arguments keys {D} _.

Definition SYS_HALT : Z := 0.
Definition SYS_EXIT : Z := 1.
Definition SYS_EXEC : Z := 2.
Definition SYS_WAIT : Z := 3.
Definition SYS_CREATE : Z := 4.
Definition SYS_REMOVE : Z := 5.
Definition SYS_OPEN : Z := 6.
Definition SYS_FILESIZE : Z := 7.
Definition SYS_READ : Z := 8.
Definition SYS_WRITE : Z := 9.
Definition SYS_SEEK : Z := 10.
Definition SYS_TELL : Z := 11.
Definition SYS_CLOSE : Z := 12.

Definition NO_PT : Z := 0.
Definition FIRST_PT : Z := 1.
Definition SECOND_PT : Z := 2.

(** At most [n] rounds of [body], which ends with [inr]. *)
Fixpoint rounds {S X R} (n : positive) (body : X → cmd S (X + R)) (x : X) : cmd S (X + R) :=
  match n with
  | xH => body x
  | xO n => let* r := rounds n body x in match r with inl x => rounds n body x | inr r => mret (inr r) end
  | xI n =>
      let* r := body x in
      match r with
      | inl x => let* r := rounds n body x in match r with inl x => rounds n body x | inr r => mret (inr r) end
      | inr r => mret (inr r)
      end
  end.

(** What the allocators return during [process_execute]. *)
Record exec_allocs := ExecAllocs {
  x_copy : option Z;         (* palloc_get_page for cmdline_copy *)
  x_name : option Z;         (* palloc_get_page for file_name *)
  x_thread : option Z;       (* palloc_get_page in thread_create *)
  x_files : bool;            (* and for the page of files *)
  x_tid : Z                  (* allocate_tid *)
}.

Section Syscall.
Context {D : Type} (ops : block_operations D) (junk : list Z).
Context (init_page_dir init_ram_pages : Z) (probe cur : Z).
Context (delimiters : Z).
(** What the allocators return for the page that a fault brings in. *)
Context (al : Z → allocs).
Notation kernel := (kernel D).
Notation sys := (sys D).

Definition on_core {A} (c : cmd kernel A) : cmd sys A :=
  zoom core (λ s k, Sys k (threads_of s) (eax s) (screen s) (keys s)) c.
Definition on_tree {A} (c : cmd tree A) : cmd sys A :=
  zoom threads_of (λ s t, Sys (core s) t (eax s) (screen s) (keys s)) c.
Definition on_files {A} (c : cmd (fs D) A) : cmd sys A := on_core (on_fs c).
Definition set_eax (v : Z) : cmd sys unit := modify (λ s, Sys (core s) (threads_of s) v (screen s) (keys s)).
Definition putbuf (text : list Z) : cmd sys unit := modify (λ s, Sys (core s) (threads_of s) (eax s) (screen s ++ text) (keys s)).
Definition input_getc : cmd sys Z := λ s,
  match keys s with c :: ks => Ret (c, Sys (core s) (threads_of s) (eax s) (screen s) ks) | [] => Fail Blocked end.

(** ** Calls that may not return *)

Definition going {A} (c : cmd sys A) : cmd sys (ended A) := let* a := c in mret (Goes a).
Definition ebind {A B} (k : A → cmd sys (ended B)) (c : cmd sys (ended A)) : cmd sys (ended B) :=
  let* r := c in match r with Goes a => k a | Exits st => mret (Exits st) | PowersOff => mret PowersOff end.
#[local] Notation "'let!' x ':=' m 'in' k" := (ebind (λ x, k) m) (at level 200, x name, k at level 200, right associativity).

(** ** User memory *)

Definition user_pd : cmd kernel Z := let* (_, pd) := on_vm (thread_of cur) in mret pd.

Definition user_peek (va : Z) : cmd kernel Z :=
  if is_user_vaddr va then
    let* pd := user_pd in
    let* kva := on_vm (on_mach (pagedir_get_page pd va)) in
    match kva with
    | None => lift (Fail Panicked)
    | Some kva => let* k := get in lift (access (frames (k_vm k) !! pg_round_down kva ≫= λ page, zget page (pg_ofs kva)))
    end
  else on_mem (Cstring.load va).

(** The entry of a page, through [lookup_page]. *)
Definition user_pte (va : Z) : cmd kernel Z :=
  let* pd := user_pd in
  let* pte := on_vm (on_mach (lookup_page pd va false None)) in
  let* pte := lift (access pte) in
  on_vm (on_mach (load32 pte)).

(** With CR0.WP the kernel faults on pages that are not writable. *)
Definition user_poke (va b : Z) : cmd kernel unit :=
  if is_user_vaddr va then
    let* pd := user_pd in
    let* kva := on_vm (on_mach (pagedir_get_page pd va)) in
    match kva with
    | None => lift (Fail Panicked)
    | Some kva =>
        let* pte := user_pte va in
        if has pte PTE_W then
          let* k := get in
          let* page := lift (access (frames (k_vm k) !! pg_round_down kva)) in
          let* page := lift (access (zset page (pg_ofs kva) (u8 b))) in
          on_vm (modify (λ v, set_frames v (<[pg_round_down kva := page]> (frames v))))
        else lift (Fail Panicked)
    end
  else on_mem (Cstring.store va b).

Fixpoint user_bytes (n : nat) (va : Z) : cmd kernel (list Z) :=
  match n with
  | O => mret []
  | S n => let* b := user_peek va in let* bs := user_bytes n (va + 1) in mret (b :: bs)
  end.
(** As many of the bytes as can be read: the code that uses them touches only
    some, and a short list is a fault there. *)
Fixpoint readable (n : nat) (va : Z) : cmd kernel (list Z) := λ k,
  match n with
  | O => Ret ([], k)
  | S n => match user_peek va k with
           | Ret (b, k) => match readable n (va + 1) k with Ret (bs, k) => Ret (b :: bs, k) | Fail f => Fail f end
           | Fail _ => Ret ([], k)
           end
  end.
Fixpoint user_store (va : Z) (bs : list Z) : cmd kernel unit :=
  match bs with [] => mret () | b :: bs => let* _ := user_poke va b in user_store (va + 1) bs end.

Definition user_word (va : Z) : cmd kernel Z :=
  let* bs := user_bytes 4 va in lift (le_word bs 0).

(** The string at [va], read in reverse. *)
Definition user_string (va : Z) : cmd kernel (list Z) :=
  let* r := rounds (2 ^ 32)%positive (λ '(va, acc), let* b := user_peek va in mret (if b =? 0 then inr acc else inl (va + 1, b :: acc))) (va, []) in
  match r with inr acc => mret (reverse acc) | inl _ => lift (Fail OutOfFuel) end.

(** ** The end of a process *)

Definition valid_fd (fd : Z) : bool := (fd <? 1024) && (2 <=? fd).
(** [t->files[fd]]; 0 is the null pointer. *)
Definition get_file_ptr (fd : Z) : cmd sys Z :=
  on_tree (let* t := get_proc cur in lift (access (zget (files t) fd))).
Definition set_file_ptr (fd p : Z) : cmd sys unit :=
  on_tree (let* t := get_proc cur in
           let* l := lift (access (zset (files t) fd p)) in
           set_proc cur (with_files l)).
Definition file_of (fd : Z) : cmd sys Z := if valid_fd fd then get_file_ptr fd else mret 0.

Definition sys_close (fd : Z) : cmd sys unit :=
  let* _ := on_core file_sema_down in
  let* file := file_of fd in
  let* _ := (if negb (file =? 0) then
               let* _ := on_files (file_close ops file) in set_file_ptr fd 0
             else mret ()) in
  on_core file_sema_up.

Fixpoint close_loop (n : nat) (i : Z) : cmd sys unit :=
  match n with
  | O => mret ()
  | S n =>
      let* file := get_file_ptr i in
      let* _ := (if negb (file =? 0) then sys_close i else mret ()) in
      close_loop n (i + 1)
  end.
(** The page of the pointers goes back to the allocator. *)
Definition close_all_files : cmd sys unit :=
  let* _ := close_loop 1022 2 in on_tree (set_proc cur (with_files [])).

(** The pages that [pagedir_destroy] returns. *)
Definition give_back (r : release) : cmd (vm D) unit :=
  match r with
  | PallocFree page => modify (λ v, set_frames (set_mach v (with_pages (mach v) (delete page (pages (mach v))))) (delete page (frames v)))
  | FreeFrame page => free_frame probe cur page true
  end.
Fixpoint give_back_all (rs : list release) : cmd (vm D) unit :=
  match rs with [] => mret () | r :: rs => let* _ := give_back r in give_back_all rs end.

Definition process_exit : cmd sys unit :=
  let* (sd, pd) := on_core (on_vm (thread_of cur)) in
  let* _ := close_all_files in
  let* _ := on_tree (exit_children cur) in
  let* _ :=
    (if negb (pd =? 0) then
       on_core (on_vm (let* _ := modify (λ v, Vm (<[cur := (sd, 0)]> (threads v)) (mach v) (frames v) (fs_device v) (swap_area v) (ft v) (fts v)) in
                       let* _ := on_mach (pagedir_activate init_page_dir 0) in
                       let* v := get in
                       let* rs := lift (pagedir_destroy init_page_dir pd (pages (mach v))) in
                       give_back_all rs))
     else mret ()) in
  on_tree (exit_self cur).

(** [self_destruct]; after [process_exit], [thread_exit] uses the structure of
    the thread, whose name is at offset 8. *)
Definition self_destruct {A} (status : Z) : cmd sys (ended A) :=
  let* _ := on_tree (destruct_links cur status) in
  let* (sd, pd) := on_core (on_vm (thread_of cur)) in
  let* _ := on_core (on_vm (supdir_destroy pd sd)) in
  let* k := on_core get in
  let* text := lift (formatted (k_mem k) (chars "%s: exit(%d)" ++ [10; 0]) [cur + 8; u32 status]) in
  let* _ := putbuf text in
  let* _ := process_exit in
  let* _ := on_tree (get_proc cur) in
  mret (Exits status).

Definition sys_exit {A} (status : Z) : cmd sys (ended A) :=
  let* _ := set_eax (u32 status) in self_destruct status.

(** ** Checks of pointers *)

(** [esp] is the stack pointer of the caller. *)
Definition is_pt_valid (esp pt : Z) (allow_stack_growth : bool) : cmd sys (ended unit) :=
  if (pt =? 0) || negb (is_user_vaddr pt) then sys_exit (-1)
  else
    let* pd := on_core user_pd in
    let* kva := on_core (on_vm (on_mach (pagedir_get_page pd pt))) in
    match kva with
    | Some _ => mret (Goes ())
    | None =>
        let stack_page := allow_stack_growth && ((pt <? PHYS_BASE) && (u32 (esp - 32) <=? pt)) in
        let* r := on_core (on_vm (page_in ops init_page_dir init_ram_pages probe cur pt stack_page (al pt))) in
        match r with Loaded => mret (Goes ()) | Killed => self_destruct (-1) end
    end.

Fixpoint process_args (n : nat) (i : Z) (esp args ptr_pos : Z) : cmd sys (ended unit) :=
  match n with
  | O => mret (Goes ())
  | S n =>
      let! _ := is_pt_valid esp (u32 (args + 4 * i)) false in
      let! _ := (if ptr_pos =? i + 1 then
                   let! pt := going (on_core (user_word (u32 (args + 4 * i)))) in is_pt_valid esp pt true
                 else mret (Goes ())) in
      process_args n (i + 1) esp args ptr_pos
  end.

(** ** The calls *)

Definition sys_halt {A} : cmd sys (ended A) := mret PowersOff.

Fixpoint free_fd (n : nat) (i file : Z) : cmd sys (option Z) :=
  match n with
  | O => mret None
  | S n =>
      let* p := get_file_ptr i in
      if p =? 0 then let* _ := set_file_ptr i file in mret (Some i) else free_fd n (i + 1) file
  end.

Definition sys_open (file_name : Z) : cmd sys unit :=
  let* _ := on_core file_sema_down in
  let* _ := set_eax (u32 (-1)) in
  let* name := on_core (user_string file_name) in
  let* file := on_files (filesys_open ops junk name) in
  let* _ := (if negb (file =? 0) then
               let* i := free_fd 1022 2 file in
               match i with Some i => set_eax i | None => mret () end
             else mret ()) in
  on_core file_sema_up.

(** The loop that writes to the console. *)
Fixpoint stdout_loop (fuel : nat) (esp buffer size pos char_buffer bytes_left : Z) : cmd sys (ended unit) :=
  match fuel with
  | O => lift (Fail OutOfFuel)
  | S fuel =>
      if pos <? size then
        let char_buffer := u32 (char_buffer + pos) in
        let! _ := is_pt_valid esp char_buffer true in
        let! bytes_left := going
          (if 300 <? bytes_left then
             let* text := on_core (user_bytes 300 buffer) in let* _ := putbuf text in mret (bytes_left - 300)
           else
             let* text := on_core (user_bytes (Z.to_nat (u32 bytes_left)) buffer) in let* _ := putbuf text in mret 0) in
        stdout_loop fuel esp buffer size (u32 (pos + 300)) char_buffer bytes_left
      else mret (Goes ())
  end.

Definition sys_write (esp fd buffer size : Z) : cmd sys (ended unit) :=
  if fd =? 1 then
    let! _ := stdout_loop (S (S (Z.to_nat (size / 300)))) esp buffer size 0 buffer (s32 size) in
    going (set_eax size)
  else
    let! file := going (file_of fd) in
    if negb (file =? 0) then going (
      let* _ := on_core file_sema_down in
      let* data := on_core (readable (Z.to_nat (s32 size)) buffer) in
      let* n := on_files (file_write ops file data (s32 size)) in
      let* _ := set_eax (u32 n) in
      on_core file_sema_up)
    else going (set_eax (u32 (-1))).

Definition sys_filesize (fd : Z) : cmd sys unit :=
  let* _ := on_core file_sema_down in
  let* _ := set_eax (u32 (-1)) in
  let* file := file_of fd in
  let* _ := (if negb (file =? 0) then let* n := on_files (file_length file) in set_eax (u32 n) else mret ()) in
  on_core file_sema_up.

Definition b2z (b : bool) : Z := if b then 1 else 0.

Definition sys_create (file_name initial_size : Z) : cmd sys unit :=
  let* _ := on_core file_sema_down in
  let* name := on_core (user_string file_name) in
  let* b := on_files (filesys_create ops junk name (s32 initial_size)) in
  let* _ := set_eax (b2z b) in
  on_core file_sema_up.

Definition sys_remove (file_name : Z) : cmd sys unit :=
  let* _ := on_core file_sema_down in
  let* name := on_core (user_string file_name) in
  let* b := on_files (filesys_remove ops junk name) in
  let* _ := set_eax (b2z b) in
  on_core file_sema_up.

Definition writable_page (va : Z) : cmd sys bool := let* pte := on_core (user_pte va) in mret (has pte PTE_W).

(** The loop that reads keys. *)
Fixpoint stdin_loop (n : nat) (esp byte_buffer : Z) : cmd sys (ended unit) :=
  match n with
  | O => mret (Goes ())
  | S n =>
      let! _ := is_pt_valid esp byte_buffer true in
      let! w := going (writable_page byte_buffer) in
      let! _ := (if w : bool then mret (Goes ()) else self_destruct (-1)) in
      let! _ := going (let* c := input_getc in on_core (user_poke byte_buffer c)) in
      stdin_loop n esp (u32 (byte_buffer + 1))
  end.

(** The loop over the pages of the buffer. *)
Fixpoint pages_loop (fuel : nat) (esp buffer_ limit : Z) : cmd sys (ended unit) :=
  match fuel with
  | O => lift (Fail OutOfFuel)
  | S fuel =>
      if buffer_ <? limit then
        let! _ := is_pt_valid esp buffer_ true in
        let! w := going (writable_page buffer_) in
        let! _ := (if w : bool then mret (Goes ()) else self_destruct (-1)) in
        pages_loop fuel esp (u32 (buffer_ + PGSIZE)) limit
      else mret (Goes ())
  end.

Definition sys_read (esp fd buffer size : Z) : cmd sys (ended unit) :=
  if fd =? 0 then
    let! _ := stdin_loop (Z.to_nat size) esp buffer in
    going (set_eax size)
  else
    let! file := going (file_of fd) in
    if negb (file =? 0) then
      let limit := u32 (buffer + size) in
      let! _ := pages_loop (S (S (Z.to_nat (limit / PGSIZE)))) esp (Z.land buffer 0xfffff000) limit in
      going (
        let* _ := on_core file_sema_down in
        let* old := on_core (readable (Z.to_nat (s32 size)) buffer) in
        let* (n, data) := on_files (file_read ops file old (s32 size)) in
        let* _ := on_core (user_store buffer (take (Z.to_nat n) data)) in
        let* _ := set_eax (u32 n) in
        on_core file_sema_up)
    else going (set_eax (u32 (-1))).

Definition sys_seek (fd position : Z) : cmd sys unit :=
  let* _ := on_core file_sema_down in
  let* file := file_of fd in
  let* _ := (if negb (file =? 0) then on_files (file_seek file (s32 position)) else mret ()) in
  on_core file_sema_up.

Definition sys_tell (fd : Z) : cmd sys unit :=
  let* _ := on_core file_sema_down in
  let* _ := set_eax (u32 (-1)) in
  let* file := file_of fd in
  let* _ := (if negb (file =? 0) then let* n := on_files (file_tell file) in set_eax (u32 n) else mret ()) in
  on_core file_sema_up.

Definition sys_wait (pid : Z) : cmd sys unit :=
  let* r := on_tree (process_wait cur pid) in set_eax (u32 r).

(** ** Starting a process *)

(** [palloc_free_page] fills the page. *)
Definition free_page (p : Z) : cmd kernel unit :=
  let* _ := assert (pg_ofs p =? 0) in
  if p =? 0 then mret () else on_mem (modify (λ m, write m p (replicate (Z.to_nat PGSIZE) 0xcc))).

(** A thread structure has no page directory and no supplemental table yet. *)
Definition no_supdir : supdir := Supdir (Hash 0 4 [[]; []; []; []]) ∅.

(** [thread_create] as far as the process is concerned: the name, the parent
    and the page of files. *)
Definition create_thread (xa : exec_allocs) (name : Z) : cmd sys Z :=
  match x_thread xa with
  | None => mret TID_ERROR
  | Some t =>
      let* _ := assert (negb (name =? 0)) in
      let* _ := on_core (on_mem (strlcpy (t + 8) name 16)) in
      let* _ := on_core (on_vm (modify (λ v, Vm (<[t := (no_supdir, 0)]> (threads v)) (mach v) (frames v) (fs_device v) (swap_area v) (ft v) (fts v)))) in
      on_tree (create_child cur (Some t) (x_files xa) (x_tid xa))
  end.

(** The first free entry of the files of another thread. *)
Definition first_free (l : list Z) : option nat := fst <$> list_find (λ p, p = 0) (drop 2 l).
Definition give_file (t file : Z) : cmd tree unit :=
  let* c := get_proc t in
  let* _ := lift (access (zget (files c) 1023)) in
  match first_free (files c) with
  | Some i => set_proc t (with_files (<[(2 + i)%nat := file]> (files c)))
  | None => mret ()
  end.

(** The child may run at any point after [create_thread]; here it does after
    the call. *)
Definition process_execute (xa : exec_allocs) (cmdline : Z) : cmd sys Z :=
  match x_copy xa with
  | None => mret TID_ERROR
  | Some copy =>
      let* text := on_core (user_string cmdline) in
      let line := take (Z.to_nat (PGSIZE - 1)) text ++ [0] in
      let* _ := on_core (on_mem (modify (λ m, write m copy line))) in
      match x_name xa with
      | None => let* _ := on_core (free_page copy) in mret TID_ERROR
      | Some page =>
          let* _ := on_core (on_mem (modify (λ m, write m page line))) in
          let* (file_name, _) := on_core (on_mem (strtok_r page delimiters 0)) in
          let* tid := create_thread xa file_name in
          let* _ := on_core file_sema_down in
          let* name := on_core (on_mem (let* m := get in c_string (bytes_of m) file_name)) in
          let* file := on_files (filesys_open ops junk name) in
          let* _ := (if negb (file =? 0) then
                       let* _ := on_files (file_deny_write file) in
                       let* t := on_tree (get_proc cur) in
                       let* e := on_tree (childelem_from_tid tid (children t)) in
                       let* child := lift (access e) in
                       on_tree (give_file child file)
                     else mret ()) in
          let* _ := on_core file_sema_up in
          let* _ := on_core (free_page file_name) in
          let* _ := (if tid =? TID_ERROR then on_core (free_page copy) else mret ()) in
          mret tid
      end
  end.

(** [sys_exec] up to the wait for the child: the pid that it waits for. *)
Definition sys_exec (xa : exec_allocs) (cmdline : Z) : cmd sys Z := process_execute xa cmdline.
Definition sys_exec_end (pid : Z) : cmd sys unit :=
  let* r := on_tree (exec_result cur pid) in set_eax (u32 r).

(** [start_process] in the new thread: the registers EIP and ESP of the
    process. *)
Definition start_process (la : load_allocs) (file_name : Z) : cmd sys (ended (Z * Z)) :=
  let* r := on_core (Loader.load ops junk init_page_dir init_ram_pages probe cur delimiters la file_name) in
  let* _ := on_core (free_page file_name) in
  let* _ := on_tree (report_load cur (match r with Some _ => true | None => false end)) in
  match r with
  | Some regs => mret (Goes regs)
  | None => let* _ := on_tree (fail_load cur) in self_destruct (-1)
  end.

(** ** The handler *)

(** What the handler returns: an exec waits for its child before it ends. *)
Inductive returned := Returns | WaitsFor (pid : Z).

Definition syscall_handler (xa : exec_allocs) (esp : Z) : cmd sys (ended returned) :=
  let! _ := is_pt_valid esp esp false in
  let! sys_call_num := going (on_core (user_word esp)) in
  let args := u32 (esp + 4) in
  let arg i := on_core (user_word (u32 (args + 4 * i))) in
  let done (c : cmd sys (ended unit)) : cmd sys (ended returned) := let! _ := c in mret (Goes Returns) in
  if sys_call_num =? SYS_HALT then sys_halt
  else if sys_call_num =? SYS_EXIT then
    let! _ := process_args 1 0 esp args NO_PT in let! a := going (arg 0) in sys_exit (s32 a)
  else if sys_call_num =? SYS_EXEC then
    let! _ := process_args 1 0 esp args FIRST_PT in let! a := going (arg 0) in
    let! pid := going (sys_exec xa a) in mret (Goes (WaitsFor pid))
  else if sys_call_num =? SYS_OPEN then
    let! _ := process_args 1 0 esp args FIRST_PT in let! a := going (arg 0) in done (going (sys_open a))
  else if sys_call_num =? SYS_WAIT then
    let! _ := process_args 1 0 esp args NO_PT in let! a := going (arg 0) in done (going (sys_wait (s32 a)))
  else if sys_call_num =? SYS_WRITE then
    let! _ := process_args 3 0 esp args SECOND_PT in
    let! a := going (arg 0) in let! b := going (arg 1) in let! c := going (arg 2) in done (sys_write esp (s32 a) b c)
  else if sys_call_num =? SYS_FILESIZE then
    let! _ := process_args 1 0 esp args NO_PT in let! a := going (arg 0) in done (going (sys_filesize (s32 a)))
  else if sys_call_num =? SYS_CLOSE then
    let! _ := process_args 1 0 esp args NO_PT in let! a := going (arg 0) in done (going (sys_close (s32 a)))
  else if sys_call_num =? SYS_CREATE then
    let! _ := process_args 2 0 esp args FIRST_PT in let! a := going (arg 0) in let! b := going (arg 1) in done (going (sys_create a b))
  else if sys_call_num =? SYS_REMOVE then
    let! _ := process_args 1 0 esp args FIRST_PT in let! a := going (arg 0) in done (going (sys_remove a))
  else if sys_call_num =? SYS_READ then
    let! _ := process_args 3 0 esp args SECOND_PT in
    let! a := going (arg 0) in let! b := going (arg 1) in let! c := going (arg 2) in done (sys_read esp (s32 a) b c)
  else if sys_call_num =? SYS_SEEK then
    let! _ := process_args 2 0 esp args NO_PT in let! a := going (arg 0) in let! b := going (arg 1) in done (going (sys_seek (s32 a) b))
  else if sys_call_num =? SYS_TELL then
    let! _ := process_args 1 0 esp args NO_PT in let! a := going (arg 0) in done (going (sys_tell (s32 a)))
  else sys_exit (-1).
End Syscall.
