(* ===== verification/Sysrefine.v ===== *)
(** * System calls refine a specification

    User memory as the process sees it, a specification of the calls on file
    descriptors on top of that of the file system in [Calls], and the proof
    that the handler of system calls implements it, for calls whose arguments
    are in pages that are present. *)

From S2P Require Import Prelude Cstring Stdio Vaddr Stack Bitmap Hash Block Swap Page Pagedir Frame Fs Inode Extents Files Directory Filesys Calls Format Loader Process Syscall.

(** ** User memory *)

(** The frame of a user address whose page is present. *)
Definition frame_of (m : gmap Z (list Z)) (pd va : Z) : option Z :=
  if decide (0 ≤ va < PHYS_BASE) then
    if has (pte_of m pd va) PTE_P then match pte_get_page (pte_of m pd va) with Ret f => Some f | Fail _ => None end else None
  else None.

Section Memory.
Context {D : Type} (cur : Z).
Notation kernel := (kernel D).

Definition umem (k : kernel) (pd va : Z) : option Z :=
  f ← frame_of (pages (mach (k_vm k))) pd va; page ← frames (k_vm k) !! f; zget page (va mod 4096).
Definition uwritable (k : kernel) (pd va : Z) : Prop := has (pte_of (pages (mach (k_vm k))) pd va) PTE_W = true.

(** The address space of the running process: no two pages share a frame. *)
Record space (k : kernel) (pd : Z) : Prop := {
  us_thread : ∃ sd, threads (k_vm k) !! cur = Some (sd, pd);
  us_wf : pd_wf (pages (mach (k_vm k))) pd;
  us_inj a b f : frame_of (pages (mach (k_vm k))) pd a = Some f → frame_of (pages (mach (k_vm k))) pd b = Some f → pg_no a = pg_no b;
  us_bytes a b : umem k pd a = Some b → 0 ≤ b < 256;
  us_device : fs_device (k_vm k) = device (k_fs k)
}.

(** Files may change, memory does not. *)
Record same_memory (k k' : kernel) : Prop := {
  sm_threads : threads (k_vm k') = threads (k_vm k);
  sm_mach : mach (k_vm k') = mach (k_vm k);
  sm_frames : frames (k_vm k') = frames (k_vm k);
  sm_mem : k_mem k' = k_mem k
}.

Lemma same_memory_refl k : same_memory k k.
Proof. by split. Qed.
Lemma same_memory_trans k1 k2 k3 : same_memory k1 k2 → same_memory k2 k3 → same_memory k1 k3.
Proof. intros [] []. split; congruence. Qed.
Lemma umem_same k k' pd va : same_memory k k' → umem k' pd va = umem k pd va.
Proof. intros [_ Hm Hf _]. unfold umem. by rewrite Hm, Hf. Qed.
Lemma uwritable_same k k' pd va : same_memory k k' → uwritable k' pd va ↔ uwritable k pd va.
Proof. intros [_ Hm _ _]. unfold uwritable. by rewrite Hm. Qed.
Lemma space_same k k' pd : same_memory k k' → fs_device (k_vm k') = device (k_fs k') → space k pd → space k' pd.
Proof.
  intros Hs Hd [H1 H2 H3 H4 _]. pose proof Hs as [Ht Hm _ _]. split; rewrite ?Ht, ?Hm; try done. intros a b. rewrite (umem_same k k' pd a Hs). apply H4.
Qed.

Lemma frame_range m pd va f : frame_of m pd va = Some f → 0 ≤ va < PHYS_BASE ∧ has (pte_of m pd va) PTE_P = true ∧ pte_get_page (pte_of m pd va) = Ret f.
Proof. unfold frame_of. case_decide; [|done]. destruct (has _ _); [|done]. destruct (pte_get_page _) as [f'|] eqn:E; [|done]. by intros [= ->]. Qed.

Lemma frame_aligned m pd va f : pd_wf m pd → frame_of m pd va = Some f → pg_round_down (f + va mod 4096) = f ∧ pg_ofs (f + va mod 4096) = va mod 4096.
Proof.
  intros Hw (Hr & _ & Hg)%frame_range. pose proof (pte_of_range m pd va Hw Hr) as Hp. unfold pte_get_page, ptov in Hg.
  change PTE_ADDR with 0xfffff000 in Hg. rewrite land_page in Hg by lia. set (a := pte_of m pd va / 4096) in *. assert (0 ≤ a < 2 ^ 20) as Ha by (unfold a; div_lia).
  destruct (Z.ltb_spec (a * 4096) PHYS_BASE); [|done]. injection Hg as <-. assert (∃ b, u32 (a * 4096 + PHYS_BASE) = b * 4096 ∧ 0 ≤ b < 2 ^ 20) as (b & -> & Hb).
  { exists ((a + 0xc0000) mod 2 ^ 20). unfold u32, PHYS_BASE. split; [div_lia|]. apply Z.mod_pos_bound. lia. }
  pose proof (Z.mod_pos_bound va 4096 ltac:(lia)). rewrite pg_round_down_eq by lia. rewrite pg_ofs_mod. split; div_lia.
Qed.

Section Space.
Context (k : kernel) (pd : Z) (Hk : space k pd).

Lemma on_vm_same {A} (c : cmd (vm D) A) a : c (k_vm k) = Ret (a, k_vm k) → on_vm c k = Ret (a, k).
Proof.
  intros Hc. unfold on_vm. rewrite (zoom_ok _ _ _ _ _ _ Hc). rewrite (us_device k pd Hk), w_device_id. by destruct k.
Qed.
Lemma user_pd_ok : user_pd cur k = Ret (pd, k).
Proof.
  destruct (us_thread k pd Hk) as [sd Hsd]. unfold user_pd. rewrite (cstep _ _ _ (sd, pd) k); [done|]. apply on_vm_same.
  unfold thread_of, mbind, cmd_bind, get. by rewrite Hsd.
Qed.
Lemma on_mach_same {A} (c : cmd Pagedir.machine A) a : c (mach (k_vm k)) = Ret (a, mach (k_vm k)) → on_vm (on_mach c) k = Ret (a, k).
Proof.
  intros Hc. apply on_vm_same. unfold on_mach. rewrite (zoom_ok _ _ _ _ _ _ Hc). f_equal. f_equal. by destruct (k_vm k).
Qed.
Lemma get_page_ok va f : frame_of (pages (mach (k_vm k))) pd va = Some f → on_vm (on_mach (pagedir_get_page pd va)) k = Ret (Some (f + va mod 4096), k).
Proof.
  intros (Hr & Hp & Hg)%frame_range. apply on_mach_same. by apply (pagedir_get_page_ok _ _ (us_wf k pd Hk) va Hr).
Qed.
Lemma user_entry_ok va f : frame_of (pages (mach (k_vm k))) pd va = Some f → user_pte cur va k = Ret (pte_of (pages (mach (k_vm k))) pd va, k).
Proof.
  intros (Hr & Hp & Hg)%frame_range. unfold user_pte. rewrite (cstep _ _ _ _ _ user_pd_ok). destruct (table (pages (mach (k_vm k))) pd (pd_no va)) as [pt|] eqn:Ht.
  - rewrite (cstep _ _ _ (Some (pt + 4 * pt_no va)) k) by (apply on_mach_same, lookup_found; [apply (us_wf k pd Hk)|done|done]).
    rewrite (cstep _ _ _ (pt + 4 * pt_no va) k) by done. apply on_mach_same, load_entry; [apply (us_wf k pd Hk)|done|done].
  - unfold pte_of in Hp. by rewrite Ht in Hp.
Qed.

Lemma peek_ok va b : umem k pd va = Some b → user_peek cur va k = Ret (b, k).
Proof.
  unfold umem. destruct (frame_of _ pd va) as [f|] eqn:Hf; [|done]. simpl. intros Hb. pose proof (frame_range _ _ _ _ Hf) as ((Hv0 & Hv1) & _). unfold user_peek, is_user_vaddr.
  destruct (Z.ltb_spec va PHYS_BASE); [|lia]. rewrite (cstep _ _ _ _ _ user_pd_ok), (cstep _ _ _ _ _ (get_page_ok va f Hf)), cget.
  destruct (frame_aligned _ _ _ _ (us_wf k pd Hk) Hf) as (-> & ->). by rewrite Hb.
Qed.

Lemma user_bytes_ok bs : ∀ va, (∀ i b, bs !! i = Some b → umem k pd (va + Z.of_nat i) = Some b) → user_bytes cur (length bs) va k = Ret (bs, k).
Proof.
  induction bs as [|b bs IH]; intros va Hb; [done|]. cbn [length user_bytes]. rewrite (cstep _ _ _ b k) by (apply peek_ok; rewrite <- (Z.add_0_r va); by apply (Hb 0%nat)).
  rewrite (cstep _ _ _ bs k); [done|]. apply IH. intros i c Hi. replace (va + 1 + Z.of_nat i) with (va + Z.of_nat (S i)) by lia. by apply Hb.
Qed.
Lemma readable_ok bs : ∀ va, (∀ i b, bs !! i = Some b → umem k pd (va + Z.of_nat i) = Some b) → readable cur (length bs) va k = Ret (bs, k).
Proof.
  induction bs as [|b bs IH]; intros va Hb; [done|]. cbn [length readable]. rewrite (peek_ok va b) by (rewrite <- (Z.add_0_r va); by apply (Hb 0%nat)).
  rewrite IH; [done|]. intros i c Hi. replace (va + 1 + Z.of_nat i) with (va + Z.of_nat (S i)) by lia. by apply Hb.
Qed.

(** A word of the stack. *)
Definition word_at (va w : Z) : Prop := 0 ≤ w < 2 ^ 32 ∧ ∀ i b, le4 w !! i = Some b → umem k pd (va + Z.of_nat i) = Some b.
Lemma user_word_ok va w : word_at va w → user_word cur va k = Ret (w, k).
Proof.
  intros [Hr Hw]. unfold user_word. change 4%nat with (length (le4 w)). rewrite (cstep _ _ _ _ _ (user_bytes_ok _ _ Hw)). unfold lift. simpl. unfold mbind, outcome_bind, le_word, access. simpl.
  do 3 f_equal. div_lia.
Qed.

Definition only_frames (k' : kernel) : Prop := ∃ fr, k' = Kernel (k_fs k) (set_frames (k_vm k) fr) (k_mem k) (file_sema k).

Lemma poke_ok va b0 b : umem k pd va = Some b0 → uwritable k pd va →
  ∃ k', user_poke cur va b k = Ret ((), k') ∧ only_frames k' ∧ ∀ a, umem k' pd a = if decide (a = va) then Some (u8 b) else umem k pd a.
Proof.
  unfold umem. destruct (frame_of _ pd va) as [f|] eqn:Hf; [|done]. simpl. intros Hb Hw. pose proof (frame_range _ _ _ _ Hf) as ((Hv0 & Hv1) & _).
  destruct (frames (k_vm k) !! f) as [page|] eqn:Hpg; [|done]. simpl in Hb.
  destruct (frame_aligned _ _ _ _ (us_wf k pd Hk) Hf) as (Er & Eo).
  assert (∃ page', zset page (va mod 4096) (u8 b) = Some page') as (page' & Hset) by (eexists; apply zset_Some; by apply zget_lt in Hb).
  eexists. split; [|split; [by exists (<[f := page']> (frames (k_vm k)))|]].
  - unfold user_poke, is_user_vaddr. destruct (Z.ltb_spec va PHYS_BASE); [|lia].
    rewrite (cstep _ _ _ _ _ user_pd_ok), (cstep _ _ _ _ _ (get_page_ok va f Hf)), (cstep _ _ _ _ _ (user_entry_ok va f Hf)). rewrite Hw, cget, Er, Eo.
    rewrite Hpg. rewrite (cstep _ _ _ page k) by done. rewrite Hset. rewrite (cstep _ _ _ page' k) by done. unfold on_vm. rewrite (zoom_ok _ _ _ _ _ _ eq_refl).
    do 2 f_equal. f_equal. cbn. rewrite (us_device k pd Hk). apply w_device_id.
  - intros a. unfold set_frames. cbn. destruct (frame_of (pages (mach (k_vm k))) pd a) as [fa|] eqn:Hfa; simpl; [|by case_decide; [subst a; congruence|]].
    destruct (decide (fa = f)) as [->|Hne].
    + rewrite lookup_insert_eq, Hpg. simpl. rewrite (zget_zset _ _ _ (a mod 4096) _ Hset). pose proof (us_inj k pd Hk a va f Hfa Hf) as Hpn.
      unfold pg_no in Hpn. rewrite !Z.shiftr_div_pow2 in Hpn by done. change (2 ^ PGBITS) with 4096 in Hpn. destruct (decide (va mod 4096 = a mod 4096)); case_decide; try done; exfalso; [div_lia|congruence].
    + rewrite lookup_insert_ne by done. case_decide; [subst a; congruence|done].
Qed.
End Space.

Lemma only_frames_space k k' pd : only_frames k k' → (∀ a b, umem k' pd a = Some b → 0 ≤ b < 256) → space k pd → space k' pd.
Proof. intros [fr ->] Hb [H1 H2 H3 H4]. by split. Qed.
Lemma poked_bytes k k' pd va b : space k pd → (∀ a, umem k' pd a = if decide (a = va) then Some (u8 b) else umem k pd a) →
  ∀ a b, umem k' pd a = Some b → 0 ≤ b < 256.
Proof.
  intros Hk Hu a b'. rewrite Hu. case_decide; [intros [= <-]; unfold u8; apply Z.mod_pos_bound; lia|apply (us_bytes k pd Hk)].
Qed.
Lemma only_frames_trans k1 k2 k3 : only_frames k1 k2 → only_frames k2 k3 → only_frames k1 k3.
Proof. intros [fr ->] [fr' ->]. by exists fr'. Qed.
Lemma only_frames_writable k k' pd va : only_frames k k' → uwritable k' pd va ↔ uwritable k pd va.
Proof. by intros [fr ->]. Qed.

Lemma user_store_ok pd bs : ∀ k va, space k pd → (∀ x, x ∈ bs → 0 ≤ x < 256) →
  (∀ a, va ≤ a < va + zlength bs → is_Some (umem k pd a) ∧ uwritable k pd a) →
  ∃ k', user_store cur va bs k = Ret ((), k') ∧ only_frames k k' ∧
    ∀ a, umem k' pd a = if decide (va ≤ a < va + zlength bs) then bs !! Z.to_nat (a - va) else umem k pd a.
Proof.
  induction bs as [|b bs IH]; intros k va Hk Hb Hm.
  - exists k. split; [done|]. split; [exists (frames (k_vm k)); by destruct k as [? [] ? ?]|]. intros a. simpl. by rewrite decide_False by lia.
  - destruct (Hm va) as [[b0 Hb0] Hw]; [simpl; lia|]. destruct (poke_ok k pd Hk va b0 b Hb0 Hw) as (k1 & E1 & Hf1 & Hu1).
    destruct (IH k1 (va + 1)) as (k2 & E2 & Hf2 & Hu2).
    + eapply only_frames_space; [done|by eapply poked_bytes|done].
    + intros x Hx. apply Hb. by right.
    + intros a Ha. rewrite Hu1. rewrite only_frames_writable by done. rewrite decide_False by lia. apply Hm. simpl. lia.
    + exists k2. split; [cbn [user_store]; by rewrite (cstep _ _ _ _ _ E1)|]. split; [by eapply only_frames_trans|]. intros a. rewrite Hu2, Hu1. simpl length.
      destruct (decide (a = va)) as [->|].
      * rewrite decide_False, decide_True, Z.sub_diag by lia. simpl. by rewrite u8_id by (apply Hb; by left).
      * destruct (decide (va + 1 ≤ a < va + 1 + zlength bs)); [rewrite decide_True by lia|by rewrite decide_False by lia].
        replace (Z.to_nat (a - va)) with (S (Z.to_nat (a - (va + 1)))) by lia. done.
Qed.

(** ** Strings *)

Lemma rounds_ok {T X R} (body : X → cmd T (X + R)) s r n : ∀ (xs : nat → X) m, (∀ i, (i < m)%nat → body (xs i) s = Ret (inl (xs (1 + i)%nat), s)) →
  body (xs m) s = Ret (inr r, s) → rounds n body (xs 0%nat) s = Ret (if (m <? Pos.to_nat n)%nat then inr r else inl (xs (Pos.to_nat n)), s).
Proof.
  assert (∀ n (xs : nat → X) m, (∀ (xs : nat → X) m, (∀ i, (i < m)%nat → body (xs i) s = Ret (inl (xs (1 + i)%nat), s)) → body (xs m) s = Ret (inr r, s) →
      rounds n body (xs 0%nat) s = Ret (if (m <? Pos.to_nat n)%nat then inr r else inl (xs (Pos.to_nat n)), s)) →
    (∀ i, (i < m)%nat → body (xs i) s = Ret (inl (xs (1 + i)%nat), s)) → body (xs m) s = Ret (inr r, s) →
    (let* q := rounds n body (xs 0%nat) in match q with inl x => rounds n body x | inr r => mret (inr r) end) s =
      Ret (if (m <? 2 * Pos.to_nat n)%nat then inr r else inl (xs (2 * Pos.to_nat n)%nat), s)) as Htwice.
  { intros p xs m IH Hi Hm. pose proof (IH xs m Hi Hm) as H1. destruct (Nat.ltb_spec m (Pos.to_nat p)).
    - rewrite (cstep _ _ _ _ _ H1). destruct (Nat.ltb_spec m (2 * Pos.to_nat p)); [done|lia].
    - rewrite (cstep _ _ _ _ _ H1). specialize (IH (λ i, xs (i + Pos.to_nat p)%nat) (m - Pos.to_nat p)%nat). cbn beta in IH. rewrite Nat.add_0_l in IH. rewrite IH.
      + destruct (Nat.ltb_spec (m - Pos.to_nat p) (Pos.to_nat p)), (Nat.ltb_spec m (2 * Pos.to_nat p)); try lia; [done|]. do 4 f_equal. lia.
      + intros i Hlt. rewrite Hi by lia. done.
      + by replace (m - Pos.to_nat p + Pos.to_nat p)%nat with m by lia. }
  induction n as [n IH|n IH|]; intros xs m Hi Hm; cbn [rounds].
  - destruct m as [|m].
    + rewrite (cstep _ _ _ _ _ Hm). destruct (Nat.ltb_spec 0 (Pos.to_nat n~1)); [done|lia].
    + rewrite (cstep _ _ _ _ _ (Hi 0%nat ltac:(lia))). rewrite (Htwice n (λ i, xs (1 + i)%nat) m); [|by apply IH|intros i Hlt; apply Hi; lia|done].
      rewrite Pos2Nat.inj_xI. destruct (Nat.ltb_spec m (2 * Pos.to_nat n)), (Nat.ltb_spec (S m) (S (2 * Pos.to_nat n))); try lia; done.
  - rewrite (Htwice n xs m); [|by apply IH|done|done]. by rewrite Pos2Nat.inj_xO.
  - destruct m as [|m]; [by rewrite Hm|]. rewrite Hi by lia. done.
Qed.

Definition string_in (k : kernel) (pd va : Z) (s : list Z) : Prop :=
  (∀ i b, (s ++ [0]) !! i = Some b → umem k pd (va + Z.of_nat i) = Some b) ∧ (∀ x, x ∈ s → x ≠ 0) ∧ zlength s < 2 ^ 32.

Lemma user_string_ok k pd va s : space k pd → string_in k pd va s → user_string cur va k = Ret (s, k).
Proof.
  intros Hk (Hs & Hnz & Hlen). unfold user_string. set (body := λ '(va, acc), _).
  assert (∃ n, n = (2 ^ 32)%positive ∧ zlength s < Z.pos n) as (n & <- & Hn) by (by eexists).
  rewrite (cstep _ _ _ (inr (reverse s)) k); [by rewrite reverse_involutive|].
  pose proof (rounds_ok body k (reverse s) n (λ i, (va + Z.of_nat i, reverse (take i s))) (length s)) as H. cbn beta in H. rewrite Z.add_0_r in H. change (reverse (take 0 s)) with (@nil Z) in H. rewrite H.
  - destruct (Nat.ltb_spec (length s) (Pos.to_nat n)); [done|]. lia.
  - intros i Hi. destruct (lookup_lt_is_Some_2 s i Hi) as [b Hb]. unfold body. rewrite (cstep _ _ _ b k) by (apply (peek_ok k pd Hk), Hs; by apply lookup_app_l_Some).
    destruct (Z.eqb_spec b 0) as [->|]; [exfalso; by eapply Hnz; [eapply list_elem_of_lookup_2|]|]. unfold mret, cmd_ret. do 4 f_equal; [lia|].
    change (1 + i)%nat with (S i). rewrite (take_S_r _ _ _ Hb), reverse_app. done.
  - unfold body. rewrite (cstep _ _ _ 0 k) by (apply (peek_ok k pd Hk), Hs; by rewrite lookup_app_r, Nat.sub_diag by lia). simpl. by rewrite firstn_all.
Qed.
End Memory.

(** ** The specification *)

Inductive fdcall :=
  | FCreate (name len : Z)
  | FRemove (name : Z)
  | FOpen (name : Z)
  | FFilesize (fd : Z)
  | FRead (fd buffer size : Z)
  | FWrite (fd buffer size : Z)
  | FSeek (fd position : Z)
  | FTell (fd : Z)
  | FClose (fd : Z).

(** The file behind a descriptor, 0 when there is none. *)
Definition fd_ptr (l : list Z) (fd : Z) : Z := if valid_fd fd then default 0 (zget l fd) else 0.

Lemma fd_ptr_insert l i q fd : length l = 1024%nat → (2 ≤ i < 1024)%nat → fd_ptr (<[i := q]> l) fd = if decide (fd = Z.of_nat i) then q else fd_ptr l fd.
Proof.
  intros Hl Hi. unfold fd_ptr, valid_fd. destruct (Z.ltb_spec fd 1024), (Z.leb_spec 2 fd); cbn [andb]; case_decide; try done; try lia.
  - subst fd. rewrite zget_nat, list_lookup_insert_eq by lia. done.
  - unfold zget. destruct (Z.leb_spec 0 fd); [|lia]. rewrite list_lookup_insert_ne by lia. done.
Qed.

(** Memory as the process sees it. *)
Notation view := (Z → option Z).
Definition text_in (u : view) (va : Z) (s : list Z) : Prop := ∀ i b, (s ++ [0]) !! i = Some b → u (va + Z.of_nat i) = Some b.
Definition data_in (u : view) (va : Z) (bs : list Z) : Prop := ∀ i b, bs !! i = Some b → u (va + Z.of_nat i) = Some b.
Definition stored (u : view) (va : Z) (bs : list Z) : view := λ a, if decide (va ≤ a < va + zlength bs) then bs !! Z.to_nat (a - va) else u a.

(** From memory [u], files [w], descriptors [l] and EAX [v] to those after the
    call.  Results are words: [u32 (-1)] is the -1 of the C code. *)
Inductive fd_spec (u : view) (w : world) (l : list Z) (v : Z) : fdcall → view → world → list Z → Z → Prop :=
  | fd_create name s len b w' : text_in u name s → spec_step w (CCreate s len) (VBool b) w' →
      fd_spec u w l v (FCreate name len) u w' l (b2z b)
  | fd_remove name s b w' : text_in u name s → spec_step w (CRemove s) (VBool b) w' →
      fd_spec u w l v (FRemove name) u w' l (b2z b)
  | fd_open_missing name s w' : text_in u name s → spec_step w (COpen s) (VInt 0) w' →
      fd_spec u w l v (FOpen name) u w' l (u32 (-1))
  | fd_open name s p w' i : text_in u name s → spec_step w (COpen s) (VInt p) w' → p ≠ 0 → first_free l = Some i →
      fd_spec u w l v (FOpen name) u w' (<[(2 + i)%nat := p]> l) (2 + Z.of_nat i)
  | fd_open_full name s p w' : text_in u name s → spec_step w (COpen s) (VInt p) w' → p ≠ 0 → first_free l = None →
      fd_spec u w l v (FOpen name) u w' l (u32 (-1))
  | fd_filesize_bad fd : fd_ptr l fd = 0 → fd_spec u w l v (FFilesize fd) u w l (u32 (-1))
  | fd_filesize fd n w' : fd_ptr l fd ≠ 0 → spec_step w (CLength (fd_ptr l fd)) (VInt n) w' → fd_spec u w l v (FFilesize fd) u w' l (u32 n)
  | fd_read_bad fd buffer size : fd_ptr l fd = 0 → fd_spec u w l v (FRead fd buffer size) u w l (u32 (-1))
  | fd_read fd buffer size old n new w' : fd_ptr l fd ≠ 0 → data_in u buffer old → zlength old = size →
      spec_step w (CRead (fd_ptr l fd) old size) (VBytes n new) w' →
      fd_spec u w l v (FRead fd buffer size) (stored u buffer (take (Z.to_nat n) new)) w' l (u32 n)
  | fd_write_bad fd buffer size : fd_ptr l fd = 0 → fd_spec u w l v (FWrite fd buffer size) u w l (u32 (-1))
  | fd_write fd buffer size bs n w' : fd_ptr l fd ≠ 0 → data_in u buffer bs → zlength bs = size →
      spec_step w (CWrite (fd_ptr l fd) bs size) (VInt n) w' →
      fd_spec u w l v (FWrite fd buffer size) u w' l (u32 n)
  | fd_seek_bad fd position : fd_ptr l fd = 0 → fd_spec u w l v (FSeek fd position) u w l v
  | fd_seek fd position w' : fd_ptr l fd ≠ 0 → spec_step w (CSeek (fd_ptr l fd) position) VUnit w' → fd_spec u w l v (FSeek fd position) u w' l v
  | fd_tell_bad fd : fd_ptr l fd = 0 → fd_spec u w l v (FTell fd) u w l (u32 (-1))
  | fd_tell fd n w' : fd_ptr l fd ≠ 0 → spec_step w (CTell (fd_ptr l fd)) (VInt n) w' → fd_spec u w l v (FTell fd) u w' l (u32 n)
  | fd_close_bad fd : fd_ptr l fd = 0 → fd_spec u w l v (FClose fd) u w l v
  | fd_close fd w' : fd_ptr l fd ≠ 0 → spec_step w (CClose (fd_ptr l fd)) VUnit w' → fd_spec u w l v (FClose fd) u w' (<[Z.to_nat fd := 0]> l) v.

(** The number and the arguments that the stubs of the user library push. *)
Definition encode (c : fdcall) : Z * list Z :=
  match c with
  | FCreate name len => (SYS_CREATE, [name; len])
  | FRemove name => (SYS_REMOVE, [name])
  | FOpen name => (SYS_OPEN, [name])
  | FFilesize fd => (SYS_FILESIZE, [u32 fd])
  | FRead fd buffer size => (SYS_READ, [u32 fd; buffer; size])
  | FWrite fd buffer size => (SYS_WRITE, [u32 fd; buffer; size])
  | FSeek fd position => (SYS_SEEK, [u32 fd; position])
  | FTell fd => (SYS_TELL, [u32 fd])
  | FClose fd => (SYS_CLOSE, [u32 fd])
  end.

Section Refine.
Context {D : Type} (ops : block_operations D) (ok : D → Prop) (size : Z).
Context (content : D → Z → list Z) `{!DriverOk ops ok size content}.
Hypothesis Hsize : 2 < size < 2 ^ 32 - 32.
Context (junk : list Z) (Hjunk : length junk = 20%nat).
Context (init_page_dir init_ram_pages : Z) (probe cur delimiters : Z) (al : Z → allocs).
Notation sys := (sys D).
Notation represents := (represents ok size content).

(** The state of a process with the files [w]. *)
Record process_ok (G : gmap Z inode_disk) (w : world) (s : sys) (pd : Z) (p : proc) : Prop := {
  po_fs : represents G w (k_fs (core s));
  po_space : space cur (core s) pd;
  po_proc : threads_of s !! cur = Some p;
  po_len : length (files p) = 1024%nat;
  po_sema : 0 < file_sema (core s);
  po_open fd : fd_ptr (files p) fd ≠ 0 → is_Some (w_handles w !! fd_ptr (files p) fd);
  po_inj fd fd' : fd_ptr (files p) fd ≠ 0 → fd_ptr (files p) fd = fd_ptr (files p) fd' → fd = fd';
  po_bytes t bs : w_data w !! t = Some bs → Block.bytes bs
}.

Definition user_view (s : sys) (pd : Z) : view := umem (core s) pd.

(** What a call may ask for. *)
Definition resident (s : sys) (pd va n : Z) : Prop := ∀ a, va ≤ a < va + n → is_Some (user_view s pd a).
Definition is_fd (fd : Z) : Prop := -2 ^ 31 ≤ fd < 2 ^ 31.
Definition may_call (s : sys) (pd : Z) (c : fdcall) : Prop :=
  match c with
  | FCreate name len => 0 < name ∧ 0 ≤ len < 2 ^ 31 - 512 ∧ ∃ t, string_in (core s) pd name t
  | FRemove name | FOpen name => 0 < name ∧ ∃ t, string_in (core s) pd name t
  | FRead fd buffer n => is_fd fd ∧ fd ≠ 0 ∧ 4096 ≤ buffer ∧ 0 ≤ n < 2 ^ 31 ∧ resident s pd buffer (Z.max n 1) ∧
      ∀ a, buffer ≤ a < buffer + Z.max n 1 → uwritable (core s) pd a
  | FWrite fd buffer n => is_fd fd ∧ fd ≠ 1 ∧ 0 < buffer ∧ 0 ≤ n < 2 ^ 31 ∧ resident s pd buffer (Z.max n 1)
  | FSeek fd position => is_fd fd ∧ 0 ≤ position < 2 ^ 31
  | FFilesize fd | FTell fd | FClose fd => is_fd fd
  end.

(** ** Pieces of the state *)

Definition with_core (s : sys) (k : kernel D) : sys := Sys k (threads_of s) (eax s) (screen s) (keys s).
Definition with_sema (k : kernel D) (n : Z) : kernel D := Kernel (k_fs k) (k_vm k) (k_mem k) n.

Lemma on_core_ok {A} (c : cmd (kernel D) A) s a k : c (core s) = Ret (a, k) → on_core c s = Ret (a, with_core s k).
Proof. intros H. unfold on_core. by rewrite (zoom_ok _ _ _ _ _ _ H). Qed.
Lemma on_core_same {A} (c : cmd (kernel D) A) s a : c (core s) = Ret (a, core s) → on_core c s = Ret (a, s).
Proof. intros H. rewrite (on_core_ok _ _ _ _ H). by destruct s. Qed.
Lemma on_tree_ok {A} (c : cmd tree A) (s : sys) a t : c (threads_of s) = Ret (a, t) → on_tree c s = Ret (a, Sys (core s) t (eax s) (screen s) (keys s)).
Proof. intros H. unfold on_tree. by rewrite (zoom_ok _ _ _ _ _ _ H). Qed.

Lemma down_ok (s : sys) : 0 < file_sema (core s) → on_core file_sema_down s = Ret ((), with_core s (with_sema (core s) (file_sema (core s) - 1))).
Proof. intros H. apply on_core_ok. unfold file_sema_down. by destruct (Z.ltb_spec 0 (file_sema (core s))); [|lia]. Qed.
Lemma up_ok (s : sys) : on_core file_sema_up s = Ret ((), with_core s (with_sema (core s) (file_sema (core s) + 1))).
Proof. by apply on_core_ok. Qed.

Lemma get_file_ptr_ok (s : sys) p fd x : threads_of s !! cur = Some p → zget (files p) fd = Some x → get_file_ptr cur fd s = Ret (x, s).
Proof.
  intros Hp Hx. unfold get_file_ptr. rewrite (on_tree_ok _ _ x (threads_of s)); [by destruct s|]. rewrite (cstep _ _ _ _ _ (get_proc_ok _ _ _ Hp)). by rewrite Hx.
Qed.
Lemma file_of_ok (s : sys) p fd : threads_of s !! cur = Some p → length (files p) = 1024%nat → file_of cur fd s = Ret (fd_ptr (files p) fd, s).
Proof.
  intros Hp Hl. unfold file_of, fd_ptr. destruct (valid_fd fd) eqn:Hv; [|done]. unfold valid_fd in Hv. destruct (Z.ltb_spec fd 1024), (Z.leb_spec 2 fd); try done.
  destruct (zget_is_Some (files p) fd) as [x Hx]; [lia|]. rewrite Hx. by eapply get_file_ptr_ok.
Qed.
Lemma set_file_ptr_ok (s : sys) p fd x : threads_of s !! cur = Some p → 0 ≤ fd < zlength (files p) →
  set_file_ptr cur fd x s = Ret ((), Sys (core s) (<[cur := with_files (<[Z.to_nat fd := x]> (files p)) p]> (threads_of s)) (eax s) (screen s) (keys s)).
Proof.
  intros Hp Hl. unfold set_file_ptr. apply on_tree_ok. rewrite (cstep _ _ _ _ _ (get_proc_ok _ _ _ Hp)). rewrite zset_Some by done.
  rewrite (cstep _ _ _ (<[Z.to_nat fd := x]> (files p)) (threads_of s)) by done. by apply set_proc_ok.
Qed.

(** A call of the file system. *)
Lemma on_files_ok {A} (c : cmd (fs D) A) s a f : c (k_fs (core s)) = Ret (a, f) →
  ∃ k, on_files c s = Ret (a, with_core s k) ∧ k_fs k = f ∧ same_memory (core s) k ∧ file_sema k = file_sema (core s) ∧ fs_device (k_vm k) = device f.
Proof.
  intros H. eexists. split; [unfold on_files; apply on_core_ok; unfold on_fs; by rewrite (zoom_ok _ _ _ _ _ _ H)|]. by repeat split.
Qed.

Definition implements (c : fdcall) (w : world) (s : sys) (pd : Z) (p : proc) (s' : sys) : Prop :=
  ∃ G' w' p' u', fd_spec (user_view s pd) w (files p) (eax s) c u' w' (files p') (eax s') ∧ (∀ a, user_view s' pd a = u' a) ∧
    process_ok G' w' s' pd p' ∧ screen s' = screen s ∧ keys s' = keys s.

(** Bytes stay bytes. *)
Definition call_bytes (c : call) : Prop := match c with CRead _ bs _ | CWrite _ bs _ => Block.bytes bs | _ => True end.
Lemma bytes_kept w c v w' : spec_step w c v w' → call_bytes c → (∀ t bs, w_data w !! t = Some bs → Block.bytes bs) →
  (∀ t bs, w_data w' !! t = Some bs → Block.bytes bs) ∧ match v with VBytes _ bs => Block.bytes bs | _ => True end.
Proof.
  intros Hs Hc Hw. assert (∀ w'' s, (∀ t bs, w_data w'' !! t = Some bs → Block.bytes bs) → ∀ t bs, w_data (reclaim s w'') !! t = Some bs → Block.bytes bs) as Hr.
  { intros w'' s H t bs. unfold reclaim. case_decide; [apply H|]. cbn. intros [_ ?]%lookup_delete_Some. by eapply H. }
  destruct Hs; cbn [w_data]; (split; [|try done]); try done; try (by apply Hr).
  - intros t bs [[_ <-]|[_ Hx]]%lookup_insert_Some; [|by eapply Hw]. apply Forall_replicate. lia.
  - apply Forall_app. split; [|by apply Forall_drop]. apply Forall_take, Forall_drop. by eapply Hw.
  - intros t bs [[_ <-]|[_ Hx]]%lookup_insert_Some; [|by eapply Hw]. unfold splice. pose proof (Hw _ _ H1) as Hb. unfold Block.bytes in *. cbn in Hc.
    rewrite !Forall_app. split; [by apply Forall_take|]. split; [by apply Forall_take|by apply Forall_drop].
Qed.

Lemma handles_kept w c v w' q : spec_step w c v w' → (∀ q', c = CClose q' → q ≠ q') → is_Some (w_handles w !! q) → is_Some (w_handles w' !! q).
Proof.
  intros Hs Hc Hq. assert (∀ w'' s, w_handles (reclaim s w'') = w_handles w'') as Hr by (intros; unfold reclaim; by case_decide).
  destruct Hs; rewrite ?Hr; cbn [w_handles]; try (apply lookup_insert_is_Some'; by right); try done. rewrite lookup_delete_ne; [done|]. intros E. by apply (Hc _ eq_refl).
Qed.

(** The state after a call that changes neither memory nor descriptors. *)
Section Call.
Context (G : gmap Z inode_disk) (w : world) (s : sys) (pd : Z) (p : proc) (Hs : process_ok G w s pd p).

Lemma process_step G' w' s' p' : represents G' w' (k_fs (core s')) → fs_device (k_vm (core s')) = device (k_fs (core s')) → same_memory (core s) (core s') →
  file_sema (core s') = file_sema (core s) → threads_of s' !! cur = Some p' → length (files p') = 1024%nat →
  (∀ fd, fd_ptr (files p') fd ≠ 0 → is_Some (w_handles w' !! fd_ptr (files p') fd)) →
  (∀ fd fd', fd_ptr (files p') fd ≠ 0 → fd_ptr (files p') fd = fd_ptr (files p') fd' → fd = fd') → (∀ t bs, w_data w' !! t = Some bs → Block.bytes bs) →
  process_ok G' w' s' pd p'.
Proof.
  intros Hre Hdev Hm Hsem Hp Hl Ho Hi Hb. destruct Hs. split; try done; [by eapply space_same|by rewrite Hsem].
Qed.

(** What a call leaves: the files [f], the descriptors [l] and the value [v]. *)
Record effect (s s' : sys) (f : fs D) (l : list Z) (v : Z) : Prop := {
  ef_fs : k_fs (core s') = f;
  ef_device : fs_device (k_vm (core s')) = device f;
  ef_memory : same_memory (core s) (core s');
  ef_sema : file_sema (core s') = file_sema (core s);
  ef_tree : threads_of s' !! cur = Some (with_files l p);
  ef_eax : eax s' = v;
  ef_rest : screen s' = screen s ∧ keys s' = keys s
}.
Definition lowered : sys := with_core s (with_sema (core s) (file_sema (core s) - 1)).

Lemma lower_ok : on_core file_sema_down s = Ret ((), lowered).
Proof. apply down_ok, Hs. Qed.
Lemma raise_ok s2 f l v : effect lowered s2 f l v → ∃ s', on_core file_sema_up s2 = Ret ((), s') ∧ effect s s' f l v.
Proof.
  intros [H1 H2 [] H4 H5 H6 H7]. eexists. split; [apply up_ok|]. split; try done. cbn in *. lia.
Qed.
Lemma lowered_space : space cur (core lowered) pd.
Proof. destruct (po_space _ _ _ _ _ Hs) as [H1 H2 H3 H4 H5]. split; try done. Qed.
Lemma with_files_same : with_files (files p) p = p.
Proof. by destruct p. Qed.

Lemma effect_ok s' f l v : effect s s' f l v → ∀ G' w', represents G' w' f → length l = 1024%nat →
  (∀ fd, fd_ptr l fd ≠ 0 → is_Some (w_handles w' !! fd_ptr l fd)) → (∀ fd fd', fd_ptr l fd ≠ 0 → fd_ptr l fd = fd_ptr l fd' → fd = fd') →
  (∀ t bs, w_data w' !! t = Some bs → Block.bytes bs) → process_ok G' w' s' pd (with_files l p) ∧ (∀ a, user_view s' pd a = user_view s pd a).
Proof.
  intros [H1 H2 H3 H4 H5 H6 H7] G' w' Hre Hl Ho Hi Hb. split; [apply process_step; try done; by rewrite H1|]. intros a. by apply umem_same.
Qed.

(** A call that leaves the descriptors. *)
Lemma effect_same c s' f v : effect s s' f (files p) v → ∀ G' w' cc vv, represents G' w' f → spec_step w cc vv w' → call_bytes cc → (∀ q, cc ≠ CClose q) →
  fd_spec (user_view s pd) w (files p) (eax s) c (user_view s pd) w' (files p) v → implements c w s pd p s'.
Proof.
  intros He G' w' cc vv Hre Hsp Hcb Hnc Hfd. destruct (effect_ok s' f (files p) v He G' w' Hre) as [H1 H2]; [apply Hs| |apply Hs|eapply bytes_kept; [done|done|apply Hs]|].
  { intros fd Hfd0. eapply handles_kept; [done|intros q ->; by destruct (Hnc q)|by apply Hs]. }
  exists G', w', (with_files (files p) p), (user_view s pd). rewrite (ef_eax _ _ _ _ _ He). split; [done|]. split; [done|]. split; [done|apply He].
Qed.
Lemma effect_none c s' v : effect s s' (k_fs (core s)) (files p) v →
  fd_spec (user_view s pd) w (files p) (eax s) c (user_view s pd) w (files p) v → implements c w s pd p s'.
Proof.
  intros He Hfd. destruct (effect_ok s' _ (files p) v He G w) as [H1 H2]; [apply Hs..|].
  exists G, w, (with_files (files p) p), (user_view s pd). rewrite (ef_eax _ _ _ _ _ He). split; [done|]. split; [done|]. split; [done|apply He].
Qed.

(** A call of the file system in the middle. *)
Lemma files_effect {A} (c : cmd (fs D) A) s1 v f : c (k_fs (core s1)) = Ret (v, f) → threads_of s1 !! cur = Some p →
  ∃ s2, on_files c s1 = Ret (v, s2) ∧ effect s1 s2 f (files p) (eax s1).
Proof.
  intros Hc Hp. destruct (on_files_ok c s1 v f Hc) as (k & E & Hf & Hm & Hsem & Hdev). exists (with_core s1 k). split; [done|]. split; try done. by rewrite with_files_same.
Qed.
Lemma effect_eax s1 s2 f l v n : effect s1 s2 f l v → ∃ s3, set_eax n s2 = Ret ((), s3) ∧ effect s1 s3 f l n.
Proof. intros []. eexists. split; [done|]. by split. Qed.

(** The raw calls from [exec]. *)
Lemma raw_create name len v f' : exec ops junk (CCreate name len) (k_fs (core s)) = Ret (v, f') → ∃ b, v = VBool b ∧ filesys_create ops junk name len (k_fs (core s)) = Ret (b, f').
Proof. intros (b & f1 & Hl & He)%cmd_bind_Ret. injection He as <- ->. by exists b. Qed.
Lemma raw_remove name v f' : exec ops junk (CRemove name) (k_fs (core s)) = Ret (v, f') → ∃ b, v = VBool b ∧ filesys_remove ops junk name (k_fs (core s)) = Ret (b, f').
Proof. intros (b & f1 & Hl & He)%cmd_bind_Ret. injection He as <- ->. by exists b. Qed.

Lemma string_ok va t : string_in (core s) pd va t → on_core (user_string cur va) lowered = Ret (t, lowered).
Proof. intros Ht. apply on_core_same. eapply user_string_ok; [apply lowered_space|exact Ht]. Qed.
Lemma string_zero va t : string_in (core s) pd va t → 0 ∉ t.
Proof. intros (_ & Hz & _) H. by apply Hz in H. Qed.

Lemma create_ok name len : may_call s pd (FCreate name len) → ∃ s', sys_create ops junk cur name len s = Ret ((), s') ∧ implements (FCreate name len) w s pd p s'.
Proof.
  intros (Hn & Hlen & t & Ht). destruct (call_refined ops ok size content Hsize junk Hjunk G w (k_fs (core s)) (po_fs _ _ _ _ _ Hs) (CCreate t len)) as (v & f' & G' & w' & He & Hsp & Hre).
  { split; [by eapply string_zero|done]. }
  destruct (raw_create _ _ _ _ He) as (b & -> & Hc). unfold sys_create. rewrite (cstep _ _ _ _ _ lower_ok), (cstep _ _ _ _ _ (string_ok name t Ht)), s32_id by lia.
  destruct (files_effect _ lowered b f' Hc (po_proc _ _ _ _ _ Hs)) as (s2 & E2 & H2). rewrite (cstep _ _ _ _ _ E2). destruct (effect_eax _ _ _ _ _ (b2z b) H2) as (s3 & E3 & H3).
  rewrite (cstep _ _ _ _ _ E3). destruct (raise_ok s3 _ _ _ H3) as (s' & E' & H'). exists s'. split; [done|].
  eapply (effect_same _ _ f' (b2z b)); [done|done|done|done|done|]. eapply fd_create; [exact (proj1 Ht)|done].
Qed.

Lemma remove_ok name : may_call s pd (FRemove name) → ∃ s', sys_remove ops junk cur name s = Ret ((), s') ∧ implements (FRemove name) w s pd p s'.
Proof.
  intros (Hn & t & Ht). destruct (call_refined ops ok size content Hsize junk Hjunk G w (k_fs (core s)) (po_fs _ _ _ _ _ Hs) (CRemove t)) as (v & f' & G' & w' & He & Hsp & Hre).
  { by eapply string_zero. }
  destruct (raw_remove _ _ _ He) as (b & -> & Hc). unfold sys_remove. rewrite (cstep _ _ _ _ _ lower_ok), (cstep _ _ _ _ _ (string_ok name t Ht)).
  destruct (files_effect _ lowered b f' Hc (po_proc _ _ _ _ _ Hs)) as (s2 & E2 & H2). rewrite (cstep _ _ _ _ _ E2). destruct (effect_eax _ _ _ _ _ (b2z b) H2) as (s3 & E3 & H3).
  rewrite (cstep _ _ _ _ _ E3). destruct (raise_ok s3 _ _ _ H3) as (s' & E' & H'). exists s'. split; [done|].
  eapply (effect_same _ _ f' (b2z b)); [done|done|done|done|done|]. eapply fd_remove; [exact (proj1 Ht)|done].
Qed.

Lemma fd_range fd l : fd_ptr l fd ≠ 0 → 2 ≤ fd < 1024.
Proof. unfold fd_ptr, valid_fd. destruct (Z.ltb_spec fd 1024), (Z.leb_spec 2 fd); done || lia. Qed.

(** Calls that return a number about a file. *)
Lemma number_ok fd c n f' G' w' (raw : Z → cmd (fs D) Z) (call : Z → call) :
  (fd_ptr (files p) fd ≠ 0 → raw (fd_ptr (files p) fd) (k_fs (core s)) = Ret (n, f') ∧ spec_step w (call (fd_ptr (files p) fd)) (VInt n) w' ∧ represents G' w' f') →
  (∀ q, call_bytes (call q)) → (∀ q q', call q ≠ CClose q') →
  (fd_ptr (files p) fd = 0 → fd_spec (user_view s pd) w (files p) (eax s) c (user_view s pd) w (files p) (u32 (-1))) →
  (fd_ptr (files p) fd ≠ 0 → fd_spec (user_view s pd) w (files p) (eax s) c (user_view s pd) w' (files p) (u32 n)) →
  ∃ s', (let* _ := on_core file_sema_down in
    let* _ := set_eax (u32 (-1)) in
    let* file := file_of cur fd in
    let* _ := (if negb (file =? 0) then let* n := on_files (raw file) in set_eax (u32 n) else mret ()) in
    on_core file_sema_up) s = Ret ((), s') ∧ implements c w s pd p s'.
Proof.
  intros Hraw Hcb Hnc Hbad Hgood. rewrite (cstep _ _ _ _ _ lower_ok).
  set (s1 := Sys (core lowered) (threads_of lowered) (u32 (-1)) (screen lowered) (keys lowered)). rewrite (cstep _ _ _ () s1) by done.
  assert (effect lowered s1 (k_fs (core s)) (files p) (u32 (-1))) as H1.
  { split; try done; cbn; [apply (us_device _ _ _ (po_space _ _ _ _ _ Hs))|rewrite with_files_same; apply Hs]. }
  rewrite (cstep _ _ _ _ _ (file_of_ok s1 p fd (po_proc _ _ _ _ _ Hs) (po_len _ _ _ _ _ Hs))). destruct (Z.eqb_spec (fd_ptr (files p) fd) 0) as [E0|E0]; cbn [negb].
  - rewrite (cstep _ _ _ () s1) by done. destruct (raise_ok s1 _ _ _ H1) as (s' & E' & H'). exists s'. split; [done|]. eapply effect_none; [done|by apply Hbad].
  - destruct (Hraw E0) as (Hc & Hsp & Hre). destruct (files_effect _ s1 n f' Hc (po_proc _ _ _ _ _ Hs)) as (s2 & E2 & H2).
    destruct (effect_eax _ _ _ _ _ (u32 n) H2) as (s3 & E3 & H3). rewrite (cstep _ _ _ () s3) by (by rewrite (cstep _ _ _ _ _ E2)).
    assert (effect lowered s3 f' (files p) (u32 n)) as H3' by (destruct H3; by split). destruct (raise_ok s3 _ _ _ H3') as (s' & E' & H'). exists s'. split; [done|].
    eapply (effect_same _ _ f' (u32 n)); [done|done|done|done|done|by apply Hgood].
Qed.

Lemma open_handle fd : fd_ptr (files p) fd ≠ 0 → is_Some (w_handles w !! fd_ptr (files p) fd).
Proof. apply Hs. Qed.

Lemma filesize_ok fd : ∃ s', sys_filesize cur fd s = Ret ((), s') ∧ implements (FFilesize fd) w s pd p s'.
Proof.
  destruct (decide (fd_ptr (files p) fd = 0)) as [E0|E0].
  - apply (number_ok fd (FFilesize fd) 0 (k_fs (core s)) G w file_length CLength); try done. intros _. by apply fd_filesize_bad.
  - destruct (call_refined ops ok size content Hsize junk Hjunk G w (k_fs (core s)) (po_fs _ _ _ _ _ Hs) (CLength (fd_ptr (files p) fd)) (open_handle fd E0)) as (v & f' & G' & w' & He & Hsp & Hre).
    apply cmd_bind_Ret in He as (n & f1 & Hl & He). injection He as <- ->. eapply (number_ok fd (FFilesize fd) n f' G' w' file_length CLength); try done. intros _. by apply fd_filesize.
Qed.
Lemma tell_ok fd : ∃ s', sys_tell cur fd s = Ret ((), s') ∧ implements (FTell fd) w s pd p s'.
Proof.
  destruct (decide (fd_ptr (files p) fd = 0)) as [E0|E0].
  - apply (number_ok fd (FTell fd) 0 (k_fs (core s)) G w file_tell CTell); try done. intros _. by apply fd_tell_bad.
  - destruct (call_refined ops ok size content Hsize junk Hjunk G w (k_fs (core s)) (po_fs _ _ _ _ _ Hs) (CTell (fd_ptr (files p) fd)) (open_handle fd E0)) as (v & f' & G' & w' & He & Hsp & Hre).
    apply cmd_bind_Ret in He as (n & f1 & Hl & He). injection He as <- ->. eapply (number_ok fd (FTell fd) n f' G' w' file_tell CTell); try done. intros _. by apply fd_tell.
Qed.

Lemma lowered_effect : effect lowered lowered (k_fs (core s)) (files p) (eax s).
Proof. split; try done; cbn; [apply (us_device _ _ _ (po_space _ _ _ _ _ Hs))|rewrite with_files_same; apply Hs]. Qed.

Lemma seek_ok fd position : may_call s pd (FSeek fd position) → ∃ s', sys_seek cur fd position s = Ret ((), s') ∧ implements (FSeek fd position) w s pd p s'.
Proof.
  intros [_ Hpos]. unfold sys_seek. rewrite (cstep _ _ _ _ _ lower_ok), (cstep _ _ _ _ _ (file_of_ok lowered p fd (po_proc _ _ _ _ _ Hs) (po_len _ _ _ _ _ Hs))), s32_id by lia.
  destruct (Z.eqb_spec (fd_ptr (files p) fd) 0) as [E0|E0]; cbn [negb].
  - rewrite (cstep _ _ _ () lowered) by done. destruct (raise_ok lowered _ _ _ lowered_effect) as (s' & E' & H'). exists s'. split; [done|]. eapply effect_none; [done|by apply fd_seek_bad].
  - destruct (call_refined ops ok size content Hsize junk Hjunk G w (k_fs (core s)) (po_fs _ _ _ _ _ Hs) (CSeek (fd_ptr (files p) fd) position)) as (v & f' & G' & w' & He & Hsp & Hre).
    { split; [by apply open_handle|done]. }
    apply cmd_bind_Ret in He as ([] & f1 & Hl & He). injection He as <- ->. destruct (files_effect _ lowered () f' Hl (po_proc _ _ _ _ _ Hs)) as (s2 & E2 & H2).
    rewrite (cstep _ _ _ _ _ E2). destruct (raise_ok s2 _ _ _ H2) as (s' & E' & H'). exists s'. split; [done|].
    eapply (effect_same _ _ f'); [done|done|done|done|done|by apply fd_seek].
Qed.

(** ** Descriptors *)

Lemma free_fd_ok (s1 : sys) q n : ∀ i, threads_of s1 !! cur = Some p → (i + n = 1024)%nat →
  free_fd cur n (Z.of_nat i) q s1 = match list_find (λ x, x = 0) (drop i (files p)) with
    | Some (j, _) => Ret (Some (Z.of_nat (i + j)), Sys (core s1) (<[cur := with_files (<[(i + j)%nat := q]> (files p)) p]> (threads_of s1)) (eax s1) (screen s1) (keys s1))
    | None => Ret (None, s1)
    end.
Proof.
  pose proof (po_len _ _ _ _ _ Hs) as Hl. induction n as [|n IH]; intros i Hp Hi; cbn [free_fd].
  - rewrite drop_ge by lia. done.
  - destruct (lookup_lt_is_Some_2 (files p) i) as [x Hx]; [lia|]. rewrite (cstep _ _ _ _ _ (get_file_ptr_ok s1 p (Z.of_nat i) x Hp ltac:(by rewrite zget_nat))).
    rewrite (drop_S _ _ _ Hx). simpl. destruct (Z.eqb_spec x 0) as [->|Hx0].
    + rewrite decide_True by done. rewrite (cstep _ _ _ _ _ (set_file_ptr_ok s1 p (Z.of_nat i) q Hp ltac:(lia))). rewrite Nat2Z.id, Nat.add_0_r. done.
    + rewrite decide_False by done. replace (Z.of_nat i + 1) with (Z.of_nat (S i)) by lia. rewrite IH by (done || lia). destruct (list_find _ _) as [[j y]|]; simpl; [|done].
      by replace (i + S j)%nat with (S (i + j)) by lia.
Qed.

Lemma first_free_range i : first_free (files p) = Some i → (2 + i < 1024)%nat.
Proof.
  unfold first_free. destruct (list_find _ _) as [[j y]|] eqn:E; [|done]. simpl. intros [= ->]. apply list_find_Some in E as (Hj & _). apply lookup_lt_Some in Hj.
  rewrite length_drop in Hj. pose proof (po_len _ _ _ _ _ Hs). lia.
Qed.

Lemma open_ok name : may_call s pd (FOpen name) → ∃ s', sys_open ops junk cur name s = Ret ((), s') ∧ implements (FOpen name) w s pd p s'.
Proof.
  intros (Hn & t & Ht). pose proof (po_len _ _ _ _ _ Hs) as Hl. pose proof (po_proc _ _ _ _ _ Hs) as Hp.
  destruct (call_refined ops ok size content Hsize junk Hjunk G w (k_fs (core s)) (po_fs _ _ _ _ _ Hs) (COpen t)) as (v & f' & G' & w' & He & Hsp & Hre).
  { by eapply string_zero. }
  apply cmd_bind_Ret in He as (q & f1 & Hc & He). injection He as <- ->. unfold sys_open. rewrite (cstep _ _ _ _ _ lower_ok).
  set (s1 := Sys (core lowered) (threads_of lowered) (u32 (-1)) (screen lowered) (keys lowered)). rewrite (cstep _ _ _ () s1) by done.
  rewrite (cstep _ _ _ t s1) by (apply on_core_same; eapply user_string_ok; [apply lowered_space|exact Ht]).
  destruct (files_effect _ s1 q f' Hc Hp) as (s2 & E2 & H2). rewrite (cstep _ _ _ _ _ E2).
  assert (effect lowered s2 f' (files p) (u32 (-1))) as H2' by (destruct H2; by split).
  destruct (Z.eqb_spec q 0) as [->|Hq]; cbn [negb].
  { rewrite (cstep _ _ _ () s2) by done. destruct (raise_ok s2 _ _ _ H2') as (s' & E' & H'). exists s'. split; [done|].
    eapply (effect_same _ _ f'); [done|done|done|done|done|]. eapply fd_open_missing; [exact (proj1 Ht)|done]. }
  assert (threads_of s2 !! cur = Some p) as Hp2 by (rewrite (ef_tree _ _ _ _ _ H2); by rewrite with_files_same).
  pose proof (free_fd_ok s2 q 1022 2 Hp2 eq_refl) as Hfree. destruct (first_free (files p)) as [i|] eqn:Hff.
  - assert (∃ y, list_find (λ x, x = 0) (drop 2 (files p)) = Some (i, y)) as [y Hy].
    { unfold first_free in Hff. destruct (list_find _ _) as [[j y]|]; [|done]. injection Hff as ->. by exists y. }
    rewrite Hy in Hfree. set (s3 := Sys _ _ _ _ _) in Hfree. pose proof (first_free_range i Hff) as Hi.
    set (s4 := Sys (core s3) (threads_of s3) (Z.of_nat (2 + i)) (screen s3) (keys s3)).
    rewrite (cstep _ _ _ () s4) by (by rewrite (cstep _ _ _ _ _ Hfree)).
    assert (effect lowered s4 f' (<[(2 + i)%nat := q]> (files p)) (Z.of_nat (2 + i))) as H4.
    { destruct H2'. split; try done. cbn. apply lookup_insert_eq. }
    destruct (raise_ok s4 _ _ _ H4) as (s' & E' & H'). exists s'. split; [done|].
    assert (w_handles w !! q = None ∧ is_Some (w_handles w' !! q)) as [Hfresh Hqh].
    { inversion Hsp; subst; [done|]. split; [done|]. cbn. rewrite lookup_insert_eq. by eexists. }
    destruct (effect_ok s' f' _ _ H' G' w' Hre) as [H5 H6]; [by rewrite length_insert| | |eapply bytes_kept; [done|done|apply Hs]|].
    + intros fd. rewrite fd_ptr_insert by lia. case_decide; [done|]. intros Hf0. eapply handles_kept; [done|done|by apply Hs].
    + intros fd fd'. rewrite !fd_ptr_insert by lia. case_decide as E1; case_decide as E3; try congruence.
      * intros _ Hqf. exfalso. destruct (po_open _ _ _ _ _ Hs fd') as [h Hh]; [congruence|]. rewrite <- Hqf in Hh. congruence.
      * intros Hf0 Hqf. exfalso. destruct (po_open _ _ _ _ _ Hs fd Hf0) as [h Hh]. rewrite Hqf in Hh. congruence.
      * apply (po_inj _ _ _ _ _ Hs).
    + exists G', w', (with_files (<[(2 + i)%nat := q]> (files p)) p), (user_view s pd). rewrite (ef_eax _ _ _ _ _ H').
      split; [|split; [done|split; [done|apply H']]]. cbn [files with_files]. rewrite Nat2Z.inj_add. by eapply fd_open; [exact (proj1 Ht)| | |].
  - assert (list_find (λ x, x = 0) (drop 2 (files p)) = None) as Hnone by (unfold first_free in Hff; by destruct (list_find _ _) as [[]|]).
    rewrite Hnone in Hfree. rewrite (cstep _ _ _ () s2) by (by rewrite (cstep _ _ _ _ _ Hfree)). destruct (raise_ok s2 _ _ _ H2') as (s' & E' & H'). exists s'. split; [done|].
    eapply (effect_same _ _ f'); [done|done|done|done|done|]. eapply fd_open_full; [exact (proj1 Ht)|done..].
Qed.

Lemma close_ok fd : ∃ s', sys_close ops cur fd s = Ret ((), s') ∧ implements (FClose fd) w s pd p s'.
Proof.
  pose proof (po_len _ _ _ _ _ Hs) as Hl. pose proof (po_proc _ _ _ _ _ Hs) as Hp. unfold sys_close.
  rewrite (cstep _ _ _ _ _ lower_ok), (cstep _ _ _ _ _ (file_of_ok lowered p fd Hp Hl)). destruct (Z.eqb_spec (fd_ptr (files p) fd) 0) as [E0|E0]; cbn [negb].
  { rewrite (cstep _ _ _ () lowered) by done. destruct (raise_ok lowered _ _ _ lowered_effect) as (s' & E' & H'). exists s'. split; [done|]. eapply effect_none; [done|by apply fd_close_bad]. }
  pose proof (fd_range _ _ E0) as Hfd.
  destruct (call_refined ops ok size content Hsize junk Hjunk G w (k_fs (core s)) (po_fs _ _ _ _ _ Hs) (CClose (fd_ptr (files p) fd)) (open_handle fd E0)) as (v & f' & G' & w' & He & Hsp & Hre).
  apply cmd_bind_Ret in He as ([] & f1 & Hc & He). injection He as <- ->. destruct (files_effect _ lowered () f' Hc Hp) as (s2 & E2 & H2).
  assert (threads_of s2 !! cur = Some p) as Hp2 by (rewrite (ef_tree _ _ _ _ _ H2); by rewrite with_files_same).
  pose proof (set_file_ptr_ok s2 p fd 0 Hp2 ltac:(lia)) as E3. set (s3 := Sys _ _ _ _ _) in E3. rewrite (cstep _ _ _ () s3) by (by rewrite (cstep _ _ _ _ _ E2)).
  assert (effect lowered s3 f' (<[Z.to_nat fd := 0]> (files p)) (eax s)) as H3 by (destruct H2; split; try done; cbn; apply lookup_insert_eq).
  destruct (raise_ok s3 _ _ _ H3) as (s' & E' & H'). exists s'. split; [done|].
  assert (∀ fd', fd_ptr (<[Z.to_nat fd := 0]> (files p)) fd' = if decide (fd' = fd) then 0 else fd_ptr (files p) fd') as Hptr.
  { intros fd'. rewrite fd_ptr_insert by lia. by rewrite Z2Nat.id by lia. }
  destruct (effect_ok s' f' _ _ H' G' w' Hre) as [H5 H6]; [by rewrite length_insert| | |eapply bytes_kept; [done|done|apply Hs]|].
  - intros fd'. rewrite Hptr. case_decide as Efd; [done|]. intros Hf0. eapply handles_kept; [done| |by apply Hs]. intros q' [= <-] Eq. by apply Efd, (po_inj _ _ _ _ _ Hs).
  - intros a b. rewrite !Hptr. case_decide; [done|]. case_decide as Eb; [congruence|]. apply (po_inj _ _ _ _ _ Hs).
  - exists G', w', (with_files (<[Z.to_nat fd := 0]> (files p)) p), (user_view s pd). rewrite (ef_eax _ _ _ _ _ H'). split; [|split; [done|split; [done|apply H']]].
    by apply fd_close.
Qed.

(** ** Buffers *)

Lemma going_ok {A} (c : cmd sys A) s1 a s2 : c s1 = Ret (a, s2) → going c s1 = Ret (Goes a, s2).
Proof. intros H. unfold going. by rewrite (cstep _ _ _ _ _ H). Qed.
Lemma ebind_ok {A B} (k : A → cmd sys (ended B)) c s1 a s2 : c s1 = Ret (Goes a, s2) → ebind k c s1 = k a s2.
Proof. intros H. unfold ebind. by rewrite (cstep _ _ _ _ _ H). Qed.

Lemma resident_data va n : 0 ≤ n → resident s pd va n → ∃ bs, zlength bs = n ∧ data_in (user_view s pd) va bs ∧ Block.bytes bs.
Proof.
  intros Hn Hr. exists ((λ i, default 0 (user_view s pd (va + i))) <$> seqZ 0 n). split; [rewrite length_fmap, length_seqZ; lia|]. 
  assert (∀ i x, seqZ 0 n !! i = Some x → x = Z.of_nat i ∧ ∃ b, user_view s pd (va + x) = Some b) as Hq.
  { intros i x [-> Hi]%lookup_seqZ. split; [lia|]. apply Hr. lia. }
  split.
  - intros i b Hb. apply list_lookup_fmap_Some in Hb as (x & -> & Hx). destruct (Hq i x Hx) as [-> [b Hb]]. by rewrite Hb.
  - apply Forall_fmap, Forall_lookup. intros i x Hx. simpl. destruct (Hq i x Hx) as [_ [b Hb]]. rewrite Hb. simpl. by apply (us_bytes _ _ _ (po_space _ _ _ _ _ Hs) _ _ Hb).
Qed.

Lemma write_ok esp fd buffer n : may_call s pd (FWrite fd buffer n) →
  ∃ s', sys_write ops init_page_dir init_ram_pages probe cur al esp fd buffer n s = Ret (Goes (), s') ∧ implements (FWrite fd buffer n) w s pd p s'.
Proof.
  intros (_ & Hfd & Hb0 & Hn & Hr). pose proof (po_len _ _ _ _ _ Hs) as Hl. pose proof (po_proc _ _ _ _ _ Hs) as Hp. unfold sys_write.
  destruct (Z.eqb_spec fd 1); [done|]. rewrite (ebind_ok _ _ _ _ _ (going_ok _ _ _ _ (file_of_ok s p fd Hp Hl))).
  destruct (Z.eqb_spec (fd_ptr (files p) fd) 0) as [E0|E0]; cbn [negb].
  { eexists. split; [by apply going_ok|]. eapply effect_none; [|by apply fd_write_bad]. split; try done; [apply (us_device _ _ _ (po_space _ _ _ _ _ Hs))|cbn; by rewrite with_files_same]. }
  destruct (resident_data buffer n) as (bs & Hbs & Hdata & Hbytes); [lia|intros a Ha; apply Hr; lia|].
  destruct (call_refined ops ok size content Hsize junk Hjunk G w (k_fs (core s)) (po_fs _ _ _ _ _ Hs) (CWrite (fd_ptr (files p) fd) bs n)) as (v & f' & G' & w' & He & Hsp & Hre).
  { split; [by apply open_handle|lia]. }
  apply cmd_bind_Ret in He as (r & f1 & Hc & He). injection He as <- ->. rewrite s32_id by lia.
  assert (on_core (readable cur (Z.to_nat n) buffer) lowered = Ret (bs, lowered)) as E1.
  { apply on_core_same. replace (Z.to_nat n) with (length bs) by lia. apply (readable_ok _ _ pd lowered_space). exact Hdata. }
  destruct (files_effect _ lowered r f' Hc Hp) as (s2 & E2 & H2). destruct (effect_eax _ _ _ _ _ (u32 r) H2) as (s3 & E3 & H3).
  destruct (raise_ok s3 _ _ _ H3) as (s' & E' & H'). exists s'. split.
  - apply going_ok. by rewrite (cstep _ _ _ _ _ lower_ok), (cstep _ _ _ _ _ E1), (cstep _ _ _ _ _ E2), (cstep _ _ _ _ _ E3).
  - eapply (effect_same _ _ f'); [done|done|done|done|done|]. by eapply fd_write.
Qed.

(** Pages *)
Lemma frame_page m a b : 0 ≤ a < PHYS_BASE → 0 ≤ b < PHYS_BASE → pg_no a = pg_no b → frame_of m pd a = frame_of m pd b.
Proof.
  intros Ha Hb E. apply same_page in E as [E1 E2]. unfold frame_of, pte_of. rewrite E1, E2. by rewrite !decide_True.
Qed.
Lemma view_frame a : is_Some (user_view s pd a) → 0 ≤ a < PHYS_BASE ∧ is_Some (frame_of (pages (mach (k_vm (core s)))) pd a).
Proof.
  intros [b Hb]. unfold user_view, umem in Hb. destruct (frame_of _ pd a) as [f|] eqn:Hf; [|done]. split; [exact (proj1 (frame_range _ _ _ _ Hf))|by eexists].
Qed.

Lemma pt_valid_ok esp va g : va ≠ 0 → is_Some (frame_of (pages (mach (k_vm (core s)))) pd va) →
  is_pt_valid ops init_page_dir init_ram_pages probe cur al esp va g s = Ret (Goes (), s).
Proof.
  intros Hv [f Hf]. pose proof (frame_range _ _ _ _ Hf) as ((H0 & H1) & _). unfold is_pt_valid, is_user_vaddr.
  destruct (Z.eqb_spec va 0); [done|]. destruct (Z.ltb_spec va PHYS_BASE); [|lia]. cbn [orb negb].
  rewrite (cstep _ _ _ _ _ (on_core_same _ _ _ (user_pd_ok cur _ pd (po_space _ _ _ _ _ Hs)))).
  by rewrite (cstep _ _ _ _ _ (on_core_same _ _ _ (get_page_ok cur _ pd (po_space _ _ _ _ _ Hs) va f Hf))).
Qed.
Lemma writable_page_ok va : is_Some (frame_of (pages (mach (k_vm (core s)))) pd va) → writable_page cur va s = Ret (has (pte_of (pages (mach (k_vm (core s)))) pd va) PTE_W, s).
Proof.
  intros [f Hf]. unfold writable_page. by rewrite (cstep _ _ _ _ _ (on_core_same _ _ _ (user_entry_ok cur _ pd (po_space _ _ _ _ _ Hs) va f Hf))).
Qed.

(** Every page of the buffer is present and writable. *)
Lemma pages_loop_ok esp limit fuel : ∀ b, b mod 4096 = 0 → 4096 ≤ b → limit ≤ PHYS_BASE → limit - b ≤ 4096 * Z.of_nat fuel →
  (∀ a, b ≤ a < limit → a mod 4096 = 0 → is_Some (frame_of (pages (mach (k_vm (core s)))) pd a) ∧ uwritable (core s) pd a) →
  pages_loop ops init_page_dir init_ram_pages probe cur al (S fuel) esp b limit s = Ret (Goes (), s).
Proof.
  induction fuel as [|fuel IH]; intros b Hb Hb0 Hlim Hf Hp; cbn [pages_loop]; destruct (Z.ltb_spec b limit); try done; [lia|].
  destruct (Hp b) as [Hfr Hw]; [lia|done|]. rewrite (ebind_ok _ _ _ _ _ (pt_valid_ok esp b true ltac:(lia) Hfr)), (ebind_ok _ _ _ _ _ (going_ok _ _ _ _ (writable_page_ok b Hfr))).
  unfold uwritable in Hw. rewrite Hw. rewrite (ebind_ok _ _ _ () s) by done. change PGSIZE with 4096. unfold PHYS_BASE in Hlim. rewrite u32_id by lia. apply IH.
  - rewrite Z.add_mod, Hb by lia. done.
  - lia.
  - done.
  - lia.
  - intros a Ha. apply Hp. lia.
Qed.

(** The checks of [sys_read]. *)
Lemma buffer_checked esp buffer n : 4096 ≤ buffer → 0 ≤ n < 2 ^ 31 → resident s pd buffer (Z.max n 1) → (∀ a, buffer ≤ a < buffer + Z.max n 1 → uwritable (core s) pd a) →
  let limit := u32 (buffer + n) in
  pages_loop ops init_page_dir init_ram_pages probe cur al (S (S (Z.to_nat (limit / PGSIZE)))) esp (Z.land buffer 0xfffff000) limit s = Ret (Goes (), s).
Proof.
  intros Hb Hn Hr Hw limit. destruct (view_frame (buffer + Z.max n 1 - 1)) as [Hend _]; [apply Hr; lia|]. unfold PHYS_BASE in Hend.
  assert (limit = buffer + n) as El by (unfold limit; rewrite u32_id; lia). rewrite El, land_page by lia. change PGSIZE with 4096.
  apply pages_loop_ok; [by rewrite Z.mod_mul|div_lia|unfold PHYS_BASE; lia| |].
  - rewrite Nat2Z.inj_succ, Z2Nat.id by div_lia. div_lia.
  - intros a Ha Ham. destruct (Z.le_gt_cases buffer a) as [Hle|Hgt].
    + split; [|apply Hw; lia]. apply view_frame, Hr. lia.
    + assert (pg_no a = pg_no buffer) as Epg. { unfold pg_no. rewrite !Z.shiftr_div_pow2 by done. change (2 ^ PGBITS) with 4096. div_lia. }
      destruct (view_frame buffer) as [Hbr Hbf]; [apply Hr; lia|]. split; [rewrite (frame_page _ a buffer); [done|unfold PHYS_BASE in *; div_lia|done|done]|].
      unfold uwritable, pte_of. apply same_page in Epg as [-> ->]. apply Hw. lia.
Qed.

Lemma effect_space s1 s2 f l v : space cur (core s1) pd → effect s1 s2 f l v → space cur (core s2) pd.
Proof. intros Hsp [H1 H2 H3 _ _ _ _]. eapply space_same; [done|by rewrite H1|done]. Qed.

Lemma read_ok esp fd buffer n : may_call s pd (FRead fd buffer n) →
  ∃ s', sys_read ops init_page_dir init_ram_pages probe cur al esp fd buffer n s = Ret (Goes (), s') ∧ implements (FRead fd buffer n) w s pd p s'.
Proof.
  intros (_ & Hfd & Hb0 & Hn & Hr & Hw). pose proof (po_len _ _ _ _ _ Hs) as Hl. pose proof (po_proc _ _ _ _ _ Hs) as Hp. unfold sys_read.
  destruct (Z.eqb_spec fd 0); [done|]. rewrite (ebind_ok _ _ _ _ _ (going_ok _ _ _ _ (file_of_ok s p fd Hp Hl))).
  destruct (Z.eqb_spec (fd_ptr (files p) fd) 0) as [E0|E0]; cbn [negb].
  { eexists. split; [by apply going_ok|]. eapply effect_none; [|by apply fd_read_bad]. split; try done; [apply (us_device _ _ _ (po_space _ _ _ _ _ Hs))|cbn; by rewrite with_files_same]. }
  cbv zeta. rewrite (ebind_ok _ _ _ _ _ (buffer_checked esp buffer n Hb0 Hn Hr Hw)).
  destruct (resident_data buffer n) as (old & Hold & Hdata & Hbytes); [lia|intros a Ha; apply Hr; lia|].
  destruct (call_refined ops ok size content Hsize junk Hjunk G w (k_fs (core s)) (po_fs _ _ _ _ _ Hs) (CRead (fd_ptr (files p) fd) old n)) as (v & f' & G' & w' & He & Hsp & Hre).
  { split; [by apply open_handle|lia]. }
  apply cmd_bind_Ret in He as ([r data] & f1 & Hc & He). injection He as <- ->. rewrite s32_id by lia.
  assert (on_core (readable cur (Z.to_nat n) buffer) lowered = Ret (old, lowered)) as E1.
  { apply on_core_same. replace (Z.to_nat n) with (length old) by lia. apply (readable_ok _ _ pd lowered_space). exact Hdata. }
  destruct (bytes_kept _ _ _ _ Hsp Hbytes (po_bytes _ _ _ _ _ Hs)) as [Hwb Hnb].
  assert (0 ≤ r ≤ n ∧ zlength (take (Z.to_nat r) data) = r) as [Hrn Hrl].
  { inversion Hsp as [| | | | | |? ? ? ? ? ? ? Hh| | | | | | | |]; subst. pose proof (re_pos _ _ _ _ _ _ (po_fs _ _ _ _ _ Hs) _ _ Hh) as Hps. cbn in Hps. rewrite length_take, length_app, length_take, !length_drop. repeat match goal with x := avail _ _ _ |- _ => unfold avail in x; subst x end. lia. }
  destruct (files_effect _ lowered (r, data) f' Hc Hp) as (s2 & E2 & H2). pose proof (effect_space _ _ _ _ _ lowered_space H2) as Hsp2.
  assert (∀ a, user_view s2 pd a = user_view s pd a) as Hu2 by (intros a; by apply (umem_same (core lowered)), H2).
  destruct (user_store_ok cur pd (take (Z.to_nat r) data) (core s2) buffer Hsp2) as (k3 & E3 & Hf3 & Hu3).
  { intros x Hx. pose proof (Forall_take _ (Z.to_nat r) _ Hnb) as Ht. rewrite Forall_forall in Ht. by apply Ht. }
  { intros a Ha. rewrite Hrl in Ha. split; [change (is_Some (user_view s2 pd a)); rewrite Hu2; apply Hr; lia|]. apply (uwritable_same (core lowered)); [apply H2|]. apply Hw. lia. }
  set (s3 := with_core s2 k3). set (s4 := Sys (core s3) (threads_of s3) (u32 r) (screen s3) (keys s3)). set (s5 := with_core s4 (with_sema (core s4) (file_sema (core s4) + 1))).
  exists s5. split.
  - apply going_ok. rewrite (cstep _ _ _ _ _ lower_ok), (cstep _ _ _ _ _ E1), (cstep _ _ _ _ _ E2). cbn iota beta. rewrite (cstep _ _ _ _ _ (on_core_ok _ _ _ _ E3)).
    rewrite (cstep _ _ _ () s4) by done. apply up_ok.
  - exists G', w', p, (stored (user_view s pd) buffer (take (Z.to_nat r) data)). destruct Hf3 as [fr ->]. destruct H2 as [F1 F2 [F31 F32 F33 F34] F4 F5 F6 F7]. split.
    { eapply fd_read; [done|done|lia|done]. }
    split.
    { intros a. unfold stored. change (user_view s5 pd a) with (umem (core s3) pd a). etransitivity; [apply Hu3|]. case_decide; [done|apply Hu2]. }
    split; [|done]. split; cbn.
    + by rewrite F1.
    + apply (only_frames_space cur (with_sema (core s2) (file_sema (core s2) + 1))); [by exists fr| |]; cycle 1.
      * destruct Hsp2. by split.
      * intros a b Hb. pose proof (eq_trans (eq_sym (Hu3 a)) Hb) as Hb'. clear Hb. rename Hb' into Hb. case_decide; [|by apply (us_bytes _ _ _ Hsp2) in Hb].
        pose proof (Forall_take _ (Z.to_nat r) _ Hnb) as Ht. rewrite Forall_lookup in Ht. by eapply Ht.
    + rewrite F5. by rewrite with_files_same.
    + done.
    + rewrite F4. cbn. pose proof (po_sema _ _ _ _ _ Hs). lia.
    + intros fd' Hf0. eapply handles_kept; [done|done|by apply Hs].
    + apply Hs.
    + done.
Qed.

(** ** The handler *)

Definition stack_has (esp : Z) (ws : list Z) : Prop := 0 < esp ∧ ∀ i x, ws !! i = Some x → word_at (core s) pd (esp + 4 * Z.of_nat i) x.

Lemma word_frame va x : word_at (core s) pd va x → 0 ≤ va < PHYS_BASE ∧ is_Some (frame_of (pages (mach (k_vm (core s)))) pd va).
Proof. intros [_ H]. apply view_frame. eexists. specialize (H 0%nat _ eq_refl). by rewrite Z.add_0_r in H. Qed.

Section Stack.
Context (esp num : Z) (args : list Z) (Hst : stack_has esp (num :: args)).

Lemma arg_word i x : args !! i = Some x → word_at (core s) pd (u32 (u32 (esp + 4) + 4 * Z.of_nat i)) x ∧ u32 (u32 (esp + 4) + 4 * Z.of_nat i) ≠ 0.
Proof.
  intros Hx. destruct Hst as [He Hw]. pose proof (Hw (S i) x Hx) as Hwx. destruct (word_frame _ _ Hwx) as [Hr _]. unfold PHYS_BASE in Hr.
  replace (u32 (u32 (esp + 4) + 4 * Z.of_nat i)) with (esp + 4 * Z.of_nat (S i)); [split; [done|lia]|]. rewrite (u32_id (esp + 4)), u32_id by lia. lia.
Qed.
Lemma arg_ok i x : args !! i = Some x → going (on_core (user_word cur (u32 (u32 (esp + 4) + 4 * Z.of_nat i)))) s = Ret (Goes x, s).
Proof. intros Hx. destruct (arg_word i x Hx) as [Hw _]. apply going_ok, on_core_same. by apply (user_word_ok cur _ pd (po_space _ _ _ _ _ Hs)). Qed.

Lemma process_args_ok ptr n : ∀ i, (i + n = length args)%nat →
  (∀ j x, args !! j = Some x → ptr = Z.of_nat j + 1 → x ≠ 0 ∧ is_Some (frame_of (pages (mach (k_vm (core s)))) pd x)) →
  process_args ops init_page_dir init_ram_pages probe cur al n (Z.of_nat i) esp (u32 (esp + 4)) ptr s = Ret (Goes (), s).
Proof.
  induction n as [|n IH]; intros i Hi Hp; cbn [process_args]; [done|]. destruct (lookup_lt_is_Some_2 args i) as [x Hx]; [lia|]. destruct (arg_word i x Hx) as [Hw H0].
  rewrite (ebind_ok _ _ _ _ _ (pt_valid_ok esp _ false H0 (proj2 (word_frame _ _ Hw)))). rewrite (ebind_ok _ _ _ () s).
  - replace (Z.of_nat i + 1) with (Z.of_nat (S i)) by lia. apply IH; [lia|done].
  - destruct (Z.eqb_spec ptr (Z.of_nat i + 1)) as [E|E]; [|done]. destruct (Hp i x Hx E) as [Hx0 Hxf]. rewrite (ebind_ok _ _ _ _ _ (arg_ok i x Hx)). by apply pt_valid_ok.
Qed.
End Stack.

Lemma fd_word fd : is_fd fd → s32 (u32 fd) = fd.
Proof. intros H. unfold is_fd, s32, u32 in *. div_lia. Qed.

(** The arguments that are pointers. *)
Notation pointers_ok args ptr := (∀ j x, args !! j = Some x → ptr = Z.of_nat j + 1 → x ≠ 0 ∧ is_Some (frame_of (pages (mach (k_vm (core s)))) pd x)).
Lemma no_pointer (args : list Z) : pointers_ok args NO_PT.
Proof. intros j x _ E. unfold NO_PT in E. lia. Qed.
Lemma pointer_first x rest : x ≠ 0 → is_Some (frame_of (pages (mach (k_vm (core s)))) pd x) → pointers_ok (x :: rest) FIRST_PT.
Proof. intros H1 H2 [|j] y Hy E; unfold FIRST_PT in E; [by injection Hy as <-|lia]. Qed.
Lemma pointer_second a x rest : x ≠ 0 → is_Some (frame_of (pages (mach (k_vm (core s)))) pd x) → pointers_ok (a :: x :: rest) SECOND_PT.
Proof. intros H1 H2 [|[|j]] y Hy E; unfold SECOND_PT in E; [lia|by injection Hy as <-|lia]. Qed.

Lemma name_frame name t : string_in (core s) pd name t → is_Some (frame_of (pages (mach (k_vm (core s)))) pd name).
Proof.
  intros (Ht & _). apply view_frame. destruct (t ++ [0]) as [|b l] eqn:E; [by destruct t|]. exists b. specialize (Ht 0%nat b eq_refl). by rewrite Z.add_0_r in Ht.
Qed.

Lemma handler_ok xa esp c : may_call s pd c → stack_has esp ((encode c).1 :: (encode c).2) →
  ∃ s', syscall_handler ops junk init_page_dir init_ram_pages probe cur delimiters al xa esp s = Ret (Goes Returns, s') ∧ implements c w s pd p s'.
Proof.
  intros Hc Hst. pose proof Hst as [He Hw]. pose proof (Hw 0%nat _ eq_refl) as Hw0. rewrite Z.add_0_r in Hw0. destruct (word_frame _ _ Hw0) as [_ Hf0].
  unfold syscall_handler. rewrite (ebind_ok _ _ _ _ _ (pt_valid_ok esp esp false ltac:(lia) Hf0)).
  rewrite (ebind_ok _ _ _ _ _ (going_ok _ _ _ _ (on_core_same _ _ _ (user_word_ok cur _ pd (po_space _ _ _ _ _ Hs) esp _ Hw0)))).
  destruct c as [name len|name|name|fd|fd buffer n|fd buffer n|fd position|fd|fd]; cbn [encode fst snd] in *; cbn -[u32 process_args sys_create sys_remove sys_open sys_filesize sys_read sys_write sys_seek sys_tell sys_close user_word going].
  - destruct Hc as (Hn & Hlen & tx & Ht). destruct (create_ok name len) as (s' & E & Hi); [by split; [|split; [|exists tx]]|]. exists s'. split; [|done].
    rewrite (ebind_ok _ _ _ _ _ (process_args_ok _ _ _ Hst FIRST_PT 2 0 eq_refl ltac:(apply (pointer_first name [len]); [lia|by eapply name_frame]))).
    rewrite (ebind_ok _ _ _ _ _ (arg_ok _ _ _ Hst 0 _ eq_refl)), (ebind_ok _ _ _ _ _ (arg_ok _ _ _ Hst 1 _ eq_refl)). by rewrite (ebind_ok _ _ _ _ _ (going_ok _ _ _ _ E)).
  - destruct Hc as (Hn & tx & Ht). destruct (remove_ok name) as (s' & E & Hi); [by split; [|exists tx]|]. exists s'. split; [|done].
    rewrite (ebind_ok _ _ _ _ _ (process_args_ok _ _ _ Hst FIRST_PT 1 0 eq_refl ltac:(apply (pointer_first name []); [lia|by eapply name_frame]))).
    rewrite (ebind_ok _ _ _ _ _ (arg_ok _ _ _ Hst 0 _ eq_refl)). by rewrite (ebind_ok _ _ _ _ _ (going_ok _ _ _ _ E)).
  - destruct Hc as (Hn & tx & Ht). destruct (open_ok name) as (s' & E & Hi); [by split; [|exists tx]|]. exists s'. split; [|done].
    rewrite (ebind_ok _ _ _ _ _ (process_args_ok _ _ _ Hst FIRST_PT 1 0 eq_refl ltac:(apply (pointer_first name []); [lia|by eapply name_frame]))).
    rewrite (ebind_ok _ _ _ _ _ (arg_ok _ _ _ Hst 0 _ eq_refl)). by rewrite (ebind_ok _ _ _ _ _ (going_ok _ _ _ _ E)).
  - destruct (filesize_ok fd) as (s' & E & Hi). exists s'. split; [|done]. rewrite (ebind_ok _ _ _ _ _ (process_args_ok _ _ _ Hst NO_PT 1 0 eq_refl (no_pointer _))).
    rewrite (ebind_ok _ _ _ _ _ (arg_ok _ _ _ Hst 0 _ eq_refl)), fd_word by done. by rewrite (ebind_ok _ _ _ _ _ (going_ok _ _ _ _ E)).
  - destruct (read_ok esp fd buffer n Hc) as (s' & E & Hi). exists s'. split; [|done]. destruct Hc as (Hfd & _ & Hb & Hn & Hr & _).
    rewrite (ebind_ok _ _ _ _ _ (process_args_ok _ _ _ Hst SECOND_PT 3 0 eq_refl ltac:(apply (pointer_second _ buffer [n]); [lia|apply view_frame, Hr; lia]))).
    rewrite (ebind_ok _ _ _ _ _ (arg_ok _ _ _ Hst 0 _ eq_refl)), (ebind_ok _ _ _ _ _ (arg_ok _ _ _ Hst 1 _ eq_refl)), (ebind_ok _ _ _ _ _ (arg_ok _ _ _ Hst 2 _ eq_refl)), fd_word by done.
    by rewrite (ebind_ok _ _ _ _ _ E).
  - destruct (write_ok esp fd buffer n Hc) as (s' & E & Hi). exists s'. split; [|done]. destruct Hc as (Hfd & _ & Hb & Hn & Hr).
    rewrite (ebind_ok _ _ _ _ _ (process_args_ok _ _ _ Hst SECOND_PT 3 0 eq_refl ltac:(apply (pointer_second _ buffer [n]); [lia|apply view_frame, Hr; lia]))).
    rewrite (ebind_ok _ _ _ _ _ (arg_ok _ _ _ Hst 0 _ eq_refl)), (ebind_ok _ _ _ _ _ (arg_ok _ _ _ Hst 1 _ eq_refl)), (ebind_ok _ _ _ _ _ (arg_ok _ _ _ Hst 2 _ eq_refl)), fd_word by done.
    by rewrite (ebind_ok _ _ _ _ _ E).
  - destruct (seek_ok fd position Hc) as (s' & E & Hi). exists s'. split; [|done]. destruct Hc as (Hfd & _).
    rewrite (ebind_ok _ _ _ _ _ (process_args_ok _ _ _ Hst NO_PT 2 0 eq_refl (no_pointer _))).
    rewrite (ebind_ok _ _ _ _ _ (arg_ok _ _ _ Hst 0 _ eq_refl)), (ebind_ok _ _ _ _ _ (arg_ok _ _ _ Hst 1 _ eq_refl)), fd_word by done. by rewrite (ebind_ok _ _ _ _ _ (going_ok _ _ _ _ E)).
  - destruct (tell_ok fd) as (s' & E & Hi). exists s'. split; [|done]. rewrite (ebind_ok _ _ _ _ _ (process_args_ok _ _ _ Hst NO_PT 1 0 eq_refl (no_pointer _))).
    rewrite (ebind_ok _ _ _ _ _ (arg_ok _ _ _ Hst 0 _ eq_refl)), fd_word by done. by rewrite (ebind_ok _ _ _ _ _ (going_ok _ _ _ _ E)).
  - destruct (close_ok fd) as (s' & E & Hi). exists s'. split; [|done]. rewrite (ebind_ok _ _ _ _ _ (process_args_ok _ _ _ Hst NO_PT 1 0 eq_refl (no_pointer _))).
    rewrite (ebind_ok _ _ _ _ _ (arg_ok _ _ _ Hst 0 _ eq_refl)), fd_word by done. by rewrite (ebind_ok _ _ _ _ _ (going_ok _ _ _ _ E)).
Qed.

(** ** Bad pointers *)

Definition bad (va : Z) : Prop := va = 0 ∨ PHYS_BASE ≤ va.
Definition bad_pointer (c : fdcall) : Prop :=
  match c with
  | FCreate name _ | FRemove name | FOpen name => bad name
  | FRead _ buffer _ | FWrite _ buffer _ => bad buffer
  | _ => False
  end.

Lemma pt_bad esp va g : bad va → is_pt_valid ops init_page_dir init_ram_pages probe cur al esp va g s = sys_exit ops init_page_dir probe cur (-1) s.
Proof. intros H. unfold is_pt_valid, is_user_vaddr. destruct (Z.eqb_spec va 0), (Z.ltb_spec va PHYS_BASE); try done. destruct H; lia. Qed.

(** An exit skips what follows. *)
Lemma exit_step {X A B} (k : A → cmd sys (ended B)) (m : cmd sys X) f g s1 : (∀ x s2, ebind k (f x) s2 = g x s2) → ebind k (mbind f m) s1 = mbind g m s1.
Proof. intros H. unfold ebind, mbind, cmd_bind in *. destruct (m s1) as [[x s2]|]; [apply H|done]. Qed.
Lemma ebind_exit {A B} (k : A → cmd sys (ended B)) (c : cmd sys (ended A)) : c s = sys_exit ops init_page_dir probe cur (-1) s →
  ebind k c s = sys_exit ops init_page_dir probe cur (-1) s.
Proof.
  intros H. trans (ebind k (sys_exit ops init_page_dir probe cur (-1)) s).
  { unfold ebind at 1, mbind, cmd_bind. by rewrite H. }
  unfold sys_exit, self_destruct. apply exit_step. intros _ s1. apply exit_step. intros _ s2. apply exit_step. intros [sd pd'] s3. repeat (apply exit_step; intros ? ?). done.
Qed.

Lemma process_args_bad esp num args i x n : stack_has esp (num :: args) → args !! i = Some x → (i + n = length args)%nat → bad x →
  process_args ops init_page_dir init_ram_pages probe cur al n (Z.of_nat i) esp (u32 (esp + 4)) (Z.of_nat i + 1) s = sys_exit ops init_page_dir probe cur (-1) s.
Proof.
  intros Hst Hx Hn Hb. destruct n as [|n]; [apply lookup_lt_Some in Hx; lia|]. cbn [process_args]. destruct (arg_word _ _ _ Hst i x Hx) as [Hw H0].
  rewrite (ebind_ok _ _ _ _ _ (pt_valid_ok esp _ false H0 (proj2 (word_frame _ _ Hw)))), Z.eqb_refl. apply ebind_exit.
  rewrite (ebind_ok _ _ _ _ _ (arg_ok _ _ _ Hst i x Hx)). by apply pt_bad.
Qed.

Lemma handler_bad xa esp c : stack_has esp ((encode c).1 :: (encode c).2) → bad_pointer c →
  syscall_handler ops junk init_page_dir init_ram_pages probe cur delimiters al xa esp s = sys_exit ops init_page_dir probe cur (-1) s.
Proof.
  intros Hst Hb. pose proof Hst as [He Hw]. pose proof (Hw 0%nat _ eq_refl) as Hw0. rewrite Z.add_0_r in Hw0. destruct (word_frame _ _ Hw0) as [_ Hf0].
  unfold syscall_handler. rewrite (ebind_ok _ _ _ _ _ (pt_valid_ok esp esp false ltac:(lia) Hf0)).
  rewrite (ebind_ok _ _ _ _ _ (going_ok _ _ _ _ (on_core_same _ _ _ (user_word_ok cur _ pd (po_space _ _ _ _ _ Hs) esp _ Hw0)))).
  assert (∀ a x rest, is_pt_valid ops init_page_dir init_ram_pages probe cur al esp (u32 (u32 (esp + 4) + 4 * 0)) false s = Ret (Goes (), s) → (encode c).2 = a :: x :: rest → bad x →
    process_args ops init_page_dir init_ram_pages probe cur al (S (S (length rest))) 0 esp (u32 (esp + 4)) SECOND_PT s = sys_exit ops init_page_dir probe cur (-1) s) as Hsecond.
  { intros a x rest H0 E Hx. rewrite E in Hst. cbn [process_args]. rewrite (ebind_ok _ _ _ _ _ H0). change (SECOND_PT =? 0 + 1) with false. rewrite (ebind_ok _ _ _ () s) by done.
    by apply (process_args_bad esp (encode c).1 (a :: x :: rest) 1 x (S (length rest)) Hst). }
  destruct c as [name len|name|name|fd|fd buffer n|fd buffer n|fd position|fd|fd]; cbn [encode fst snd] in *; try done;
    cbn -[u32 process_args sys_create sys_remove sys_open sys_filesize sys_read sys_write sys_seek sys_tell sys_close user_word going sys_exit]; apply ebind_exit.
  1-3: by eapply (process_args_bad esp _ _ 0 name _ Hst).
  all: destruct (arg_word _ _ _ Hst 0%nat _ eq_refl) as [Hw1 H1]; apply (Hsecond (u32 fd) buffer [n]); [|done|done]; apply (pt_valid_ok esp _ false H1 (proj2 (word_frame _ _ Hw1))).
Qed.
End Call.

(** ** The end of a process *)

Definition closed (i : Z) (l : list Z) (w w' : world) : Prop :=
  w_names w' = w_names w ∧ (∀ fd, i ≤ fd → fd_ptr l fd ≠ 0 → w_handles w' !! fd_ptr l fd = None) ∧
  (∀ q, (∀ fd, i ≤ fd → q ≠ 0 → fd_ptr l fd ≠ q) → w_handles w' !! q = w_handles w !! q) ∧
  (∀ name t, w_names w !! name = Some t → w_data w' !! t = w_data w !! t).

Lemma reclaim_keeps s w : w_names (reclaim s w) = w_names w ∧ w_handles (reclaim s w) = w_handles w ∧ (∀ name t, w_names w !! name = Some t → w_data (reclaim s w) !! t = w_data w !! t).
Proof.
  unfold reclaim. case_decide as H; [done|]. split; [done|]. split; [done|]. intros name t Hn. cbn. rewrite lookup_delete_ne; [done|]. intros ->. apply H. left. by exists name, t.
Qed.

Lemma close_fd_step G w s pd p i : process_ok G w s pd p → fd_ptr (files p) i ≠ 0 →
  ∃ s' G' w' p', sys_close ops cur i s = Ret ((), s') ∧ process_ok G' w' s' pd p' ∧ files p' = <[Z.to_nat i := 0]> (files p) ∧
    w_handles w' = delete (fd_ptr (files p) i) (w_handles w) ∧ w_names w' = w_names w ∧
    (∀ name t, w_names w !! name = Some t → w_data w' !! t = w_data w !! t) ∧
    (∀ a, user_view s' pd a = user_view s pd a) ∧ screen s' = screen s ∧ keys s' = keys s.
Proof.
  intros Hs H0. destruct (close_ok G w s pd p Hs i) as (s' & E & G' & w' & p' & u' & Hsp & Hu & Hp & Hsc & Hk). exists s', G', w', p'. split; [done|]. split; [done|].
  inversion Hsp as [| | | | | | | | | | | | | | |? Hz|? ? _ Hc]; subst; [done|]. split; [done|]. inversion Hc as [| | | | | | | | | | | | | |? t ? ? Hh]; subst.
  destruct (reclaim_keeps t (World (w_names w) (w_data w) (delete (fd_ptr (files p) i) (w_handles w)))) as (E1 & E2 & E3). rewrite E1, E2. by split_and!.
Qed.

(** The loop from descriptor [i]. *)
Lemma close_loop_ok n : ∀ i G w s pd p, 2 ≤ i → i + Z.of_nat n = 1024 → process_ok G w s pd p →
  ∃ s' G' w' p', close_loop ops cur n i s = Ret ((), s') ∧ process_ok G' w' s' pd p' ∧ closed i (files p) w w' ∧
    (∀ a, user_view s' pd a = user_view s pd a) ∧ screen s' = screen s ∧ keys s' = keys s.
Proof.
  induction n as [|n IH]; intros i G w s pd p Hi Hn Hs; cbn [close_loop].
  { exists s, G, w, p. split; [done|]. split; [done|]. split; [|done]. split; [done|]. split; [|done]. intros fd Hfd H0. apply fd_range in H0. lia. }
  pose proof (po_len _ _ _ _ _ Hs) as Hl. destruct (zget_is_Some (files p) i) as [x Hx]; [lia|]. rewrite (cstep _ _ _ _ _ (get_file_ptr_ok s p i x (po_proc _ _ _ _ _ Hs) Hx)).
  assert (fd_ptr (files p) i = x) as Ex. { unfold fd_ptr, valid_fd. destruct (Z.ltb_spec i 1024), (Z.leb_spec 2 i); try lia. by rewrite Hx. }
  destruct (Z.eqb_spec x 0) as [E0|E0]; cbn [negb].
  - rewrite (cstep _ _ _ () s) by done. destruct (IH (i + 1) G w s pd p) as (s' & G' & w' & p' & E & Hp & (C1 & C2 & C3 & C4) & Hrest); [lia|lia|done|].
    exists s', G', w', p'. split; [done|]. split; [done|]. split; [|done]. split; [done|]. split; [|split; [|done]].
    + intros fd Hfd H0. apply C2; [|done]. destruct (decide (fd = i)); [congruence|lia].
    + intros q Hq. apply C3. intros fd Hfd. apply Hq. lia.
  - destruct (close_fd_step G w s pd p i Hs) as (s1 & G1 & w1 & p1 & E1 & Hs1 & Hf1 & Hh1 & Hn1 & Hd1 & Hu1 & Hsc1 & Hk1); [congruence|].
    rewrite (cstep _ _ _ _ _ E1). destruct (IH (i + 1) G1 w1 s1 pd p1) as (s' & G' & w' & p' & E & Hp & (C1 & C2 & C3 & C4) & Hu & Hsc & Hk); [lia|lia|done|].
    assert (∀ fd, i + 1 ≤ fd → fd_ptr (files p1) fd = fd_ptr (files p) fd) as Hold.
    { intros fd Hfd. rewrite Hf1, fd_ptr_insert by lia. rewrite Z2Nat.id by lia. by rewrite decide_False by lia. }
    exists s', G', w', p'. split; [done|]. split; [done|]. split; [|split_and!; [intros a; by rewrite Hu|congruence|congruence]].
    split; [congruence|]. split; [|split].
    + intros fd Hfd H0. destruct (decide (fd = i)) as [->|]; [|rewrite <- Hold in H0 |- * by lia; apply C2; [lia|done]].
      rewrite C3; [by rewrite Hh1, lookup_delete_eq|]. intros fd' Hf' _. rewrite Hold by lia. intros Eq. symmetry in Eq. apply (po_inj _ _ _ _ _ Hs) in Eq; [lia|done].
    + intros q Hq. rewrite C3; [|intros fd Hfd Hq0; rewrite Hold by lia; apply Hq; [lia|done]]. rewrite Hh1, lookup_delete_ne; [done|]. intros Eq. apply (Hq i); [lia|congruence|done].
    + intros name u Hnm. rewrite (C4 name u) by congruence. by eapply Hd1.
Qed.

Lemma close_all_ok G w s pd p : process_ok G w s pd p →
  ∃ s' G' w' p', close_all_files ops cur s = Ret ((), s') ∧ represents G' w' (k_fs (core s')) ∧ closed 2 (files p) w w' ∧
    threads_of s' !! cur = Some p' ∧ files p' = [] ∧ (∀ a, user_view s' pd a = user_view s pd a) ∧ screen s' = screen s.
Proof.
  intros Hs. destruct (close_loop_ok 1022 2 G w s pd p) as (s1 & G1 & w1 & p1 & E1 & Hs1 & Hc & Hu & Hsc & _); [lia|done|done|].
  unfold close_all_files. rewrite (cstep _ _ _ _ _ E1). eexists _, G1, w1, (with_files [] p1).
  split; [apply on_tree_ok, set_proc_ok, (po_proc _ _ _ _ _ Hs1)|]. split; [apply Hs1|]. split; [done|]. split; [apply lookup_insert_eq|]. done.
Qed.

(** ** The console *)

Definition with_screen (s : sys) (text : list Z) : sys := Sys (core s) (threads_of s) (eax s) text (keys s).

(** What the loop prints when [n] bytes are left: always from the start. *)
Definition printed (bs : list Z) (n : Z) : list Z :=
  concat (replicate (Z.to_nat ((n - 1) / 300)) (take 300 bs)) ++ take (Z.to_nat (n - 300 * ((n - 1) / 300))) bs.
Lemma printed_short bs n : 0 < n ≤ 300 → printed bs n = take (Z.to_nat n) bs.
Proof. intros H. unfold printed. replace ((n - 1) / 300) with 0 by div_lia. simpl. do 2 f_equal. lia. Qed.
Lemma printed_long bs n : 300 < n → printed bs n = take 300 bs ++ printed bs (n - 300).
Proof.
  intros H. unfold printed. replace (n - 300 - 1) with (n - 1 + (-1) * 300) by lia. rewrite Z.div_add by lia.
  replace (Z.to_nat ((n - 1) / 300)) with (S (Z.to_nat ((n - 1) / 300 + -1))) by div_lia. cbn [replicate concat]. rewrite <- app_assoc. do 4 f_equal. div_lia.
Qed.

Lemma screen_process G w s pd p text : process_ok G w s pd p → process_ok G w (with_screen s text) pd p.
Proof. by intros []. Qed.

Lemma stdout_loop_ok G w pd p bs size' esp buffer : zlength bs = size' → size' < 2 ^ 31 → ∀ fuel k s,
  process_ok G w s pd p → data_in (user_view s pd) buffer bs → 0 < buffer →
  (∀ j, 0 ≤ j → 300 * j < size' → is_Some (frame_of (pages (mach (k_vm (core s)))) pd (buffer + 150 * (j * (j + 1))))) →
  0 ≤ k → 300 * k < size' → size' - 300 * k < 300 * Z.of_nat fuel - 300 →
  stdout_loop ops init_page_dir init_ram_pages probe cur al fuel esp buffer size' (300 * k) (buffer + 150 * (k * (k - 1))) (size' - 300 * k) s =
  Ret (Goes (), with_screen s (screen s ++ printed bs (size' - 300 * k))).
Proof.
  intros Hbs Hmax. induction fuel as [|fuel IH]; intros k s Hs Hd Hb0 Hfr Hk Hlt Hfuel; [lia|]. cbn [stdout_loop]. destruct (Z.ltb_spec (300 * k) size'); [|lia].
  pose proof (Hfr k Hk Hlt) as Hf. pose proof Hf as [f (Hr & _)%frame_range]. unfold PHYS_BASE in Hr.
  replace (buffer + 150 * (k * (k - 1)) + 300 * k) with (buffer + 150 * (k * (k + 1))) by ring. cbv zeta. rewrite (u32_id (buffer + 150 * (k * (k + 1)))) by lia.
  rewrite (ebind_ok _ _ _ _ _ (pt_valid_ok G w s pd p Hs esp (buffer + 150 * (k * (k + 1))) true ltac:(assert (0 ≤ k * (k + 1)) by (apply Z.mul_nonneg_nonneg; lia); lia) Hf)).
  assert (∀ n, (n ≤ length bs)%nat → on_core (user_bytes cur n buffer) s = Ret (take n bs, s)) as Hbytes.
  { intros n Hn. apply on_core_same. replace n with (length (take n bs)) at 1 by (rewrite length_take; lia).
    apply (user_bytes_ok cur _ pd (po_space _ _ _ _ _ Hs)). intros i b [Hi _]%lookup_take_Some. by apply Hd. }
  destruct (Z.ltb_spec 300 (size' - 300 * k)) as [Hl|Hl].
  - rewrite (ebind_ok _ _ _ (size' - 300 * k - 300) (with_screen s (screen s ++ take 300 bs))).
    2: { apply going_ok. rewrite (cstep _ _ _ _ _ (Hbytes 300%nat ltac:(lia))). done. }
    rewrite (u32_id (300 * k + 300)) by lia. replace (300 * k + 300) with (300 * (k + 1)) by lia. replace (size' - 300 * k - 300) with (size' - 300 * (k + 1)) by lia.
    replace (buffer + 150 * (k * (k + 1))) with (buffer + 150 * ((k + 1) * (k + 1 - 1))) by ring. rewrite IH; [|by apply screen_process|done|done|done|lia..].
    unfold with_screen. cbn. rewrite (printed_long bs (size' - 300 * k)) by lia. replace (size' - 300 * k - 300) with (size' - 300 * (k + 1)) by lia. by rewrite <- app_assoc.
  - rewrite (ebind_ok _ _ _ 0 (with_screen s (screen s ++ printed bs (size' - 300 * k)))).
    2: { apply going_ok. rewrite printed_short, (u32_id (size' - 300 * k)) by lia. rewrite (cstep _ _ _ _ _ (Hbytes (Z.to_nat (size' - 300 * k)) ltac:(lia))). done. }
    destruct fuel as [|fuel]; [lia|]. cbn [stdout_loop]. rewrite u32_id by lia. destruct (Z.ltb_spec (300 * k + 300) size'); [lia|]. done.
Qed.

(** ** The theorems *)


(** C32. A system call with a stack pointer, a name or a buffer that is null or
    in kernel memory is exactly an exit with status -1: no other effect takes
    place. *)
Theorem bad_pointer_exits G w s pd p xa esp c : process_ok G w s pd p →
  bad esp ∨ (stack_has s pd esp ((encode c).1 :: (encode c).2) ∧ bad_pointer c) →
  syscall_handler ops junk init_page_dir init_ram_pages probe cur delimiters al xa esp s = sys_exit ops init_page_dir probe cur (-1) s.
Proof.
  intros Hs [Hb|[Hst Hb]]; [|by apply (handler_bad G w s pd p Hs xa esp c)]. unfold syscall_handler. by apply ebind_exit, pt_bad.
Qed.

(** C31. When a process ends, [close_all_files] closes each of its descriptors
    and no handle of another process; names and the contents of named files
    are kept, and files that were removed while open go away with the last
    handle. *)
Theorem close_all_files_closes G w s pd p : process_ok G w s pd p →
  ∃ s' G' w' p', close_all_files ops cur s = Ret ((), s') ∧ represents G' w' (k_fs (core s')) ∧ closed 2 (files p) w w' ∧
    threads_of s' !! cur = Some p' ∧ files p' = [] ∧ (∀ a, user_view s' pd a = user_view s pd a) ∧ screen s' = screen s.
Proof. apply close_all_ok. Qed.

End Refine.

(** ** A process *)

(** A file "a" of 84 zero bytes that is open for the process. *)
Definition prepare : program := PCall (CCreate [97] 84) (λ _, PCall (COpen [97]) (λ _, PDone)).
Definition demo_files (s : Z) : world := World {[[97] := s]} {[s := replicate 84 0]} {[38 := Handle s 0 false]}.

Lemma prepare_values : match filesys_init ram_ops (Some blank_disk) (Some [0xdead; 0xbeef]) true (no_fs blank_disk (λ _, true)) with
  | Ret (_, f) => match run ram_ops stack_junk prepare f with Ret (vs, _) => vs = [VBool true; VInt 38] | Fail _ => False end
  | Fail _ => False end.
Proof. vm_compute. reflexivity. Qed.

Lemma prepared : ∃ G f s, represents (ram_ok 64) 64 ram_content G (demo_files s) f.
Proof.
  destruct (format_ok ram_ops (ram_ok 64) 64 ram_content ltac:(lia) blank_disk [0xdead; 0xbeef] (no_fs blank_disk (λ _, true)))
    as (G & f & Hf & Hre); [apply blank_disk_ok|apply blank_storage|apply no_fs_fresh|lia|].
  destruct (program_refined ram_ops (ram_ok 64) 64 ram_content ltac:(lia) stack_junk eq_refl prepare G (World ∅ ∅ ∅) f Hre)
    as (vs & f' & G' & w' & Hr & Hs & Hre').
  { cbn [careful prepare]. split; [split; [by intros [=]%list_elem_of_singleton|lia]|]. intros _ w1 _. split; [by intros [=]%list_elem_of_singleton|done]. }
  pose proof prepare_values as Hv. rewrite Hf, Hr in Hv. subst vs. exists G', f'. clear Hf Hr Hre.
  inversion Hs as [|? ? ? ? w1 ? ? H1 Hs1]; subst. inversion H1 as [|? ? s _ _ _ Hu| | | | | | | | | | | | |]; subst. exists s.
  inversion Hs1 as [|? ? ? ? w2 ? ? H2 Hs2]; subst. inversion H2 as [| | |? s2 p Hn _ _| | | | | | | | | | |]; subst. simpl in Hn. rewrite lookup_insert_eq in Hn. injection Hn as <-.
  inversion Hs2; subst. exact Hre'.
Qed.

(** One page of memory below [PHYS_BASE]. *)
Definition demo_dir : list Z := replicate 767 0 ++ [0x7007] ++ replicate 256 0.
Definition demo_table : list Z := replicate 1023 0 ++ [0x6007].
Definition demo_memory : gmap Z (list Z) := {[0xc0005000 := demo_dir; 0xc0007000 := demo_table]}.
Definition demo_page (stack : list Z) : list Z := replicate 4080 0 ++ stack.
Definition demo_proc : proc := Proc 3 0xc0009000 [] 0 0 0 true (<[2%nat := 38]> (replicate 1024 0)).
Definition demo_sys (stack : list Z) (f : fs (list (list Z))) : sys (list (list Z)) :=
  Sys (Kernel f (Vm {[7 := (a_supdir, 0xc0005000)]} (Pagedir.Machine demo_memory 0 0) {[0xc0006000 := demo_page stack]} (device f) a_swap empty_ft ∅) ∅ 1) {[7 := demo_proc]} 0 [] [].

Lemma zget_app_l (l k : list Z) i : i < zlength l → zget (l ++ k) i = zget l i.
Proof. intros H. unfold zget. case_match; [|done]. apply lookup_app_l. lia. Qed.
Lemma zget_zeros n i : 0 ≤ i < Z.of_nat n → zget (replicate n 0) i = Some 0.
Proof. intros H. apply zget_Some. split; [lia|]. apply lookup_replicate. lia. Qed.

Lemma demo_slot i : 0 ≤ i < 768 → Pagedir.slot demo_memory 0xc0005000 i = Some (if decide (i = 767) then 0x7007 else 0).
Proof.
  intros Hi. change (Pagedir.slot demo_memory 0xc0005000 i) with (zget demo_dir i). case_decide as E; [by subst|]. unfold demo_dir.
  assert (i < 767) by lia. assert (∃ n, n = 767%nat ∧ i < Z.of_nat n) as (n & En & Hn) by (by exists 767%nat). rewrite <- En.
  rewrite zget_app_l, zget_zeros by (rewrite ?length_replicate; lia). done.
Qed.
Lemma demo_entry i : 0 ≤ i < 1024 → Pagedir.slot demo_memory 0xc0007000 i = Some (if decide (i = 1023) then 0x6007 else 0).
Proof.
  intros Hi. change (Pagedir.slot demo_memory 0xc0007000 i) with (zget demo_table i). case_decide as E; [by subst|]. unfold demo_table.
  assert (i < 1023) by lia. assert (∃ n, n = 1023%nat ∧ i < Z.of_nat n) as (n & En & Hn) by (by exists 1023%nat). rewrite <- En.
  rewrite zget_app_l, zget_zeros by (rewrite ?length_replicate; lia). done.
Qed.
Lemma demo_directory i : 0 ≤ i < 768 → table demo_memory 0xc0005000 i = if decide (i = 767) then Some 0xc0007000 else None.
Proof. intros Hi. unfold table. rewrite demo_slot by done. case_decide; by vm_compute. Qed.
Lemma demo_frame va f : frame_of demo_memory 0xc0005000 va = Some f → pd_no va = 767 ∧ pt_no va = 1023 ∧ f = 0xc0006000.
Proof.
  intros (Hr & Hp & Hg)%frame_range. pose proof (pd_no_range va Hr) as Hd. unfold pte_of in *. rewrite demo_directory in * by done. case_decide as E; [|done].
  rewrite demo_entry in * by apply pt_no_range. case_decide as E'; [|done]. split; [done|]. split; [done|]. vm_compute in Hg. by injection Hg.
Qed.

Lemma demo_wf : pd_wf demo_memory 0xc0005000.
Proof.
  assert (is_table demo_memory 0xc0005000) by (split; [done|]; exists demo_dir; split; [done|]; split; [done|]; apply (bool_decide_unpack _); by vm_compute).
  assert (is_table demo_memory 0xc0007000) by (split; [done|]; exists demo_table; split; [done|]; split; [done|]; apply (bool_decide_unpack _); by vm_compute).
  split; [done| |].
  - intros i w Hi. rewrite demo_slot by done. case_decide; intros [= <-] Hw; [|done]. by exists 0xc0007000.
  - intros i j pt Hi Hj. rewrite !demo_directory by done. repeat case_decide; try done. congruence.
Qed.

Lemma demo_bytes stack : Forall (λ b, 0 ≤ b < 256) stack → Forall (λ b, 0 ≤ b < 256) (demo_page stack).
Proof. intros H. unfold demo_page. apply Forall_app. split; [apply Forall_replicate; lia|done]. Qed.
Lemma demo_fd fd : fd_ptr (files demo_proc) fd = if decide (fd = 2) then 38 else 0.
Proof.
  cbn [files demo_proc]. assert (∃ n, n = 1024%nat ∧ Z.of_nat n = 1024) as (n & En & Hn) by (by exists 1024%nat). rewrite <- En.
  rewrite fd_ptr_insert by (rewrite ?length_replicate; lia). change (Z.of_nat 2) with 2. case_decide; [done|]. unfold fd_ptr, valid_fd. destruct (Z.ltb_spec fd 1024), (Z.leb_spec 2 fd); try done.
  cbn [andb]. rewrite zget_zeros by lia. done.
Qed.

Lemma demo_ok stack G s f : length stack = 16%nat → Forall (λ b, 0 ≤ b < 256) stack → represents (ram_ok 64) 64 ram_content G (demo_files s) f →
  process_ok (ram_ok 64) 64 ram_content 7 G (demo_files s) (demo_sys stack f) 0xc0005000 demo_proc.
Proof.
  intros Hl Hb Hre. split; [exact Hre| |reflexivity|reflexivity|reflexivity| | |].
  - split; [by eexists|exact demo_wf| | |reflexivity].
    + intros a b g (A1 & A2 & _)%demo_frame (B1 & B2 & _)%demo_frame. apply indices_inj; congruence.
    + intros a b. unfold umem. cbn [pages mach k_vm core demo_sys frames]. destruct (frame_of demo_memory _ a) as [g|] eqn:Eg; [|done]. apply demo_frame in Eg as (_ & _ & ->).
      change ({[0xc0006000 := demo_page stack]} !! 0xc0006000 ≫= λ page, zget page (a mod 4096)) with (zget (demo_page stack) (a mod 4096)).
      intros [_ H]%zget_Some. pose proof (demo_bytes stack Hb) as Hf. rewrite Forall_lookup in Hf. by eapply Hf.
  - intros fd. rewrite demo_fd. case_decide; [|done]. intros _. by eexists.
  - intros fd fd'. rewrite !demo_fd. repeat case_decide; congruence || done.
  - intros t bs. cbn [w_data demo_files]. intros [_ <-]%lookup_singleton_Some. apply Forall_replicate. lia.
Qed.

Lemma demo_pte a : 0xbffff000 ≤ a < PHYS_BASE → pte_of demo_memory 0xc0005000 a = 0x6007.
Proof.
  unfold PHYS_BASE. intros Ha. unfold pte_of. replace (pd_no a) with 767 by (rewrite pd_no_div; div_lia). rewrite demo_directory, decide_True by lia.
  replace (pt_no a) with 1023 by (rewrite pt_no_mod; div_lia). by rewrite demo_entry by lia.
Qed.
Lemma demo_present a : 0xbffff000 ≤ a < PHYS_BASE → frame_of demo_memory 0xc0005000 a = Some 0xc0006000.
Proof. intros Ha. unfold frame_of. rewrite (demo_pte a Ha). unfold PHYS_BASE in *. rewrite decide_True by lia. done. Qed.
Lemma demo_view stack f a : 0xbffff000 ≤ a < PHYS_BASE → user_view (demo_sys stack f) 0xc0005000 a = zget (demo_page stack) (a - 0xbffff000).
Proof.
  intros Ha. unfold user_view, umem. cbn [pages mach k_vm core demo_sys frames]. rewrite (demo_present a Ha). unfold PHYS_BASE in Ha.
  change (zget (demo_page stack) (a mod 4096) = zget (demo_page stack) (a - 0xbffff000)). f_equal. div_lia.
Qed.
Lemma demo_resident stack f n : length stack = 16%nat → n ≤ 4096 → resident (demo_sys stack f) 0xc0005000 0xbffff000 n.
Proof.
  intros Hl Hn a Ha. rewrite demo_view by (unfold PHYS_BASE; lia). apply zget_is_Some. unfold demo_page. rewrite length_app, length_replicate, Hl. lia.
Qed.
Lemma demo_stack f ws : length ws = 4%nat → Forall (λ x, 0 ≤ x < 2 ^ 32) ws → stack_has (demo_sys (concat (le4 <$> ws)) f) 0xc0005000 0xbffffff0 ws.
Proof.
  intros Hl Hr. split; [lia|]. intros i x Hx. rewrite Forall_lookup in Hr. split; [by eapply Hr|]. intros j b Hb.
  change (user_view (demo_sys (concat (le4 <$> ws)) f) 0xc0005000 (0xbffffff0 + 4 * Z.of_nat i + Z.of_nat j) = Some b).
  pose proof (lookup_lt_Some _ _ _ Hx) as Hi. pose proof (lookup_lt_Some _ _ _ Hb) as Hj. change (length (le4 x)) with 4%nat in Hj.
  rewrite demo_view by (unfold PHYS_BASE; lia). unfold demo_page.
  assert (∃ n, n = 4080%nat ∧ Z.of_nat n = 4080) as (n & En & Hn) by (by exists 4080%nat). rewrite <- En. apply zget_Some. split; [lia|]. rewrite lookup_app_r, length_replicate by (rewrite length_replicate; lia).
  replace (Z.to_nat _ - n)%nat with (4 * i + j)%nat by lia.
  destruct ws as [|a0 [|a1 [|a2 [|a3 [|]]]]]; try done. do 4 (destruct i as [|i]; [injection Hx as ->; do 4 (destruct j as [|j]; [exact Hb|]); done|]). done.
Qed.

Definition demo_exec : exec_allocs := ExecAllocs None None None false 4.
Definition demo_fault : Z → allocs := λ _, Allocs None None None false.


Lemma bad_pointer_exits_witness : ∃ G f s, represents (ram_ok 64) 64 ram_content G (demo_files s) f ∧
  let s0 := demo_sys (concat (le4 <$> [SYS_WRITE; 2; 0xc0000000; 10])) f in
  syscall_handler ram_ops stack_junk 0xc0000000 4096 1 7 0xc0001000 demo_fault demo_exec 0xbffffff0 s0 = sys_exit ram_ops 0xc0000000 1 7 (-1) s0.
Proof.
  destruct prepared as (G & f & s & Hre). exists G, f, s. split; [exact Hre|].
  apply (bad_pointer_exits ram_ops (ram_ok 64) 64 ram_content stack_junk eq_refl 0xc0000000 4096 1 7 0xc0001000 demo_fault G (demo_files s) _ 0xc0005000 demo_proc demo_exec 0xbffffff0 (FWrite 2 0xc0000000 10)).
  - apply demo_ok; [done|apply (bool_decide_unpack _); by vm_compute|done].
  - right. split; [|by right]. apply demo_stack; [done|]. apply (bool_decide_unpack _). by vm_compute.
Defined.

Lemma close_all_files_closes_witness : ∃ G f s s' G' w', represents (ram_ok 64) 64 ram_content G (demo_files s) f ∧
  close_all_files ram_ops 7 (demo_sys (replicate 16 0) f) = Ret ((), s') ∧ represents (ram_ok 64) 64 ram_content G' w' (k_fs (core s')) ∧ w_handles w' !! 38 = None ∧ w_data w' !! s = Some (replicate 84 0).
Proof.
  destruct prepared as (G & f & s & Hre).
  destruct (close_all_files_closes ram_ops (ram_ok 64) 64 ram_content ltac:(lia) stack_junk eq_refl 7 G (demo_files s) (demo_sys (replicate 16 0) f) 0xc0005000 demo_proc)
    as (s' & G' & w' & p' & E & Hre' & (C1 & C2 & C3 & C4) & _).
  - apply demo_ok; [done|apply (bool_decide_unpack _); by vm_compute|done].
  - exists G, f, s, s', G', w'. split; [exact Hre|]. split; [exact E|]. split; [exact Hre'|]. split; [apply (C2 2); by rewrite ?demo_fd|]. rewrite (C4 [97] s); apply lookup_singleton_eq.
Defined.

