(* ===== verification/Random.v ===== *)
(** * Pseudo-random numbers (lib/random.c)

    The generator of random.c: the state of RC4, a permutation of the bytes,
    which [random_init] makes from a seed and every byte steps. *)

From S2P Require Import Prelude.

Record rng := Rng { s : list Z; s_i : Z; s_j : Z; inited : bool }.

(** [swap_byte (s + a, s + b)]. *)
Definition swap_byte (l : list Z) (a b : Z) : outcome (list Z) :=
  let* t := access (zget l a) in
  let* u := access (zget l b) in
  let* l := access (zset l a u) in
  access (zset l b t).

(** The second loop of [random_init], with the variable [j]. *)
Definition mix_loop (seedp : list Z) : outcome (list Z * Z) :=
  for_range 256 0 (λ i '(l, j),
    let* x := access (zget l i) in
    let* k := access (zget seedp (i mod 4)) in
    let j := u8 (j + x + k) in
    let* l := swap_byte l i j in
    Ret (l, j)) (seqZ 0 256, 0).

Definition random_init (seed : Z) : cmd rng unit :=
  let* (l, _) := lift (mix_loop (le4 (u32 seed))) in put (Rng l 0 0 true).

(** One round of the loop of [random_bytes]. *)
Definition random_byte : cmd rng Z :=
  let* r := get in
  let i := u8 (s_i r + 1) in
  let* x := lift (access (zget (s r) i)) in
  let j := u8 (s_j r + x) in
  let* l := lift (swap_byte (s r) i j) in
  let* _ := put (Rng l i j (inited r)) in
  let* a := lift (access (zget l i)) in
  let* b := lift (access (zget l j)) in
  lift (access (zget l (u8 (a + b)))).

Fixpoint random_loop (size : nat) : cmd rng (list Z) :=
  match size with
  | O => mret []
  | S size => let* b := random_byte in let* bs := random_loop size in mret (b :: bs)
  end.

Definition random_bytes (size : Z) : cmd rng (list Z) :=
  let* r := get in
  let* _ := (if negb (inited r) then random_init 0 else mret ()) in
  random_loop (Z.to_nat size).

Definition word_of (bs : list Z) : outcome Z :=
  match bs with [a; b; c; d] => Ret (a + 256 * b + 65536 * c + 16777216 * d) | _ => Fail Fault end.
Definition random_ulong : cmd rng Z := let* bs := random_bytes 4 in lift (word_of bs).

(** ** The state is a permutation of the bytes *)

Definition bytes_perm (l : list Z) : Prop := l ≡ₚ seqZ 0 256.
Definition rng_ok (r : rng) : Prop := inited r = true → bytes_perm (s r) ∧ 0 ≤ s_i r < 256 ∧ 0 ≤ s_j r < 256.

Lemma perm_length l : bytes_perm l → length l = 256%nat.
Proof. intros H. by rewrite (Permutation_length H). Qed.
Lemma perm_get l i : bytes_perm l → 0 ≤ i < 256 → ∃ x, zget l i = Some x ∧ 0 ≤ x < 256.
Proof.
  intros H Hi. destruct (zget_is_Some l i) as [x Hx]; [rewrite (perm_length l H); lia|]. exists x. split; [done|].
  apply zget_Some in Hx as [_ Hx]. apply list_elem_of_lookup_2 in Hx. unfold bytes_perm in H. rewrite H in Hx. apply elem_of_seqZ in Hx. lia.
Qed.
Lemma u8_range x : 0 ≤ u8 x < 256.
Proof. by apply Z.mod_pos_bound. Qed.

(** Swapping two elements, which may be the same. *)
Lemma swap_perm l i j : bytes_perm l → 0 ≤ i < 256 → 0 ≤ j < 256 → ∃ l', swap_byte l i j = Ret l' ∧ bytes_perm l'.
Proof.
  intros Hl Hi Hj. pose proof (perm_length l Hl) as Hlen. unfold swap_byte. destruct (perm_get l i Hl Hi) as (x & Hx & _), (perm_get l j Hl Hj) as (y & Hy & _).
  rewrite Hx, Hy. cbn [access mbind outcome_bind]. rewrite zset_Some by lia. cbn [access mbind outcome_bind]. rewrite zset_Some by (rewrite length_insert; lia).
  eexists. split; [reflexivity|]. apply zget_Some in Hx as [_ Hx], Hy as [_ Hy]. refine (perm_trans _ Hl). by apply Permutation_insert_swap.
Qed.

Lemma mix_ok seed : ∃ l j, mix_loop (le4 seed) = Ret (l, j) ∧ bytes_perm l.
Proof.
  destruct (for_range_spec (λ _ '(l, _), bytes_perm l) (λ i '(l, j),
    let* x := access (zget l i) in let* k := access (zget (le4 seed) (i mod 4)) in
    let j := u8 (j + x + k) in let* l := swap_byte l i j in Ret (l, j)) 256 0 (seqZ 0 256, 0)) as ([l j] & E & Hl); [apply Permutation_refl| |by exists l, j].
  intros i [l j] Hi Hl. destruct (perm_get l i Hl) as (x & Hx & _); [lia|]. destruct (zget_is_Some (le4 seed) (i mod 4)) as [k Hk]; [by apply Z.mod_pos_bound|].
  rewrite Hx. cbn [access mbind outcome_bind]. rewrite Hk. cbn [access mbind outcome_bind].
  destruct (swap_perm l i (u8 (j + x + k)) Hl) as (l' & E & Hl'); [lia|apply u8_range|]. rewrite E. by exists (l', u8 (j + x + k)).
Qed.

Lemma random_init_ok seed r : ∃ r', random_init seed r = Ret ((), r') ∧ rng_ok r' ∧ inited r' = true.
Proof.
  unfold random_init. destruct (mix_ok (u32 seed)) as (l & j & E & Hl). rewrite E. eexists. split; [reflexivity|]. split; [|done]. intros _. cbn. split; [done|lia].
Qed.

Lemma random_byte_ok r : rng_ok r → inited r = true → ∃ b r', random_byte r = Ret (b, r') ∧ 0 ≤ b < 256 ∧ rng_ok r' ∧ inited r' = true.
Proof.
  intros Hr Hin. destruct (Hr Hin) as (Hp & Hi & Hj). unfold random_byte. rewrite cget. cbv zeta. set (i := u8 (s_i r + 1)). assert (0 ≤ i < 256) by apply u8_range.
  destruct (perm_get (s r) i Hp) as (x & Hx & _); [done|]. rewrite Hx. cbn [access]. rewrite clift. set (j := u8 (s_j r + x)). assert (0 ≤ j < 256) by apply u8_range.
  destruct (swap_perm (s r) i j Hp) as (l & E & Hl); [done..|]. rewrite E, clift. rewrite (cstep _ _ _ () (Rng l i j (inited r))) by done.
  destruct (perm_get l i Hl) as (a & Ha & _); [done|]. destruct (perm_get l j Hl) as (b & Hb & _); [done|]. rewrite Ha. cbn [access]. rewrite clift, Hb. cbn [access]. rewrite clift.
  destruct (perm_get l (u8 (a + b)) Hl (u8_range _)) as (c & Hc & Hcr). rewrite Hc. eexists c, _. split; [reflexivity|]. split; [done|]. by split.
Qed.

Lemma random_loop_ok n : ∀ r, rng_ok r → inited r = true →
  ∃ bs r', random_loop n r = Ret (bs, r') ∧ length bs = n ∧ Forall (λ b, 0 ≤ b < 256) bs ∧ rng_ok r' ∧ inited r' = true.
Proof.
  induction n as [|n IH]; intros r Hr Hin; [by eexists [], r|]. cbn [random_loop].
  destruct (random_byte_ok r Hr Hin) as (b & r1 & E & Hb & Hr1 & Hi1). rewrite (cstep _ _ _ _ _ E).
  destruct (IH r1 Hr1 Hi1) as (bs & r2 & E2 & Hl & Hbs & Hr2 & Hi2). rewrite (cstep _ _ _ _ _ E2). exists (b :: bs), r2. split; [done|]. split; [by rewrite <- Hl|]. split; [by constructor|done].
Qed.

Lemma random_bytes_ok r size : rng_ok r → 0 ≤ size →
  ∃ bs r', random_bytes size r = Ret (bs, r') ∧ zlength bs = size ∧ Forall (λ b, 0 ≤ b < 256) bs ∧ rng_ok r' ∧ inited r' = true.
Proof.
  intros Hr Hs. unfold random_bytes. rewrite cget.
  assert (∃ r1, (if negb (inited r) then random_init 0 else mret ()) r = Ret ((), r1) ∧ rng_ok r1 ∧ inited r1 = true) as (r1 & E & Hr1 & Hi1).
  { destruct (inited r) eqn:Hi; cbn [negb]; [by exists r|apply random_init_ok]. }
  rewrite (cstep _ _ _ _ _ E). destruct (random_loop_ok (Z.to_nat size) r1 Hr1 Hi1) as (bs & r2 & E2 & Hl & Hrest). exists bs, r2. split; [done|]. split; [lia|done].
Qed.
Lemma random_ulong_ok r : rng_ok r → ∃ v r', random_ulong r = Ret (v, r') ∧ 0 ≤ v < 2 ^ 32 ∧ rng_ok r'.
Proof.
  intros Hr. unfold random_ulong. destruct (random_bytes_ok r 4 Hr) as (bs & r1 & E & Hl & Hb & Hr1 & _); [lia|]. rewrite (cstep _ _ _ _ _ E).
  destruct bs as [|a [|b [|c [|d [|]]]]]; try (simpl in Hl; lia). rewrite !Forall_cons in Hb. eexists _, r1. split; [reflexivity|]. split; [lia|done].
Qed.



