(* ===== verification/Ustar.v ===== *)
(** * Headers of tar archives (lib/ustar.c)

    A header is its 512 bytes, and a file name is the characters of a C string
    without the terminator.  Copies into fields of a header are those of
    [strlcpy] and [snprintf]: as much of the text as fits, and a terminator. *)

From Stdlib Require Import Strings.String.
From S2P Require Import Prelude Cstring Stdio.



Definition USTAR_REGULAR : Z := 48.
Definition USTAR_DIRECTORY : Z := 53.
Definition USTAR_EOF : Z := -1.
Definition USTAR_HEADER_SIZE : Z := 512.

(** The fields of the header with their sizes. *)
Definition ustar_header : list (string * Z) :=
  [("name", 100); ("mode", 8); ("uid", 8); ("gid", 8); ("size", 12); ("mtime", 12); ("chksum", 8); ("typeflag", 1); ("linkname", 100);
   ("magic", 6); ("version", 2); ("uname", 32); ("gname", 32); ("devmajor", 8); ("devminor", 8); ("prefix", 155); ("padding", 12)]%string.
Fixpoint offset_in (fields : list (string * Z)) (f : string) : Z :=
  match fields with [] => 0 | (g, n) :: fields => if String.eqb f g then 0 else n + offset_in fields f end.
Definition offsetof (f : string) : Z := offset_in ustar_header f.
Definition sizeof (f : string) : Z := match list_find (λ g, f = g.1) ustar_header with Some (_, (_, n)) => n | None => 0 end.

Definition calculate_chksum (h : list Z) : outcome Z :=
  for_range 512 0 (λ i chksum,
    let chksum_start := offsetof "chksum" in
    let chksum_end := chksum_start + sizeof "chksum" in
    let in_chksum_field := (chksum_start <=? i) && (i <? chksum_end) in
    let* b := access (zget h i) in
    Ret (u32 (chksum + (if in_chksum_field then 32 else b)))) 0.

(** [memcmp] of the string with the terminator against a literal. *)
Definition starts (literal s : list Z) : bool := bool_decide (take (length literal) (s ++ [0]) = literal).

(** The loop of [strip_antisocial_prefixes]: [strchr] finds the slash. *)
Fixpoint strip_loop (fuel : nat) (file_name : list Z) : outcome (list Z) :=
  match fuel with
  | O => Fail OutOfFuel
  | S fuel =>
      if starts (chars "/") file_name || starts (chars "./") file_name || starts (chars "../") file_name then
        let* k := access (index 47 file_name) in strip_loop fuel (drop (S k) file_name)
      else Ret file_name
  end.
Definition strip_antisocial_prefixes (file_name : list Z) : outcome (list Z) :=
  let* file_name := strip_loop (S (length file_name)) file_name in
  Ret (if bool_decide (file_name = []) || bool_decide (file_name = chars "..") then chars "." else file_name).

(** [strlcpy] and [snprintf] to a field. *)
Definition copy_field (f : string) (text h : list Z) : outcome (list Z) :=
  overwrite h (offsetof f) (take (Z.to_nat (sizeof f - 1)) text ++ [0]).
Definition print_field (f : string) (size : Z) (format : string) (v : Z) (h : list Z) : outcome (list Z) :=
  let* text := formatted ∅ (chars format ++ [0]) [v] in
  overwrite h (offsetof f) (take (Z.to_nat (size - 1)) text ++ [0]).

(** The header, or [None] for false. *)
Definition ustar_make_header (file_name : list Z) (type size : Z) : outcome (option (list Z)) :=
  let* _ := ASSERT ((type =? USTAR_REGULAR) || (type =? USTAR_DIRECTORY)) in
  let* file_name := strip_antisocial_prefixes file_name in
  if 99 <? zlength file_name then Ret None else
  let h := replicate (Z.to_nat USTAR_HEADER_SIZE) 0 in
  let* h := copy_field "name" file_name h in
  let* h := print_field "mode" (sizeof "mode") "%07o" (if type =? USTAR_REGULAR then 420 else 493) h in
  let* h := copy_field "uid" (chars "0000000") h in
  let* h := copy_field "gid" (chars "0000000") h in
  let* h := print_field "size" (sizeof "size") "%011o" size h in
  let* h := print_field "mtime" (sizeof "size") "%011o" 1136102400 h in
  let* h := overwrite h (offsetof "typeflag") [u8 type] in
  let* h := copy_field "magic" (chars "ustar") h in
  let* h := overwrite h (offsetof "version") [48; 48] in
  let* h := copy_field "gname" (chars "root") h in
  let* h := copy_field "uname" (chars "root") h in
  let* sum := calculate_chksum h in
  let* h := print_field "chksum" (sizeof "chksum") "%07o" sum h in
  Ret (Some h).

Definition ULONG_MAX : Z := 2 ^ 32 - 1.

(** The loop over a field, from offset [ofs]: the value, or [None] for
    false. *)
Fixpoint octal_loop (s : list Z) (ofs value : Z) : option Z :=
  match s with
  | [] => None
  | c :: s =>
      if (48 <=? c) && (c <=? 55) then
        if ULONG_MAX / 8 <? value then None else octal_loop s (ofs + 1) (c - 48 + value * 8)
      else if (c =? 32) || (c =? 0) then if 0 <? ofs then Some value else None
      else None
  end.
Definition parse_octal_field (s : list Z) : option Z := octal_loop s 0 0.

Fixpoint is_all_zeros (block : list Z) : bool :=
  match block with [] => true | b :: block => if negb (b =? 0) then false else is_all_zeros block end.

(** The message, or what the pointers receive; a null name is [None]. *)
Inductive parsed := Error (message : string) | Header (file_name : option (list Z)) (type size : Z).

Definition field (f : string) (h : list Z) : outcome (list Z) := slice h (offsetof f) (sizeof f).
Definition byte_at (f : string) (i : Z) (h : list Z) : outcome Z := access (zget h (offsetof f + i)).
(** The string that begins with a field. *)
Definition string_field (f : string) (h : list Z) : outcome (list Z) :=
  let s := drop (Z.to_nat (offsetof f)) h in
  let* k := access (index 0 s) in Ret (take k s).

Definition ustar_parse_header (h : list Z) : outcome parsed :=
  if is_all_zeros h then Ret (Header None USTAR_EOF 0) else
  let* magic := field "magic" h in
  if negb (bool_decide (magic = chars "ustar" ++ [0])) then Ret (Error "not a ustar archive") else
  let* v0 := byte_at "version" 0 h in
  let* v1 := byte_at "version" 1 h in
  if negb (v0 =? 48) || negb (v1 =? 48) then Ret (Error "invalid ustar version") else
  let* chksum := field "chksum" h in
  match parse_octal_field chksum with
  | None => Ret (Error "corrupt chksum field")
  | Some chksum =>
      let* sum := calculate_chksum h in
      if negb (chksum =? sum) then Ret (Error "checksum mismatch") else
      let* last := byte_at "name" (sizeof "name" - 1) h in
      let* prefix := byte_at "prefix" 0 h in
      if negb (last =? 0) || negb (prefix =? 0) then Ret (Error "file name too long") else
      let* typeflag := byte_at "typeflag" 0 h in
      if negb (typeflag =? USTAR_REGULAR) && negb (typeflag =? USTAR_DIRECTORY) then Ret (Error "unimplemented file type") else
      let found (size : Z) : outcome parsed :=
        let* name := string_field "name" h in
        let* name := strip_antisocial_prefixes name in
        Ret (Header (Some name) typeflag size) in
      if typeflag =? USTAR_REGULAR then
        let* size := field "size" h in
        match parse_octal_field size with
        | None => Ret (Error "corrupt file size field")
        | Some size => if INT_MAX <? size then Ret (Error "file too large") else found size
        end
      else found 0
  end.

Example make_parse_demo : (let* h := ustar_make_header (chars "../a/b.c") USTAR_REGULAR 12345 in
  match h with Some h => ustar_parse_header h | None => Fail Fault end) = Ret (Header (Some (chars "a/b.c")) 48 12345).
Proof. vm_compute. reflexivity. Qed.

(** ** Names *)

(** What [strip_antisocial_prefixes] promises. *)
Definition social (s : list Z) : Prop :=
  s ≠ [] ∧ s ≠ chars ".." ∧ starts (chars "/") s = false ∧ starts (chars "./") s = false ∧ starts (chars "../") s = false.

Lemma starts_slash lit s : starts lit s = true → last lit = Some 47 → ∃ k, index 47 s = Some k.
Proof.
  intros H Hl. unfold starts in H. apply bool_decide_eq_true in H. assert (47 ∈ s) as Hin.
  { rewrite last_lookup in Hl. apply list_elem_of_lookup_2 in Hl. rewrite <- H in Hl. apply elem_of_take in Hl as (i & Hi & _).
    apply lookup_app_Some in Hi as [Hi|[_ Hi]]; [by apply list_elem_of_lookup_2 in Hi|]. by apply list_elem_of_lookup_2, list_elem_of_singleton in Hi. }
  unfold index. destruct (list_find (47 =.) s) as [[k x]|] eqn:E; [by exists k|]. apply list_find_None in E. rewrite Forall_forall in E. by apply E in Hin.
Qed.
Lemma index_lt x s k : index x s = Some k → (k < length s)%nat.
Proof. unfold index. destruct (list_find _ _) as [[j y]|] eqn:E; [|done]. intros [= ->]. apply list_find_Some in E as (E & _). by apply lookup_lt_Some in E. Qed.

Lemma strip_loop_ok fuel : ∀ s, (length s < fuel)%nat → ∃ k, strip_loop fuel s = Ret (drop k s) ∧
  starts (chars "/") (drop k s) = false ∧ starts (chars "./") (drop k s) = false ∧ starts (chars "../") (drop k s) = false.
Proof.
  induction fuel as [|fuel IH]; intros s Hf; [lia|]. cbn [strip_loop].
  destruct (starts (chars "/") s || starts (chars "./") s || starts (chars "../") s) eqn:E.
  - assert (∃ k, index 47 s = Some k) as [k Hk].
    { apply orb_prop in E as [E|E]; [apply orb_prop in E as [E|E]|]; by eapply starts_slash. }
    rewrite Hk. cbn [access mbind outcome_bind]. pose proof (index_lt _ _ _ Hk). destruct (IH (drop (S k) s)) as (j & Hj & Hrest); [rewrite length_drop; lia|].
    exists (S k + j)%nat. rewrite <- drop_drop. done.
  - exists 0%nat. rewrite drop_0. apply orb_false_iff in E as [E ?]. apply orb_false_iff in E as [? ?]. done.
Qed.

Lemma strip_ok s : ∃ t, strip_antisocial_prefixes s = Ret t ∧ social t ∧ (t = chars "." ∨ ∃ k, t = drop k s).
Proof.
  unfold strip_antisocial_prefixes. destruct (strip_loop_ok (S (length s)) s) as (k & -> & H1 & H2 & H3); [lia|]. cbn [mbind outcome_bind]. eexists. split; [reflexivity|].
  destruct (bool_decide_reflect (drop k s = [])) as [E|E]; [by split; [|left]|]. destruct (bool_decide_reflect (drop k s = chars "..")) as [E'|E']; [by split; [|left]|].
  cbn [orb]. split; [done|right; by exists k].
Qed.

(** A stripped name stays. *)
Lemma strip_social s : social s → strip_antisocial_prefixes s = Ret s.
Proof.
  intros (H1 & H2 & H3 & H4 & H5). unfold strip_antisocial_prefixes. cbn [strip_loop]. rewrite H3, H4, H5. cbn [orb mbind outcome_bind].
  by rewrite !bool_decide_eq_false_2.
Qed.

(** ** Octal fields *)

Lemma octal_loop_digits ds : ∀ rest ofs value, Forall (λ c, 48 ≤ c ≤ 55) ds → 0 ≤ value → 0 ≤ ofs →
  foldl (λ v c, v * 8 + (c - 48)) value ds ≤ ULONG_MAX → 0 < ofs + zlength ds →
  octal_loop (ds ++ 0 :: rest) ofs value = Some (foldl (λ v c, v * 8 + (c - 48)) value ds).
Proof.
  assert (∀ l v, Forall (λ c, 48 ≤ c ≤ 55) l → 0 ≤ v → v ≤ foldl (λ v c, v * 8 + (c - 48)) v l) as Hmono.
  { intros l. induction l as [|c l IH]; intros v Hd Hv; cbn [foldl]; [lia|]. apply Forall_cons in Hd as [Hc Hd]. specialize (IH (v * 8 + (c - 48)) Hd). lia. }
  induction ds as [|c ds IH]; intros rest ofs value Hd Hv Ho Hmax Hpos; cbn [app octal_loop foldl].
  - cbn. destruct (Z.ltb_spec 0 ofs); [done|simpl in Hpos; lia].
  - apply Forall_cons in Hd as [Hc Hd]. cbn [foldl] in Hmax. destruct (Z.leb_spec 48 c), (Z.leb_spec c 55); try lia. cbn [andb].
    pose proof (Hmono ds (value * 8 + (c - 48)) Hd ltac:(lia)). change (ULONG_MAX / 8) with 536870911. change ULONG_MAX with 4294967295 in *. destruct (Z.ltb_spec 536870911 value); [lia|].
    replace (c - 48 + value * 8) with (value * 8 + (c - 48)) by lia. apply IH; try done; try lia.
Qed.

Lemma octal_digit c : digit_char base_o false c → 48 ≤ c ≤ 55 ∧ digit_value base_o c = c - 48 ∧ c ≠ 44.
Proof.
  intros [H|[? _]]; [|done]. cbn in H. repeat (apply elem_of_cons in H as [->|H]; [vm_compute; done|]). by apply elem_of_nil in H.
Qed.
Lemma octal_denotes ds : Forall (digit_char base_o false) ds → denotes base_o ds = foldl (λ v c, v * 8 + (c - 48)) 0 ds.
Proof.
  intros H. unfold denotes. rewrite filter_all by (intros x Hx; rewrite Forall_forall in H; by apply octal_digit, H). generalize 0 as v.
  induction H as [|c ds Hc Hd IH]; intros v; [done|]. cbn [foldl]. rewrite IH. by rewrite (proj1 (proj2 (octal_digit c Hc))).
Qed.

(** The conversion of a field with [w] digits. *)
Lemma octal_field (w v : Z) : 0 < w < 2 ^ 31 → 0 ≤ v < 2 ^ 32 → v < 8 ^ w →
  ∃ ds, format_integer v false false base_o (Conversion ZERO w (-1) INT) = Ret ds ∧ zlength ds = w ∧
    Forall (λ c, 48 ≤ c ≤ 55) ds ∧ foldl (λ v c, v * 8 + (c - 48)) 0 ds = v.
Proof.
  intros Hw Hv Hvw. set (c := Conversion ZERO w (-1) INT). destruct (format_integer_ok v false false base_o c) as (ds & Hf & Hd & Hall & Hl & Hnil & Hsh); [by right; left|lia|cbn; lia|].
  assert (padded c (sign_field false false c) (prefix_field v base_o c) ds = replicate (Z.to_nat (w - zlength ds)) 48 ++ ds) as Ep by (unfold padded; cbn; by rewrite app_nil_r).
  rewrite Ep in Hf. eexists. split; [exact Hf|].
  assert (zlength ds ≤ w) as Hle. { destruct (Hsh eq_refl eq_refl eq_refl) as [?|Hp]; [lia|]. cbn in Hp. destruct (decide (zlength ds ≤ w)); [done|]. assert (8 ^ w ≤ 8 ^ (zlength ds - 1)) by (apply Z.pow_le_mono_r; lia). lia. }
  assert (Forall (digit_char base_o false) (replicate (Z.to_nat (w - zlength ds)) 48 ++ ds)) as Hall'.
  { apply Forall_app. split; [|exact Hall]. apply Forall_replicate. left. cbn. set_solver. }
  split; [rewrite length_app, length_replicate; lia|]. split; [eapply Forall_impl; [exact Hall'|]; intros x Hx; by apply octal_digit|].
  rewrite <- octal_denotes by done. by rewrite denotes_zeros; [|right; left].
Qed.

Lemma convert_octal m c v ds : type c = INT → 0 ≤ v < 2 ^ 32 → format_integer v false false base_o c = Ret ds → convert m 111 c [v] = Ret (Some (ds, [])).
Proof. intros Ht Hv Hf. unfold convert, unsigned_arg, arg32. cbn [Z.eqb Pos.eqb orb]. rewrite Ht. cbn [mbind outcome_bind]. rewrite u32_id by lia. by rewrite Hf. Qed.

(** The two formats of the fields. *)
Lemma print_octal (long : bool) v : 0 ≤ v < 2 ^ 32 → v < 8 ^ (if long then 11 else 7) →
  ∃ ds, formatted ∅ (chars (if long then "%011o" else "%07o") ++ [0]) [v] = Ret ds ∧ zlength ds = (if long then 11 else 7) ∧
    Forall (λ c, 48 ≤ c ≤ 55) ds ∧ foldl (λ v c, v * 8 + (c - 48)) 0 ds = v.
Proof.
  intros Hv Hw. destruct (octal_field (if long then 11 else 7) v) as (ds & Hf & Hrest); [by destruct long|done|done|]. exists ds. split; [|done].
  set (c := Conversion ZERO (if long then 11 else 7) (-1) INT) in *. pose proof (convert_octal ∅ c v ds eq_refl Hv Hf) as Hc.
  assert (∃ n fmt, print_fuel (chars (if long then "%011o" else "%07o") ++ [0]) = S (S n) ∧ chars (if long then "%011o" else "%07o") ++ [0] = 37 :: fmt ∧
    head fmt = Some 48 ∧ parse_conversion fmt [v] = Ret (c, [111; 0], [v])) as (n & fmt & En & Ef & Eh & Ep) by (destruct long; eexists _, _; done).
  destruct fmt as [|x fmt]; [done|]. injection Eh as ->. unfold formatted. rewrite En, Ef. cbn [__vprintf peek head access mbind outcome_bind tail Z.eqb Pos.eqb negb]. rewrite Ep.
  cbn [mbind outcome_bind peek head access]. rewrite Hc. cbn. by rewrite app_nil_r.
Qed.

(** ** Headers *)

Lemma put_ok h pos data : length h = 512%nat → 0 ≤ pos → pos + zlength data ≤ 512 →
  ∃ h', overwrite h pos data = Ret h' ∧ length h' = 512%nat ∧
    ∀ i, zget h' i = if decide (pos ≤ i < pos + zlength data) then zget data (i - pos) else zget h i.
Proof.
  intros Hl Hp Hd. rewrite overwrite_ok by lia. eexists. split; [reflexivity|]. split; [rewrite length_overwritten by lia; done|]. intros i.
  unfold zget. destruct (Z.leb_spec 0 i); [|rewrite decide_False by lia; done]. case_decide as Hi.
  - destruct (Z.leb_spec 0 (i - pos)); [|lia]. rewrite lookup_app_r, length_take by (rewrite length_take; lia).
    rewrite lookup_app_l by lia. f_equal. lia.
  - destruct (decide (i < pos)); [rewrite lookup_app_l, lookup_take by (rewrite ?length_take; lia); by rewrite decide_True by lia|].
    rewrite lookup_app_r, length_take by (rewrite length_take; lia). rewrite lookup_app_r, lookup_drop by lia. f_equal. lia.
Qed.

(** Reading what is known of the bytes. *)
Lemma slice_gets h pos bs : length h = 512%nat → 0 ≤ pos → pos + zlength bs ≤ 512 → (∀ k b, bs !! k = Some b → zget h (pos + Z.of_nat k) = Some b) →
  slice h pos (zlength bs) = Ret bs.
Proof.
  intros Hl Hp Hd Hb. rewrite slice_ok by lia. f_equal. apply list_eq_same_length with (length bs); [done|rewrite length_take, length_drop; lia|].
  intros k x y Hk Hx Hy. rewrite lookup_take_lt, lookup_drop in Hx by lia. specialize (Hb k y Hy). apply zget_Some in Hb as [_ Hb].
  replace (Z.to_nat (pos + Z.of_nat k)) with (Z.to_nat pos + k)%nat in Hb by lia. congruence.
Qed.
Lemma index_at s pre rest x : s = pre ++ x :: rest → x ∉ pre → index x s = Some (length pre).
Proof.
  intros -> Hx. unfold index. assert (list_find (x =.) (pre ++ x :: rest) = Some (length pre, x)) as ->; [|done].
  apply list_find_Some. split; [by rewrite lookup_app_r, Nat.sub_diag|]. split; [done|]. intros j y Hj Hlt ->. rewrite lookup_app_l in Hj by done. by apply list_elem_of_lookup_2 in Hj.
Qed.

Lemma for_range_ext {S} (f g : Z → S → outcome S) n : ∀ i s, (∀ j t, i ≤ j < i + Z.of_nat n → f j t = g j t) → for_range n i f s = for_range n i g s.
Proof.
  induction n as [|n IH]; intros i s H; [done|]. cbn [for_range]. rewrite H by lia. destruct (g i s) as [t|]; [|done]. cbn. apply IH. intros j u Hj. apply H. lia.
Qed.

(** The sum does not depend on its own field, and fits seven digits. *)
Lemma chksum_ext h h' : (∀ i, ¬ 148 ≤ i < 156 → zget h i = zget h' i) → length h = 512%nat → length h' = 512%nat → calculate_chksum h = calculate_chksum h'.
Proof.
  intros He Hl Hl'. unfold calculate_chksum. apply for_range_ext. intros i v Hi. change (offsetof "chksum") with 148. change (148 + sizeof "chksum") with 156. cbv zeta.
  destruct (Z.leb_spec 148 i), (Z.ltb_spec i 156); cbn [andb].
  1: { destruct (zget_is_Some h i) as [x ->]; [lia|]. destruct (zget_is_Some h' i) as [y ->]; [lia|]. done. }
  all: rewrite He by lia; done.
Qed.
Lemma chksum_ok h : length h = 512%nat → Forall byte h → ∃ v, calculate_chksum h = Ret v ∧ 0 ≤ v < 8 ^ 7.
Proof.
  intros Hl Hb. unfold calculate_chksum. set (f := λ i chksum, _). destruct (for_range_spec (λ i v, 0 ≤ v ≤ 255 * i) f 512 0 0) as (v & -> & Hv); [lia| |].
  - intros i v Hi Hv. unfold f. destruct (zget_is_Some h i) as [x Hx]; [lia|]. rewrite Hx. cbn [access mbind outcome_bind]. eexists. split; [reflexivity|].
    apply zget_Some in Hx as [_ Hx]. rewrite Forall_lookup in Hb. specialize (Hb _ _ Hx). unfold byte in Hb. rewrite u32_id; destruct (_ && _); lia.
  - exists v. split; [done|]. change (8 ^ 7) with 2097152. lia.
Qed.

Definition hdr (h : list Z) : Prop := length h = 512%nat ∧ Forall byte h.

Lemma put_step h pos n data : hdr h → Forall byte data → zlength data = n → 0 ≤ pos → pos + n ≤ 512 →
  ∃ h', overwrite h pos data = Ret h' ∧ hdr h' ∧ ∀ i, zget h' i = if decide (pos ≤ i < pos + n) then zget data (i - pos) else zget h i.
Proof.
  intros [Hl Hb] Hd <- Hp Hn. destruct (put_ok h pos data Hl Hp Hn) as (h' & E & Hl' & G). exists h'. split; [done|]. split; [|done]. split; [done|].
  rewrite overwrite_ok in E by lia. injection E as <-. rewrite !Forall_app. split; [by apply Forall_take|]. split; [done|by apply Forall_drop].
Qed.

(** What is known of a header that was made. *)
Record made (h t : list Z) (type size : Z) : Prop := {
  md_hdr : hdr h;
  md_name k b : (t ++ [0]) !! k = Some b → zget h (Z.of_nat k) = Some b;
  md_last : zget h 99 = Some 0;
  md_size : ∃ ds, zlength ds = 11 ∧ Forall (λ c, 48 ≤ c ≤ 55) ds ∧ foldl (λ v c, v * 8 + (c - 48)) 0 ds = size ∧
    ∀ k b, (ds ++ [0]) !! k = Some b → zget h (124 + Z.of_nat k) = Some b;
  md_type : zget h 156 = Some type;
  md_magic k b : (chars "ustar" ++ [0]) !! k = Some b → zget h (257 + Z.of_nat k) = Some b;
  md_version : zget h 263 = Some 48 ∧ zget h 264 = Some 48;
  md_prefix : zget h 345 = Some 0
}.

Lemma digits_byte ds : Forall (λ c, 48 ≤ c ≤ 55) ds → Forall byte (ds ++ [0]).
Proof. intros H. apply Forall_app. split; [eapply Forall_impl; [exact H|]; unfold byte; intros; lia|by repeat constructor]. Qed.
Lemma zget_data (l : list Z) (k : nat) b (i : Z) : l !! k = Some b → i = Z.of_nat k → zget l i = Some b.
Proof. intros H ->. by rewrite zget_nat. Qed.

(** The bytes of the last of a row of headers. *)
Ltac read_header :=
  repeat match goal with G : ∀ i, zget ?h i = _ |- context [zget ?h ?j] => rewrite (G j) end;
  repeat (rewrite decide_False by lia); try rewrite decide_True by lia.

Lemma print_field_ok f o w (long : bool) v h : offsetof f = o → hdr h → 0 ≤ v < 2 ^ 32 → v < 8 ^ (if long then 11 else 7) → 0 ≤ o → o + (if long then 12 else 8) ≤ 512 →
  w = (if long then 12 else 8) →
  ∃ h' ds, print_field f w (if long then "%011o" else "%07o") v h = Ret h' ∧ hdr h' ∧ zlength ds = w - 1 ∧
    Forall (λ c, 48 ≤ c ≤ 55) ds ∧ foldl (λ v c, v * 8 + (c - 48)) 0 ds = v ∧
    ∀ i, zget h' i = if decide (o ≤ i < o + w) then zget (ds ++ [0]) (i - o) else zget h i.
Proof.
  intros <- Hh Hv Hv8 H0 H1 ->. destruct (print_octal long v Hv Hv8) as (ds & Hf & Hl & Hd & Hden). unfold print_field. rewrite Hf. cbn [mbind outcome_bind].
  rewrite take_ge by (destruct long; lia). destruct (put_step h (offsetof f) (if long then 12 else 8) (ds ++ [0])) as (h' & E & Hh' & G); [done|by apply digits_byte| |done|done|].
  - rewrite length_app. destruct long; simpl; lia.
  - exists h', ds. split; [done|]. split; [done|]. split; [destruct long; lia|]. done.
Qed.

Lemma copy_field_ok f o n text h : offsetof f = o → hdr h → Forall byte text → zlength text = n → n ≤ sizeof f - 1 → 0 ≤ o → o + sizeof f ≤ 512 →
  ∃ h', copy_field f text h = Ret h' ∧ hdr h' ∧ ∀ i, zget h' i = if decide (o ≤ i < o + (n + 1)) then zget (text ++ [0]) (i - o) else zget h i.
Proof.
  intros <- Hh Ht <- Hn H0 H1. unfold copy_field. rewrite take_ge by lia. apply put_step; [done|apply Forall_app; split; [done|by repeat constructor]| |done|].
  - rewrite length_app. simpl. lia.
  - lia.
Qed.

Lemma zero_header : hdr (replicate (Z.to_nat USTAR_HEADER_SIZE) 0) ∧ ∀ i, 0 ≤ i < 512 → zget (replicate (Z.to_nat USTAR_HEADER_SIZE) 0) i = Some 0.
Proof.
  assert (∃ n, n = Z.to_nat USTAR_HEADER_SIZE ∧ Z.of_nat n = 512) as (n & <- & Hn) by (eexists; split; [reflexivity|]; apply Z2Nat.id; unfold USTAR_HEADER_SIZE; lia).
  split; [split; [rewrite length_replicate; lia|apply Forall_replicate; unfold byte; lia]|].
  intros i Hi. apply zget_Some. split; [lia|]. apply lookup_replicate. split; [done|lia].
Qed.

Lemma obind {A B} (m : outcome A) (k : A → outcome B) a : m = Ret a → mbind k m = k a.
Proof. by intros ->. Qed.

Lemma make_ok name type size t : type = USTAR_REGULAR ∨ type = USTAR_DIRECTORY → 0 ≤ size < 2 ^ 31 → strip_antisocial_prefixes name = Ret t →
  zlength t ≤ 99 → Forall (λ x, 0 < x < 256) t →
  ∃ h0 h sum ds, ustar_make_header name type size = Ret (Some h) ∧ made h0 t type size ∧ hdr h ∧ calculate_chksum h0 = Ret sum ∧ 0 ≤ sum < 8 ^ 7 ∧
    zlength ds = 7 ∧ Forall (λ c, 48 ≤ c ≤ 55) ds ∧ foldl (λ v c, v * 8 + (c - 48)) 0 ds = sum ∧
    ∀ i, zget h i = if decide (148 ≤ i < 156) then zget (ds ++ [0]) (i - 148) else zget h0 i.
Proof.
  intros Hty Hsize Hstrip Hlen Ht. unfold ustar_make_header. assert ((type =? USTAR_REGULAR) || (type =? USTAR_DIRECTORY) = true) as -> by (by destruct Hty as [-> | ->]).
  rewrite (obind _ _ () eq_refl), (obind _ _ _ Hstrip). destruct (Z.ltb_spec 99 (zlength t)); [lia|]. cbv zeta.
  assert (Forall byte t) as Htb by (eapply Forall_impl; [exact Ht|]; unfold byte; intros; lia).
  destruct zero_header as [Hz G0]. revert Hz G0. generalize (replicate (Z.to_nat USTAR_HEADER_SIZE) 0) as z. intros z Hz G0.
  destruct (copy_field_ok "name" 0 (zlength t) t z) as (h1 & E & H1 & G1); [done|done|done|done|by rewrite (eq_refl : sizeof "name" = 100)|done|done|]. rewrite (obind _ _ _ E). clear E.
  destruct (print_field_ok "mode" 100 8 false (if type =? USTAR_REGULAR then 420 else 493) h1) as (h2 & d2 & E2 & H2 & L2 & _ & _ & G2); [done|done|by destruct Hty as [-> | ->]|by destruct Hty as [-> | ->]|done|done|done|].
  rewrite (eq_refl : sizeof "mode" = 8), (obind _ _ _ E2).
  destruct (copy_field_ok "uid" 108 7 (chars "0000000") h2) as (h3 & E & H3 & G3); [done|done|by apply (bool_decide_unpack _); vm_compute|done..|]. rewrite (obind _ _ _ E). clear E.
  destruct (copy_field_ok "gid" 116 7 (chars "0000000") h3) as (h4 & E & H4 & G4); [done|done|by apply (bool_decide_unpack _); vm_compute|done..|]. rewrite (obind _ _ _ E). clear E.
  destruct (print_field_ok "size" 124 12 true size h4) as (h5 & d5 & E5 & H5 & L5 & D5 & V5 & G5); [done|done|lia|change (8 ^ 11) with (2 ^ 33); lia|done..|].
  rewrite (eq_refl : sizeof "size" = 12), (obind _ _ _ E5).
  destruct (print_field_ok "mtime" 136 12 true 1136102400 h5) as (h6 & d6 & E6 & H6 & L6 & _ & _ & G6); [done|done|lia|done..|]. rewrite (obind _ _ _ E6).
  rewrite (eq_refl : offsetof "typeflag" = 156), (eq_refl : offsetof "version" = 263).
  assert (u8 type = type) as Eu by (by destruct Hty as [-> | ->]). rewrite Eu.
  destruct (put_step h6 156 1 [type]) as (h7 & E & H7 & G7); [done|by destruct Hty as [-> | ->]; repeat constructor|done..|]. rewrite (obind _ _ _ E). clear E.
  destruct (copy_field_ok "magic" 257 5 (chars "ustar") h7) as (h8 & E & H8 & G8); [done|done|by apply (bool_decide_unpack _); vm_compute|done..|]. rewrite (obind _ _ _ E). clear E.
  destruct (put_step h8 263 2 [48; 48]) as (h9 & E & H9 & G9); [done|by repeat constructor|done..|]. rewrite (obind _ _ _ E). clear E.
  destruct (copy_field_ok "gname" 297 4 (chars "root") h9) as (h10 & E & H10 & G10); [done|done|by apply (bool_decide_unpack _); vm_compute|done..|]. rewrite (obind _ _ _ E). clear E.
  destruct (copy_field_ok "uname" 265 4 (chars "root") h10) as (h11 & E & H11 & G11); [done|done|by apply (bool_decide_unpack _); vm_compute|done..|]. rewrite (obind _ _ _ E). clear E.
  destruct (chksum_ok h11) as (sum & Hsum & Hr); [apply H11|apply H11|]. rewrite (obind _ _ _ Hsum).
  destruct (print_field_ok "chksum" 148 8 false sum h11) as (h12 & d12 & E12 & H12 & L12 & D12 & V12 & G12); [done|done|change (8 ^ 7) with 2097152 in Hr; lia|done..|lia|done|done|done|].
  rewrite (eq_refl : sizeof "chksum" = 8), (obind _ _ _ E12).
  exists h11, h12, sum, d12. split; [done|]. split; [|split; [done|]; split; [done|]; split; [done|]; split; [lia|]; by split_and!].
  clear E2 E5 E6 E12 G12.
  split; [done|..].
  - intros k b Hk. pose proof (lookup_lt_Some _ _ _ Hk) as Hlt. rewrite length_app in Hlt. simpl in Hlt. read_header. eapply zget_data; [exact Hk|lia].
  - read_header. destruct (decide (zlength t = 99)) as [E|E].
    + rewrite decide_True by lia. apply (zget_data _ (length t)); [by rewrite lookup_app_r, Nat.sub_diag by lia|lia].
    + rewrite decide_False by lia. apply G0. lia.
  - exists d5. split; [lia|]. split; [done|]. split; [done|]. intros k b Hk. pose proof (lookup_lt_Some _ _ _ Hk) as Hlt. rewrite length_app in Hlt. simpl in Hlt.
    read_header. eapply zget_data; [exact Hk|lia].
  - read_header. reflexivity.
  - intros k b Hk. pose proof (lookup_lt_Some _ _ _ Hk) as Hlt. simpl in Hlt. read_header. eapply zget_data; [exact Hk|lia].
  - split; read_header; reflexivity.
  - read_header. apply G0. lia.
Qed.

Lemma not_all_zeros h i b : zget h i = Some b → b ≠ 0 → is_all_zeros h = false.
Proof.
  intros [_ Hi]%zget_Some Hb. revert Hi. generalize (Z.to_nat i). induction h as [|x h IH]; intros k Hk; [done|]. cbn [is_all_zeros].
  destruct (Z.eqb_spec x 0) as [->|]; [|done]. cbn [negb]. destruct k as [|k]; [by injection Hk as <-|by apply (IH k)].
Qed.

Lemma string_field_name h t : length h = 512%nat → Forall (λ x, 0 < x < 256) t → (∀ k b, (t ++ [0]) !! k = Some b → zget h (Z.of_nat k) = Some b) →
  string_field "name" h = Ret t.
Proof.
  intros Hl Ht Hn. unfold string_field. rewrite (eq_refl : offsetof "name" = 0). change (Z.to_nat 0) with 0%nat. rewrite drop_0.
  assert (t ++ [0] `prefix_of` h) as [rest Hr].
  { exists (drop (length (t ++ [0])) h). rewrite <- (take_drop (length (t ++ [0])) h) at 1. f_equal. apply list_eq_same_length with (length (t ++ [0])); [done| |].
    - apply length_take_le. destruct (decide (zlength (t ++ [0]) ≤ zlength h)); [lia|]. destruct (lookup_lt_is_Some_2 (t ++ [0]) (length h)) as [b Hb]; [lia|].
      apply Hn in Hb. rewrite zget_nat in Hb. apply lookup_lt_Some in Hb. lia.
    - intros k x y Hk Hx Hy. rewrite lookup_take_lt in Hx by done. apply Hn in Hy. rewrite zget_nat in Hy. congruence. }
  rewrite (index_at h t rest 0); [|by rewrite Hr, <- app_assoc|].
  - cbn [access mbind outcome_bind]. by rewrite Hr, <- app_assoc, take_app_length.
  - intros H0. rewrite Forall_forall in Ht. apply Ht in H0. lia.
Qed.

Lemma octal_field_read ds v : Forall (λ c, 48 ≤ c ≤ 55) ds → 0 < zlength ds → foldl (λ v c, v * 8 + (c - 48)) 0 ds = v → v < 2 ^ 32 → parse_octal_field (ds ++ [0]) = Some v.
Proof. intros Hd Hl <- Hv. unfold parse_octal_field. apply octal_loop_digits; [done|lia|lia|unfold ULONG_MAX; lia|lia]. Qed.

Lemma field_gets f o n h bs : offsetof f = o → sizeof f = n → length h = 512%nat → zlength bs = n → 0 ≤ o → o + n ≤ 512 →
  (∀ k b, bs !! k = Some b → Z.of_nat k < n → zget h (o + Z.of_nat k) = Some b) → field f h = Ret bs.
Proof.
  intros <- <- Hl Hb H0 H1 Hg. unfold field. rewrite <- Hb. apply slice_gets; [done|done|lia|]. intros k b Hk. apply Hg; [done|]. apply lookup_lt_Some in Hk. lia.
Qed.

Lemma byte_gets f i o h b : offsetof f + i = o → zget h o = Some b → byte_at f i h = Ret b.
Proof. intros <- H. unfold byte_at. by rewrite H. Qed.

Lemma parse_ok h0 h t type size sum ds : made h0 t type size → hdr h → calculate_chksum h0 = Ret sum → 0 ≤ sum < 8 ^ 7 →
  zlength ds = 7 → Forall (λ c, 48 ≤ c ≤ 55) ds → foldl (λ v c, v * 8 + (c - 48)) 0 ds = sum →
  (∀ i, zget h i = if decide (148 ≤ i < 156) then zget (ds ++ [0]) (i - 148) else zget h0 i) →
  type = USTAR_REGULAR ∨ type = USTAR_DIRECTORY → 0 ≤ size < 2 ^ 31 → zlength t ≤ 99 → Forall (λ x, 0 < x < 256) t → social t →
  ustar_parse_header h = Ret (Header (Some t) type (if type =? USTAR_REGULAR then size else 0)).
Proof.
  intros [[Hl0 _] Hn Hla (d5 & L5 & D5 & V5 & G5) Hty Hm [Hv0 Hv1] Hp] [Hl _] Hsum Hr Lds Dds Vds G Htype Hsize Ht Htb Hsoc. change (8 ^ 7) with 2097152 in Hr.
  assert (∀ i, ¬ 148 ≤ i < 156 → zget h i = zget h0 i) as Gn by (intros i Hi; by rewrite G, decide_False by done).
  unfold ustar_parse_header. rewrite (not_all_zeros h 257 117) by (rewrite ?Gn by lia; by try apply (Hm 0%nat)).
  assert (field "magic" h = Ret (chars "ustar" ++ [0])) as E1 by (apply (field_gets _ 257 6); try done; intros k b Hk Hlt; rewrite Gn by lia; by apply Hm).
  rewrite (obind _ _ _ E1), bool_decide_eq_true_2 by done. cbn [negb].
  rewrite (obind _ _ 48) by (apply (byte_gets _ _ 263); [done|by rewrite Gn by lia]). rewrite (obind _ _ 48) by (apply (byte_gets _ _ 264); [done|by rewrite Gn by lia]). change (negb (48 =? 48) || negb (48 =? 48)) with false. cbv iota.
  assert (field "chksum" h = Ret (ds ++ [0])) as E2.
  { apply (field_gets _ 148 8); try done; [rewrite length_app; simpl; lia|]. intros k b Hk Hlt. rewrite G, decide_True by lia. eapply zget_data; [exact Hk|lia]. }
  rewrite (obind _ _ _ E2), (octal_field_read ds sum) by (done || lia). rewrite (obind _ _ sum) by (by rewrite (chksum_ext h h0)). rewrite Z.eqb_refl. cbn [negb].
  rewrite (obind _ _ 0) by (apply (byte_gets _ _ 99); [done|by rewrite Gn by lia]). rewrite (obind _ _ 0) by (apply (byte_gets _ _ 345); [done|by rewrite Gn by lia]). rewrite Z.eqb_refl. cbn [negb orb].
  rewrite (obind _ _ type) by (apply (byte_gets _ _ 156); [done|by rewrite Gn by lia]). assert (negb (type =? USTAR_REGULAR) && negb (type =? USTAR_DIRECTORY) = false) as -> by (by destruct Htype as [-> | ->]).
  cbv zeta. rewrite (string_field_name h t) by (try done; intros k b Hk; pose proof (lookup_lt_Some _ _ _ Hk) as Hlt; rewrite length_app in Hlt; simpl in Hlt; rewrite Gn by lia; by apply Hn).
  destruct (type =? USTAR_REGULAR) eqn:Er; [|by rewrite (obind _ _ t eq_refl), (obind _ _ t (strip_social t Hsoc))].
  assert (field "size" h = Ret (d5 ++ [0])) as E3.
  { apply (field_gets _ 124 12); try done; [rewrite length_app; simpl; lia|]. intros k b Hk Hlt. rewrite Gn by lia. by apply G5. }
  rewrite (obind _ _ _ E3), (octal_field_read d5 size) by (done || lia). destruct (Z.ltb_spec INT_MAX size); [unfold INT_MAX in *; lia|].
  by rewrite (obind _ _ t eq_refl), (obind _ _ t (strip_social t Hsoc)).
Qed.

Lemma make_parse name type size : Forall (λ x, 0 < x < 256) name → type = USTAR_REGULAR ∨ type = USTAR_DIRECTORY → 0 ≤ size < 2 ^ 31 →
  ∃ t, strip_antisocial_prefixes name = Ret t ∧ social t ∧
    if 99 <? zlength t then ustar_make_header name type size = Ret None
    else ∃ h, ustar_make_header name type size = Ret (Some h) ∧ zlength h = USTAR_HEADER_SIZE ∧
      ustar_parse_header h = Ret (Header (Some t) type (if type =? USTAR_REGULAR then size else 0)).
Proof.
  intros Hn Hty Hs. destruct (strip_ok name) as (t & E & Hsoc & Ht). exists t. split; [done|]. split; [done|].
  assert (Forall (λ x, 0 < x < 256) t) as Htb by (destruct Ht as [-> |[k ->]]; [by repeat constructor|by apply Forall_drop]).
  destruct (Z.ltb_spec 99 (zlength t)) as [H|H].
  - unfold ustar_make_header. assert ((type =? USTAR_REGULAR) || (type =? USTAR_DIRECTORY) = true) as -> by (by destruct Hty as [-> | ->]).
    rewrite (obind _ _ () eq_refl), (obind _ _ _ E). by destruct (Z.ltb_spec 99 (zlength t)); [|lia].
  - destruct (make_ok name type size t Hty Hs E H Htb) as (h0 & h & sum & ds & Hm & Hmade & Hh & Hsum & Hr & L & Dd & V & G). exists h. split; [done|].
    split; [by rewrite (proj1 Hh)|]. by eapply parse_ok.
Qed.

(** C35. A header that [ustar_make_header] makes is read back by
    [ustar_parse_header]: for every file name, type and size, the name is
    stripped of what would lead out of the directory; if that leaves at most
    99 characters the header is made, its checksum is right, and parsing it
    yields the stripped name, the type and the size (0 for a directory), and
    otherwise making it fails. *)
Theorem ustar_roundtrip name type size : Forall (λ x, 0 < x < 256) name → type = USTAR_REGULAR ∨ type = USTAR_DIRECTORY → 0 ≤ size < 2 ^ 31 →
  ∃ t, strip_antisocial_prefixes name = Ret t ∧ social t ∧
    if 99 <? zlength t then ustar_make_header name type size = Ret None
    else ∃ h, ustar_make_header name type size = Ret (Some h) ∧ zlength h = USTAR_HEADER_SIZE ∧
      ustar_parse_header h = Ret (Header (Some t) type (if type =? USTAR_REGULAR then size else 0)).
Proof. apply make_parse. Qed.
Lemma ustar_roundtrip_witness : ∃ h, ustar_make_header (chars "../a/b.c") USTAR_REGULAR 12345 = Ret (Some h) ∧ ustar_parse_header h = Ret (Header (Some (chars "a/b.c")) USTAR_REGULAR 12345).
Proof.
  destruct (ustar_roundtrip (chars "../a/b.c") USTAR_REGULAR 12345) as (t & E & _ & H); [apply (bool_decide_unpack _); by vm_compute|by left|lia|].
  vm_compute in E. injection E as <-. destruct H as (h & H1 & _ & H2). exists h. split; [exact H1|exact H2].
Defined.
