(* ===== verification/Ide.v ===== *)
(** * The IDE driver (devices/ide.c)

    The driver talks to the hardware through ports.  The hardware is a
    parameter: a record of the port instructions, of the passing of time and of
    the interrupts it raises, with the laws of the class [AtaOk], which are the
    part of the ATA protocol that the driver relies on.  The theorems show that
    the driver keeps the promise of [Block.DriverOk] on such hardware, so that
    those about file systems hold on an IDE disk, and a model of a controller
    shows that there is such hardware.

    A thread that waits for [completion_wait] takes the interrupts that arrive,
    and each of them runs the handler.  The lock of a channel is a flag;
    [Reach.lock_mutual_exclusion] is the proof that a lock has one holder. *)

From Stdlib Require Import Strings.String.
From S2P Require Import Prelude Clib Stdio Block.

(** The instructions of threads/io.h, the passing of nanoseconds, and the next
    interrupt with its vector. *)
Record ports (H : Type) := Ports {
  p_inb : Z → H → Z * H;
  p_outb : Z → Z → H → H;
  p_insw : Z → Z → H → list Z * H;
  p_outsw : Z → list Z → H → H;
  p_pass : Z → H → H;
  p_irq : H → option (Z * H)
}.
Global Arguments Ports {H} _ _ _ _ _ _.
Global Arguments p_inb {H} _ _ _.
Global Arguments p_outb {H} _ _ _ _.
Global Arguments p_insw {H} _ _ _ _.
Global Arguments p_outsw {H} _ _ _ _.
Global Arguments p_pass {H} _ _ _.
Global Arguments p_irq {H} _ _.

Record ata_disk := AtaDisk { d_name : list Z; dev_no : Z; is_ata : bool }.
Record channel := Channel {
  c_name : list Z;
  reg_base : Z;
  c_irq : Z;
  c_lock : bool;               (* held *)
  expecting_interrupt : bool;
  completion_wait : Z;         (* the value of the semaphore *)
  c_devices : list ata_disk
}.
Definition CHANNEL_CNT : Z := 2.

Definition reg_data (c : channel) : Z := reg_base c + 0.
Definition reg_error (c : channel) : Z := reg_base c + 1.
Definition reg_nsect (c : channel) : Z := reg_base c + 2.
Definition reg_lbal (c : channel) : Z := reg_base c + 3.
Definition reg_lbam (c : channel) : Z := reg_base c + 4.
Definition reg_lbah (c : channel) : Z := reg_base c + 5.
Definition reg_device (c : channel) : Z := reg_base c + 6.
Definition reg_status (c : channel) : Z := reg_base c + 7.
Definition reg_command (c : channel) : Z := reg_status c.
Definition reg_ctl (c : channel) : Z := reg_base c + 0x206.
Definition reg_alt_status (c : channel) : Z := reg_ctl c.

Definition STA_BSY : Z := 0x80.
Definition STA_DRDY : Z := 0x40.
Definition STA_DRQ : Z := 0x08.
Definition CTL_SRST : Z := 0x04.
Definition DEV_MBS : Z := 0xa0.
Definition DEV_LBA : Z := 0x40.
Definition DEV_DEV : Z := 0x10.
Definition CMD_IDENTIFY_DEVICE : Z := 0xec.
Definition CMD_READ_SECTOR_RETRY : Z := 0x20.
Definition CMD_WRITE_SECTOR_RETRY : Z := 0x30.

(** The channels, the hardware, the interrupt level, the vectors that have a
    handler, the disks that were registered and the console. *)
Record disk := Disk { k_name : list Z; k_info : list Z; k_capacity : Z; k_parts : list found }.
Record ide (H : Type) := Ide {
  channels : list channel;
  hw : H;
  level : bool;
  handlers : list Z;
  disks : list disk;
  console : list Z
}.
Global Arguments Ide {H} _ _ _ _ _ _.
Global Arguments channels {H} _.
Global Arguments hw {H} _.
Global Arguments level {H} _.
Global Arguments handlers {H} _.
Global Arguments disks {H} _.
Global Arguments console {H} _.

Definition set_expecting (b : bool) (c : channel) : channel := Channel (c_name c) (reg_base c) (c_irq c) (c_lock c) b (completion_wait c) (c_devices c).
Definition set_lock (b : bool) (c : channel) : channel := Channel (c_name c) (reg_base c) (c_irq c) b (expecting_interrupt c) (completion_wait c) (c_devices c).
Definition set_wait (n : Z) (c : channel) : channel := Channel (c_name c) (reg_base c) (c_irq c) (c_lock c) (expecting_interrupt c) n (c_devices c).
Definition set_devices (l : list ata_disk) (c : channel) : channel := Channel (c_name c) (reg_base c) (c_irq c) (c_lock c) (expecting_interrupt c) (completion_wait c) l.

(** ** Strings *)

(** The strings that [print_human_readable_size] uses, somewhere in memory. *)
Definition units : gmap Z Z :=
  Cstring.memory_of [(100, chars "bytes" ++ [0]); (110, chars "kB" ++ [0]); (120, chars "MB" ++ [0]); (130, chars "GB" ++ [0]); (140, chars "TB" ++ [0])].
Definition unit_names : list Z := [100; 110; 120; 130; 140; 0].


(** The first loop of [descramble_ata_string]. *)
Fixpoint swap_pairs (l : list Z) : list Z :=
  match l with a :: b :: l => b :: a :: swap_pairs l | _ => l end.
(** The second: the value of [size] after it. *)
Fixpoint trim_loop (size : nat) (string : list Z) : outcome nat :=
  match size with
  | O => Ret O
  | S n => let* c := access (string !! n) in if negb (c =? 0) && negb (isspace c) then Ret size else trim_loop n string
  end.
(** The string, without its terminator. *)
Definition descramble_ata_string (string : list Z) (size : Z) : outcome (list Z) :=
  let string := swap_pairs (take (Z.to_nat size) string) in
  let* n := trim_loop (Z.to_nat (size - 1)) string in
  let s := take n string in
  Ret (take (default (length s) (Cstring.index 0 s)) s).

Section Ide.
Context {H : Type} (io : ports H) (patience : nat).
Notation ide := (ide H).

Definition with_hw (h : H) (s : ide) : ide := Ide (channels s) h (level s) (handlers s) (disks s) (console s).
Definition inb (port : Z) : cmd ide Z := λ s, let '(v, h) := p_inb io port (hw s) in Ret (v, with_hw h s).
Definition outb (port v : Z) : cmd ide unit := modify (λ s, with_hw (p_outb io port (u8 v) (hw s)) s).
Definition insw (port cnt : Z) : cmd ide (list Z) := λ s, let '(v, h) := p_insw io port cnt (hw s) in Ret (v, with_hw h s).
Definition outsw (port : Z) (data : list Z) : cmd ide unit := modify (λ s, with_hw (p_outsw io port data (hw s)) s).
Definition timer_nsleep (ns : Z) : cmd ide unit := modify (λ s, with_hw (p_pass io ns (hw s)) s).
Definition timer_usleep (us : Z) : cmd ide unit := timer_nsleep (us * 1000).
Definition timer_msleep (ms : Z) : cmd ide unit := timer_nsleep (ms * 1000000).
Definition print (text : list Z) : cmd ide unit := modify (λ s, Ide (channels s) (hw s) (level s) (handlers s) (disks s) (console s ++ text)).

Definition get_chan (c : nat) : cmd ide channel := λ s, let* ch := access (channels s !! c) in Ret (ch, s).
Definition set_chan (c : nat) (g : channel → channel) : cmd ide unit := λ s,
  let* ch := access (channels s !! c) in
  Ret ((), Ide (<[c := g ch]> (channels s)) (hw s) (level s) (handlers s) (disks s) (console s)).
Definition get_disk (c : nat) (d : nat) : cmd ide ata_disk :=
  let* ch := get_chan c in lift (access (c_devices ch !! d)).
Definition set_is_ata (c d : nat) (b : bool) : cmd ide unit :=
  let* ch := get_chan c in
  let* dk := lift (access (c_devices ch !! d)) in
  set_chan c (set_devices (<[d := AtaDisk (d_name dk) (dev_no dk) b]> (c_devices ch))).

(** ** Interrupts *)

(** The loop of [interrupt_handler] over the channels from [c]. *)
Fixpoint handler_loop (vec : Z) (c : nat) (chans : list channel) : cmd ide unit :=
  match chans with
  | [] => lift (Fail Panicked)
  | ch :: chans =>
      if vec =? c_irq ch then
        if expecting_interrupt ch then
          let* _ := inb (reg_status ch) in set_chan c (set_wait (completion_wait ch + 1))
        else print (c_name ch ++ chars ": unexpected interrupt" ++ [10])
      else handler_loop vec (S c) chans
  end.
Definition interrupt_handler (vec : Z) : cmd ide unit := let* s := get in handler_loop vec 0 (channels s).

(** [sema_down (&c->completion_wait)]. *)
Fixpoint completion_loop (fuel : nat) (c : nat) : cmd ide unit :=
  let* ch := get_chan c in
  if 0 <? completion_wait ch then set_chan c (set_wait (completion_wait ch - 1)) else
  match fuel with
  | O => lift (Fail Blocked)
  | S fuel =>
      let* s := get in
      match p_irq io (hw s) with
      | None => lift (Fail Blocked)
      | Some (vec, h) => let* _ := put (with_hw h s) in let* _ := interrupt_handler vec in completion_loop fuel c
      end
  end.
Definition completion_down (c : nat) : cmd ide unit := completion_loop patience c.

Definition channel_acquire (c : nat) : cmd ide unit :=
  let* ch := get_chan c in if c_lock ch then lift (Fail Blocked) else set_chan c (set_lock true).
Definition channel_release (c : nat) : cmd ide unit :=
  let* ch := get_chan c in let* _ := assert (c_lock ch) in set_chan c (set_lock false).

(** ** Low-level primitives *)

(** The loop of [wait_until_idle]. *)
Fixpoint idle_loop (n : nat) (ch : channel) : cmd ide bool :=
  match n with
  | O => mret false
  | S n =>
      let* v := inb (reg_status ch) in
      if Z.land v (Z.lor STA_BSY STA_DRQ) =? 0 then mret true
      else let* _ := timer_usleep 10 in idle_loop n ch
  end.
Definition wait_until_idle (c d : nat) : cmd ide unit :=
  let* ch := get_chan c in
  let* dk := get_disk c d in
  let* idle := idle_loop 1000 ch in
  if idle : bool then mret () else print (d_name dk ++ chars ": idle timeout" ++ [10]).

(** The loop of [wait_while_busy] from the value [i]. *)
Fixpoint busy_loop (n : nat) (i : Z) (ch : channel) (dk : ata_disk) : cmd ide bool :=
  match n with
  | O => let* _ := print (chars "failed" ++ [10]) in mret false
  | S n =>
      let* _ := (if i =? 700 then print (d_name dk ++ chars ": busy, waiting...") else mret ()) in
      let* v := inb (reg_alt_status ch) in
      if Z.land v STA_BSY =? 0 then
        let* _ := (if 700 <=? i then print (chars "ok" ++ [10]) else mret ()) in
        let* v := inb (reg_alt_status ch) in
        mret (negb (Z.land v STA_DRQ =? 0))
      else let* _ := timer_msleep 10 in busy_loop n (i + 1) ch dk
  end.
Definition wait_while_busy (c d : nat) : cmd ide bool :=
  let* ch := get_chan c in let* dk := get_disk c d in busy_loop 3000 0 ch dk.

Definition select_device (c d : nat) : cmd ide unit :=
  let* ch := get_chan c in
  let* dk := get_disk c d in
  let dev := if dev_no dk =? 1 then Z.lor DEV_MBS DEV_DEV else DEV_MBS in
  let* _ := outb (reg_device ch) dev in
  let* _ := inb (reg_alt_status ch) in
  timer_nsleep 400.
Definition select_device_wait (c d : nat) : cmd ide unit :=
  let* _ := wait_until_idle c d in
  let* _ := select_device c d in
  wait_until_idle c d.

(** ** Reading and writing *)

Definition select_sector (c d : nat) (sec_no : Z) : cmd ide unit :=
  let* ch := get_chan c in
  let* dk := get_disk c d in
  let* _ := assert (sec_no <? Z.shiftl 1 28) in
  let* _ := select_device_wait c d in
  let* _ := outb (reg_nsect ch) 1 in
  let* _ := outb (reg_lbal ch) sec_no in
  let* _ := outb (reg_lbam ch) (Z.shiftr sec_no 8) in
  let* _ := outb (reg_lbah ch) (Z.shiftr sec_no 16) in
  outb (reg_device ch) (Z.lor (Z.lor (Z.lor DEV_MBS DEV_LBA) (if dev_no dk =? 1 then DEV_DEV else 0)) (Z.shiftr sec_no 24)).

Definition issue_pio_command (c : nat) (command : Z) : cmd ide unit :=
  let* s := get in
  let* _ := assert (level s) in
  let* _ := set_chan c (set_expecting true) in
  let* ch := get_chan c in
  outb (reg_command ch) command.

Definition input_sector (c : nat) : cmd ide (list Z) := let* ch := get_chan c in insw (reg_data ch) (BLOCK_SECTOR_SIZE / 2).
Definition output_sector (c : nat) (sector : list Z) : cmd ide unit := let* ch := get_chan c in outsw (reg_data ch) sector.

Definition ide_read (c d : nat) (sec_no : Z) : cmd ide (list Z) :=
  let* _ := channel_acquire c in
  let* _ := select_sector c d sec_no in
  let* _ := issue_pio_command c CMD_READ_SECTOR_RETRY in
  let* _ := completion_down c in
  let* ready := wait_while_busy c d in
  if negb ready then lift (Fail Panicked) else
  let* buffer := input_sector c in
  let* _ := channel_release c in
  mret buffer.

Definition ide_write (c d : nat) (sec_no : Z) (buffer : list Z) : cmd ide unit :=
  let* _ := channel_acquire c in
  let* _ := select_sector c d sec_no in
  let* _ := issue_pio_command c CMD_WRITE_SECTOR_RETRY in
  let* ready := wait_while_busy c d in
  if negb ready then lift (Fail Panicked) else
  let* _ := output_sector c buffer in
  let* _ := completion_down c in
  channel_release c.

Definition ide_operations (c d : nat) : block_operations ide :=
  BlockOps (λ s sec_no, ide_read c d sec_no s) (λ s sec_no buffer, let* (_, s) := ide_write c d sec_no buffer s in Ret s).

(** ** Detection *)

Definition probe_device (c d : nat) : cmd ide bool :=
  let* ch := get_chan c in
  let* _ := select_device c d in
  let* _ := outb (reg_nsect ch) 0x55 in
  let* _ := outb (reg_lbal ch) 0xaa in
  let* _ := outb (reg_nsect ch) 0xaa in
  let* _ := outb (reg_lbal ch) 0x55 in
  let* _ := outb (reg_nsect ch) 0x55 in
  let* _ := outb (reg_lbal ch) 0xaa in
  let* a := inb (reg_nsect ch) in
  if a =? 0x55 then let* b := inb (reg_lbal ch) in mret (b =? 0xaa) else mret false.

(** The loop that waits for device 1. *)
Fixpoint slave_loop (n : nat) (ch : channel) : cmd ide unit :=
  match n with
  | O => mret ()
  | S n =>
      let* a := inb (reg_nsect ch) in
      let* stop := (if a =? 1 then let* b := inb (reg_lbal ch) in mret (b =? 1) else mret false) in
      if stop : bool then mret () else let* _ := timer_msleep 10 in slave_loop n ch
  end.

Definition reset_channel (c : nat) : cmd ide unit :=
  let* ch := get_chan c in
  let* present0 := probe_device c 0 in
  let* present1 := probe_device c 1 in
  let* _ := outb (reg_ctl ch) 0 in
  let* _ := timer_usleep 10 in
  let* _ := outb (reg_ctl ch) CTL_SRST in
  let* _ := timer_usleep 10 in
  let* _ := outb (reg_ctl ch) 0 in
  let* _ := timer_msleep 150 in
  let* _ := (if present0 : bool then let* _ := select_device c 0 in let* _ := wait_while_busy c 0 in mret () else mret ()) in
  if present1 : bool then
    let* _ := select_device c 1 in
    let* _ := slave_loop 3000 ch in
    let* _ := wait_while_busy c 1 in mret ()
  else mret ().

Definition check_device_type (c d : nat) : cmd ide bool :=
  let* ch := get_chan c in
  let* dk := get_disk c d in
  let* _ := select_device c d in
  let* error := inb (reg_error ch) in
  let* lbam := inb (reg_lbam ch) in
  let* lbah := inb (reg_lbah ch) in
  let* status := inb (reg_status ch) in
  if (negb (error =? 1) && (negb (error =? 0x81) || (dev_no dk =? 1))) || (Z.land status STA_DRDY =? 0) || negb (Z.land status STA_BSY =? 0) then
    let* _ := set_is_ata c d false in mret (negb (error =? 0x81))
  else
    let* _ := set_is_ata c d (((lbam =? 0) && (lbah =? 0)) || ((lbam =? 0x3c) && (lbah =? 0xc3))) in mret true.

(** The partitions are found through the operations above; [fuel] bounds the
    nesting of their tables. *)
Definition register_disk (fuel : nat) (c d : nat) (name extra_info : list Z) (capacity : Z) : cmd ide unit := λ s,
  let* (b, _, parts) := partition_scan (ide_operations c d) fuel (block_register BLOCK_RAW capacity s) in
  let s := b_aux b in
  Ret ((), Ide (channels s) (hw s) (level s) (handlers s) (disks s ++ [Disk name extra_info capacity parts]) (console s)).

(** [identify_ata_device] when the data is in [id]. *)
Definition use_identity (fuel : nat) (c d : nat) (dk : ata_disk) (id : list Z) : cmd ide unit :=
  let* capacity := lift (le_word id (60 * 2)) in
  let* model := lift (descramble_ata_string (drop (10 * 2) id) 20) in
  let* serial := lift (descramble_ata_string (drop (27 * 2) id) 40) in
  let extra_info := take 127 (chars "model " ++ [34] ++ model ++ [34] ++ chars ", serial " ++ [34] ++ serial ++ [34]) in
  if 1024 * 1024 * 1024 / BLOCK_SECTOR_SIZE <=? capacity then
    let* size := lift (print_human_readable_size units unit_names (u32 (capacity * 512))) in
    let* _ := print (d_name dk ++ chars ": ignoring " ++ size ++ chars "disk for safety" ++ [10]) in
    set_is_ata c d false
  else register_disk fuel c d (d_name dk) extra_info capacity.

Definition identify_ata_device (fuel : nat) (c d : nat) : cmd ide unit :=
  let* dk := get_disk c d in
  let* _ := assert (is_ata dk) in
  let* _ := select_device_wait c d in
  let* _ := issue_pio_command c CMD_IDENTIFY_DEVICE in
  let* _ := completion_down c in
  let* ready := wait_while_busy c d in
  if negb ready then set_is_ata c d false else
  let* id := input_sector c in
  use_identity fuel c d dk id.

(** ** Initialization *)

Definition intr_register_ext (vec_no : Z) : cmd ide unit :=
  let* s := get in
  let* _ := assert ((0x20 <=? vec_no) && (vec_no <=? 0x2f)) in
  let* _ := assert (negb (bool_decide (vec_no ∈ handlers s))) in
  put (Ide (channels s) (hw s) (level s) (vec_no :: handlers s) (disks s) (console s)).

Definition init_channel (chan_no : Z) : outcome channel :=
  let* name := formatted ∅ (chars "ide%zu" ++ [0]) [chan_no] in
  let* (base, irq) := (if chan_no =? 0 then Ret (0x1f0, 14 + 0x20) else if chan_no =? 1 then Ret (0x170, 15 + 0x20) else Fail Panicked) in
  let* a := formatted ∅ (chars "hd%c" ++ [0]) [97 + chan_no * 2 + 0] in
  let* b := formatted ∅ (chars "hd%c" ++ [0]) [97 + chan_no * 2 + 1] in
  Ret (Channel (take 7 name) base irq false false 0 [AtaDisk (take 7 a) 0 false; AtaDisk (take 7 b) 1 false]).

Definition identify_if (fuel : nat) (c d : nat) : cmd ide unit :=
  let* dk := get_disk c d in if is_ata dk then identify_ata_device fuel c d else mret ().

(** One round of the loop of [ide_init]. *)
Definition ide_init_channel (fuel : nat) (c : nat) : cmd ide unit :=
  let* ch := lift (init_channel (Z.of_nat c)) in
  let* _ := set_chan c (λ _, ch) in
  let* _ := intr_register_ext (c_irq ch) in
  let* _ := reset_channel c in
  let* slave := check_device_type c 0 in
  let* _ := (if slave : bool then let* _ := check_device_type c 1 in mret () else mret ()) in
  let* _ := identify_if fuel c 0 in
  identify_if fuel c 1.
Definition ide_init (fuel : nat) : cmd ide unit :=
  let* _ := ide_init_channel fuel 0 in ide_init_channel fuel 1.
End Ide.

(** ** The protocol *)

(** What a channel does: a command for a sector that the device [reads], data
    that it offers, the wait for data, of which [k] periods of 10 ms are left,
    and the work on data that it received. *)
Inductive phase := Idle | Reading (data : list Z) | DataIn (data : list Z) | DataOut (k : nat) (s : Z) | Writing (s : Z) (data : list Z).
Record ata := Ata {
  a_dev : Z;
  a_nsect : Z;
  a_lbal : Z;
  a_lbam : Z;
  a_lbah : Z;
  a_phase : phase;
  a_medium : Z → Z → list Z;
  a_identity : Z → list Z
}.
Definition to_phase (p : phase) (a : ata) : ata := Ata (a_dev a) (a_nsect a) (a_lbal a) (a_lbam a) (a_lbah a) p (a_medium a) (a_identity a).
Definition to_medium (m : Z → Z → list Z) (a : ata) : ata := Ata (a_dev a) (a_nsect a) (a_lbal a) (a_lbam a) (a_lbah a) (a_phase a) m (a_identity a).
Definition selected (a : ata) : Z := if Z.testbit (a_dev a) 4 then 1 else 0.
Definition sector_of (a : ata) : Z := a_lbal a + 2 ^ 8 * a_lbam a + 2 ^ 16 * a_lbah a + 2 ^ 24 * (a_dev a mod 16).
Definition stored (m : Z → Z → list Z) (d s : Z) (data : list Z) : Z → Z → list Z := λ d' s', if decide (d' = d ∧ s' = s) then data else m d' s'.

(** The bits of the status register that the driver looks at. *)
Definition status_of (p : phase) (v : Z) : Prop :=
  match p with
  | Idle => Z.land v (Z.lor STA_BSY STA_DRQ) = 0
  | DataIn _ | DataOut O _ => Z.land v STA_BSY = 0 ∧ Z.land v STA_DRQ ≠ 0
  | DataOut (S _) _ => Z.land v STA_BSY ≠ 0
  | Reading _ | Writing _ _ => True
  end.

(** A channel at [base] that raises the interrupt [irq], with [capacity]
    sectors on each device. *)
Class AtaOk {H} (io : ports H) (view : H → ata) (base irq : Z) (capacity : Z → Z) : Prop := {
  ata_status port h : port = base + 7 ∨ port = base + 0x206 →
    view (p_inb io port h).2 = view h ∧ status_of (a_phase (view h)) (p_inb io port h).1;
  ata_set_nsect h v : a_phase (view h) = Idle → let a := view h in
    view (p_outb io (base + 2) v h) = Ata (a_dev a) v (a_lbal a) (a_lbam a) (a_lbah a) Idle (a_medium a) (a_identity a);
  ata_set_lbal h v : a_phase (view h) = Idle → let a := view h in
    view (p_outb io (base + 3) v h) = Ata (a_dev a) (a_nsect a) v (a_lbam a) (a_lbah a) Idle (a_medium a) (a_identity a);
  ata_set_lbam h v : a_phase (view h) = Idle → let a := view h in
    view (p_outb io (base + 4) v h) = Ata (a_dev a) (a_nsect a) (a_lbal a) v (a_lbah a) Idle (a_medium a) (a_identity a);
  ata_set_lbah h v : a_phase (view h) = Idle → let a := view h in
    view (p_outb io (base + 5) v h) = Ata (a_dev a) (a_nsect a) (a_lbal a) (a_lbam a) v Idle (a_medium a) (a_identity a);
  ata_set_dev h v : a_phase (view h) = Idle → let a := view h in
    view (p_outb io (base + 6) v h) = Ata v (a_nsect a) (a_lbal a) (a_lbam a) (a_lbah a) Idle (a_medium a) (a_identity a);
  ata_read h : let a := view h in a_phase a = Idle → a_nsect a = 1 → Z.testbit (a_dev a) 6 = true → sector_of a < capacity (selected a) →
    view (p_outb io (base + 7) CMD_READ_SECTOR_RETRY h) = to_phase (Reading (a_medium a (selected a) (sector_of a))) a;
  ata_write h : let a := view h in a_phase a = Idle → a_nsect a = 1 → Z.testbit (a_dev a) 6 = true → sector_of a < capacity (selected a) →
    ∃ k, (k < 3000)%nat ∧ view (p_outb io (base + 7) CMD_WRITE_SECTOR_RETRY h) = to_phase (DataOut k (sector_of a)) a;
  ata_identify h : let a := view h in a_phase a = Idle → 0 < capacity (selected a) →
    view (p_outb io (base + 7) CMD_IDENTIFY_DEVICE h) = to_phase (Reading (a_identity a (selected a))) a;
  ata_data_in h data : a_phase (view h) = DataIn data → (p_insw io base 256 h).1 = data ∧ view (p_insw io base 256 h).2 = to_phase Idle (view h);
  ata_data_out h s data : a_phase (view h) = DataOut 0 s → sector_data data → view (p_outsw io base data h) = to_phase (Writing s data) (view h);
  ata_pass_idle h ns : a_phase (view h) = Idle → view (p_pass io ns h) = view h;
  ata_pass_busy h ns k s : a_phase (view h) = DataOut (S k) s → 10000000 ≤ ns → view (p_pass io ns h) = to_phase (DataOut k s) (view h);
  ata_irq_read h data : a_phase (view h) = Reading data → ∃ h', p_irq io h = Some (irq, h') ∧ view h' = to_phase (DataIn data) (view h);
  ata_irq_write h s data : a_phase (view h) = Writing s data →
    ∃ h', p_irq io h = Some (irq, h') ∧ view h' = to_medium (stored (a_medium (view h)) (selected (view h)) s data) (to_phase Idle (view h))
}.

(** ** The driver on such hardware *)

Section Driver.
Context {H : Type} (io : ports H) (view : H → ata) (base irq : Z) (capacity : Z → Z) `{!AtaOk io view base irq capacity}.
Context (patience : nat) (Hpatience : (0 < patience)%nat) (c d : nat) (dev : Z) (Hdev : dev = 0 ∨ dev = 1) (dl : list disk).
Notation ide := (ide H).

(** Channel [c] is [ch], and its hardware is in the state [a]. *)
Record chan_at (s : ide) (ch : channel) (a : ata) : Prop := {
  ca_chan : channels s !! c = Some ch;
  ca_base : reg_base ch = base;
  ca_irq : c_irq ch = irq;
  ca_only c' ch' : channels s !! c' = Some ch' → c_irq ch' = irq → c' = c;
  ca_disk : ∃ dk, c_devices ch !! d = Some dk ∧ dev_no dk = dev;
  ca_level : level s = true;
  ca_disks : disks s = dl;
  ca_view : view (hw s) = a
}.

Lemma get_chan_ok s ch a : chan_at s ch a → get_chan c s = Ret (ch, s).
Proof. intros []. unfold get_chan. by rewrite ca_chan0. Qed.
Lemma get_disk_ok s ch a : chan_at s ch a → ∃ dk, get_disk c d s = Ret (dk, s) ∧ dev_no dk = dev.
Proof. intros Hc. destruct (ca_disk _ _ _ Hc) as (dk & Hd & Hn). exists dk. split; [|done]. unfold get_disk. rewrite (cstep _ _ _ _ _ (get_chan_ok _ _ _ Hc)). by rewrite Hd. Qed.
Lemma hw_step s ch a h : chan_at s ch a → chan_at (with_hw h s) ch (view h).
Proof. by intros []. Qed.
Lemma set_chan_ok s ch a g : chan_at s ch a → reg_base (g ch) = base → c_irq (g ch) = irq → c_devices (g ch) = c_devices ch →
  ∃ s', set_chan c g s = Ret ((), s') ∧ chan_at s' (g ch) a.
Proof.
  intros [H1 H2 H3 H4 H5 H6 H7 H8] Hb Hi Hd. unfold set_chan. rewrite H1. eexists. split; [reflexivity|]. split; try done; cbn.
  - apply list_lookup_insert_eq. by apply lookup_lt_Some in H1.
  - intros c' ch' [(<- & _)|(_ & Hl)]%list_lookup_insert_Some Hirq; [done|by eapply H4].
  - by rewrite Hd.
Qed.

Lemma inb_ok s ch a port : chan_at s ch a → port = base + 7 ∨ port = base + 0x206 → ∃ v s', inb io port s = Ret (v, s') ∧ chan_at s' ch a ∧ status_of (a_phase a) v.
Proof.
  intros Hc Hp. destruct (ata_status port (hw s) Hp) as [Hv Hs]. unfold inb. destruct (p_inb io port (hw s)) as [v h]. exists v, (with_hw h s). split; [done|].
  rewrite (ca_view _ _ _ Hc) in *. split; [|done]. cbn in Hv. rewrite <- Hv. by eapply hw_step.
Qed.
Lemma pass_ok s ch a ns : chan_at s ch a → a_phase a = Idle → ∃ s', timer_nsleep io ns s = Ret ((), s') ∧ chan_at s' ch a.
Proof.
  intros Hc Hp. eexists. split; [reflexivity|]. pose proof (hw_step s ch a (p_pass io ns (hw s)) Hc) as Hh. rewrite ata_pass_idle in Hh by (by rewrite (ca_view _ _ _ Hc)). by rewrite (ca_view _ _ _ Hc) in Hh.
Qed.
Lemma outb_ok s ch a port v a' : chan_at s ch a → view (p_outb io port (u8 v) (hw s)) = a' → ∃ s', outb io port v s = Ret ((), s') ∧ chan_at s' ch a'.
Proof. intros Hc <-. eexists. split; [reflexivity|]. by eapply hw_step. Qed.

Lemma status_port s ch a : chan_at s ch a → reg_status ch = base + 7 ∧ reg_alt_status ch = base + 0x206.
Proof. intros Hc. unfold reg_status, reg_alt_status, reg_ctl. by rewrite (ca_base _ _ _ Hc). Qed.

Lemma wait_until_idle_ok s ch a : chan_at s ch a → a_phase a = Idle → ∃ s', wait_until_idle io c d s = Ret ((), s') ∧ chan_at s' ch a.
Proof.
  intros Hc Hp. unfold wait_until_idle. rewrite (cstep _ _ _ _ _ (get_chan_ok _ _ _ Hc)). destruct (get_disk_ok s ch a Hc) as (dk & E & _). rewrite (cstep _ _ _ _ _ E).
  destruct (inb_ok s ch a (reg_status ch) Hc) as (v & s1 & E1 & H1 & Hv); [left; eapply status_port, Hc|]. rewrite Hp in Hv. cbn in Hv.
  rewrite (cstep _ _ _ true s1); [by exists s1|]. change 1000%nat with (S 999). generalize 999%nat. intros n. cbn [idle_loop]. rewrite (cstep _ _ _ _ _ E1).
  change (Z.lor STA_BSY STA_DRQ) with 136 in *. by rewrite Hv.
Qed.

Lemma select_device_ok s ch a : chan_at s ch a → a_phase a = Idle → ∃ s' v, select_device io c d s = Ret ((), s') ∧
  chan_at s' ch (Ata v (a_nsect a) (a_lbal a) (a_lbam a) (a_lbah a) Idle (a_medium a) (a_identity a)) ∧ Z.testbit v 4 = (dev =? 1).
Proof.
  intros Hc Hp. unfold select_device. rewrite (cstep _ _ _ _ _ (get_chan_ok _ _ _ Hc)). destruct (get_disk_ok s ch a Hc) as (dk & E & Hn). rewrite (cstep _ _ _ _ _ E), Hn. cbv zeta.
  set (v := if dev =? 1 then Z.lor DEV_MBS DEV_DEV else DEV_MBS). assert (u8 v = v) as Hv by (unfold v; by destruct Hdev as [-> | ->]).
  destruct (outb_ok s ch a (reg_device ch) v (Ata v (a_nsect a) (a_lbal a) (a_lbam a) (a_lbah a) Idle (a_medium a) (a_identity a)) Hc) as (s1 & E1 & H1).
  { unfold reg_device. rewrite (ca_base _ _ _ Hc), Hv, ata_set_dev by (by rewrite (ca_view _ _ _ Hc)). by rewrite (ca_view _ _ _ Hc). }
  rewrite (cstep _ _ _ _ _ E1). destruct (inb_ok s1 ch _ (reg_alt_status ch) H1) as (w & s2 & E2 & H2 & _); [right; eapply status_port, Hc|]. rewrite (cstep _ _ _ _ _ E2).
  destruct (pass_ok s2 ch _ 400 H2 eq_refl) as (s3 & E3 & H3). exists s3, v. split; [done|]. split; [done|]. unfold v. by destruct Hdev as [-> | ->].
Qed.

Lemma select_device_wait_ok s ch a : chan_at s ch a → a_phase a = Idle → ∃ s' v, select_device_wait io c d s = Ret ((), s') ∧
  chan_at s' ch (Ata v (a_nsect a) (a_lbal a) (a_lbam a) (a_lbah a) Idle (a_medium a) (a_identity a)) ∧ Z.testbit v 4 = (dev =? 1).
Proof.
  intros Hc Hp. unfold select_device_wait. destruct (wait_until_idle_ok s ch a Hc Hp) as (s1 & E1 & H1). rewrite (cstep _ _ _ _ _ E1).
  destruct (select_device_ok s1 ch a H1 Hp) as (s2 & v & E2 & H2 & Hv). rewrite (cstep _ _ _ _ _ E2). destruct (wait_until_idle_ok s2 ch _ H2 eq_refl) as (s3 & E3 & H3). by exists s3, v.
Qed.

(** The device register, and the sector in the four registers. *)
Lemma device_byte q : 0 ≤ q < 16 → let v := Z.lor (Z.lor (Z.lor DEV_MBS DEV_LBA) (if dev =? 1 then DEV_DEV else 0)) q in
  u8 v = v ∧ Z.testbit v 4 = (dev =? 1) ∧ Z.testbit v 6 = true ∧ v mod 16 = q.
Proof.
  intros Hq v. assert (∃ k : nat, q = Z.of_nat k ∧ (k < 16)%nat) as (k & Ek & Hk) by (exists (Z.to_nat q); lia). unfold v. rewrite Ek.
  destruct Hdev as [-> | ->]; do 16 (destruct k as [|k]; [done|]); lia.
Qed.
Lemma sector_bytes s : 0 ≤ s < 2 ^ 28 → u8 s + 2 ^ 8 * u8 (Z.shiftr s 8) + 2 ^ 16 * u8 (Z.shiftr s 16) + 2 ^ 24 * Z.shiftr s 24 = s ∧ 0 ≤ Z.shiftr s 24 < 16.
Proof. intros Hs. unfold u8. rewrite !Z.shiftr_div_pow2 by lia. div_lia. Qed.

Definition aimed (a a' : ata) (s : Z) : Prop :=
  a_phase a' = Idle ∧ a_nsect a' = 1 ∧ Z.testbit (a_dev a') 6 = true ∧ selected a' = dev ∧ sector_of a' = s ∧ a_medium a' = a_medium a ∧ a_identity a' = a_identity a.

Lemma select_sector_ok s ch a n : chan_at s ch a → a_phase a = Idle → 0 ≤ n < 2 ^ 28 → ∃ s' a', select_sector io c d n s = Ret ((), s') ∧ chan_at s' ch a' ∧ aimed a a' n.
Proof.
  intros Hc Hp Hn. unfold select_sector. rewrite (cstep _ _ _ _ _ (get_chan_ok _ _ _ Hc)). destruct (get_disk_ok s ch a Hc) as (dk & E & Hdk). rewrite (cstep _ _ _ _ _ E), Hdk.
  rewrite (cstep _ _ _ _ _ (assert_ok _ _ (proj2 (Z.ltb_lt n (2 ^ 28)) (proj2 Hn)))).
  destruct (select_device_wait_ok s ch a Hc Hp) as (s1 & v & E1 & H1 & _). rewrite (cstep _ _ _ _ _ E1). pose proof (ca_base _ _ _ Hc) as Hb. unfold reg_nsect, reg_lbal, reg_lbam, reg_lbah, reg_device. rewrite Hb.
  destruct (sector_bytes n Hn) as [Hsum Hq]. destruct (device_byte _ Hq) as (D1 & D2 & D3 & D4). set (dv := Z.lor _ (Z.shiftr n 24)) in *.
  destruct (outb_ok s1 ch _ (base + 2) 1 _ H1 (ata_set_nsect _ _ ltac:(by rewrite (ca_view _ _ _ H1)))) as (s2 & E2 & H2). rewrite (ca_view _ _ _ H1) in H2. cbn in H2. rewrite (cstep _ _ _ _ _ E2).
  destruct (outb_ok s2 ch _ (base + 3) n _ H2 (ata_set_lbal _ _ ltac:(by rewrite (ca_view _ _ _ H2)))) as (s3 & E3 & H3). rewrite (ca_view _ _ _ H2) in H3. cbn in H3. rewrite (cstep _ _ _ _ _ E3).
  destruct (outb_ok s3 ch _ (base + 4) (Z.shiftr n 8) _ H3 (ata_set_lbam _ _ ltac:(by rewrite (ca_view _ _ _ H3)))) as (s4 & E4 & H4). rewrite (ca_view _ _ _ H3) in H4. cbn in H4. rewrite (cstep _ _ _ _ _ E4).
  destruct (outb_ok s4 ch _ (base + 5) (Z.shiftr n 16) _ H4 (ata_set_lbah _ _ ltac:(by rewrite (ca_view _ _ _ H4)))) as (s5 & E5 & H5). rewrite (ca_view _ _ _ H4) in H5. cbn in H5. rewrite (cstep _ _ _ _ _ E5).
  destruct (outb_ok s5 ch _ (base + 6) dv _ H5 (ata_set_dev _ _ ltac:(by rewrite (ca_view _ _ _ H5)))) as (s6 & E6 & H6). rewrite (ca_view _ _ _ H5) in H6. cbn in H6.
  eexists s6, _. split; [done|]. split; [exact H6|]. unfold aimed, selected, sector_of. cbn [a_phase a_nsect a_dev a_lbal a_lbam a_lbah a_medium a_identity]. rewrite D1, D2, D3, D4. split_and!; try done.
  by destruct Hdev as [-> | ->].
Qed.

Lemma issue_ok s ch a a' cmd : chan_at s ch a → view (p_outb io (base + 7) (u8 cmd) (hw s)) = a' →
  ∃ s', issue_pio_command io c cmd s = Ret ((), s') ∧ chan_at s' (set_expecting true ch) a'.
Proof.
  intros Hc Hv. unfold issue_pio_command. rewrite cget, (cstep _ _ _ _ _ (assert_ok _ _ (ca_level _ _ _ Hc))).
  destruct (set_chan_ok s ch a (set_expecting true) Hc) as (s1 & E1 & H1); [apply Hc|apply Hc|done|]. rewrite (cstep _ _ _ _ _ E1), (cstep _ _ _ _ _ (get_chan_ok _ _ _ H1)).
  apply (outb_ok s1 _ a); [done|]. unfold reg_command, reg_status. cbn [reg_base set_expecting]. rewrite (ca_base _ _ _ Hc). rewrite <- Hv. do 2 f_equal.
  unfold set_chan in E1. rewrite (ca_chan _ _ _ Hc) in E1. by injection E1 as <-.
Qed.

(** The handler finds the channel of its interrupt. *)
Lemma irq_handler_ok s ch a : chan_at s ch a → expecting_interrupt ch = true →
  ∃ s', interrupt_handler io irq s = Ret ((), s') ∧ chan_at s' (set_wait (completion_wait ch + 1) ch) a.
Proof.
  intros Hc He. unfold interrupt_handler. rewrite cget.
  assert (∀ l k, (k ≤ c)%nat → l = drop k (channels s) → handler_loop io irq k l s =
    (let* _ := inb io (reg_status ch) in set_chan c (set_wait (completion_wait ch + 1))) s) as Hloop.
  { intros l. induction l as [|x l IH]; intros k Hk El.
    - pose proof (lookup_lt_Some _ _ _ (ca_chan _ _ _ Hc)) as Hlt. apply (f_equal length) in El. rewrite length_drop in El. simpl in El. lia.
    - assert (channels s !! k = Some x) as Hx by (rewrite <- (Nat.add_0_r k), <- lookup_drop, <- El; done). cbn [handler_loop].
      destruct (decide (k = c)) as [->|Hne].
      + rewrite (ca_chan _ _ _ Hc) in Hx. injection Hx as <-. by rewrite (ca_irq _ _ _ Hc), Z.eqb_refl, He.
      + destruct (Z.eqb_spec irq (c_irq x)) as [Ei|_]; [by destruct Hne; eapply (ca_only _ _ _ Hc)|]. apply IH; [lia|]. change l with (drop 1 (x :: l)). by rewrite El, drop_drop, Nat.add_comm. }
  rewrite (Hloop (channels s) 0%nat) by (done || lia). destruct (inb_ok s ch a (reg_status ch) Hc) as (v & s1 & E1 & H1 & _); [left; eapply status_port, Hc|].
  rewrite (cstep _ _ _ _ _ E1). apply (set_chan_ok s1 ch a); [done|apply Hc|apply Hc|done].
Qed.

Lemma completion_ok s ch a h : chan_at s ch a → expecting_interrupt ch = true → completion_wait ch = 0 → p_irq io (hw s) = Some (irq, h) →
  ∃ s', completion_down io patience c s = Ret ((), s') ∧ chan_at s' ch (view h).
Proof.
  intros Hc He Hw Hi. unfold completion_down. assert (∃ n, patience = S n) as [n En] by (exists (pred patience); lia). rewrite En. cbn [completion_loop]. rewrite (cstep _ _ _ _ _ (get_chan_ok _ _ _ Hc)), Hw. cbn [Z.ltb Z.compare].
  rewrite cget, Hi. rewrite (cstep _ _ _ () (with_hw h s)) by done. destruct (irq_handler_ok (with_hw h s) ch (view h) (hw_step _ _ _ _ Hc) He) as (s1 & E1 & H1).
  rewrite (cstep _ _ _ _ _ E1).
  destruct (set_chan_ok s1 _ (view h) (set_wait (completion_wait ch + 1 - 1)) H1) as (s2 & E2 & H2); [apply Hc|apply Hc|done|]. exists s2. split.
  - destruct n as [|n]; cbn [completion_loop]; rewrite (cstep _ _ _ _ _ (get_chan_ok _ _ _ H1)); rewrite Hw in *; exact E2.
  - rewrite Hw in H2. replace ch with (set_wait (0 + 1 - 1) (set_wait (0 + 1) ch)); [done|]. unfold set_wait. cbn. destruct ch. cbn in *. by rewrite Hw.
Qed.

Lemma print_ok s ch a text : chan_at s ch a → ∃ s', print text s = Ret ((), s') ∧ chan_at s' ch a.
Proof. intros []. eexists. by split. Qed.
Lemma print_if (b : bool) s ch a text : chan_at s ch a → ∃ s', (if b then print text else mret ()) s = Ret ((), s') ∧ chan_at s' ch a.
Proof. intros Hc. destruct b; [by apply print_ok|by exists s]. Qed.

(** A channel that asks for data or offers it. *)
Lemma busy_loop_ok ch dk k : ∀ n i s a x, chan_at s ch a → (k < n)%nat → a_phase a = DataOut k x ∨ (k = 0%nat ∧ ∃ data, a_phase a = DataIn data) →
  ∃ s', busy_loop io n i ch dk s = Ret (true, s') ∧ chan_at s' ch (match a_phase a with DataOut _ x => to_phase (DataOut 0 x) a | _ => a end).
Proof.
  induction k as [|k IH]; intros n i s a x Hc Hk Hp; (destruct n as [|n]; [lia|]); cbn [busy_loop];
    destruct (print_if (i =? 700) s ch a (d_name dk ++ chars ": busy, waiting...") Hc) as (s1 & E1 & H1); rewrite (cstep _ _ _ _ _ E1);
    destruct (inb_ok s1 ch a (reg_alt_status ch) H1) as (v & s2 & E2 & H2 & Hv); try (right; eapply status_port, Hc); rewrite (cstep _ _ _ _ _ E2).
  - assert (Z.land v STA_BSY = 0) as -> by (destruct Hp as [Hp|(_ & data & Hp)]; rewrite Hp in Hv; apply Hv). cbn [Z.eqb].
    destruct (print_if (700 <=? i) s2 ch a (chars "ok" ++ [10]) H2) as (s3 & E3 & H3). rewrite (cstep _ _ _ _ _ E3).
    destruct (inb_ok s3 ch a (reg_alt_status ch) H3) as (w & s4 & E4 & H4 & Hw); [right; eapply status_port, Hc|]. rewrite (cstep _ _ _ _ _ E4).
    assert (Z.land w STA_DRQ ≠ 0) as Hq by (destruct Hp as [Hp|(_ & data & Hp)]; rewrite Hp in Hw; apply Hw). exists s4. split.
    + destruct (Z.eqb_spec (Z.land w STA_DRQ) 0); [done|]. done.
    + destruct Hp as [Hp|(_ & data & Hp)]; rewrite Hp; [|done]. replace (to_phase (DataOut 0 x) a) with a; [done|]. destruct a. cbn in *. by subst.
  - destruct Hp as [Hp|[? _]]; [|done]. rewrite Hp in Hv |- *. cbn in Hv. destruct (Z.eqb_spec (Z.land v STA_BSY) 0); [done|].
    pose proof (hw_step s2 ch a (p_pass io (10 * 1000000) (hw s2)) H2) as H3. rewrite (ata_pass_busy _ _ k x) in H3 by (rewrite ?(ca_view _ _ _ H2); done || lia). rewrite (ca_view _ _ _ H2) in H3.
    rewrite (cstep _ _ _ () (with_hw (p_pass io (10 * 1000000) (hw s2)) s2)) by done.
    destruct (IH n (i + 1) _ _ x H3) as (s' & E' & H'); [lia|by left|]. by exists s'.
Qed.

Lemma wait_while_busy_ok k s ch a x : chan_at s ch a → (k < 3000)%nat → a_phase a = DataOut k x ∨ (k = 0%nat ∧ ∃ data, a_phase a = DataIn data) →
  ∃ s', wait_while_busy io c d s = Ret (true, s') ∧ chan_at s' ch (match a_phase a with DataOut _ x => to_phase (DataOut 0 x) a | _ => a end).
Proof.
  intros Hc Hk Hp. unfold wait_while_busy. rewrite (cstep _ _ _ _ _ (get_chan_ok _ _ _ Hc)). destruct (get_disk_ok s ch a Hc) as (dk & E & _). rewrite (cstep _ _ _ _ _ E). by eapply busy_loop_ok.
Qed.

Lemma acquire_ok s ch a : chan_at s ch a → c_lock ch = false → ∃ s', channel_acquire c s = Ret ((), s') ∧ chan_at s' (set_lock true ch) a.
Proof.
  intros Hc Hl. unfold channel_acquire. rewrite (cstep _ _ _ _ _ (get_chan_ok _ _ _ Hc)), Hl. apply set_chan_ok; [done|apply Hc|apply Hc|done].
Qed.
Lemma release_ok s ch a : chan_at s ch a → c_lock ch = true → ∃ s', channel_release c s = Ret ((), s') ∧ chan_at s' (set_lock false ch) a.
Proof.
  intros Hc Hl. unfold channel_release. rewrite (cstep _ _ _ _ _ (get_chan_ok _ _ _ Hc)), (cstep _ _ _ _ _ (assert_ok _ _ Hl)). apply set_chan_ok; [done|apply Hc|apply Hc|done].
Qed.

(** Between two calls. *)
Record resting (s : ide) (a : ata) : Prop := {
  re_chan : ∃ ch, chan_at s ch a ∧ c_lock ch = false ∧ completion_wait ch = 0;
  re_phase : a_phase a = Idle
}.

(** A command that the device answers with data. *)
Lemma fetch_ok {A} (X : cmd ide A) (K : list Z → cmd ide A) s ch a command data : chan_at s ch a → completion_wait ch = 0 → 
  view (p_outb io (base + 7) (u8 command) (hw s)) = to_phase (Reading data) a →
  ∃ s', (let* _ := issue_pio_command io c command in let* _ := completion_down io patience c in let* ready := wait_while_busy io c d in
         if negb ready then X else let* data := input_sector io c in K data) s = K data s' ∧ chan_at s' (set_expecting true ch) (to_phase Idle a).
Proof.
  intros Hc Hw Hv. destruct (issue_ok s _ a _ command Hc Hv) as (s3 & E3 & H3). rewrite (cstep _ _ _ _ _ E3).
  destruct (ata_irq_read (hw s3) data) as (h & Hi & Hv3); [by rewrite (ca_view _ _ _ H3)|].
  destruct (completion_ok s3 _ _ h H3 eq_refl Hw Hi) as (s4 & E4 & H4). rewrite (cstep _ _ _ _ _ E4). rewrite Hv3, (ca_view _ _ _ H3) in H4.
  destruct (wait_while_busy_ok 0 s4 _ _ 0 H4) as (s5 & E5 & H5); [lia|right; split; [done|by eexists]|]. rewrite (cstep _ _ _ _ _ E5). cbn [negb].
  cbn [a_phase to_phase] in H5. set (a5 := to_phase _ _) in H5. destruct (ata_data_in (hw s5) data) as [Hd Hv5]; [by rewrite (ca_view _ _ _ H5)|]. rewrite (ca_view _ _ _ H5) in Hv5.
  exists (with_hw (p_insw io base 256 (hw s5)).2 s5). split.
  - apply cstep. unfold input_sector. rewrite (cstep _ _ _ _ _ (get_chan_ok _ _ _ H5)). unfold insw, reg_data. rewrite (ca_base _ _ _ H5), Z.add_0_r. change (BLOCK_SECTOR_SIZE / 2) with 256.
    destruct (p_insw io base 256 (hw s5)). cbn in *. by subst.
  - pose proof (hw_step s5 _ _ (p_insw io base 256 (hw s5)).2 H5) as H6. by rewrite Hv5 in H6.
Qed.

Lemma ide_read_ok s a n : resting s a → 0 ≤ n < 2 ^ 28 → n < capacity dev →
  ∃ s' a', ide_read io patience c d n s = Ret (a_medium a dev n, s') ∧ resting s' a' ∧ a_medium a' = a_medium a ∧ a_identity a' = a_identity a.
Proof.
  intros [(ch & Hc & Hl & Hw) Hp] Hn Hcap. unfold ide_read. destruct (acquire_ok s ch a Hc Hl) as (s1 & E1 & H1). rewrite (cstep _ _ _ _ _ E1).
  destruct (select_sector_ok s1 _ a n H1 Hp Hn) as (s2 & a2 & E2 & H2 & A1 & A2 & A3 & A4 & A5 & A6 & A7). rewrite (cstep _ _ _ _ _ E2).
  pose proof (ata_read (hw s2) ltac:(by rewrite (ca_view _ _ _ H2)) ltac:(by rewrite (ca_view _ _ _ H2)) ltac:(by rewrite (ca_view _ _ _ H2)) ltac:(rewrite (ca_view _ _ _ H2), A4, A5; done)) as Hv.
  rewrite (ca_view _ _ _ H2), A4, A5, A6 in Hv.
  destruct (fetch_ok (lift (Fail Panicked)) (λ buffer, let* _ := channel_release c in mret buffer) s2 _ a2 CMD_READ_SECTOR_RETRY _ H2 Hw Hv) as (s6 & E6 & H6). rewrite E6.
  destruct (release_ok _ _ _ H6 eq_refl) as (s7 & E7 & H7). rewrite (cstep _ _ _ _ _ E7).
  eexists s7, _. split; [done|]. split; [split; [eexists; split; [exact H7|by split]|done]|]. by split.
Qed.

Lemma ide_write_ok s a n data : resting s a → 0 ≤ n < 2 ^ 28 → n < capacity dev → sector_data data →
  ∃ s' a', ide_write io patience c d n data s = Ret ((), s') ∧ resting s' a' ∧ a_medium a' = stored (a_medium a) dev n data ∧ a_identity a' = a_identity a.
Proof.
  intros [(ch & Hc & Hl & Hw) Hp] Hn Hcap Hdata. unfold ide_write. destruct (acquire_ok s ch a Hc Hl) as (s1 & E1 & H1). rewrite (cstep _ _ _ _ _ E1).
  destruct (select_sector_ok s1 _ a n H1 Hp Hn) as (s2 & a2 & E2 & H2 & A1 & A2 & A3 & A4 & A5 & A6 & A7). rewrite (cstep _ _ _ _ _ E2).
  destruct (ata_write (hw s2)) as (k & Hk & Hv2); [by rewrite (ca_view _ _ _ H2)..|rewrite (ca_view _ _ _ H2), A4, A5; done|].
  destruct (issue_ok s2 _ a2 _ CMD_WRITE_SECTOR_RETRY H2 Hv2) as (s3 & E3 & H3). rewrite (ca_view _ _ _ H2), A5 in H3. rewrite (cstep _ _ _ _ _ E3).
  destruct (wait_while_busy_ok k s3 _ _ n H3 Hk) as (s4 & E4 & H4); [by left|]. rewrite (cstep _ _ _ _ _ E4). cbn [negb]. cbn [a_phase to_phase] in H4. set (a4 := to_phase _ _) in H4.
  assert (a_phase a4 = DataOut 0 n ∧ selected a4 = dev ∧ a_medium a4 = a_medium a ∧ a_identity a4 = a_identity a) as (P4 & S4 & M4 & I4) by (unfold a4; cbn; by split_and!).
  clearbody a4. pose proof (ata_data_out (hw s4) n data) as Hv5. rewrite (ca_view _ _ _ H4) in Hv5. specialize (Hv5 P4 Hdata).
  rewrite (cstep _ _ _ () (with_hw (p_outsw io base data (hw s4)) s4)).
  2: { unfold output_sector. rewrite (cstep _ _ _ _ _ (get_chan_ok _ _ _ H4)). unfold outsw, reg_data. by rewrite (ca_base _ _ _ H4), Z.add_0_r. }
  pose proof (hw_step s4 _ _ (p_outsw io base data (hw s4)) H4) as H5. rewrite Hv5 in H5. set (s5 := with_hw _ s4) in *.
  destruct (ata_irq_write (hw s5) n data) as (h & Hi & Hv); [by rewrite (ca_view _ _ _ H5)|]. rewrite (ca_view _ _ _ H5) in Hv.
  destruct (completion_ok s5 _ _ h H5 eq_refl Hw Hi) as (s6 & E6 & H6). rewrite (cstep _ _ _ _ _ E6). rewrite Hv in H6.
  destruct (release_ok _ _ _ H6 eq_refl) as (s7 & E7 & H7). eexists s7, _. split; [done|]. split; [split; [eexists; split; [exact H7|by split]|done]|]. cbn.
  split; [|done]. rewrite M4. f_equal. exact S4.
Qed.
End Driver.

Section Promise.
Context {H : Type} (io : ports H) (view : H → ata) (base irq : Z) (capacity : Z → Z) `{!AtaOk io view base irq capacity}.
Context (patience : nat) (c d : nat) (dev : Z).

(** The state of the driver when the disk is not in use, with the disks [dl]
    registered, and what the sectors of the disk hold. *)
Definition ide_ok (dl : list disk) (s : ide H) : Prop :=
  ∃ a, resting view base irq c d dev dl s a ∧ ∀ n, 0 ≤ n < capacity dev → sector_data (a_medium a dev n).
Definition ide_content (s : ide H) (n : Z) : list Z := a_medium (view (hw s)) dev n.

Lemma resting_view dl s a : resting view base irq c d dev dl s a → view (hw s) = a.
Proof. intros [(ch & Hc & _) _]. apply Hc. Qed.

Context (Hpat : (0 < patience)%nat) (Hdev : dev = 0 ∨ dev = 1) (Hcap : capacity dev ≤ 2 ^ 28).

Lemma ide_promise dl : DriverOk (ide_operations io patience c d) (ide_ok dl) (capacity dev) ide_content.
Proof.
  split.
  - intros s n (a & Hr & Hs) Hn. unfold ide_content. rewrite (resting_view _ _ _ Hr). by apply Hs.
  - intros s n (a & Hr & Hs) Hn. destruct (ide_read_ok io view base irq capacity patience Hpat c d dev Hdev dl s a n Hr) as (s' & a' & E & Hr' & Hm & _); [lia|lia|].
    exists s'. unfold ide_content. rewrite (resting_view _ _ _ Hr), (resting_view _ _ _ Hr'), Hm. split; [exact E|]. split; [|done]. exists a'. by rewrite Hm.
  - intros s n data (a & Hr & Hs) Hn Hd. destruct (ide_write_ok io view base irq capacity patience Hpat c d dev Hdev dl s a n data Hr) as (s' & a' & E & Hr' & Hm & _); [lia|lia|done|].
    exists s'. unfold ide_content. cbn. rewrite E. split; [done|]. rewrite (resting_view _ _ _ Hr), (resting_view _ _ _ Hr'), Hm. split.
    + exists a'. split; [done|]. intros t Ht. rewrite Hm. unfold stored. case_decide; [done|by apply Hs].
    + intros t Ht. unfold stored. by repeat case_decide; try naive_solver.
Qed.
Lemma ide_other_disk dl s n data : ide_ok dl s → 0 ≤ n < capacity dev → sector_data data → ∃ s', ide_write io patience c d n data s = Ret ((), s') ∧
  ∀ other t, other ≠ dev → a_medium (view (hw s')) other t = a_medium (view (hw s)) other t.
Proof.
  intros (a & Hr & Hs) Hn Hd. destruct (ide_write_ok io view base irq capacity patience Hpat c d dev Hdev dl s a n data Hr) as (s' & a' & E & Hr' & Hm & _); [lia|lia|done|].
  exists s'. split; [done|]. intros other t Ho. rewrite (resting_view _ _ _ Hr), (resting_view _ _ _ Hr'), Hm. unfold stored. rewrite decide_False; [done|]. naive_solver.
Qed.

(** The identification of a disk of less than 1 GB. *)
Lemma identify_ok dl s dk id cap model serial : ide_ok dl s → get_disk c d s = Ret (dk, s) → is_ata dk = true → a_identity (view (hw s)) dev = id →
  le_word id 120 = Ret cap → cap = capacity dev → 0 < cap < 2 ^ 21 → descramble_ata_string (drop 20 id) 20 = Ret model → descramble_ata_string (drop 54 id) 40 = Ret serial →
  bytes (ide_content s 0) → no_extended (ide_content s 0) →
  ∃ s' info fs, identify_ata_device io patience 1 c d s = Ret ((), s') ∧ ide_ok (dl ++ [Disk (d_name dk) info cap fs]) s' ∧
    Forall (λ f, 0 ≤ f_start f ∧ f_start f + f_size f ≤ cap) fs.
Proof.
  intros (a & [(ch & Hc & Hl & Hw) Hp] & Hs) Hdk Hata Hid Hword Hcd Hr Hm Hse Hby Hne. unfold identify_ata_device. rewrite (cstep _ _ _ _ _ Hdk), (cstep _ _ _ _ _ (assert_ok _ _ Hata)).
  destruct (select_device_wait_ok io view base irq capacity c d dev Hdev dl s ch a Hc Hp) as (s1 & v & E1 & H1 & Hv). rewrite (cstep _ _ _ _ _ E1).
  assert (selected (view (hw s1)) = dev) as Hsel by (rewrite (ca_view _ _ _ _ _ _ _ _ _ _ H1); unfold selected; cbn [a_dev]; rewrite Hv; by destruct Hdev as [-> | ->]).
  pose proof (ata_identify (hw s1)) as Hv1. cbv zeta in Hv1. rewrite (ca_view _ _ _ _ _ _ _ _ _ _ H1) in Hv1, Hsel. rewrite Hsel in Hv1. specialize (Hv1 eq_refl ltac:(lia)).
  cbn [a_identity] in Hv1. assert (a_identity a dev = id) as Hid' by (by rewrite <- Hid, (ca_view _ _ _ _ _ _ _ _ _ _ Hc)). rewrite Hid' in Hv1.
  destruct (fetch_ok io view base irq capacity patience Hpat c d dev dl (set_is_ata c d false) (use_identity io patience 1 c d dk) s1 ch _ CMD_IDENTIFY_DEVICE id H1 Hw Hv1) as (s2 & E2 & H2).
  rewrite E2. clear E2. unfold use_identity.
  change (60 * 2) with 120. rewrite Hword, clift. change (10 * 2)%nat with 20%nat. change (27 * 2)%nat with 54%nat. rewrite Hm, clift, Hse, clift. cbv zeta.
  change (1024 * 1024 * 1024 / BLOCK_SECTOR_SIZE) with (2 ^ 21). destruct (Z.leb_spec (2 ^ 21) cap); [lia|]. set (info := take 127 _).
  assert (ide_ok dl s2) as Hok2. { eexists. split; [split; [eexists; split; [exact H2|done]|done]|]. exact Hs. }
  assert (ide_content s2 0 = ide_content s 0) as Hcont by (unfold ide_content; rewrite (ca_view _ _ _ _ _ _ _ _ _ _ H2), (ca_view _ _ _ _ _ _ _ _ _ _ Hc); done).
  destruct (partition_scan_ok _ (ide_ok dl) (capacity dev) ide_content (DriverOk0 := ide_promise dl) (block_register BLOCK_RAW cap s2)) as (b & nr & fs & Es & (Hb & _) & Hin & _);
    [split; [exact Hok2|by split]|lia|unfold block_content; cbn; by rewrite Hcont|unfold block_content; cbn; by rewrite Hcont|].
  unfold register_disk. rewrite Es. cbn. eexists _, info, fs. split; [reflexivity|]. split.
  - destruct Hb as (a' & [(ch' & [] & Hl' & Hw') Hp'] & Hs'). exists a'. split; [|done]. split; [|done]. exists ch'. split; [|done]. split; try done. cbn. by rewrite ca_disks0.
  - rewrite Hcd. exact Hin.
Qed.

End Promise.

(** ** A controller *)

(** A channel at 0x1f0 with the interrupt 0x2e, whose devices have [cap]
    sectors and take [k] periods to ask for data. *)
Section Controller.
Context (cap : Z → Z) (k : nat).

Definition sim_status (a : ata) : Z :=
  match a_phase a with
  | Idle => if 0 <? cap (selected a) then 0x40 else 0
  | DataIn _ | DataOut O _ => 0x48
  | _ => 0x80
  end.
Definition sim_inb (port : Z) (a : ata) : Z * ata :=
  (if (port =? 0x1f7) || (port =? 0x3f6) then sim_status a
   else if negb (0 <? cap (selected a)) then 0
   else if port =? 0x1f1 then 1 else if port =? 0x1f2 then a_nsect a else if port =? 0x1f3 then a_lbal a
   else if port =? 0x1f4 then a_lbam a else if port =? 0x1f5 then a_lbah a else 0, a).
Definition sim_command (v : Z) (a : ata) : ata :=
  if v =? CMD_IDENTIFY_DEVICE then if 0 <? cap (selected a) then to_phase (Reading (a_identity a (selected a))) a else a
  else if (a_nsect a =? 1) && Z.testbit (a_dev a) 6 && (sector_of a <? cap (selected a)) then
    if v =? CMD_READ_SECTOR_RETRY then to_phase (Reading (a_medium a (selected a) (sector_of a))) a
    else if v =? CMD_WRITE_SECTOR_RETRY then to_phase (DataOut k (sector_of a)) a else a
  else a.
Definition sim_outb (port v : Z) (a : ata) : ata :=
  match a_phase a with
  | Idle =>
      if port =? 0x1f2 then Ata (a_dev a) v (a_lbal a) (a_lbam a) (a_lbah a) Idle (a_medium a) (a_identity a)
      else if port =? 0x1f3 then Ata (a_dev a) (a_nsect a) v (a_lbam a) (a_lbah a) Idle (a_medium a) (a_identity a)
      else if port =? 0x1f4 then Ata (a_dev a) (a_nsect a) (a_lbal a) v (a_lbah a) Idle (a_medium a) (a_identity a)
      else if port =? 0x1f5 then Ata (a_dev a) (a_nsect a) (a_lbal a) (a_lbam a) v Idle (a_medium a) (a_identity a)
      else if port =? 0x1f6 then Ata v (a_nsect a) (a_lbal a) (a_lbam a) (a_lbah a) Idle (a_medium a) (a_identity a)
      else if port =? 0x1f7 then sim_command v a
      else if (port =? 0x3f6) && Z.testbit v 2 then Ata 0 1 1 0 0 Idle (a_medium a) (a_identity a)
      else a
  | _ => a
  end.
Definition sim_insw (port cnt : Z) (a : ata) : list Z * ata :=
  match a_phase a with DataIn data => if port =? 0x1f0 then (data, to_phase Idle a) else ([], a) | _ => ([], a) end.
Definition sim_outsw (port : Z) (data : list Z) (a : ata) : ata :=
  match a_phase a with DataOut O s => if port =? 0x1f0 then to_phase (Writing s data) a else a | _ => a end.
Definition sim_pass (ns : Z) (a : ata) : ata :=
  match a_phase a with DataOut (S k) s => if 10000000 <=? ns then to_phase (DataOut k s) a else a | _ => a end.
Definition sim_irq (a : ata) : option (Z * ata) :=
  match a_phase a with
  | Reading data => Some (0x2e, to_phase (DataIn data) a)
  | Writing s data => Some (0x2e, to_medium (Ide.stored (a_medium a) (selected a) s data) (to_phase Idle a))
  | _ => None
  end.
Definition sim : ports ata := Ports sim_inb sim_outb sim_insw sim_outsw sim_pass sim_irq.

#[global] Instance sim_ata : (k < 3000)%nat → AtaOk sim (λ a, a) 0x1f0 0x2e cap.
Proof.
  intros Hk. split; cbn -[Z.testbit Z.land sector_of selected CMD_READ_SECTOR_RETRY].
  - intros port h Hp. split; [done|]. unfold sim_inb. assert ((port =? 0x1f7) || (port =? 0x3f6) = true) as -> by (by destruct Hp as [-> | ->]). cbn [fst].
    unfold sim_status. destruct (a_phase h) as [| | |[|]|]; cbn -[Z.land]; try done. by destruct (0 <? cap (selected h)).
  - intros h v Hp. unfold sim_outb. by rewrite Hp.
  - intros h v Hp. unfold sim_outb. by rewrite Hp.
  - intros h v Hp. unfold sim_outb. by rewrite Hp.
  - intros h v Hp. unfold sim_outb. by rewrite Hp.
  - intros h v Hp. unfold sim_outb. by rewrite Hp.
  - intros h Hp Hn Hl Hs. unfold sim_outb. rewrite Hp. cbn -[sector_of selected Z.testbit]. unfold sim_command. rewrite Hn, Hl. by destruct (Z.ltb_spec (sector_of h) (cap (selected h))); [|lia].
  - intros h Hp Hn Hl Hs. exists k. split; [done|]. unfold sim_outb. rewrite Hp. cbn -[sector_of selected Z.testbit]. unfold sim_command. rewrite Hn, Hl. by destruct (Z.ltb_spec (sector_of h) (cap (selected h))); [|lia].
  - intros h Hp Hs. unfold sim_outb. rewrite Hp. cbn -[selected]. unfold sim_command. by destruct (Z.ltb_spec 0 (cap (selected h))); [|lia].
  - intros h data Hp. unfold sim_insw. by rewrite Hp.
  - intros h s data Hp _. unfold sim_outsw. by rewrite Hp.
  - intros h ns Hp. unfold sim_pass. by rewrite Hp.
  - intros h ns j s Hp Hns. unfold sim_pass. rewrite Hp. by destruct (Z.leb_spec 10000000 ns); [|lia].
  - intros h data Hp. unfold sim_irq. rewrite Hp. by eexists.
  - intros h s data Hp. unfold sim_irq. rewrite Hp. by eexists.
Qed.
End Controller.

(** A disk of 16 sectors as device 0, with the model "QEMU" and no serial
    number. *)
Definition demo_id : list Z := replicate 20 0 ++ chars "EQUM" ++ replicate 96 32 ++ le4 16 ++ replicate 388 0.
Definition demo_disk (dev : Z) : Z := if dev =? 0 then 16 else 0.
Definition demo_hw : ata := Ata 0 1 1 0 0 Idle (λ _ _, replicate 512 0) (λ _, demo_id).
Definition no_channel : channel := Channel [] 0 0 false false 0 [].
Definition demo_start : ide ata := Ide [no_channel; no_channel] demo_hw true [] [] [].

(** Initialization finds it. *)
Example ide_init_demo : match ide_init (sim demo_disk 2) 1 1 demo_start with
  | Ret (_, s) => disks s = [Disk (chars "hda") (chars "model " ++ [34] ++ chars "QEMU" ++ [34] ++ chars ", serial " ++ [34; 34]) 16 []] ∧ handlers s = [47; 46] ∧ console s = []
  | Fail _ => False
  end.
Proof. vm_compute. done. Qed.

(** The channels after initialization. *)
Definition demo_ide : ide ata :=
  Ide [Channel (chars "ide0") 0x1f0 0x2e false false 0 [AtaDisk (chars "hda") 0 true; AtaDisk (chars "hdb") 1 false];
       Channel (chars "ide1") 0x170 0x2f false false 0 [AtaDisk (chars "hdc") 0 false; AtaDisk (chars "hdd") 1 false]] demo_hw true [47; 46] [] [].

Lemma demo_ide_ok : ide_ok (λ a, a) 0x1f0 0x2e demo_disk 0 0 0 [] demo_ide.
Proof.
  exists demo_hw. split.
  - split; [|done]. eexists. split; [split; [reflexivity|done|done| |by eexists|done|done|done]|by split].
    intros [|[|c']] ch; [done|by intros [= <-] [=]|done].
  - intros n Hn. unfold sector_data, BLOCK_SECTOR_SIZE. cbn [a_medium demo_hw]. by rewrite length_replicate.
Qed.

